(* ===== verification/_CoqProject ===== *)
-Q . S2P
Prelude.v
Mem.v
Cstring.v
Buffer.v
Pool.v
DList.v
Hash.v
Desc.v
Field.v
Struct.v
BusApi.v
World.v
Bus.v
Object.v
Event.v
Call.v
BusEvent.v
Teardown.v
CallFacts.v
Io.v
Packet.v
EventWire.v
BusEventWire.v
Handler.v
ServerState.v
Server.v
ServerFacts.v
ServerSend.v
ServerCount.v
ServerRequest.v
ClientState.v
Client.v
ClientFacts.v
ClientCall.v
ClientRemove.v
CallWire.v
Utils.v
Loop.v
LoopFacts.v
LoopRun.v
Timer.v
TimerFacts.v
TimerRun.v
LoopPosix.v
LoopPosixFacts.v
LoopPosixRun.v
TimerPosix.v
TimerPosixFacts.v
Addr.v
AddrFacts.v
Printf.v
Log.v
LogFacts.v
Format.v
FormatFacts.v
Logs.v
Socket.v
SocketLaws.v
SocketInv.v
SocketFacts.v
SocketOps.v
SocketLife.v
SocketAddr.v
SocketClient.v
SocketServer.v
SocketPeer.v
SocketRun.v
SocketSafe.v
SocketWitness.v
