(* ===== verification/Prelude.v ===== *)
(** * Verification of libobus

    libobus (src/src/libobus) is a C library for object buses: a server owns
    objects, described by generated tables; clients connect to it over sockets,
    get a copy of every object, receive their updates and call their methods.
    This library is a shallow embedding of its C code, file by file, with the
    theorems that make the parts correct.

    ** Layers of the program and files of the development

    - Prelude: errno values, machine integers, list and arithmetic lemmas, tactics.
    - Mem, Cstring: the heap of character blocks, the program monad [M] and its
      weakest preconditions [wp]; [strdup], [free], [strlen] of the C library.
    - Buffer, Pool (obus_buffer.h): growable buffers, their big-endian integers
      and strings; pools of reference-counted buffers.
    - DList (obus_list.h): intrusive lists, pointer by pointer, and the abstract
      sequences the other files use instead.
    - Hash (obus_hash.c): the hash table of the registries.
    - Desc, Field, Struct (libobus_private.h, obus_field.c, obus_struct.c): the
      descriptions, the memory of a described structure as cells at byte offsets,
      its encoding and decoding.
    - BusApi (obus_bus_api.c): the lookup tables of a bus description.
    - World (obus_object.h, obus_call.h, obus_bus_event.h, obus_bus.h): the stores
      of the structures that point to each other, the monad [W] over them.
    - Bus, Teardown (obus_bus.c), Object (obus_object.c), Event (obus_event.c), Call
      (obus_call.c), BusEvent (obus_bus_event.c): the registries and the members of
      a bus; CallFacts: how calls end.
    - Io (obus_io.c): reads, the write queue and its completions.
    - Packet (obus_packet.c): encoders, the header scanner, the decoding loop;
      EventWire: events on the wire and their sanitizing; BusEventWire: bus events on
      the wire, their members made and linked by the receiver.
    - Handler: the monad [StW] of a component that owns a bus, the answers of the
      kernel, walks over lists that change, weakest preconditions and invariants
      of runs; [obus_io_new].
    - ServerState, Server (obus_server.c): peers and the server interface;
      ServerFacts, ServerSend, ServerCount, ServerRequest: its theorems.
    - ClientState, Client (obus_client.c): the client; ClientFacts, ClientCall,
      ClientRemove: its theorems.  CallWire: calls on the wire, and a call of a client
      composed with the server that answers it and with the answer it gets.
    - Printf: the formatted output of the language ([snprintf] and [printf]: integers,
      characters, texts, floating point numbers of a value) over buffers of characters.
    - Log (obus_log.c): messages on stderr, the callback of the application, dumps of
      buffers; LogFacts: its theorems.
    - Format (obus_field.c, obus_struct.c, obus_object.c): the text of fields in the
      buffer of [obus_struct_log]; FormatFacts: its theorem.
    - Logs: the log functions of objects, events, calls, bus events, packets and
      descriptions, and the names of statuses and states.
    - Utils (obus_utils.c): descriptor flags, the environment, the log flags of a
      bus, random handles.
    - Loop (obus_loop.c, obus_loop.h): the event loop over epoll; LoopFacts: what
      its operations do and keep; LoopRun: its reachable states and theorems.
    - Timer (obus_timer.c): timers over timerfd, as objects of the loop;
      TimerFacts, TimerRun: its theorems.
    - LoopPosix (obus_loop_posix.c), TimerPosix (obus_timer_posix.c): the variants
      for systems without epoll and timerfd, a loop over poll with a hash table and
      timers over signals and pipes; LoopPosixFacts, LoopPosixRun, TimerPosixFacts:
      their theorems.
    - Addr (obus_socket.c): socket addresses; AddrFacts: its theorems.
    - Socket (obus_socket.c): the clients, servers and peers of sockets, over the
      loop and the timers.  SocketLaws: what the kernel promises on timers that are
      set and on sockets; SocketInv: the relations between sockets, descriptor
      objects, timers and descriptors; SocketFacts, SocketOps, SocketLife: the steps
      the operations share (descriptors, the base, timers, blocks); SocketAddr:
      addresses stay terminated; SocketClient, SocketServer, SocketPeer: each
      operation keeps the relations; SocketRun, SocketSafe: events, the operations
      of an application, reachable states, the theorems; SocketWitness: a small
      kernel and the theorems applied to it.

    The parts call each other as in C: the server and the client encode packets
    (Packet) into buffers of their pool (Pool), write them (Io), decode what they
    read, and act on their bus (Bus and the files of its members), whose tables
    are hash tables (Hash) and whose objects hold structures (Struct).

    ** Conventions

    - A definition has the name of the C function it translates.  A piece of a
      function that had to be named apart is documented where it is defined.
    - A result [None] of [M], [W] or [StW] is undefined behaviour: an access out
      of bounds or through a NULL or freed pointer, a corrupted intrusive list, a
      double free; or a script of answers that is too short, which is no
      execution.  A theorem [wp c Q m] says that [c] is defined and ends in [Q].
    - Integers are Z with the wrap-around of their C type written out ([u8], [u16],
      [u32], [u64], [i32]).  Error codes are the negative numbers of the code.
    - Allocation asks an [Allocator], whose refusals are arbitrary; [AmpleMemory]
      is the allocator that never refuses.
    - System calls ask a [Kernel]: the results of each [write] and [read], the
      handles drawn from /dev/urandom, the outcome of timers and descriptors.
    - The loop, the timers and the utilities ask a kernel state by system call
      ([FdKernel], [EpollKernel], [TimerKernel], [SocketKernel], [PollKernel],
      [SignalKernel]).  What the theorems rely on is a class of laws in terms of the
      open descriptors, of the interest sets of the epoll descriptors and of the
      timers that are set ([LawfulEpoll], [LawfulTimer], [LawfulArm],
      [LawfulSocket], [LawfulPoll], [LawfulSignal]);
      [Toy], [ToySock], [ToyPoll] and [ToySignal] are kernels that have them.  The
      text of internet addresses is [InetText], with [LawfulInet].
    - The names of descriptions and the formatters of enumerations, generated code,
      are classes of the log files ([FieldNames], [DescNames], [EnumFormat]); the law
      [LawfulFormat] says that a formatter writes the bounded text [snprintf] would.
    - The application is a class ([UserCode] of a server, [ClientCode] of a client)
      of arbitrary computations on the whole state.  What a theorem needs of it is
      a class of its own: [QuietUser], [LawfulUser], [DecidingUser],
      [AnsweringUser], [LawfulClient], [LawfulLoop], [LawfulTimers], [LawfulPosix];
      the laws that constrain re-entrant code ([LawfulUser], [LawfulClient],
      [LawfulLoop], [LawfulTimers], [LawfulPosix]) are proved for every application
      whose callbacks make the operations of a type, in any order and at any depth
      ([api_op], which leaves out the destruction of the server and the turns of its
      loop, [loop_op], [timer_op], [poll_op], [sock_op]).
    - What is sent from a server is stated for any allocator and any write error; where
      the conclusion needs them, memory that is not refused and writes that fail with
      EINTR and EAGAIN only are said to be needed ([AmpleMemory], [soft], [Healthy]).
    - The application of the loop over poll ([PosixCode]) makes the operations that
      [poll_op_allowed] allows: its objects exist, it adds descriptors below the
      limit of Linux ([FD_LIMIT]), removes an object only when it is registered or
      when its descriptor is not ([may_remove]); and it does not run the loop in a
      callback.
    - The application of sockets ([SocketCode], [LawfulSockets], [LawfulApp]) makes
      the operations that [sock_op_allowed] allows: it leaves alone the objects and
      timers of its sockets, does not watch the descriptor of one that is connecting,
      listening or waiting, and closes a socket only when nothing else watches its
      descriptor.  Servers are made only where allocation never refuses ([Serving]):
      their name is used without a test.
    - NULL tests on arguments the model cannot represent as NULL are left out, and
      so are, in the handlers, the calls of log functions; the file Logs shows what
      those functions do: they are defined and change nothing but the log.  The calls
      made to call-status handlers are recorded in [w_notes].

    ** Loops and fuel

    The scan for a header has the unread bytes as fuel ([scan_fuel]), the write
    loops the script of the kernel, [drain] the length of the queue plus one, a
    walk the length of its list: each is enough, as the theorems that use them
    show.  The retry loop of handles takes the list of draws ([draw_handle_total]).
    The decoding loop and the read loops take fuel that stands for the number of
    turns ([decoder_turn] is one turn of the decoder); one packet makes them loop for
    ever, each turn defined and back where it started ([zero_size_packet_hangs]).  A call
    retried on EINTR has the number of interruptions the kernel state still holds
    ([k_interrupts], decreased by each), the dispatch of epoll events the size of
    the array, the walk over the array of poll [2 ^ 31] turns, more than an [int]
    counts ([turns]).  [flag_scan] has the length of the value, and an empty bus
    name makes it loop for ever ([empty_name_scan_hangs]).

    ** What the theorems show

    - Data: encoding and decoding are inverse for integers, strings, structures,
      objects, requests, calls, events, bus events, acknowledgments and removals; decoding any
      bytes is safe; the header scanner finds the first header; presence bits are a
      set; sanitizing an event clears what its description does not declare.
    - Tables: the hash table refines an ordered map, intrusive lists refine
      sequences, the registries of a bus refine finite maps and lists, handles are
      unique.
    - Io: the stream is written in order, nothing lost or doubled as long as no write
      fails; completions come once and in order, and a write event goes on until the
      queue is empty or the kernel blocks; buffers given out by a pool are exclusive.
    - Server: who receives what is sent when objects are registered and
      unregistered, the answers to connection requests and to calls, the count of
      connected peers in every reachable state.
    - Client: the connection states in every reachable state, what a call and an
      acknowledgment do to the registry and to the stream; a call composed with the
      read handler of the server that gets it and with that of the client when the
      acknowledgment comes back.
    - Event loop: what is listed, marked, counted and watched by the kernel agrees
      in every reachable state, whatever the callbacks do; a turn serves what the
      kernel reports, in its order; updates fail.
    - Loop over poll: the table, the marks and the count agree in every state that
      allowed operations reach, when callbacks do not run the loop again; where they do, and where an
      object that is not registered is removed, the code goes wrong.
    - Timers over signals: creation is all or nothing, destruction gives all back.
    - Timers: every timer stays registered and open until it is destroyed, and the
      loop lives as long; the value given to the kernel is the exact delay.
    - Addresses: the name of an address is parsed and printed back; a name whose
      host is no address denotes the wildcard address.
    - Sockets: every allowed operation of an application is defined in every reachable
      state, whatever its callbacks do; each client has its timer, each peer is in
      the list of its server, the descriptors of sockets are open and their own; a
      connection that fails is attempted again, unless the kernel refuses the timer; opening a socket twice leaks.
    - Utilities: the log flags are the words of the environment.
    - Logs: a dump is a function of the bytes that can be read back; the text of a
      structure stays in its buffer and is the text of its contents; the log of a bus
      event shows all its members.
    - Faults: inputs on which the code crashes or hangs, as theorems.

    ** Not modelled

    Sockets over the loop over poll: the sockets of the model use the loop over
    epoll.  The functions of clients and servers that only forward to the loop or to
    the socket ([obus_client_fd], [obus_server_posix_get_fds] and the like,
    [obus_peer_get_address]), and the dumps of traffic an io makes when asked to.  The
    other languages of the repository, the example programs, and obusgen, whose
    output is an argument of the models (a description). *)
From stdpp Require Export base tactics option numbers list gmap fin_maps.
From Stdlib Require Export ZArith Lia.


Declare Scope obus_scope.
Delimit Scope obus_scope with obus.
#[global] Open Scope Z_scope.

(** ** errno values (Linux) *)

Definition EPERM : Z := 1.
Definition ENOENT : Z := 2.
Definition EINTR : Z := 4.
Definition EIO : Z := 5.
Definition EAGAIN : Z := 11.
Definition ENOMEM : Z := 12.
Definition EBUSY : Z := 16.
Definition EEXIST : Z := 17.
Definition ENODEV : Z := 19.
Definition EINVAL : Z := 22.
Definition ENOSYS : Z := 38.

(** ** Machine integers: unsigned wrap-around and signed reinterpretation *)

Definition u8 (z : Z) : Z := z mod 2 ^ 8.
Definition u16 (z : Z) : Z := z mod 2 ^ 16.
Definition u32 (z : Z) : Z := z mod 2 ^ 32.
Definition u64 (z : Z) : Z := z mod 2 ^ 64.
Definition i32 (z : Z) : Z := (z + 2 ^ 31) mod 2 ^ 32 - 2 ^ 31.

Definition PTRDIFF_MAX : Z := 2 ^ 63 - 1.

Arguments u8 : simpl never.
Arguments u16 : simpl never.
Arguments u32 : simpl never.
Arguments u64 : simpl never.
Arguments i32 : simpl never.
Arguments PTRDIFF_MAX : simpl never.

Lemma u8_small z : 0 <= z < 2 ^ 8 -> u8 z = z.
Proof. apply Z.mod_small. Qed.
Lemma u16_small z : 0 <= z < 2 ^ 16 -> u16 z = z.
Proof. apply Z.mod_small. Qed.
Lemma u32_small z : 0 <= z < 2 ^ 32 -> u32 z = z.
Proof. apply Z.mod_small. Qed.
Lemma u64_small z : 0 <= z < 2 ^ 64 -> u64 z = z.
Proof. apply Z.mod_small. Qed.
Lemma i32_small z : - 2 ^ 31 <= z < 2 ^ 31 -> i32 z = z.
Proof. intros H. unfold i32. rewrite Z.mod_small; lia. Qed.

Lemma u8_range z : 0 <= u8 z < 256.
Proof. apply Z.mod_pos_bound. lia. Qed.
Lemma u16_range z : 0 <= u16 z < 65536.
Proof. apply Z.mod_pos_bound. lia. Qed.
Lemma u32_range z : 0 <= u32 z < 4294967296.
Proof. apply Z.mod_pos_bound. lia. Qed.
Lemma u64_range z : 0 <= u64 z < 18446744073709551616.
Proof. apply Z.mod_pos_bound. lia. Qed.

Lemma i32_u32 z : - 2 ^ 31 <= z < 2 ^ 31 -> i32 (u32 z) = z.
Proof.
  intros H. unfold i32, u32.
  rewrite Z.add_mod_idemp_l by lia. rewrite Z.mod_small; lia.
Qed.

(** ** Big-endian byte strings *)

Definition is_byte (z : Z) : Prop := 0 <= z < 256.

(** [be_bytes n z]: the [n] low bytes of [z], most significant first. *)
Fixpoint be_bytes (n : nat) (z : Z) : list Z :=
  match n with
  | O => []
  | S n' => u8 (Z.shiftr z (8 * Z.of_nat n')) :: be_bytes n' z
  end.

Definition be_val (l : list Z) : Z := fold_left (fun acc b => acc * 256 + b) l 0.

Lemma length_be_bytes n z : length (be_bytes n z) = n.
Proof. induction n; simpl; congruence. Qed.

Lemma be_bytes_byte n z : Forall is_byte (be_bytes n z).
Proof. induction n; simpl; constructor; [apply u8_range | done]. Qed.

Lemma be_val_acc l acc :
  fold_left (fun acc b => acc * 256 + b) l acc
  = acc * 256 ^ Z.of_nat (length l) + be_val l.
Proof.
  unfold be_val. revert acc. induction l as [|b l IH]; intros acc; simpl.
  - lia.
  - rewrite (IH (acc * 256 + b)), (IH (0 * 256 + b)).
    replace (Z.of_nat (S (length l))) with (Z.of_nat (length l) + 1) by lia.
    rewrite Z.pow_add_r, Z.pow_1_r by lia. ring.
Qed.

Lemma be_val_be_bytes n z : be_val (be_bytes n z) = z mod 256 ^ Z.of_nat n.
Proof.
  induction n as [|n IH]; [simpl; by rewrite Z.mod_1_r|].
  cbn [be_bytes]. unfold be_val. cbn [fold_left].
  rewrite be_val_acc, length_be_bytes, IH.
  unfold u8. rewrite Z.shiftr_div_pow2 by lia.
  replace (2 ^ (8 * Z.of_nat n)) with (256 ^ Z.of_nat n)
    by (change 256 with (2 ^ 8); rewrite <- Z.pow_mul_r by lia; reflexivity).
  replace (Z.of_nat (S n)) with (Z.of_nat n + 1) by lia.
  rewrite Z.pow_add_r, Z.pow_1_r by lia.
  pose proof (Z.pow_pos_nonneg 256 (Z.of_nat n) ltac:(lia) ltac:(lia)) as Hp.
  rewrite Z.rem_mul_r by lia. change (2 ^ 8) with 256. lia.
Qed.

#[global] Arguments be_bytes : simpl never.

Lemma be_val_cons b l : be_val (b :: l) = b * 256 ^ Z.of_nat (length l) + be_val l.
Proof. unfold be_val at 1. cbn [fold_left]. by rewrite be_val_acc. Qed.

Lemma be_val_range l : Forall is_byte l -> 0 <= be_val l < 256 ^ Z.of_nat (length l).
Proof.
  induction l as [|b l IH]; intros H; [by cbn|]. inversion H as [|? ? Hb Hl]; subst.
  specialize (IH Hl). unfold is_byte in Hb. rewrite be_val_cons. cbn [length].
  rewrite Nat2Z.inj_succ, Z.pow_succ_r by lia. nia.
Qed.

Lemma be_val_inj l l' :
  Forall is_byte l -> Forall is_byte l' -> length l = length l' -> be_val l = be_val l' -> l = l'.
Proof.
  revert l'. induction l as [|b l IH]; intros [|b' l'] H H' Hl He; try done.
  inversion H as [|? ? Hb Hs]; inversion H' as [|? ? Hb' Hs']; subst. injection Hl as Hl.
  rewrite !be_val_cons, Hl in He. pose proof (be_val_range l Hs) as R. pose proof (be_val_range l' Hs') as R'.
  rewrite Hl in R. set (q := 256 ^ Z.of_nat (length l')) in *.
  assert (b = b') as -> by nia. f_equal. apply IH; [done..|lia].
Qed.

Lemma be_bytes_be_val l : Forall is_byte l -> be_bytes (length l) (be_val l) = l.
Proof.
  intros H. apply be_val_inj; [apply be_bytes_byte|done|apply length_be_bytes|].
  rewrite be_val_be_bytes, Z.mod_small; [done|by apply be_val_range].
Qed.

(** ** Control: error codes *)

(** [ret < 0] is how the C code recognises an error. *)
Definition failed (ret : Z) : bool := Z.ltb ret 0.

Lemma failed_spec ret : failed ret = true <-> ret < 0.
Proof. apply Z.ltb_lt. Qed.

(** ** Tactics *)

(** Linear arithmetic with the wrap-around functions and [mod]/[/] unfolded. *)
Ltac wrap_lia :=
  unfold is_byte, u8, u16, u32, u64, i32, PTRDIFF_MAX in *;
  Z.to_euclidean_division_equations; lia.

(** Split every boolean test of the goal. *)
Ltac case_bool :=
  match goal with
  | |- context [Z.ltb ?a ?b] => destruct (Z.ltb_spec a b)
  | |- context [Z.leb ?a ?b] => destruct (Z.leb_spec a b)
  | |- context [Z.eqb ?a ?b] => destruct (Z.eqb_spec a b)
  end.

Create HintDb obus discriminated.
Create Rewrite HintDb obus.
#[export] Hint Resolve u8_range u16_range u32_range u64_range be_bytes_byte : obus.
#[export] Hint Rewrite length_be_bytes be_val_be_bytes : obus.

(** ** Generic list lemmas *)

Lemma take_insert_le {A} (l : list A) (n i : nat) (x : A) :
  (n <= i)%nat -> take n (<[i:=x]> l) = take n l.
Proof. apply take_insert_ge. Qed.

(** Appending one element at the fill point of a bounded array. *)
Lemma take_S_insert {A} (l : list A) (n : nat) (x : A) :
  (n < length l)%nat -> take (S n) (<[n:=x]> l) = take n l ++ [x].
Proof.
  intros H. rewrite (take_S_r _ _ x).
  - by rewrite take_insert_ge.
  - by apply list_lookup_insert_eq.
Qed.

Lemma lookup_take_Z {A} (l : list A) (n i : nat) :
  (i < n)%nat -> take n l !! i = l !! i.
Proof. apply lookup_take_lt. Qed.

Lemma filter_ext_in {A} (P Q : A -> Prop) `{!forall x, Decision (P x)}
    `{!forall x, Decision (Q x)} (l : list A) :
  (forall x, x ∈ l -> P x <-> Q x) -> filter P l = filter Q l.
Proof.
  induction l as [|x l IH]; intros Hl; [done|].
  assert (filter P l = filter Q l) as E by (apply IH; intros y Hy; apply Hl; by right).
  destruct (decide (P x)) as [HP|HP].
  - rewrite !filter_cons_True; [by rewrite E|apply Hl; [by left|done]|done].
  - rewrite !filter_cons_False; [done| |done]. intros Hq. apply HP, Hl; [by left|done].
Qed.

Lemma filter_all {A} (P : A -> Prop) `{!forall x, Decision (P x)} (l : list A) :
  (forall x, x ∈ l -> P x) -> filter P l = l.
Proof.
  induction l as [|x l IH]; intros Hl; [done|].
  rewrite filter_cons_True by (apply Hl; by left). f_equal. apply IH. intros y Hy. apply Hl. by right.
Qed.

(** Two elements of a list with distinct images are equal when their images are. *)
Lemma NoDup_map_inj {A B} (f : A -> B) (l : list A) (x y : A) :
  NoDup (map f l) -> x ∈ l -> y ∈ l -> f x = f y -> x = y.
Proof.
  intros Hn Hx Hy Hf. apply list_elem_of_lookup in Hx as [i Hi], Hy as [j Hj].
  assert (i = j) as ->; [|congruence].
  apply (NoDup_lookup _ i j (f x) Hn); rewrite list_lookup_fmap; [by rewrite Hi|].
  by rewrite Hj, Hf.
Qed.

Lemma NoDup_map_filter {A B} (f : A -> B) (P : A -> Prop) `{!forall x, Decision (P x)} (l : list A) :
  NoDup (map f l) -> NoDup (map f (filter P l)).
Proof.
  intros Hn. eapply sublist_NoDup; [exact Hn|]. apply fmap_sublist, sublist_filter.
Qed.

(** ** Bits: disjoint [Z.lor] is addition; masks and shifts are mod and div *)

Lemma lor_disjoint_add a b n :
  0 <= n -> 0 <= b < 2 ^ n -> Z.lor (a * 2 ^ n) b = a * 2 ^ n + b.
Proof.
  intros Hn Hb. symmetry. apply Z.add_nocarry_lor.
  apply Z.bits_inj'. intros i Hi. rewrite Z.land_spec, Z.bits_0.
  destruct (Z.lt_ge_cases i n).
  - by rewrite Z.mul_pow2_bits_low.
  - rewrite (proj1 (Z.bounded_iff_bits_nonneg' n b Hn (proj1 Hb)) Hb) by done.
    apply andb_false_r.
Qed.

Lemma u8_land_255 z : u8 (Z.land z 255) = u8 z.
Proof.
  unfold u8. change 255 with (Z.ones 8). rewrite Z.land_ones by lia.
  apply Z.mod_mod. lia.
Qed.

Lemma be_bytes_2 v :
  be_bytes 2 v = [u8 (Z.land (Z.shiftr v 8) 255); u8 (Z.land v 255)].
Proof. rewrite !u8_land_255. reflexivity. Qed.

Lemma be_bytes_4 v :
  be_bytes 4 v = [u8 (Z.land (Z.shiftr v 24) 255); u8 (Z.land (Z.shiftr v 16) 255);
                  u8 (Z.land (Z.shiftr v 8) 255); u8 (Z.land v 255)].
Proof. rewrite !u8_land_255. reflexivity. Qed.

Lemma be_bytes_8 v :
  be_bytes 8 v = [u8 (Z.land (Z.shiftr v 56) 255); u8 (Z.land (Z.shiftr v 48) 255);
                  u8 (Z.land (Z.shiftr v 40) 255); u8 (Z.land (Z.shiftr v 32) 255);
                  u8 (Z.land (Z.shiftr v 24) 255); u8 (Z.land (Z.shiftr v 16) 255);
                  u8 (Z.land (Z.shiftr v 8) 255); u8 (Z.land v 255)].
Proof. rewrite !u8_land_255. reflexivity. Qed.

(** The recombinations of the readers are [be_val]. *)
Lemma be_val_2 b0 b1 :
  is_byte b0 -> is_byte b1 -> u16 (Z.shiftl b0 8 + b1) = be_val [b0; b1].
Proof.
  unfold is_byte, be_val. intros H0 H1. rewrite Z.shiftl_mul_pow2 by lia.
  rewrite u16_small by lia. cbn [fold_left]. lia.
Qed.

Lemma lor_shift_step w hi lo n n8 :
  n8 = n + 8 -> 0 <= n -> 0 <= hi -> 0 <= lo < 256 -> lo * 2 ^ n < 2 ^ w ->
  Z.lor (hi * 2 ^ n8) (Z.shiftl lo n mod 2 ^ w) = (hi * 256 + lo) * 2 ^ n.
Proof.
  intros -> Hn Hhi Hlo Hw. rewrite Z.shiftl_mul_pow2 by done.
  pose proof (Z.pow_pos_nonneg 2 n ltac:(lia) Hn).
  rewrite Z.mod_small by nia.
  rewrite lor_disjoint_add; [rewrite Z.pow_add_r by lia; lia|lia|].
  rewrite Z.pow_add_r by lia. nia.
Qed.

Lemma be_val_4 b0 b1 b2 b3 :
  is_byte b0 -> is_byte b1 -> is_byte b2 -> is_byte b3 ->
  Z.lor (Z.lor (Z.lor (u32 (Z.shiftl b0 24)) (u32 (Z.shiftl b1 16)))
               (u32 (Z.shiftl b2 8))) b3 = be_val [b0; b1; b2; b3].
Proof.
  unfold is_byte, be_val, u32. intros. cbn [fold_left].
  rewrite (Z.shiftl_mul_pow2 b0), (Z.mod_small (b0 * _)) by lia.
  rewrite (lor_shift_step 32 b0 b1 16 24), (lor_shift_step 32 (b0 * 256 + b1) b2 8 16) by lia.
  rewrite lor_disjoint_add by lia. lia.
Qed.

Lemma be_val_8 b0 b1 b2 b3 b4 b5 b6 b7 :
  is_byte b0 -> is_byte b1 -> is_byte b2 -> is_byte b3 ->
  is_byte b4 -> is_byte b5 -> is_byte b6 -> is_byte b7 ->
  Z.lor (Z.lor (Z.lor (Z.lor (Z.lor (Z.lor (Z.lor
    (u64 (Z.shiftl b0 56)) (u64 (Z.shiftl b1 48))) (u64 (Z.shiftl b2 40)))
    (u64 (Z.shiftl b3 32))) (u64 (Z.shiftl b4 24))) (u64 (Z.shiftl b5 16)))
    (u64 (Z.shiftl b6 8))) b7 = be_val [b0; b1; b2; b3; b4; b5; b6; b7].
Proof.
  unfold is_byte, be_val, u64. intros. cbn [fold_left].
  rewrite (Z.shiftl_mul_pow2 b0), (Z.mod_small (b0 * _)) by lia.
  rewrite (lor_shift_step 64 b0 b1 48 56) by lia.
  rewrite (lor_shift_step 64 _ b2 40 48) by lia.
  rewrite (lor_shift_step 64 _ b3 32 40) by lia.
  rewrite (lor_shift_step 64 _ b4 24 32) by lia.
  rewrite (lor_shift_step 64 _ b5 16 24) by lia.
  rewrite (lor_shift_step 64 _ b6 8 16) by lia.
  rewrite lor_disjoint_add by lia. lia.
Qed.
