(* ===== verification/Mem.v ===== *)
(** * The C heap and the program monad

    [mem] is the part of the C heap whose aliasing the library relies on: the
    [malloc]ed character blocks that [char *] fields point to.  A program is a
    function [M A := mem -> option (A * mem)]; [None] is undefined behaviour
    (an access outside a block, a use after free, a double free).  Allocation
    may fail at any call: the outcome of the n-th allocation is read from an
    [Allocator], so theorems hold for every pattern of failures, and the
    contents of fresh memory are the allocator's unspecified bytes. *)
From S2P Require Import Prelude.

(** ** The allocator: an oracle for [malloc], [calloc] and [realloc] *)

Class Allocator := {
  malloc_ok : nat -> Z -> bool;   (* does allocation number k of n bytes succeed? *)
  malloc_byte : nat -> nat -> Z;  (* unspecified contents of a fresh block *)
  malloc_ok_bound : forall k n, malloc_ok k n = true -> n <= PTRDIFF_MAX;
  malloc_byte_range : forall k i, is_byte (malloc_byte k i)
}.

(** The allocator never runs out of memory. *)
Class AmpleMemory (A : Allocator) :=
  malloc_ample : forall k n, n <= PTRDIFF_MAX -> malloc_ok k n = true.

(** ** Heap and monad *)

Record mem := Mem {
  m_blocks : gmap positive (list Z);  (* live character blocks *)
  m_next : positive;                  (* every live block is below *)
  m_count : nat                       (* allocations performed so far *)
}.

Definition mem_wf (m : mem) : Prop :=
  forall p, is_Some (m_blocks m !! p) -> (p < m_next m)%positive.

Definition M (A : Type) : Type := mem -> option (A * mem).

#[export] Instance M_ret : MRet M := fun A a m => Some (a, m).
#[export] Instance M_bind : MBind M := fun A B f c m =>
  match c m with
  | Some (a, m') => f a m'
  | None => None
  end.

Definition m_undef {A} : M A := fun _ => None.
Definition m_lift {A} (o : option A) : M A :=
  fun m => match o with Some a => Some (a, m) | None => None end.

Section Alloc.
Context {AL : Allocator}.

(** One allocation request of [n] bytes; [Some k] names the allocation. *)
Definition m_alloc (n : Z) : M (option nat) := fun m =>
  let k := m_count m in
  let m' := Mem (m_blocks m) (m_next m) (S k) in
  Some (if malloc_ok k n then Some k else None, m').

Definition fresh_bytes (k start n : nat) : list Z :=
  map (malloc_byte k) (seq start n).

(** [malloc] of a character block with initial contents [f k]. *)
Definition m_new_block (n : Z) (f : nat -> list Z) : M (option positive) := fun m =>
  let k := m_count m in
  if malloc_ok k n then
    let p := m_next m in
    Some (Some p, Mem (<[p := f k]> (m_blocks m)) (Pos.succ p) (S k))
  else Some (None, Mem (m_blocks m) (m_next m) (S k)).
End Alloc.

(** Access to a block; undefined when the block is not live. *)
Definition m_read (p : positive) : M (list Z) := fun m =>
  match m_blocks m !! p with
  | Some bs => Some (bs, m)
  | None => None
  end.

Definition m_write (p : positive) (bs : list Z) : M unit := fun m =>
  match m_blocks m !! p with
  | Some _ => Some (tt, Mem (<[p := bs]> (m_blocks m)) (m_next m) (m_count m))
  | None => None
  end.

(** [free]: undefined when the block is not live. *)
Definition m_free (p : positive) : M unit := fun m =>
  match m_blocks m !! p with
  | Some _ => Some (tt, Mem (delete p (m_blocks m)) (m_next m) (m_count m))
  | None => None
  end.

(** ** Loops *)

(** [for (...) { ret = body; if (ret < 0) break; }] over the listed indices. *)
Fixpoint for_each {A St : Type} (l : list A) (body : A -> St -> M (Z * St)) (s : St)
  : M (Z * St) :=
  match l with
  | [] => mret (0, s)
  | x :: l' =>
    '(ret, s') ← body x s;
    if failed ret then mret (ret, s') else for_each l' body s'
  end.

(** A loop without early exit. *)
Fixpoint for_all {A St : Type} (l : list A) (body : A -> St -> M St) (s : St) : M St :=
  match l with
  | [] => mret s
  | x :: l' => s' ← body x s; for_all l' body s'
  end.

(** ** Weakest preconditions *)

(** [wp c Q m]: from [m], [c] has no undefined behaviour and its result
    satisfies [Q]. *)
Definition wp {A} (c : M A) (Q : A -> mem -> Prop) (m : mem) : Prop :=
  exists a m', c m = Some (a, m') /\ Q a m'.

Section WP.
Context {A B : Type}.
Implicit Types (c : M A) (Q : A -> mem -> Prop).

Lemma wp_ret (a : A) Q m : Q a m -> wp (mret a) Q m.
Proof. intros H. by exists a, m. Qed.

Lemma wp_bind c (f : A -> M B) (Q : B -> mem -> Prop) m :
  wp c (fun a m' => wp (f a) Q m') m -> wp (c ≫= f) Q m.
Proof.
  intros (a & m' & Hc & b & m'' & Hf & HQ). exists b, m''. split; [|done].
  unfold mbind, M_bind. by rewrite Hc.
Qed.

Lemma wp_mono c Q1 Q2 m :
  wp c Q1 m -> (forall a m', Q1 a m' -> Q2 a m') -> wp c Q2 m.
Proof. intros (a & m' & Hc & HQ) Hi. exists a, m'. eauto. Qed.

Lemma wp_and c Q1 Q2 m :
  wp c Q1 m -> wp c Q2 m -> wp c (fun a m' => Q1 a m' /\ Q2 a m') m.
Proof.
  intros (a & m' & Hc & HQ) (a2 & m2 & Hc2 & HQ2). exists a, m'.
  rewrite Hc in Hc2. by simplify_eq.
Qed.

Lemma wp_lift (o : option A) a Q m : o = Some a -> Q a m -> wp (m_lift o) Q m.
Proof. intros -> H. by exists a, m. Qed.

Lemma wp_det c Q m a m' : wp c Q m -> c m = Some (a, m') -> Q a m'.
Proof. intros (a0 & m0 & Hc & HQ) H. rewrite Hc in H. by simplify_eq. Qed.
End WP.

Lemma wp_bind_mono {A B} (c : M A) (f : A -> M B) Q R m :
  wp c Q m -> (forall a m', Q a m' -> wp (f a) R m') -> wp (c ≫= f) R m.
Proof. intros H Hf. apply wp_bind. eapply wp_mono; [exact H|exact Hf]. Qed.

(** Invariant rule for the early-exit loop. *)
Lemma wp_for_each {A St} (I : list A -> St -> mem -> Prop) (E : Z -> St -> mem -> Prop)
    (body : A -> St -> M (Z * St)) (l : list A) (done : list A) (s : St) (m : mem) :
  I done s m ->
  (forall pre x post s m, done ++ l = pre ++ x :: post -> I pre s m ->
     wp (body x s) (fun r m' => let '(ret, s') := r in
        if failed ret then E ret s' m' else I (pre ++ [x]) s' m') m) ->
  wp (for_each l body s) (fun r m' => let '(ret, s') := r in
      (ret = 0 /\ I (done ++ l) s' m') \/ (failed ret = true /\ E ret s' m')) m.
Proof.
  revert done s m. induction l as [|x l IH]; intros done s m HI Hbody; simpl.
  - apply wp_ret. left. by rewrite app_nil_r.
  - eapply wp_bind_mono; [apply (Hbody done x l s m eq_refl HI)|].
    intros [ret s'] m' Hs. destruct (failed ret) eqn:Hf.
    + apply wp_ret. by right.
    + replace (done ++ x :: l) with ((done ++ [x]) ++ l) by by rewrite <- app_assoc.
      apply IH; [done|]. intros pre y post s2 m2 Heq. apply Hbody with (post := post).
      by rewrite <- Heq, <- app_assoc.
Qed.

Lemma wp_for_all {A St} (I : list A -> St -> mem -> Prop)
    (body : A -> St -> M St) (l : list A) (done : list A) (s : St) (m : mem) :
  I done s m ->
  (forall pre x post s m, done ++ l = pre ++ x :: post -> I pre s m ->
     wp (body x s) (fun s' m' => I (pre ++ [x]) s' m') m) ->
  wp (for_all l body s) (fun s' m' => I (done ++ l) s' m') m.
Proof.
  revert done s m. induction l as [|x l IH]; intros done s m HI Hbody; simpl.
  - apply wp_ret. by rewrite app_nil_r.
  - eapply wp_bind_mono; [apply (Hbody done x l s m eq_refl HI)|].
    intros s' m' Hs.
    replace (done ++ x :: l) with ((done ++ [x]) ++ l) by by rewrite <- app_assoc.
    apply IH; [done|]. intros pre y post s2 m2 Heq. apply Hbody with (post := post).
    by rewrite <- Heq, <- app_assoc.
Qed.

(** ** Facts about the heap operations *)

(** A later heap with the same character blocks. *)
Definition same_blocks (m m' : mem) : Prop :=
  m_blocks m' = m_blocks m /\ m_next m' = m_next m /\ (m_count m <= m_count m')%nat.

#[export] Instance same_blocks_preorder : PreOrder same_blocks.
Proof.
  split; [by intros m|]. intros m1 m2 m3 (H1 & H2 & H3) (H4 & H5 & H6). split_and!; [congruence..|lia].
Qed.

(** One more allocation. *)
Ltac later := first [done | unfold same_blocks; split_and!; cbn; solve [done | lia]].

Lemma same_blocks_wf m m' : same_blocks m m' -> mem_wf m -> mem_wf m'.
Proof. intros (H1 & H2 & _) Hw p. rewrite H1, H2. apply Hw. Qed.

(** [m'] has every block of [m], unchanged, and is well formed. *)
Record grows (m m' : mem) : Prop := {
  grows_wf : mem_wf m';
  grows_blocks : forall p bs, m_blocks m !! p = Some bs -> m_blocks m' !! p = Some bs;
  grows_next : (m_next m <= m_next m')%positive
}.

Lemma grows_refl m : mem_wf m -> grows m m.
Proof. intros W. constructor; [done|done|lia]. Qed.

Lemma grows_trans m1 m2 m3 : grows m1 m2 -> grows m2 m3 -> grows m1 m3.
Proof. intros [] []. constructor; [done|by eauto|lia]. Qed.

Lemma same_blocks_grows m m' : mem_wf m -> same_blocks m m' -> grows m m'.
Proof.
  intros W Hs. constructor; [by eapply same_blocks_wf|..].
  - destruct Hs as [-> _]. done.
  - destruct Hs as (_ & -> & _). lia.
Qed.

Section AllocFacts.
Context {AL : Allocator}.

Lemma wp_alloc n Q m :
  (forall k m', same_blocks m m' -> malloc_ok k n = true -> Q (Some k) m') ->
  (forall k m', same_blocks m m' -> malloc_ok k n = false -> Q None m') ->
  wp (m_alloc n) Q m.
Proof.
  intros H1 H2. unfold wp, m_alloc. do 2 eexists. split; [done|].
  destruct (malloc_ok (m_count m) n) eqn:E; [eapply H1|eapply H2]; first [done|later].
Qed.

Lemma length_fresh_bytes k s n : length (fresh_bytes k s n) = n.
Proof. unfold fresh_bytes. by rewrite length_map, length_seq. Qed.

Lemma fresh_bytes_byte k s n : Forall is_byte (fresh_bytes k s n).
Proof.
  unfold fresh_bytes. apply Forall_forall. intros x (i & -> & _)%list_elem_of_fmap.
  apply malloc_byte_range.
Qed.
End AllocFacts.

#[export] Hint Rewrite @length_fresh_bytes : obus.
#[export] Hint Resolve fresh_bytes_byte : obus.

(** A concrete allocator for evaluation: [n] bytes succeed up to a limit, fresh
    memory is filled with [0xAA]. *)
Lemma limit_alloc_bound (lim : Z) (k : nat) (n : Z) :
  Z.leb n lim && Z.leb n PTRDIFF_MAX = true -> n <= PTRDIFF_MAX.
Proof. intros [_ H]%andb_true_iff. by apply Z.leb_le. Qed.

Lemma aa_is_byte : is_byte 170.
Proof. unfold is_byte. lia. Qed.

Definition limit_alloc (lim : Z) : Allocator := {|
  malloc_ok := fun _ n => Z.leb n lim && Z.leb n PTRDIFF_MAX;
  malloc_byte := fun _ _ => 170;
  malloc_ok_bound := limit_alloc_bound lim;
  malloc_byte_range := fun _ _ => aa_is_byte
|}.

Definition ample_alloc : Allocator := limit_alloc PTRDIFF_MAX.

#[export] Instance ample_alloc_ample : AmpleMemory ample_alloc.
Proof. intros k n H. cbn. by rewrite andb_diag, Z.leb_le. Qed.

Definition mem0 : mem := Mem ∅ 1%positive 0.

Lemma mem0_wf : mem_wf mem0.
Proof. intros p [x Hx]. cbn in Hx. by rewrite lookup_empty in Hx. Qed.
