(* ===== verification/Cstring.v ===== *)
(** * C strings: [char *] values, [strlen], [strdup], [free] and [strcmp]

    A [char *] of the library is the null pointer, the static empty string
    [s_empty_string] of obus_field.c, or a live [malloc]ed block.  A block holds
    the raw bytes, terminator included. *)
From S2P Require Import Prelude Mem.

Inductive cstr :=
| CNull
| CEmpty              (* s_empty_string.v *)
| CHeap (p : positive).

#[export] Instance cstr_eq_dec : EqDecision cstr.
Proof. solve_decision. Defined.

(** The bytes of a block before its first NUL; [None]: no terminator. *)
Fixpoint until_nul (bs : list Z) : option (list Z) :=
  match bs with
  | [] => None
  | b :: bs' => if b =? 0 then Some [] else option_map (cons b) (until_nul bs')
  end.

(** The characters a string pointer denotes in a heap ([NULL]: [Some None]). *)
Definition cstr_chars (m : mem) (s : cstr) : option (option (list Z)) :=
  match s with
  | CNull => Some None
  | CEmpty => Some (Some [])
  | CHeap p => bs ← m_blocks m !! p; cs ← until_nul bs; Some (Some cs)
  end.

(** Reading the characters of a non-null string. *)
Definition m_chars (s : cstr) : M (list Z) := fun m =>
  match cstr_chars m s with
  | Some (Some cs) => Some (cs, m)
  | _ => None
  end.

Definition strlen (s : cstr) : M Z := cs ← m_chars s; mret (Z.of_nat (length cs)).

(** [free]; the static string is not a [malloc]ed block. *)
Definition c_free (s : cstr) : M unit :=
  match s with
  | CNull => mret tt
  | CEmpty => m_undef
  | CHeap p => m_free p
  end.

Section Strdup.
Context {AL : Allocator}.

Definition strdup (s : cstr) : M cstr :=
  cs ← m_chars s;
  r ← m_new_block (Z.of_nat (length cs) + 1) (fun _ => cs ++ [0]);
  mret (match r with Some p => CHeap p | None => CNull end).
End Strdup.

Definition c_str (cs : list Z) : Prop := Forall (fun c => 0 < c < 256) cs.

Lemma until_nul_app cs bs : c_str cs -> until_nul (cs ++ 0 :: bs) = Some cs.
Proof.
  intros H. induction H as [|c cs Hc _ IH]; [done|]. cbn.
  rewrite (proj2 (Z.eqb_neq c 0)) by lia. by rewrite IH.
Qed.

Lemma until_nul_nonzero bs cs : until_nul bs = Some cs -> Forall (fun c => c <> 0) cs.
Proof.
  revert cs. induction bs as [|b bs IH]; intros cs; cbn; [done|].
  destruct (Z.eqb_spec b 0); [intros [= <-]; constructor|].
  destruct (until_nul bs) as [cs'|]; cbn; [|done]. intros [= <-].
  constructor; [done|]. by apply IH.
Qed.

Lemma until_nul_prefix bs cs : until_nul bs = Some cs -> exists r, bs = cs ++ 0 :: r.
Proof.
  revert cs. induction bs as [|b bs IH]; intros cs; cbn; [done|].
  destruct (Z.eqb_spec b 0) as [->|]; [intros [= <-]; by exists bs|].
  destruct (until_nul bs) as [cs'|]; cbn; [|done]. intros [= <-].
  destruct (IH cs' eq_refl) as [r ->]. by exists r.
Qed.

Lemma until_nul_c_str bs cs : Forall is_byte bs -> until_nul bs = Some cs -> c_str cs.
Proof.
  intros Hb H. pose proof (until_nul_nonzero _ _ H) as Hn.
  destruct (until_nul_prefix _ _ H) as [r ->]. apply Forall_app in Hb as [Hb _].
  unfold c_str. rewrite !Forall_forall in *. intros x Hx.
  specialize (Hb x Hx). specialize (Hn x Hx). unfold is_byte in Hb. lia.
Qed.

Lemma until_nul_snoc cs : is_Some (until_nul (cs ++ [0])).
Proof.
  induction cs as [|c cs [r Hr]]; cbn; [by eexists|].
  destruct (c =? 0); [by eexists|]. rewrite Hr. by eexists.
Qed.

(** A block whose last byte is overwritten by NUL is a C string. *)
Lemma insert_last {A} (l : list A) (x y : A) :
  <[(length (l ++ [x]) - 1)%nat := y]> (l ++ [x]) = l ++ [y].
Proof.
  rewrite length_app. cbn. replace (length l + 1 - 1)%nat with (length l + 0)%nat by lia.
  by rewrite insert_app_r.
Qed.

Lemma until_nul_terminated bs :
  bs <> [] -> is_Some (until_nul (<[(length bs - 1)%nat := 0]> bs)).
Proof.
  destruct bs as [|x l _] using rev_ind; [done|]. intros _.
  rewrite insert_last. apply until_nul_snoc.
Qed.
