(* ===== verification/Buffer.v ===== *)
(** * obus_buffer.h: growable byte buffers and the buffer pool

    [buffer] is [struct obus_buffer]; [buf_data] is the [malloc]ed array, so its
    length is [buf_size].  An access outside the array is undefined behaviour.
    The [float]/[double] functions are modelled on the bit patterns, which is
    what the unions of the source exchange. *)
From S2P Require Import Prelude Mem Cstring.

Record buffer := Buffer {
  buf_size : Z;         (* size of the memory buffer *)
  buf_length : Z;       (* number of valid bytes *)
  buf_pos : Z;          (* read position *)
  buf_data : list Z;    (* the memory buffer *)
  buf_refcnt : Z        (* reference counter *)
}.

Definition with_length (b : buffer) (n : Z) : buffer :=
  Buffer (buf_size b) n (buf_pos b) (buf_data b) (buf_refcnt b).
Definition with_pos (b : buffer) (p : Z) : buffer :=
  Buffer (buf_size b) (buf_length b) p (buf_data b) (buf_refcnt b).
Definition with_data (b : buffer) (d : list Z) : buffer :=
  Buffer (buf_size b) (buf_length b) (buf_pos b) d (buf_refcnt b).
Definition with_refcnt (b : buffer) (r : Z) : buffer :=
  Buffer (buf_size b) (buf_length b) (buf_pos b) (buf_data b) r.

(** [buf->data[i]] as an lvalue and as an rvalue. *)
Definition data_get (b : buffer) (i : Z) : M Z :=
  if (0 <=? i) && (i <? buf_size b) then m_lift (buf_data b !! Z.to_nat i) else m_undef.

Definition data_set (b : buffer) (i v : Z) : M buffer :=
  if (0 <=? i) && (i <? buf_size b)
  then mret (with_data b (<[Z.to_nat i := v]> (buf_data b))) else m_undef.

(** [buf->data[buf->length++] = v] *)
Definition data_push (b : buffer) (v : Z) : M buffer :=
  b ← data_set b (buf_length b) v;
  mret (with_length b (u64 (buf_length b + 1))).

(** Slices of the array: the source of [memcpy] and [memmove]. *)
Definition slice {A} (l : list A) (off n : Z) : list A :=
  take (Z.to_nat n) (drop (Z.to_nat off) l).

Arguments slice : simpl never.

Definition data_slice (b : buffer) (off n : Z) : M (list Z) :=
  if (0 <=? off) && (0 <=? n) && (off + n <=? buf_size b)
  then mret (slice (buf_data b) off n) else m_undef.

Definition splice (l : list Z) (off : Z) (bs : list Z) : list Z :=
  take (Z.to_nat off) l ++ bs ++ drop (Z.to_nat off + length bs) l.

(** [memcpy (buf->data + off, bs, length bs)] *)
Definition data_blit (b : buffer) (off : Z) (bs : list Z) : M buffer :=
  if (0 <=? off) && (off + Z.of_nat (length bs) <=? buf_size b)
  then mret (with_data b (splice (buf_data b) off bs)) else m_undef.

(** [sizeof(struct obus_buffer)] *)
Definition BUFFER_STRUCT_SIZE : Z := 64.

Section Ops.
Context {AL : Allocator}.

Definition obus_buffer_new (size : Z) : M (option buffer) :=
  hdr ← m_alloc BUFFER_STRUCT_SIZE;
  match hdr with
  | None => mret None
  | Some _ =>
    mem ← m_alloc size;
    match mem with
    | None => mret None
    | Some k =>
      mret (Some (Buffer size 0 0 (fresh_bytes k 0 (Z.to_nat size)) 1))
    end
  end.

Definition obus_buffer_ensure_realloc (buf : buffer) (size : Z) : M (Z * buffer) :=
  if buf_size buf <? size then
    mem ← m_alloc size;
    match mem with
    | None => mret (- ENOMEM, buf)
    | Some k =>
      let old := length (buf_data buf) in
      let data := buf_data buf ++ fresh_bytes k old (Z.to_nat size - old) in
      mret (0, Buffer size (buf_length buf) (buf_pos buf) data (buf_refcnt buf))
    end
  else mret (0, buf).

Definition obus_buffer_ensure_write_space (buf : buffer) (length : Z) : M (Z * buffer) :=
  obus_buffer_ensure_realloc buf (u64 (buf_length buf + length)).

Definition obus_buffer_clear (buf : buffer) : buffer := with_length buf 0.
Definition obus_buffer_write_offset (buf : buffer) : Z := buf_length buf.
Definition obus_buffer_write_space (buf : buffer) : Z :=
  u64 (buf_size buf - buf_length buf).
Definition obus_buffer_inc_write_ptr (buf : buffer) (length : Z) : buffer :=
  with_length buf (u64 (buf_length buf + length)).
Definition obus_buffer_length (buf : buffer) : Z := buf_length buf.
Definition obus_buffer_read_length (buf : buffer) : Z :=
  if buf_pos buf <? buf_length buf then u64 (buf_length buf - buf_pos buf) else 0.

Definition obus_buffer_reserve (buf : buffer) (length : Z) : M (Z * buffer) :=
  '(ret, buf) ← obus_buffer_ensure_realloc buf (u64 (buf_length buf + length));
  if failed ret then mret (ret, buf) else
  mret (0, with_length buf (u64 (buf_length buf + length))).

(** [bs] is the memory at [ptr], of [size = length bs] bytes. *)
Definition obus_buffer_write (buf : buffer) (offset : Z) (bs : list Z) : M (Z * buffer) :=
  let size := Z.of_nat (length bs) in
  '(ret, buf) ← obus_buffer_ensure_realloc buf (u64 (offset + size));
  if failed ret then mret (ret, buf) else
  buf ← data_blit buf offset bs;
  if buf_length buf <? u64 (offset + size)
  then mret (0, with_length buf
                  (u64 (buf_length buf + u64 (u64 (offset - buf_length buf) + size))))
  else mret (0, buf).

Definition obus_buffer_append (buf : buffer) (bs : list Z) : M (Z * buffer) :=
  obus_buffer_write buf (buf_length buf) bs.

(** Unsigned integers, big-endian. *)
Definition obus_buffer_append_u8 (buf : buffer) (value : Z) : M (Z * buffer) :=
  '(ret, buf) ← obus_buffer_ensure_write_space buf 1;
  if failed ret then mret (ret, buf) else
  buf ← data_push buf value;
  mret (0, buf).

Definition obus_buffer_write_u8 (buf : buffer) (value offset : Z) : M (Z * buffer) :=
  '(ret, buf) ← obus_buffer_ensure_realloc buf (u64 (offset + 1));
  if failed ret then mret (ret, buf) else
  buf ← data_set buf offset value;
  mret (0, buf).

Definition obus_buffer_append_u16 (buf : buffer) (value : Z) : M (Z * buffer) :=
  '(ret, buf) ← obus_buffer_ensure_write_space buf 2;
  if failed ret then mret (ret, buf) else
  buf ← data_push buf (u8 (Z.land (Z.shiftr value 8) 255));
  buf ← data_push buf (u8 (Z.land value 255));
  mret (0, buf).

Definition obus_buffer_write_u16 (buf : buffer) (value offset : Z) : M (Z * buffer) :=
  '(ret, buf) ← obus_buffer_ensure_realloc buf (u64 (offset + 2));
  if failed ret then mret (ret, buf) else
  buf ← data_set buf offset (u8 (Z.land (Z.shiftr value 8) 255));
  buf ← data_set buf (offset + 1) (u8 (Z.land value 255));
  mret (0, buf).

Definition obus_buffer_append_u32 (buf : buffer) (value : Z) : M (Z * buffer) :=
  '(ret, buf) ← obus_buffer_ensure_write_space buf 4;
  if failed ret then mret (ret, buf) else
  buf ← data_push buf (u8 (Z.land (Z.shiftr value 24) 255));
  buf ← data_push buf (u8 (Z.land (Z.shiftr value 16) 255));
  buf ← data_push buf (u8 (Z.land (Z.shiftr value 8) 255));
  buf ← data_push buf (u8 (Z.land value 255));
  mret (0, buf).

Definition obus_buffer_write_u32 (buf : buffer) (value offset : Z) : M (Z * buffer) :=
  '(ret, buf) ← obus_buffer_ensure_realloc buf (u64 (offset + 4));
  if failed ret then mret (ret, buf) else
  buf ← data_set buf offset (u8 (Z.land (Z.shiftr value 24) 255));
  buf ← data_set buf (offset + 1) (u8 (Z.land (Z.shiftr value 16) 255));
  buf ← data_set buf (offset + 2) (u8 (Z.land (Z.shiftr value 8) 255));
  buf ← data_set buf (offset + 3) (u8 (Z.land value 255));
  mret (0, buf).

Definition obus_buffer_append_u64 (buf : buffer) (value : Z) : M (Z * buffer) :=
  '(ret, buf) ← obus_buffer_ensure_write_space buf 8;
  if failed ret then mret (ret, buf) else
  buf ← data_push buf (u8 (Z.land (Z.shiftr value 56) 255));
  buf ← data_push buf (u8 (Z.land (Z.shiftr value 48) 255));
  buf ← data_push buf (u8 (Z.land (Z.shiftr value 40) 255));
  buf ← data_push buf (u8 (Z.land (Z.shiftr value 32) 255));
  buf ← data_push buf (u8 (Z.land (Z.shiftr value 24) 255));
  buf ← data_push buf (u8 (Z.land (Z.shiftr value 16) 255));
  buf ← data_push buf (u8 (Z.land (Z.shiftr value 8) 255));
  buf ← data_push buf (u8 (Z.land value 255));
  mret (0, buf).

Definition obus_buffer_write_u64 (buf : buffer) (value offset : Z) : M (Z * buffer) :=
  '(ret, buf) ← obus_buffer_ensure_realloc buf (u64 (offset + 8));
  if failed ret then mret (ret, buf) else
  buf ← data_set buf offset (u8 (Z.land (Z.shiftr value 56) 255));
  buf ← data_set buf (offset + 1) (u8 (Z.land (Z.shiftr value 48) 255));
  buf ← data_set buf (offset + 2) (u8 (Z.land (Z.shiftr value 40) 255));
  buf ← data_set buf (offset + 3) (u8 (Z.land (Z.shiftr value 32) 255));
  buf ← data_set buf (offset + 4) (u8 (Z.land (Z.shiftr value 24) 255));
  buf ← data_set buf (offset + 5) (u8 (Z.land (Z.shiftr value 16) 255));
  buf ← data_set buf (offset + 6) (u8 (Z.land (Z.shiftr value 8) 255));
  buf ← data_set buf (offset + 7) (u8 (Z.land value 255));
  mret (0, buf).

(** Read position. *)
Definition obus_buffer_get_read_position (buf : buffer) : Z := buf_pos buf.

Definition obus_buffer_set_read_position (buf : buffer) (pos : Z) : Z * buffer :=
  if buf_length buf <? pos then (- EINVAL, buf) else (0, with_pos buf pos).

Definition obus_buffer_inc_read_position (buf : buffer) (value : Z) : Z * buffer :=
  if buf_length buf <? u64 (value + buf_pos buf) then (- EINVAL, buf)
  else (0, with_pos buf (u64 (buf_pos buf + value))).

(** Readers return the code, the value read ([None]: the output variable is
    left unchanged) and the buffer. *)
Definition obus_buffer_read_u8 (buf : buffer) : M (Z * option Z * buffer) :=
  if buf_length buf <=? buf_pos buf then mret (- EAGAIN, None, buf) else
  v ← data_get buf (buf_pos buf);
  mret (0, Some v, with_pos buf (u64 (buf_pos buf + 1))).

Definition obus_buffer_read_u16 (buf : buffer) : M (Z * option Z * buffer) :=
  if buf_length buf <=? u64 (buf_pos buf + 1) then mret (- EINVAL, None, buf) else
  b0 ← data_get buf (buf_pos buf);
  b1 ← data_get buf (buf_pos buf + 1);
  mret (0, Some (u16 (Z.shiftl b0 8 + b1)), with_pos buf (u64 (buf_pos buf + 2))).

Definition obus_buffer_read_u32 (buf : buffer) : M (Z * option Z * buffer) :=
  if buf_length buf <=? u64 (buf_pos buf + 3) then mret (- EAGAIN, None, buf) else
  b0 ← data_get buf (buf_pos buf);
  b1 ← data_get buf (buf_pos buf + 1);
  b2 ← data_get buf (buf_pos buf + 2);
  b3 ← data_get buf (buf_pos buf + 3);
  let v := u32 (Z.shiftl b0 24) in
  let v := Z.lor v (u32 (Z.shiftl b1 16)) in
  let v := Z.lor v (u32 (Z.shiftl b2 8)) in
  let v := Z.lor v b3 in
  mret (0, Some v, with_pos buf (u64 (buf_pos buf + 4))).

(** The bound of this reader is [buf->size], not [buf->length]. *)
Definition obus_buffer_read_u64 (buf : buffer) : M (Z * option Z * buffer) :=
  if buf_size buf <=? u64 (buf_pos buf + 7) then mret (- EINVAL, None, buf) else
  b0 ← data_get buf (buf_pos buf);
  b1 ← data_get buf (buf_pos buf + 1);
  b2 ← data_get buf (buf_pos buf + 2);
  b3 ← data_get buf (buf_pos buf + 3);
  b4 ← data_get buf (buf_pos buf + 4);
  b5 ← data_get buf (buf_pos buf + 5);
  b6 ← data_get buf (buf_pos buf + 6);
  b7 ← data_get buf (buf_pos buf + 7);
  let v := u64 (Z.shiftl b0 56) in
  let v := Z.lor v (u64 (Z.shiftl b1 48)) in
  let v := Z.lor v (u64 (Z.shiftl b2 40)) in
  let v := Z.lor v (u64 (Z.shiftl b3 32)) in
  let v := Z.lor v (u64 (Z.shiftl b4 24)) in
  let v := Z.lor v (u64 (Z.shiftl b5 16)) in
  let v := Z.lor v (u64 (Z.shiftl b6 8)) in
  let v := Z.lor v b7 in
  mret (0, Some v, with_pos buf (u64 (buf_pos buf + 8))).

(** Strings: a [u32] size (0 for [NULL], else [strlen + 1]) and the bytes. *)
Definition obus_buffer_append_string (buf : buffer) (str : cstr) : M (Z * buffer) :=
  size ← match str with
         | CNull => mret 0
         | _ => n ← strlen str; mret (u32 (n + 1))
         end;
  '(ret, buf) ← obus_buffer_ensure_write_space buf (u32 (size + 4));
  if failed ret then mret (ret, buf) else
  '(ret1, buf) ← obus_buffer_append_u32 buf size;
  let ret := Z.lor ret ret1 in
  if 0 <? size then
    cs ← m_chars str;
    '(ret2, buf) ← obus_buffer_append buf (take (Z.to_nat size) (cs ++ [0]));
    mret (Z.lor ret ret2, buf)
  else mret (ret, buf).

(** The new block is [Some p]; [None] is the null pointer. *)
Definition obus_buffer_dup (buf : buffer) (size : Z)
  : M (Z * option positive * buffer) :=
  if size =? 0 then mret (0, None, buf) else
  if buf_length buf <? u64 (buf_pos buf + size) then mret (- EAGAIN, None, buf) else
  bs ← data_slice buf (buf_pos buf) size;
  ptr ← m_new_block size (fun _ => bs);
  match ptr with
  | None => mret (- ENOMEM, None, buf)
  | Some p => mret (0, Some p, with_pos buf (u64 (buf_pos buf + size)))
  end.

Definition obus_buffer_read_string (buf : buffer) : M (Z * option cstr * buffer) :=
  '(ret, size, buf) ← obus_buffer_read_u32 buf;
  match size with
  | None => mret (ret, None, buf)
  | Some size =>
    if size =? 0 then mret (0, Some CNull, buf) else
    '(ret, ptr, buf) ← obus_buffer_dup buf size;
    match ptr with
    | None => mret (ret, Some CNull, buf)
    | Some p =>
      bs ← m_read p;
      if size <=? Z.of_nat (length bs) then
        m_write p (<[Z.to_nat (size - 1) := 0]> bs);;
        mret (0, Some (CHeap p), buf)
      else m_undef
    end
  end.

(** Floating point values, as their bit patterns. *)
Definition obus_buffer_append_f32 (buf : buffer) (bits : Z) := obus_buffer_append_u32 buf bits.
Definition obus_buffer_write_f32 (buf : buffer) (bits offset : Z) :=
  obus_buffer_write_u32 buf bits offset.
Definition obus_buffer_read_f32 (buf : buffer) := obus_buffer_read_u32 buf.
Definition obus_buffer_append_f64 (buf : buffer) (bits : Z) := obus_buffer_append_u64 buf bits.
Definition obus_buffer_write_f64 (buf : buffer) (bits offset : Z) :=
  obus_buffer_write_u64 buf bits offset.
Definition obus_buffer_read_f64 (buf : buffer) := obus_buffer_read_u64 buf.

Fixpoint find_from (l : list Z) (i byte : Z) : Z :=
  match l with
  | [] => -1
  | b :: l' => if b =? byte then i else find_from l' (i + 1) byte
  end.

Definition obus_buffer_find (buf : buffer) (offset byte : Z) : Z :=
  find_from (slice (buf_data buf) offset (buf_length buf - offset)) offset byte.

Definition obus_buffer_remove_first (buf : buffer) (size : Z) : M buffer :=
  if (size =? 0) || (buf_length buf =? 0) then mret buf else
  if buf_length buf <=? size then mret (with_length buf 0) else
  let n := u64 (buf_length buf - size) in
  bs ← data_slice buf size n;
  buf ← data_blit buf 0 bs;
  mret (with_pos (with_length buf n)
          (if size <? buf_pos buf then u64 (buf_pos buf - size) else 0)).

Definition obus_buffer_remove_read (buf : buffer) : M buffer :=
  buf ← obus_buffer_remove_first buf (buf_pos buf);
  mret (with_pos buf 0).
End Ops.

(** ** Well-formed buffers *)

Record buf_wf (b : buffer) : Prop := {
  wf_len : 0 <= buf_length b <= buf_size b;
  wf_pos : 0 <= buf_pos b <= buf_size b;
  wf_size : buf_size b <= PTRDIFF_MAX;
  wf_data : Z.of_nat (length (buf_data b)) = buf_size b;
  wf_bytes : Forall is_byte (buf_data b)
}.

(** The valid bytes, and those not yet read. *)
Definition buf_bytes (b : buffer) : list Z := take (Z.to_nat (buf_length b)) (buf_data b).
Definition buf_rest (b : buffer) : list Z := drop (Z.to_nat (buf_pos b)) (buf_bytes b).

Ltac wf_facts b H :=
  pose proof (wf_len b H); pose proof (wf_pos b H);
  pose proof (wf_size b H); pose proof (wf_data b H).

Lemma length_buf_bytes b : buf_wf b -> Z.of_nat (length (buf_bytes b)) = buf_length b.
Proof. intros W. wf_facts b W. unfold buf_bytes. rewrite length_take. lia. Qed.

Lemma buf_bytes_byte b : buf_wf b -> Forall is_byte (buf_bytes b).
Proof. intros W. apply Forall_take. apply (wf_bytes b W). Qed.

Lemma buf_bytes_lookup b (i : nat) :
  (i < length (buf_bytes b))%nat -> buf_bytes b !! i = buf_data b !! i.
Proof.
  unfold buf_bytes. rewrite length_take. intros H. apply lookup_take_lt. lia.
Qed.

Lemma buf_wf_with_pos b p : buf_wf b -> 0 <= p <= buf_size b -> buf_wf (with_pos b p).
Proof. intros W Hp. by destruct W; constructor. Qed.

Lemma buf_wf_with_length b n :
  buf_wf b -> 0 <= n <= buf_size b -> buf_wf (with_length b n).
Proof. intros W Hn. by destruct W; constructor. Qed.

(** [grown b b' bs]: [b'] is [b] with [bs] appended. *)
Record grown (b b' : buffer) (bs : list Z) : Prop := {
  gr_wf : buf_wf b';
  gr_bytes : buf_bytes b' = buf_bytes b ++ bs;
  gr_pos : buf_pos b' = buf_pos b;
  gr_ref : buf_refcnt b' = buf_refcnt b;
  gr_size : buf_size b <= buf_size b'
}.

Lemma grown_refl b : buf_wf b -> grown b b [].
Proof. intros W. constructor; [done|by rewrite app_nil_r|done..|lia]. Qed.

Lemma grown_trans b b1 b2 x y : grown b b1 x -> grown b1 b2 y -> grown b b2 (x ++ y).
Proof.
  intros [] []. constructor; [done|rewrite app_assoc; congruence|congruence..|lia].
Qed.

Lemma grown_length b b' bs :
  buf_wf b -> grown b b' bs -> buf_length b' = buf_length b + Z.of_nat (length bs).
Proof.
  intros W G. rewrite <- (length_buf_bytes b' (gr_wf _ _ _ G)), (gr_bytes _ _ _ G).
  rewrite length_app, <- (length_buf_bytes b W). lia.
Qed.

(** ** Memory accesses *)

Lemma wp_data_push b v m (Q : buffer -> mem -> Prop) :
  buf_wf b -> buf_length b + 1 <= buf_size b -> is_byte v ->
  (forall b', grown b b' [v] -> buf_size b' = buf_size b -> Q b' m) ->
  wp (data_push b v) Q m.
Proof.
  intros W Hl Hv HQ. wf_facts b W. unfold data_push, data_set.
  rewrite (proj2 (Z.leb_le _ _)), (proj2 (Z.ltb_lt _ _)) by lia. cbn.
  apply wp_ret. apply HQ; [|done]. cbn. rewrite u64_small by wrap_lia.
  constructor; cbn; [constructor; cbn| |done..].
  - lia.
  - lia.
  - done.
  - by rewrite length_insert.
  - apply Forall_insert; [apply W|done].
  - unfold buf_bytes. cbn. rewrite Z2Nat.inj_add, Nat.add_1_r by lia.
    apply take_S_insert. lia.
Qed.

Lemma wp_data_get b i v m (Q : Z -> mem -> Prop) :
  buf_wf b -> 0 <= i -> buf_data b !! Z.to_nat i = Some v -> Q v m ->
  wp (data_get b i) Q m.
Proof.
  intros W Hi Hv HQ. wf_facts b W. unfold data_get.
  pose proof (lookup_lt_Some _ _ _ Hv).
  rewrite (proj2 (Z.leb_le _ _)), (proj2 (Z.ltb_lt _ _)) by lia. by eapply wp_lift.
Qed.

Lemma wp_data_get_byte b i m (Q : Z -> mem -> Prop) :
  buf_wf b -> 0 <= i < buf_size b ->
  (forall v, is_byte v -> buf_data b !! Z.to_nat i = Some v -> Q v m) ->
  wp (data_get b i) Q m.
Proof.
  intros W Hi HQ. wf_facts b W.
  destruct (lookup_lt_is_Some_2 (buf_data b) (Z.to_nat i)) as [v Hv]; [lia|].
  apply (wp_data_get b i v); [done|lia|done|]. apply HQ; [|done].
  by apply (Forall_lookup_1 _ _ _ _ (wf_bytes b W) Hv).
Qed.

(** Overwriting one valid byte. *)
Lemma wp_data_set b off v pre x post m (Q : buffer -> mem -> Prop) :
  buf_wf b -> is_byte v -> buf_bytes b = pre ++ x :: post -> off = Z.of_nat (length pre) ->
  (forall b', buf_wf b' -> buf_size b' = buf_size b -> buf_length b' = buf_length b ->
     buf_pos b' = buf_pos b -> buf_refcnt b' = buf_refcnt b ->
     buf_bytes b' = pre ++ v :: post -> Q b' m) ->
  wp (data_set b off v) Q m.
Proof.
  intros W Hv Hb -> HQ. wf_facts b W. pose proof (length_buf_bytes b W) as Hlen.
  rewrite Hb, length_app in Hlen. cbn in Hlen.
  unfold data_set. rewrite (proj2 (Z.leb_le _ _)), (proj2 (Z.ltb_lt _ _)) by lia. cbn.
  apply wp_ret. apply HQ; [constructor; cbn| done..|].
  - lia.
  - lia.
  - done.
  - by rewrite length_insert.
  - apply Forall_insert; [apply W|done].
  - unfold buf_bytes in *. cbn. rewrite Nat2Z.id. rewrite take_insert_lt by lia.
    rewrite Hb. replace (length pre) with (length pre + 0)%nat at 1 by lia.
    by rewrite insert_app_r.
Qed.

Section Facts.
Context {AL : Allocator}.

(** A failed call: some allocation of at most [n] bytes was refused. *)
Definition refused (n : Z) : Prop := exists k s, s <= n /\ malloc_ok k s = false.

Lemma refused_mono n n' : n <= n' -> refused n -> refused n'.
Proof. intros H (k & s & ? & ?). exists k, s. split; [lia|done]. Qed.

Lemma ample_not_refused `{!AmpleMemory AL} n : n <= PTRDIFF_MAX -> ~ refused n.
Proof.
  intros H (k & s & Hs & Hf). rewrite malloc_ample in Hf; [done|lia].
Qed.

Lemma wp_ensure_realloc b n m (Q : Z * buffer -> mem -> Prop) :
  buf_wf b -> 0 <= n ->
  (forall b' m', same_blocks m m' -> grown b b' [] -> n <= buf_size b' -> Q (0, b') m') ->
  (forall m', same_blocks m m' -> refused n -> Q (- ENOMEM, b) m') ->
  wp (obus_buffer_ensure_realloc b n) Q m.
Proof.
  intros W Hn H1 H2. unfold obus_buffer_ensure_realloc. wf_facts b W.
  destruct (Z.ltb_spec (buf_size b) n) as [Hlt|Hge].
  - apply wp_bind. apply wp_alloc; intros k m' Hs Hk; apply wp_ret.
    + apply H1; [done| |cbn; lia]. pose proof (malloc_ok_bound _ _ Hk).
      constructor; [constructor|..]; cbn.
      * lia.
      * lia.
      * done.
      * rewrite length_app, length_fresh_bytes. lia.
      * apply Forall_app. split; [apply W|apply fresh_bytes_byte].
      * unfold buf_bytes. cbn. rewrite take_app_le by lia. by rewrite app_nil_r.
      * done.
      * done.
      * lia.
    + apply H2; [done|]. exists k, n. split; [lia|done].
  - apply wp_ret. apply H1; [done|by apply grown_refl|lia].
Qed.

(** ** Emitters: functions that append known bytes or fail for lack of memory *)

Definition emit_post (bs : list Z) (b : buffer) (m : mem) (r : Z * buffer) (m' : mem)
  : Prop :=
  same_blocks m m' /\
  exists bs', grown b (snd r) bs' /\
    ((fst r = 0 /\ bs' = bs) \/
     (fst r = - ENOMEM /\ refused (buf_length b + Z.of_nat (length bs)))).

(** From any heap with the blocks of [m], [c] emits [bs]. *)
Definition emits (m : mem) (c : buffer -> M (Z * buffer)) (bs : list Z) : Prop :=
  forall b m1, same_blocks m m1 -> buf_wf b -> wp (c b) (emit_post bs b m1) m1.

(** Sequencing with the early return of the C code. *)
Lemma emits_seq m c1 c2 bs1 bs2 :
  emits m c1 bs1 -> emits m c2 bs2 ->
  emits m (fun b => '(ret, b) ← c1 b;
                    if failed ret then mret (ret, b) else c2 b) (bs1 ++ bs2).
Proof.
  intros H1 H2 b m1 Hm W. eapply wp_bind_mono; [by apply H1|].
  intros [ret b1] m2 (Hs & bs' & G & [[Hr ->]|[Hr Hf]]); cbn in *; subst ret; cbn.
  - eapply wp_mono; [apply H2; [by transitivity m1|apply G]|].
    intros [ret2 b2] m3 (Hs2 & bs2' & G2 & Hr2). split; [by transitivity m2|].
    exists (bs1 ++ bs2'). split; [by eapply grown_trans|].
    rewrite (grown_length _ _ _ W G) in Hr2. rewrite length_app.
    destruct Hr2 as [[? ->]|[? Hf]]; [by left|right; split; [done|]].
    eapply refused_mono; [|exact Hf]. lia.
  - apply wp_ret. split; [done|]. exists bs'. split; [done|]. right. split; [done|].
    eapply refused_mono; [|exact Hf]. rewrite length_app. lia.
Qed.

Lemma emits_ret m : emits m (fun b => mret (0, b)) [].
Proof.
  intros b m1 Hm W. apply wp_ret. split; [done|]. exists []. split; [by apply grown_refl|by left].
Qed.

Lemma emits_ext m c c' bs : (forall b, c b = c' b) -> emits m c bs -> emits m c' bs.
Proof. intros He H b m1 Hm W. rewrite <- He. by apply H. Qed.

Lemma emits_mem m m' c bs : same_blocks m m' -> emits m c bs -> emits m' c bs.
Proof. intros Hs H b m1 Hm W. apply H; [by transitivity m'|done]. Qed.
End Facts.

Section Appends.
Context {AL : Allocator}.

(** The body of every [append] function once space has been ensured. *)
Lemma wp_pushed b n m (bs : list Z) (k : buffer -> M (Z * buffer)) :
  buf_wf b -> 0 <= n -> n = Z.of_nat (length bs) -> n <= 2 ^ 62 ->
  (forall b0 b1 m1, same_blocks m m1 -> grown b b0 [] ->
     buf_length b + n <= buf_size b0 -> b1 = b0 ->
     wp (k b1) (fun r m' => m' = m1 /\ fst r = 0 /\ grown b0 (snd r) bs) m1) ->
  wp ('(ret, buf) ← obus_buffer_ensure_write_space b n;
      if failed ret then mret (ret, buf) else k buf) (emit_post bs b m) m.
Proof.
  intros W Hn Hlen Hmax Hk. wf_facts b W. unfold obus_buffer_ensure_write_space.
  rewrite u64_small by wrap_lia. apply wp_bind.
  apply wp_ensure_realloc; [done|lia| |].
  - intros b' m' Hs G Hsz. cbn. eapply wp_mono; [by apply (Hk b')|].
    intros [ret b2] m2 (-> & Hr & G2). split; [done|]. exists bs. split; [|by left].
    apply (grown_trans _ _ _ _ _ G G2).
  - intros m' Hs Hf. cbn. apply wp_ret. split; [done|]. exists [].
    split; [by apply grown_refl|]. right. split; [done|]. by rewrite <- Hlen.
Qed.

(** Chains of pushes: the accumulator holds the bytes pushed so far. *)
Lemma wp_push_step b0 b acc v rest bs m (k : buffer -> M (Z * buffer)) :
  let Q := fun r m' => m' = m /\ fst r = 0 /\ grown b0 (snd r) bs in
  buf_wf b0 -> grown b0 b acc -> buf_length b0 + Z.of_nat (length bs) <= buf_size b ->
  acc ++ u8 v :: rest = bs ->
  (forall b', grown b0 b' (acc ++ [u8 v]) -> buf_size b' = buf_size b -> wp (k b') Q m) ->
  wp (b ← data_push b (u8 v); k b) Q m.
Proof.
  intros Q W G Hsz Hbs Hk. apply wp_bind.
  pose proof (grown_length _ _ _ W G) as Hl. apply wp_data_push; [apply G| |apply u8_range|].
  - rewrite Hl. rewrite <- Hbs, length_app in Hsz. cbn in Hsz. lia.
  - intros b' G' Hs. apply Hk; [by eapply grown_trans|done].
Qed.

Ltac pushes :=
  first
    [ eapply wp_push_step;
        [eassumption|eassumption|cbn in *; lia|reflexivity|];
      cbn [app]; intros ? ? ?; pushes
    | apply wp_ret; split_and!; [done|done|cbn; eassumption] ].

Ltac emit_pushes :=
  apply wp_pushed; [done|lia|reflexivity|lia|];
  intros b0 b1 m1 Hs G0 Hsz ->;
  pose proof (grown_length _ _ _ ltac:(eassumption) G0);
  pose proof (grown_refl _ (gr_wf _ _ _ G0)); pose proof (gr_wf _ _ _ G0);
  cbn [length] in *; pushes.

Lemma emits_append_u8 m v :
  is_byte v -> emits m (fun b => obus_buffer_append_u8 b v) [v].
Proof.
  intros Hv b m0 _ W. rewrite <- (u8_small v) by exact Hv.
  unfold obus_buffer_append_u8. emit_pushes.
Qed.

Lemma emits_append_u16 m v : emits m (fun b => obus_buffer_append_u16 b v) (be_bytes 2 v).
Proof.
  intros b m0 _ W. rewrite be_bytes_2. unfold obus_buffer_append_u16. emit_pushes.
Qed.

Lemma emits_append_u32 m v : emits m (fun b => obus_buffer_append_u32 b v) (be_bytes 4 v).
Proof.
  intros b m0 _ W. rewrite be_bytes_4. unfold obus_buffer_append_u32. emit_pushes.
Qed.

Lemma emits_append_u64 m v : emits m (fun b => obus_buffer_append_u64 b v) (be_bytes 8 v).
Proof.
  intros b m0 _ W. rewrite be_bytes_8. unfold obus_buffer_append_u64. emit_pushes.
Qed.
End Appends.

Section Strings.
Context {AL : Allocator}.

(** [memcpy] at the fill point. *)
Lemma wp_data_blit_end b bs m (Q : buffer -> mem -> Prop) :
  buf_wf b -> Forall is_byte bs -> buf_length b + Z.of_nat (length bs) <= buf_size b ->
  (forall b', buf_length b' = buf_length b -> buf_size b' = buf_size b ->
     grown b (with_length b' (buf_length b + Z.of_nat (length bs))) bs -> Q b' m) ->
  wp (data_blit b (buf_length b) bs) Q m.
Proof.
  intros W Hbs Hl HQ. wf_facts b W. unfold data_blit.
  rewrite (proj2 (Z.leb_le _ _)), (proj2 (Z.leb_le _ _)) by lia. cbn.
  apply wp_ret. apply HQ; [done..|].
  assert (length (splice (buf_data b) (buf_length b) bs) = length (buf_data b)) as Hlen.
  { unfold splice. rewrite !length_app, length_take, length_drop. lia. }
  constructor; cbn; [constructor; cbn| |done..].
  - lia.
  - lia.
  - done.
  - by rewrite Hlen.
  - unfold splice. rewrite !Forall_app. split_and!;
      [apply Forall_take, W|done|apply Forall_drop, W].
  - unfold buf_bytes, splice. cbn. rewrite app_assoc, take_app_le.
    + apply take_ge. rewrite length_app, length_take. lia.
    + rewrite length_app, length_take. lia.
Qed.

Lemma emits_append m bs :
  Forall is_byte bs -> Z.of_nat (length bs) <= 2 ^ 62 ->
  emits m (fun b => obus_buffer_append b bs) bs.
Proof.
  intros Hbs Hmax b m1 Hm W. wf_facts b W.
  unfold obus_buffer_append, obus_buffer_write. cbn zeta.
  rewrite u64_small by wrap_lia. apply wp_bind.
  apply wp_ensure_realloc; [done|lia| |].
  - intros b' m' Hs G Hsz. cbn. apply wp_bind.
    pose proof (grown_length _ _ _ W G) as Hl. cbn in Hl. rewrite Z.add_0_r in Hl.
    rewrite <- Hl in *. pose proof (gr_wf _ _ _ G) as W'. wf_facts b' W'.
    apply wp_data_blit_end; [done..|lia|]. intros b2 Hl2 Hs2 G2.
    rewrite u64_small, Hl2 by wrap_lia.
    destruct (Z.ltb_spec (buf_length b') (buf_length b' + Z.of_nat (length bs)));
      apply wp_ret; (split; [done|]); exists bs; (split; [|by left]); cbn.
    + replace (u64 (buf_length b' - buf_length b')) with 0
        by (rewrite Z.sub_diag; reflexivity).
      rewrite Z.add_0_l, u64_small by wrap_lia.
      apply (grown_trans _ _ _ [] bs G). exact G2.
    + assert (length bs = 0)%nat as ->%nil_length_inv by lia.
      cbn in G2. rewrite Z.add_0_r, <- Hl2 in G2.
      replace (with_length b2 (buf_length b2)) with b2 in G2 by by destruct b2.
      apply (grown_trans _ _ _ [] [] G). exact G2.
  - intros m' Hs Hf. cbn. apply wp_ret. split; [done|]. exists [].
    split; [by apply grown_refl|]. by right.
Qed.

(** The bytes of a string on the wire. *)
Definition string_wire (o : option (list Z)) : list Z :=
  match o with
  | None => be_bytes 4 0
  | Some cs => be_bytes 4 (Z.of_nat (length cs) + 1) ++ cs ++ [0]
  end.

Lemma wp_m_chars s cs m (Q : list Z -> mem -> Prop) :
  cstr_chars m s = Some (Some cs) -> Q cs m -> wp (m_chars s) Q m.
Proof. intros H HQ. exists cs, m. unfold m_chars. by rewrite H. Qed.

Lemma cstr_chars_same m m' s : same_blocks m m' -> cstr_chars m' s = cstr_chars m s.
Proof. intros [H _]. destruct s; cbn; by rewrite ?H. Qed.

(** Two appends whose codes are or-ed. *)
Lemma emit_post_lor bs1 bs2 b m r1 b1 m1 r2 b2 m2 :
  buf_wf b -> emit_post bs1 b m (r1, b1) m1 -> emit_post bs2 b1 m1 (r2, b2) m2 ->
  emit_post (bs1 ++ bs2) b m (Z.lor (Z.lor 0 r1) r2, b2) m2.
Proof.
  intros W (Hs & bs1' & G & Hr1) (Hs2 & bs2' & G2 & Hr2). cbn in *.
  split; [by transitivity m1|]. exists (bs1' ++ bs2'). cbn.
  split; [by eapply grown_trans|].
  rewrite (grown_length _ _ _ W G) in Hr2. rewrite length_app.
  destruct Hr1 as [[-> ->]|[-> Hf]], Hr2 as [[-> ->]|[-> Hf2]]; [by left|..];
    (right; split; [done|]); (eapply refused_mono; [|first [exact Hf|exact Hf2]]); lia.
Qed.

Lemma emit_post_grow bs b b' m m' r m2 :
  buf_wf b -> same_blocks m m' -> grown b b' [] ->
  emit_post bs b' m' r m2 -> emit_post bs b m r m2.
Proof.
  intros W Hs G (Hs2 & bs' & G2 & Hr). split; [by transitivity m'|].
  exists bs'. split; [by apply (grown_trans _ _ _ [] _ G)|].
  by rewrite (grown_length _ _ _ W G), Z.add_0_r in Hr.
Qed.

Definition wire_size (o : option (list Z)) : Z :=
  match o with Some cs => Z.of_nat (length cs) + 1 | None => 0 end.

Lemma length_string_wire o : Z.of_nat (length (string_wire o)) = wire_size o + 4.
Proof.
  destruct o; cbn [string_wire wire_size]; rewrite ?length_app, length_be_bytes; cbn; lia.
Qed.

(** Strings the wire format can carry. *)
Definition wire_string (o : option (list Z)) : Prop :=
  match o with Some cs => c_str cs /\ Z.of_nat (length cs) < 2 ^ 32 - 5 | None => True end.

Lemma wp_string_size s o m :
  cstr_chars m s = Some o -> wire_string o ->
  wp (match s with CNull => mret 0 | _ => n ← strlen s; mret (u32 (n + 1)) end)
     (fun n m' => n = wire_size o /\ m' = m) m.
Proof.
  intros Hs Ho. destruct s as [| |p].
  - cbn in Hs. simplify_eq. by apply wp_ret.
  - cbn in Hs. simplify_eq. by eexists _, _.
  - destruct o as [cs|]; cbn in Hs.
    + apply wp_bind, wp_bind. eapply wp_m_chars; [exact Hs|]. do 2 apply wp_ret.
      split; [|done]. apply u32_small. destruct Ho. cbn. lia.
    + destruct (m_blocks m !! p) as [l|]; [|done]. cbn in Hs.
      by destruct (until_nul l).
Qed.

Lemma c_str_bytes cs : c_str cs -> Forall is_byte (cs ++ [0]).
Proof.
  intros H. apply Forall_app. split; [|repeat constructor; lia].
  eapply Forall_impl; [exact H|]. unfold is_byte. lia.
Qed.

Lemma emits_append_string m s o :
  cstr_chars m s = Some o -> wire_string o ->
  emits m (fun b => obus_buffer_append_string b s) (string_wire o).
Proof.
  intros Hs Ho b m1 Hm W. rewrite <- (cstr_chars_same _ _ _ Hm) in Hs.
  unfold obus_buffer_append_string.
  eapply wp_bind_mono; [by apply wp_string_size|]. intros n m' [-> ->]. wf_facts b W.
  assert (0 <= wire_size o < 2 ^ 32 - 4) by (destruct o as [cs|]; [destruct Ho|]; cbn; lia).
  unfold obus_buffer_ensure_write_space. rewrite (u32_small (wire_size o + 4)) by lia.
  rewrite u64_small by wrap_lia. apply wp_bind.
  apply wp_ensure_realloc; [done|lia| |]; cbn.
  2:{ intros m' Hs' Hf. apply wp_ret. split; [done|]. exists [].
      split; [by apply grown_refl|]. right. split; [done|].
      cbn. by rewrite length_string_wire. }
  intros b' m' Hs' G Hsz.
  eapply wp_mono; [|intros r m2; by apply (emit_post_grow _ b b' m1 m')].
  eapply wp_bind_mono; [apply (emits_append_u32 m'); [done|apply G]|].
  intros [r1 b1] m2 E1. destruct o as [cs|]; cbn [wire_size string_wire] in *.
  - destruct Ho as [Hcs Hlen]. rewrite (proj2 (Z.ltb_lt 0 _)) by lia.
    pose proof E1 as (Hs2 & bs' & G1 & _). apply wp_bind.
    eapply wp_m_chars; [by rewrite (cstr_chars_same m1) by by transitivity m'|].
    rewrite take_ge by (rewrite length_app; cbn; lia).
    eapply wp_bind_mono; [apply (emits_append m2); [by apply c_str_bytes| |done|apply G1]|].
    { rewrite length_app. cbn. lia. }
    intros [r2 b2] m3 E2. apply wp_ret. eapply emit_post_lor; [apply G|exact E1|exact E2].
  - cbn [Z.ltb Z.compare]. apply wp_ret. destruct E1 as (? & bs' & ? & Hr).
    cbn [fst snd] in *. split; [done|]. exists bs'. cbn [fst snd].
    split; [done|]. destruct Hr as [[-> ->]|[-> ?]]; [by left|by right].
Qed.

(** Reserving [n] bytes appends [n] unspecified bytes. *)
Lemma wp_reserve b n m (Q : Z * buffer -> mem -> Prop) :
  buf_wf b -> 0 <= n <= 2 ^ 63 ->
  (forall b' m' bs, same_blocks m m' -> Z.of_nat (length bs) = n -> grown b b' bs ->
     Q (0, b') m') ->
  (forall m', same_blocks m m' -> refused (buf_length b + n) -> Q (- ENOMEM, b) m') ->
  wp (obus_buffer_reserve b n) Q m.
Proof.
  intros W Hn H1 H2. wf_facts b W. unfold obus_buffer_reserve.
  rewrite u64_small by wrap_lia. apply wp_bind.
  apply wp_ensure_realloc; [done|lia| |]; cbn.
  - intros b' m' Hs G Hsz. apply wp_ret.
    pose proof (grown_length _ _ _ W G) as Hl. cbn in Hl. rewrite Z.add_0_r in Hl.
    pose proof (gr_wf _ _ _ G) as W'. wf_facts b' W'. rewrite u64_small by wrap_lia.
    apply (H1 _ _ (slice (buf_data b') (buf_length b') n)); [done| |].
    + unfold slice. rewrite length_take, length_drop. lia.
    + apply (grown_trans _ b' _ [] _ G). constructor; cbn; [|..|done|done|lia].
      * apply buf_wf_with_length; [done|lia].
      * unfold buf_bytes, slice. cbn.
        rewrite Z2Nat.inj_add by lia. symmetry. apply take_take_drop.
  - intros m' Hs Hf. apply wp_ret. by apply H2.
Qed.
End Strings.

Section Overwrites.
Context {AL : Allocator}.

(** [b'] is [b] with the same bookkeeping and the bytes [bs]. *)
Record rewritten (b b' : buffer) (bs : list Z) : Prop := {
  rw_wf : buf_wf b';
  rw_bytes : buf_bytes b' = bs;
  rw_length : buf_length b' = buf_length b;
  rw_pos : buf_pos b' = buf_pos b;
  rw_ref : buf_refcnt b' = buf_refcnt b;
  rw_size : buf_size b' = buf_size b
}.

Lemma wp_ensure_nop b n m (Q : Z * buffer -> mem -> Prop) :
  n <= buf_size b -> Q (0, b) m -> wp (obus_buffer_ensure_realloc b n) Q m.
Proof.
  intros Hn HQ. unfold obus_buffer_ensure_realloc.
  destruct (Z.ltb_spec (buf_size b) n); [lia|]. by apply wp_ret.
Qed.

Lemma wp_data_set_rewritten b0 b off v pre x post m (Q : buffer -> mem -> Prop) :
  rewritten b0 b (pre ++ x :: post) -> is_byte v -> off = Z.of_nat (length pre) ->
  (forall b', rewritten b0 b' (pre ++ v :: post) -> Q b' m) ->
  wp (data_set b off v) Q m.
Proof.
  intros R Hv Ho HQ. eapply wp_data_set; [apply R|done|apply R|done|].
  intros b' W' ? ? ? ? Hb. apply HQ. destruct R. constructor; congruence.
Qed.

Lemma wp_write_u32 b v off pre x0 x1 x2 x3 post m (Q : Z * buffer -> mem -> Prop) :
  buf_wf b -> buf_bytes b = pre ++ [x0; x1; x2; x3] ++ post ->
  off = Z.of_nat (length pre) ->
  (forall b', rewritten b b' (pre ++ be_bytes 4 v ++ post) -> Q (0, b') m) ->
  wp (obus_buffer_write_u32 b v off) Q m.
Proof.
  intros W Hb -> HQ. wf_facts b W. pose proof (length_buf_bytes b W) as Hlen.
  rewrite Hb, !length_app in Hlen. cbn [length] in Hlen.
  unfold obus_buffer_write_u32. rewrite u64_small by wrap_lia. apply wp_bind.
  apply wp_ensure_nop; [lia|]. cbn [failed Z.ltb Z.compare].
  assert (rewritten b b (pre ++ x0 :: x1 :: x2 :: x3 :: post)) as R by by constructor.
  apply wp_bind. eapply wp_data_set_rewritten; [exact R|apply u8_range|done|].
  intros b1 R1. apply wp_bind.
  eapply (wp_data_set_rewritten b _ _ _ (pre ++ [_]) x1);
    [rewrite <- app_assoc; exact R1|apply u8_range|rewrite length_app; cbn; lia|].
  intros b2 R2. apply wp_bind.
  rewrite <- app_assoc in R2. cbn [app] in R2.
  eapply (wp_data_set_rewritten b _ _ _ (pre ++ [_; _]) x2);
    [rewrite <- app_assoc; exact R2|apply u8_range|rewrite length_app; cbn; lia|].
  intros b3 R3. apply wp_bind.
  rewrite <- app_assoc in R3. cbn [app] in R3.
  eapply (wp_data_set_rewritten b _ _ _ (pre ++ [_; _; _]) x3);
    [rewrite <- app_assoc; exact R3|apply u8_range|rewrite length_app; cbn; lia|].
  intros b4 R4. rewrite <- app_assoc in R4. apply wp_ret, HQ.
  rewrite be_bytes_4. exact R4.
Qed.

Lemma wp_write_u8 b v off pre x post m (Q : Z * buffer -> mem -> Prop) :
  buf_wf b -> buf_bytes b = pre ++ x :: post -> is_byte v ->
  off = Z.of_nat (length pre) ->
  (forall b', rewritten b b' (pre ++ v :: post) -> Q (0, b') m) ->
  wp (obus_buffer_write_u8 b v off) Q m.
Proof.
  intros W Hb Hv -> HQ. wf_facts b W. pose proof (length_buf_bytes b W) as Hlen.
  rewrite Hb, length_app in Hlen. cbn [length] in Hlen.
  unfold obus_buffer_write_u8. rewrite u64_small by wrap_lia. apply wp_bind.
  apply wp_ensure_nop; [lia|]. cbn [failed Z.ltb Z.compare]. apply wp_bind.
  assert (rewritten b b (pre ++ x :: post)) as R by by constructor.
  eapply wp_data_set_rewritten; [exact R|done|done|]. intros b' R'. by apply wp_ret, HQ.
Qed.

(** The pattern of every sized record: reserve a [u32], append the payload,
    store its length in the reserved bytes.  The store's code is ignored. *)
Definition sized (payload : buffer -> M (Z * buffer)) (buf : buffer) : M (Z * buffer) :=
  let offset := obus_buffer_write_offset buf in
  '(ret, buf) ← obus_buffer_reserve buf 4;
  if failed ret then mret (ret, buf) else
  '(ret, buf) ← payload buf;
  if failed ret then mret (ret, buf) else
  let length := u64 (obus_buffer_length buf - u64 (offset + 4)) in
  '(_, buf) ← obus_buffer_write_u32 buf (u32 length) offset;
  mret (0, buf).

Lemma emits_sized m payload bs :
  emits m payload bs -> Z.of_nat (length bs) < 2 ^ 32 ->
  emits m (sized payload) (be_bytes 4 (Z.of_nat (length bs)) ++ bs).
Proof.
  intros Hp Hlen b m1 Hm W. wf_facts b W. unfold sized. cbn zeta. apply wp_bind.
  apply wp_reserve; [done|lia| |]; cbn.
  2:{ intros m' Hs Hf. apply wp_ret. split; [done|]. exists [].
      split; [by apply grown_refl|]. right. split; [done|].
      eapply refused_mono; [|exact Hf]. rewrite length_app, length_be_bytes. lia. }
  intros b1 m2 gap Hs Hgap G1. destruct gap as [|x0 [|x1 [|x2 [|x3 [|? ?]]]]]; cbn in Hgap; try lia.
  pose proof (grown_length _ _ _ W G1) as Hl1. cbn in Hl1.
  eapply wp_bind_mono; [apply Hp; [by transitivity m1|apply G1]|].
  intros [r b2] m3 (Hs3 & bs' & G2 & [[Hr ->]|[Hr Hf]]); cbn in *; subst r; cbn.
  2:{ apply wp_ret. split; [by transitivity m2|]. eexists.
      split; [by eapply grown_trans|]. right. split; [done|].
      eapply refused_mono; [|exact Hf]. rewrite length_app, length_be_bytes. lia. }
  pose proof (grown_length _ _ _ (gr_wf _ _ _ G1) G2) as Hl2. cbn in Hl2.
  pose proof (gr_wf _ _ _ G2) as W2. wf_facts b2 W2.
  unfold obus_buffer_length, obus_buffer_write_offset.
  rewrite (u64_small (buf_length b + 4)) by wrap_lia.
  replace (buf_length b2 - (buf_length b + 4)) with (Z.of_nat (length bs)) by lia.
  rewrite u64_small, u32_small by wrap_lia. apply wp_bind.
  eapply (wp_write_u32 _ _ _ (buf_bytes b)); [done| |by rewrite length_buf_bytes|].
  { rewrite (gr_bytes _ _ _ G2), (gr_bytes _ _ _ G1), <- app_assoc. done. }
  intros b3 R. apply wp_ret. split; [by transitivity m2|].
  exists (be_bytes 4 (Z.of_nat (length bs)) ++ bs). split; [|by left].
  destruct R, G1, G2. constructor; cbn; [done|done|congruence..|lia].
Qed.
End Overwrites.

Section Readers.
Context {AL : Allocator}.

Lemma rest_lookup b pre x post :
  buf_wf b -> buf_rest b = pre ++ x :: post ->
  buf_data b !! Z.to_nat (buf_pos b + Z.of_nat (length pre)) = Some x /\
  buf_pos b + Z.of_nat (length pre) < buf_length b.
Proof.
  intros W Hr. wf_facts b W. pose proof (length_buf_bytes b W) as Hlen.
  assert (buf_rest b !! length pre = Some x) as Hx by (rewrite Hr; by apply list_lookup_middle).
  unfold buf_rest in Hx. rewrite lookup_drop in Hx.
  pose proof (lookup_lt_Some _ _ _ Hx).
  rewrite buf_bytes_lookup in Hx by done. split; [|lia].
  by replace (Z.to_nat (buf_pos b + Z.of_nat (length pre)))
    with (Z.to_nat (buf_pos b) + length pre)%nat by lia.
Qed.

Lemma wp_get_rest b i pre x post m (Q : Z -> mem -> Prop) :
  buf_wf b -> buf_rest b = pre ++ x :: post -> i = buf_pos b + Z.of_nat (length pre) ->
  (is_byte x -> Q x m) -> wp (data_get b i) Q m.
Proof.
  intros W Hr -> HQ. wf_facts b W. destruct (rest_lookup b pre x post W Hr) as [Hx _].
  apply (wp_data_get _ _ x); [done|lia|done|]. apply HQ.
  apply (Forall_lookup_1 _ _ _ _ (wf_bytes b W) Hx).
Qed.

Lemma buf_rest_with_pos b n :
  0 <= buf_pos b -> 0 <= n -> buf_rest (with_pos b (buf_pos b + n)) = drop (Z.to_nat n) (buf_rest b).
Proof.
  intros Hp Hn. unfold buf_rest, buf_bytes, with_pos. cbn.
  rewrite drop_drop. f_equal. lia.
Qed.

Lemma rest_bound b bs rest :
  buf_wf b -> bs <> [] -> buf_rest b = bs ++ rest ->
  buf_pos b + Z.of_nat (length bs) <= buf_length b.
Proof.
  intros W Hn Hr. wf_facts b W. pose proof (length_buf_bytes b W) as Hlen.
  apply (f_equal length) in Hr. unfold buf_rest in Hr.
  rewrite length_drop, length_app in Hr. destruct bs; [done|]. cbn [length] in *. lia.
Qed.

(** [c] reads the bytes [bs] as the value [a]: it returns 0 and advances the
    read position past [bs]. *)
Definition reads {A} (c : buffer -> M (Z * option A * buffer)) (bs : list Z) (a : A) : Prop :=
  forall b m rest, buf_wf b -> buf_rest b = bs ++ rest ->
    wp (c b) (fun r m' => r = (0, Some a, with_pos b (buf_pos b + Z.of_nat (length bs)))
                          /\ m' = m) m.

Ltac read_bound b W Hr :=
  wf_facts b W;
  let Hb := fresh "Hb" in
  pose proof (fun Hn => rest_bound b _ _ W Hn Hr) as Hb;
  specialize (Hb ltac:(done)); cbn [length] in *.

(** [get_rest pre x]: consume one [data_get], the byte [x] after [pre]. *)
Ltac get_rest b W Hr pre :=
  apply wp_bind; eapply (wp_get_rest b _ pre); [exact W|exact Hr|cbn; lia|intros ?].

Lemma reads_u8 v : reads obus_buffer_read_u8 [v] v.
Proof.
  intros b m rest W Hr. read_bound b W Hr. unfold obus_buffer_read_u8.
  destruct (Z.leb_spec (buf_length b) (buf_pos b)); [lia|].
  get_rest b W Hr (@nil Z). apply wp_ret. rewrite u64_small by wrap_lia. done.
Qed.

Lemma reads_u16 v : 0 <= v < 2 ^ 16 -> reads obus_buffer_read_u16 (be_bytes 2 v) v.
Proof.
  intros Hv b m rest W Hr. rewrite be_bytes_2 in *. read_bound b W Hr.
  unfold obus_buffer_read_u16. rewrite u64_small by wrap_lia.
  destruct (Z.leb_spec (buf_length b) (buf_pos b + 1)); [lia|].
  get_rest b W Hr (@nil Z). get_rest b W Hr [u8 (Z.land (Z.shiftr v 8) 255)].
  apply wp_ret. rewrite be_val_2, <- be_bytes_2, be_val_be_bytes by done.
  rewrite u64_small by wrap_lia. by rewrite Z.mod_small.
Qed.

Lemma reads_u32 v : 0 <= v < 2 ^ 32 -> reads obus_buffer_read_u32 (be_bytes 4 v) v.
Proof.
  intros Hv b m rest W Hr. pose proof (be_bytes_4 v) as E.
  remember (u8 (Z.land (Z.shiftr v 24) 255)) as x0. remember (u8 (Z.land (Z.shiftr v 16) 255)) as x1.
  remember (u8 (Z.land (Z.shiftr v 8) 255)) as x2. remember (u8 (Z.land v 255)) as x3.
  rewrite E in *. read_bound b W Hr.
  unfold obus_buffer_read_u32. rewrite u64_small by wrap_lia.
  destruct (Z.leb_spec (buf_length b) (buf_pos b + 3)); [lia|].
  get_rest b W Hr (@nil Z). get_rest b W Hr [x0]. get_rest b W Hr [x0; x1].
  get_rest b W Hr [x0; x1; x2]. cbn zeta.
  apply wp_ret. rewrite be_val_4, <- E, be_val_be_bytes by done.
  rewrite u64_small by wrap_lia. by rewrite Z.mod_small.
Qed.

Lemma reads_u64 v : 0 <= v < 2 ^ 64 -> reads obus_buffer_read_u64 (be_bytes 8 v) v.
Proof.
  intros Hv b m rest W Hr. pose proof (be_bytes_8 v) as E.
  remember (u8 (Z.land (Z.shiftr v 56) 255)) as x0. remember (u8 (Z.land (Z.shiftr v 48) 255)) as x1.
  remember (u8 (Z.land (Z.shiftr v 40) 255)) as x2. remember (u8 (Z.land (Z.shiftr v 32) 255)) as x3.
  remember (u8 (Z.land (Z.shiftr v 24) 255)) as x4. remember (u8 (Z.land (Z.shiftr v 16) 255)) as x5.
  remember (u8 (Z.land (Z.shiftr v 8) 255)) as x6. remember (u8 (Z.land v 255)) as x7.
  rewrite E in *. read_bound b W Hr.
  unfold obus_buffer_read_u64. rewrite u64_small by wrap_lia.
  destruct (Z.leb_spec (buf_size b) (buf_pos b + 7)); [lia|].
  get_rest b W Hr (@nil Z). get_rest b W Hr [x0]. get_rest b W Hr [x0; x1].
  get_rest b W Hr [x0; x1; x2]. get_rest b W Hr [x0; x1; x2; x3].
  get_rest b W Hr [x0; x1; x2; x3; x4]. get_rest b W Hr [x0; x1; x2; x3; x4; x5].
  get_rest b W Hr [x0; x1; x2; x3; x4; x5; x6]. cbn zeta.
  apply wp_ret. rewrite be_val_8, <- E, be_val_be_bytes by done.
  rewrite u64_small by wrap_lia. by rewrite Z.mod_small.
Qed.
End Readers.

Section SafeReads.
Context {AL : Allocator}.

(** On any buffer, [c] has no undefined behaviour: it fails and changes
    nothing, or reads a value satisfying [P] and moves the position forward,
    at most to [lim]. *)
Definition reads_safely {A} (c : buffer -> M (Z * option A * buffer)) (P : A -> Prop)
    (lim : buffer -> Z) : Prop :=
  forall b m, buf_wf b ->
    wp (c b) (fun r m' => m' = m /\
      ((exists ret, failed ret = true /\ r = (ret, None, b)) \/
       (exists a p, r = (0, Some a, with_pos b p) /\ P a /\ buf_pos b < p <= lim b))) m.

Ltac fail_case := apply wp_ret; split; [done|]; left; eexists; split; [|reflexivity]; done.

Ltac get_any b W :=
  apply wp_bind; apply wp_data_get_byte; [exact W|lia|intros ? ? ?].

Ltac read_case :=
  apply wp_ret; split; [done|]; right; eexists _, _; split; [reflexivity|];
  rewrite (u64_small (buf_pos _ + _)) by wrap_lia.

Lemma reads_u8_safely : reads_safely obus_buffer_read_u8 is_byte buf_length.
Proof.
  intros b m W. wf_facts b W. unfold obus_buffer_read_u8.
  destruct (Z.leb_spec (buf_length b) (buf_pos b)); [fail_case|].
  get_any b W. read_case. split; [done|lia].
Qed.

Lemma reads_u16_safely :
  reads_safely obus_buffer_read_u16 (fun v => 0 <= v < 2 ^ 16) buf_length.
Proof.
  intros b m W. wf_facts b W. unfold obus_buffer_read_u16.
  rewrite (u64_small (buf_pos b + 1)) by wrap_lia.
  destruct (Z.leb_spec (buf_length b) (buf_pos b + 1)); [fail_case|].
  do 2 get_any b W. read_case. split; [apply u16_range|lia].
Qed.

Lemma be_val_bound l : Forall is_byte l -> 0 <= be_val l < 256 ^ Z.of_nat (length l).
Proof.
  induction l as [|x l IH] using rev_ind; intros H; [cbn; lia|].
  apply Forall_app in H as [H Hx]. inversion_clear Hx.
  unfold be_val in *. rewrite fold_left_app, length_app. cbn.
  rewrite Nat2Z.inj_add, Z.pow_add_r by lia. specialize (IH H).
  unfold is_byte in *. change (256 ^ Z.of_nat 1) with 256. lia.
Qed.

Lemma reads_u32_safely :
  reads_safely obus_buffer_read_u32 (fun v => 0 <= v < 2 ^ 32) buf_length.
Proof.
  intros b m W. wf_facts b W. unfold obus_buffer_read_u32.
  rewrite (u64_small (buf_pos b + 3)) by wrap_lia.
  destruct (Z.leb_spec (buf_length b) (buf_pos b + 3)); [fail_case|].
  do 4 get_any b W. cbn zeta. read_case. rewrite be_val_4 by done.
  split; [apply (be_val_bound [_; _; _; _]); by repeat first [apply Forall_cons_2|apply Forall_nil_2]|lia].
Qed.

Lemma reads_u64_safely :
  reads_safely obus_buffer_read_u64 (fun v => 0 <= v < 2 ^ 64) buf_size.
Proof.
  intros b m W. wf_facts b W. unfold obus_buffer_read_u64.
  rewrite (u64_small (buf_pos b + 7)) by wrap_lia.
  destruct (Z.leb_spec (buf_size b) (buf_pos b + 7)); [fail_case|].
  do 8 get_any b W. cbn zeta. read_case. rewrite be_val_8 by done.
  split; [apply (be_val_bound [_; _; _; _; _; _; _; _]); by repeat first [apply Forall_cons_2|apply Forall_nil_2]|lia].
Qed.

(** A reader's outcome: code, new buffer, whether the output is written. *)
Lemma wp_read_safely {A} (c : buffer -> M (Z * option A * buffer)) P lim b m
    (Q : Z * option A * buffer -> mem -> Prop) :
  reads_safely c P lim -> buf_wf b ->
  (forall ret, failed ret = true -> Q (ret, None, b) m) ->
  (forall a p, P a -> buf_pos b < p <= lim b -> Q (0, Some a, with_pos b p) m) ->
  wp (c b) Q m.
Proof.
  intros Hc W H1 H2. eapply wp_mono; [by apply Hc|].
  intros r m' [-> [(ret & ? & ->)|(a & p & -> & ? & ?)]]; [by apply H1|by apply H2].
Qed.

(** ** Strings *)

(** [s] is the only block that [m'] has and [m] has not. *)
Definition new_string (m m' : mem) (s : cstr) : Prop :=
  (s = CNull /\ same_blocks m m') \/
  (exists bs, s = CHeap (m_next m) /\ m_blocks m' = <[m_next m := bs]> (m_blocks m) /\
     m_next m' = Pos.succ (m_next m) /\ is_Some (until_nul bs)).

Lemma wp_new_block n f m (Q : option positive -> mem -> Prop) :
  (forall m', same_blocks m m' -> refused n -> Q None m') ->
  (forall k m', m_blocks m' = <[m_next m := f k]> (m_blocks m) ->
     m_next m' = Pos.succ (m_next m) -> Q (Some (m_next m)) m') ->
  wp (m_new_block n f) Q m.
Proof.
  intros H1 H2. unfold wp, m_new_block.
  destruct (malloc_ok (m_count m) n) eqn:E; do 2 eexists; (split; [reflexivity|]).
  - by eapply H2.
  - apply H1; [later|]. exists (m_count m), n. split; [lia|done].
Qed.

Lemma wp_data_slice b off n m (Q : list Z -> mem -> Prop) :
  buf_wf b -> 0 <= off -> 0 <= n -> off + n <= buf_size b ->
  Q (slice (buf_data b) off n) m -> wp (data_slice b off n) Q m.
Proof.
  intros W H1 H2 H3 HQ. unfold data_slice.
  rewrite !(proj2 (Z.leb_le _ _)) by lia. by apply wp_ret.
Qed.

Lemma length_slice b off n :
  buf_wf b -> 0 <= off -> 0 <= n -> off + n <= buf_size b ->
  Z.of_nat (length (slice (buf_data b) off n)) = n.
Proof.
  intros W ? ? ?. wf_facts b W. unfold slice. rewrite length_take, length_drop. lia.
Qed.

(** [obus_buffer_dup] copies the next [size] bytes into a new block. *)
Lemma wp_dup b size m (Q : Z * option positive * buffer -> mem -> Prop) :
  buf_wf b -> 0 < size < 2 ^ 32 ->
  (forall m' ret, same_blocks m m' -> failed ret = true ->
     (buf_pos b + size <= buf_length b -> refused size) -> Q (ret, None, b) m') ->
  (forall m', buf_pos b + size <= buf_length b ->
     m_blocks m' = <[m_next m := slice (buf_data b) (buf_pos b) size]> (m_blocks m) ->
     m_next m' = Pos.succ (m_next m) ->
     Q (0, Some (m_next m), with_pos b (buf_pos b + size)) m') ->
  wp (obus_buffer_dup b size) Q m.
Proof.
  intros W Hs H1 H2. wf_facts b W. unfold obus_buffer_dup.
  destruct (Z.eqb_spec size 0); [lia|]. rewrite u64_small by wrap_lia.
  destruct (Z.ltb_spec (buf_length b) (buf_pos b + size)).
  - apply wp_ret. apply H1; [done|done|lia].
  - apply wp_bind, wp_data_slice; [done|lia|lia|lia|]. apply wp_bind.
    apply wp_new_block; [intros m' ? ?|intros _ m' ? ?]; apply wp_ret; by auto.
Qed.
End SafeReads.

Section ReadString.
Context {AL : Allocator}.

Lemma buf_rest_prefix b n bs rest :
  buf_wf b -> buf_rest b = bs ++ rest -> n = Z.of_nat (length bs) -> bs <> [] ->
  slice (buf_data b) (buf_pos b) n = bs.
Proof.
  intros W Hr -> Hne. pose proof (rest_bound b bs rest W Hne Hr). wf_facts b W.
  unfold slice. rewrite Nat2Z.id.
  replace (take (length bs) (drop (Z.to_nat (buf_pos b)) (buf_data b)))
    with (take (length bs) (buf_rest b)); [by rewrite Hr, take_app_length|].
  unfold buf_rest, buf_bytes. rewrite skipn_firstn_comm, take_take. f_equal. lia.
Qed.

(** The block written by [read_string]: its last byte becomes NUL. *)
Lemma wp_terminate p bs m (Q : Z * option cstr * buffer -> mem -> Prop) b size :
  m_blocks m !! p = Some bs -> Z.of_nat (length bs) = size -> 0 < size ->
  (forall m', m_blocks m' = <[p := <[(length bs - 1)%nat := 0]> bs]> (m_blocks m) ->
     m_next m' = m_next m -> Q (0, Some (CHeap p), b) m') ->
  wp (bs ← m_read p;
      if size <=? Z.of_nat (length bs) then
        m_write p (<[Z.to_nat (size - 1) := 0]> bs);; mret (0, Some (CHeap p), b)
      else m_undef) Q m.
Proof.
  intros Hp Hl Hs HQ. apply wp_bind. eexists _, _. unfold m_read. rewrite Hp.
  split; [done|]. rewrite (proj2 (Z.leb_le _ _)) by lia. apply wp_bind.
  eexists _, _. unfold m_write. rewrite Hp. split; [done|]. apply wp_ret.
  apply HQ; [|done]. cbn. by replace (Z.to_nat (size - 1)) with (length bs - 1)%nat by lia.
Qed.

(** No undefined behaviour on any buffer, and at most one new block, which is
    NUL-terminated. *)
Definition read_string_post (b : buffer) (m : mem) (r : Z * option cstr * buffer) (m' : mem)
  : Prop :=
  let '(ret, s, b') := r in
  (exists p, b' = with_pos b p /\ buf_pos b <= p <= buf_size b /\
     (p <= buf_length b \/ p = buf_pos b)) /\
  match s with
  | None => failed ret = true /\ same_blocks m m'
  | Some s => new_string m m' s /\ (failed ret = true -> s = CNull) /\
              (failed ret = false -> ret = 0)
  end.

Lemma wp_read_string b m :
  buf_wf b -> wp (obus_buffer_read_string b) (read_string_post b m) m.
Proof.
  intros W. wf_facts b W. unfold obus_buffer_read_string. apply wp_bind.
  apply (wp_read_safely _ _ _ _ _ _ reads_u32_safely W).
  { intros ret Hr. cbn. apply wp_ret. split; [|done]. exists (buf_pos b).
    split; [by destruct b|lia]. }
  intros size p Hsize Hp. cbn. destruct (Z.eqb_spec size 0).
  { apply wp_ret. split; [exists p; split; [done|lia]|].
    split; [by left|]. done. }
  apply wp_bind. apply wp_dup; cbn.
  - by apply buf_wf_with_pos; [|lia].
  - lia.
  - intros m' ret Hs Hr _. apply wp_ret. split; [exists p; split; [done|lia]|].
    split; [by left|]. split; [done|]. by rewrite Hr.
  - intros m' Hb Hm Hn.
    eapply wp_terminate; [rewrite Hm; apply lookup_insert_eq|by apply length_slice; [|lia..]|lia|].
    intros m2 Hm2 Hn2. split; [exists (p + size); split; [done|lia]|].
    split; [|done]. right. eexists. split; [done|].
    rewrite Hm2, Hm, insert_insert_eq. split; [done|]. split; [congruence|].
    apply until_nul_terminated. intros Hnil.
    pose proof (length_slice b p size W ltac:(lia) ltac:(lia) ltac:(lia)) as Hl.
    rewrite Hnil in Hl. cbn in Hl. lia.
Qed.

(** Reading back what [append_string] writes, when memory suffices. *)
Lemma reads_string `{!AmpleMemory AL} b m o rest :
  buf_wf b -> wire_string o -> buf_rest b = string_wire o ++ rest ->
  wp (obus_buffer_read_string b)
     (fun r m' => exists s,
        r = (0, Some s, with_pos b (buf_pos b + Z.of_nat (length (string_wire o)))) /\
        new_string m m' s /\ cstr_chars m' s = Some o) m.
Proof.
  intros W Ho Hr. wf_facts b W. unfold obus_buffer_read_string.
  assert (0 <= wire_size o < 2 ^ 32) as Hsz by (destruct o as [cs|]; [destruct Ho|]; cbn; lia).
  pose proof (length_string_wire o) as Hlw.
  assert (exists tl, string_wire o = be_bytes 4 (wire_size o) ++ tl /\
            match o with Some cs => tl = cs ++ [0] | None => tl = [] end) as (tl & Htl & Hcs).
  { destruct o; eexists; (split; [|done]); [done|by rewrite app_nil_r]. }
  rewrite Htl, <- app_assoc in Hr.
  eapply wp_bind_mono; [by eapply (reads_u32 (wire_size o))|]. intros r m' [-> ->].
  rewrite length_be_bytes. change (Z.of_nat 4) with 4. cbn beta iota zeta.
  destruct o as [cs|]; cbn [wire_size] in *; subst tl.
  - destruct Ho as [Hc Hlen]. destruct (Z.eqb_spec (Z.of_nat (length cs) + 1) 0); [lia|].
    pose proof (rest_bound b (be_bytes 4 (Z.of_nat (length cs) + 1)) _ W ltac:(done) Hr) as Hb4.
    rewrite length_be_bytes in Hb4.
    set (b1 := with_pos b (buf_pos b + 4)).
    assert (buf_wf b1) as W1 by (apply buf_wf_with_pos; [done|lia]).
    assert (buf_rest b1 = (cs ++ [0]) ++ rest) as Hr1.
    { unfold b1. rewrite buf_rest_with_pos, Hr by lia.
      by rewrite drop_app_length' by by rewrite length_be_bytes. }
    assert (Z.of_nat (length (cs ++ [0])) = Z.of_nat (length cs) + 1) as Hl
      by (rewrite length_app; cbn; lia).
    pose proof (rest_bound b1 (cs ++ [0]) rest W1 ltac:(by destruct cs) Hr1) as Hb1.
    apply wp_bind. apply wp_dup; [done|lia| |].
    + intros m' ret _ Hf Href. exfalso. eapply ample_not_refused; [|apply Href; lia]. wrap_lia.
    + intros m' _ Hm Hn.
      rewrite (buf_rest_prefix b1 _ (cs ++ [0]) rest) in Hm by (done || lia || by destruct cs).
      cbn beta iota zeta. eapply wp_terminate; [rewrite Hm; apply lookup_insert_eq|lia|lia|].
      intros m2 Hm2 Hn2. rewrite insert_last in Hm2. exists (CHeap (m_next m)). split_and!.
      * unfold b1, with_pos. cbn [buf_pos buf_size buf_length buf_data buf_refcnt].
        rewrite Hlw. do 2 f_equal. lia.
      * right. exists (cs ++ [0]). rewrite Hm2, Hm, insert_insert_eq.
        split_and!; [done..|congruence|]. rewrite until_nul_app by done. by eexists.
      * cbn. rewrite Hm2, lookup_insert_eq. cbn. by rewrite until_nul_app.
  - cbn. apply wp_ret. exists CNull. split_and!; [done|by left|done].
Qed.
End ReadString.

Section Removal.
Context {AL : Allocator}.

Lemma wp_data_blit b off bs m (Q : buffer -> mem -> Prop) :
  buf_wf b -> Forall is_byte bs -> 0 <= off -> off + Z.of_nat (length bs) <= buf_size b ->
  (forall b', b' = with_data b (splice (buf_data b) off bs) -> buf_wf b' -> Q b' m) ->
  wp (data_blit b off bs) Q m.
Proof.
  intros W Hbs Ho Hl HQ. wf_facts b W. unfold data_blit.
  rewrite !(proj2 (Z.leb_le _ _)) by lia. apply wp_ret, HQ; [done|].
  assert (length (splice (buf_data b) off bs) = length (buf_data b)) as Hlen.
  { unfold splice. rewrite !length_app, length_take, length_drop. lia. }
  constructor; cbn; [lia|lia|done|by rewrite Hlen|].
  unfold splice. rewrite !Forall_app.
  split_and!; [apply Forall_take, W|done|apply Forall_drop, W].
Qed.

Definition pos_after_remove (b : buffer) (n : Z) : Z :=
  if (n =? 0) || (buf_length b =? 0) || (buf_length b <=? n) then buf_pos b
  else Z.max 0 (buf_pos b - n).

Lemma wp_remove_first b n m (Q : buffer -> mem -> Prop) :
  buf_wf b -> 0 <= n ->
  (forall b', buf_wf b' -> buf_bytes b' = drop (Z.to_nat n) (buf_bytes b) ->
     buf_size b' = buf_size b -> buf_refcnt b' = buf_refcnt b ->
     buf_pos b' = pos_after_remove b n -> Q b' m) ->
  wp (obus_buffer_remove_first b n) Q m.
Proof.
  intros W Hn HQ. wf_facts b W. pose proof (length_buf_bytes b W) as Hlen.
  unfold obus_buffer_remove_first, pos_after_remove in *.
  destruct (Z.eqb_spec n 0) as [->|Hn0]; [apply wp_ret, HQ; done|].
  destruct (Z.eqb_spec (buf_length b) 0) as [Hl0|Hl0].
  { apply wp_ret, HQ; try done. symmetry. rewrite drop_ge by lia.
    unfold buf_bytes. by rewrite Hl0. }
  destruct (Z.leb_spec (buf_length b) n); cbn in *.
  { apply wp_ret, HQ; cbn; try done.
    - apply buf_wf_with_length; [done|lia].
    - symmetry. by rewrite drop_ge by lia. }
  rewrite u64_small by wrap_lia. apply wp_bind, wp_data_slice; [done|lia..|].
  pose proof (length_slice b n (buf_length b - n) W ltac:(lia) ltac:(lia) ltac:(lia)) as Hs.
  apply wp_bind, wp_data_blit; [done| |lia|lia|].
  { unfold slice. apply Forall_take, Forall_drop, W. }
  intros b' -> W'. apply wp_ret.
  apply HQ; cbn; try done.
  - apply buf_wf_with_pos; [apply buf_wf_with_length; [done|cbn; lia]|].
    cbn. destruct (Z.ltb_spec n (buf_pos b)); [rewrite u64_small by wrap_lia|]; lia.
  - unfold buf_bytes, splice. cbn. rewrite take_0, app_nil_l, take_app_le by lia.
    rewrite take_ge by lia. unfold slice.
    rewrite firstn_skipn_comm. do 2 f_equal. lia.
  - destruct (Z.ltb_spec n (buf_pos b)); [rewrite u64_small by wrap_lia|]; lia.
Qed.

Lemma wp_remove_read b m (Q : buffer -> mem -> Prop) :
  buf_wf b ->
  (forall b', buf_wf b' -> buf_bytes b' = buf_rest b -> buf_pos b' = 0 -> Q b' m) ->
  wp (obus_buffer_remove_read b) Q m.
Proof.
  intros W HQ. wf_facts b W. unfold obus_buffer_remove_read. apply wp_bind.
  apply wp_remove_first; [done|lia|]. intros b' W' Hb Hs Hr Hp. apply wp_ret, HQ; [|done|done].
  apply buf_wf_with_pos; [done|lia].
Qed.
End Removal.

(** ** Every client of a buffer *)

Inductive buf_op :=
| OpClear
| OpReserve (n : Z)
| OpEnsure (n : Z)
| OpFill (bs : list Z)      (* room ensured, then bytes stored where [obus_io_read] does *)
| OpWrite (off : Z) (bs : list Z)
| OpAppend (bs : list Z)
| OpAppendU8 (v : Z) | OpAppendU16 (v : Z) | OpAppendU32 (v : Z) | OpAppendU64 (v : Z)
| OpWriteU8 (v off : Z) | OpWriteU16 (v off : Z) | OpWriteU32 (v off : Z) | OpWriteU64 (v off : Z)
| OpReadU8 | OpReadU16 | OpReadU32 | OpReadU64 | OpReadString
| OpAppendString (o : option (list Z))         (* a string of the caller, or NULL *)
| OpDup (n : Z)
| OpSetPos (p : Z) | OpIncPos (n : Z)
| OpRemoveFirst (n : Z) | OpRemoveRead.

(** Argument ranges: C types, sizes a caller can have in memory, and accesses whose
    end does not wrap around the 64 bits of a [size_t]. *)
Definition op_ok (op : buf_op) : Prop :=
  match op with
  | OpReserve n | OpEnsure n => 0 <= n <= 2 ^ 63
  | OpWrite off bs => 0 <= off /\ Forall is_byte bs /\ off + Z.of_nat (length bs) < 2 ^ 64
  | OpFill bs => Forall is_byte bs /\ Z.of_nat (length bs) <= 2 ^ 63
  | OpAppend bs => Forall is_byte bs /\ Z.of_nat (length bs) <= 2 ^ 62
  | OpAppendU8 v => is_byte v
  | OpWriteU8 v off => is_byte v /\ 0 <= off < 2 ^ 64 - 1
  | OpWriteU16 _ off => 0 <= off < 2 ^ 64 - 2
  | OpWriteU32 _ off => 0 <= off < 2 ^ 64 - 4
  | OpWriteU64 _ off => 0 <= off < 2 ^ 64 - 8
  | OpAppendString o => wire_string o
  | OpDup n => 0 <= n < 2 ^ 32
  | OpSetPos p => 0 <= p < 2 ^ 64
  | OpIncPos n => 0 <= n < 2 ^ 32
  | OpRemoveFirst n => 0 <= n < 2 ^ 64
  | _ => True
  end.

Section Client.
Context {AL : Allocator}.

Definition run_op (op : buf_op) (b : buffer) : M buffer :=
  match op with
  | OpClear => mret (obus_buffer_clear b)
  | OpReserve n => '(_, b) ← obus_buffer_reserve b n; mret b
  | OpEnsure n => '(_, b) ← obus_buffer_ensure_write_space b n; mret b
  | OpFill bs =>
    '(ret, b) ← obus_buffer_ensure_write_space b (Z.of_nat (length bs));
    if failed ret then mret b else
    b ← data_blit b (obus_buffer_write_offset b) bs;
    mret (obus_buffer_inc_write_ptr b (Z.of_nat (length bs)))
  | OpWrite off bs => '(_, b) ← obus_buffer_write b off bs; mret b
  | OpAppend bs => '(_, b) ← obus_buffer_append b bs; mret b
  | OpAppendU8 v => '(_, b) ← obus_buffer_append_u8 b v; mret b
  | OpAppendU16 v => '(_, b) ← obus_buffer_append_u16 b v; mret b
  | OpAppendU32 v => '(_, b) ← obus_buffer_append_u32 b v; mret b
  | OpAppendU64 v => '(_, b) ← obus_buffer_append_u64 b v; mret b
  | OpWriteU8 v off => '(_, b) ← obus_buffer_write_u8 b v off; mret b
  | OpWriteU16 v off => '(_, b) ← obus_buffer_write_u16 b v off; mret b
  | OpWriteU32 v off => '(_, b) ← obus_buffer_write_u32 b v off; mret b
  | OpWriteU64 v off => '(_, b) ← obus_buffer_write_u64 b v off; mret b
  | OpReadU8 => '(_, _, b) ← obus_buffer_read_u8 b; mret b
  | OpReadU16 => '(_, _, b) ← obus_buffer_read_u16 b; mret b
  | OpReadU32 => '(_, _, b) ← obus_buffer_read_u32 b; mret b
  | OpReadU64 => '(_, _, b) ← obus_buffer_read_u64 b; mret b
  | OpReadString => '(_, _, b) ← obus_buffer_read_string b; mret b
  | OpAppendString None => '(_, b) ← obus_buffer_append_string b CNull; mret b
  | OpAppendString (Some cs) =>
    a ← m_new_block (Z.of_nat (length cs) + 1) (fun _ => cs ++ [0]);
    match a with
    | Some p => '(_, b) ← obus_buffer_append_string b (CHeap p); mret b
    | None => mret b
    end
  | OpDup n => '(_, _, b) ← obus_buffer_dup b n; mret b
  | OpSetPos p => mret (snd (obus_buffer_set_read_position b p))
  | OpIncPos n => mret (snd (obus_buffer_inc_read_position b n))
  | OpRemoveFirst n => obus_buffer_remove_first b n
  | OpRemoveRead => obus_buffer_remove_read b
  end.

Fixpoint run_ops (ops : list buf_op) (b : buffer) : M buffer :=
  match ops with
  | [] => mret b
  | op :: ops' => b ← run_op op b; run_ops ops' b
  end.

Definition keeps_wf (c : M buffer) (m : mem) : Prop := wp c (fun b' _ => buf_wf b') m.

Lemma emits_keeps_wf m0 c bs b m :
  emits m0 c bs -> same_blocks m0 m -> buf_wf b ->
  keeps_wf ('(_, b) ← c b; mret b) m.
Proof.
  intros He Hs W. eapply wp_bind_mono; [by apply He|].
  intros [r b'] m' (_ & bs' & G & _). apply wp_ret. apply G.
Qed.

Lemma reads_keeps_wf {A} (c : buffer -> M (Z * option A * buffer)) P lim b m :
  reads_safely c P lim -> (lim b <= buf_size b) -> buf_wf b ->
  keeps_wf ('(_, _, b) ← c b; mret b) m.
Proof.
  intros Hc Hl W. wf_facts b W. apply wp_bind.
  apply (wp_read_safely _ _ _ _ _ _ Hc W); intros; apply wp_ret; [done|].
  apply buf_wf_with_pos; [done|lia].
Qed.

Lemma wp_data_set_wf b i v m (Q : buffer -> mem -> Prop) :
  buf_wf b -> 0 <= i < buf_size b -> is_byte v ->
  (forall b', buf_wf b' -> buf_size b' = buf_size b -> Q b' m) ->
  wp (data_set b i v) Q m.
Proof.
  intros W Hi Hv HQ. wf_facts b W. unfold data_set.
  rewrite (proj2 (Z.leb_le _ _)), (proj2 (Z.ltb_lt _ _)) by lia. apply wp_ret, HQ; [|done].
  constructor; cbn; [lia|lia|done|by rewrite length_insert|].
  apply Forall_insert; [apply W|done].
Qed.

Lemma wp_ensure_wf b n m (k : buffer -> M (Z * buffer)) :
  buf_wf b -> 0 <= n ->
  (forall b' m', buf_wf b' -> n <= buf_size b' ->
     wp (k b') (fun r _ => buf_wf (snd r)) m') ->
  keeps_wf ('(_, b) ← ('(ret, b) ← obus_buffer_ensure_realloc b n;
             if failed ret then mret (ret, b) else k b); mret b) m.
Proof.
  intros W Hn Hk. apply wp_bind, wp_bind, wp_ensure_realloc; [done|done| |].
  - intros b' m' _ G Hs. cbn. eapply wp_mono; [by apply Hk; [apply G|]|].
    intros [r b2] m2 H. by apply wp_ret.
  - intros m' _ _. cbn. by apply wp_ret, wp_ret.
Qed.

Ltac sets W :=
  repeat (apply wp_bind; eapply wp_data_set_wf;
    [eassumption|lia|first [apply u8_range|assumption]|intros ? ? ?; cbn in *]);
  apply wp_ret; assumption.

Lemma write_wf b off bs m :
  buf_wf b -> op_ok (OpWrite off bs) -> keeps_wf (run_op (OpWrite off bs) b) m.
Proof.
  intros W (Ho & Hbs & Hl). wf_facts b W. cbn [run_op]. unfold obus_buffer_write.
  rewrite !(u64_small (off + _)) by wrap_lia.
  apply wp_ensure_wf; [done|lia|]. intros b' m' W' Hs. wf_facts b' W'.
  apply wp_bind, wp_data_blit; [done..|lia|]. intros b2 -> W2.
  cbn [buf_length with_data].
  destruct (Z.ltb_spec (buf_length b') (off + Z.of_nat (length bs)));
    apply wp_ret; [|done]. apply buf_wf_with_length; [done|]. cbn.
  replace (u64 (buf_length b' + u64 (u64 (off - buf_length b') + Z.of_nat (length bs))))
    with (off + Z.of_nat (length bs)); [lia|].
  unfold u64. rewrite Zplus_mod_idemp_l, Zplus_mod_idemp_r.
  rewrite Z.mod_small; wrap_lia.
Qed.

(** The bytes stored directly after the valid ones. *)
Lemma fill_wf b bs m :
  buf_wf b -> op_ok (OpFill bs) -> keeps_wf (run_op (OpFill bs) b) m.
Proof.
  intros W [Hbs Hl]. wf_facts b W. cbn [run_op]. unfold obus_buffer_ensure_write_space.
  rewrite u64_small by wrap_lia. apply wp_bind, wp_ensure_realloc; [done|lia|..].
  - intros b' m' _ G Hs. cbn [failed Z.ltb Z.compare]. pose proof (gr_wf _ _ _ G) as W'. wf_facts b' W'.
    pose proof (grown_length _ _ _ W G) as Hlen. cbn in Hlen. unfold obus_buffer_write_offset.
    apply wp_bind, wp_data_blit; [done..|lia|lia|]. intros b2 -> W2. apply wp_ret.
    unfold obus_buffer_inc_write_ptr. cbn [buf_length with_data].
    rewrite u64_small by wrap_lia. apply buf_wf_with_length; [done|cbn; lia].
  - intros m' _ _. by apply wp_ret.
Qed.

Lemma append_string_wf o b m :
  buf_wf b -> wire_string o -> keeps_wf (run_op (OpAppendString o) b) m.
Proof.
  intros W Ho. destruct o as [cs|]; cbn [run_op].
  - apply wp_bind, wp_new_block; [intros; by apply wp_ret|]. intros k m' Hm Hn.
    eapply (emits_keeps_wf m' (fun b => obus_buffer_append_string b (CHeap (m_next m)))); [|done|done].
    apply (emits_append_string m' _ (Some cs)); [|done]. cbn. rewrite Hm, lookup_insert_eq. cbn.
    by rewrite (until_nul_app cs []) by apply Ho.
  - eapply (emits_keeps_wf m (fun b => obus_buffer_append_string b CNull)); [|done|done].
    by apply (emits_append_string m CNull None).
Qed.

Lemma dup_wf n b m : buf_wf b -> op_ok (OpDup n) -> keeps_wf (run_op (OpDup n) b) m.
Proof.
  intros W Hn. wf_facts b W. cbn [run_op op_ok] in *. destruct (decide (n = 0)) as [->|Hz].
  - unfold obus_buffer_dup. cbn. apply wp_bind. by repeat apply wp_ret.
  - apply wp_bind, wp_dup; [done|lia|intros; by apply wp_ret|].
    intros m' Hl _ _. apply wp_ret, buf_wf_with_pos; [done|lia].
Qed.

Lemma run_op_wf op b m : op_ok op -> buf_wf b -> keeps_wf (run_op op b) m.
Proof.
  intros Ho W. wf_facts b W. destruct op; cbn [run_op op_ok] in *.
  - apply wp_ret. apply buf_wf_with_length; [done|lia].
  - apply wp_bind, wp_reserve; [done|done|..]; intros; apply wp_ret; [|done].
    by match goal with H : grown _ _ _ |- _ => apply H end.
  - apply wp_bind. unfold obus_buffer_ensure_write_space. rewrite u64_small by wrap_lia.
    apply wp_ensure_realloc; [done|lia|..]; intros; apply wp_ret; [|done].
    by match goal with H : grown _ _ _ |- _ => apply H end.
  - by apply (fill_wf b bs).
  - by apply (write_wf b off bs).
  - destruct Ho. apply (emits_keeps_wf m (fun b => obus_buffer_append b bs) bs); [by apply emits_append|done|done].
  - eapply (emits_keeps_wf m (fun b => obus_buffer_append_u8 b v)); [by apply emits_append_u8|done|done].
  - eapply (emits_keeps_wf m (fun b => obus_buffer_append_u16 b v)); [by apply emits_append_u16|done|done].
  - eapply (emits_keeps_wf m (fun b => obus_buffer_append_u32 b v)); [by apply emits_append_u32|done|done].
  - eapply (emits_keeps_wf m (fun b => obus_buffer_append_u64 b v)); [by apply emits_append_u64|done|done].
  - destruct Ho. unfold obus_buffer_write_u8. rewrite u64_small by wrap_lia.
    apply wp_ensure_wf; [done|lia|]. intros b' m' W' Hs. sets W'.
  - unfold obus_buffer_write_u16. rewrite u64_small by wrap_lia.
    apply wp_ensure_wf; [done|lia|]. intros b' m' W' Hs. sets W'.
  - unfold obus_buffer_write_u32. rewrite u64_small by wrap_lia.
    apply wp_ensure_wf; [done|lia|]. intros b' m' W' Hs. sets W'.
  - unfold obus_buffer_write_u64. rewrite u64_small by wrap_lia.
    apply wp_ensure_wf; [done|lia|]. intros b' m' W' Hs. sets W'.
  - apply (reads_keeps_wf _ _ _ _ _ reads_u8_safely); [lia|done].
  - apply (reads_keeps_wf _ _ _ _ _ reads_u16_safely); [lia|done].
  - apply (reads_keeps_wf _ _ _ _ _ reads_u32_safely); [lia|done].
  - apply (reads_keeps_wf _ _ _ _ _ reads_u64_safely); [lia|done].
  - eapply wp_bind_mono; [by apply wp_read_string|].
    intros [[ret s] b'] m' [(p & -> & Hp & _) _]. apply wp_ret.
    apply buf_wf_with_pos; [done|lia].
  - by apply (append_string_wf o).
  - by apply (dup_wf n).
  - apply wp_ret. unfold obus_buffer_set_read_position. case_bool; cbn; [done|].
    apply buf_wf_with_pos; [done|lia].
  - apply wp_ret. unfold obus_buffer_inc_read_position.
    rewrite !u64_small by wrap_lia. case_bool; cbn; [done|].
    apply buf_wf_with_pos; [done|lia].
  - apply wp_remove_first; [done|lia|done].
  - apply wp_remove_read; done.
Qed.

Lemma wp_run_ops ops b m :
  Forall op_ok ops -> buf_wf b -> wp (run_ops ops b) (fun b' _ => buf_wf b') m.
Proof.
  revert b m. induction ops as [|op ops IH]; intros b m Ho W; cbn.
  - by apply wp_ret.
  - inversion_clear Ho. eapply wp_bind_mono; [by apply run_op_wf|].
    intros b' m' W'. by apply IH.
Qed.

Lemma wp_buffer_new size m :
  0 <= size ->
  wp (obus_buffer_new size) (fun r _ => match r with
        | Some b => buf_wf b /\ buf_bytes b = [] /\ buf_pos b = 0 /\ buf_refcnt b = 1 /\
                    buf_size b = size
        | None => True end) m.
Proof.
  intros Hs. unfold obus_buffer_new.
  apply wp_bind, wp_alloc; intros k m' Hm Hk; [|by apply wp_ret].
  apply wp_bind, wp_alloc; intros k2 m2 Hm2 Hk2; [|by apply wp_ret].
  apply wp_ret. split; [|done]. pose proof (malloc_ok_bound _ _ Hk2).
  constructor; cbn; [lia|lia|done| |apply fresh_bytes_byte].
  rewrite length_fresh_bytes. lia.
Qed.
End Client.

(** ** Theorems *)

Inductive int_width := W8 | W16 | W32 | W64.

Definition width_bits (w : int_width) : Z :=
  match w with W8 => 8 | W16 => 16 | W32 => 32 | W64 => 64 end.

Section Theorems.
Context {AL : Allocator}.

Definition append_int (w : int_width) (b : buffer) (v : Z) : M (Z * buffer) :=
  match w with
  | W8 => obus_buffer_append_u8 b v
  | W16 => obus_buffer_append_u16 b v
  | W32 => obus_buffer_append_u32 b v
  | W64 => obus_buffer_append_u64 b v
  end.

Definition read_int (w : int_width) (b : buffer) : M (Z * option Z * buffer) :=
  match w with
  | W8 => obus_buffer_read_u8 b
  | W16 => obus_buffer_read_u16 b
  | W32 => obus_buffer_read_u32 b
  | W64 => obus_buffer_read_u64 b
  end.

Definition int_bytes (w : int_width) (v : Z) : list Z :=
  match w with W8 => [v] | W16 => be_bytes 2 v | W32 => be_bytes 4 v | W64 => be_bytes 8 v end.

Lemma emits_append_int m w v :
  0 <= v < 2 ^ width_bits w -> emits m (fun b => append_int w b v) (int_bytes w v).
Proof.
  destruct w; cbn; intros Hv;
    [by apply emits_append_u8|apply emits_append_u16|apply emits_append_u32|apply emits_append_u64].
Qed.

Lemma reads_int w v : 0 <= v < 2 ^ width_bits w -> reads (read_int w) (int_bytes w v) v.
Proof.
  destruct w; intros Hv;
    [apply reads_u8|by apply reads_u16|by apply reads_u32|by apply reads_u64].
Qed.

Lemma grown_rest b b' bs :
  buf_wf b -> buf_pos b <= buf_length b -> grown b b' bs -> buf_rest b' = buf_rest b ++ bs.
Proof.
  intros W Hp G. pose proof (length_buf_bytes b W). wf_facts b W. unfold buf_rest.
  rewrite (gr_bytes _ _ _ G), (gr_pos _ _ _ G). apply drop_app_le. lia.
Qed.

(** C25: the operations on a buffer are safe.  On a new buffer, every sequence of
    the operations that change it (clear, reserve, room ensured and filled
    directly, blocks, integers and strings appended, blocks and integers
    overwritten at an offset, integers, strings and blocks read, read
    position set and advanced, bytes removed) runs without undefined behaviour,
    whatever the allocator refuses, and leaves a well-formed buffer: length
    and position within the size, the size that of the array, every cell a
    byte.  [op_ok] bounds the arguments: values of their C type; an offset and
    a size whose sum fits in a size_t (the C computes it modulo 2^64, and writes
    outside the array when it wraps), at most 2^63 bytes reserved or filled,
    2^62 appended at once, strings that fit their 32-bit size on the wire,
    blocks read of less than 2^32 bytes. *)
Theorem buffer_ops_safe size ops m :
  0 <= size -> Forall op_ok ops ->
  wp (r ← obus_buffer_new size;
      match r with
      | None => mret None
      | Some b => b ← run_ops ops b; mret (Some b)
      end)
     (fun r _ => match r with Some b => buf_wf b | None => True end) m.
Proof.
  intros Hs Ho. eapply wp_bind_mono; [by apply wp_buffer_new|].
  intros [b|] m' H; [|by apply wp_ret]. destruct H as (W & _).
  eapply wp_bind_mono; [by apply wp_run_ops|]. intros b' m2 W'. by apply wp_ret.
Qed.

(** An integer appended at any width is read back unchanged, consuming
    exactly its bytes, unless an allocation was refused, in which case the
    append returns -ENOMEM. *)
Theorem int_roundtrip w v b m :
  buf_wf b -> buf_rest b = [] -> buf_pos b <= buf_length b -> 0 <= v < 2 ^ width_bits w ->
  wp ('(ret, b') ← append_int w b v;
      if failed ret then mret (ret, None, b') else read_int w b')
     (fun r _ => let '(ret, o, b') := r in
        (ret = - ENOMEM /\ refused (buf_length b + Z.of_nat (length (int_bytes w v)))) \/
        (ret = 0 /\ o = Some v /\ buf_rest b' = [] /\
         buf_bytes b' = buf_bytes b ++ int_bytes w v)) m.
Proof.
  intros W Hr Hp Hv. eapply wp_bind_mono; [by apply (emits_append_int m w v)|].
  intros [ret b'] m' (_ & bs & G & [[Hret ->]|[Hret Hf]]); cbn in Hret, G; subst ret; cbn [failed].
  - cbn. pose proof (grown_rest _ _ _ W Hp G) as Hr'. rewrite Hr, app_nil_l in Hr'.
    pose proof (app_nil_r (int_bytes w v)) as E. rewrite <- E in Hr' at 1.
    eapply wp_mono; [eapply reads_int; [done|apply G|exact Hr']|].
    intros r m2 [-> ->]. right. split_and!; [done..| |].
    + pose proof (gr_wf _ _ _ G) as W'. wf_facts b' W'.
      rewrite buf_rest_with_pos, Hr' by lia. by rewrite Nat2Z.id, drop_app_length.
    + apply G.
  - apply wp_ret. by left.
Qed.

(** A string (or NULL) appended to a buffer is read back, on memory that
    suffices, as a fresh NUL-terminated block with the same characters (or
    NULL), and the whole image is consumed. *)
Theorem string_roundtrip `{!AmpleMemory AL} s o b m :
  buf_wf b -> buf_rest b = [] -> buf_pos b <= buf_length b ->
  buf_length b <= 2 ^ 62 ->
  cstr_chars m s = Some o -> wire_string o ->
  wp ('(ret, b') ← obus_buffer_append_string b s;
      if failed ret then mret (ret, None, b') else obus_buffer_read_string b')
     (fun r m' => let '(ret, s', b') := r in
        ret = 0 /\ buf_rest b' = [] /\
        exists s'', s' = Some s'' /\ new_string m m' s'' /\ cstr_chars m' s'' = Some o) m.
Proof.
  intros W Hr Hp Hmax Hs Ho. eapply wp_bind_mono; [by eapply (emits_append_string m)|].
  intros [ret b'] m' (Hsame & bs & G & [[Hret ->]|[Hret Hf]]); cbn in Hret, G; subst ret.
  - cbn. pose proof (grown_rest _ _ _ W Hp G) as Hr'. rewrite Hr, app_nil_l in Hr'.
    rewrite <- (app_nil_r (string_wire o)) in Hr'.
    pose proof (gr_wf _ _ _ G) as W'. wf_facts b' W'.
    eapply wp_mono; [by eapply reads_string; [apply G|..]|].
    intros r m2 (s' & -> & Hn & Hc). split; [done|]. split.
    + rewrite buf_rest_with_pos, Hr' by lia. by rewrite Nat2Z.id, drop_app_length.
    + exists s'. split; [done|]. split; [|done]. destruct Hsame as (Hb & Hn' & Hc').
      destruct Hn as [[-> (Hb2 & Hn2 & Hc2)]|(l & -> & Hb2 & Hn2 & Hu)].
      * left. split; [done|]. split_and!; [congruence..|lia].
      * right. exists l. rewrite Hb2, Hn2, Hb, Hn'. done.
  - exfalso. eapply ample_not_refused; [|exact Hf]. rewrite length_string_wire.
    assert (wire_size o < 2 ^ 32) by (destruct o as [cs|]; [destruct Ho|]; cbn; lia).
    wrap_lia.
Qed.

(** [obus_buffer_read_u64] is bounded by the size of the memory, not by the
    number of valid bytes: on any buffer with 8 bytes of memory after the read
    position it succeeds, even when fewer than 8 bytes are valid, and moves the
    position past the valid bytes. *)
Theorem read_u64_ignores_length b m :
  buf_wf b -> buf_pos b + 8 <= buf_size b -> buf_length b < buf_pos b + 8 ->
  wp (obus_buffer_read_u64 b)
     (fun r _ => exists v, r = (0, Some v, with_pos b (buf_pos b + 8)) /\
        obus_buffer_read_length (with_pos b (buf_pos b + 8)) = 0) m.
Proof.
  intros W Hs Hl. wf_facts b W. unfold obus_buffer_read_u64.
  rewrite (u64_small (buf_pos b + 7)) by wrap_lia.
  destruct (Z.leb_spec (buf_size b) (buf_pos b + 7)); [lia|].
  do 8 (apply wp_bind; apply wp_data_get_byte; [exact W|lia|intros ? ? ?]).
  cbn zeta. apply wp_ret. eexists. rewrite (u64_small (buf_pos b + 8)) by wrap_lia. split; [reflexivity|].
  unfold obus_buffer_read_length. cbn. destruct (Z.ltb_spec (buf_pos b + 8) (buf_length b)); [lia|done].
Qed.

(** clearing a buffer keeps its read position: after a clear, the first
    [pos] bytes of what is appended next are not read. *)
Theorem clear_keeps_position bs b m :
  buf_wf b -> Forall is_byte bs -> Z.of_nat (length bs) <= 2 ^ 62 ->
  wp (obus_buffer_append (obus_buffer_clear b) bs)
     (fun r _ => fst r = 0 -> buf_rest (snd r) = drop (Z.to_nat (buf_pos b)) bs) m.
Proof.
  intros W Hbs Hlen. wf_facts b W.
  assert (buf_wf (obus_buffer_clear b)) as Wc by (apply buf_wf_with_length; [done|lia]).
  eapply wp_mono; [by apply (emits_append m bs)|].
  intros [ret b'] m' (_ & bs' & G & [[Hret ->]|[Hret _]]); cbn in *; [|by intros ->].
  intros _. unfold buf_rest. rewrite (gr_bytes _ _ _ G), (gr_pos _ _ _ G).
  unfold buf_bytes. cbn. by rewrite take_0.
Qed.
End Theorems.

Section Witnesses.
#[local] Existing Instance ample_alloc.

Definition wit_buf : buffer := Buffer 16 0 0 (replicate 16 170) 1.

Lemma wit_buf_wf : buf_wf wit_buf.
Proof. constructor; cbn; try lia; [by unfold PTRDIFF_MAX|]. by repeat constructor. Qed.

Lemma buffer_ops_safe_witness :
  Forall op_ok [OpAppendU32 7; OpReadU8; OpWriteU64 5 100; OpAppendString (Some [104; 105]); OpFill [1; 2]; OpRemoveRead; OpReadString] /\
  wp (r ← obus_buffer_new 16;
      match r with
      | None => mret None
      | Some b =>
        b ← run_ops [OpAppendU32 7; OpReadU8; OpWriteU64 5 100; OpAppendString (Some [104; 105]); OpFill [1; 2]; OpRemoveRead; OpReadString] b;
        mret (Some b)
      end)
     (fun r _ => match r with Some b => buf_wf b | None => True end) mem0.
Proof.
  assert (Forall op_ok [OpAppendU32 7; OpReadU8; OpWriteU64 5 100; OpAppendString (Some [104; 105]); OpFill [1; 2]; OpRemoveRead; OpReadString]) as H
    by (repeat constructor; cbn; lia).
  split; [exact H|]. apply buffer_ops_safe; [lia|exact H].
Defined.

Lemma int_roundtrip_witness :
  wp ('(ret, b') ← append_int W32 wit_buf 305419896;
      if failed ret then mret (ret, None, b') else read_int W32 b')
     (fun r _ => let '(ret, o, b') := r in
        (ret = - ENOMEM /\ refused (buf_length wit_buf + 4)) \/
        (ret = 0 /\ o = Some 305419896 /\ buf_rest b' = [] /\
         buf_bytes b' = [] ++ [18; 52; 86; 120])) mem0.
Proof.
  apply (int_roundtrip W32 305419896 wit_buf mem0); [exact wit_buf_wf|reflexivity|cbn; lia|cbn; lia].
Defined.

(** A heap with the string "hi". *)
Definition wit_mem : mem := Mem {[1%positive := [104; 105; 0]]} 2 0.

Lemma string_roundtrip_witness :
  wp ('(ret, b') ← obus_buffer_append_string wit_buf (CHeap 1);
      if failed ret then mret (ret, None, b') else obus_buffer_read_string b')
     (fun r m' => let '(ret, s', b') := r in
        ret = 0 /\ buf_rest b' = [] /\
        exists s'', s' = Some s'' /\ new_string wit_mem m' s'' /\
          cstr_chars m' s'' = Some (Some [104; 105])) wit_mem.
Proof.
  apply (string_roundtrip (CHeap 1) (Some [104; 105]) wit_buf wit_mem);
    [exact wit_buf_wf|reflexivity|cbn; lia|cbn; lia|reflexivity
    |split; [repeat constructor|cbn; lia]].
Defined.

Lemma read_u64_ignores_length_witness :
  wp (obus_buffer_read_u64 wit_buf)
     (fun r _ => exists v, r = (0, Some v, with_pos wit_buf 8) /\
        obus_buffer_read_length (with_pos wit_buf 8) = 0) mem0.
Proof.
  apply (read_u64_ignores_length wit_buf mem0); [exact wit_buf_wf|cbn; lia|cbn; lia].
Defined.

Lemma clear_keeps_position_witness :
  wp (obus_buffer_append (obus_buffer_clear (with_pos wit_buf 2)) [1; 2; 3])
     (fun r _ => fst r = 0 -> buf_rest (snd r) = [3]) mem0.
Proof.
  apply (clear_keeps_position [1; 2; 3] (with_pos wit_buf 2) mem0);
    [apply buf_wf_with_pos; [exact wit_buf_wf|cbn; lia]
    |repeat constructor; lia|cbn; lia].
Defined.
End Witnesses.
