(* ===== verification/Pool.v ===== *)
(** * obus_buffer.h: the pool of reference-counted buffers

    Buffers are shared by pointer (write queues, decoders), so the pool keeps a
    store of buffers by address.  [pl_free] is the free list, in list order:
    [obus_list_add_before (&pool->free_bufs, ...)] appends at its end. *)
From S2P Require Import Prelude Mem Buffer.

Record pool := Pool {
  pl_buffsize : Z;
  pl_free : list positive;
  pl_bufs : gmap positive buffer;
  pl_next : positive
}.

Definition set_buf (pl : pool) (p : positive) (b : buffer) : pool :=
  Pool (pl_buffsize pl) (pl_free pl) (<[p := b]> (pl_bufs pl)) (pl_next pl).
Definition set_free (pl : pool) (l : list positive) : pool :=
  Pool (pl_buffsize pl) l (pl_bufs pl) (pl_next pl).

Definition obus_buffer_pool_init (buffsize : Z) : pool := Pool buffsize [] ∅ 1.

Definition get_buf (pl : pool) (p : positive) : M buffer := m_lift (pl_bufs pl !! p).

Definition obus_buffer_pool_put (pl : pool) (p : positive) : M (Z * pool) :=
  b ← get_buf pl p;
  mret (0, set_buf (set_free pl (pl_free pl ++ [p])) p (with_refcnt b 0)).

Definition obus_buffer_ref (pl : pool) (p : positive) : M pool :=
  b ← get_buf pl p;
  mret (set_buf pl p (with_refcnt b (buf_refcnt b + 1))).

Definition obus_buffer_unref (pl : pool) (p : positive) : M (Z * pool) :=
  b ← get_buf pl p;
  let pl := set_buf pl p (with_refcnt b (buf_refcnt b - 1)) in
  if buf_refcnt b - 1 =? 0 then
    '(_, pl) ← obus_buffer_pool_put pl p;
    mret (0, pl)
  else mret (buf_refcnt b - 1, pl).

(** [list_del] of the node of [p]. *)
Definition list_del (p : positive) (l : list positive) : list positive :=
  filter (fun q => q <> p) l.

Section PoolOps.
Context {AL : Allocator}.

Definition obus_buffer_pool_peek (pl : pool) : M (option positive * pool) :=
  match pl_free pl with
  | [] =>
    r ← obus_buffer_new (pl_buffsize pl);
    match r with
    | None => mret (None, pl)
    | Some b =>
      let p := pl_next pl in
      mret (Some p, Pool (pl_buffsize pl) [] (<[p := b]> (pl_bufs pl)) (Pos.succ p))
    end
  | p :: _ =>
    b ← get_buf pl p;
    mret (Some p, set_buf (set_free pl (list_del p (pl_free pl))) p (with_refcnt b 1))
  end.
End PoolOps.

(** Frees every buffer of the free list. *)
Definition obus_buffer_pool_destroy (pl : pool) : pool :=
  Pool (pl_buffsize pl) [] (foldr delete (pl_bufs pl) (pl_free pl)) (pl_next pl).

(** ** Invariant: the free list holds exactly the unreferenced buffers, once *)

Record pool_wf (pl : pool) : Prop := {
  pw_size : 0 <= pl_buffsize pl;
  pw_nodup : NoDup (pl_free pl);
  pw_free : forall p, p ∈ pl_free pl <->
              exists b, pl_bufs pl !! p = Some b /\ buf_refcnt b = 0;
  pw_count : forall p b, pl_bufs pl !! p = Some b -> 0 <= buf_refcnt b /\ buf_wf b;
  pw_next : forall p, is_Some (pl_bufs pl !! p) -> (p < pl_next pl)%positive
}.

(** Number of references the program holds on a buffer (0: free or unknown). *)
Definition refs (pl : pool) (p : positive) : Z :=
  match pl_bufs pl !! p with Some b => buf_refcnt b | None => 0 end.

Lemma buf_wf_refcnt b r : buf_wf b -> buf_wf (with_refcnt b r).
Proof. intros W. by destruct W; constructor. Qed.

Lemma pool_init_wf n : 0 <= n -> pool_wf (obus_buffer_pool_init n).
Proof.
  intros Hn. constructor; cbn; [done|constructor|..].
  - intros p. split; [set_solver|]. intros (b & Hb & _). by rewrite lookup_empty in Hb.
  - intros p b Hb. by rewrite lookup_empty in Hb.
  - intros p [b Hb]. by rewrite lookup_empty in Hb.
Qed.

Lemma elem_of_list_del p q l : q ∈ list_del p l <-> q ∈ l /\ q <> p.
Proof. unfold list_del. rewrite list_elem_of_filter. tauto. Qed.

Lemma wp_get_buf pl p b m (Q : buffer -> mem -> Prop) :
  pl_bufs pl !! p = Some b -> Q b m -> wp (get_buf pl p) Q m.
Proof. intros H HQ. by eapply wp_lift. Qed.

(** Changing the count of a referenced buffer to another positive count. *)
Lemma pool_wf_count pl p b r :
  pool_wf pl -> pl_bufs pl !! p = Some b -> 0 < buf_refcnt b -> 0 < r ->
  pool_wf (set_buf pl p (with_refcnt b r)).
Proof.
  intros W Hb Hc Hr. destruct W as [Ws Wn Wf Wc Wx]. constructor; cbn; [done..| | |].
  - intros q. rewrite Wf. destruct (decide (p = q)) as [->|Hne].
    + rewrite lookup_insert_eq.
      split; intros (b' & Hb' & Hz); simplify_eq; cbn in Hz; lia.
    + by rewrite lookup_insert_ne.
  - intros q b'. destruct (decide (p = q)) as [->|Hne].
    + rewrite lookup_insert_eq. intros [= <-]. cbn. split; [lia|].
      by apply buf_wf_refcnt, (Wc q).
    + rewrite lookup_insert_ne by done. apply Wc.
  - intros q [x Hx]. apply Wx. destruct (decide (p = q)) as [->|Hne]; [by eexists|].
    rewrite lookup_insert_ne in Hx by done. by eexists.
Qed.

Lemma refs_set_buf pl p b q :
  refs (set_buf pl p b) q = if decide (p = q) then buf_refcnt b else refs pl q.
Proof. unfold refs, set_buf. cbn. rewrite lookup_insert. by case_decide. Qed.

Lemma refs_pos pl p : 0 < refs pl p -> exists b, pl_bufs pl !! p = Some b /\ 0 < buf_refcnt b.
Proof. unfold refs. destruct (pl_bufs pl !! p) as [b|]; [intros H; by exists b|lia]. Qed.

Lemma wp_ref pl p m (Q : pool -> mem -> Prop) :
  pool_wf pl -> 0 < refs pl p ->
  (forall pl', pool_wf pl' ->
     (forall q, refs pl' q = if decide (p = q) then refs pl p + 1 else refs pl q) ->
     pl_free pl' = pl_free pl -> Q pl' m) ->
  wp (obus_buffer_ref pl p) Q m.
Proof.
  intros W Hp HQ. destruct (refs_pos _ _ Hp) as (b & Hb & Hc). unfold obus_buffer_ref.
  apply wp_bind. eapply wp_get_buf; [exact Hb|]. apply wp_ret, HQ; [|intros q|done].
  - apply pool_wf_count; [done|done|done|lia].
  - rewrite refs_set_buf. unfold refs. by rewrite Hb.
Qed.

(** [put] of a buffer whose count has just reached 0. *)
Lemma pool_wf_put pl p b :
  pool_wf pl -> pl_bufs pl !! p = Some b -> 0 < buf_refcnt b ->
  pool_wf (set_buf (set_free pl (pl_free pl ++ [p])) p (with_refcnt b 0)).
Proof.
  intros W Hb Hc. destruct W as [Ws Wn Wf Wc Wx].
  assert (p ∉ pl_free pl) as Hnin.
  { intros (b' & Hb' & Hz)%Wf. simplify_eq. lia. }
  constructor; cbn; [done| | | |].
  - apply NoDup_app. split; [done|]. split; [|apply NoDup_singleton].
    intros x Hx ->%list_elem_of_singleton. done.
  - intros q. rewrite elem_of_app, list_elem_of_singleton, Wf.
    destruct (decide (p = q)) as [->|Hne].
    + rewrite lookup_insert_eq. split; [|by right]. intros _. by eexists.
    + rewrite lookup_insert_ne by done. split; [intros [H| ->]; [exact H|done]|by left].
  - intros q b'. destruct (decide (p = q)) as [->|Hne].
    + rewrite lookup_insert_eq. intros [= <-]. cbn. split; [lia|].
      by apply buf_wf_refcnt, (Wc q).
    + rewrite lookup_insert_ne by done. apply Wc.
  - intros q [x Hx]. apply Wx. destruct (decide (p = q)) as [->|Hne]; [by eexists|].
    rewrite lookup_insert_ne in Hx by done. by eexists.
Qed.

Lemma wp_unref pl p m (Q : Z * pool -> mem -> Prop) :
  pool_wf pl -> 0 < refs pl p ->
  (forall pl', pool_wf pl' ->
     (forall q, refs pl' q = if decide (p = q) then refs pl p - 1 else refs pl q) ->
     pl_free pl' = (if refs pl p =? 1 then pl_free pl ++ [p] else pl_free pl) ->
     Q (refs pl p - 1, pl') m) ->
  wp (obus_buffer_unref pl p) Q m.
Proof.
  intros W Hp HQ. destruct (refs_pos _ _ Hp) as (b & Hb & Hc). unfold obus_buffer_unref.
  assert (refs pl p = buf_refcnt b) as Hr by (unfold refs; by rewrite Hb).
  rewrite Hr in HQ. apply wp_bind. eapply wp_get_buf; [exact Hb|]. cbn zeta.
  destruct (Z.eqb_spec (buf_refcnt b - 1) 0) as [Hz|Hz].
  - rewrite Hz in HQ. apply wp_bind. unfold obus_buffer_pool_put. apply wp_bind.
    eapply wp_get_buf; [cbn; apply lookup_insert_eq|]. apply wp_ret, wp_ret, HQ.
    + replace (set_buf _ _ _) with
        (set_buf (set_free pl (pl_free pl ++ [p])) p (with_refcnt b 0)); [by apply pool_wf_put|].
      unfold set_buf, set_free. cbn. by rewrite insert_insert_eq.
    + intros q. unfold refs. cbn. rewrite insert_insert_eq, lookup_insert. by case_decide.
    + cbn. by rewrite (proj2 (Z.eqb_eq _ _)) by lia.
  - apply wp_ret, HQ.
    + apply pool_wf_count; [done..|lia].
    + intros q. by rewrite refs_set_buf.
    + cbn. by rewrite (proj2 (Z.eqb_neq _ _)) by lia.
Qed.

Section PoolFacts.
Context {AL : Allocator}.

(** Taking a buffer out of the free list. *)
Lemma pool_wf_take pl p l b :
  pool_wf pl -> pl_free pl = p :: l -> pl_bufs pl !! p = Some b ->
  pool_wf (set_buf (set_free pl (list_del p (pl_free pl))) p (with_refcnt b 1)).
Proof.
  intros W Hl Hb. destruct W as [Ws Wn Wf Wc Wx]. constructor; cbn; [done| | | |].
  - by apply NoDup_filter.
  - intros q. rewrite elem_of_list_del, Wf. destruct (decide (p = q)) as [->|Hne].
    + rewrite lookup_insert_eq. split; [by intros []|]. intros (b' & [= <-] & Hz). cbn in Hz. lia.
    + rewrite lookup_insert_ne by done. split; [by intros []|]. intros H. split; [done|congruence].
  - intros q b'. destruct (decide (p = q)) as [->|Hne].
    + rewrite lookup_insert_eq. intros [= <-]. cbn. split; [lia|].
      by apply buf_wf_refcnt, (Wc q).
    + rewrite lookup_insert_ne by done. apply Wc.
  - intros q [x Hx]. apply Wx. destruct (decide (p = q)) as [->|Hne]; [by eexists|].
    rewrite lookup_insert_ne in Hx by done. by eexists.
Qed.

Lemma pool_wf_new pl b :
  pool_wf pl -> pl_free pl = [] -> buf_wf b -> buf_refcnt b = 1 ->
  pool_wf (Pool (pl_buffsize pl) [] (<[pl_next pl := b]> (pl_bufs pl)) (Pos.succ (pl_next pl))).
Proof.
  intros W Hl Wb Hb. destruct W as [Ws Wn Wf Wc Wx]. constructor; cbn; [done|constructor|..].
  - intros q. rewrite Hl in Wf. rewrite Wf. destruct (decide (pl_next pl = q)) as [<-|Hne].
    + rewrite lookup_insert_eq. split; [|intros (b' & [= <-] & Hz); lia].
      intros (b' & Hb' & _). pose proof (Wx _ (mk_is_Some _ _ Hb')). lia.
    + by rewrite lookup_insert_ne.
  - intros q b'. destruct (decide (pl_next pl = q)) as [<-|Hne].
    + rewrite lookup_insert_eq. intros [= <-]. split; [lia|done].
    + rewrite lookup_insert_ne by done. apply Wc.
  - intros q [x Hx]. destruct (decide (pl_next pl = q)) as [<-|Hne]; [lia|].
    rewrite lookup_insert_ne in Hx by done. pose proof (Wx q (mk_is_Some _ _ Hx)). lia.
Qed.

(** [peek] hands out a buffer nobody references, with one reference. *)
Lemma wp_pool_peek pl m (Q : option positive * pool -> mem -> Prop) :
  pool_wf pl ->
  (forall m', pl_free pl = [] -> Q (None, pl) m') ->
  (forall p pl' m', pool_wf pl' -> refs pl p = 0 ->
     (forall q, refs pl' q = if decide (p = q) then 1 else refs pl q) ->
     Q (Some p, pl') m') ->
  wp (obus_buffer_pool_peek pl) Q m.
Proof.
  intros W H1 H2. unfold obus_buffer_pool_peek. destruct (pl_free pl) as [|p l] eqn:Hl.
  - eapply wp_bind_mono; [apply wp_buffer_new, W|]. intros [b|] m' Hb; apply wp_ret; [|by auto].
    destruct Hb as (Wb & _ & _ & Hr & _).
    assert (pl_bufs pl !! pl_next pl = None) as Hnone.
    { destruct (pl_bufs pl !! pl_next pl) eqn:E; [|done].
      pose proof (pw_next _ W _ (mk_is_Some _ _ E)). lia. }
    apply H2.
    + by apply pool_wf_new.
    + unfold refs. by rewrite Hnone.
    + intros q. unfold refs. cbn. rewrite lookup_insert. case_decide; [done|done].
  - destruct (proj1 (pw_free _ W p)) as (b & Hb & Hz); [rewrite Hl; by left|].
    apply wp_bind. eapply wp_get_buf; [exact Hb|]. apply wp_ret, H2.
    + rewrite <- Hl. by eapply pool_wf_take.
    + unfold refs. by rewrite Hb.
    + intros q. unfold refs. cbn. rewrite lookup_insert. by case_decide.
Qed.
End PoolFacts.

(** ** The pool as a state machine *)

Section Machine.
Context {AL : Allocator}.

(** What the program does with a pool: take a buffer, take or give back a
    reference it holds, change the contents of a buffer it references. *)
Inductive pool_step : pool -> pool -> Prop :=
| step_peek pl m o pl' m' :
    obus_buffer_pool_peek pl m = Some ((o, pl'), m') -> pool_step pl pl'
| step_ref pl m p pl' m' :
    0 < refs pl p -> obus_buffer_ref pl p m = Some (pl', m') -> pool_step pl pl'
| step_unref pl m p ret pl' m' :
    0 < refs pl p -> obus_buffer_unref pl p m = Some ((ret, pl'), m') -> pool_step pl pl'
| step_use pl p b :
    0 < refs pl p -> buf_wf b -> buf_refcnt b = refs pl p -> pool_step pl (set_buf pl p b).

Inductive pool_reachable : pool -> Prop :=
| reach_init n : 0 <= n -> pool_reachable (obus_buffer_pool_init n)
| reach_step pl pl' : pool_reachable pl -> pool_step pl pl' -> pool_reachable pl'.

Lemma pool_wf_use pl p b :
  pool_wf pl -> 0 < refs pl p -> buf_wf b -> buf_refcnt b = refs pl p ->
  pool_wf (set_buf pl p b).
Proof.
  intros W Hp Wb Hr. destruct (refs_pos _ _ Hp) as (b0 & Hb0 & Hc0).
  assert (refs pl p = buf_refcnt b0) as Hr0 by (unfold refs; by rewrite Hb0).
  destruct W as [Ws Wn Wf Wc Wx]. constructor; cbn; [done..| | |].
  - intros q. rewrite Wf. destruct (decide (p = q)) as [->|Hne].
    + rewrite lookup_insert_eq. split; intros (b' & Hb' & Hz); simplify_eq; lia.
    + by rewrite lookup_insert_ne.
  - intros q b'. destruct (decide (p = q)) as [->|Hne].
    + rewrite lookup_insert_eq. intros [= <-]. split; [lia|done].
    + rewrite lookup_insert_ne by done. apply Wc.
  - intros q [x Hx]. apply Wx. destruct (decide (p = q)) as [->|Hne]; [by eexists|].
    rewrite lookup_insert_ne in Hx by done. by eexists.
Qed.

Lemma pool_step_wf pl pl' : pool_wf pl -> pool_step pl pl' -> pool_wf pl'.
Proof.
  intros W Hs. destruct Hs as [pl m o pl' m' H|pl m p pl' m' Hp H|pl m p ret pl' m' Hp H|].
  - change (pool_wf (snd (o, pl'))). eapply (wp_det _ (fun r _ => pool_wf (snd r)) _ _ m'); [|exact H].
    by apply wp_pool_peek.
  - eapply (wp_det _ (fun r _ => pool_wf r) _ _ m'); [|exact H]. by apply wp_ref.
  - change (pool_wf (snd (ret, pl'))). eapply (wp_det _ (fun r _ => pool_wf (snd r)) _ _ m'); [|exact H].
    by apply wp_unref.
  - by apply pool_wf_use.
Qed.

Lemma pool_reachable_wf pl : pool_reachable pl -> pool_wf pl.
Proof.
  induction 1 as [n Hn|pl pl' _ IH Hs]; [by apply pool_init_wf|by eapply pool_step_wf].
Qed.

(** C28: in every reachable state of the pool the free list holds exactly the
    unreferenced buffers, once each, and [obus_buffer_pool_peek] never hands
    out a buffer somebody references: the buffer it returns had no reference
    and has one, every other count is unchanged, and it fails only when the
    free list is empty. *)
Theorem pool_peek_exclusive pl m :
  pool_reachable pl ->
  NoDup (pl_free pl) /\
  (forall p, p ∈ pl_free pl <-> is_Some (pl_bufs pl !! p) /\ refs pl p = 0) /\
  wp (obus_buffer_pool_peek pl)
     (fun r _ => let '(o, pl') := r in
        match o with
        | None => pl_free pl = [] /\ pl' = pl
        | Some p => refs pl p = 0 /\ refs pl' p = 1 /\
                    (forall q, q <> p -> refs pl' q = refs pl q) /\ p ∉ pl_free pl'
        end) m.
Proof.
  intros R. pose proof (pool_reachable_wf _ R) as W. split; [apply W|]. split.
  - intros p. rewrite (pw_free _ W). unfold refs. split.
    + intros (b & Hb & Hz). rewrite Hb. split; [by eexists|done].
    + intros [[b Hb] Hz]. rewrite Hb in Hz. by exists b.
  - apply wp_pool_peek; [done|by intros|]. intros p pl' m' W' Hz Hr.
    assert (refs pl' p = 1) as H1 by (rewrite Hr; by rewrite decide_True).
    split_and!; [done|done| |].
    + intros q Hq. rewrite Hr. by rewrite decide_False.
    + intros (b & Hb & Hb0)%(pw_free _ W'). unfold refs in H1. rewrite Hb in H1. lia.
Qed.

(** dropping the last reference gives the buffer back: it joins the free
    list, at the end, and [obus_buffer_unref] returns 0; dropping any other
    reference only decrements the count. *)
Theorem pool_unref_returns pl p m :
  pool_reachable pl -> 0 < refs pl p ->
  wp (obus_buffer_unref pl p)
     (fun r _ => let '(ret, pl') := r in
        ret = refs pl p - 1 /\ refs pl' p = refs pl p - 1 /\
        pl_free pl' = if refs pl p =? 1 then pl_free pl ++ [p] else pl_free pl) m.
Proof.
  intros R Hp. apply wp_unref; [by apply pool_reachable_wf|done|].
  intros pl' _ Hr Hf. split; [done|]. split; [|done]. rewrite Hr. by rewrite decide_True.
Qed.
End Machine.

Section Witnesses.
#[local] Existing Instance ample_alloc.

(** A pool with buffer 1 referenced once. *)
Definition wit_pool : pool :=
  Pool 4 [] (<[1%positive := Buffer 4 0 0 [170; 170; 170; 170] 1]> ∅) 2.

Lemma wit_pool_reachable : pool_reachable wit_pool.
Proof.
  apply (reach_step (obus_buffer_pool_init 4)); [by constructor|].
  by apply (step_peek _ mem0 (Some 1%positive) _ (Mem ∅ 1 2)).
Qed.

Lemma pool_peek_exclusive_witness :
  pool_reachable (obus_buffer_pool_init 8) /\
  wp (obus_buffer_pool_peek (obus_buffer_pool_init 8))
     (fun r _ => let '(o, pl') := r in
        match o with
        | None => [] = ([] : list positive) /\ pl' = obus_buffer_pool_init 8
        | Some p => refs (obus_buffer_pool_init 8) p = 0 /\ refs pl' p = 1 /\
            (forall q, q <> p -> refs pl' q = refs (obus_buffer_pool_init 8) q) /\ p ∉ pl_free pl'
        end) mem0.
Proof.
  assert (pool_reachable (obus_buffer_pool_init 8)) as R by (constructor; lia).
  split; [exact R|]. exact (proj2 (proj2 (pool_peek_exclusive _ mem0 R))).
Defined.

Lemma pool_unref_returns_witness :
  0 < refs wit_pool 1 /\
  wp (obus_buffer_unref wit_pool 1)
     (fun r _ => let '(ret, pl') := r in
        ret = 0 /\ refs pl' 1 = 0 /\ pl_free pl' = [1%positive]) mem0.
Proof.
  assert (0 < refs wit_pool 1) as H by (vm_compute; reflexivity).
  split; [exact H|]. exact (pool_unref_returns wit_pool 1 mem0 wit_pool_reachable H).
Defined.
End Witnesses.
