(* ===== verification/DList.v ===== *)
(** * obus_list.h: intrusive doubly-linked lists

    Nodes live in a pointer heap [gmap Z node]; reading or writing through an
    address with no node is undefined behaviour ([None]).  The specification of
    a list is a sequence of node addresses; the operations refine the sequence
    operations.  Every other file of the development uses the sequences. *)
From S2P Require Import Prelude.

Record node := Node { n_next : Z; n_prev : Z }.
Abbreviation heap := (gmap Z node).

Definition OBUS_LIST_POISON1 : Z := 3735928559.  (* 0xDEADBEEF *)
Definition OBUS_LIST_POISON2 : Z := 3735936685.  (* 0xDEADDEAD *)

Definition get_next (h : heap) (n : Z) : option Z := n_next <$> h !! n.
Definition get_prev (h : heap) (n : Z) : option Z := n_prev <$> h !! n.
Definition set_next (n v : Z) (h : heap) : option heap :=
  x ← h !! n; Some (<[n := Node v (n_prev x)]> h).
Definition set_prev (n v : Z) (h : heap) : option heap :=
  x ← h !! n; Some (<[n := Node (n_next x) v]> h).

Definition obus_node_unref (node : Z) (h : heap) : option heap :=
  h ← set_next node OBUS_LIST_POISON1 h; set_prev node OBUS_LIST_POISON2 h.

Definition obus_node_is_unref (node : Z) (h : heap) : option bool :=
  nx ← get_next h node; pv ← get_prev h node;
  Some ((nx =? OBUS_LIST_POISON1) && (pv =? OBUS_LIST_POISON2)).

Definition obus_node_is_ref (node : Z) (h : heap) : option bool :=
  b ← obus_node_is_unref node h; Some (negb b).

Definition obus_list_init (list : Z) (h : heap) : option heap :=
  h ← set_next list list h; set_prev list list h.

Definition obus_list_next (list item : Z) (h : heap) : option (option Z) :=
  nx ← get_next h item;
  if nx =? list then Some None else r ← get_next h list; Some (Some r).

Definition obus_list_first (list : Z) (h : heap) : option Z := get_next h list.
Definition obus_list_last (list : Z) (h : heap) : option Z := get_prev h list.

Definition obus_list_is_empty (list : Z) (h : heap) : option bool :=
  nx ← get_next h list; Some (nx =? list).

Definition obus_list_add (novel prev next : Z) (h : heap) : option heap :=
  h ← set_prev next novel h;
  h ← set_next novel next h;
  h ← set_prev novel prev h;
  set_next prev novel h.

Definition obus_list_add_after (node novel : Z) (h : heap) : option heap :=
  nx ← get_next h node; obus_list_add novel node nx h.

Definition obus_list_add_before (node novel : Z) (h : heap) : option heap :=
  pv ← get_prev h node; obus_list_add novel pv node h.

Definition obus_list_detach (prev next : Z) (h : heap) : option heap :=
  h ← set_prev next prev h; set_next prev next h.

Definition obus_list_del (node : Z) (h : heap) : option heap :=
  pv ← get_prev h node; nx ← get_next h node;
  h ← obus_list_detach pv nx h; obus_node_unref node h.

Definition obus_list_del_init (node : Z) (h : heap) : option heap :=
  pv ← get_prev h node; nx ← get_next h node;
  h ← obus_list_detach pv nx h; obus_list_init node h.

Definition obus_list_replace (old novel : Z) (h : heap) : option heap :=
  nx ← get_next h old;
  h ← set_next novel nx h;
  nx ← get_next h novel;
  h ← set_prev nx novel h;
  pv ← get_prev h old;
  h ← set_prev novel pv h;
  pv ← get_prev h novel;
  set_next pv novel h.

Definition obus_list_replace_init (old novel : Z) (h : heap) : option heap :=
  h ← obus_list_replace old novel h; obus_list_init old h.

Definition obus_list_move_after (to from : Z) (h : heap) : option heap :=
  pv ← get_prev h from; nx ← get_next h from;
  h ← obus_list_detach pv nx h; obus_list_add_after to from h.

Definition obus_list_move_before (to from : Z) (h : heap) : option heap :=
  pv ← get_prev h from; nx ← get_next h from;
  h ← obus_list_detach pv nx h; obus_list_add_before to from h.

Definition obus_list_is_last (list node : Z) (h : heap) : option bool :=
  pv ← get_prev h list; Some (pv =? node).

(** [obus_list_walk_forward_safe] with a counter; [fuel] bounds the iterations,
    [None] also when it is exhausted. *)
Fixpoint length_loop (fuel : nat) (list pos tmp length : Z) (h : heap) : option Z :=
  match fuel with
  | O => None
  | S fuel' =>
    if pos =? list then Some length
    else nx ← get_next h tmp; length_loop fuel' list tmp nx (length + 1) h
  end.

Definition obus_list_length (fuel : nat) (list : Z) (h : heap) : option Z :=
  pos ← get_next h list; tmp ← get_next h pos; length_loop fuel list pos tmp 0 h.

(** ** The sequence a list represents *)

Definition edge (h : heap) (x y : Z) : Prop := get_next h x = Some y /\ get_prev h y = Some x.

(** The segment from [a] through the nodes [l] to [b]. *)
Fixpoint linked (h : heap) (a : Z) (l : list Z) (b : Z) : Prop :=
  match l with
  | [] => edge h a b
  | x :: l' => edge h a x /\ linked h x l' b
  end.

Definition is_list (h : heap) (hd : Z) (l : list Z) : Prop :=
  NoDup (hd :: l) /\ linked h hd l hd.

Definition first_of (l : list Z) (b : Z) : Z := match l with x :: _ => x | [] => b end.

Lemma linked_app h a l1 x l2 b :
  linked h a (l1 ++ x :: l2) b <-> linked h a l1 x /\ linked h x l2 b.
Proof.
  revert a. induction l1 as [|y l1 IH]; intros a; cbn; [done|]. rewrite IH. tauto.
Qed.

Lemma get_set_next h h' n v x :
  set_next n v h = Some h' ->
  get_next h' x = (if decide (x = n) then Some v else get_next h x) /\
  get_prev h' x = get_prev h x.
Proof.
  unfold set_next, get_next, get_prev. destruct (h !! n) as [d|] eqn:E; [|done].
  cbn. intros [= <-]. rewrite lookup_insert. case_decide; case_decide; subst; try done.
  by rewrite E.
Qed.

Lemma get_set_prev h h' n v x :
  set_prev n v h = Some h' ->
  get_prev h' x = (if decide (x = n) then Some v else get_prev h x) /\
  get_next h' x = get_next h x.
Proof.
  unfold set_prev, get_next, get_prev. destruct (h !! n) as [d|] eqn:E; [|done].
  cbn. intros [= <-]. rewrite lookup_insert. case_decide; case_decide; subst; try done.
  by rewrite E.
Qed.

Lemma set_next_ok h n v : is_Some (h !! n) -> exists h', set_next n v h = Some h' /\
  forall p, is_Some (h' !! p) <-> is_Some (h !! p).
Proof.
  intros [d Hd]. unfold set_next. rewrite Hd. eexists. split; [done|].
  intros p. rewrite lookup_insert. case_decide; [subst; rewrite Hd|done].
  split; by eexists.
Qed.

Lemma set_prev_ok h n v : is_Some (h !! n) -> exists h', set_prev n v h = Some h' /\
  forall p, is_Some (h' !! p) <-> is_Some (h !! p).
Proof.
  intros [d Hd]. unfold set_prev. rewrite Hd. eexists. split; [done|].
  intros p. rewrite lookup_insert. case_decide; [subst; rewrite Hd|done].
  split; by eexists.
Qed.

Lemma edge_live h x y : edge h x y -> is_Some (h !! x) /\ is_Some (h !! y).
Proof.
  unfold edge, get_next, get_prev. intros [H1 H2].
  destruct (h !! x); [|done]. destruct (h !! y); [|done]. split; by eexists.
Qed.

(** An edge survives when neither its [next] nor its [prev] cell is written. *)
Definition frame (h h' : heap) (srcs dsts : list Z) : Prop :=
  (forall x, x ∉ srcs -> get_next h' x = get_next h x) /\
  (forall y, y ∉ dsts -> get_prev h' y = get_prev h y).

Lemma linked_frame h h' srcs dsts a l b :
  frame h h' srcs dsts -> (forall x, x ∈ a :: l -> x ∉ srcs) ->
  (forall y, y ∈ l ++ [b] -> y ∉ dsts) -> linked h a l b -> linked h' a l b.
Proof.
  intros [F1 F2]. revert a. induction l as [|y l IH]; intros a Hs Hd; cbn.
  - intros [H1 H2]. split; [rewrite F1|rewrite F2]; [done|apply Hs; by left|done|apply Hd; by left].
  - intros [[H1 H2] HL]. split.
    + split; [rewrite F1|rewrite F2]; [done|apply Hs; by left|done|apply Hd; by left].
    + apply IH; [intros x Hx; apply Hs; by right|intros x Hx; apply Hd; by right|done].
Qed.

(** [obus_list_add] writes exactly the two edges around the new node. *)
Lemma list_add_ok h novel prev next :
  is_Some (h !! novel) -> is_Some (h !! prev) -> is_Some (h !! next) ->
  novel <> prev -> novel <> next ->
  exists h', obus_list_add novel prev next h = Some h' /\
    edge h' prev novel /\ edge h' novel next /\ frame h h' [prev; novel] [next; novel].
Proof.
  intros Hn Hp Hx Hne1 Hne2. unfold obus_list_add.
  destruct (set_prev_ok h next novel Hx) as (h1 & E1 & L1). rewrite E1. cbn.
  destruct (set_next_ok h1 novel next) as (h2 & E2 & L2); [by apply L1|]. rewrite E2. cbn.
  destruct (set_prev_ok h2 novel prev) as (h3 & E3 & L3); [by apply L2, L1|]. rewrite E3. cbn.
  destruct (set_next_ok h3 prev novel) as (h4 & E4 & L4); [by apply L3, L2, L1|]. rewrite E4.
  exists h4. split; [done|].
  assert (forall x, get_next h4 x = if decide (x = prev) then Some novel else
            if decide (x = novel) then Some next else get_next h x) as Gn.
  { intros x. rewrite (proj1 (get_set_next _ _ _ _ x E4)), (proj2 (get_set_prev _ _ _ _ x E3)),
      (proj1 (get_set_next _ _ _ _ x E2)), (proj2 (get_set_prev _ _ _ _ x E1)). done. }
  assert (forall x, get_prev h4 x = if decide (x = novel) then Some prev else
            if decide (x = next) then Some novel else get_prev h x) as Gp.
  { intros x. rewrite (proj2 (get_set_next _ _ _ _ x E4)), (proj1 (get_set_prev _ _ _ _ x E3)),
      (proj2 (get_set_next _ _ _ _ x E2)), (proj1 (get_set_prev _ _ _ _ x E1)). done. }
  clear -Gn Gp Hne1 Hne2.
  repeat split; intros; rewrite ?Gn, ?Gp; repeat case_decide; try done; set_solver.
Qed.

(** [obus_list_del] bridges the neighbours of the node and poisons it. *)
Lemma list_bridge_ok h x p n (fin : heap -> option heap) nxt prv :
  edge h p x -> edge h x n -> x <> p -> x <> n ->
  (forall h', is_Some (h' !! x) -> exists h2 h3, set_next x nxt h' = Some h2 /\
     set_prev x prv h2 = Some h3 /\ fin h' = Some h3) ->
  exists h', (pv ← get_prev h x; nx ← get_next h x;
              h ← obus_list_detach pv nx h; fin h) = Some h' /\
    edge h' p n /\ frame h h' [p; x] [n; x] /\
    get_next h' x = Some nxt /\ get_prev h' x = Some prv.
Proof.
  intros Epx Exn Hne1 Hne2 Hfin.
  destruct (edge_live _ _ _ Epx) as [Lp Lx], (edge_live _ _ _ Exn) as [_ Ln].
  rewrite (proj2 Epx), (proj1 Exn). cbn. unfold obus_list_detach.
  destruct (set_prev_ok h n p Ln) as (h1 & E1 & L1). rewrite E1. cbn.
  destruct (set_next_ok h1 p n) as (h2 & E2 & L2); [by apply L1|]. rewrite E2. cbn.
  destruct (Hfin h2) as (h3 & h4 & E3 & E4 & ->); [by apply L2, L1|]. exists h4. split; [done|].
  assert (forall y, get_next h4 y = if decide (y = x) then Some nxt else
            if decide (y = p) then Some n else get_next h y) as Gn.
  { intros y. rewrite (proj2 (get_set_prev _ _ _ _ y E4)), (proj1 (get_set_next _ _ _ _ y E3)),
      (proj1 (get_set_next _ _ _ _ y E2)), (proj2 (get_set_prev _ _ _ _ y E1)). done. }
  assert (forall y, get_prev h4 y = if decide (y = x) then Some prv else
            if decide (y = n) then Some p else get_prev h y) as Gp.
  { intros y. rewrite (proj1 (get_set_prev _ _ _ _ y E4)), (proj2 (get_set_next _ _ _ _ y E3)),
      (proj2 (get_set_next _ _ _ _ y E2)), (proj1 (get_set_prev _ _ _ _ y E1)). done. }
  clear -Gn Gp Hne1 Hne2.
  repeat split; intros; rewrite ?Gn, ?Gp; repeat case_decide; try done; set_solver.
Qed.

(** The node before the position [l1 | l2], and the segment before it. *)
Lemma split_before h hd l1 l2 :
  linked h hd (l1 ++ l2) hd ->
  exists p pre, last (hd :: l1) = Some p /\ linked h p l2 hd /\
    (hd :: l1 = pre ++ [p]) /\
    (pre = [] \/ exists pre', pre = hd :: pre' /\ l1 = pre' ++ [p] /\ linked h hd pre' p).
Proof.
  intros HL. destruct l1 as [|y l1 _] using rev_ind.
  - exists hd, []. cbn in *. split_and!; [done|done|done|by left].
  - rewrite <- app_assoc in HL. cbn in HL. apply linked_app in HL as [H1 H2].
    exists y, (hd :: l1). split_and!; [|done|done|].
    + rewrite app_comm_cons. apply last_snoc.
    + right. by exists l1.
Qed.

Lemma linked_first h p l b : linked h p l b -> edge h p (first_of l b).
Proof. destruct l; cbn; tauto. Qed.

(** Rebuilding the cycle after the edges around one position have changed. *)
Lemma linked_rebuild h h' hd l1 l2 p pre srcs dsts mid :
  frame h h' srcs dsts -> hd :: l1 = pre ++ [p] ->
  (pre = [] \/ exists pre', pre = hd :: pre' /\ l1 = pre' ++ [p] /\ linked h hd pre' p) ->
  (forall x, x ∈ pre -> x ∉ srcs) -> (forall y, y ∈ l1 -> y ∉ dsts) ->
  linked h' p (mid ++ l2) hd -> linked h' hd (l1 ++ mid ++ l2) hd.
Proof.
  intros F Hl Hpre Hs Hd HL. destruct Hpre as [-> | (pre' & -> & -> & Hp)].
  - cbn in Hl. injection Hl as <- ->. done.
  - rewrite <- app_assoc. cbn [app]. apply linked_app. split; [|done].
    eapply linked_frame; [exact F| | |exact Hp]; [exact Hs|exact Hd].
Qed.

(** The cycle minus its first edge. *)
Lemma linked_skip h h' p l b srcs dsts q :
  frame h h' srcs dsts -> linked h p l b -> edge h' q (first_of l b) ->
  (forall x, x ∈ l -> x ∉ srcs) -> (forall y, y ∈ tail (l ++ [b]) -> y ∉ dsts) ->
  linked h' q l b.
Proof.
  intros F HL He Hs Hd. destruct l as [|x l]; [done|]. cbn in *.
  split; [done|]. destruct HL as [_ HL]. by eapply linked_frame; [exact F|..|exact HL].
Qed.

(** The facts about a split list that the insertions and removals use. *)
Lemma is_list_split h hd l1 l2 :
  is_list h hd (l1 ++ l2) ->
  exists p pre n, last (hd :: l1) = Some p /\ n = first_of l2 hd /\ edge h p n /\
    linked h p l2 hd /\ hd :: l1 = pre ++ [p] /\
    (pre = [] \/ exists pre', pre = hd :: pre' /\ l1 = pre' ++ [p] /\ linked h hd pre' p) /\
    p ∉ pre /\ p ∉ l2 /\ n ∉ l1 /\ n ∉ tail (l2 ++ [hd]).
Proof.
  intros [Hnd HL]. destruct (split_before h hd l1 l2 HL) as (p & pre & Hp & HL2 & Hl & Hpre).
  exists p, pre, (first_of l2 hd). split_and!; try done; [by apply linked_first|..];
    rewrite app_comm_cons, Hl, <- app_assoc in Hnd;
    apply NoDup_app in Hnd as (Hnd1 & Hnd2 & Hnd3).
  - intros Hin. apply (Hnd2 _ Hin). by left.
  - cbn in Hnd3. by apply NoDup_cons in Hnd3 as [? _].
  - destruct l2 as [|n l2]; cbn.
    + destruct Hpre as [-> | (pre' & -> & -> & _)].
      * cbn in Hl. injection Hl as _ ->. set_solver.
      * apply NoDup_cons in Hnd1 as [Hh _]. intros [Hin| ->%list_elem_of_singleton]%elem_of_app;
          [done|]. apply (Hnd2 p); by left.
    + intros Hin. assert (n ∈ pre ++ [p]) as Hin' by (rewrite <- Hl; by right).
      apply elem_of_app in Hin' as [Hin'| ->%list_elem_of_singleton].
      * apply (Hnd2 _ Hin'). right. by left.
      * cbn in Hnd3. apply NoDup_cons in Hnd3 as [Hq _]. apply Hq. by left.
  - destruct l2 as [|n l2]; cbn; [set_solver|].
    cbn in Hnd3. apply NoDup_cons in Hnd3 as [Hq Hnd3]. apply NoDup_cons in Hnd3 as [Hq' _].
    intros [Hin| ->%list_elem_of_singleton]%elem_of_app; [done|].
    destruct pre as [|a pre]; cbn in Hl; injection Hl as <- _.
    + apply Hq. by left.
    + apply (Hnd2 hd); [by left|]. right. by left.
Qed.

(** Insertion of a live, detached node at any position. *)
Lemma is_list_add h hd l1 l2 novel p :
  is_list h hd (l1 ++ l2) -> novel ∉ hd :: l1 ++ l2 -> is_Some (h !! novel) ->
  last (hd :: l1) = Some p ->
  exists h', obus_list_add novel p (first_of l2 hd) h = Some h' /\
    is_list h' hd (l1 ++ novel :: l2).
Proof.
  intros HI Hnov Hlive Hlast.
  destruct (is_list_split h hd l1 l2 HI) as
    (p' & pre & n & Hp & -> & He & HL2 & Hl & Hpre & Hpp & Hpl & Hn1 & Hn2).
  assert (p' = p) as -> by congruence.
  destruct (edge_live _ _ _ He) as [Lp Ln].
  assert (p ∈ hd :: l1) as Hpin by (rewrite Hl; set_solver).
  assert (first_of l2 hd ∈ hd :: l2) as Hnin by (destruct l2; set_solver).
  assert (forall x, x ∈ pre -> x ∈ hd :: l1) as Hprein by (rewrite Hl; set_solver).
  destruct (list_add_ok h novel p (first_of l2 hd)) as (h' & E & E1 & E2 & F);
    [done|done|done|set_solver|set_solver|].
  exists h'. split; [done|]. split.
  - rewrite app_comm_cons, NoDup_app in *. destruct HI as [Hnd _].
    rewrite app_comm_cons, NoDup_app in Hnd. destruct Hnd as (? & Hd2 & ?). split_and!; [done| |].
    + intros x Hx [-> |Hx2]%elem_of_cons; [set_solver|]. by apply (Hd2 x).
    + apply NoDup_cons. split; [set_solver|done].
  - apply (linked_rebuild h h' hd l1 l2 p pre [p; novel] [first_of l2 hd; novel] [novel]);
      [done..|set_solver|set_solver|].
    cbn. split; [done|]. eapply linked_skip; [exact F|exact HL2|done|set_solver|].
    intros y Hy Hd. apply elem_of_cons in Hd as [-> | ->%list_elem_of_singleton]; [done|].
    destruct l2; cbn in Hy; set_solver.
Qed.

Section Specs.
Context (h : heap) (hd : Z).

(** [obus_list_add_before (list, novel)] on the list head appends. *)
Lemma add_before_refines l novel :
  is_list h hd l -> novel ∉ hd :: l -> is_Some (h !! novel) ->
  exists h', obus_list_add_before hd novel h = Some h' /\ is_list h' hd (l ++ [novel]).
Proof.
  intros HI Hn Hl. pose proof HI as HI'. rewrite <- (app_nil_r l) in HI, Hn.
  destruct (is_list_split _ _ _ _ HI) as (p & pre & n & Hp & -> & He & _).
  destruct (is_list_add h hd l [] novel p HI Hn Hl Hp) as (h' & E & HI2).
  exists h'. split; [|done]. destruct He as [_ He]. cbn in He.
  unfold obus_list_add_before. by rewrite He.
Qed.

(** [obus_list_add_after (list, novel)] on the list head pushes in front. *)
Lemma add_after_refines l novel :
  is_list h hd l -> novel ∉ hd :: l -> is_Some (h !! novel) ->
  exists h', obus_list_add_after hd novel h = Some h' /\ is_list h' hd (novel :: l).
Proof.
  intros HI Hn Hl.
  destruct (is_list_split _ _ [] _ HI) as (p & pre & n & Hp & -> & He & _).
  cbn in Hp. injection Hp as <-.
  destruct (is_list_add h hd [] l novel hd HI Hn Hl eq_refl) as (h' & E & HI2).
  exists h'. split; [|done]. unfold obus_list_add_after. by rewrite (proj1 He).
Qed.

Lemma init_refines h0 : is_Some (h0 !! hd) ->
  exists h', obus_list_init hd h0 = Some h' /\ is_list h' hd [].
Proof.
  intros Hl. unfold obus_list_init.
  destruct (set_next_ok h0 hd hd Hl) as (h1 & E1 & L1). rewrite E1. cbn.
  destruct (set_prev_ok h1 hd hd) as (h2 & E2 & L2); [by apply L1|]. rewrite E2.
  exists h2. split; [done|]. split; [apply NoDup_singleton|]. split.
  - rewrite (proj2 (get_set_prev _ _ _ _ hd E2)), (proj1 (get_set_next _ _ _ _ hd E1)).
    by rewrite decide_True.
  - rewrite (proj1 (get_set_prev _ _ _ _ hd E2)). by rewrite decide_True.
Qed.

Lemma first_refines l : is_list h hd l -> obus_list_first hd h = Some (first_of l hd).
Proof. intros [_ HL]. exact (proj1 (linked_first _ _ _ _ HL)). Qed.

Lemma is_empty_refines l :
  is_list h hd l -> obus_list_is_empty hd h = Some (bool_decide (l = [])).
Proof.
  intros HI. unfold obus_list_is_empty. pose proof (first_refines l HI) as E.
  unfold obus_list_first in E. rewrite E. cbn. f_equal. destruct l as [|x l]; cbn.
  - by rewrite Z.eqb_refl.
  - destruct HI as [[Hh _]%NoDup_cons _]. apply Z.eqb_neq. set_solver.
Qed.

Lemma del_refines l1 x l2 :
  is_list h hd (l1 ++ x :: l2) ->
  exists h', obus_list_del x h = Some h' /\ is_list h' hd (l1 ++ l2) /\
    obus_node_is_unref x h' = Some true.
Proof.
  intros HI. pose proof HI as HI2. rewrite cons_middle, app_assoc in HI2.
  destruct (is_list_split _ _ _ _ HI) as
    (p & pre & n & Hp & -> & He & HL & Hl & Hpre & Hpp & Hpl & _ & _). cbn in He, HL.
  destruct (is_list_split _ _ _ _ HI2) as
    (p2 & pre2 & n2 & Hp2 & -> & He2 & HL2 & _ & _ & _ & _ & Hn1 & Hn2).
  rewrite app_comm_cons, last_snoc in Hp2. injection Hp2 as <-.
  assert (NoDup (hd :: l1 ++ x :: l2)) as Hnd by apply HI.
  rewrite app_comm_cons, NoDup_app in Hnd. destruct Hnd as (Hd1 & Hd2 & Hd3).
  apply NoDup_cons in Hd3 as [Hx2 Hd3].
  assert (x ∉ hd :: l1) as Hx1 by (intros Hin; apply (Hd2 _ Hin); by left).
  assert (p ∈ hd :: l1) as Hpin by (rewrite Hl; set_solver).
  destruct (list_bridge_ok h x p (first_of l2 hd) (obus_node_unref x)
    OBUS_LIST_POISON1 OBUS_LIST_POISON2) as (h' & E & Epn & F & Gn & Gp);
    [done|done|set_solver|destruct l2; set_solver| |].
  { intros h0 Lx. destruct (set_next_ok h0 x OBUS_LIST_POISON1 Lx) as (h2 & E2 & L2).
    destruct (set_prev_ok h2 x OBUS_LIST_POISON2) as (h3 & E3 & L3); [by apply L2|].
    exists h2, h3. unfold obus_node_unref. by rewrite E2. }
  exists h'. split; [exact E|]. split; [split|].
  - rewrite app_comm_cons, NoDup_app. split_and!; [done| |done].
    intros y Hy Hy2. apply (Hd2 y Hy). by right.
  - apply (linked_rebuild h h' hd l1 l2 p pre [p; x] [first_of l2 hd; x] []); [done..| |set_solver|].
    + intros y Hy. assert (y ∈ hd :: l1) by (rewrite Hl; set_solver). set_solver.
    + cbn. eapply linked_skip; [exact F|exact HL2|done|set_solver|].
      intros y Hy Hd. apply elem_of_cons in Hd as [-> | ->%list_elem_of_singleton]; [done|].
      destruct l2; cbn in Hy; set_solver.
  - unfold obus_node_is_unref. by rewrite Gn, Gp.
Qed.

(** Walking a list terminates and counts its nodes. *)
Lemma length_loop_refines l : forall fuel pos n,
  (length l < fuel)%nat -> linked h pos l hd -> hd ∉ l ->
  length_loop fuel hd (first_of l hd)
    (match l with [] => first_of [] hd | _ :: l' => first_of l' hd end) n h
  = Some (n + Z.of_nat (length l)) \/ l = [].
Proof.
  induction l as [|x l IH]; intros fuel pos n Hf HL Hh; [by right|left].
  destruct fuel as [|fuel]; [cbn in Hf; lia|]. cbn [length_loop first_of].
  rewrite (proj2 (Z.eqb_neq x hd)) by set_solver.
  destruct HL as [_ HL]. destruct l as [|y l].
  - cbn in *. destruct fuel as [|fuel]; [lia|]. cbn.
    destruct (get_next h hd) eqn:E.
    + cbn. by rewrite Z.eqb_refl.
    + exfalso. destruct HL as [_ HL]. unfold get_prev, get_next in *.
      destruct (h !! hd); [discriminate E|discriminate HL].
  - assert (get_next h y = Some (match l with [] => hd | z :: _ => z end)) as En.
    { destruct HL as [_ HL]. destruct l; cbn in HL; apply HL. }
    cbn [first_of]. rewrite En. cbn.
    specialize (IH fuel x (n + 1) ltac:(cbn in *; lia) HL ltac:(set_solver)).
    cbn [first_of] in IH. destruct l as [|z l]; destruct IH as [IH|IH]; try done;
      cbn [first_of] in IH; rewrite IH; f_equal; cbn; lia.
Qed.

Lemma length_refines l fuel :
  is_list h hd l -> (length l < fuel)%nat ->
  obus_list_length fuel hd h = Some (Z.of_nat (length l)).
Proof.
  intros HI Hf. pose proof (first_refines l HI) as Ef. destruct HI as [Hnd HL].
  apply NoDup_cons in Hnd as [Hh _]. unfold obus_list_length.
  unfold obus_list_first in Ef. rewrite Ef. cbn.
  destruct l as [|x l].
  - cbn in *. rewrite Ef. cbn. destruct fuel as [|fuel]; [lia|]. cbn. by rewrite Z.eqb_refl.
  - cbn [first_of] in *.
    assert (get_next h x = Some (first_of l hd)) as Ex by (destruct l; cbn in HL; apply HL).
    rewrite Ex. cbn.
    destruct (length_loop_refines (x :: l) fuel hd 0 Hf HL Hh) as [E|?]; [|done].
    cbn [first_of] in E. rewrite E. done.
Qed.
End Specs.

(** ** Every client of a list *)

Inductive list_op := AddBefore (x : Z) | AddAfter (x : Z) | Del (x : Z).

Definition list_op_node (op : list_op) : Z :=
  match op with AddBefore x | AddAfter x | Del x => x end.

(** On the pointer structure, and on the sequence it stands for: a node that is
    in the list is not added again, and only a member is removed. *)
Definition run_list_op (hd : Z) (h : heap) (op : list_op) : option heap :=
  match op with
  | AddBefore x => obus_list_add_before hd x h
  | AddAfter x => obus_list_add_after hd x h
  | Del x => obus_list_del x h
  end.

Definition spec_list_op (hd : Z) (l : list Z) (op : list_op) : option (list Z) :=
  match op with
  | AddBefore x => if decide (x ∈ hd :: l) then None else Some (l ++ [x])
  | AddAfter x => if decide (x ∈ hd :: l) then None else Some (x :: l)
  | Del x => if decide (x ∈ l) then Some (filter (fun y => y <> x) l) else None
  end.

Fixpoint run_all {S : Type} (step : S -> list_op -> option S) (s : S) (ops : list list_op)
  : option S :=
  match ops with
  | [] => Some s
  | op :: ops' => s ← step s op; run_all step s ops'
  end.

(** The operations neither create nor free nodes. *)
Definition same_nodes (h h' : heap) : Prop := forall p, is_Some (h' !! p) <-> is_Some (h !! p).

Lemma set_next_nodes h h' n v : set_next n v h = Some h' -> same_nodes h h'.
Proof.
  unfold set_next. destruct (h !! n) as [d|] eqn:E; [|done]. cbn. intros [= <-] p.
  rewrite lookup_insert. case_decide; [subst; rewrite E|done]. split; by eexists.
Qed.

Lemma set_prev_nodes h h' n v : set_prev n v h = Some h' -> same_nodes h h'.
Proof.
  unfold set_prev. destruct (h !! n) as [d|] eqn:E; [|done]. cbn. intros [= <-] p.
  rewrite lookup_insert. case_decide; [subst; rewrite E|done]. split; by eexists.
Qed.

Lemma same_nodes_trans h1 h2 h3 : same_nodes h1 h2 -> same_nodes h2 h3 -> same_nodes h1 h3.
Proof. intros H1 H2 p. exact (iff_trans (H2 p) (H1 p)). Qed.

(** Peel the [set_next]/[set_prev] steps of a successful operation. *)
Ltac nodes :=
  repeat match goal with
  | H : (?c ≫= _) = Some _ |- _ =>
    let h := fresh "h" in let E := fresh "E" in destruct c as [h|] eqn:E; cbn in H; [|done]
  end;
  repeat match goal with
  | H : set_next _ _ _ = Some _ |- _ => apply set_next_nodes in H
  | H : set_prev _ _ _ = Some _ |- _ => apply set_prev_nodes in H
  end.

Lemma list_add_nodes novel prev next h h' : obus_list_add novel prev next h = Some h' -> same_nodes h h'.
Proof.
  unfold obus_list_add. intros H. nodes. eauto using same_nodes_trans.
Qed.

Lemma run_list_op_nodes hd h op h' : run_list_op hd h op = Some h' -> same_nodes h h'.
Proof.
  destruct op as [x|x|x]; cbn; intros H.
  - unfold obus_list_add_before in H. destruct (get_prev h hd); cbn in H; [|done].
    by eapply list_add_nodes.
  - unfold obus_list_add_after in H. destruct (get_next h hd); cbn in H; [|done].
    by eapply list_add_nodes.
  - unfold obus_list_del, obus_list_detach, obus_node_unref in H.
    destruct (get_prev h x); cbn in H; [|done]. destruct (get_next h x); cbn in H; [|done].
    nodes. eauto using same_nodes_trans.
Qed.

Lemma list_op_refines hd h l op l' :
  is_list h hd l -> is_Some (h !! list_op_node op) -> spec_list_op hd l op = Some l' ->
  exists h', run_list_op hd h op = Some h' /\ is_list h' hd l'.
Proof.
  intros HI Hl Hs. destruct op as [x|x|x]; cbn in *.
  - case_decide; [done|]. injection Hs as <-. by apply add_before_refines.
  - case_decide; [done|]. injection Hs as <-. by apply add_after_refines.
  - case_decide as Hin; [|done]. injection Hs as <-.
    apply list_elem_of_split in Hin as (l1 & l2 & ->).
    destruct (del_refines h hd l1 x l2 HI) as (h' & E & HI' & _). exists h'. split; [done|].
    replace (filter _ (l1 ++ x :: l2)) with (l1 ++ l2); [done|].
    destruct HI as [Hn _]. apply NoDup_cons in Hn as [_ Hn]. apply NoDup_app in Hn as (Hn1 & Hn2 & Hn3).
    apply NoDup_cons in Hn3 as [Hn3 _]. rewrite filter_app, filter_cons_False by (intros H; by apply H).
    rewrite !filter_all; [done|intros y Hy ->; done|].
    intros y Hy ->. apply (Hn2 x Hy). by left.
Qed.

(** C24: the pointer lists refine sequences.  Starting from a list that stands
    for [l], any sequence of insertions at either end and removals that is legal
    on the sequence runs without touching an address outside the nodes, ends in a
    list that stands for the resulting sequence, and the observers
    ([obus_list_first], [obus_list_is_empty], [obus_list_length], whose walk
    terminates) report that sequence. *)
Theorem list_refines_sequence hd h l ops l' :
  is_list h hd l -> Forall (fun op => is_Some (h !! list_op_node op)) ops ->
  run_all (spec_list_op hd) l ops = Some l' ->
  exists h', run_all (run_list_op hd) h ops = Some h' /\ is_list h' hd l' /\
    obus_list_first hd h' = Some (first_of l' hd) /\
    obus_list_is_empty hd h' = Some (bool_decide (l' = [])) /\
    obus_list_length (S (length l')) hd h' = Some (Z.of_nat (length l')).
Proof.
  revert h l. induction ops as [|op ops IH]; intros h l HI Hl Hs; cbn in *.
  - injection Hs as <-. exists h. split_and!; [done|done|by apply first_refines
      |by apply is_empty_refines|by apply length_refines; [|lia]].
  - destruct (spec_list_op hd l op) as [l1|] eqn:E; cbn in Hs; [|done].
    inversion Hl as [|? ? Hop Hops]; subst.
    destruct (list_op_refines hd h l op l1 HI Hop E) as (h1 & E1 & HI1). rewrite E1. cbn.
    apply (IH h1 l1); [done| |done]. eapply Forall_impl; [exact Hops|].
    intros op' H'. by apply (run_list_op_nodes _ _ _ _ E1).
Qed.

Definition wit_heap : heap :=
  {[100 := Node 100 100; 1 := Node 0 0; 2 := Node 0 0; 3 := Node 0 0]}.

Lemma wit_heap_list : is_list wit_heap 100 [].
Proof. split; [apply NoDup_singleton|]. by split. Qed.

Lemma list_refines_sequence_witness :
  exists h', run_all (run_list_op 100) wit_heap [AddBefore 1; AddBefore 2; AddAfter 3; Del 1] = Some h' /\
    is_list h' 100 [3; 2] /\ obus_list_first 100 h' = Some 3 /\
    obus_list_is_empty 100 h' = Some false /\ obus_list_length 3 100 h' = Some 2.
Proof.
  apply (list_refines_sequence 100 wit_heap [] [AddBefore 1; AddBefore 2; AddAfter 3; Del 1] [3; 2]).
  - exact wit_heap_list.
  - repeat constructor; eexists; reflexivity.
  - reflexivity.
Defined.
