(* ===== verification/Hash.v ===== *)
(** * obus_hash.c: the hash table of objects, calls and providers

    A table keeps its entries twice: chained in buckets (the lookup structure)
    and in the [entries] list in insertion order (what the library walks).  An
    entry is identified by its address, the number of its allocation.  The
    specification of a table is the sequence of its entries; [hash_wf] ties the
    buckets to it and every operation refines a sequence operation.

    A record argument stands for a non-null pointer, here and in the other
    files: the [if (!hash) return -EINVAL] guards have no counterpart. *)
From S2P Require Import Prelude Mem.

Definition hash_prime_tab : list Z :=
  [1; 2; 3; 7; 13; 31; 61; 127; 251; 509; 1021;
   2039; 4093; 8191; 16381; 32749; 65521; 131071;
   262139; 524287; 1048573; 2097143; 4194301; 8388593;
   16777213; 33554393; 67108859; 134217689; 268435399;
   536870909; 1073741789; 2147483647].

Definition hash_prime_tab_length : Z := Z.of_nat (length hash_prime_tab).

Definition DJB2_HASH_START : Z := 5381.

(** [MULT33] on [uint32_t]; on the [int] constant nothing wraps. *)
Definition MULT33 (x : Z) : Z := u32 (u32 (Z.shiftl x 5) + x).

Definition obus_hash_32 (key : Z) : Z :=
  let hash := u32 (MULT33 DJB2_HASH_START + Z.land key 255) in
  let key := Z.shiftr key 8 in
  let hash := u32 (MULT33 hash + Z.land key 255) in
  let key := Z.shiftr key 8 in
  let hash := u32 (MULT33 hash + Z.land key 255) in
  let key := Z.shiftr key 8 in
  u32 (MULT33 hash + Z.land key 255).

Record obus_hash_entry (D : Type) := Entry {
  e_addr : nat;       (* address of the entry: its allocation number *)
  e_is_const : bool;
  e_data : D;         (* the union of data and const_data *)
  e_key : Z
}.
Arguments Entry {D}.
Arguments e_addr {D}.
Arguments e_is_const {D}.
Arguments e_data {D}.
Arguments e_key {D}.

Record obus_hash (D : Type) := Hash {
  h_buckets : list (list (obus_hash_entry D));
  h_size : Z;
  h_entries : list (obus_hash_entry D)
}.
Arguments Hash {D}.
Arguments h_buckets {D}.
Arguments h_size {D}.
Arguments h_entries {D}.

(** Where the [struct obus_hash] given to [obus_hash_init] lives. *)
Inductive hash_home := HomeMalloc | HomeMember.

Section Ops.
Context {AL : Allocator} {D : Type}.
Implicit Types (h : obus_hash D) (e : obus_hash_entry D).

(** The scan of the prime table, from index [i] with the primes [tab] left. *)
Fixpoint prime_scan (tab : list Z) (size : Z) : Z :=
  match tab with
  | [] => 0
  | [p] => p
  | p :: tab' => if p <=? size then prime_scan tab' size else p
  end.

(** Always returns 0.  When the bucket array cannot be allocated the structure
    itself is freed: [None] when it was a block of its own, undefined
    behaviour when it is a member of another structure. *)
Definition obus_hash_init (home : hash_home) (size : Z) : M (Z * option (obus_hash D)) :=
  let hsize := prime_scan hash_prime_tab size in
  r ← m_alloc (hsize * 8);
  match r with
  | Some _ => mret (0, Some (Hash (replicate (Z.to_nat hsize) []) hsize []))
  | None =>
    match home with
    | HomeMalloc => mret (0, None)
    | HomeMember => m_undef
    end
  end.

(** [hash->buckets[obus_hash_32 (key) % hash->size]] *)
Definition bucket_of h (key : Z) : M (nat * list (obus_hash_entry D)) :=
  if h_size h =? 0 then m_undef else
  let i := Z.to_nat (obus_hash_32 key mod h_size h) in
  chain ← m_lift (h_buckets h !! i);
  mret (i, chain).

Fixpoint chain_find (key : Z) (chain : list (obus_hash_entry D))
  : option (obus_hash_entry D) :=
  match chain with
  | [] => None
  | e :: chain' => if e_key e =? key then Some e else chain_find key chain'
  end.

(** Unlinking the first entry with [key] from its chain. *)
Fixpoint chain_unlink (key : Z) (chain : list (obus_hash_entry D))
  : list (obus_hash_entry D) :=
  match chain with
  | [] => []
  | e :: chain' => if e_key e =? key then chain' else e :: chain_unlink key chain'
  end.

(** [obus_list_del (&entry->node)] on the entries list. *)
Definition entries_del e (l : list (obus_hash_entry D)) : list (obus_hash_entry D) :=
  filter (fun e' => e_addr e' <> e_addr e) l.

Definition obus_hash_insert_entry h (key : Z) (new_entry : obus_hash_entry D)
  : M (Z * obus_hash D) :=
  '(i, chain) ← bucket_of h key;
  match chain_find key chain with
  | Some _ => mret (- EEXIST, h)
  | None =>
    mret (0, Hash (<[i := new_entry :: chain]> (h_buckets h)) (h_size h)
                  (h_entries h ++ [new_entry]))
  end.

Definition obus_hash_insert h (key : Z) (data : D) : M (Z * obus_hash D) :=
  a ← m_alloc 48;
  match a with
  | None => mret (- ENOMEM, h)
  | Some k => obus_hash_insert_entry h key (Entry k false data key)
  end.

Definition obus_hash_insert_const h (key : Z) (data : D) : M (Z * obus_hash D) :=
  a ← m_alloc 48;
  match a with
  | None => mret (- ENOMEM, h)
  | Some k => obus_hash_insert_entry h key (Entry k true data key)
  end.

Definition obus_hash_lookup_entry h (key : Z) : M (Z * option (obus_hash_entry D)) :=
  '(_, chain) ← bucket_of h key;
  match chain_find key chain with
  | None => mret (- ENOENT, None)
  | Some e => mret (0, Some e)
  end.

(** [None]: [*data] is left unchanged. *)
Definition obus_hash_lookup h (key : Z) : M (Z * option D) :=
  '(ret, e) ← obus_hash_lookup_entry h key;
  match e with
  | None => mret (ret, None)
  | Some e => if e_is_const e then mret (- EPERM, None) else mret (0, Some (e_data e))
  end.

Definition obus_hash_lookup_const h (key : Z) : M (Z * option D) :=
  '(ret, e) ← obus_hash_lookup_entry h key;
  match e with
  | None => mret (ret, None)
  | Some e => mret (0, Some (e_data e))
  end.

Definition obus_hash_remove h (key : Z) : M (Z * obus_hash D) :=
  '(i, chain) ← bucket_of h key;
  match chain_find key chain with
  | None => mret (- ENOENT, h)
  | Some e =>
    mret (0, Hash (<[i := chain_unlink key chain]> (h_buckets h)) (h_size h)
                  (entries_del e (h_entries h)))
  end.

(** The loop of [obus_hash_destroy]: the entries still listed after every
    chain has been unlinked and freed. *)
Definition destroy_entries h : list (obus_hash_entry D) :=
  fold_left (fun l e => entries_del e l) (concat (h_buckets h)) (h_entries h).

Definition obus_hash_destroy h : Z * obus_hash D := (0, Hash [] 0 []).
End Ops.

(** ** Invariant *)

Section Spec.
Context {AL : Allocator} {D : Type}.
Implicit Types (h : obus_hash D) (e : obus_hash_entry D) (m : mem).

Definition keys (l : list (obus_hash_entry D)) : list Z := map e_key l.
Definition addrs (l : list (obus_hash_entry D)) : list nat := map e_addr l.

Record hash_wf (h : obus_hash D) (m : mem) : Prop := {
  hw_size : 0 < h_size h;
  hw_buckets : Z.of_nat (length (h_buckets h)) = h_size h;
  hw_place : forall i chain e, h_buckets h !! i = Some chain -> e ∈ chain ->
    Z.of_nat i = obus_hash_32 (e_key e) mod h_size h;
  hw_perm : concat (h_buckets h) ≡ₚ h_entries h;
  hw_keys : NoDup (keys (h_entries h));
  hw_addrs : NoDup (addrs (h_entries h));
  hw_fresh : Forall (fun k => (k < m_count m)%nat) (addrs (h_entries h))
}.

(** The abstract table: a finite map, [entries] giving the order. *)
Definition hash_map h : gmap Z (bool * D) :=
  list_to_map (map (fun e => (e_key e, (e_is_const e, e_data e))) (h_entries h)).

Lemma hash_wf_later h m m' : hash_wf h m -> (m_count m <= m_count m')%nat -> hash_wf h m'.
Proof.
  intros [] Hm. constructor; try done. eapply Forall_impl; [done|]. cbn. lia.
Qed.

Lemma obus_hash_32_range key : 0 <= obus_hash_32 key < 2 ^ 32.
Proof. unfold obus_hash_32. cbn zeta. apply u32_range. Qed.

Lemma concat_insert_perm {A} (ls : list (list A)) i c c' :
  ls !! i = Some c -> exists r, concat ls ≡ₚ c ++ r /\ concat (<[i := c']> ls) ≡ₚ c' ++ r.
Proof.
  revert i. induction ls as [|l ls IH]; intros [|i]; cbn; intros Hi; simplify_eq.
  - by exists (concat ls).
  - destruct (IH i Hi) as (r & H1 & H2). exists (l ++ r). rewrite H1, H2.
    split; by rewrite Permutation_app_swap_app.
Qed.

Lemma wp_bucket_of h key m (Q : nat * list (obus_hash_entry D) -> mem -> Prop) :
  hash_wf h m ->
  (forall i chain, h_buckets h !! i = Some chain ->
     Z.of_nat i = obus_hash_32 key mod h_size h -> Q (i, chain) m) ->
  wp (bucket_of h key) Q m.
Proof.
  intros W HQ. pose proof (hw_size _ _ W). pose proof (hw_buckets _ _ W).
  unfold bucket_of. destruct (Z.eqb_spec (h_size h) 0); [lia|]. cbn zeta.
  pose proof (Z.mod_pos_bound (obus_hash_32 key) (h_size h) ltac:(lia)).
  destruct (lookup_lt_is_Some_2 (h_buckets h) (Z.to_nat (obus_hash_32 key mod h_size h)))
    as [chain Hc]; [lia|].
  apply wp_bind. eapply wp_lift; [exact Hc|]. apply wp_ret, HQ; [done|lia].
Qed.

Lemma chain_find_spec key chain e :
  chain_find key chain = Some e -> e ∈ chain /\ e_key e = key.
Proof.
  induction chain as [|x chain IH]; cbn; [done|].
  destruct (Z.eqb_spec (e_key x) key); [intros [= ->]; split; [by left|done]|].
  intros H. destruct (IH H). split; [by right|done].
Qed.

Lemma chain_find_none key chain : chain_find key chain = None <-> key ∉ keys chain.
Proof.
  induction chain as [|x chain IH]; cbn; [split; [set_solver|done]|].
  destruct (Z.eqb_spec (e_key x) key) as [->|]; [split; [done|set_solver]|].
  rewrite IH. set_solver.
Qed.

Lemma chain_unlink_perm key chain e :
  chain_find key chain = Some e -> chain ≡ₚ e :: chain_unlink key chain.
Proof.
  induction chain as [|x chain IH]; cbn; [done|].
  destruct (Z.eqb_spec (e_key x) key); [by intros [= ->]|].
  intros H. rewrite Permutation_swap. by rewrite <- IH.
Qed.

(** A chain holds every entry whose key hashes to it. *)
Lemma in_bucket h m i chain e :
  hash_wf h m -> h_buckets h !! i = Some chain -> e ∈ h_entries h ->
  Z.of_nat i = obus_hash_32 (e_key e) mod h_size h -> e ∈ chain.
Proof.
  intros W Hi He Hh. rewrite <- (hw_perm _ _ W) in He.
  apply list_elem_of_In, in_concat in He as (c & Hc & He).
  apply list_elem_of_In, list_elem_of_lookup in Hc as [j Hj]. apply list_elem_of_In in He.
  pose proof (hw_place _ _ W j c e Hj He). assert (i = j) as -> by lia. congruence.
Qed.

Lemma bucket_sub h m i chain e :
  hash_wf h m -> h_buckets h !! i = Some chain -> e ∈ chain -> e ∈ h_entries h.
Proof.
  intros W Hi He. rewrite <- (hw_perm _ _ W). apply list_elem_of_In, in_concat.
  exists chain. split; apply list_elem_of_In; [by eapply list_elem_of_lookup_2|done].
Qed.

Lemma key_unique h m e e' :
  hash_wf h m -> e ∈ h_entries h -> e' ∈ h_entries h -> e_key e = e_key e' -> e = e'.
Proof.
  intros W He He' Hk. by apply (NoDup_map_inj e_key (h_entries h)); [apply W|..].
Qed.

(** The outcome of a search in the bucket of [key]. *)
Lemma chain_find_entries h m i chain key :
  hash_wf h m -> h_buckets h !! i = Some chain ->
  Z.of_nat i = obus_hash_32 key mod h_size h ->
  match chain_find key chain with
  | Some e => e ∈ h_entries h /\ e_key e = key
  | None => key ∉ keys (h_entries h)
  end.
Proof.
  intros W Hi Hh. destruct (chain_find key chain) as [e|] eqn:E.
  - destruct (chain_find_spec _ _ _ E). split; [by eapply bucket_sub|done].
  - apply chain_find_none in E. intros (e & -> & He)%list_elem_of_fmap. apply E.
    apply list_elem_of_fmap. exists e. split; [done|]. by eapply in_bucket.
Qed.

Lemma hash_map_lookup h m e :
  hash_wf h m -> e ∈ h_entries h -> hash_map h !! e_key e = Some (e_is_const e, e_data e).
Proof.
  intros W He. unfold hash_map. apply elem_of_list_to_map.
  - rewrite <- list_fmap_compose. apply W.
  - apply list_elem_of_fmap. by exists e.
Qed.

Lemma hash_map_none h key : key ∉ keys (h_entries h) -> hash_map h !! key = None.
Proof.
  intros Hk. unfold hash_map. apply not_elem_of_list_to_map. by rewrite <- list_fmap_compose.
Qed.

(** ** Specifications *)

Lemma wp_hash_lookup_entry h key m (Q : Z * option (obus_hash_entry D) -> mem -> Prop) :
  hash_wf h m ->
  (forall e, e ∈ h_entries h -> e_key e = key -> Q (0, Some e) m) ->
  (key ∉ keys (h_entries h) -> Q (- ENOENT, None) m) ->
  wp (obus_hash_lookup_entry h key) Q m.
Proof.
  intros W H1 H2. unfold obus_hash_lookup_entry. apply wp_bind, wp_bucket_of; [done|].
  intros i chain Hi Hh. pose proof (chain_find_entries _ _ _ _ _ W Hi Hh) as HF.
  destruct (chain_find key chain) as [e|]; apply wp_ret; [|by apply H2].
  destruct HF. by apply H1.
Qed.

Lemma wp_hash_lookup h key m (Q : Z * option D -> mem -> Prop) :
  hash_wf h m ->
  (forall e, e ∈ h_entries h -> e_key e = key -> e_is_const e = false ->
     Q (0, Some (e_data e)) m) ->
  (forall e, e ∈ h_entries h -> e_key e = key -> e_is_const e = true ->
     Q (- EPERM, None) m) ->
  (key ∉ keys (h_entries h) -> Q (- ENOENT, None) m) ->
  wp (obus_hash_lookup h key) Q m.
Proof.
  intros W H1 H2 H3. unfold obus_hash_lookup. apply wp_bind, wp_hash_lookup_entry; [done| |].
  - intros e He Hk. destruct (e_is_const e) eqn:Ec; apply wp_ret; eauto.
  - intros Hn. by apply wp_ret, H3.
Qed.

Lemma wp_hash_insert_entry h key e m (Q : Z * obus_hash D -> mem -> Prop) :
  hash_wf h m -> e_key e = key -> (e_addr e < m_count m)%nat -> e_addr e ∉ addrs (h_entries h) ->
  (key ∈ keys (h_entries h) -> Q (- EEXIST, h) m) ->
  (forall h', hash_wf h' m -> key ∉ keys (h_entries h) -> h_size h' = h_size h ->
     h_entries h' = h_entries h ++ [e] -> Q (0, h') m) ->
  wp (obus_hash_insert_entry h key e) Q m.
Proof.
  intros W Hk Ha Hna H1 H2. unfold obus_hash_insert_entry. apply wp_bind, wp_bucket_of; [done|].
  intros i chain Hi Hh. pose proof (chain_find_entries _ _ _ _ _ W Hi Hh) as HF.
  destruct (chain_find key chain) as [e'|]; apply wp_ret.
  { apply H1. destruct HF as [He <-]. by apply list_elem_of_fmap_2. }
  apply H2; [|done..]. destruct W as [Ws Wb Wp Wm Wk Wa Wf].
  constructor; cbn [h_buckets h_size h_entries]; [done|by rewrite length_insert| | | | |].
  - intros j c e'. rewrite list_lookup_insert. case_decide as Hd.
    + destruct Hd as [<- _]. intros [= <-] [-> |He]%elem_of_cons; [by rewrite Hk|].
      by apply (Wp i chain).
    + apply Wp.
  - destruct (concat_insert_perm (h_buckets h) i chain (e :: chain) Hi) as (r & Hr1 & Hr2).
    rewrite Hr2, <- Wm, Hr1. cbn. by rewrite <- Permutation_cons_append.
  - unfold keys. rewrite map_app. apply NoDup_app. split; [done|]. cbn.
    split; [|apply NoDup_singleton].
    intros x Hx ->%list_elem_of_singleton. rewrite Hk in Hx. done.
  - unfold addrs. rewrite map_app. apply NoDup_app. split; [done|]. cbn.
    split; [|apply NoDup_singleton]. by intros x Hx ->%list_elem_of_singleton.
  - unfold addrs. rewrite map_app. apply Forall_app. split; [done|]. by constructor.
Qed.

(** Insertion: refused for lack of memory, refused when the key is present,
    or the new entry goes at the end of the entries. *)
Definition insert_post h (key : Z) (c : bool) (data : D) m (r : Z * obus_hash D) m' : Prop :=
  same_blocks m m' /\ hash_wf (snd r) m' /\
  (h_size (snd r) = h_size h /\ (m_count m <= m_count m')%nat) /\
  ((r = (- ENOMEM, h) /\ exists k, malloc_ok k 48 = false) \/
   (r = (- EEXIST, h) /\ key ∈ keys (h_entries h)) \/
   (fst r = 0 /\ key ∉ keys (h_entries h) /\
    exists a, h_entries (snd r) = h_entries h ++ [Entry a c data key])).

Lemma wp_insert_with h key c data m :
  hash_wf h m ->
  wp (a ← m_alloc 48;
      match a with
      | None => mret (- ENOMEM, h)
      | Some k => obus_hash_insert_entry h key (Entry k c data key)
      end) (insert_post h key c data m) m.
Proof.
  intros W. apply wp_bind. unfold wp at 1, m_alloc. do 2 eexists. split; [reflexivity|].
  set (m' := Mem _ _ _). assert (hash_wf h m') as W' by (eapply hash_wf_later; [done|cbn; lia]).
  destruct (malloc_ok (m_count m) 48) eqn:E.
  - apply wp_hash_insert_entry; [done|done|cbn; lia| | |].
    + cbn [e_addr]. intros Hin. pose proof (hw_fresh _ _ W) as Hf.
      rewrite Forall_forall in Hf. specialize (Hf _ Hin). cbn in Hf. lia.
    + intros Hk. split_and!; [later|done|done|cbn; lia|]. right. by left.
    + intros h' Wh Hk Hs He. split_and!; [later|done|done|cbn; lia|]. right. right.
      split_and!; [done|done|by eexists].
  - apply wp_ret. split_and!; [later|done|done|cbn; lia|]. left. split; [done|by eexists].
Qed.

Lemma wp_hash_insert h key data m :
  hash_wf h m -> wp (obus_hash_insert h key data) (insert_post h key false data m) m.
Proof. apply wp_insert_with. Qed.

Lemma wp_hash_insert_const h key data m :
  hash_wf h m -> wp (obus_hash_insert_const h key data) (insert_post h key true data m) m.
Proof. apply wp_insert_with. Qed.

Lemma entries_del_perm e l r :
  NoDup (addrs l) -> l ≡ₚ e :: r -> entries_del e l ≡ₚ r.
Proof.
  intros Hn Hp. unfold entries_del. rewrite Hp. unfold addrs in Hn. rewrite Hp in Hn.
  cbn in Hn. apply NoDup_cons in Hn as [Hn _].
  rewrite filter_cons_False by (intros H; by apply H). rewrite filter_all; [done|].
  intros x Hx Heq. apply Hn. rewrite <- Heq. by apply list_elem_of_fmap_2.
Qed.

Definition without (key : Z) (l : list (obus_hash_entry D)) : list (obus_hash_entry D) :=
  filter (fun e => e_key e <> key) l.

Lemma entries_del_without e l :
  NoDup (keys l) -> NoDup (addrs l) -> e ∈ l -> entries_del e l = without (e_key e) l.
Proof.
  intros Hk Ha He. apply filter_ext_in. intros x Hx. split; intros Hne Heq; apply Hne.
  - by rewrite (NoDup_map_inj e_key l x e Hk).
  - by rewrite (NoDup_map_inj e_addr l x e Ha).
Qed.

Lemma wp_hash_remove h key m (Q : Z * obus_hash D -> mem -> Prop) :
  hash_wf h m ->
  (key ∉ keys (h_entries h) -> Q (- ENOENT, h) m) ->
  (forall h', hash_wf h' m -> key ∈ keys (h_entries h) -> h_size h' = h_size h ->
     h_entries h' = without key (h_entries h) -> Q (0, h') m) ->
  wp (obus_hash_remove h key) Q m.
Proof.
  intros W H1 H2. unfold obus_hash_remove. apply wp_bind, wp_bucket_of; [done|].
  intros i chain Hi Hh. pose proof (chain_find_entries _ _ _ _ _ W Hi Hh) as HF.
  destruct (chain_find key chain) as [e|] eqn:Ef; apply wp_ret; [|by apply H1].
  destruct HF as [He Hk]. destruct (concat_insert_perm (h_buckets h) i chain
    (chain_unlink key chain) Hi) as (r & Hr1 & Hr2).
  pose proof (chain_unlink_perm _ _ _ Ef) as Hu. destruct W as [Ws Wb Wp Wm Wk Wa Wf].
  apply H2; [|rewrite <- Hk; by apply list_elem_of_fmap_2|done|].
  2:{ cbn. rewrite <- Hk. by apply entries_del_without. }
  constructor; cbn [h_buckets h_size h_entries]; [done|by rewrite length_insert| | | | |].
  - intros j c e'. rewrite list_lookup_insert. case_decide as Hd.
    + destruct Hd as [<- _]. intros [= <-] Hin. apply (Wp i chain); [done|].
      apply (elem_of_Permutation_proper e' _ _ Hu). by right.
    + apply Wp.
  - rewrite Hr2. symmetry. apply entries_del_perm; [done|].
    rewrite <- Wm, Hr1. change (e :: chain_unlink key chain ++ r) with ((e :: chain_unlink key chain) ++ r).
    by apply Permutation_app_tail.
  - by apply NoDup_map_filter.
  - by apply NoDup_map_filter.
  - apply Forall_forall. intros k (x & -> & Hx)%list_elem_of_fmap. rewrite Forall_forall in Wf.
    apply Wf. apply list_elem_of_filter in Hx as [_ Hx]. by apply list_elem_of_fmap_2.
Qed.

Lemma prime_scan_pos tab size : tab <> [] -> Forall (Z.lt 0) tab -> 0 < prime_scan tab size.
Proof.
  induction tab as [|p [|q tab] IH]; intros Hne H; [done|by inversion H|].
  inversion H; subst. cbn [prime_scan]. destruct (p <=? size); [by apply IH|done].
Qed.

Lemma prime_tab_pos : Forall (Z.lt 0) hash_prime_tab.
Proof. by repeat constructor. Qed.

Lemma hash_empty_wf size m :
  0 < size -> hash_wf (Hash (D := D) (replicate (Z.to_nat size) []) size []) m.
Proof.
  intros Hs. constructor; cbn; [done|rewrite length_replicate; lia| | |by constructor..].
  - intros i chain e [-> _]%lookup_replicate. set_solver.
  - assert (forall n, concat (replicate n []) = @nil (obus_hash_entry D)) as ->; [|done].
    induction n; cbn; done.
Qed.

Lemma wp_hash_init home size m (Q : Z * option (obus_hash D) -> mem -> Prop) :
  (home = HomeMember -> forall k, malloc_ok k (prime_scan hash_prime_tab size * 8) = true) ->
  (forall h m', same_blocks m m' -> (m_count m <= m_count m')%nat -> hash_wf h m' ->
     h_entries h = [] -> h_size h = prime_scan hash_prime_tab size -> Q (0, Some h) m') ->
  (forall m', home = HomeMalloc -> same_blocks m m' -> Q (0, None) m') ->
  wp (obus_hash_init home size) Q m.
Proof.
  intros Hh H1 H2. unfold obus_hash_init. apply wp_bind. unfold wp at 1, m_alloc.
  do 2 eexists. split; [reflexivity|]. set (m' := Mem _ _ _).
  destruct (malloc_ok (m_count m) _) eqn:Hk.
  - apply wp_ret, H1; [later|cbn; lia| |done|done]. apply hash_empty_wf.
    apply prime_scan_pos; [done|apply prime_tab_pos].
  - destruct home; [apply wp_ret, H2; later|]. by rewrite (Hh eq_refl) in Hk.
Qed.

(** Deleting the entries of every chain empties the entries list. *)
Lemma destroy_entries_nil h m : hash_wf h m -> destroy_entries h = [].
Proof.
  intros W. unfold destroy_entries. pose proof (hw_addrs _ _ W) as Ha.
  pose proof (hw_perm _ _ W) as Hp. revert Ha Hp. generalize (h_entries h).
  induction (concat (h_buckets h)) as [|e l IH]; intros es Ha Hp; cbn.
  - by apply Permutation_nil in Hp.
  - apply IH.
    + by apply NoDup_map_filter.
    + symmetry. apply entries_del_perm; [done|by symmetry].
Qed.
End Spec.

(** ** The table refines an ordered map *)

Inductive hash_op (D : Type) :=
| HInsert (key : Z) (data : D)
| HInsertConst (key : Z) (data : D)
| HRemove (key : Z).
Arguments HInsert {D}.
Arguments HInsertConst {D}.
Arguments HRemove {D}.

Section Refinement.
Context {AL : Allocator} {D : Type}.

(** The abstract state: keys with their constness and data, oldest first. *)
Local Notation table := (list (Z * (bool * D))).

Definition contents (h : obus_hash D) : table :=
  map (fun e => (e_key e, (e_is_const e, e_data e))) (h_entries h).

Definition table_find (t : table) (key : Z) : option (bool * D) := list_to_map (M := gmap Z (bool * D)) t !! key.

(** One operation: the code it returns and the new state.  An insertion may
    also be refused for lack of memory. *)
Inductive table_step : table -> hash_op D -> Z -> table -> Prop :=
| ts_nomem t op : (forall key, op <> HRemove key) -> table_step t op (- ENOMEM) t
| ts_insert t key data : table_find t key = None ->
    table_step t (HInsert key data) 0 (t ++ [(key, (false, data))])
| ts_insert_const t key data : table_find t key = None ->
    table_step t (HInsertConst key data) 0 (t ++ [(key, (true, data))])
| ts_exists t key data : is_Some (table_find t key) ->
    table_step t (HInsert key data) (- EEXIST) t
| ts_exists_const t key data : is_Some (table_find t key) ->
    table_step t (HInsertConst key data) (- EEXIST) t
| ts_remove t key : is_Some (table_find t key) ->
    table_step t (HRemove key) 0 (filter (fun x => fst x <> key) t)
| ts_absent t key : table_find t key = None -> table_step t (HRemove key) (- ENOENT) t.

Inductive table_run : table -> list (hash_op D) -> list Z -> table -> Prop :=
| tr_nil t : table_run t [] [] t
| tr_cons t op code t' ops codes t'' :
    table_step t op code t' -> table_run t' ops codes t'' ->
    table_run t (op :: ops) (code :: codes) t''.

Definition run_hash_op (op : hash_op D) (h : obus_hash D) : M (Z * obus_hash D) :=
  match op with
  | HInsert key data => obus_hash_insert h key data
  | HInsertConst key data => obus_hash_insert_const h key data
  | HRemove key => obus_hash_remove h key
  end.

Fixpoint run_hash_ops (ops : list (hash_op D)) (h : obus_hash D) : M (list Z * obus_hash D) :=
  match ops with
  | [] => mret ([], h)
  | op :: ops' =>
    '(code, h) ← run_hash_op op h;
    '(codes, h) ← run_hash_ops ops' h;
    mret (code :: codes, h)
  end.

Definition spec_lookup (t : table) (key : Z) : Z * option D :=
  match table_find t key with
  | None => (- ENOENT, None)
  | Some (true, _) => (- EPERM, None)
  | Some (false, d) => (0, Some d)
  end.

Definition spec_lookup_const (t : table) (key : Z) : Z * option D :=
  match table_find t key with
  | None => (- ENOENT, None)
  | Some (_, d) => (0, Some d)
  end.

Lemma keys_contents h : map fst (contents h) = keys (h_entries h).
Proof. unfold contents, keys. rewrite map_map. done. Qed.

Lemma find_absent h key : key ∉ keys (h_entries h) <-> table_find (contents h) key = None.
Proof.
  unfold table_find. rewrite <- not_elem_of_list_to_map.
  by change (list_fmap _ _ fst (contents h)) with (map fst (contents h)); rewrite keys_contents.
Qed.

Lemma find_present h key : key ∈ keys (h_entries h) <-> is_Some (table_find (contents h) key).
Proof.
  destruct (decide (key ∈ keys (h_entries h))) as [H|H].
  - split; [|done]. intros _. destruct (table_find (contents h) key) eqn:E; [by eexists|].
    by apply find_absent in E.
  - split; [done|]. apply find_absent in H. rewrite H. by intros [].
Qed.

Lemma find_entry h m e :
  hash_wf h m -> e ∈ h_entries h ->
  table_find (contents h) (e_key e) = Some (e_is_const e, e_data e).
Proof. intros W He. by apply (hash_map_lookup h m e). Qed.

Lemma contents_without h key h' :
  h_entries h' = without key (h_entries h) ->
  contents h' = filter (fun x => fst x <> key) (contents h).
Proof.
  intros He. unfold contents. rewrite He. unfold without. clear He. induction (h_entries h) as [|e l IH]; [done|].
  cbn [map]. destruct (decide (e_key e = key)).
  - rewrite (filter_cons_False _ e l) by (intros Hn; by apply Hn).
    rewrite filter_cons_False by (intros Hn; by apply Hn). exact IH.
  - rewrite (filter_cons_True _ e l) by done. rewrite filter_cons_True by done.
    cbn [map]. by rewrite <- IH.
Qed.

Lemma run_hash_op_refines op h m :
  hash_wf h m ->
  wp (run_hash_op op h)
     (fun r m' => hash_wf (snd r) m' /\ table_step (contents h) op (fst r) (contents (snd r))) m.
Proof.
  intros W. assert (forall a c data key h', h_entries h' = h_entries h ++ [Entry a c data key] ->
    contents h' = contents h ++ [(key, (c, data))]) as Happ.
  { intros a c data key h' He. unfold contents. by rewrite He, map_app. }
  destruct op as [key data|key data|key]; cbn.
  - eapply wp_mono; [by apply wp_hash_insert|].
    intros [ret h'] m' (_ & W' & _ & [[[= -> ->] _]|[[[= -> ->] Hk]|(Hr & Hk & a & He)]]);
      (split; [exact W'|]); cbn [fst snd].
    + by apply ts_nomem.
    + by apply ts_exists, find_present.
    + cbn in Hr. subst ret. rewrite (Happ a false data key h' He). by apply ts_insert, find_absent.
  - eapply wp_mono; [by apply wp_hash_insert_const|].
    intros [ret h'] m' (_ & W' & _ & [[[= -> ->] _]|[[[= -> ->] Hk]|(Hr & Hk & a & He)]]);
      (split; [exact W'|]); cbn [fst snd].
    + by apply ts_nomem.
    + by apply ts_exists_const, find_present.
    + cbn in Hr. subst ret. rewrite (Happ a true data key h' He).
      by apply ts_insert_const, find_absent.
  - apply wp_hash_remove; [done| |].
    + intros Hk. split; [exact W|]. by apply ts_absent, find_absent.
    + intros h' W' Hk _ He. split; [exact W'|]. cbn. rewrite (contents_without h key h' He).
      by apply ts_remove, find_present.
Qed.

Lemma run_hash_ops_refines ops h m :
  hash_wf h m ->
  wp (run_hash_ops ops h)
     (fun r m' => hash_wf (snd r) m' /\ table_run (contents h) ops (fst r) (contents (snd r))) m.
Proof.
  revert h m. induction ops as [|op ops IH]; intros h m W; cbn.
  - apply wp_ret. split; [done|constructor].
  - eapply wp_bind_mono; [by apply run_hash_op_refines|]. intros [code h1] m1 [W1 S1].
    eapply wp_bind_mono; [by apply IH|]. intros [codes h2] m2 [W2 R2].
    apply wp_ret. split; [done|]. by eapply tr_cons.
Qed.

Lemma lookup_refines h key m :
  hash_wf h m -> wp (obus_hash_lookup h key) (fun r _ => r = spec_lookup (contents h) key) m.
Proof.
  intros W. unfold spec_lookup. apply wp_hash_lookup; [done|..].
  - intros e He <- Hc. rewrite (find_entry h m e W He), Hc. done.
  - intros e He <- Hc. rewrite (find_entry h m e W He), Hc. done.
  - intros Hk. by rewrite (proj1 (find_absent h key) Hk).
Qed.

Lemma lookup_const_refines h key m :
  hash_wf h m ->
  wp (obus_hash_lookup_const h key) (fun r _ => r = spec_lookup_const (contents h) key) m.
Proof.
  intros W. unfold spec_lookup_const, obus_hash_lookup_const. apply wp_bind.
  apply wp_hash_lookup_entry; [done|..].
  - intros e He <-. apply wp_ret. by rewrite (find_entry h m e W He).
  - intros Hk. apply wp_ret. by rewrite (proj1 (find_absent h key) Hk).
Qed.

(** ** Tables filled with constant data *)

(** The contents of a table filled with the keys and constants [l]. *)
Definition const_table (l : list (Z * D)) : table := map (fun x => (fst x, (true, snd x))) l.

Lemma const_table_app l l' : const_table (l ++ l') = const_table l ++ const_table l'.
Proof. apply map_app. Qed.

Lemma const_table_keys h l : contents h = const_table l -> keys (h_entries h) = map fst l.
Proof. intros Hc. rewrite <- keys_contents, Hc. unfold const_table. by rewrite map_map. Qed.

Lemma wp_insert_const_new `{!AmpleMemory AL} l0 h key x m (Q : Z * obus_hash D -> mem -> Prop) :
  hash_wf h m -> contents h = const_table l0 -> key ∉ map fst l0 ->
  (forall h' m', hash_wf h' m' -> (m_count m <= m_count m')%nat ->
     contents h' = const_table (l0 ++ [(key, x)]) -> Q (0, h') m') ->
  wp (obus_hash_insert_const h key x) Q m.
Proof.
  intros W Hc Hn HQ. eapply wp_mono; [by apply wp_hash_insert_const|].
  intros [ret h1] m1 (_ & W1 & [_ Hm] & [[_ [k Hf]]|[[_ Hk]|(Hr & _ & a & He)]]).
  - by rewrite malloc_ample in Hf.
  - exfalso. by rewrite (const_table_keys h l0 Hc) in Hk.
  - cbn [fst snd] in *. subst ret. apply HQ; [done..|].
    rewrite const_table_app, <- Hc. unfold contents. by rewrite He, map_app.
Qed.

Lemma wp_insert_consts `{!AmpleMemory AL} (kf : D -> Z) l l0 h m
    (Q : Z * obus_hash D -> mem -> Prop) :
  hash_wf h m -> contents h = const_table l0 -> NoDup (map fst l0 ++ map kf l) ->
  (forall h' m', hash_wf h' m' -> (m_count m <= m_count m')%nat ->
     contents h' = const_table (l0 ++ map (fun x => (kf x, x)) l) -> Q (0, h') m') ->
  wp (for_each l (fun x h => obus_hash_insert_const h (kf x) x) h) Q m.
Proof.
  revert l0 h m. induction l as [|x l IH]; intros l0 h m W Hc Hn HQ; cbn [for_each].
  { apply wp_ret, HQ; [done..|by rewrite app_nil_r]. }
  apply wp_bind, (wp_insert_const_new l0); [done|done| |].
  { apply NoDup_app in Hn as (_ & Hd & _). intros Hk. apply (Hd _ Hk). by left. }
  intros h1 m1 W1 Hm1 E1. cbn [failed Z.ltb Z.compare].
  apply (IH (l0 ++ [(kf x, x)])); [done..| |].
  - rewrite map_app, <- app_assoc. exact Hn.
  - intros h2 m2 W2 Hm2 E2. apply HQ; [done|lia|]. by rewrite E2, <- app_assoc.
Qed.

(** A lookup in a table of constants. *)
Lemma wp_lookup_const_table l h key m (Q : Z * option D -> mem -> Prop) :
  hash_wf h m -> contents h = const_table l ->
  (forall x, (key, x) ∈ l -> Q (0, Some x) m) ->
  ((forall x, (key, x) ∉ l) -> Q (- ENOENT, None) m) ->
  wp (obus_hash_lookup_const h key) Q m.
Proof.
  intros W Hc H1 H2. unfold obus_hash_lookup_const. apply wp_bind, wp_hash_lookup_entry; [done| |].
  - intros e He Hk. apply wp_ret.
    assert ((e_key e, (e_is_const e, e_data e)) ∈ contents h) as Hin.
    { apply list_elem_of_fmap. by exists e. }
    rewrite Hc in Hin. apply list_elem_of_fmap in Hin as ([k x] & [= E1 E2 E3] & Hx).
    rewrite E3. apply H1. by rewrite <- Hk, E1.
  - intros Hk. apply wp_ret, H2. intros x Hx. apply Hk. rewrite (const_table_keys h l Hc).
    apply list_elem_of_fmap. by exists (key, x).
Qed.

(** ** Tables of plain data *)

(** No entry is const. *)
Definition plain_wf (h : obus_hash D) (m : mem) : Prop :=
  hash_wf h m /\ Forall (fun e => e_is_const e = false) (h_entries h).

(** The keys and the data of a table. *)
Definition reg (h : obus_hash D) : gmap Z D :=
  list_to_map (map (fun e => (e_key e, e_data e)) (h_entries h)).

Lemma reg_lookup h m key d :
  plain_wf h m ->
  reg h !! key = Some d <-> exists e, e ∈ h_entries h /\ e_key e = key /\ e_data e = d.
Proof.
  intros [W _]. unfold reg. rewrite <- elem_of_list_to_map.
  2:{ change (list_fmap _ _ fst) with (map (@fst Z D)). rewrite map_map. apply W. }
  rewrite list_elem_of_fmap. split; intros (e & H).
  - destruct H as ([= -> ->] & He). by exists e.
  - destruct H as (He & <- & <-). by exists e.
Qed.

Lemma reg_none h key : reg h !! key = None <-> key ∉ keys (h_entries h).
Proof.
  unfold reg. rewrite <- not_elem_of_list_to_map.
  change (list_fmap _ _ fst) with (map (@fst Z D)). by rewrite map_map.
Qed.

Lemma plain_wf_later h m m' : plain_wf h m -> (m_count m <= m_count m')%nat -> plain_wf h m'.
Proof. intros [W P] Hm. split; [by eapply hash_wf_later|done]. Qed.

Lemma wp_reg_lookup h key m (Q : Z * option D -> mem -> Prop) :
  plain_wf h m ->
  (forall d, reg h !! key = Some d -> Q (0, Some d) m) ->
  (reg h !! key = None -> Q (- ENOENT, None) m) ->
  wp (obus_hash_lookup h key) Q m.
Proof.
  intros P H1 H2. pose proof P as [W Hp]. rewrite Forall_forall in Hp.
  apply wp_hash_lookup; [done|..].
  - intros e He Hk _. apply H1. rewrite reg_lookup by done. by exists e.
  - intros e He _ Hc. rewrite (Hp e He) in Hc. done.
  - intros Hn. by apply H2, reg_none.
Qed.

Lemma wp_reg_insert h key d m (Q : Z * obus_hash D -> mem -> Prop) :
  plain_wf h m ->
  (forall h' m' ret, plain_wf h' m' -> same_blocks m m' -> (m_count m <= m_count m')%nat -> failed ret = true ->
     h' = h -> (ret = - ENOMEM /\ (exists k, malloc_ok k 48 = false) \/ ret = - EEXIST /\ is_Some (reg h !! key)) -> Q (ret, h') m') ->
  (forall h' m', plain_wf h' m' -> same_blocks m m' -> (m_count m <= m_count m')%nat -> reg h !! key = None ->
     reg h' = <[key := d]> (reg h) -> Q (0, h') m') ->
  wp (obus_hash_insert h key d) Q m.
Proof.
  intros [W Hp] H1 H2. eapply wp_mono; [by apply wp_hash_insert|].
  intros [ret h'] m' (Hb & W' & [_ Hm] & [[[= -> ->] Hf]|[[[= -> ->] Hk]|(Hr & Hk & a & He)]]).
  - apply H1; [by split|done..|by left].
  - apply H1; [by split|done..|right; split; [done|]].
    destruct (reg h !! key) eqn:E; [by eexists|]. by apply reg_none in E.
  - cbn [fst snd] in *. subst ret. apply H2; [split; [done|]|done|done|by apply reg_none|].
    + rewrite He. apply Forall_app. split; [done|]. by constructor.
    + unfold reg. rewrite He, map_app. apply list_to_map_snoc.
      change (list_fmap _ _ fst) with (map (@fst Z D)). by rewrite map_map.
Qed.

Lemma reg_without key (l : list (obus_hash_entry D)) :
  list_to_map (M := gmap Z D) (map (fun e => (e_key e, e_data e)) (without key l))
  = delete key (list_to_map (map (fun e => (e_key e, e_data e)) l)).
Proof.
  unfold without. induction l as [|e l IH]; cbn [map list_to_map foldr]; [by rewrite delete_empty|].
  destruct (decide (e_key e = key)) as [<-|Hne].
  - rewrite filter_cons_False by (intros Hn; by apply Hn). rewrite IH. cbn.
    by rewrite delete_insert_eq.
  - rewrite filter_cons_True by done. cbn [map list_to_map foldr]. cbn in *.
    rewrite IH. by rewrite delete_insert_ne.
Qed.

Lemma wp_reg_remove h key m (Q : Z * obus_hash D -> mem -> Prop) :
  plain_wf h m ->
  (reg h !! key = None -> Q (- ENOENT, h) m) ->
  (forall h', plain_wf h' m -> is_Some (reg h !! key) -> reg h' = delete key (reg h) -> Q (0, h') m) ->
  wp (obus_hash_remove h key) Q m.
Proof.
  intros [W Hp] H1 H2. apply wp_hash_remove; [done| |].
  - intros Hk. by apply H1, reg_none.
  - intros h' W' Hk _ He. apply H2.
    + split; [done|]. rewrite He. rewrite Forall_forall in Hp |- *. intros e Hin%list_elem_of_filter. apply Hp, Hin.
    + destruct (reg h !! key) eqn:E; [by eexists|]. by apply reg_none in E.
    + unfold reg at 1. rewrite He. apply reg_without.
Qed.

(** A lookup does not depend on the heap, and leaves it as it is. *)
Lemma lookup_const_any (h : obus_hash D) key m0 r :
  obus_hash_lookup_const h key m0 = Some (r, m0) ->
  forall m, obus_hash_lookup_const h key m = Some (r, m).
Proof.
  unfold obus_hash_lookup_const, obus_hash_lookup_entry, bucket_of, mbind, M_bind, m_lift, mret, M_ret.
  intros H m. destruct (h_size h =? 0); [done|]. destruct (h_buckets h !! _) as [chain|]; [|done].
  destruct (chain_find key chain); simplify_eq; done.
Qed.

Lemma lookup_any (h : obus_hash D) key m0 r :
  obus_hash_lookup h key m0 = Some (r, m0) -> forall m, obus_hash_lookup h key m = Some (r, m).
Proof.
  unfold obus_hash_lookup, obus_hash_lookup_entry, bucket_of, mbind, M_bind, m_lift, mret, M_ret.
  intros H m. destruct (h_size h =? 0); [done|]. destruct (h_buckets h !! _) as [chain|]; [|done].
  destruct (chain_find key chain) as [e|]; [destruct (e_is_const e)|]; simplify_eq; done.
Qed.

Lemma const_table_lookup l h key x m0 m :
  hash_wf h m0 -> contents h = const_table l -> NoDup (map fst l) -> (key, x) ∈ l ->
  obus_hash_lookup_const h key m = Some ((0, Some x), m).
Proof.
  intros W Hc Hn Hin. apply (lookup_const_any h key m0).
  assert (wp (obus_hash_lookup_const h key) (fun r m' => r = (0, Some x) /\ m' = m0) m0)
    as (r & m' & Hr & -> & ->); [|exact Hr].
  apply (wp_lookup_const_table l); [done|done| |].
  - intros y Hy. split; [|done]. do 2 f_equal.
    assert ((key, y) = (key, x)) as [= ->]; [|done].
    by apply (NoDup_map_inj fst l).
  - intros Hno. by destruct (Hno x).
Qed.

Lemma reg_lookup_any h key d m0 m :
  plain_wf h m0 -> reg h !! key = Some d -> obus_hash_lookup h key m = Some ((0, Some d), m).
Proof.
  intros P Hd. apply (lookup_any h key m0).
  assert (wp (obus_hash_lookup h key) (fun r m' => r = (0, Some d) /\ m' = m0) m0)
    as (r & m' & Hr & -> & ->); [|exact Hr].
  apply wp_reg_lookup; [done| |congruence]. intros d' Hd'. by simplify_eq.
Qed.

(** C2: a hash table is an ordered map.  Any sequence of insertions (const or
    not) and removals on a new table returns the codes of the map operations
    (0, -EEXIST, -ENOENT, -ENOMEM when an allocation is refused), keeps the
    entries in insertion order, and every later lookup, const or not, answers
    from that map: -ENOENT for an absent key, -EPERM for a plain lookup of a
    const entry. *)
Theorem hash_refines_map size ops m :
  wp ('(ret, h) ← obus_hash_init HomeMalloc size;
      match h with
      | None => mret None
      | Some h => r ← run_hash_ops ops h; mret (Some r)
      end)
     (fun r m' => match r with
        | None => True
        | Some (codes, h) =>
          exists t, table_run [] ops codes t /\ contents h = t /\
            forall key,
              wp (obus_hash_lookup h key) (fun r _ => r = spec_lookup t key) m' /\
              wp (obus_hash_lookup_const h key) (fun r _ => r = spec_lookup_const t key) m'
        end) m.
Proof.
  apply wp_bind, wp_hash_init; [done| |].
  - intros h m' _ _ W He _. eapply wp_bind_mono; [by apply run_hash_ops_refines|].
    intros [codes h'] m2 [W' R]. apply wp_ret. exists (contents h').
    split; [|split; [done|]].
    + unfold contents in R at 1. by rewrite He in R.
    + intros key. split; [by apply lookup_refines|by apply lookup_const_refines].
  - intros m' _ _. by apply wp_ret.
Qed.

(** The number of buckets is the smallest number of the prime table that
    is greater than the requested size, and the last one when there is none. *)
Theorem hash_size_choice size m :
  wp (obus_hash_init (D := D) HomeMalloc size)
     (fun r _ => fst r = 0 /\ match snd r with
        | None => True
        | Some h =>
          h_size h ∈ hash_prime_tab /\ Z.of_nat (length (h_buckets h)) = h_size h /\
          (size < 2147483647 ->
             size < h_size h /\ Forall (fun p => size < p -> h_size h <= p) hash_prime_tab) /\
          (2147483647 <= size -> h_size h = 2147483647)
        end) m.
Proof.
  apply wp_hash_init; [done| |done]. intros h m' _ _ W _ Hs. split; [done|]. cbn [snd].
  split; [|split; [apply W|]].
  - rewrite Hs. assert (forall tab, tab <> [] -> prime_scan tab size ∈ tab) as H; [|by apply H].
    induction tab as [|p [|q tab] IH]; intros Hn; [done|by left|]. cbn [prime_scan].
    destruct (p <=? size); [right; by apply IH|by left].
  - rewrite Hs. unfold hash_prime_tab. cbn [prime_scan].
    split; intros Hsz; repeat match goal with
      |- context [?p <=? size] => destruct (Z.leb_spec p size); try lia end;
      (split; [lia|]); repeat constructor; lia.
Qed.

(** [obus_hash_init] reports no error.  When the bucket array cannot be
    allocated it returns 0 all the same, having freed the structure: its caller
    uses freed memory, and the free itself is undefined behaviour for a hash
    that is a member of another structure, as every hash of the library is. *)
Theorem hash_init_hides_failure home size m :
  malloc_ok (m_count m) (prime_scan hash_prime_tab size * 8) = false ->
  obus_hash_init (D := D) home size m =
  match home with
  | HomeMalloc => Some ((0, None), Mem (m_blocks m) (m_next m) (S (m_count m)))
  | HomeMember => None
  end.
Proof.
  intros Hf. unfold obus_hash_init, m_alloc, mbind, M_bind. cbv zeta beta iota. rewrite Hf.
  by destruct home.
Qed.

(** The loop of [obus_hash_destroy] over the buckets takes every entry out
    of the entries list: none is left linked. *)
Theorem hash_destroy_unlinks (h : obus_hash D) m : hash_wf h m -> destroy_entries h = [].
Proof. apply destroy_entries_nil. Qed.
End Refinement.

Section Witnesses.
#[local] Existing Instance ample_alloc.

Lemma hash_init_hides_failure_witness :
  @obus_hash_init (limit_alloc 100) Z HomeMember 4093 mem0 = None.
Proof.
  apply (@hash_init_hides_failure (limit_alloc 100) Z HomeMember 4093 mem0). vm_compute. reflexivity.
Defined.

Definition wit_hash : obus_hash Z := Hash [[Entry 0 false 42 5]] 1 [Entry 0 false 42 5].

Lemma wit_hash_wf : hash_wf wit_hash (Mem ∅ 1 1).
Proof.
  constructor; cbn; [lia|done| | |apply NoDup_singleton|apply NoDup_singleton|repeat constructor].
  - intros [|i] chain e Hi He; cbn in Hi; [|done]. rewrite Z.mod_1_r. done.
  - done.
Qed.

Lemma hash_destroy_unlinks_witness :
  hash_wf wit_hash (Mem ∅ 1 1) /\ destroy_entries wit_hash = [].
Proof. split; [exact wit_hash_wf|exact (hash_destroy_unlinks wit_hash _ wit_hash_wf)]. Defined.
End Witnesses.
