(* ===== verification/Desc.v ===== *)
(** * libobus_private.h, obus_struct.c, obus_field.c: descriptors and structures

    The generated code describes every structure by a static table of fields.  A
    descriptor is a value here; where the library compares descriptor addresses
    the record carries the address ([sd_addr], [ed_addr], ...).  A pointer to
    a field descriptor is its index in the table.  The names and the
    [format] callbacks are parameters of the files that use them, Format and Logs.

    The memory of a structure is a store of cells by byte offset: a scalar (its
    raw bits, unsigned), a string pointer or a pointer to an item array.  A
    structure owns its item arrays, so an array is the list of its items; the
    strings are pointers to the shared heap of file Mem. *)
From S2P Require Import Prelude Mem Cstring.

(** ** Descriptors *)

(** The accessors are generated code: [set_value] stores the [int32_t] it is
    given in the representation of the enumeration, [get_value] reads it back. *)
Record obus_enum_driver := EnumDriver {
  ed_addr : Z;
  ed_size : Z;
  ed_default_value : Z;
  ed_is_valid : Z -> bool;
  ed_set_value : Z -> Z;
  ed_get_value : Z -> Z
}.

Definition OBUS_FIELD_U8 : Z := 0.
Definition OBUS_FIELD_I8 : Z := 1.
Definition OBUS_FIELD_U16 : Z := 2.
Definition OBUS_FIELD_I16 : Z := 3.
Definition OBUS_FIELD_U32 : Z := 4.
Definition OBUS_FIELD_I32 : Z := 5.
Definition OBUS_FIELD_U64 : Z := 6.
Definition OBUS_FIELD_I64 : Z := 7.
Definition OBUS_FIELD_ENUM : Z := 8.
Definition OBUS_FIELD_STRING : Z := 9.
Definition OBUS_FIELD_BOOL : Z := 10.
Definition OBUS_FIELD_F32 : Z := 11.
Definition OBUS_FIELD_F64 : Z := 12.
Definition OBUS_FIELD_ARRAY : Z := 128.
Definition OBUS_FIELD_MASK : Z := 127.

Inductive obus_field_role := OBUS_PROPERTY | OBUS_METHOD | OBUS_ARGUMENT.

#[export] Instance obus_field_role_eq_dec : EqDecision obus_field_role.
Proof. solve_decision. Defined.

Record obus_field_desc := FieldDesc {
  fd_uid : Z;
  fd_offset : Z;
  fd_role : obus_field_role;
  fd_type : Z;
  fd_enum_drv : obus_enum_driver;   (* meaningful for enumerations only *)
  fd_nb_offset : Z
}.

Record obus_struct_desc := StructDesc {
  sd_addr : Z;
  sd_size : Z;
  sd_fields_offset : Z;
  sd_fields : list obus_field_desc    (* n_fields is its length *)
}.

Definition sd_n_fields (d : obus_struct_desc) : Z := Z.of_nat (length (sd_fields d)).

Record obus_method_desc := MethodDesc {
  md_addr : Z;
  md_uid : Z;
  md_args_desc : option obus_struct_desc
}.

Record obus_bus_event_desc := BusEventDesc { bed_addr : Z; bed_uid : Z }.

Record obus_event_desc := EventDesc {
  evd_addr : Z;
  evd_uid : Z;
  evd_updates : list obus_field_desc  (* updates[j].field; the flags are unused *)
}.

Record obus_object_desc := ObjectDesc {
  od_addr : Z;
  od_uid : Z;
  od_info_desc : obus_struct_desc;
  od_events : list obus_event_desc;
  od_methods : list obus_method_desc
}.

Record obus_bus_desc := BusDesc {
  bd_objects : list obus_object_desc;
  bd_events : list obus_bus_event_desc;
  bd_crc : Z
}.

Definition OBUS_INVALID_HANDLE : Z := 0.
Definition OBUS_INVALID_UID : Z := 0.

(** The [switch (desc->type & OBUS_FIELD_MASK)] of obus_field.c. *)
Inductive obus_field_type :=
| T_U8 | T_I8 | T_U16 | T_I16 | T_U32 | T_I32 | T_U64 | T_I64
| T_ENUM | T_STRING | T_BOOL | T_F32 | T_F64 | T_UNKNOWN.

#[export] Instance obus_field_type_eq_dec : EqDecision obus_field_type.
Proof. solve_decision. Defined.

Definition field_type (type : Z) : obus_field_type :=
  let t := Z.land type OBUS_FIELD_MASK in
  if t =? OBUS_FIELD_U8 then T_U8 else if t =? OBUS_FIELD_I8 then T_I8
  else if t =? OBUS_FIELD_U16 then T_U16 else if t =? OBUS_FIELD_I16 then T_I16
  else if t =? OBUS_FIELD_U32 then T_U32 else if t =? OBUS_FIELD_I32 then T_I32
  else if t =? OBUS_FIELD_U64 then T_U64 else if t =? OBUS_FIELD_I64 then T_I64
  else if t =? OBUS_FIELD_ENUM then T_ENUM else if t =? OBUS_FIELD_STRING then T_STRING
  else if t =? OBUS_FIELD_BOOL then T_BOOL else if t =? OBUS_FIELD_F32 then T_F32
  else if t =? OBUS_FIELD_F64 then T_F64 else T_UNKNOWN.

(** [type & OBUS_FIELD_ARRAY] *)
Definition is_array (type : Z) : bool := negb (Z.land type OBUS_FIELD_ARRAY =? 0).

(** ** Structure memory *)

Inductive value :=
| VNum (n : Z)          (* the raw bits of an integer, enumeration, bool or float *)
| VStr (s : cstr).      (* a char pointer *)

Inductive cell :=
| CVal (v : value)
| CArr (a : option (list value)).   (* a pointer to items; [None] is NULL *)

Record obus_struct := Struct {
  st_desc : obus_struct_desc;
  st_mem : gmap Z cell
}.

Definition st_set (st : obus_struct) (off : Z) (c : cell) : obus_struct :=
  Struct (st_desc st) (<[off := c]> (st_mem st)).

(** Access at an offset; undefined when no cell of the right shape is there. *)
Definition get_val (st : obus_struct) (off : Z) : M value :=
  match st_mem st !! off with Some (CVal v) => mret v | _ => m_undef end.
Definition set_val (st : obus_struct) (off : Z) (v : value) : M obus_struct :=
  match st_mem st !! off with Some (CVal _) => mret (st_set st off (CVal v)) | _ => m_undef end.
Definition get_arr (st : obus_struct) (off : Z) : M (option (list value)) :=
  match st_mem st !! off with Some (CArr a) => mret a | _ => m_undef end.
Definition set_arr (st : obus_struct) (off : Z) (a : option (list value)) : M obus_struct :=
  match st_mem st !! off with Some (CArr _) => mret (st_set st off (CArr a)) | _ => m_undef end.

Definition as_num (v : value) : M Z := match v with VNum n => mret n | VStr _ => m_undef end.
Definition as_str (v : value) : M cstr := match v with VStr s => mret s | VNum _ => m_undef end.

Definition get_num (st : obus_struct) (off : Z) : M Z := v ← get_val st off; as_num v.

(** [calloc]ed memory laid out for a descriptor. *)
Definition zero_value (t : obus_field_type) : value :=
  match t with T_STRING => VStr CNull | _ => VNum 0 end.

Definition field_cells (f : obus_field_desc) : list (Z * cell) :=
  if is_array (fd_type f) then [(fd_offset f, CArr None); (fd_nb_offset f, CVal (VNum 0))]
  else [(fd_offset f, CVal (zero_value (field_type (fd_type f))))].

Definition word_offset (d : obus_struct_desc) (k : nat) : Z := sd_fields_offset d + 4 * Z.of_nat k.

(** The words of the bitset of present fields. *)
Definition n_words (d : obus_struct_desc) : nat := (length (sd_fields d) + 31) / 32.

Definition word_cells (d : obus_struct_desc) : list (Z * cell) :=
  map (fun k => (word_offset d k, CVal (VNum 0))) (seq 0 (n_words d)).

Definition calloc_struct (d : obus_struct_desc) : obus_struct :=
  Struct d (list_to_map (flat_map field_cells (sd_fields d) ++ word_cells d)).

(** ** Field lookup by uid (obus_struct.c) *)

Fixpoint desc_index (uid : Z) (l : list obus_field_desc) (i : nat) : option nat :=
  match l with
  | [] => None
  | f :: l' => if fd_uid f =? uid then Some i else desc_index uid l' (S i)
  end.

Definition obus_struct_get_field_desc (st : obus_struct) (uid : Z) : option nat :=
  desc_index uid (sd_fields (st_desc st)) 0.

Lemma desc_index_Some uid l k i :
  desc_index uid l k = Some i ->
  exists f, (k <= i)%nat /\ l !! (i - k)%nat = Some f /\ fd_uid f = uid.
Proof.
  revert k. induction l as [|f l IH]; intros k; cbn; [done|].
  destruct (Z.eqb_spec (fd_uid f) uid) as [Hf|_].
  - intros [= <-]. exists f. by rewrite Nat.sub_diag.
  - intros (g & Hk & Hg & Hu)%IH. exists g. split; [lia|]. split; [|done].
    by replace (i - k)%nat with (S (i - S k)) by lia.
Qed.

Lemma desc_index_lookup l k i f :
  NoDup (map fd_uid l) -> l !! i = Some f -> desc_index (fd_uid f) l k = Some (k + i)%nat.
Proof.
  revert k i. induction l as [|g l IH]; intros k i Hn Hi; [done|].
  cbn in Hn. apply NoDup_cons in Hn as [Hg Hn]. cbn. destruct i as [|i]; cbn in Hi.
  - injection Hi as ->. rewrite Z.eqb_refl. f_equal. lia.
  - destruct (Z.eqb_spec (fd_uid g) (fd_uid f)) as [He|_].
    + exfalso. apply Hg. rewrite He. apply list_elem_of_fmap_2. by eapply list_elem_of_lookup_2.
    + rewrite (IH (S k) i Hn Hi). f_equal. lia.
Qed.

(** ** Well-formed descriptors and structures *)

(** The cells of a field. *)
Definition field_offsets (f : obus_field_desc) : list Z :=
  if is_array (fd_type f) then [fd_offset f; fd_nb_offset f] else [fd_offset f].

Definition word_offsets (d : obus_struct_desc) : list Z :=
  map (word_offset d) (seq 0 (n_words d)).

Record field_desc_ok (f : obus_field_desc) : Prop := {
  fo_uid : 0 <= fd_uid f < 2 ^ 16;
  fo_type : 0 <= fd_type f < 2 ^ 8;
  fo_known : field_type (fd_type f) <> T_UNKNOWN;
  fo_enum : field_type (fd_type f) = T_ENUM -> 0 < ed_size (fd_enum_drv f) <= 8
}.

Record desc_ok (d : obus_struct_desc) : Prop := {
  do_fields : Forall field_desc_ok (sd_fields d);
  do_uids : NoDup (map fd_uid (sd_fields d));
  do_offsets : NoDup (flat_map field_offsets (sd_fields d) ++ word_offsets d);
  do_count : Z.of_nat (length (sd_fields d)) < 2 ^ 16
}.

Definition type_width (t : obus_field_type) : Z :=
  match t with
  | T_U8 | T_I8 | T_BOOL => 8
  | T_U16 | T_I16 => 16
  | T_U32 | T_I32 | T_F32 | T_ENUM => 32
  | T_U64 | T_I64 | T_F64 | T_STRING => 64
  | T_UNKNOWN => 0
  end.

(** A value has the C type of the field. *)
Definition value_shape (t : obus_field_type) (v : value) : Prop :=
  match t, v with
  | T_STRING, VStr _ => True
  | T_STRING, VNum _ => False
  | T_ENUM, VNum _ => True
  | _, VNum n => 0 <= n < 2 ^ type_width t
  | _, VStr _ => False
  end.

Definition field_shape (mm : gmap Z cell) (f : obus_field_desc) : Prop :=
  if is_array (fd_type f) then
    (exists a, mm !! fd_offset f = Some (CArr a) /\
       forall l, a = Some l -> Forall (value_shape (field_type (fd_type f))) l) /\
    (exists n, mm !! fd_nb_offset f = Some (CVal (VNum n)) /\ 0 <= n < 2 ^ 32)
  else exists v, mm !! fd_offset f = Some (CVal v) /\ value_shape (field_type (fd_type f)) v.

Record struct_shape (st : obus_struct) : Prop := {
  ss_desc : desc_ok (st_desc st);
  ss_fields : Forall (field_shape (st_mem st)) (sd_fields (st_desc st));
  ss_words : forall k, (k < n_words (st_desc st))%nat ->
    exists w, st_mem st !! word_offset (st_desc st) k = Some (CVal (VNum w)) /\ 0 <= w < 2 ^ 32
}.

(** Two structures of one descriptor that differ in the cells [offs] at most. *)
Definition changes_at (offs : list Z) (st st' : obus_struct) : Prop :=
  st_desc st' = st_desc st /\
  forall off, off ∉ offs -> st_mem st' !! off = st_mem st !! off.

Lemma changes_at_refl offs st : changes_at offs st st.
Proof. done. Qed.

Lemma changes_at_trans offs st1 st2 st3 :
  changes_at offs st1 st2 -> changes_at offs st2 st3 -> changes_at offs st1 st3.
Proof.
  intros [D1 H1] [D2 H2]. split; [congruence|]. intros off Ho. by rewrite H2, H1.
Qed.

Lemma changes_at_set offs st off c : off ∈ offs -> changes_at offs st (st_set st off c).
Proof.
  intros Hin. split; [done|]. intros off' Hn. cbn. apply lookup_insert_ne. congruence.
Qed.

Lemma field_shape_ext mm mm' f :
  (forall off, off ∈ field_offsets f -> mm' !! off = mm !! off) ->
  field_shape mm f -> field_shape mm' f.
Proof.
  unfold field_shape, field_offsets. destruct (is_array (fd_type f)); intros He H.
  - destruct H as [(a & Ha & Hl) (n & Hn & Hr)].
    split; [exists a|exists n]; (split; [rewrite He; [done|set_solver]|done]).
  - destruct H as (v & Hv & Hs). exists v. rewrite He; [done|set_solver].
Qed.

(** Distinct fields have disjoint cells, and no cell is a word of the bitset. *)
Lemma field_offsets_disjoint d i j f g :
  desc_ok d -> sd_fields d !! i = Some f -> sd_fields d !! j = Some g -> i <> j ->
  forall off, off ∈ field_offsets f -> off ∉ field_offsets g.
Proof.
  intros D Hi Hj Hne off Hf Hg. pose proof (do_offsets _ D) as Hn.
  apply NoDup_app in Hn as (Hn & _ & _). clear D.
  revert i j Hi Hj Hne Hn. induction (sd_fields d) as [|h l IH]; intros i j Hi Hj Hne Hn; [done|].
  cbn in Hn. apply NoDup_app in Hn as (_ & Hd & Hn).
  assert (forall k g', l !! k = Some g' -> off ∈ field_offsets g' ->
    off ∈ flat_map field_offsets l) as Hin.
  { intros k g' Hk Ho. apply list_elem_of_In, in_flat_map. exists g'.
    split; apply list_elem_of_In; [by eapply list_elem_of_lookup_2|done]. }
  destruct i as [|i], j as [|j]; cbn in Hi, Hj; simplify_eq.
  - by apply (Hd off Hf), (Hin j g).
  - by apply (Hd off Hg), (Hin i f).
  - apply (IH i j); try done. congruence.
Qed.

Lemma field_offset_not_word d i f off :
  desc_ok d -> sd_fields d !! i = Some f -> off ∈ field_offsets f -> off ∉ word_offsets d.
Proof.
  intros D Hi Ho. pose proof (do_offsets _ D) as Hn. apply NoDup_app in Hn as (_ & Hd & _).
  apply Hd. apply list_elem_of_In, in_flat_map. exists f.
  split; apply list_elem_of_In; [by eapply list_elem_of_lookup_2|done].
Qed.

Lemma elem_of_word_offsets d k : (k < n_words d)%nat -> word_offset d k ∈ word_offsets d.
Proof. intros Hk. apply list_elem_of_fmap_2, elem_of_seq. lia. Qed.

(** Changing the cells of one field, keeping its shape, keeps the structure's. *)
Lemma struct_shape_change i f st st' :
  struct_shape st -> sd_fields (st_desc st) !! i = Some f ->
  changes_at (field_offsets f) st st' -> field_shape (st_mem st') f -> struct_shape st'.
Proof.
  intros [D F W] Hi [Hd Hc] Hf. constructor; rewrite Hd; [done| |].
  - apply Forall_lookup. intros j g Hj. destruct (decide (i = j)) as [->|Hne].
    + by simplify_eq.
    + eapply field_shape_ext; [|by eapply Forall_lookup_1].
      intros off Ho. apply Hc. by eapply (field_offsets_disjoint _ j i).
  - intros k Hk. rewrite Hc; [by apply W|]. intros Ho.
    eapply field_offset_not_word; [done..|]. by apply elem_of_word_offsets.
Qed.

(** ** Access lemmas *)

Lemma wp_get_val st off v m (Q : value -> mem -> Prop) :
  st_mem st !! off = Some (CVal v) -> Q v m -> wp (get_val st off) Q m.
Proof. intros H HQ. unfold get_val. rewrite H. by apply wp_ret. Qed.

Lemma wp_get_num st off n m (Q : Z -> mem -> Prop) :
  st_mem st !! off = Some (CVal (VNum n)) -> Q n m -> wp (get_num st off) Q m.
Proof.
  intros H HQ. unfold get_num. apply wp_bind. eapply wp_get_val; [exact H|]. by apply wp_ret.
Qed.

Lemma wp_get_arr st off a m (Q : option (list value) -> mem -> Prop) :
  st_mem st !! off = Some (CArr a) -> Q a m -> wp (get_arr st off) Q m.
Proof. intros H HQ. unfold get_arr. rewrite H. by apply wp_ret. Qed.

Lemma wp_set_val st off v0 v m (Q : obus_struct -> mem -> Prop) :
  st_mem st !! off = Some (CVal v0) -> Q (st_set st off (CVal v)) m -> wp (set_val st off v) Q m.
Proof. intros H HQ. unfold set_val. rewrite H. by apply wp_ret. Qed.

Lemma wp_set_arr st off a0 a m (Q : obus_struct -> mem -> Prop) :
  st_mem st !! off = Some (CArr a0) -> Q (st_set st off (CArr a)) m -> wp (set_arr st off a) Q m.
Proof. intros H HQ. unfold set_arr. rewrite H. by apply wp_ret. Qed.

Lemma elem_of_field_offset f : fd_offset f ∈ field_offsets f.
Proof. unfold field_offsets. destruct (is_array _); set_solver. Qed.

Lemma elem_of_field_nb_offset f : is_array (fd_type f) = true -> fd_nb_offset f ∈ field_offsets f.
Proof. unfold field_offsets. intros ->. set_solver. Qed.

Lemma field_offsets_neq d i f :
  desc_ok d -> sd_fields d !! i = Some f -> is_array (fd_type f) = true ->
  fd_offset f <> fd_nb_offset f.
Proof.
  intros D Hi Ha Heq. pose proof (do_offsets _ D) as Hn. apply NoDup_app in Hn as (Hn & _ & _).
  revert i Hi Hn. induction (sd_fields d) as [|h l IH]; intros i Hi Hn; [done|].
  cbn in Hn. apply NoDup_app in Hn as (Hh & _ & Hn). destruct i; cbn in Hi; [|by eauto].
  simplify_eq. unfold field_offsets in Hh. rewrite Ha, Heq in Hh. inversion Hh; set_solver.
Qed.
