(* ===== verification/Field.v ===== *)
(** * obus_field.c: one field of a structure: init, encode, decode, copy, destroy

    A function that takes the address of a value takes the value, and returns
    the new one when it stores.  Loops over array items run over the list of
    their indices. *)
From S2P Require Import Prelude Mem Cstring Buffer Desc.

Definition indices (n : Z) : list Z := map Z.of_nat (seq 0 (Z.to_nat n)).

(** ** Addresses *)

(** [obus_field_address] and [obus_field_array_nb_address], as offsets. *)
Definition obus_field_address (desc : obus_field_desc) : Z := fd_offset desc.
Definition obus_field_array_nb_address (desc : obus_field_desc) : Z := fd_nb_offset desc.

(** The stride of an array; 0 for an unknown type. *)
Definition item_stride (desc : obus_field_desc) : Z :=
  match field_type (fd_type desc) with
  | T_U8 | T_I8 | T_BOOL => 1
  | T_U16 | T_I16 => 2
  | T_U32 | T_I32 => 4
  | T_U64 | T_I64 => 8
  | T_ENUM => ed_size (fd_enum_drv desc)
  | T_STRING => 8
  | T_F32 => 4
  | T_F64 => 8
  | T_UNKNOWN => 0
  end.

(** The item size [obus_field_array_alloc] uses: for an enumeration it is the
    size of the [size_t] member, not its value. *)
Definition alloc_stride (desc : obus_field_desc) : Z :=
  match field_type (fd_type desc) with
  | T_ENUM => 8
  | _ => item_stride desc
  end.

(** An item address: null, an offset of the null page, or an item. *)
Inductive item_address := ItemNull | ItemWild | ItemAt (idx : Z).

Definition obus_field_array_item (desc : obus_field_desc) (base : option (list value)) (idx : Z)
  : item_address :=
  match field_type (fd_type desc), base with
  | T_UNKNOWN, _ => ItemNull
  | _, None => if idx * item_stride desc =? 0 then ItemNull else ItemWild
  | _, Some _ => ItemAt idx
  end.

(** Access to item [idx] of an array of [length l] allocated items. *)
Definition item_get (desc : obus_field_desc) (l : list value) (idx : Z) : M value :=
  if (idx + 1) * item_stride desc <=? Z.of_nat (length l) * alloc_stride desc
  then m_lift (l !! Z.to_nat idx) else m_undef.

Definition item_set (desc : obus_field_desc) (l : list value) (idx : Z) (v : value)
  : M (list value) :=
  _ ← item_get desc l idx; mret (<[Z.to_nat idx := v]> l).

Section Values.
Context {AL : Allocator}.

Definition obus_copy_value (desc : obus_field_desc) (dst src : value) : M (Z * value) :=
  match field_type (fd_type desc) with
  | T_U8 | T_I8 | T_U16 | T_I16 | T_U32 | T_I32 | T_U64 | T_I64 | T_F32 | T_F64 =>
    n ← as_num src; mret (0, VNum n)
  | T_BOOL => n ← as_num src; mret (0, VNum (if n =? 0 then 0 else 1))
  | T_ENUM =>
    n ← as_num src;
    let value := ed_get_value (fd_enum_drv desc) n in
    mret (0, VNum (ed_set_value (fd_enum_drv desc) value))
  | T_STRING =>
    s ← as_str src;
    d ← as_str dst;
    let real := negb (bool_decide (s = CNull)) && negb (bool_decide (s = CEmpty)) in
    v_dup ← (if real then strdup s else mret CEmpty);
    if real && bool_decide (v_dup = CNull) then mret (- ENOMEM, dst) else
    (if bool_decide (d = CEmpty) then mret tt else c_free d);;
    mret (0, VStr v_dup)
  | T_UNKNOWN => mret (0, dst)
  end.

Definition obus_encode_value (desc : obus_field_desc) (v : value) (buf : buffer)
  : M (Z * buffer) :=
  match field_type (fd_type desc) with
  | T_BOOL => n ← as_num v; obus_buffer_append_u8 buf (if n =? 0 then 0 else 1)
  | T_U8 | T_I8 => n ← as_num v; obus_buffer_append_u8 buf n
  | T_U16 | T_I16 => n ← as_num v; obus_buffer_append_u16 buf n
  | T_U32 | T_I32 => n ← as_num v; obus_buffer_append_u32 buf n
  | T_U64 | T_I64 => n ← as_num v; obus_buffer_append_u64 buf n
  | T_ENUM =>
    n ← as_num v;
    let value := u32 (ed_get_value (fd_enum_drv desc) n) in
    obus_buffer_append_u32 buf value
  | T_STRING => s ← as_str v; obus_buffer_append_string buf s
  | T_F32 => n ← as_num v; obus_buffer_append_f32 buf n
  | T_F64 => n ← as_num v; obus_buffer_append_f64 buf n
  | T_UNKNOWN => mret (- EINVAL, buf)
  end.

(** A reader into a scalar: the value is unchanged when the reader writes
    nothing. *)
Definition read_num (r : M (Z * option Z * buffer)) (v : value) (f : Z -> Z)
  : M (Z * value * buffer) :=
  _ ← as_num v;
  '(ret, o, buf) ← r;
  mret (ret, match o with Some n => VNum (f n) | None => v end, buf).

Definition obus_decode_value (desc : obus_field_desc) (v : value) (buf : buffer)
  : M (Z * value * buffer) :=
  match field_type (fd_type desc) with
  | T_U8 | T_I8 => read_num (obus_buffer_read_u8 buf) v id
  | T_BOOL => read_num (obus_buffer_read_u8 buf) v (fun n => if n =? 0 then 0 else 1)
  | T_U16 | T_I16 => read_num (obus_buffer_read_u16 buf) v id
  | T_U32 | T_I32 => read_num (obus_buffer_read_u32 buf) v id
  | T_U64 | T_I64 => read_num (obus_buffer_read_u64 buf) v id
  | T_ENUM => read_num (obus_buffer_read_u32 buf) v
                (fun n => ed_set_value (fd_enum_drv desc) (i32 n))
  | T_STRING =>
    _ ← as_str v;
    '(ret, o, buf) ← obus_buffer_read_string buf;
    mret (ret, match o with Some s => VStr s | None => v end, buf)
  | T_F32 => read_num (obus_buffer_read_f32 buf) v id
  | T_F64 => read_num (obus_buffer_read_f64 buf) v id
  | T_UNKNOWN => mret (- EINVAL, v, buf)
  end.

Definition obus_destroy_value (desc : obus_field_desc) (v : value) : M unit :=
  match field_type (fd_type desc) with
  | T_STRING =>
    s ← as_str v;
    if bool_decide (s = CEmpty) then mret tt else c_free s
  | _ => mret tt
  end.

Definition obus_field_skip_value (type : Z) (buf : buffer) : M buffer :=
  let inc n := mret (snd (obus_buffer_inc_read_position buf n)) in
  match field_type type with
  | T_U8 | T_I8 | T_BOOL => inc 1
  | T_U16 | T_I16 => inc 2
  | T_U32 | T_I32 | T_ENUM => inc 4
  | T_U64 | T_I64 => inc 8
  | T_STRING =>
    '(ret, o, buf) ← obus_buffer_read_u32 buf;
    match o with
    | Some size => mret (snd (obus_buffer_inc_read_position buf size))
    | None => mret buf
    end
  | T_F32 => inc 4
  | T_F64 => inc 8
  | T_UNKNOWN => mret buf
  end.

Definition obus_field_array_alloc (desc : obus_field_desc) (n_items : Z)
  : M (option (list value)) :=
  match field_type (fd_type desc) with
  | T_UNKNOWN => mret None
  | t =>
    r ← m_alloc (n_items * alloc_stride desc);
    mret (match r with
          | None => None
          | Some _ => Some (replicate (Z.to_nat n_items)
                              (match t with T_STRING => VStr CEmpty | _ => VNum 0 end))
          end)
  end.

Definition obus_field_array_skip_value (type : Z) (buf : buffer) : M buffer :=
  '(ret, o, buf) ← obus_buffer_read_u32 buf;
  match o with
  | None => mret buf
  | Some n_items => for_all (indices n_items) (fun _ buf => obus_field_skip_value type buf) buf
  end.
End Values.

(** ** Fields *)

Section Fields.
Context {AL : Allocator}.

(** A null item address stops the loop with [-EINVAL]. *)
Definition encode_item (desc : obus_field_desc) (array : option (list value)) (i : Z)
    (buf : buffer) : M (Z * buffer) :=
  match obus_field_array_item desc array i with
  | ItemNull => mret (- EINVAL, buf)
  | ItemWild => m_undef
  | ItemAt i =>
    v ← item_get desc (default [] array) i;
    obus_encode_value desc v buf
  end.

Definition obus_field_array_encode (st : obus_struct) (desc : obus_field_desc) (buf : buffer)
  : M (Z * buffer) :=
  array ← get_arr st (obus_field_address desc);
  n_items ← get_num st (obus_field_array_nb_address desc);
  '(ret, buf) ← obus_buffer_append_u32 buf n_items;
  if failed ret then mret (ret, buf) else
  for_each (indices n_items) (encode_item desc array) buf.

Definition decode_item (desc : obus_field_desc) (i : Z) (s : option (list value) * buffer)
  : M (Z * (option (list value) * buffer)) :=
  let '(array, buf) := s in
  match obus_field_array_item desc array i with
  | ItemNull => mret (- EINVAL, (array, buf))
  | ItemWild => m_undef
  | ItemAt i =>
    v ← item_get desc (default [] array) i;
    '(ret, v, buf) ← obus_decode_value desc v buf;
    l ← item_set desc (default [] array) i v;
    mret (ret, (Some l, buf))
  end.

(** The old array and its strings are not released.  When an item fails the
    array is freed, but the number of items stays. *)
Definition obus_field_array_decode (st : obus_struct) (desc : obus_field_desc) (buf : buffer)
  : M (Z * obus_struct * buffer) :=
  _ ← get_arr st (obus_field_address desc);
  '(ret, o, buf) ← obus_buffer_read_u32 buf;
  match o with
  | None => mret (ret, st, buf)
  | Some n_items =>
    st ← set_val st (obus_field_array_nb_address desc) (VNum n_items);
    array ← (if 0 <? n_items then obus_field_array_alloc desc n_items else mret None);
    st ← set_arr st (obus_field_address desc) array;
    if (0 <? n_items) && bool_decide (array = None) then mret (- ENOMEM, st, buf) else
    '(ret, (array, buf)) ← for_each (indices n_items) (decode_item desc) (array, buf);
    let array := if failed ret then None else array in
    st ← set_arr st (obus_field_address desc) array;
    mret (ret, st, buf)
  end.

Definition obus_field_encode (st : obus_struct) (desc : obus_field_desc) (buf : buffer)
  : M (Z * buffer) :=
  '(ret, buf) ← obus_buffer_append_u16 buf (fd_uid desc);
  if failed ret then mret (ret, buf) else
  '(ret, buf) ← obus_buffer_append_u8 buf (fd_type desc);
  if failed ret then mret (ret, buf) else
  if is_array (fd_type desc) then obus_field_array_encode st desc buf
  else v ← get_val st (obus_field_address desc); obus_encode_value desc v buf.

Definition skip_field (type : Z) (buf : buffer) : M buffer :=
  if is_array type then obus_field_array_skip_value type buf
  else obus_field_skip_value type buf.

Definition decode_payload (st : obus_struct) (desc : obus_field_desc) (buf : buffer)
  : M (Z * obus_struct * buffer) :=
  if is_array (fd_type desc) then obus_field_array_decode st desc buf
  else
    v ← get_val st (obus_field_address desc);
    '(ret, v, buf) ← obus_decode_value desc v buf;
    st ← set_val st (obus_field_address desc) v;
    mret (ret, st, buf).

(** The descriptor found is its index; [None] is NULL. *)
Definition obus_field_decode (st : obus_struct) (buf : buffer)
  : M (option nat * obus_struct * buffer) :=
  '(ret, uid, buf) ← obus_buffer_read_u16 buf;
  match uid with
  | None => mret (None, st, buf)
  | Some uid =>
    '(ret, type, buf) ← obus_buffer_read_u8 buf;
    match type with
    | None => mret (None, st, buf)
    | Some type =>
      let pos := obus_buffer_get_read_position buf in
      match obus_struct_get_field_desc st uid with
      | None => buf ← skip_field type buf; mret (None, st, buf)
      | Some i =>
        desc ← m_lift (sd_fields (st_desc st) !! i);
        if negb (fd_type desc =? type) then buf ← skip_field type buf; mret (None, st, buf) else
        '(ret, st, buf) ← decode_payload st desc buf;
        if failed ret then
          let buf := snd (obus_buffer_set_read_position buf pos) in
          buf ← skip_field type buf; mret (None, st, buf)
        else mret (Some i, st, buf)
      end
    end
  end.

Definition obus_field_init (st : obus_struct) (desc : obus_field_desc) : M (Z * obus_struct) :=
  if is_array (fd_type desc) then
    st ← set_val st (obus_field_array_nb_address desc) (VNum 0);
    st ← set_arr st (obus_field_address desc) None;
    mret (0, st)
  else
    match field_type (fd_type desc) with
    | T_ENUM =>
      let drv := fd_enum_drv desc in
      st ← set_val st (obus_field_address desc)
             (VNum (ed_set_value drv (ed_default_value drv)));
      mret (0, st)
    | T_STRING =>
      st ← set_val st (obus_field_address desc) (VStr CEmpty); mret (0, st)
    | T_UNKNOWN => mret (0, st)
    | _ => st ← set_val st (obus_field_address desc) (VNum 0); mret (0, st)
    end.

Definition destroy_item (desc : obus_field_desc) (array : option (list value)) (i : Z)
    (_ : unit) : M unit :=
  match obus_field_array_item desc array i with
  | ItemNull => mret tt
  | ItemWild => match field_type (fd_type desc) with T_STRING => m_undef | _ => mret tt end
  | ItemAt i =>
    match field_type (fd_type desc) with
    | T_STRING => v ← item_get desc (default [] array) i; obus_destroy_value desc v
    | _ => mret tt
    end
  end.

(** The final [free] of the array leaves a dangling pointer: the caller drops or replaces it. *)
Definition obus_field_array_destroy (st : obus_struct) (desc : obus_field_desc) : M unit :=
  array ← get_arr st (obus_field_address desc);
  n_items ← get_num st (obus_field_array_nb_address desc);
  for_all (indices n_items) (destroy_item desc array) tt.

Definition obus_field_destroy (st : obus_struct) (desc : obus_field_desc) : M unit :=
  if is_array (fd_type desc) then obus_field_array_destroy st desc
  else v ← get_val st (obus_field_address desc); obus_destroy_value desc v.

(** The search of a destination string equal, as a pointer, to the source
    string: code, new destination array, string moved to the new item. *)
Fixpoint ref_scan (desc : obus_field_desc) (idx : list Z) (src : cstr)
    (dst_array : option (list value)) : M (Z * option (list value) * option cstr) :=
  match idx with
  | [] => mret (- ENOENT, dst_array, None)
  | i :: idx' =>
    match obus_field_array_item desc dst_array i with
    | ItemNull | ItemWild => m_undef
    | ItemAt i =>
      v ← item_get desc (default [] dst_array) i;
      s ← as_str v;
      if bool_decide (s = src) then
        l ← item_set desc (default [] dst_array) i (VStr CNull);
        mret (0, Some l, Some src)
      else ref_scan desc idx' src dst_array
    end
  end.

Definition obus_field_array_ref_value (desc : obus_field_desc) (n_dst_items : Z)
    (src : value) (dst_array : option (list value))
  : M (Z * option (list value) * option cstr) :=
  match field_type (fd_type desc) with
  | T_STRING =>
    s ← as_str src;
    ref_scan desc (indices n_dst_items) s dst_array
  | _ => mret (- ENOSYS, dst_array, None)
  end.

(** One item of [obus_field_array_copy]; the state is the destination array
    and the new one.  A null address is passed on and dereferenced. *)
Definition copy_item (desc : obus_field_desc) (src_array : option (list value))
    (n_dst_items : Z) (i : Z) (s : option (list value) * option (list value))
  : M (Z * (option (list value) * option (list value))) :=
  let '(dst_array, new_array) := s in
  match obus_field_array_item desc src_array i, obus_field_array_item desc new_array i with
  | ItemAt _, ItemAt _ =>
    src ← item_get desc (default [] src_array) i;
    new ← item_get desc (default [] new_array) i;
    '(ret, dst_array, moved) ← obus_field_array_ref_value desc n_dst_items src dst_array;
    match moved with
    | Some str =>
      l ← item_set desc (default [] new_array) i (VStr str);
      mret (0, (dst_array, Some l))
    | None =>
      '(ret, new) ← obus_copy_value desc new src;
      l ← item_set desc (default [] new_array) i new;
      mret (ret, (dst_array, Some l))
    end
  | _, _ => m_undef
  end.

Definition obus_field_array_copy (dst src : obus_struct) (desc : obus_field_desc)
  : M (Z * obus_struct) :=
  src_array ← get_arr src (obus_field_address desc);
  dst_array ← get_arr dst (obus_field_address desc);
  n_src_items ← get_num src (obus_field_array_nb_address desc);
  n_dst_items ← get_num dst (obus_field_array_nb_address desc);
  new ← (if 0 <? n_src_items then obus_field_array_alloc desc n_src_items else mret None);
  if (0 <? n_src_items) && bool_decide (new = None) then mret (- ENOMEM, dst) else
  '(ret, (dst_array, new)) ←
    for_each (indices n_src_items) (copy_item desc src_array n_dst_items) (dst_array, new);
  dst ← set_arr dst (obus_field_address desc) dst_array;
  if failed ret then mret (ret, dst) else
  obus_field_array_destroy dst desc;;
  dst ← set_arr dst (obus_field_address desc) new;
  dst ← set_val dst (obus_field_array_nb_address desc) (VNum n_src_items);
  mret (0, dst).

Definition obus_field_copy (dst src : obus_struct) (desc : obus_field_desc)
  : M (Z * obus_struct) :=
  if is_array (fd_type desc) then obus_field_array_copy dst src desc
  else
    s ← get_val src (obus_field_address desc);
    d ← get_val dst (obus_field_address desc);
    '(ret, d) ← obus_copy_value desc d s;
    dst ← set_val dst (obus_field_address desc) d;
    mret (ret, dst).
End Fields.

(** ** Abstract values and their wire image *)

(** What a value means: a number or the characters of a string. *)
Inductive aval :=
| ANum (n : Z)
| AStr (o : option (list Z)).

Definition denotes (m : mem) (v : value) (a : aval) : Prop :=
  match v, a with
  | VNum x, ANum y => x = y
  | VStr s, AStr o => cstr_chars m s = Some o
  | _, _ => False
  end.

(** Values of the field's type that the wire can carry. *)
Definition aval_ok (desc : obus_field_desc) (a : aval) : Prop :=
  match field_type (fd_type desc), a with
  | T_UNKNOWN, _ => False
  | T_STRING, AStr o => wire_string o
  | T_STRING, ANum _ => False
  | T_ENUM, ANum _ => True
  | t, ANum n => 0 <= n < 2 ^ type_width t
  | _, AStr _ => False
  end.

Definition value_wire (desc : obus_field_desc) (a : aval) : list Z :=
  match a with
  | AStr o => string_wire o
  | ANum n =>
    match field_type (fd_type desc) with
    | T_U8 | T_I8 => [n]
    | T_BOOL => [if n =? 0 then 0 else 1]
    | T_U16 | T_I16 => be_bytes 2 n
    | T_U32 | T_I32 | T_F32 => be_bytes 4 n
    | T_U64 | T_I64 | T_F64 => be_bytes 8 n
    | T_ENUM => be_bytes 4 (u32 (ed_get_value (fd_enum_drv desc) n))
    | T_STRING | T_UNKNOWN => []
    end
  end.

(** What a peer reads back: booleans are 0 or 1, an enumeration goes through its
    [int32_t] value. *)
Definition aval_back (desc : obus_field_desc) (a : aval) : aval :=
  match a with
  | AStr o => AStr o
  | ANum n =>
    match field_type (fd_type desc) with
    | T_BOOL => ANum (if n =? 0 then 0 else 1)
    | T_ENUM => ANum (ed_set_value (fd_enum_drv desc) (i32 (u32 (ed_get_value (fd_enum_drv desc) n))))
    | _ => ANum n
    end
  end.

Lemma new_string_grows m m' s : mem_wf m -> new_string m m' s -> grows m m'.
Proof.
  intros W [[-> Hs]|(bs & -> & Hb & Hn & _)]; [by apply same_blocks_grows|].
  constructor.
  - intros p. rewrite Hb, Hn. intros [x Hx]. destruct (decide (p = m_next m)) as [->|]; [lia|].
    rewrite lookup_insert_ne in Hx by done. pose proof (W p (mk_is_Some _ _ Hx)). lia.
  - intros p c Hp. rewrite Hb, lookup_insert_ne; [done|]. intros <-.
    pose proof (W _ (mk_is_Some _ _ Hp)). lia.
  - lia.
Qed.

Lemma cstr_chars_grows m m' s o : grows m m' -> cstr_chars m s = Some o -> cstr_chars m' s = Some o.
Proof.
  intros G. destruct s as [| |p]; cbn; [done..|].
  destruct (m_blocks m !! p) as [bs|] eqn:E; [|done]. by rewrite (grows_blocks _ _ G _ _ E).
Qed.

Lemma denotes_grows m m' v a : grows m m' -> denotes m v a -> denotes m' v a.
Proof. intros G. destruct v, a; cbn; [done..|]. by apply cstr_chars_grows. Qed.

Lemma denotes_same m m' v a : same_blocks m m' -> denotes m v a -> denotes m' v a.
Proof. intros S. destruct v, a; cbn; try done. by rewrite (cstr_chars_same _ _ _ S). Qed.

Section ValueSpecs.
Context {AL : Allocator}.

Lemma emits_encode_value m desc v a :
  denotes m v a -> aval_ok desc a ->
  emits m (obus_encode_value desc v) (value_wire desc a).
Proof.
  unfold aval_ok, value_wire, obus_encode_value. intros Hd Ho.
  destruct v as [x|s], a as [y|o]; cbn in Hd; try done; [subst y|].
  - destruct (field_type (fd_type desc)); try done; eapply emits_ext; try (intros b; reflexivity).
    1, 2: by apply emits_append_u8.
    1, 2: by apply emits_append_u16.
    1, 2: by apply emits_append_u32.
    1, 2: by apply emits_append_u64.
    + apply emits_append_u32.
    + apply emits_append_u8. destruct (x =? 0); unfold is_byte; lia.
    + apply emits_append_u32.
    + apply emits_append_u64.
  - destruct (field_type (fd_type desc)); try done. eapply emits_ext; [intros b; reflexivity|].
    by apply emits_append_string.
Qed.

(** [c] reads the bytes [bs] and its result satisfies [P]. *)
Definition parses {A} (m0 : mem) (c : buffer -> M (Z * A * buffer)) (bs : list Z)
    (P : A -> mem -> Prop) : Prop :=
  forall b m rest, grows m0 m -> buf_wf b -> buf_rest b = bs ++ rest ->
    wp (c b) (fun r m' => exists a, r = (0, a, with_pos b (buf_pos b + Z.of_nat (length bs))) /\
                grows m m' /\ P a m') m.

Lemma parses_num m0 (r : buffer -> M (Z * option Z * buffer)) bs n v f (P : value -> mem -> Prop) :
  reads r bs n -> (exists x, v = VNum x) -> (forall m, P (VNum (f n)) m) ->
  parses m0 (fun b => read_num (r b) v f) bs P.
Proof.
  intros Hr [x ->] HP b m rest G W Hb. unfold read_num. apply wp_bind, wp_ret, wp_bind.
  eapply wp_mono; [by eapply Hr|]. intros ? m' [-> ->]. apply wp_ret. eexists.
  split; [done|]. split; [apply grows_refl, G|apply HP].
Qed.

Lemma parses_decode_value `{!AmpleMemory AL} m0 desc v a :
  value_shape (field_type (fd_type desc)) v -> aval_ok desc a ->
  parses m0 (obus_decode_value desc v) (value_wire desc a)
    (fun v' m' => denotes m' v' (aval_back desc a)).
Proof.
  unfold aval_ok, value_wire, obus_decode_value, aval_back, value_shape. intros Hs Ho.
  destruct a as [y|o].
  - destruct (field_type (fd_type desc)); try done; destruct v as [x|s]; try done;
      cbn [type_width] in Ho.
    1, 2: (apply (parses_num _ _ _ y); [exact (reads_u8 y)|by eexists|by intros m]).
    1, 2: (apply (parses_num _ _ _ y); [exact (reads_u16 y Ho)|by eexists|by intros m]).
    1, 2: (apply (parses_num _ _ _ y); [exact (reads_u32 y Ho)|by eexists|by intros m]).
    1, 2: (apply (parses_num _ _ _ y); [exact (reads_u64 y Ho)|by eexists|by intros m]).
    + apply (parses_num _ _ _ (u32 (ed_get_value (fd_enum_drv desc) y)));
        [apply reads_u32, u32_range|by eexists|by intros m].
    + apply (parses_num _ _ _ (if y =? 0 then 0 else 1)); [apply reads_u8|by eexists|].
      intros m. cbn. by destruct (y =? 0).
    + apply (parses_num _ _ _ y); [exact (reads_u32 y Ho)|by eexists|by intros m].
    + apply (parses_num _ _ _ y); [exact (reads_u64 y Ho)|by eexists|by intros m].
  - destruct (field_type (fd_type desc)); try done. destruct v as [x|s]; [done|].
    intros b m rest G W Hb. apply wp_bind, wp_ret, wp_bind.
    eapply wp_mono; [by eapply reads_string|]. intros ? m' (s' & -> & Hn & Hc).
    apply wp_ret. eexists. split; [done|]. split; [|exact Hc].
    eapply new_string_grows; [apply G|exact Hn].
Qed.

(** Decoding arbitrary bytes: no undefined behaviour, a value of the same type,
    a code that is 0 or negative, a position within the buffer. *)
Definition moved (b b' : buffer) : Prop :=
  exists p, b' = with_pos b p /\ 0 <= p <= buf_size b.

Definition ok_code (ret : Z) : Prop := ret = 0 \/ failed ret = true.

Lemma moved_refl b : buf_wf b -> moved b b.
Proof. intros W. wf_facts b W. exists (buf_pos b). split; [by destruct b|lia]. Qed.

Lemma moved_trans b1 b2 b3 : moved b1 b2 -> moved b2 b3 -> moved b1 b3.
Proof. intros (p & -> & _) (q & -> & Hq). exists q. split; [done|exact Hq]. Qed.

Lemma moved_wf b b' : buf_wf b -> moved b b' -> buf_wf b'.
Proof. intros W (p & -> & Hp). by apply buf_wf_with_pos. Qed.

Lemma wp_read_moved {A} (c : buffer -> M (Z * option A * buffer)) P lim b m
    (Q : Z * option A * buffer -> mem -> Prop) :
  reads_safely c P lim -> lim b <= buf_size b -> buf_wf b ->
  (forall ret, failed ret = true -> Q (ret, None, b) m) ->
  (forall a b', P a -> moved b b' -> Q (0, Some a, b') m) ->
  wp (c b) Q m.
Proof.
  intros Hc Hl W H1 H2. wf_facts b W.
  eapply (wp_read_safely c P lim); [done|done|exact H1|].
  intros a p Ha Hp. apply H2; [done|]. exists p. split; [done|lia].
Qed.

Definition decodes_safely {A} (c : buffer -> M (Z * A * buffer)) (P : A -> Prop) : Prop :=
  forall b m, buf_wf b -> mem_wf m ->
    wp (c b) (fun r m' => let '(ret, a, b') := r in
       ok_code ret /\ moved b b' /\ grows m m' /\ P a) m.

Lemma read_num_safely (r : buffer -> M (Z * option Z * buffer)) (R P : Z -> Prop) lim v f :
  reads_safely r R lim -> (forall b, buf_wf b -> lim b <= buf_size b) ->
  (exists x, v = VNum x /\ P x) -> (forall n, R n -> P (f n)) ->
  decodes_safely (fun b => read_num (r b) v f) (fun v' => exists x, v' = VNum x /\ P x).
Proof.
  intros Hr Hl (x & -> & Hx) Hf b m W Wm. unfold read_num. apply wp_bind, wp_ret, wp_bind.
  eapply wp_read_moved; [exact Hr|by apply Hl|done|intros ret Hret|intros a b' Ha Hb];
    apply wp_ret; cbn; split_and!; try done; try (by apply grows_refl).
  - by right.
  - by apply moved_refl.
  - by eexists.
  - by left.
  - eexists. split; [done|by apply Hf].
Qed.

Lemma decodes_safely_mono {A} (c : buffer -> M (Z * A * buffer)) (P P' : A -> Prop) :
  (forall a, P a -> P' a) -> decodes_safely c P -> decodes_safely c P'.
Proof.
  intros Hp Hc b m W Wm. eapply wp_mono; [by apply Hc|]. intros [[ret a] b'] m' (? & ? & ? & ?).
  split_and!; [done..|by apply Hp].
Qed.

Lemma wf_len_size b : buf_wf b -> buf_length b <= buf_size b.
Proof. intros W. apply W. Qed.

(** A scalar read by the reader whose safety is [Hr]. *)
Ltac num_case P Hr :=
  apply (decodes_safely_mono _ (fun v' => exists y, v' = VNum y /\ P y));
  [by intros ? (y & -> & Hy)
  |apply (read_num_safely _ _ _ _ _ _ Hr);
   [first [exact wf_len_size|by intros]|by eexists|by intros n Hn]].

Lemma decode_value_safely desc v :
  value_shape (field_type (fd_type desc)) v ->
  decodes_safely (obus_decode_value desc v) (value_shape (field_type (fd_type desc))).
Proof.
  unfold obus_decode_value, value_shape. intros Hs.
  destruct (field_type (fd_type desc)) eqn:Et; destruct v as [x|s]; try done.
  1, 2: num_case (fun n => 0 <= n < 2 ^ 8) reads_u8_safely.
  1, 2: num_case (fun n => 0 <= n < 2 ^ 16) reads_u16_safely.
  1, 2: num_case (fun n => 0 <= n < 2 ^ 32) reads_u32_safely.
  1, 2: num_case (fun n => 0 <= n < 2 ^ 64) reads_u64_safely.
  1: num_case (fun n : Z => True) reads_u32_safely.
  3: num_case (fun n => 0 <= n < 2 ^ 32) reads_u32_safely.
  3: num_case (fun n => 0 <= n < 2 ^ 64) reads_u64_safely.
  - intros b m W Wm. apply wp_bind, wp_ret, wp_bind.
    eapply wp_mono; [by apply wp_read_string|].
    intros [[ret o] b'] m' ((p & -> & Hp & _) & Ho). apply wp_ret.
    wf_facts b W. split_and!.
    + destruct o as [s'|]; [|by right; apply Ho].
      destruct Ho as (_ & _ & Ho). destruct (failed ret) eqn:E; [by right|left; by apply Ho].
    + exists p. split; [done|lia].
    + destruct o as [s'|]; [by eapply new_string_grows; [|apply Ho]|].
      apply same_blocks_grows; [done|apply Ho].
    + by destruct o.
  - apply (decodes_safely_mono _ (fun v' => exists y, v' = VNum y /\ 0 <= y < 2 ^ 8));
      [by intros ? (y & -> & Hy)|].
    apply (read_num_safely _ _ _ _ _ _ reads_u8_safely wf_len_size); [by eexists|].
    intros n _. destruct (n =? 0); lia.
  - intros b m W Wm. apply wp_ret. split_and!; [by right|by apply moved_refl|by apply grows_refl|apply Hs..].
Qed.
End ValueSpecs.

(** ** Fields: abstract contents and wire image *)

Inductive fval :=
| FScalar (a : aval)
| FArray (l : list aval).

Definition fval_ok (f : obus_field_desc) (c : fval) : Prop :=
  match c with
  | FScalar a => aval_ok f a
  | FArray l => Forall (aval_ok f) l /\ Z.of_nat (length l) < 2 ^ 32
  end.

Definition payload_wire (f : obus_field_desc) (c : fval) : list Z :=
  match c with
  | FScalar a => value_wire f a
  | FArray l => be_bytes 4 (Z.of_nat (length l)) ++ concat (map (value_wire f) l)
  end.

Definition field_wire (f : obus_field_desc) (c : fval) : list Z :=
  be_bytes 2 (fd_uid f) ++ [fd_type f] ++ payload_wire f c.

Definition fval_back (f : obus_field_desc) (c : fval) : fval :=
  match c with
  | FScalar a => FScalar (aval_back f a)
  | FArray l => FArray (map (aval_back f) l)
  end.

(** The field of a structure holds the contents [c]. *)
Definition field_denotes (m : mem) (mm : gmap Z cell) (f : obus_field_desc) (c : fval) : Prop :=
  match c with
  | FScalar a => is_array (fd_type f) = false /\
      exists v, mm !! fd_offset f = Some (CVal v) /\ denotes m v a
  | FArray l => is_array (fd_type f) = true /\
      mm !! fd_nb_offset f = Some (CVal (VNum (Z.of_nat (length l)))) /\
      exists arr, mm !! fd_offset f = Some (CArr arr) /\
        (l = [] \/ exists vs, arr = Some vs /\ Forall2 (denotes m) vs l)
  end.

Lemma field_denotes_impl m m' mm f c :
  (forall v a, denotes m v a -> denotes m' v a) -> field_denotes m mm f c -> field_denotes m' mm f c.
Proof.
  intros G. destruct c as [a|l]; cbn.
  - intros (H & v & Hv & Hd). split; [done|]. exists v. split; [done|]. by apply G.
  - intros (H & Hn & arr & Ha & Hl). split; [done|]. split; [done|]. exists arr. split; [done|].
    destruct Hl as [->|(vs & -> & Hvs)]; [by left|right]. exists vs. split; [done|].
    eapply Forall2_impl; [exact Hvs|]. exact G.
Qed.

Lemma field_denotes_grows m m' mm f c :
  grows m m' -> field_denotes m mm f c -> field_denotes m' mm f c.
Proof. intros G. apply field_denotes_impl. intros v a. by apply denotes_grows. Qed.

Lemma field_denotes_same m m' mm f c :
  same_blocks m m' -> field_denotes m mm f c -> field_denotes m' mm f c.
Proof. intros G. apply field_denotes_impl. intros v a. by apply denotes_same. Qed.

Lemma field_denotes_ext m mm mm' f c :
  (forall off, off ∈ field_offsets f -> mm' !! off = mm !! off) ->
  field_denotes m mm f c -> field_denotes m mm' f c.
Proof.
  intros He. unfold field_offsets in He. destruct c as [a|l]; cbn.
  - intros (H & v & Hv & Hd). split; [done|]. exists v. rewrite H in He.
    rewrite He by set_solver. done.
  - intros (H & Hn & arr & Ha & Hl). split; [done|]. rewrite H in He.
    rewrite !He by set_solver. split; [done|]. by exists arr.
Qed.

Lemma length_indices n : 0 <= n -> Z.of_nat (length (indices n)) = n.
Proof. intros. unfold indices. rewrite length_map, length_seq. lia. Qed.

Lemma indices_split n pre x post :
  indices n = pre ++ x :: post -> x = Z.of_nat (length pre) /\ (length pre < Z.to_nat n)%nat.
Proof.
  intros H. unfold indices in H.
  assert ((Z.of_nat <$> seq 0 (Z.to_nat n)) !! length pre = Some x) as Hx.
  { change (fmap (FMap := list_fmap) Z.of_nat (seq 0 (Z.to_nat n))) with (map Z.of_nat (seq 0 (Z.to_nat n))).
    rewrite H. by apply list_lookup_middle. }
  rewrite list_lookup_fmap in Hx. destruct (seq 0 (Z.to_nat n) !! length pre) eqn:E; [|done].
  apply lookup_seq in E as [-> ?]. cbn in Hx. injection Hx as <-. done.
Qed.

Lemma after_read b bs rest :
  buf_wf b -> buf_rest b = bs ++ rest ->
  buf_wf (with_pos b (buf_pos b + Z.of_nat (length bs))) /\
  buf_rest (with_pos b (buf_pos b + Z.of_nat (length bs))) = rest.
Proof.
  intros W Hr. wf_facts b W. split.
  - apply buf_wf_with_pos; [done|]. destruct bs as [|x bs]; [cbn; lia|].
    pose proof (rest_bound b (x :: bs) rest W ltac:(done) Hr). lia.
  - rewrite buf_rest_with_pos, Hr, Nat2Z.id by lia. apply drop_app_length.
Qed.

Section Items.
Context {AL : Allocator}.

Lemma strides f : field_desc_ok f -> 0 < item_stride f <= alloc_stride f.
Proof.
  intros F. pose proof (fo_known _ F) as Hk. pose proof (fo_enum _ F) as He.
  unfold alloc_stride, item_stride in *.
  destruct (field_type (fd_type f)); try lia; [by apply He|done].
Qed.

Lemma wp_item_get f vs i v m (Q : value -> mem -> Prop) :
  field_desc_ok f -> 0 <= i -> vs !! Z.to_nat i = Some v -> Q v m ->
  wp (item_get f vs i) Q m.
Proof.
  intros F Hi Hv HQ. pose proof (strides f F). unfold item_get.
  pose proof (lookup_lt_Some _ _ _ Hv).
  rewrite (proj2 (Z.leb_le _ _)) by nia. by eapply wp_lift.
Qed.

Lemma wp_item_set f vs i v0 v m (Q : list value -> mem -> Prop) :
  field_desc_ok f -> 0 <= i -> vs !! Z.to_nat i = Some v0 -> Q (<[Z.to_nat i := v]> vs) m ->
  wp (item_set f vs i v) Q m.
Proof.
  intros F Hi Hv HQ. unfold item_set. apply wp_bind. eapply wp_item_get; [done..|].
  by apply wp_ret.
Qed.

Lemma array_item_some f vs i :
  field_desc_ok f -> obus_field_array_item f (Some vs) i = ItemAt i.
Proof.
  intros F. pose proof (fo_known _ F). unfold obus_field_array_item.
  by destruct (field_type (fd_type f)).
Qed.

Lemma emits_for_each {A} m (body : A -> buffer -> M (Z * buffer)) xs bss :
  Forall2 (fun x bs => emits m (body x) bs) xs bss ->
  emits m (for_each xs body) (concat bss).
Proof.
  intros H. induction H as [|x bs xs bss Hx _ IH]; cbn; [apply emits_ret|].
  by apply (emits_seq m (body x) (for_each xs body)).
Qed.

Lemma emits_encode_items m f vs l :
  field_desc_ok f -> Forall2 (denotes m) vs l -> Forall (aval_ok f) l ->
  emits m (for_each (indices (Z.of_nat (length l))) (encode_item f (Some vs)))
    (concat (map (value_wire f) l)).
Proof.
  intros F Hd Ho. apply emits_for_each. apply Forall2_same_length_lookup_2.
  { rewrite length_map. pose proof (length_indices (Z.of_nat (length l)) ltac:(lia)). lia. }
  intros k x bs Hx Hb.
  assert (exists a, l !! k = Some a /\ bs = value_wire f a) as (a & Ha & ->).
  { change (map (value_wire f) l) with (value_wire f <$> l) in Hb.
    rewrite list_lookup_fmap in Hb. destruct (l !! k) as [a|]; [|done]. injection Hb as <-. by exists a. }
  apply list_elem_of_split_length in Hx as (pre & post & Hp & Hk).
  apply indices_split in Hp as [-> _]. rewrite <- Hk.
  destruct (Forall2_lookup_r _ _ _ _ _ Hd Ha) as (v & Hv & Hva).
  assert (aval_ok f a) as Hoa by (by eapply Forall_lookup_1).
  intros b m1 Hm W. unfold encode_item. rewrite array_item_some by done. cbn [default].
  apply wp_bind. apply (wp_item_get _ _ _ v); [done|lia|by rewrite Nat2Z.id|].
  by apply (emits_encode_value m f v a).
Qed.

Lemma emits_array_encode m st f l :
  field_desc_ok f -> field_denotes m (st_mem st) f (FArray l) -> fval_ok f (FArray l) ->
  emits m (obus_field_array_encode st f) (payload_wire f (FArray l)).
Proof.
  intros F (Ha & Hn & arr & Harr & Hl) [Ho Hlen].
  eapply (emits_ext m (fun b => '(ret, b) ← obus_buffer_append_u32 b (Z.of_nat (length l));
    if failed ret then mret (ret, b) else
    for_each (indices (Z.of_nat (length l))) (encode_item f arr) b)).
  { intros b. unfold obus_field_array_encode, get_arr, get_num, get_val, obus_field_address,
      obus_field_array_nb_address. rewrite Harr, Hn. reflexivity. }
  apply (emits_seq m (fun b => obus_buffer_append_u32 b _)
           (for_each (indices (Z.of_nat (length l))) (encode_item f arr)));
    [apply emits_append_u32|].
  destruct Hl as [->|(vs & -> & Hvs)]; [apply emits_ret|by apply emits_encode_items].
Qed.

Lemma emits_field_encode m st f c :
  field_desc_ok f -> field_denotes m (st_mem st) f c -> fval_ok f c ->
  emits m (obus_field_encode st f) (field_wire f c).
Proof.
  intros F Hd Ho.
  assert (emits m (fun buf => if is_array (fd_type f) then obus_field_array_encode st f buf
      else v ← get_val st (obus_field_address f); obus_encode_value f v buf)
    (payload_wire f c)) as Hp.
  { destruct c as [a|l].
    - destruct Hd as (Ha & v & Hv & Hd).
      eapply (emits_ext m (fun b => obus_encode_value f v b)); [|by apply emits_encode_value].
      intros b. rewrite Ha. unfold get_val, obus_field_address. by rewrite Hv.
    - pose proof Hd as (Ha & _). eapply (emits_ext m (fun b => obus_field_array_encode st f b)).
      + intros b. by rewrite Ha.
      + by apply emits_array_encode. }
  exact (emits_seq m _ _ _ _ (emits_append_u16 m (fd_uid f))
           (emits_seq m _ _ _ _ (emits_append_u8 m _ (fo_type _ F)) Hp)).
Qed.
End Items.

Section DecodeField.
Context {AL : Allocator}.

Lemma decode_value_both `{!AmpleMemory AL} m0 f v a :
  value_shape (field_type (fd_type f)) v -> aval_ok f a ->
  parses m0 (obus_decode_value f v) (value_wire f a)
    (fun v' m' => denotes m' v' (aval_back f a) /\ value_shape (field_type (fd_type f)) v').
Proof.
  intros Hs Ho b m rest G W Hr.
  eapply wp_mono; [apply wp_and;
    [by eapply (parses_decode_value m0)|by apply decode_value_safely; [|done|apply G]]|].
  intros r m' [(v' & -> & G' & Hd) (_ & _ & _ & Hv)]. by exists v'.
Qed.

Lemma wp_array_alloc f n m (Q : option (list value) -> mem -> Prop) :
  field_desc_ok f -> 0 < n ->
  (forall m', same_blocks m m' -> (refused (n * alloc_stride f)) -> Q None m') ->
  (forall m' vs, same_blocks m m' -> length vs = Z.to_nat n ->
     Forall (fun v => v = VStr CEmpty \/ v = VNum 0) vs ->
     Forall (value_shape (field_type (fd_type f))) vs -> Q (Some vs) m') ->
  wp (obus_field_array_alloc f n) Q m.
Proof.
  intros F Hn H1 H2. pose proof (fo_known _ F) as Hk. unfold obus_field_array_alloc.
  destruct (field_type (fd_type f)) eqn:Et; try done;
    (apply wp_bind, wp_alloc; intros k m' Hs Hok; apply wp_ret;
     [apply H2; [done|apply length_replicate|apply Forall_replicate; by auto
                |apply Forall_replicate; cbn; by (lia || auto)]
     |apply H1; [done|]; exists k, (n * alloc_stride f); split; [lia|done]]).
Qed.

Lemma take_S_insert_Forall2 {A B} (R : A -> B -> Prop) (l : list A) (l' : list B) k x y :
  (k < length l)%nat -> l' !! k = Some y -> Forall2 R (take k l) (take k l') -> R x y ->
  Forall2 R (take (S k) (<[k := x]> l)) (take (S k) l').
Proof.
  intros Hk Hy H Hxy. rewrite take_S_insert by done. rewrite (take_S_r l' k y Hy).
  apply Forall2_app; [done|by constructor].
Qed.

(** Invariant of the item loop: the first [k] items are decoded. *)
Definition items_inv m0 f (l : list aval) (b : buffer) (k : nat)
    (s : option (list value) * buffer) (m : mem) : Prop :=
  grows m0 m /\
  (exists vs, fst s = Some vs /\ length vs = length l /\
     Forall (value_shape (field_type (fd_type f))) vs /\
     Forall2 (denotes m) (take k vs) (take k (map (aval_back f) l))) /\
  snd s = with_pos b (buf_pos b + Z.of_nat (length (concat (map (value_wire f) (take k l))))).

Lemma wp_decode_item `{!AmpleMemory AL} m0 f l b rest k s m :
  field_desc_ok f -> Forall (aval_ok f) l -> buf_wf b ->
  buf_rest b = concat (map (value_wire f) l) ++ rest -> (k < length l)%nat ->
  items_inv m0 f l b k s m ->
  wp (decode_item f (Z.of_nat k) s)
    (fun r m' => fst r = 0 /\ items_inv m0 f l b (S k) (snd r) m') m.
Proof.
  intros F Ho W Hr Hk (G & (vs & Hs & Hlen & Hsh & Hd) & Hb). destruct s as [arr b1]; cbn in *; subst.
  destruct (lookup_lt_is_Some_2 l k Hk) as [a Ha].
  destruct (lookup_lt_is_Some_2 vs k ltac:(lia)) as [v Hv].
  pose proof (take_drop_middle l k a Ha) as Hsplit.
  rewrite <- Hsplit, map_app, concat_app, <- app_assoc in Hr. cbn [map concat] in Hr.
  destruct (after_read b _ _ W Hr) as [W1 Hr1]. rewrite <- app_assoc in Hr1.
  unfold decode_item. rewrite array_item_some by done. cbn [default].
  apply wp_bind. apply (wp_item_get _ _ _ v); [done|lia|by rewrite Nat2Z.id|]. apply wp_bind.
  eapply wp_mono; [eapply (decode_value_both m f v a); [by eapply Forall_lookup_1|
    by eapply Forall_lookup_1|apply grows_refl, G|exact W1|exact Hr1]|].
  intros r m' (v' & -> & G' & Hd' & Hs'). apply wp_bind.
  apply (wp_item_set _ _ _ v); [done|lia|by rewrite Nat2Z.id|]. apply wp_ret.
  cbn [fst snd]. rewrite Nat2Z.id. split; [done|]. split; [by eapply grows_trans|]. split.
  - exists (<[k := v']> vs). split; [done|]. rewrite length_insert. split; [done|].
    split; [by apply Forall_insert|].
    apply (take_S_insert_Forall2 _ _ _ _ _ (aval_back f a)); [lia| |eapply Forall2_impl; [exact Hd|]|done].
    + change (map (aval_back f) l) with (aval_back f <$> l). by rewrite list_lookup_fmap, Ha.
    + intros x y. by apply denotes_grows.
  - cbn [snd]. rewrite (take_S_r l k a Ha), map_app, concat_app, length_app. cbn.
    rewrite app_nil_r. unfold with_pos. cbn. f_equal. lia.
Qed.

(** What decoding the field [f] into [st] produces. *)
Definition decoded f (c : fval) (st st' : obus_struct) (m' : mem) : Prop :=
  changes_at (field_offsets f) st st' /\ field_shape (st_mem st') f /\
  field_denotes m' (st_mem st') f c.

Lemma decoded_array f vs l n st arr m :
  n = Z.of_nat (length l) ->
  field_desc_ok f -> is_array (fd_type f) = true -> fd_offset f <> fd_nb_offset f ->
  length vs = length l -> Z.of_nat (length l) < 2 ^ 32 ->
  Forall (value_shape (field_type (fd_type f))) vs -> Forall2 (denotes m) vs l ->
  (arr = Some vs \/ arr = None /\ l = []) ->
  decoded f (FArray l) st
    (st_set (st_set st (fd_nb_offset f) (CVal (VNum n))) (fd_offset f) (CArr arr)) m.
Proof.
  intros -> F Ha Hne Hlen Hmax Hsh Hd Harr. split; [|split].
  - eapply changes_at_trans; apply changes_at_set;
      [by apply elem_of_field_nb_offset|apply elem_of_field_offset].
  - unfold field_shape. rewrite Ha. cbn. split.
    + exists arr. rewrite lookup_insert_eq. split; [done|]. intros l' ->.
      destruct Harr as [[= ->]|[? _]]; done.
    + exists (Z.of_nat (length l)). rewrite lookup_insert_ne, lookup_insert_eq by done.
      split; [done|lia].
  - split; [done|]. cbn. rewrite lookup_insert_ne, lookup_insert_eq by done. split; [done|].
    exists arr. rewrite lookup_insert_eq. split; [done|].
    destruct Harr as [->|[-> ->]]; [right; by exists vs|by left].
Qed.

(** The loop over the items reads them all, into the array allocated. *)
Lemma wp_decode_items `{!AmpleMemory AL} f l b rest vs m :
  field_desc_ok f -> Forall (aval_ok f) l -> mem_wf m -> buf_wf b ->
  buf_rest b = concat (map (value_wire f) l) ++ rest -> length vs = length l ->
  Forall (value_shape (field_type (fd_type f))) vs ->
  wp (for_each (indices (Z.of_nat (length l))) (decode_item f) (Some vs, b))
    (fun r m' => fst r = 0 /\ items_inv m f l b (length l) (snd r) m') m.
Proof.
  intros F Ho Wm W Hr Hl Hs.
  assert (length (indices (Z.of_nat (length l))) = length l) as Hil.
  { pose proof (length_indices (Z.of_nat (length l)) ltac:(lia)). lia. }
  eapply wp_mono; [apply (wp_for_each (fun pre => items_inv m f l b (length pre))
    (fun _ _ _ => False)) with (done := [])|].
  - split; [by apply grows_refl|]. cbn. split; [|rewrite Z.add_0_r; by destruct b].
    exists vs. rewrite take_0. by split_and!.
  - intros pre x post s m1 Hp Hinv. cbn in Hp. apply indices_split in Hp as [-> Hk].
    eapply wp_mono; [apply (wp_decode_item m f l b rest); try done; lia|].
    intros [ret s'] m2 [Hret Hinv']. cbn in Hret. subst ret. cbn [failed Z.ltb Z.compare].
    rewrite length_app, Nat.add_1_r. exact Hinv'.
  - intros [ret s] m2 [[-> Hinv]|[_ []]]. cbn [app] in Hinv. by rewrite Hil in Hinv.
Qed.

Lemma parses_array_decode `{!AmpleMemory AL} m0 st f i l :
  struct_shape st -> sd_fields (st_desc st) !! i = Some f -> is_array (fd_type f) = true ->
  fval_ok f (FArray l) ->
  parses m0 (obus_field_array_decode st f) (payload_wire f (FArray l))
    (decoded f (FArray (map (aval_back f) l)) st).
Proof.
  intros SS Hi Ha [Ho Hlen] b m rest G W Hr. cbn [payload_wire] in *.
  pose proof (Forall_lookup_1 _ _ _ _ (do_fields _ (ss_desc _ SS)) Hi) as F.
  pose proof (field_offsets_neq _ _ _ (ss_desc _ SS) Hi Ha) as Hne.
  pose proof (Forall_lookup_1 _ _ _ _ (ss_fields _ SS) Hi) as Hsh.
  unfold field_shape in Hsh. rewrite Ha in Hsh. destruct Hsh as [(a0 & Ha0 & _) (n0 & Hn0 & _)].
  rewrite <- app_assoc in Hr. destruct (after_read b _ _ W Hr) as [W1 Hr1].
  set (n := Z.of_nat (length l)) in *.
  unfold obus_field_array_decode, obus_field_address, obus_field_array_nb_address.
  apply wp_bind. eapply wp_get_arr; [exact Ha0|]. apply wp_bind.
  eapply wp_mono; [eapply (reads_u32 n); [lia|done|exact Hr]|]. intros r m' [-> ->].
  apply wp_bind. eapply wp_set_val; [exact Hn0|].
  rewrite length_app, Nat2Z.inj_add.
  destruct (Z.ltb_spec 0 n) as [Hpos|Hzero].
  - apply wp_bind. apply wp_array_alloc; [done|done| |].
    { intros m' _ Hf. exfalso. eapply ample_not_refused; [|exact Hf].
      assert (alloc_stride f <= 8).
      { unfold alloc_stride, item_stride. by destruct (field_type (fd_type f)). }
      pose proof (strides f F). unfold PTRDIFF_MAX. nia. }
    intros m' vs Hs Hvl _ Hvs. apply wp_bind.
    eapply wp_set_arr; [cbn; by rewrite lookup_insert_ne|]. cbn [andb].
    rewrite bool_decide_false by done. cbn [negb]. apply wp_bind.
    set (b1 := with_pos b _) in *.
    assert (grows m m') as G' by (apply same_blocks_grows; [apply G|done]).
    eapply wp_mono; [apply (wp_decode_items f l b1 rest vs); try done; [apply G'|unfold n in Hvl; lia]|].
    intros [ret [arr b2]] m2 [Hret (G2 & (vs2 & E1 & Hl2 & Hsh2 & Hd2) & E2)].
    cbn [fst snd] in Hret, E1, E2. subst ret arr b2.
    rewrite !take_ge in Hd2 by (rewrite ?length_map; lia). rewrite take_ge by lia.
    cbn [failed Z.ltb Z.compare]. apply wp_bind.
    eapply wp_set_arr; [cbn; apply lookup_insert_eq|]. apply wp_ret.
    eexists. split; [|split; [by eapply grows_trans|]].
    { rewrite Z.add_assoc. reflexivity. }
    unfold st_set at 1. cbn. rewrite insert_insert_eq.
    apply (decoded_array f vs2 (map (aval_back f) l) n st (Some vs2) m2); try done;
      rewrite ?length_map; [done..|by left].
  - assert (l = []) as -> by (unfold n in Hzero; by apply nil_length_inv; lia).
    apply wp_bind, wp_ret, wp_bind. eapply wp_set_arr; [cbn; by rewrite lookup_insert_ne|].
    cbn. apply wp_bind, wp_ret. cbn [failed Z.ltb Z.compare]. apply wp_bind.
    eapply wp_set_arr; [cbn; apply lookup_insert_eq|]. apply wp_ret.
    eexists. split; [by rewrite Z.add_0_r|]. split; [apply grows_refl, G|].
    unfold st_set at 1. cbn. rewrite insert_insert_eq.
    apply (decoded_array f [] [] n st None m); try done; [constructor..|by right].
Qed.
End DecodeField.

Section SafeDecode.
Context {AL : Allocator}.

(** What any decoding of the field [f] leaves of [st]. *)
Definition kept f (st st' : obus_struct) : Prop :=
  changes_at (field_offsets f) st st' /\ field_shape (st_mem st') f.

Lemma decode_item_safely f vs b i m n :
  field_desc_ok f -> buf_wf b -> mem_wf m -> 0 <= i < n -> length vs = Z.to_nat n ->
  Forall (value_shape (field_type (fd_type f))) vs ->
  wp (decode_item f i (Some vs, b))
    (fun r m' => let '(ret, (arr, b')) := r in
       ok_code ret /\ moved b b' /\ grows m m' /\
       exists vs', arr = Some vs' /\ length vs' = Z.to_nat n /\
         Forall (value_shape (field_type (fd_type f))) vs') m.
Proof.
  intros F W Wm Hi Hl Hs. unfold decode_item. rewrite array_item_some by done. cbn [default].
  destruct (lookup_lt_is_Some_2 vs (Z.to_nat i) ltac:(lia)) as [v Hv].
  apply wp_bind. apply (wp_item_get _ _ _ v); [done|lia|done|]. apply wp_bind.
  eapply wp_mono; [apply decode_value_safely; [by eapply Forall_lookup_1|done|done]|].
  intros [[ret v'] b'] m' (Hret & Hb & Hg & Hv'). apply wp_bind.
  apply (wp_item_set _ _ _ v); [done|lia|done|]. apply wp_ret.
  split_and!; [done..|]. eexists. split; [done|]. rewrite length_insert. split; [done|].
  by apply Forall_insert.
Qed.

Lemma array_shape f st n arr :
  is_array (fd_type f) = true -> fd_offset f <> fd_nb_offset f -> 0 <= n < 2 ^ 32 ->
  (forall vs, arr = Some vs -> Forall (value_shape (field_type (fd_type f))) vs) ->
  kept f st (st_set (st_set st (fd_nb_offset f) (CVal (VNum n))) (fd_offset f) (CArr arr)).
Proof.
  intros Ha Hne Hn Hs. split.
  - eapply changes_at_trans; apply changes_at_set;
      [by apply elem_of_field_nb_offset|apply elem_of_field_offset].
  - unfold field_shape. rewrite Ha. cbn. split.
    + exists arr. by rewrite lookup_insert_eq.
    + exists n. by rewrite lookup_insert_ne, lookup_insert_eq.
Qed.

(** The loop over the items keeps an array of as many values of the type. *)
Lemma decode_items_safely f n vs b m :
  field_desc_ok f -> buf_wf b -> mem_wf m -> length vs = Z.to_nat n ->
  Forall (value_shape (field_type (fd_type f))) vs ->
  wp (for_each (indices n) (decode_item f) (Some vs, b))
    (fun r m' => let '(ret, (arr, b')) := r in
       ok_code ret /\ moved b b' /\ grows m m' /\
       exists vs', arr = Some vs' /\ length vs' = Z.to_nat n /\
         Forall (value_shape (field_type (fd_type f))) vs') m.
Proof.
  intros F W Wm Hl Hs.
  set (I := fun (s : option (list value) * buffer) (m2 : mem) => moved b (snd s) /\ grows m m2 /\
    exists vs', fst s = Some vs' /\ length vs' = Z.to_nat n /\
      Forall (value_shape (field_type (fd_type f))) vs').
  eapply wp_mono; [apply (wp_for_each (fun _ => I) (fun _ => I)) with (done := [])|].
  - split_and!; [by apply moved_refl|by apply grows_refl|by exists vs].
  - intros pre x post [arr b2] m1 Hp (Hb2 & Hg & vs' & Hvs' & Hl' & Hsh').
    cbn in Hp, Hb2, Hvs'. subst arr. apply indices_split in Hp as [-> Hk].
    eapply wp_mono; [apply (decode_item_safely _ _ _ _ _ n); try done; [|apply Hg|lia]|].
    { by eapply moved_wf. }
    intros [ret [arr b3]] m2 (Hret & Hb3 & Hg3 & vs3 & -> & ? & ?).
    assert (I (Some vs3, b3) m2) as HI.
    { split_and!; [by eapply moved_trans|by eapply grows_trans|by exists vs3]. }
    by destruct (failed ret).
  - intros [ret [arr b3]] m2 [[-> HI]|[Hf HI]]; (split; [|exact HI]); [by left|by right].
Qed.

Lemma array_decode_safely st f i :
  struct_shape st -> sd_fields (st_desc st) !! i = Some f -> is_array (fd_type f) = true ->
  decodes_safely (obus_field_array_decode st f) (kept f st).
Proof.
  intros SS Hi Ha b m W Wm.
  pose proof (Forall_lookup_1 _ _ _ _ (do_fields _ (ss_desc _ SS)) Hi) as F.
  pose proof (field_offsets_neq _ _ _ (ss_desc _ SS) Hi Ha) as Hne.
  pose proof (Forall_lookup_1 _ _ _ _ (ss_fields _ SS) Hi) as Hsh0. pose proof Hsh0 as Hsh.
  unfold field_shape in Hsh. rewrite Ha in Hsh. destruct Hsh as [(a0 & Ha0 & _) (n0 & Hn0 & _)].
  unfold obus_field_array_decode, obus_field_address, obus_field_array_nb_address.
  apply wp_bind. eapply wp_get_arr; [exact Ha0|]. apply wp_bind.
  eapply wp_read_moved; [exact reads_u32_safely|by apply wf_len_size|done| |].
  { intros ret Hret. apply wp_ret. split_and!; [by right|by apply moved_refl|by apply grows_refl|].
    split; [apply changes_at_refl|done]. }
  intros n b1 Hn Hb1. pose proof (moved_wf _ _ W Hb1) as W1.
  apply wp_bind. eapply wp_set_val; [exact Hn0|].
  assert (forall arr ret b' m', (forall vs, arr = Some vs -> Forall (value_shape (field_type (fd_type f))) vs) ->
    ok_code ret -> moved b1 b' -> grows m m' ->
    ok_code ret /\ moved b b' /\ grows m m' /\
    kept f st (st_set (st_set st (fd_nb_offset f) (CVal (VNum n))) (fd_offset f) (CArr arr))) as Hend.
  { intros arr ret b' m' Hs ? ? ?. split_and!; [done|by eapply moved_trans|done|].
    by apply array_shape. }
  destruct (Z.ltb_spec 0 n) as [Hpos|Hzero]; cbn [andb].
  - apply wp_bind, wp_array_alloc; [done|done| |].
    { intros m' Hs _. apply wp_bind. eapply wp_set_arr; [cbn; by rewrite lookup_insert_ne|].
      rewrite bool_decide_true by done. apply wp_ret.
      apply Hend; [done|by right|by apply moved_refl|by apply same_blocks_grows]. }
    intros m' vs Hs Hvl _ Hvs. apply wp_bind.
    eapply wp_set_arr; [cbn; by rewrite lookup_insert_ne|].
    rewrite bool_decide_false by done. apply wp_bind.
    assert (grows m m') as G' by by apply same_blocks_grows.
    eapply wp_mono; [apply decode_items_safely; try done; apply G'|].
    intros [ret [arr b3]] m2 (Hret & Hb3 & Hg3 & vs3 & -> & _ & ?).
    apply wp_bind. eapply wp_set_arr; [cbn; apply lookup_insert_eq|]. apply wp_ret.
    unfold st_set at 1. cbn. rewrite insert_insert_eq.
    apply Hend; [|done..|by eapply grows_trans].
    intros vs4. destruct (failed ret); [done|]. by intros [= <-].
  - apply wp_bind, wp_ret, wp_bind. eapply wp_set_arr; [cbn; by rewrite lookup_insert_ne|].
    assert (indices n = []) as ->.
    { unfold indices. by replace (Z.to_nat n) with 0%nat by lia. }
    cbn. apply wp_bind, wp_ret. cbn [failed Z.ltb Z.compare]. apply wp_bind.
    eapply wp_set_arr; [cbn; apply lookup_insert_eq|]. apply wp_ret.
    unfold st_set at 1. cbn. rewrite insert_insert_eq.
    apply Hend; [done|by left|by apply moved_refl|by apply grows_refl].
Qed.

Lemma field_scalar st f i :
  struct_shape st -> sd_fields (st_desc st) !! i = Some f -> is_array (fd_type f) = false ->
  exists v, st_mem st !! fd_offset f = Some (CVal v) /\ value_shape (field_type (fd_type f)) v.
Proof.
  intros SS Hi Ha. pose proof (Forall_lookup_1 _ _ _ _ (ss_fields _ SS) Hi) as Hsh.
  unfold field_shape in Hsh. by rewrite Ha in Hsh.
Qed.

Lemma scalar_kept st f v :
  is_array (fd_type f) = false -> value_shape (field_type (fd_type f)) v ->
  kept f st (st_set st (fd_offset f) (CVal v)).
Proof.
  intros Ha Hv. split; [apply changes_at_set, elem_of_field_offset|].
  unfold field_shape. rewrite Ha. exists v. cbn. by rewrite lookup_insert_eq.
Qed.

Lemma decode_payload_safely st f i :
  struct_shape st -> sd_fields (st_desc st) !! i = Some f ->
  decodes_safely (decode_payload st f) (kept f st).
Proof.
  intros SS Hi. unfold decode_payload. destruct (is_array (fd_type f)) eqn:Ha.
  - by eapply array_decode_safely.
  - intros b m W Wm. destruct (field_scalar _ _ _ SS Hi Ha) as (v & Hv & Hs).
    apply wp_bind. eapply wp_get_val; [exact Hv|]. apply wp_bind.
    eapply wp_mono; [by apply decode_value_safely|].
    intros [[ret v'] b'] m' (? & ? & ? & ?). apply wp_bind.
    eapply wp_set_val; [exact Hv|]. apply wp_ret. split_and!; [done..|by apply scalar_kept].
Qed.

Lemma parses_payload `{!AmpleMemory AL} m0 st f i c :
  struct_shape st -> sd_fields (st_desc st) !! i = Some f -> fval_ok f c ->
  match c with FScalar _ => is_array (fd_type f) = false | FArray _ => is_array (fd_type f) = true end ->
  parses m0 (decode_payload st f) (payload_wire f c) (decoded f (fval_back f c) st).
Proof.
  intros SS Hi Hc Hk. unfold decode_payload. destruct c as [a|l]; rewrite Hk.
  - intros b m rest G W Hr. destruct (field_scalar _ _ _ SS Hi Hk) as (v & Hv & Hs).
    apply wp_bind. eapply wp_get_val; [exact Hv|]. apply wp_bind.
    eapply wp_mono; [by eapply (decode_value_both m0 f v a)|].
    intros r m' (v' & -> & G' & Hd & Hs'). apply wp_bind.
    eapply wp_set_val; [exact Hv|]. apply wp_ret. eexists. split; [done|]. split; [done|].
    destruct (scalar_kept st f v' Hk Hs'). split_and!; [done..|]. split; [done|].
    exists v'. cbn. by rewrite lookup_insert_eq.
  - by eapply parses_array_decode.
Qed.

(** Skipping only moves the read position. *)
Lemma inc_moved b n : buf_wf b -> moved b (snd (obus_buffer_inc_read_position b n)).
Proof.
  intros W. wf_facts b W. unfold obus_buffer_inc_read_position.
  destruct (Z.ltb_spec (buf_length b) (u64 (n + buf_pos b))); [by apply moved_refl|].
  exists (u64 (buf_pos b + n)). split; [done|]. rewrite Z.add_comm in H3.
  pose proof (u64_range (buf_pos b + n)). lia.
Qed.

Lemma skip_value_safely type b m :
  buf_wf b -> wp (obus_field_skip_value type b) (fun b' m' => moved b b' /\ m' = m) m.
Proof.
  intros W. unfold obus_field_skip_value.
  destruct (field_type type); try (apply wp_ret; split; [by apply inc_moved|done]).
  - apply wp_bind. eapply wp_read_moved; [exact reads_u32_safely|by apply wf_len_size|done| |].
    + intros ret _. apply wp_ret. split; [by apply moved_refl|done].
    + intros n b' _ Hb. apply wp_ret. split; [|done]. eapply moved_trans; [exact Hb|].
      apply inc_moved. by eapply moved_wf.
  - apply wp_ret. split; [by apply moved_refl|done].
Qed.

Lemma skip_field_safely type b m :
  buf_wf b -> wp (skip_field type b) (fun b' m' => moved b b' /\ m' = m) m.
Proof.
  intros W. unfold skip_field. destruct (is_array type); [|by apply skip_value_safely].
  unfold obus_field_array_skip_value. apply wp_bind.
  eapply wp_read_moved; [exact reads_u32_safely|by apply wf_len_size|done| |].
  - intros ret _. apply wp_ret. split; [by apply moved_refl|done].
  - intros n b1 _ Hb1.
    apply (wp_for_all (fun _ b' m' => moved b b' /\ m' = m)) with (done := []); [done|].
    intros pre x post b2 m2 _ [Hb2 ->]. eapply wp_mono; [apply skip_value_safely; by eapply moved_wf|].
    intros b3 m3 [Hb3 ->]. split; [by eapply moved_trans|done].
Qed.
End SafeDecode.

Section FieldDecode.
Context {AL : Allocator}.

Definition one_field_changed (st st' : obus_struct) : Prop :=
  st' = st \/ exists j f, sd_fields (st_desc st) !! j = Some f /\ kept f st st'.

Lemma one_field_shape st st' : struct_shape st -> one_field_changed st st' -> struct_shape st'.
Proof.
  intros SS [->|(j & f & Hj & Hc & Hf)]; [done|]. by eapply struct_shape_change.
Qed.

Lemma one_field_desc st st' : one_field_changed st st' -> st_desc st' = st_desc st.
Proof. intros [->|(j & f & _ & [[Hd _] _])]; done. Qed.

Definition field_decode_post st b m (r : option nat * obus_struct * buffer) (m' : mem) : Prop :=
  let '(desc, st', b') := r in
  moved b b' /\ grows m m' /\ one_field_changed st st' /\
  match desc with Some i => (i < length (sd_fields (st_desc st)))%nat | None => True end.

Lemma wp_skip_none st st' type b b' m m' :
  buf_wf b -> moved b b' -> grows m m' -> one_field_changed st st' ->
  wp (buf ← skip_field type b'; mret (None, st', buf)) (field_decode_post st b m) m'.
Proof.
  intros W Hb Hg Hs. apply wp_bind.
  eapply wp_mono; [apply skip_field_safely; by eapply moved_wf|]. intros b2 m2 [Hb2 ->].
  apply wp_ret. split_and!; [by eapply moved_trans|done|done|done].
Qed.

(** Decoding one field from arbitrary bytes. *)
Lemma field_decode_safely st b m :
  struct_shape st -> buf_wf b -> mem_wf m ->
  wp (obus_field_decode st b) (field_decode_post st b m) m.
Proof.
  intros SS W Wm. unfold obus_field_decode. apply wp_bind.
  eapply wp_read_moved; [exact reads_u16_safely|by apply wf_len_size|done| |].
  { intros ret _. apply wp_ret. split_and!; [by apply moved_refl|by apply grows_refl|by left|done]. }
  intros uid b1 Huid Hb1. pose proof (moved_wf _ _ W Hb1) as W1. apply wp_bind.
  eapply wp_read_moved; [exact reads_u8_safely|by apply wf_len_size|done| |].
  { intros ret _. apply wp_ret. split_and!; [done|by apply grows_refl|by left|done]. }
  intros type b2 Htype Hb2. pose proof (moved_wf _ _ W1 Hb2) as W2.
  pose proof (moved_trans _ _ _ Hb1 Hb2) as Hb02. cbn zeta.
  destruct (obus_struct_get_field_desc st uid) as [i|] eqn:Ei;
    [|by apply wp_skip_none; [|done|apply grows_refl|left]].
  apply desc_index_Some in Ei as (f & _ & Hf & Hu). rewrite Nat.sub_0_r in Hf.
  apply wp_bind. eapply wp_lift; [exact Hf|].
  destruct (Z.eqb_spec (fd_type f) type) as [<-|]; cbn [negb];
    [|by apply wp_skip_none; [|done|apply grows_refl|left]].
  apply wp_bind. eapply wp_mono; [by eapply decode_payload_safely|].
  intros [[ret st'] b3] m' (Hret & Hb3 & Hg & Hk).
  assert (one_field_changed st st') as Hone by (right; by exists i, f).
  pose proof (moved_trans _ _ _ Hb02 Hb3) as Hb03.
  destruct (failed ret).
  - apply wp_skip_none; [done| |done|done].
    destruct Hb03 as (p & -> & Hp), Hb02 as (q & -> & Hq).
    unfold obus_buffer_set_read_position, obus_buffer_get_read_position. cbn.
    destruct (buf_length b <? q); cbn; [by exists p|by exists q].
  - apply wp_ret. split_and!; [done..|]. by eapply lookup_lt_Some.
Qed.

(** Decoding the wire image of a field. *)
Lemma field_decode_parses `{!AmpleMemory AL} st f i c b m rest :
  struct_shape st -> sd_fields (st_desc st) !! i = Some f -> fval_ok f c ->
  match c with FScalar _ => is_array (fd_type f) = false | FArray _ => is_array (fd_type f) = true end ->
  mem_wf m -> buf_wf b -> buf_rest b = field_wire f c ++ rest ->
  wp (obus_field_decode st b)
    (fun r m' => exists st', r = (Some i, st', with_pos b (buf_pos b + Z.of_nat (length (field_wire f c)))) /\
       grows m m' /\ decoded f (fval_back f c) st st' m') m.
Proof.
  intros SS Hi Hc Hk Wm W Hr. pose proof (ss_desc _ SS) as D.
  pose proof (Forall_lookup_1 _ _ _ _ (do_fields _ D) Hi) as F.
  unfold field_wire in *. rewrite <- !app_assoc in Hr. unfold obus_field_decode. apply wp_bind.
  eapply wp_mono; [eapply (reads_u16 (fd_uid f)); [apply F|done|exact Hr]|]. intros r m' [-> ->].
  destruct (after_read b _ _ W Hr) as [W1 Hr1]. set (b1 := with_pos b _) in *. apply wp_bind.
  eapply wp_mono; [eapply (reads_u8 (fd_type f)); [done|exact Hr1]|]. intros r m' [-> ->].
  destruct (after_read b1 _ _ W1 Hr1) as [W2 Hr2]. set (b2 := with_pos b1 _) in *. cbn zeta.
  unfold obus_struct_get_field_desc. rewrite (desc_index_lookup _ 0 i f (do_uids _ D) Hi).
  apply wp_bind. eapply wp_lift; [exact Hi|]. rewrite Z.eqb_refl. cbn [negb].
  apply wp_bind. eapply wp_mono; [eapply (parses_payload m); [done..|by apply grows_refl|done|exact Hr2]|].
  intros r m' (st' & -> & Hg & Hd). cbn [failed Z.ltb Z.compare]. apply wp_ret.
  exists st'. split; [|done]. rewrite !length_app, !Nat2Z.inj_add, !Z.add_assoc. reflexivity.
Qed.
End FieldDecode.
