(* ===== verification/Struct.v ===== *)
(** * obus_struct.c: structures, their presence bitset, encoding and merging *)
From S2P Require Import Prelude Mem Cstring Buffer Desc Field.

Section Ops.
Context {AL : Allocator}.

(** The fields of a descriptor with their index, in the order of the loops. *)
Definition fields_of (d : obus_struct_desc) : list (nat * obus_field_desc) :=
  imap pair (sd_fields d).

(** [fields[idx / 32]] and the mask of bit [idx % 32]. *)
Definition bit_word (st : obus_struct) (idx : nat) : Z := word_offset (st_desc st) (idx / 32).
Definition bit_mask (idx : nat) : Z := Z.shiftl 1 (Z.of_nat (idx mod 32)).

Definition obus_struct_has_field (st : obus_struct) (idx : nat) : M bool :=
  if sd_n_fields (st_desc st) <=? Z.of_nat idx then mret false else
  w ← get_num st (bit_word st idx);
  mret (negb (Z.land w (bit_mask idx) =? 0)).

Definition obus_struct_set_has_field (st : obus_struct) (idx : nat) : M (Z * obus_struct) :=
  if sd_n_fields (st_desc st) <=? Z.of_nat idx then mret (- EINVAL, st) else
  w ← get_num st (bit_word st idx);
  st ← set_val st (bit_word st idx) (VNum (Z.lor w (bit_mask idx)));
  mret (0, st).

Definition obus_struct_clear_has_field (st : obus_struct) (idx : nat) : M (Z * obus_struct) :=
  if sd_n_fields (st_desc st) <=? Z.of_nat idx then mret (- EINVAL, st) else
  w ← get_num st (bit_word st idx);
  st ← set_val st (bit_word st idx) (VNum (Z.land w (Z.lxor (bit_mask idx) (Z.ones 32))));
  mret (0, st).

(** Loops that or the codes of their calls. *)
Definition all_fields (f : obus_struct -> nat -> M (Z * obus_struct)) (st : obus_struct)
  : M (Z * obus_struct) :=
  for_all (seq 0 (length (sd_fields (st_desc st))))
    (fun i '(ret, st) => '(r, st) ← f st i; mret (Z.lor ret r, st)) (0, st).

Definition obus_struct_set_has_fields (st : obus_struct) : M (Z * obus_struct) :=
  all_fields obus_struct_set_has_field st.

Definition obus_struct_clear_has_fields (st : obus_struct) : M (Z * obus_struct) :=
  all_fields obus_struct_clear_has_field st.

Definition obus_struct_init (st : obus_struct) : M (Z * obus_struct) :=
  '(ret, st) ← for_each (sd_fields (st_desc st)) (fun f st => obus_field_init st f) st;
  if failed ret then mret (ret, st) else
  '(_, st) ← obus_struct_clear_has_fields st;
  mret (0, st).

Definition obus_struct_destroy (st : obus_struct) : M unit :=
  for_all (sd_fields (st_desc st)) (fun f _ => obus_field_destroy st f) tt.

Definition count_fields (st : obus_struct) : M Z :=
  for_all (seq 0 (length (sd_fields (st_desc st))))
    (fun i n => b ← obus_struct_has_field st i; mret (if b : bool then u16 (n + 1) else n)) 0.

Definition obus_struct_encode (st : obus_struct) (buf : buffer) : M (Z * buffer) :=
  n_fields ← count_fields st;
  '(ret, buf) ← obus_buffer_append_u16 buf n_fields;
  if failed ret then mret (ret, buf) else
  for_each (fields_of (st_desc st))
    (fun '(i, f) buf =>
       b ← obus_struct_has_field st i;
       if b : bool then obus_field_encode st f buf else mret (0, buf)) buf.

Definition decode_fields (n_fields : Z) (st : obus_struct) (buf : buffer)
  : M (obus_struct * buffer) :=
  for_all (indices n_fields)
    (fun _ '(st, buf) =>
       '(desc, st, buf) ← obus_field_decode st buf;
       match desc with
       | Some i => '(_, st) ← obus_struct_set_has_field st i; mret (st, buf)
       | None => mret (st, buf)
       end) (st, buf).

Definition obus_struct_decode (st : obus_struct) (buf : buffer)
  : M (Z * obus_struct * buffer) :=
  '(ret, st) ← obus_struct_clear_has_fields st;
  if failed ret then mret (ret, st, buf) else
  '(ret, n_fields, buf) ← obus_buffer_read_u16 buf;
  match n_fields with
  | None => mret (ret, st, buf)
  | Some n_fields =>
    '(st, buf) ← decode_fields n_fields st buf;
    mret (0, st, buf)
  end.

Definition same_desc (a b : obus_struct_desc) : bool := sd_addr a =? sd_addr b.

Definition obus_struct_copy (dst src : obus_struct) : M (Z * obus_struct) :=
  if negb (same_desc (st_desc dst) (st_desc src)) then mret (- EINVAL, dst) else
  for_each (sd_fields (st_desc src)) (fun f dst => obus_field_copy dst src f) dst.

Definition obus_struct_merge (dst src : obus_struct) : M (Z * obus_struct) :=
  if negb (same_desc (st_desc dst) (st_desc src)) then mret (- EINVAL, dst) else
  for_each (fields_of (st_desc src))
    (fun '(i, f) dst =>
       b ← obus_struct_has_field src i;
       if b : bool then
         '(ret, dst) ← obus_field_copy dst src f;
         if failed ret then mret (ret, dst) else
         '(_, dst) ← obus_struct_set_has_field dst i;
         mret (0, dst)
       else mret (0, dst)) dst.

Fixpoint is_empty_from (st : obus_struct) (l : list nat) : M bool :=
  match l with
  | [] => mret true
  | i :: l' => b ← obus_struct_has_field st i; if b : bool then mret false else is_empty_from st l'
  end.

Definition obus_struct_is_empty (st : obus_struct) : M bool :=
  is_empty_from st (seq 0 (length (sd_fields (st_desc st)))).
End Ops.

(** ** The bitset *)

Definition has (st : obus_struct) (i : nat) : bool :=
  match st_mem st !! bit_word st i with
  | Some (CVal (VNum w)) => Z.testbit w (Z.of_nat (i mod 32))
  | _ => false
  end.

Lemma land_bit w k : 0 <= k -> negb (Z.land w (Z.shiftl 1 k) =? 0) = Z.testbit w k.
Proof.
  intros Hk. rewrite Z.shiftl_1_l. destruct (Z.testbit w k) eqn:E.
  - apply negb_true_iff, Z.eqb_neq. intros H0.
    assert (Z.testbit (Z.land w (2 ^ k)) k = false) as Hf by (rewrite H0; apply Z.bits_0).
    rewrite Z.land_spec, E, Z.pow2_bits_true in Hf by done. done.
  - apply negb_false_iff, Z.eqb_eq. apply Z.bits_inj'. intros j Hj.
    rewrite Z.land_spec, Z.bits_0. destruct (Z.eq_dec j k) as [->|Hne]; [by rewrite E|].
    rewrite Z.pow2_bits_false by done. apply andb_false_r.
Qed.

Lemma testbit_lor_bit w k j : 0 <= k -> 0 <= j ->
  Z.testbit (Z.lor w (Z.shiftl 1 k)) j = (if decide (j = k) then true else Z.testbit w j).
Proof.
  intros Hk Hj. rewrite Z.shiftl_1_l, Z.lor_spec. case_decide; subst.
  - by rewrite Z.pow2_bits_true, orb_true_r.
  - by rewrite Z.pow2_bits_false, orb_false_r by done.
Qed.

Lemma testbit_clear_bit w k j : 0 <= k < 32 -> 0 <= j < 32 ->
  Z.testbit (Z.land w (Z.lxor (Z.shiftl 1 k) (Z.ones 32))) j
  = (if decide (j = k) then false else Z.testbit w j).
Proof.
  intros Hk Hj. rewrite Z.shiftl_1_l, Z.land_spec, Z.lxor_spec.
  rewrite (Z.ones_spec_low 32 j) by lia. case_decide; subst.
  - rewrite Z.pow2_bits_true by lia. apply andb_false_r.
  - rewrite Z.pow2_bits_false by done. apply andb_true_r.
Qed.

(** A word of 32 bits stays one. *)
Lemma word_range w : (forall j, 32 <= j -> Z.testbit w j = false) -> 0 <= w -> 0 <= w < 2 ^ 32.
Proof.
  intros H Hw. split; [done|]. destruct (Z.eq_dec w 0) as [->|Hne]; [lia|].
  apply Z.log2_lt_pow2; [lia|]. apply Z.nle_gt. intros Hle.
  pose proof (Z.bit_log2 w ltac:(lia)). rewrite H in *; done.
Qed.

Lemma word_testbit_high w j : 0 <= w < 2 ^ 32 -> 32 <= j -> Z.testbit w j = false.
Proof.
  intros Hw Hj. destruct (Z.eq_dec w 0) as [->|]; [apply Z.bits_0|].
  apply Z.bits_above_log2; [lia|]. pose proof (proj1 (Z.log2_lt_pow2 w 32 ltac:(lia)) ltac:(lia)). lia.
Qed.

Lemma seq_split n pre (i : nat) post :
  seq 0 n = pre ++ i :: post -> i = length pre /\ (length pre < n)%nat.
Proof.
  intros H. assert (seq 0 n !! length pre = Some i) as Hl by (rewrite H; by apply list_lookup_middle).
  by apply lookup_seq in Hl.
Qed.

Section Bits.
Context {AL : Allocator}.

Lemma n_words_ge d i : (i < length (sd_fields d))%nat -> (i / 32 < n_words d)%nat.
Proof.
  intros Hi. unfold n_words. apply Nat.Div0.div_lt_upper_bound.
  pose proof (Nat.div_mod_eq (length (sd_fields d) + 31) 32).
  pose proof (Nat.mod_upper_bound (length (sd_fields d) + 31) 32). lia.
Qed.

Lemma word_of st i :
  struct_shape st -> (i < length (sd_fields (st_desc st)))%nat ->
  exists w, st_mem st !! bit_word st i = Some (CVal (VNum w)) /\ 0 <= w < 2 ^ 32.
Proof. intros SS Hi. apply (ss_words _ SS), n_words_ge, Hi. Qed.

Lemma index_in_range st i :
  (i < length (sd_fields (st_desc st)))%nat -> sd_n_fields (st_desc st) <=? Z.of_nat i = false.
Proof. intros. apply Z.leb_gt. unfold sd_n_fields. lia. Qed.

Lemma wp_has_field st i m (Q : bool -> mem -> Prop) :
  struct_shape st -> (i < length (sd_fields (st_desc st)))%nat -> Q (has st i) m ->
  wp (obus_struct_has_field st i) Q m.
Proof.
  intros SS Hi HQ. destruct (word_of _ _ SS Hi) as (w & Hw & _).
  unfold obus_struct_has_field, has, bit_mask in *. rewrite index_in_range by done. rewrite Hw in HQ.
  apply wp_bind. eapply wp_get_num; [exact Hw|]. apply wp_ret. by rewrite land_bit by lia.
Qed.

(** Storing a word that differs at the bit of field [i] only. *)
Definition bit_set (st : obus_struct) (i : nat) (w : Z) : obus_struct :=
  st_set st (bit_word st i) (CVal (VNum w)).

Lemma bit_set_changes st i w :
  (i < length (sd_fields (st_desc st)))%nat ->
  changes_at (word_offsets (st_desc st)) st (bit_set st i w).
Proof. intros Hi. apply changes_at_set, elem_of_word_offsets, n_words_ge, Hi. Qed.

Lemma word_offset_inj d j k : word_offset d j = word_offset d k -> j = k.
Proof. unfold word_offset. lia. Qed.

Lemma bit_set_has st i w0 w j b :
  st_mem st !! bit_word st i = Some (CVal (VNum w0)) ->
  (forall k, 0 <= k < 32 ->
     Z.testbit w k = if decide (k = Z.of_nat (i mod 32)) then b else Z.testbit w0 k) ->
  has (bit_set st i w) j = if decide (j = i) then b else has st j.
Proof.
  intros Hw0 Hb. unfold has, bit_set, bit_word. cbn [st_mem st_desc st_set].
  rewrite lookup_insert. pose proof (Nat.mod_upper_bound j 32 ltac:(lia)).
  case_decide as Hc.
  - apply word_offset_inj in Hc. rewrite Hb by lia.
    rewrite <- Hc. unfold bit_word in Hw0. rewrite Hw0.
    repeat case_decide; try done; subst.
    + exfalso. match goal with H : j <> i |- _ => apply H end.
      rewrite (Nat.div_mod_eq j 32), (Nat.div_mod_eq i 32). lia.
    + done.
  - case_decide; [by subst|done].
Qed.

Lemma bit_set_shape st i w :
  struct_shape st -> (i < length (sd_fields (st_desc st)))%nat -> 0 <= w < 2 ^ 32 ->
  struct_shape (bit_set st i w).
Proof.
  intros SS Hi Hw. destruct (bit_set_changes st i w Hi) as [Hd Hc].
  constructor; rewrite ?Hd; [apply SS| |].
  - apply Forall_lookup. intros k f Hk. eapply field_shape_ext;
      [|by eapply (Forall_lookup_1 _ _ _ _ (ss_fields _ SS))].
    intros off Ho. apply Hc. by eapply field_offset_not_word; [apply SS|..].
  - intros k Hk. unfold bit_set. cbn. rewrite lookup_insert. case_decide; [by eexists|].
    by apply SS.
Qed.

Lemma wp_set_has_field st i m (Q : Z * obus_struct -> mem -> Prop) :
  struct_shape st -> (i < length (sd_fields (st_desc st)))%nat ->
  (forall st', struct_shape st' -> changes_at (word_offsets (st_desc st)) st st' ->
     (forall j, has st' j = if decide (j = i) then true else has st j) -> Q (0, st') m) ->
  wp (obus_struct_set_has_field st i) Q m.
Proof.
  intros SS Hi HQ. destruct (word_of _ _ SS Hi) as (w & Hw & Hr).
  unfold obus_struct_set_has_field, bit_mask. rewrite index_in_range by done.
  apply wp_bind. eapply wp_get_num; [exact Hw|]. apply wp_bind. eapply wp_set_val; [exact Hw|].
  apply wp_ret. pose proof (Nat.mod_upper_bound i 32 ltac:(lia)). apply HQ.
  - apply bit_set_shape; [done..|]. apply word_range.
    + intros j Hj. rewrite testbit_lor_bit by lia. case_decide; [lia|]. by apply word_testbit_high.
    + apply Z.lor_nonneg. split; [lia|]. apply Z.shiftl_nonneg. lia.
  - by apply bit_set_changes.
  - intros j. apply (bit_set_has st i w); [done|]. intros k Hk. apply testbit_lor_bit; lia.
Qed.

Lemma wp_clear_has_field st i m (Q : Z * obus_struct -> mem -> Prop) :
  struct_shape st -> (i < length (sd_fields (st_desc st)))%nat ->
  (forall st', struct_shape st' -> changes_at (word_offsets (st_desc st)) st st' ->
     (forall j, has st' j = if decide (j = i) then false else has st j) -> Q (0, st') m) ->
  wp (obus_struct_clear_has_field st i) Q m.
Proof.
  intros SS Hi HQ. destruct (word_of _ _ SS Hi) as (w & Hw & Hr).
  unfold obus_struct_clear_has_field, bit_mask. rewrite index_in_range by done.
  apply wp_bind. eapply wp_get_num; [exact Hw|]. apply wp_bind. eapply wp_set_val; [exact Hw|].
  apply wp_ret. pose proof (Nat.mod_upper_bound i 32 ltac:(lia)). apply HQ.
  - apply bit_set_shape; [done..|]. apply word_range.
    + intros j Hj. rewrite Z.land_spec. by rewrite (word_testbit_high w j).
    + apply Z.land_nonneg. left. lia.
  - by apply bit_set_changes.
  - intros j. apply (bit_set_has st i w); [done|]. intros k Hk. apply testbit_clear_bit; lia.
Qed.

(** The loops over all fields. *)
Lemma wp_all_fields f (v : bool) st m (Q : Z * obus_struct -> mem -> Prop) :
  (forall st i m (Q : Z * obus_struct -> mem -> Prop),
     struct_shape st -> (i < length (sd_fields (st_desc st)))%nat ->
     (forall st', struct_shape st' -> changes_at (word_offsets (st_desc st)) st st' ->
        (forall j, has st' j = if decide (j = i) then v else has st j) -> Q (0, st') m) ->
     wp (f st i) Q m) ->
  struct_shape st ->
  (forall st', struct_shape st' -> changes_at (word_offsets (st_desc st)) st st' ->
     (forall j, (j < length (sd_fields (st_desc st)))%nat -> has st' j = v) -> Q (0, st') m) ->
  wp (all_fields f st) Q m.
Proof.
  intros Hf SS HQ. unfold all_fields.
  set (I := fun (k : nat) (r : Z * obus_struct) (m' : mem) => m' = m /\ fst r = 0 /\
    struct_shape (snd r) /\ changes_at (word_offsets (st_desc st)) st (snd r) /\
    forall j, (j < k)%nat -> has (snd r) j = v).
  eapply wp_mono; [apply (wp_for_all (fun pre => I (length pre))) with (done := [])|].
  - split_and!; [done..|]. intros j Hj. cbn in Hj. lia.
  - intros pre i post [r st1] m1 Hp (-> & Hr & SS1 & Hc & Hv). cbn in Hp, Hr. subst r. cbn [snd] in *.
    assert (i = length pre /\ (length pre < length (sd_fields (st_desc st)))%nat) as [-> Hlt].
    { by eapply seq_split. }
    destruct (Hc) as [Hd _]. apply wp_bind. apply Hf; [done|by rewrite Hd|].
    intros st2 SS2 Hc2 Hv2. apply wp_ret. cbn. rewrite Hd in Hc2.
    split_and!; [done..|by eapply changes_at_trans|].
    intros j Hj. rewrite length_app in Hj. cbn in Hj. cbn. rewrite Hv2. case_decide; [done|].
    apply Hv. lia.
  - intros [r st'] m' (-> & Hr & SS' & Hc & Hv). cbn in Hr. subst r. apply HQ; [done..|].
    intros j Hj. apply Hv. cbn. by rewrite length_seq.
Qed.
End Bits.

(** ** Contents and wire image of a structure *)

(** The present fields with their contents, in descriptor order. *)
Fixpoint present (i : nat) (fs : list obus_field_desc) (cs : list (option fval))
  : list (nat * obus_field_desc * fval) :=
  match fs, cs with
  | f :: fs', Some c :: cs' => (i, f, c) :: present (S i) fs' cs'
  | _ :: fs', None :: cs' => present (S i) fs' cs'
  | _, _ => []
  end.

Definition present_wire (x : nat * obus_field_desc * fval) : list Z :=
  let '(_, f, c) := x in field_wire f c.

Definition struct_wire (d : obus_struct_desc) (cs : list (option fval)) : list Z :=
  let l := present 0 (sd_fields d) cs in
  be_bytes 2 (Z.of_nat (length l)) ++ concat (map present_wire l).

(** [cs] is what the structure holds: [None] for a field that is not present. *)
Record struct_denotes (m : mem) (st : obus_struct) (cs : list (option fval)) : Prop := {
  sn_length : length cs = length (sd_fields (st_desc st));
  sn_has : forall i o, cs !! i = Some o -> has st i = bool_decide (is_Some o);
  sn_fields : forall i f c, sd_fields (st_desc st) !! i = Some f -> cs !! i = Some (Some c) ->
    field_denotes m (st_mem st) f c
}.

Lemma struct_denotes_grows m m' st cs : grows m m' -> struct_denotes m st cs -> struct_denotes m' st cs.
Proof.
  intros G [Hl Hh Hf]. constructor; [done..|]. intros i f c Hi Hc.
  eapply field_denotes_grows; [exact G|by apply (Hf i)].
Qed.

Definition contents_ok (d : obus_struct_desc) (cs : list (option fval)) : Prop :=
  forall i f c, sd_fields d !! i = Some f -> cs !! i = Some (Some c) -> fval_ok f c.

(** The kind of contents matches the kind of field. *)
Definition kinds_ok (d : obus_struct_desc) (cs : list (option fval)) : Prop :=
  forall i f c, sd_fields d !! i = Some f -> cs !! i = Some (Some c) ->
    match c with FScalar _ => is_array (fd_type f) = false | FArray _ => is_array (fd_type f) = true end.

Lemma elem_of_present fs cs k i f c :
  (i, f, c) ∈ present k fs cs <->
  exists j, i = (k + j)%nat /\ fs !! j = Some f /\ cs !! j = Some (Some c).
Proof.
  revert cs k. induction fs as [|g fs IH]; intros [|o cs] k; cbn.
  - split; [set_solver|]. by intros (j & _ & H & _).
  - split; [set_solver|]. by intros (j & _ & H & _).
  - split; [set_solver|]. by intros (j & _ & _ & H).
  - assert ((i, f, c) ∈ present (S k) fs cs <->
      exists j, i = (k + S j)%nat /\ fs !! j = Some f /\ cs !! j = Some (Some c)) as IH'.
    { rewrite IH. split; intros (j & -> & ?); exists j; (split; [lia|done]). }
    destruct o as [c'|]; rewrite ?elem_of_cons, IH'; split.
    + intros [[= -> -> ->]|(j & ? & ?)]; [exists 0%nat|by exists (S j)]. split; [lia|done].
    + intros ([|j] & -> & Hf & Hc); [left|right; by exists j].
      cbn in *. simplify_eq. by rewrite Nat.add_0_r.
    + intros (j & ? & ?). by exists (S j).
    + intros ([|j] & -> & Hf & Hc); [done|]. by exists j.
Qed.

Lemma present_indices_NoDup fs cs k : NoDup (map (fun x => fst (fst x)) (present k fs cs)).
Proof.
  revert cs k. induction fs as [|g fs IH]; intros [|[c|] cs] k; cbn; try constructor; [|apply IH..].
  intros ([[i f] c'] & Hk & Hin)%list_elem_of_fmap. cbn in Hk. subst i.
  apply elem_of_present in Hin as (j & Hj & _). lia.
Qed.

Lemma length_present fs cs k : (length (present k fs cs) <= length fs)%nat.
Proof.
  revert cs k. induction fs as [|g fs IH]; intros [|[c|] cs] k; cbn; try lia;
    specialize (IH cs (S k)); lia.
Qed.

Lemma take_present_count fs cs j k :
  length cs = length fs -> (j < length fs)%nat ->
  length (present k (take (S j) fs) (take (S j) cs)) =
  (length (present k (take j fs) (take j cs)) +
   if cs !! j is Some (Some _) then 1 else 0)%nat.
Proof.
  revert cs j k. induction fs as [|g fs IH]; intros [|o cs] j k Hl Hj; cbn in *; try lia.
  destruct j as [|j]; cbn [lookup list_lookup].
  - destruct o; cbn; rewrite ?take_0; done.
  - assert (length (present (S k) (take (S j) fs) (take (S j) cs)) =
      (length (present (S k) (take j fs) (take j cs)) + if cs !! j is Some (Some _) then 1 else 0)%nat) as E
      by (apply IH; lia).
    destruct o; cbn [take present length] in *; [rewrite E; reflexivity|exact E].
Qed.

Section Encode.
Context {AL : Allocator}.

Lemma wp_count_fields st cs m (Q : Z -> mem -> Prop) :
  struct_shape st -> struct_denotes m st cs ->
  Q (Z.of_nat (length (present 0 (sd_fields (st_desc st)) cs))) m ->
  wp (count_fields st) Q m.
Proof.
  intros SS SD HQ. pose proof (do_count _ (ss_desc _ SS)) as Hmax. unfold count_fields.
  set (fs := sd_fields (st_desc st)) in *. pose proof (sn_length _ _ _ SD) as Hl. fold fs in Hl.
  eapply wp_mono; [apply (wp_for_all (fun pre n m' => m' = m /\
    n = Z.of_nat (length (present 0 (take (length pre) fs) (take (length pre) cs)))))
    with (done := [])|].
  - done.
  - intros pre i post n m1 Hp [-> ->]. cbn in Hp. apply seq_split in Hp as [-> Hlt].
    apply wp_bind, wp_has_field; [done|done|]. apply wp_ret. split; [done|].
    rewrite length_app, Nat.add_1_r, take_present_count by done.
    destruct (lookup_lt_is_Some_2 cs (length pre) ltac:(lia)) as [o Ho].
    rewrite (sn_has _ _ _ SD _ _ Ho), Ho.
    destruct o as [c|].
    + rewrite bool_decide_true by by eexists.
      pose proof (length_present (take (length pre) fs) (take (length pre) cs) 0) as Hb.
      rewrite length_take in Hb. rewrite u16_small by lia. lia.
    + rewrite bool_decide_false by by intros [].
      by rewrite Nat.add_0_r.
  - intros n m' [-> ->]. cbn. rewrite length_seq. rewrite !take_ge by lia. done.
Qed.

Lemma emits_fields m st cs fs k :
  struct_shape st ->
  (forall i f o, fs !! i = Some f -> cs !! i = Some o ->
     (k + i < length (sd_fields (st_desc st)))%nat /\ field_desc_ok f /\
     has st (k + i)%nat = bool_decide (is_Some o) /\
     forall c, o = Some c -> field_denotes m (st_mem st) f c /\ fval_ok f c) ->
  length cs = length fs ->
  emits m (for_each (imap (fun i f => ((k + i)%nat, f)) fs)
    (fun '(i, f) buf => b ← obus_struct_has_field st i;
       if b : bool then obus_field_encode st f buf else mret (0, buf)))
    (concat (map present_wire (present k fs cs))).
Proof.
  intros SS. revert cs k. induction fs as [|f fs IH]; intros [|o cs] k H Hl; try done; cbn [imap].
  { apply emits_ret. }
  destruct (H 0%nat f o eq_refl eq_refl) as (Hk & F & Hh & Hc). rewrite Nat.add_0_r in Hk, Hh.
  assert (emits m (for_each (imap (fun i f => ((S k + i)%nat, f)) fs)
    (fun '(i, f) buf => b ← obus_struct_has_field st i;
       if b : bool then obus_field_encode st f buf else mret (0, buf)))
    (concat (map present_wire (present (S k) fs cs)))) as IH'.
  { apply IH; [|by injection Hl]. intros i f' o' Hi Ho.
    destruct (H (S i) f' o' Hi Ho) as (? & ? & ? & ?).
    rewrite <- (Nat.add_succ_comm k i) in *. done. }
  replace (imap ((fun i f => ((k + i)%nat, f)) ∘ S) fs)
    with (imap (fun i f => ((S k + i)%nat, f)) fs)
    by (apply imap_ext; intros i x _; cbn; f_equal; lia).
  cbn [for_each]. rewrite Nat.add_0_r.
  destruct o as [c|]; cbn [present map concat present_wire].
  - destruct (Hc c eq_refl) as [Hd Ho].
    apply (emits_seq m (fun buf => b ← obus_struct_has_field st k;
       if b : bool then obus_field_encode st f buf else mret (0, buf)) _); [|exact IH'].
    intros b m1 Hm W. apply wp_bind, wp_has_field; [done|done|]. rewrite Hh, bool_decide_true by by eexists.
    by apply (emits_field_encode m).
  - apply (emits_seq m (fun buf => b ← obus_struct_has_field st k;
       if b : bool then obus_field_encode st f buf else mret (0, buf)) _ []); [|exact IH'].
    intros b m1 Hm W. apply wp_bind, wp_has_field; [done|done|]. rewrite Hh, bool_decide_false by by intros [].
    by apply (emits_ret m).
Qed.

Lemma emits_struct_encode m st cs :
  struct_shape st -> struct_denotes m st cs -> contents_ok (st_desc st) cs ->
  emits m (obus_struct_encode st) (struct_wire (st_desc st) cs).
Proof.
  intros SS SD CO b m1 Hm W. unfold obus_struct_encode.
  assert (struct_denotes m1 st cs) as SD1.
  { destruct SD as [Hl Hh Hf]. constructor; [done|done|]. intros i f c Hi Hc.
    specialize (Hf i f c Hi Hc). revert Hf. unfold field_denotes. destruct c as [a|l].
    - intros (? & v & ? & Hd). split; [done|]. exists v. split; [done|]. by eapply denotes_same.
    - intros (? & ? & arr & ? & Hd). split_and!; [done..|]. exists arr. split; [done|].
      destruct Hd as [->|(vs & -> & Hd)]; [by left|right]. exists vs. split; [done|].
      eapply Forall2_impl; [exact Hd|]. intros v a. by apply denotes_same. }
  apply wp_bind, (wp_count_fields _ cs); [done|done|].
  apply (emits_seq m1 (fun buf => obus_buffer_append_u16 buf _)
    (for_each (fields_of (st_desc st)) _)); [apply emits_append_u16| |done|done].
  unfold fields_of.
  apply (emits_fields m1 st cs (sd_fields (st_desc st)) 0); [done| |apply SD].
  intros i f o Hi Ho. split; [by eapply lookup_lt_Some|].
  split; [by apply (Forall_lookup_1 _ _ _ _ (do_fields _ (ss_desc _ SS)) Hi)|].
  split; [by apply (sn_has _ _ _ SD)|]. intros c ->.
  split; [by apply (sn_fields _ _ _ SD1 i)|by apply (CO i)].
Qed.
End Encode.

Section Decode.
Context {AL : Allocator}.

Lemma has_ext st st' i :
  st_desc st' = st_desc st -> st_mem st' !! bit_word st i = st_mem st !! bit_word st i ->
  has st' i = has st i.
Proof. intros Hd Hm. unfold has, bit_word in *. by rewrite Hd, Hm. Qed.

Lemma word_not_field st j f i :
  struct_shape st -> sd_fields (st_desc st) !! j = Some f ->
  (i < length (sd_fields (st_desc st)))%nat -> bit_word st i ∉ field_offsets f.
Proof.
  intros SS Hj Hi Hin. eapply field_offset_not_word; [apply SS|exact Hj|exact Hin|].
  by apply elem_of_word_offsets, n_words_ge.
Qed.

Lemma field_change_has st st' j f i :
  struct_shape st -> sd_fields (st_desc st) !! j = Some f ->
  changes_at (field_offsets f) st st' -> (i < length (sd_fields (st_desc st)))%nat ->
  has st' i = has st i.
Proof.
  intros SS Hj [Hd Hc] Hi. apply has_ext; [done|]. apply Hc. by eapply word_not_field.
Qed.

(** Decoding arbitrary bytes keeps a structure well formed. *)
Definition struct_decode_post st b m (r : Z * obus_struct * buffer) (m' : mem) : Prop :=
  let '(ret, st', b') := r in
  ok_code ret /\ moved b b' /\ grows m m' /\ struct_shape st' /\ st_desc st' = st_desc st.

Lemma struct_decode_safely st b m :
  struct_shape st -> buf_wf b -> mem_wf m ->
  wp (obus_struct_decode st b) (struct_decode_post st b m) m.
Proof.
  intros SS W Wm. unfold obus_struct_decode, obus_struct_clear_has_fields. apply wp_bind.
  apply (wp_all_fields _ false); [by apply wp_clear_has_field|done|].
  intros st1 SS1 [Hd1 _] _. cbn [failed Z.ltb Z.compare]. apply wp_bind.
  eapply wp_read_moved; [exact reads_u16_safely|by apply wf_len_size|done| |].
  { intros ret Hret. apply wp_ret. split_and!; [by right|by apply moved_refl|by apply grows_refl|done..]. }
  intros n b1 _ Hb1. apply wp_bind. unfold decode_fields.
  set (I := fun (s : obus_struct * buffer) (m' : mem) =>
    moved b (snd s) /\ grows m m' /\ struct_shape (fst s) /\ st_desc (fst s) = st_desc st).
  eapply wp_mono; [apply (wp_for_all (fun _ => I)) with (done := [])|].
  - split_and!; [done|by apply grows_refl|done..].
  - intros pre x post [st2 b2] m2 _ (Hb2 & G2 & SS2 & Hd2). cbn [fst snd] in *. apply wp_bind.
    eapply wp_mono; [apply field_decode_safely; [done|by eapply moved_wf|apply G2]|].
    intros [[o st3] b3] m3 (Hb3 & G3 & Hone & Ho).
    pose proof (one_field_shape _ _ SS2 Hone) as SS3. pose proof (one_field_desc _ _ Hone) as Hd3.
    assert (I (st3, b3) m3) as HI.
    { split_and!; [by eapply moved_trans|by eapply grows_trans|done|cbn; congruence]. }
    destruct o as [i|]; [|by apply wp_ret]. apply wp_bind.
    apply wp_set_has_field; [done|by rewrite Hd3|]. intros st4 SS4 [Hd4 _] _. apply wp_ret.
    destruct HI as (? & ? & ? & ?). split_and!; [done..|cbn in *; congruence].
  - intros [st' b'] m' (Hb' & G' & SS' & Hd'). apply wp_ret. cbn [fst snd] in *.
    split_and!; [by left|done..].
Qed.

(** What decoding the contents [cs] into [st0] yields: exactly the fields of
    [cs] are present, with their contents; the other cells are untouched. *)
Record struct_decoded (st0 : obus_struct) (l : list (nat * obus_field_desc * fval))
    (st : obus_struct) (m : mem) : Prop := {
  sd_shape : struct_shape st;
  sd_desc : st_desc st = st_desc st0;
  sd_has : forall j, (j < length (sd_fields (st_desc st0)))%nat ->
    has st j = bool_decide (j ∈ map (fun x => fst (fst x)) l);
  sd_contents : forall i f c, (i, f, c) ∈ l -> field_denotes m (st_mem st) f (fval_back f c);
  sd_other : forall j f off, sd_fields (st_desc st0) !! j = Some f ->
    j ∉ map (fun x => fst (fst x)) l -> off ∈ field_offsets f ->
    st_mem st !! off = st_mem st0 !! off
}.

Lemma struct_decoded_step st0 l st m i f c st1 m1 st2 :
  struct_decoded st0 l st m -> sd_fields (st_desc st0) !! i = Some f ->
  (forall i' f' c', (i', f', c') ∈ l -> i' <> i /\ sd_fields (st_desc st0) !! i' = Some f') ->
  grows m m1 -> decoded f (fval_back f c) st st1 m1 ->
  struct_shape st2 -> changes_at (word_offsets (st_desc st1)) st1 st2 ->
  (forall j, has st2 j = if decide (j = i) then true else has st1 j) ->
  struct_decoded st0 (l ++ [(i, f, c)]) st2 m1.
Proof.
  intros [SS Hd Hh Hc Ho] Hi Hl G [[Hd1 Hch1] [_ Hf1]] SS2 [Hd2 Hch2] Hh2.
  assert (forall j g off, sd_fields (st_desc st0) !! j = Some g -> off ∈ field_offsets g ->
    st_mem st2 !! off = st_mem st1 !! off) as Hw.
  { intros j g off Hj Hoff. apply Hch2. rewrite Hd1, Hd. rewrite <- Hd in Hj |- *.
    by eapply field_offset_not_word; [apply SS|..]. }
  assert (forall j g off, sd_fields (st_desc st0) !! j = Some g -> j <> i -> off ∈ field_offsets g ->
    st_mem st2 !! off = st_mem st !! off) as Hother.
  { intros j g off Hj Hne Hoff. rewrite (Hw j g off Hj Hoff). apply Hch1.
    rewrite <- Hd in Hj, Hi. by eapply (field_offsets_disjoint _ j i); [apply SS|..]. }
  constructor.
  - done.
  - congruence.
  - intros j Hj. rewrite Hh2, map_app. cbn [map fst]. case_decide as Hji.
    + subst j. rewrite bool_decide_true; [done|set_solver].
    + rewrite <- Hd in Hj, Hi. rewrite (field_change_has st st1 i f) by done.
      rewrite Hd in Hj. rewrite Hh by done. apply bool_decide_ext. set_solver.
  - intros i' f' c' [Hin|Heq%list_elem_of_singleton]%elem_of_app.
    + destruct (Hl _ _ _ Hin) as [Hne Hi']. eapply field_denotes_grows; [exact G|].
      eapply field_denotes_ext; [|by eapply Hc]. intros off Hoff. by eapply Hother.
    + simplify_eq. eapply field_denotes_ext; [|exact Hf1]. intros off Hoff. by eapply Hw.
  - intros j g off Hj Hnin Hoff. rewrite map_app in Hnin. cbn in Hnin.
    rewrite (Hother j g) by (done || set_solver). eapply Ho; [done|set_solver|done].
Qed.

(** What is known of the present fields of [cs] when they are those of [st0]. *)
Record decodable (st0 : obus_struct) (cs : list (option fval)) : Prop := {
  dc_shape : struct_shape st0;
  dc_length : length cs = length (sd_fields (st_desc st0));
  dc_ok : contents_ok (st_desc st0) cs;
  dc_kinds : kinds_ok (st_desc st0) cs
}.

Lemma present_facts st0 cs i f c :
  decodable st0 cs -> (i, f, c) ∈ present 0 (sd_fields (st_desc st0)) cs ->
  sd_fields (st_desc st0) !! i = Some f /\ fval_ok f c /\ cs !! i = Some (Some c).
Proof.
  intros D Hin. apply elem_of_present in Hin as (j & -> & Hf & Hc). split; [done|].
  split; [by eapply (dc_ok _ _ D)|done].
Qed.

(** One turn of the decoding loop: the next field present is read and set. *)
Lemma decode_field_turn `{!AmpleMemory AL} st0 cs k i f c st b m rest :
  let l := present 0 (sd_fields (st_desc st0)) cs in
  decodable st0 cs -> l !! k = Some (i, f, c) -> mem_wf m -> buf_wf b ->
  buf_rest b = present_wire (i, f, c) ++ rest -> struct_decoded st0 (take k l) st m ->
  wp ('(desc, st, buf) ← obus_field_decode st b;
      match desc with
      | Some i => '(_, st) ← obus_struct_set_has_field st i; mret (st, buf)
      | None => mret (st, buf)
      end)
    (fun r m' => snd r = with_pos b (buf_pos b + Z.of_nat (length (present_wire (i, f, c)))) /\
       grows m m' /\ struct_decoded st0 (take (S k) l) (fst r) m') m.
Proof.
  intros l D Hkl Wm W Hr SD.
  destruct (present_facts st0 cs i f c D ltac:(by eapply list_elem_of_lookup_2)) as (Hi & Hc & Hcs).
  pose proof (sd_desc _ _ _ _ SD) as Hd. pose proof (sd_shape _ _ _ _ SD) as SS.
  apply wp_bind. eapply wp_mono;
    [eapply (field_decode_parses st f i c);
       [done|by rewrite Hd|done|by eapply (dc_kinds _ _ D)|done|exact W|exact Hr]|].
  intros r m3 (st3 & -> & G3 & Hdec). apply wp_bind.
  pose proof Hdec as (Hch3 & Hsh3 & _).
  assert (struct_shape st3) as SS3.
  { eapply (struct_shape_change i f st); [done|by rewrite Hd|done|done]. }
  destruct Hch3 as [Hd3 _].
  apply wp_set_has_field; [done|rewrite Hd3, Hd; by eapply lookup_lt_Some|].
  intros st4 SS4 Hch4 Hh4. apply wp_ret. split; [done|]. split; [done|]. cbn [fst].
  rewrite (take_S_r l _ _ Hkl).
  eapply struct_decoded_step; [exact SD|exact Hi| |exact G3|exact Hdec|done|done|done].
  intros i' f' c' Hin. apply list_elem_of_lookup in Hin as [k' Hk'].
  apply lookup_take_Some in Hk' as [Hk' Hlt].
  split; [|apply (present_facts st0 cs i' f' c' D); by eapply list_elem_of_lookup_2].
  intros ->. assert (k' = k); [|lia].
  apply (NoDup_lookup _ k' k i (present_indices_NoDup (sd_fields (st_desc st0)) cs 0));
    fold l; rewrite list_lookup_fmap; [by rewrite Hk'|by rewrite Hkl].
Qed.

(** The whole loop. *)
Lemma decode_fields_parses `{!AmpleMemory AL} st0 cs st b m rest :
  let l := present 0 (sd_fields (st_desc st0)) cs in
  decodable st0 cs -> mem_wf m -> buf_wf b ->
  buf_rest b = concat (map present_wire l) ++ rest -> struct_decoded st0 [] st m ->
  wp (decode_fields (Z.of_nat (length l)) st b)
    (fun r m' => snd r = with_pos b (buf_pos b + Z.of_nat (length (concat (map present_wire l)))) /\
       grows m m' /\ struct_decoded st0 l (fst r) m') m.
Proof.
  intros l D Wm W Hr SD. unfold decode_fields.
  set (I := fun (k : nat) (s : obus_struct * buffer) (m' : mem) =>
    snd s = with_pos b (buf_pos b + Z.of_nat (length (concat (map present_wire (take k l))))) /\
    grows m m' /\ struct_decoded st0 (take k l) (fst s) m').
  assert (length (indices (Z.of_nat (length l))) = length l) as Hil.
  { pose proof (length_indices (Z.of_nat (length l)) ltac:(lia)). lia. }
  eapply wp_mono; [apply (wp_for_all (fun pre => I (length pre))) with (done := [])|].
  - split_and!; [cbn; rewrite Z.add_0_r; by destruct b|by apply grows_refl|done].
  - intros pre x post [st2 b2] m2 Hp (Hb2 & G2 & SD2). cbn [fst snd] in *. subst b2.
    cbn in Hp. apply indices_split in Hp as [_ Hk]. rewrite Nat2Z.id in Hk.
    set (k := length pre) in *. destruct (lookup_lt_is_Some_2 l k Hk) as [[[i f] c] Hkl].
    pose proof (take_drop_middle l k _ Hkl) as Hsplit. rewrite <- Hsplit in Hr.
    rewrite map_app, concat_app, <- app_assoc in Hr. cbn [map concat] in Hr.
    destruct (after_read b _ _ W Hr) as [W2 Hr2]. rewrite <- app_assoc in Hr2.
    eapply wp_mono; [eapply (decode_field_turn st0 cs k i f c); try done; apply G2|].
    intros [st4 b4] m3 (Hb4 & G3 & SD4). cbn [fst snd] in *. subst b4.
    replace (length (pre ++ [x])) with (S k) by (rewrite length_app; cbn; lia).
    split_and!; [|by eapply grows_trans|done]. cbn [snd]. rewrite (take_S_r l _ _ Hkl).
    rewrite map_app, concat_app, length_app, Nat2Z.inj_add, Z.add_assoc. cbn [map concat].
    by rewrite app_nil_r.
  - intros s m'. cbn [app]. rewrite Hil. unfold I. by rewrite take_ge by lia.
Qed.

Lemma struct_decode_parses `{!AmpleMemory AL} st0 cs b m rest :
  struct_shape st0 -> length cs = length (sd_fields (st_desc st0)) ->
  contents_ok (st_desc st0) cs -> kinds_ok (st_desc st0) cs ->
  mem_wf m -> buf_wf b -> buf_rest b = struct_wire (st_desc st0) cs ++ rest ->
  wp (obus_struct_decode st0 b)
    (fun r m' => exists st', r = (0, st', with_pos b
         (buf_pos b + Z.of_nat (length (struct_wire (st_desc st0) cs)))) /\
       grows m m' /\
       struct_decoded st0 (present 0 (sd_fields (st_desc st0)) cs) st' m') m.
Proof.
  intros SS Hlen CO KO Wm W Hr. unfold obus_struct_decode, obus_struct_clear_has_fields.
  set (l := present 0 (sd_fields (st_desc st0)) cs) in *.
  unfold struct_wire in *. fold l in Hr |- *.
  assert (Z.of_nat (length l) < 2 ^ 16) as Hn.
  { pose proof (do_count _ (ss_desc _ SS)).
    pose proof (length_present (sd_fields (st_desc st0)) cs 0). unfold l. lia. }
  apply wp_bind. apply (wp_all_fields _ false); [by apply wp_clear_has_field|done|].
  intros st1 SS1 Hch1 Hh1. cbn [failed Z.ltb Z.compare]. apply wp_bind.
  rewrite <- app_assoc in Hr. destruct (after_read b _ _ W Hr) as [W1 Hr1].
  eapply wp_mono; [eapply (reads_u16 (Z.of_nat (length l))); [lia|done|exact Hr]|]. intros r m' [-> ->].
  apply wp_bind. eapply wp_mono;
    [eapply (decode_fields_parses st0 cs st1 _ m rest); [by constructor|done|exact W1|exact Hr1|]|].
  - destruct Hch1 as [Hd1 Hc1].
    constructor; cbn; [done|done| |set_solver|].
    + intros j Hj. rewrite bool_decide_false by set_solver. by apply Hh1.
    + intros j f off Hj _ Hoff. apply Hc1. by eapply field_offset_not_word; [apply SS|..].
  - intros [st' b'] m' (Hb' & G' & SD'). cbn [fst snd] in *. subst b'. apply wp_ret.
    exists st'. split; [|done]. rewrite length_app, Nat2Z.inj_add, Z.add_assoc. reflexivity.
Qed.
End Decode.

(** ** Allocation and initialisation *)

Definition fval_default (f : obus_field_desc) : fval :=
  if is_array (fd_type f) then FArray []
  else match field_type (fd_type f) with
       | T_STRING => FScalar (AStr (Some []))
       | T_ENUM => let drv := fd_enum_drv f in FScalar (ANum (ed_set_value drv (ed_default_value drv)))
       | _ => FScalar (ANum 0)
       end.

Lemma field_cells_fst f : map fst (field_cells f) = field_offsets f.
Proof. unfold field_cells, field_offsets. by destruct (is_array (fd_type f)). Qed.

Lemma calloc_cells_fst d :
  map fst (flat_map field_cells (sd_fields d) ++ word_cells d)
  = flat_map field_offsets (sd_fields d) ++ word_offsets d.
Proof.
  rewrite map_app. f_equal.
  - induction (sd_fields d) as [|f l IH]; [done|]. cbn. by rewrite map_app, field_cells_fst, IH.
  - unfold word_cells, word_offsets. rewrite map_map. done.
Qed.

Section Init.
Context {AL : Allocator}.

Lemma calloc_lookup d off c :
  desc_ok d -> (off, c) ∈ flat_map field_cells (sd_fields d) ++ word_cells d ->
  st_mem (calloc_struct d) !! off = Some c.
Proof.
  intros D Hin. cbn. apply elem_of_list_to_map; [|done].
  change (list_fmap _ _ fst) with (map (@fst Z cell)). rewrite calloc_cells_fst. apply D.
Qed.

Lemma calloc_field_lookup d i f off c :
  desc_ok d -> sd_fields d !! i = Some f -> (off, c) ∈ field_cells f ->
  st_mem (calloc_struct d) !! off = Some c.
Proof.
  intros D Hi Hin. apply calloc_lookup; [done|]. apply elem_of_app. left.
  apply list_elem_of_In, in_flat_map. exists f.
  split; apply list_elem_of_In; [by eapply list_elem_of_lookup_2|done].
Qed.

Lemma zero_value_shape t : t <> T_UNKNOWN -> value_shape t (zero_value t).
Proof. destruct t; cbn; intros; try done; lia. Qed.

Lemma calloc_shape d : desc_ok d -> struct_shape (calloc_struct d).
Proof.
  intros D. constructor; [done| |].
  - apply Forall_lookup. intros i f Hi.
    pose proof (Forall_lookup_1 _ _ _ _ (do_fields _ D) Hi) as F.
    pose proof (calloc_field_lookup d i f) as Hl. unfold field_shape, field_cells in *.
    destruct (is_array (fd_type f)).
    + split.
      * exists None. split; [|done]. eapply Hl; [done|done|by left].
      * exists 0. split; [|lia]. eapply Hl; [done|done|right; by left].
    + exists (zero_value (field_type (fd_type f))).
      split; [eapply Hl; [done|done|by left]|apply zero_value_shape, F].
  - intros k Hk. exists 0. split; [|lia]. apply calloc_lookup; [done|].
    apply elem_of_app. right. unfold word_cells. cbn [st_desc calloc_struct] in *.
    apply list_elem_of_fmap. exists k. split; [done|]. apply elem_of_seq. lia.
Qed.

Lemma wp_field_init st i f m (Q : Z * obus_struct -> mem -> Prop) :
  struct_shape st -> sd_fields (st_desc st) !! i = Some f ->
  (forall st', kept f st st' -> field_denotes m (st_mem st') f (fval_default f) -> Q (0, st') m) ->
  wp (obus_field_init st f) Q m.
Proof.
  intros SS Hi HQ. pose proof (Forall_lookup_1 _ _ _ _ (do_fields _ (ss_desc _ SS)) Hi) as F.
  pose proof (Forall_lookup_1 _ _ _ _ (ss_fields _ SS) Hi) as Hsh.
  unfold obus_field_init, obus_field_address, obus_field_array_nb_address, fval_default in *.
  destruct (is_array (fd_type f)) eqn:Ha.
  - pose proof (field_offsets_neq _ _ _ (ss_desc _ SS) Hi Ha) as Hne.
    unfold field_shape in Hsh. rewrite Ha in Hsh. destruct Hsh as [(a0 & Ha0 & _) (n0 & Hn0 & _)].
    apply wp_bind. eapply wp_set_val; [exact Hn0|]. apply wp_bind.
    eapply wp_set_arr; [cbn; by rewrite lookup_insert_ne|]. apply wp_ret.
    destruct (decoded_array f [] [] 0 st None m) as (? & ? & ?); try done; [constructor..|by right|].
    by apply HQ.
  - destruct (field_scalar _ _ _ SS Hi Ha) as (v & Hv & _).
    assert (forall v' a, denotes m v' a -> value_shape (field_type (fd_type f)) v' ->
      fval_default f = FScalar a -> wp (st' ← set_val st (fd_offset f) v'; mret (0, st')) Q m) as Hset.
    { intros v' a Hd Hs He. apply wp_bind. eapply wp_set_val; [exact Hv|]. apply wp_ret.
      unfold fval_default in He. rewrite Ha in He. rewrite He in HQ.
      apply HQ; [by apply scalar_kept|]. split; [done|]. exists v'. cbn. by rewrite lookup_insert_eq. }
    unfold fval_default in Hset. rewrite Ha in Hset. pose proof (fo_known _ F) as Hk.
    destruct (field_type (fd_type f)) eqn:Et; try done;
      (eapply Hset; [|..|reflexivity]; [reflexivity|cbn; lia || done]).
Qed.

(** Every field gets its default; the heap is not touched. *)
Lemma wp_struct_init st m (Q : Z * obus_struct -> mem -> Prop) :
  struct_shape st ->
  (forall st', struct_shape st' -> st_desc st' = st_desc st ->
     (forall i f, sd_fields (st_desc st) !! i = Some f ->
        has st' i = false /\ field_denotes m (st_mem st') f (fval_default f)) -> Q (0, st') m) ->
  wp (obus_struct_init st) Q m.
Proof.
  intros SS HQ. unfold obus_struct_init. apply wp_bind.
  set (I := fun (pre : list obus_field_desc) (st' : obus_struct) (m' : mem) => m' = m /\
    struct_shape st' /\ st_desc st' = st_desc st /\
    forall i f, (i < length pre)%nat -> sd_fields (st_desc st) !! i = Some f ->
      field_denotes m (st_mem st') f (fval_default f)).
  eapply wp_mono; [apply (wp_for_each I (fun _ _ _ => False)) with (done := [])|].
  - split_and!; [done..|]. intros i f Hi. cbn in Hi. lia.
  - intros pre f post st1 m1 Hp (-> & SS1 & Hd1 & Hf1). cbn in Hp.
    assert (sd_fields (st_desc st) !! length pre = Some f) as Hi.
    { rewrite Hp. by apply list_lookup_middle. }
    eapply wp_field_init; [done|by rewrite Hd1|]. intros st2 [[Hd2 Hc2] Hs2] Hdef.
    cbn [failed Z.ltb Z.compare]. split_and!; [done| |congruence|].
    + eapply (struct_shape_change (length pre) f st1); [done|by rewrite Hd1|done|done].
    + intros j g Hj Hg. rewrite length_app in Hj. cbn in Hj.
      destruct (decide (j = length pre)) as [->|Hne]; [by simplify_eq|].
      eapply field_denotes_ext; [|apply (Hf1 j); [lia|done]]. intros off Ho. apply Hc2.
      by eapply (field_offsets_disjoint _ j (length pre)); [apply SS|..].
  - intros [ret st1] m1 [[-> HI]|[_ []]]. destruct HI as (-> & SS1 & Hd1 & Hf1). cbn [app] in *.
    cbn [failed Z.ltb Z.compare]. apply wp_bind.
    unfold obus_struct_clear_has_fields.
    apply (wp_all_fields _ false); [by apply wp_clear_has_field|done|].
    intros st2 SS2 [Hd2 Hc2] Hh2. apply wp_ret. apply HQ; [done|congruence|].
    intros i f Hi. pose proof (lookup_lt_Some _ _ _ Hi). split; [apply Hh2; by rewrite Hd1|].
    eapply field_denotes_ext; [|by apply (Hf1 i)].
    intros off Ho. apply Hc2. rewrite Hd1. by eapply field_offset_not_word; [apply SS|..].
Qed.
End Init.

(** ** The presence bitset as a set of indices *)

Inductive bit_op := SetBit (i : nat) | ClearBit (i : nat) | SetAll | ClearAll.

Definition indices_of (st : obus_struct) : list nat := seq 0 (length (sd_fields (st_desc st))).

Definition presence (st : obus_struct) : gset nat :=
  list_to_set (filter (fun i => has st i = true) (indices_of st)).

(** The code and the new set for [n] fields. *)
Definition spec_bit_op (n : nat) (op : bit_op) (X : gset nat) : Z * gset nat :=
  match op with
  | SetBit i => if decide (i < n)%nat then (0, {[i]} ∪ X) else (- EINVAL, X)
  | ClearBit i => if decide (i < n)%nat then (0, X ∖ {[i]}) else (- EINVAL, X)
  | SetAll => (0, set_seq 0 n)
  | ClearAll => (0, ∅)
  end.

Fixpoint spec_bit_ops (n : nat) (ops : list bit_op) (X : gset nat) : list Z * gset nat :=
  match ops with
  | [] => ([], X)
  | op :: ops' =>
    let r := spec_bit_op n op X in
    let r' := spec_bit_ops n ops' (snd r) in (fst r :: fst r', snd r')
  end.

Lemma elem_of_presence st i :
  i ∈ presence st <-> (i < length (sd_fields (st_desc st)))%nat /\ has st i = true.
Proof.
  unfold presence, indices_of. rewrite elem_of_list_to_set, list_elem_of_filter, elem_of_seq.
  intuition lia.
Qed.

(** The contents a peer reads back. *)
Definition struct_back (d : obus_struct_desc) (cs : list (option fval)) : list (option fval) :=
  zip_with (fun f o => fval_back f <$> o) (sd_fields d) cs.

Lemma struct_back_lookup d cs i o :
  struct_back d cs !! i = Some o <->
  exists f o', sd_fields d !! i = Some f /\ cs !! i = Some o' /\ o = fval_back f <$> o'.
Proof.
  unfold struct_back. rewrite lookup_zip_with_Some. split.
  - intros (f & o' & -> & ? & ?). by exists f, o'.
  - intros (f & o' & ? & ? & ->). by exists f, o'.
Qed.

Lemma struct_decoded_denotes st0 cs st m :
  length cs = length (sd_fields (st_desc st0)) ->
  struct_decoded st0 (present 0 (sd_fields (st_desc st0)) cs) st m ->
  struct_denotes m st (struct_back (st_desc st0) cs).
Proof.
  intros Hl [SS Hd Hh Hc _]. constructor.
  - unfold struct_back. rewrite length_zip_with, Hd. lia.
  - intros i o (f & o' & Hf & Ho & ->)%struct_back_lookup.
    rewrite Hh by by eapply lookup_lt_Some. apply bool_decide_ext. rewrite fmap_is_Some. split.
    + intros ([[j g] c] & Hj & Hin)%list_elem_of_fmap. cbn in Hj. subst j.
      apply elem_of_present in Hin as (j & -> & _ & Hc'). cbn in *. simplify_eq. by eexists.
    + intros [c ->]. apply list_elem_of_fmap. exists (i, f, c). split; [done|].
      apply elem_of_present. by exists i.
  - intros i f c Hf (g & o' & Hg & Ho & He)%struct_back_lookup. rewrite Hd in Hf. simplify_eq.
    destruct o' as [c'|]; [|done]. cbn in He. injection He as ->. apply (Hc i).
    apply elem_of_present. by exists i.
Qed.

Lemma denotes_kinds m st cs : struct_denotes m st cs -> kinds_ok (st_desc st) cs.
Proof.
  intros SD i f c Hf Hc. pose proof (sn_fields _ _ _ SD i f c Hf Hc) as H.
  destruct c; cbn in H; apply H.
Qed.

(** The image of contents, decoded into a structure that may hold anything. *)
Lemma wp_decode_image `{!AmpleMemory AL} d cs st0 b m rest (Q : Z * obus_struct * buffer -> mem -> Prop) :
  struct_shape st0 -> st_desc st0 = d -> length cs = length (sd_fields d) -> contents_ok d cs ->
  kinds_ok d cs -> mem_wf m -> buf_wf b -> buf_rest b = struct_wire d cs ++ rest ->
  (forall st m', grows m m' -> struct_shape st -> st_desc st = d -> struct_denotes m' st (struct_back d cs) ->
     Q (0, st, with_pos b (buf_pos b + Z.of_nat (length (struct_wire d cs)))) m') ->
  wp (obus_struct_decode st0 b) Q m.
Proof.
  intros SS <- Hl CO KO Wm W Hr HQ. eapply wp_mono; [by eapply struct_decode_parses|].
  intros r m' (st & -> & G & SD). apply HQ; [done|apply SD|apply SD|by apply struct_decoded_denotes].
Qed.

Section Theorems.
Context {AL : Allocator}.

Definition run_bit_op (op : bit_op) (st : obus_struct) : M (Z * obus_struct) :=
  match op with
  | SetBit i => obus_struct_set_has_field st i
  | ClearBit i => obus_struct_clear_has_field st i
  | SetAll => obus_struct_set_has_fields st
  | ClearAll => obus_struct_clear_has_fields st
  end.

Fixpoint run_bit_ops (ops : list bit_op) (st : obus_struct) : M (list Z * obus_struct) :=
  match ops with
  | [] => mret ([], st)
  | op :: ops' =>
    '(code, st) ← run_bit_op op st;
    '(codes, st) ← run_bit_ops ops' st;
    mret (code :: codes, st)
  end.

Lemma wp_run_bit_op op st m (Q : Z * obus_struct -> mem -> Prop) :
  struct_shape st ->
  (forall st', struct_shape st' -> changes_at (word_offsets (st_desc st)) st st' ->
     presence st' = snd (spec_bit_op (length (sd_fields (st_desc st))) op (presence st)) ->
     Q (fst (spec_bit_op (length (sd_fields (st_desc st))) op (presence st)), st') m) ->
  wp (run_bit_op op st) Q m.
Proof.
  intros SS HQ. set (n := length (sd_fields (st_desc st))) in *.
  destruct op as [i|i| |]; cbn [run_bit_op spec_bit_op] in *.
  - destruct (decide (i < n)%nat) as [Hi|Hi]; cbn [fst snd] in *.
    + apply wp_set_has_field; [done|done|]. intros st' SS' Hc Hh. apply HQ; [done|done|].
      apply set_eq. intros j. rewrite elem_of_union, elem_of_singleton, !elem_of_presence.
      rewrite (proj1 Hc), Hh. case_decide; subst; fold n; intuition lia.
    + unfold obus_struct_set_has_field.
      destruct (Z.leb_spec (sd_n_fields (st_desc st)) (Z.of_nat i)) as [_|Hlt].
      * apply wp_ret. by apply HQ.
      * unfold sd_n_fields in Hlt. lia.
  - destruct (decide (i < n)%nat) as [Hi|Hi]; cbn [fst snd] in *.
    + apply wp_clear_has_field; [done|done|]. intros st' SS' Hc Hh. apply HQ; [done|done|].
      apply set_eq. intros j. rewrite elem_of_difference, elem_of_singleton, !elem_of_presence.
      rewrite (proj1 Hc), Hh. case_decide; subst; fold n; intuition congruence.
    + unfold obus_struct_clear_has_field.
      destruct (Z.leb_spec (sd_n_fields (st_desc st)) (Z.of_nat i)) as [_|Hlt].
      * apply wp_ret. by apply HQ.
      * unfold sd_n_fields in Hlt. lia.
  - apply (wp_all_fields _ true); [by apply wp_set_has_field|done|].
    intros st' SS' Hc Hh. apply HQ; [done|done|]. cbn [snd]. apply set_eq. intros j.
    rewrite elem_of_presence, elem_of_set_seq, (proj1 Hc). fold n.
    split; [intros []; lia|]. intros [_ Hj]. split; [done|]. by apply Hh.
  - apply (wp_all_fields _ false); [by apply wp_clear_has_field|done|].
    intros st' SS' Hc Hh. apply HQ; [done|done|]. cbn [snd]. apply set_eq. intros j.
    rewrite elem_of_presence, (proj1 Hc). fold n.
    split; [|set_solver]. intros [Hj Ht]. by rewrite Hh in Ht.
Qed.

Lemma wp_run_bit_ops ops st m :
  struct_shape st ->
  wp (run_bit_ops ops st)
     (fun r m' => m' = m /\ struct_shape (snd r) /\
        changes_at (word_offsets (st_desc st)) st (snd r) /\
        (fst r, presence (snd r)) =
          spec_bit_ops (length (sd_fields (st_desc st))) ops (presence st)) m.
Proof.
  revert st. induction ops as [|op ops IH]; intros st SS; cbn [run_bit_ops spec_bit_ops].
  { apply wp_ret. done. }
  apply wp_bind, wp_run_bit_op; [done|]. intros st1 SS1 Hc1 Hp1.
  eapply wp_bind_mono; [by apply IH|]. intros [codes st2] m2 (-> & SS2 & Hc2 & Hr).
  apply wp_ret. cbn [fst snd] in *. pose proof (proj1 Hc1) as Hd. rewrite Hd, Hp1 in Hr. rewrite Hd in Hc2.
  split_and!; [done|done|by eapply changes_at_trans|]. by rewrite <- Hr.
Qed.

Lemma wp_is_empty_from st l m :
  struct_shape st -> Forall (fun i => (i < length (sd_fields (st_desc st)))%nat) l ->
  wp (is_empty_from st l) (fun b m' => m' = m /\ (b = true <-> Forall (fun i => has st i = false) l)) m.
Proof.
  intros SS. induction l as [|i l IH]; intros Hl; cbn.
  - apply wp_ret. split; [done|]. split; [by constructor|done].
  - apply Forall_cons in Hl as [Hi Hl]. apply wp_bind, wp_has_field; [done|done|].
    destruct (has st i) eqn:E; cbn.
    + apply wp_ret. split; [done|]. split; [done|]. intros H. inversion H. congruence.
    + eapply wp_mono; [by apply IH|]. intros b m' [-> Hb]. split; [done|].
      rewrite Hb, Forall_cons. intuition.
Qed.

(** C1: encoding a structure and decoding the bytes into any structure of the
    same descriptor, on memory that suffices, gives back exactly the fields
    that were present, each with its contents (booleans normalised to 0 or 1,
    enumerations taken through their 32-bit value, strings in fresh blocks),
    and consumes the whole image. *)
Theorem struct_roundtrip `{!AmpleMemory AL} st cs st0 b m :
  mem_wf m -> buf_wf b -> buf_rest b = [] -> buf_pos b <= buf_length b ->
  struct_shape st -> struct_denotes m st cs -> contents_ok (st_desc st) cs ->
  struct_shape st0 -> st_desc st0 = st_desc st ->
  buf_length b + Z.of_nat (length (struct_wire (st_desc st) cs)) <= PTRDIFF_MAX ->
  wp ('(ret, b') ← obus_struct_encode st b;
      if failed ret then mret None else r ← obus_struct_decode st0 b'; mret (Some r))
     (fun r m' => exists st' b', r = Some (0, st', b') /\ buf_rest b' = [] /\
        struct_shape st' /\ struct_denotes m' st' (struct_back (st_desc st) cs)) m.
Proof.
  intros Wm W Hr Hp SS SD CO SS0 Hd Hmax.
  eapply wp_bind_mono; [by apply (emits_struct_encode m st cs)|].
  intros [ret b'] m1 (Hsame & bs & G & [[Hret ->]|[Hret Hf]]); cbn in Hret, G; subst ret;
    [|exfalso; by eapply ample_not_refused].
  cbn [failed Z.ltb Z.compare]. set (wire := struct_wire (st_desc st) cs) in *.
  pose proof (grown_rest _ _ _ W Hp G) as Hr'. rewrite Hr, app_nil_l in Hr'.
  pose proof (gr_wf _ _ _ G) as W'. wf_facts b' W'.
  apply wp_bind. eapply wp_mono; [eapply (struct_decode_parses st0 cs b' m1 []); rewrite ?Hd|].
  - done.
  - apply SD.
  - done.
  - by eapply denotes_kinds.
  - by eapply grows_wf, same_blocks_grows.
  - done.
  - by rewrite app_nil_r.
  - intros r m2 (st' & -> & _ & SD'). apply wp_ret. do 2 eexists. split; [done|].
    rewrite Hd in SD' |- *. fold wire. rewrite buf_rest_with_pos, Hr', Nat2Z.id by lia.
    rewrite drop_all. split; [done|]. split; [apply SD'|]. rewrite <- Hd in *.
    apply struct_decoded_denotes; [|done]. rewrite Hd. apply SD.
Qed.

(** C22: decoding arbitrary bytes into a structure never is undefined
    behaviour: whatever the buffer holds and whatever allocations fail, it
    returns 0 or a negative code, moves the read position within the buffer,
    changes no existing block of the heap and leaves a well-typed structure. *)
Theorem struct_decode_safe st b m :
  struct_shape st -> buf_wf b -> mem_wf m ->
  wp (obus_struct_decode st b)
     (fun r m' => let '(ret, st', b') := r in
        (ret = 0 \/ failed ret = true) /\ moved b b' /\ grows m m' /\ struct_shape st' /\
        st_desc st' = st_desc st) m.
Proof. intros SS W Wm. by apply struct_decode_safely. Qed.

(** C15: the presence bitset is a set of field indices.  Any sequence of sets
    and clears, single or of all fields, returns the codes of the set
    operations (-EINVAL for an index out of range, which changes nothing),
    touches no cell outside the bitset, and the tests of presence and of
    emptiness answer from the resulting set. *)
Theorem presence_refines_set ops st m :
  struct_shape st ->
  wp ('(codes, st') ← run_bit_ops ops st; mret (codes, st'))
     (fun r m' => let '(codes, st') := r in
        changes_at (word_offsets (st_desc st)) st st' /\
        exists X, (codes, X) = spec_bit_ops (length (sd_fields (st_desc st))) ops (presence st) /\
          (forall i, wp (obus_struct_has_field st' i) (fun b _ => b = bool_decide (i ∈ X)) m') /\
          wp (obus_struct_is_empty st') (fun b _ => b = true <-> X = ∅) m') m.
Proof.
  intros SS. eapply wp_bind_mono; [by apply wp_run_bit_ops|].
  intros [codes st'] m' (-> & SS' & Hc & Hr). apply wp_ret. cbn [fst snd] in *.
  split; [done|]. exists (presence st'). split; [done|]. split.
  - intros i. destruct (Z.leb_spec (sd_n_fields (st_desc st')) (Z.of_nat i)) as [Hi|Hi].
    + unfold obus_struct_has_field. destruct (Z.leb_spec (sd_n_fields (st_desc st')) (Z.of_nat i)); [|lia].
      apply wp_ret. rewrite bool_decide_false; [done|]. rewrite elem_of_presence.
      unfold sd_n_fields in Hi. lia.
    + unfold sd_n_fields in Hi. apply wp_has_field; [done|lia|].
      destruct (has st' i) eqn:E; [rewrite bool_decide_true|rewrite bool_decide_false];
        rewrite ?elem_of_presence; rewrite ?E; [done|lia|done|intros [? [=]]].
  - unfold obus_struct_is_empty. eapply wp_mono; [apply wp_is_empty_from; [done|]|].
    + apply Forall_forall. intros i Hi%elem_of_seq. lia.
    + intros b m2 [_ Hb]. cbn. rewrite Hb, Forall_forall. split.
      * intros H. apply set_eq. intros i. rewrite elem_of_presence. split; [|set_solver].
        intros [Hi Ht]. rewrite H in Ht; [done|]. apply elem_of_seq. lia.
      * intros H i Hi%elem_of_seq. destruct (has st' i) eqn:E; [|done].
        assert (i ∈ presence st') as Hin by (apply elem_of_presence; split; [lia|done]).
        rewrite H in Hin. set_solver.
Qed.

(** Initialising the zeroed memory of a structure succeeds, clears the
    presence of every field and gives each its default: 0, the empty string,
    the default of the enumeration, the empty array. *)
Theorem struct_init_defaults d m :
  desc_ok d ->
  wp (obus_struct_init (calloc_struct d))
     (fun r m' => let '(ret, st) := r in
        ret = 0 /\ m' = m /\ struct_shape st /\ presence st = ∅ /\
        forall i f, sd_fields d !! i = Some f -> field_denotes m (st_mem st) f (fval_default f)) m.
Proof.
  intros D. apply wp_struct_init; [by apply calloc_shape|]. intros st SS Hd Hf.
  split_and!; [done..| |].
  - apply set_eq. intros i. rewrite elem_of_presence. split; [|set_solver].
    rewrite Hd. intros [Hi Ht]. destruct (lookup_lt_is_Some_2 _ _ Hi) as [f Hi'].
    by rewrite (proj1 (Hf i f Hi')) in Ht.
  - intros i f Hi. exact (proj2 (Hf i f Hi)).
Qed.
End Theorems.

Section Witnesses.
#[local] Existing Instance ample_alloc.

Definition wit_driver : obus_enum_driver := EnumDriver 1 4 1 (fun v => (0 <=? v) && (v <? 3)) u32 i32.

(** A u8, a string, an array of u16 and an array of strings. *)
Definition wit_desc : obus_struct_desc :=
  StructDesc 1 48 0
    [FieldDesc 1 4 OBUS_PROPERTY OBUS_FIELD_U8 wit_driver 0;
     FieldDesc 2 8 OBUS_PROPERTY OBUS_FIELD_STRING wit_driver 0;
     FieldDesc 3 16 OBUS_PROPERTY (OBUS_FIELD_ARRAY + OBUS_FIELD_U16) wit_driver 24;
     FieldDesc 4 32 OBUS_PROPERTY (OBUS_FIELD_ARRAY + OBUS_FIELD_STRING) wit_driver 40].

Lemma wit_desc_ok : desc_ok wit_desc.
Proof.
  constructor; [|apply (bool_decide_unpack _); vm_compute; exact I..|vm_compute; done].
  repeat constructor; cbn; try lia; vm_compute; congruence.
Qed.

Definition wit_struct : obus_struct :=
  Struct wit_desc (list_to_map
    [(0, CVal (VNum 7)); (4, CVal (VNum 5)); (8, CVal (VStr (CHeap 1)));
     (16, CArr (Some [VNum 1; VNum 2])); (24, CVal (VNum 2));
     (32, CArr None); (40, CVal (VNum 0))]).

Definition wit_contents : list (option fval) :=
  [Some (FScalar (ANum 5)); Some (FScalar (AStr (Some [104; 105])));
   Some (FArray [ANum 1; ANum 2]); None].

Lemma wit_struct_shape : struct_shape wit_struct.
Proof.
  constructor; [exact wit_desc_ok| |].
  - apply Forall_cons; split; [exists (VNum 5); split; [reflexivity|vm_compute; split; congruence]|].
    apply Forall_cons; split; [exists (VStr (CHeap 1)); split; [reflexivity|done]|].
    apply Forall_cons; split;
      [split; [exists (Some [VNum 1; VNum 2])|exists 2]; (split; [reflexivity|])|].
    + intros l [= <-]. repeat (apply Forall_cons; split); [vm_compute; split; congruence..|by apply Forall_nil].
    + lia.
    + apply Forall_cons; split; [|by apply Forall_nil].
      split; [exists None|exists 0]; (split; [reflexivity|done]).
  - intros [|[|k]] Hk; [|vm_compute in Hk; lia..]. exists 7. split; [reflexivity|lia].
Qed.

Lemma wit_struct_denotes : struct_denotes wit_mem wit_struct wit_contents.
Proof.
  constructor; [done| |].
  - intros [|[|[|[|i]]]] o H; try done; injection H as <-; vm_compute; done.
  - intros [|[|[|[|i]]]] f c Hf Hc; try done; injection Hf as <-; injection Hc as <-; vm_compute.
    + split; [done|]. by eexists.
    + split; [done|]. by eexists.
    + split_and!; [done..|]. eexists. split; [done|]. right. eexists. split; [done|].
      repeat constructor.
Qed.

Lemma wit_contents_ok : contents_ok wit_desc wit_contents.
Proof.
  intros [|[|[|[|i]]]] f c Hf Hc; try done; injection Hf as <-; injection Hc as <-.
  - vm_compute. split; congruence.
  - split; [|done]. repeat (apply Forall_cons; split); [lia..|by apply Forall_nil].
  - split; [|done].
    repeat (apply Forall_cons; split); [vm_compute; split; congruence..|by apply Forall_nil].
Qed.

Lemma wit_mem_wf : mem_wf wit_mem.
Proof. intros p [x Hx]. cbn in *. apply lookup_singleton_Some in Hx as [<- _]. done. Qed.

Lemma struct_roundtrip_witness :
  struct_denotes wit_mem wit_struct wit_contents /\
  wp ('(ret, b') ← obus_struct_encode wit_struct wit_buf;
      if failed ret then mret None
      else r ← obus_struct_decode (calloc_struct wit_desc) b'; mret (Some r))
     (fun r m' => exists st' b', r = Some (0, st', b') /\ buf_rest b' = [] /\
        struct_shape st' /\ struct_denotes m' st' (struct_back wit_desc wit_contents)) wit_mem.
Proof.
  split; [exact wit_struct_denotes|].
  apply (struct_roundtrip wit_struct wit_contents (calloc_struct wit_desc) wit_buf wit_mem).
  - exact wit_mem_wf.
  - exact wit_buf_wf.
  - reflexivity.
  - cbn. lia.
  - exact wit_struct_shape.
  - exact wit_struct_denotes.
  - exact wit_contents_ok.
  - apply calloc_shape, wit_desc_ok.
  - reflexivity.
  - vm_compute. congruence.
Defined.

Lemma struct_decode_safe_witness :
  struct_shape wit_struct /\
  wp (obus_struct_decode wit_struct wit_buf)
     (fun r m' => let '(ret, st', b') := r in
        (ret = 0 \/ failed ret = true) /\ moved wit_buf b' /\ grows wit_mem m' /\ struct_shape st' /\
        st_desc st' = st_desc wit_struct) wit_mem.
Proof.
  split; [exact wit_struct_shape|]. apply (struct_decode_safe wit_struct wit_buf wit_mem).
  - exact wit_struct_shape.
  - exact wit_buf_wf.
  - exact wit_mem_wf.
Defined.

Lemma presence_refines_set_witness :
  struct_shape wit_struct /\
  wp ('(codes, st') ← run_bit_ops [ClearBit 1; SetBit 3; SetBit 9; SetAll] wit_struct; mret (codes, st'))
     (fun r m' => let '(codes, st') := r in
        changes_at (word_offsets (st_desc wit_struct)) wit_struct st' /\
        exists X, (codes, X) = spec_bit_ops 4 [ClearBit 1; SetBit 3; SetBit 9; SetAll] (presence wit_struct) /\
          (forall i, wp (obus_struct_has_field st' i) (fun b _ => b = bool_decide (i ∈ X)) m') /\
          wp (obus_struct_is_empty st') (fun b _ => b = true <-> X = ∅) m') wit_mem.
Proof.
  split; [exact wit_struct_shape|].
  exact (presence_refines_set [ClearBit 1; SetBit 3; SetBit 9; SetAll] wit_struct wit_mem wit_struct_shape).
Defined.

Lemma struct_init_defaults_witness :
  desc_ok wit_desc /\
  wp (obus_struct_init (calloc_struct wit_desc))
     (fun r m' => let '(ret, st) := r in
        ret = 0 /\ m' = mem0 /\ struct_shape st /\ presence st = ∅ /\
        forall i f, sd_fields wit_desc !! i = Some f ->
          field_denotes mem0 (st_mem st) f (fval_default f)) mem0.
Proof. split; [exact wit_desc_ok|exact (struct_init_defaults wit_desc mem0 wit_desc_ok)]. Defined.

(** One field, the array of strings, announced with two items, whose bytes
    are no string: the first length word says 9 and no character follows. *)
Definition bad_array_buf : buffer :=
  Buffer 16 13 0 [0; 1; 0; 4; 137; 0; 0; 0; 2; 0; 0; 0; 9; 0; 0; 0] 1.

(** A failed array decode leaves a structure that cannot be destroyed.
    Bytes that announce two strings and hold none make
    [obus_field_array_decode] free the item array but keep the item count: the
    structure decodes with code 0 and no field present, and destroying it
    then reads the second item at an offset from the null pointer. *)
Theorem array_decode_failure_breaks_destroy :
  match obus_struct_decode (calloc_struct wit_desc) bad_array_buf mem0 with
  | Some ((ret, st, _), m) =>
    ret = 0 /\ presence st = ∅ /\ st_mem st !! 32 = Some (CArr None) /\
    st_mem st !! 40 = Some (CVal (VNum 2)) /\ obus_struct_destroy st m = None
  | None => False
  end.
Proof. vm_compute. done. Qed.
End Witnesses.
