(* ===== verification/BusApi.v ===== *)
(** * obus_bus_api.c: the descriptor tables of a bus, indexed by uid *)
From S2P Require Import Prelude Mem Desc Hash.

Definition MTD_KEY (objuid uid : Z) : Z := u32 (Z.lor (Z.shiftl objuid 16) uid).
Definition EVT_KEY (objuid uid : Z) : Z := u32 (Z.lor (Z.shiftl objuid 16) uid).

Record obus_bus_api := BusApi {
  api_desc : obus_bus_desc;
  api_obj_desc : obus_hash obus_object_desc;        (* hashes[HASH_OBJ_DESC] *)
  api_mtd_desc : obus_hash obus_method_desc;        (* hashes[HASH_MTD_DESC] *)
  api_evt_desc : obus_hash obus_event_desc;         (* hashes[HASH_EVT_DESC] *)
  api_bus_evt_desc : obus_hash obus_bus_event_desc  (* hashes[HASH_BUS_EVT_DESC] *)
}.

Definition zero_hash {D} : obus_hash D := Hash [] 0 [].

Section Ops.
Context {AL : Allocator}.

(** [obus_hash_init] of a hash that is a member of a larger structure. *)
Definition init_member {D} (size : Z) : M (Z * obus_hash D) :=
  '(ret, h) ← obus_hash_init HomeMember size;
  match h with Some h => mret (ret, h) | None => m_undef end.

Definition insert_methods (objuid : Z) (l : list obus_method_desc) :=
  for_each l (fun mtd h => obus_hash_insert_const h (MTD_KEY objuid (md_uid mtd)) mtd).

Definition insert_events (objuid : Z) (l : list obus_event_desc) :=
  for_each l (fun evt h => obus_hash_insert_const h (EVT_KEY objuid (evd_uid evt)) evt).

Definition obus_bus_api_add_object (obj : obus_object_desc) (api : obus_bus_api)
  : M (Z * obus_bus_api) :=
  '(ret, h) ← obus_hash_insert_const (api_obj_desc api) (od_uid obj) obj;
  let api := BusApi (api_desc api) h (api_mtd_desc api) (api_evt_desc api) (api_bus_evt_desc api) in
  if failed ret then mret (ret, api) else
  '(ret, h) ← insert_methods (od_uid obj) (od_methods obj) (api_mtd_desc api);
  let api := BusApi (api_desc api) (api_obj_desc api) h (api_evt_desc api) (api_bus_evt_desc api) in
  if failed ret then mret (ret, api) else
  '(ret, h) ← insert_events (od_uid obj) (od_events obj) (api_evt_desc api);
  let api := BusApi (api_desc api) (api_obj_desc api) (api_mtd_desc api) h (api_bus_evt_desc api) in
  if failed ret then mret (ret, api) else mret (0, api).

Definition insert_bus_events (l : list obus_bus_event_desc) :=
  for_each l (fun evt h => obus_hash_insert_const h (bed_uid evt) evt).

Definition obus_bus_api_destroy (api : obus_bus_api) : Z * obus_bus_api :=
  (0, BusApi (api_desc api) (snd (obus_hash_destroy (api_obj_desc api)))
        (snd (obus_hash_destroy (api_mtd_desc api))) (snd (obus_hash_destroy (api_evt_desc api)))
        (snd (obus_hash_destroy (api_bus_evt_desc api)))).

Definition sum_of {A} (f : A -> Z) (l : list A) : Z := fold_left (fun n x => u64 (n + f x)) l 0.

(** The error labels destroy the hashes initialised so far, in reverse. *)
Definition obus_bus_api_init (desc : obus_bus_desc) : M (Z * obus_bus_api) :=
  let api := BusApi desc zero_hash zero_hash zero_hash zero_hash in
  '(ret, ho) ← init_member (Z.of_nat (length (bd_objects desc)));
  if failed ret then mret (ret, api) else
  let n_methods := sum_of (fun o => Z.of_nat (length (od_methods o))) (bd_objects desc) in
  '(ret, hm) ← init_member n_methods;
  if failed ret then mret (ret, api) else
  let n_events := sum_of (fun o => Z.of_nat (length (od_events o))) (bd_objects desc) in
  '(ret, he) ← init_member n_events;
  if failed ret then mret (ret, api) else
  '(ret, hb) ← init_member (Z.of_nat (length (bd_events desc)));
  if failed ret then mret (ret, api) else
  '(ret, api) ← for_each (bd_objects desc) obus_bus_api_add_object (BusApi desc ho hm he hb);
  if failed ret then mret (ret, snd (obus_bus_api_destroy api)) else
  '(ret, hb) ← insert_bus_events (bd_events desc) (api_bus_evt_desc api);
  let api := BusApi (api_desc api) (api_obj_desc api) (api_mtd_desc api) (api_evt_desc api) hb in
  if failed ret then mret (ret, snd (obus_bus_api_destroy api)) else
  mret (0, api).

Definition obus_bus_api_object (api : obus_bus_api) (uid : Z) : M (option obus_object_desc) :=
  if uid =? OBUS_INVALID_UID then mret None else
  '(ret, obj) ← obus_hash_lookup_const (api_obj_desc api) uid;
  mret (if ret =? 0 then obj else None).

Definition obus_bus_api_method (api : obus_bus_api) (objuid mtduid : Z)
  : M (option obus_method_desc) :=
  if (objuid =? OBUS_INVALID_UID) || (mtduid =? OBUS_INVALID_UID) then mret None else
  '(ret, call) ← obus_hash_lookup_const (api_mtd_desc api) (MTD_KEY objuid mtduid);
  mret (if ret =? 0 then call else None).

Definition obus_bus_api_event (api : obus_bus_api) (objuid evtuid : Z)
  : M (option obus_event_desc) :=
  if (objuid =? OBUS_INVALID_UID) || (evtuid =? OBUS_INVALID_UID) then mret None else
  '(ret, evt) ← obus_hash_lookup_const (api_evt_desc api) (EVT_KEY objuid evtuid);
  mret (if ret =? 0 then evt else None).

Definition obus_bus_api_bus_event (api : obus_bus_api) (uid : Z)
  : M (option obus_bus_event_desc) :=
  if uid =? OBUS_INVALID_UID then mret None else
  '(ret, evt) ← obus_hash_lookup_const (api_bus_evt_desc api) uid;
  mret (if ret =? 0 then evt else None).
End Ops.

(** ** The tables after initialisation *)

Definition mtd_table (objs : list obus_object_desc) : list (Z * obus_method_desc) :=
  flat_map (fun o => map (fun x => (MTD_KEY (od_uid o) (md_uid x), x)) (od_methods o)) objs.
Definition evt_table (objs : list obus_object_desc) : list (Z * obus_event_desc) :=
  flat_map (fun o => map (fun x => (EVT_KEY (od_uid o) (evd_uid x), x)) (od_events o)) objs.
Definition obj_table (objs : list obus_object_desc) : list (Z * obus_object_desc) :=
  map (fun o => (od_uid o, o)) objs.
Definition bus_evt_table (l : list obus_bus_event_desc) : list (Z * obus_bus_event_desc) :=
  map (fun e => (bed_uid e, e)) l.

Definition uid_ok (uid : Z) : Prop := 0 < uid < 2 ^ 16.

(** What the generated descriptions satisfy: 16-bit uids, not 0, distinct. *)
Record bus_desc_ok (d : obus_bus_desc) : Prop := {
  bo_objects : NoDup (map od_uid (bd_objects d));
  bo_events : NoDup (map bed_uid (bd_events d));
  bo_obj : forall o, o ∈ bd_objects d -> uid_ok (od_uid o) /\
    NoDup (map md_uid (od_methods o)) /\ Forall (fun x => uid_ok (md_uid x)) (od_methods o) /\
    NoDup (map evd_uid (od_events o)) /\ Forall (fun x => uid_ok (evd_uid x)) (od_events o)
}.

Lemma key_pair a b : uid_ok a -> uid_ok b -> u32 (Z.lor (Z.shiftl a 16) b) = a * 2 ^ 16 + b.
Proof.
  unfold uid_ok. intros Ha Hb. rewrite Z.shiftl_mul_pow2 by lia.
  assert (Z.lor (a * 2 ^ 16) b = a * 2 ^ 16 + b) as ->; [|apply u32_small; lia].
  rewrite <- Z.lxor_lor, <- Z.add_nocarry_lxor; try done.
  all: apply Z.bits_inj'; intros n Hn; rewrite Z.land_spec, Z.bits_0.
  all: destruct (Z.ltb_spec n 16);
    [rewrite Z.mul_pow2_bits_low by lia; done
    |rewrite (Z.bits_above_log2 b n), andb_false_r; [done|lia|]].
  all: pose proof (proj1 (Z.log2_lt_pow2 b 16 ltac:(lia)) ltac:(lia)); lia.
Qed.

Lemma MTD_KEY_inj a b a' b' :
  uid_ok a -> uid_ok b -> uid_ok a' -> uid_ok b' -> MTD_KEY a b = MTD_KEY a' b' -> a = a' /\ b = b'.
Proof. unfold MTD_KEY. intros. rewrite !key_pair in * by done. unfold uid_ok in *. lia. Qed.

(** The keys of one object are distinct, and disjoint from those of another. *)
Lemma keyed_NoDup {A} (uid : A -> Z) (sub : obus_object_desc -> list A) objs :
  NoDup (map od_uid objs) ->
  (forall o, o ∈ objs -> uid_ok (od_uid o) /\ NoDup (map uid (sub o)) /\
     Forall (fun x => uid_ok (uid x)) (sub o)) ->
  NoDup (map fst (flat_map (fun o => map (fun x => (MTD_KEY (od_uid o) (uid x), x)) (sub o)) objs)).
Proof.
  induction objs as [|o objs IH]; intros Hn Ho; [by constructor|].
  cbn [flat_map map] in *. apply NoDup_cons in Hn as [Hni Hn]. rewrite map_app.
  destruct (Ho o) as (Hu & Hs & Hr); [by left|]. rewrite Forall_forall in Hr.
  apply NoDup_app. split_and!.
  - rewrite map_map. cbn [fst]. clear -Hu Hs Hr. induction (sub o) as [|x l IH]; [by constructor|].
    cbn [map] in *. apply NoDup_cons in Hs as [Hx Hs]. apply NoDup_cons. split; [|set_solver].
    intros (y & He & Hy)%list_elem_of_fmap. apply Hx. apply list_elem_of_fmap. exists y.
    split; [|done]. apply (MTD_KEY_inj (od_uid o) (uid x) (od_uid o) (uid y)); set_solver.
  - intros k (kx & -> & Hk)%list_elem_of_fmap (ky & He & Hk')%list_elem_of_fmap.
    apply list_elem_of_fmap in Hk as (x & -> & Hx).
    apply list_elem_of_In, in_flat_map in Hk' as (o' & Ho'%list_elem_of_In & Hk'%list_elem_of_In).
    apply list_elem_of_fmap in Hk' as (y & -> & Hy). cbn in He.
    destruct (Ho o') as (Hu' & _ & Hr'); [by right|]. rewrite Forall_forall in Hr'.
    apply MTD_KEY_inj in He as [He _]; [|by auto..]. apply Hni. rewrite He.
    by apply list_elem_of_fmap_2.
  - apply IH; [done|]. intros o' Ho'. apply Ho. by right.
Qed.

Record api_holds (api : obus_bus_api) (objs : list obus_object_desc)
    (evts : list obus_bus_event_desc) (m : mem) : Prop := {
  ah_obj_wf : hash_wf (api_obj_desc api) m;
  ah_mtd_wf : hash_wf (api_mtd_desc api) m;
  ah_evt_wf : hash_wf (api_evt_desc api) m;
  ah_bus_wf : hash_wf (api_bus_evt_desc api) m;
  ah_obj : contents (api_obj_desc api) = const_table (obj_table objs);
  ah_mtd : contents (api_mtd_desc api) = const_table (mtd_table objs);
  ah_evt : contents (api_evt_desc api) = const_table (evt_table objs);
  ah_bus : contents (api_bus_evt_desc api) = const_table (bus_evt_table evts)
}.

Section Specs.
Context {AL : Allocator} `{!AmpleMemory AL}.

Lemma wp_api_add_object d pre o post api m :
  bus_desc_ok d -> bd_objects d = pre ++ o :: post -> api_holds api pre [] m ->
  wp (obus_bus_api_add_object o api)
     (fun r m' => fst r = 0 /\ api_holds (snd r) (pre ++ [o]) [] m' /\ (m_count m <= m_count m')%nat) m.
Proof.
  intros D Hp [W1 W2 W3 W4 C1 C2 C3 C4]. unfold obus_bus_api_add_object.
  assert (forall (A : Type) (uid : A -> Z) (sub : obus_object_desc -> list A),
    (forall o, o ∈ bd_objects d -> uid_ok (od_uid o) /\ NoDup (map uid (sub o)) /\
       Forall (fun x => uid_ok (uid x)) (sub o)) ->
    NoDup (map fst (flat_map (fun o => map (fun x => (MTD_KEY (od_uid o) (uid x), x)) (sub o)) pre)
           ++ map (fun x => MTD_KEY (od_uid o) (uid x)) (sub o))) as HND.
  { intros A uid sub Hs. pose proof (keyed_NoDup uid sub _ (bo_objects _ D) Hs) as Hn.
    rewrite Hp, flat_map_app, map_app in Hn. cbn [flat_map] in Hn.
    rewrite map_app, map_map, app_assoc in Hn. by apply NoDup_app in Hn as [Hn _]. }
  apply wp_bind, (wp_insert_const_new (obj_table pre)); [done|done| |].
  { pose proof (bo_objects _ D) as Hn. rewrite Hp, map_app in Hn.
    unfold obj_table. rewrite map_map. apply NoDup_app in Hn as (_ & Hd & _).
    intros Hk. apply (Hd _ Hk). by left. }
  intros ho m1 Wo Hm1 Co. cbn [failed Z.ltb Z.compare]. cbn zeta.
  cbn [api_desc api_obj_desc api_mtd_desc api_evt_desc api_bus_evt_desc].
  apply wp_bind, (wp_insert_consts (fun x => MTD_KEY (od_uid o) (md_uid x)) _ (mtd_table pre));
    [by eapply hash_wf_later|done|apply HND; intros o' Ho'; by destruct (bo_obj _ D o' Ho') as (? & ? & ? & ? & ?)|].
  intros hm m2 Wm Hm2 Cm. cbn [failed Z.ltb Z.compare].
  cbn [api_desc api_obj_desc api_mtd_desc api_evt_desc api_bus_evt_desc].
  apply wp_bind, (wp_insert_consts (fun x => EVT_KEY (od_uid o) (evd_uid x)) _ (evt_table pre));
    [eapply hash_wf_later; [done|lia]|done|apply HND; intros o' Ho'; by destruct (bo_obj _ D o' Ho') as (? & ? & ? & ? & ?)|].
  intros he m3 We Hm3 Ce. apply wp_ret. cbn [fst snd]. split; [done|]. split; [|lia].
  constructor; cbn [api_desc api_obj_desc api_mtd_desc api_evt_desc api_bus_evt_desc];
    try (eapply hash_wf_later; [eassumption|lia]).
  - rewrite Co. unfold obj_table. by rewrite map_app.
  - rewrite Cm. unfold mtd_table. rewrite flat_map_app. cbn. by rewrite app_nil_r.
  - rewrite Ce. unfold evt_table. rewrite flat_map_app. cbn. by rewrite app_nil_r.
  - done.
Qed.

Lemma wp_init_member {D} size m (Q : Z * obus_hash D -> mem -> Prop) :
  (forall h m', hash_wf h m' -> (m_count m <= m_count m')%nat -> contents h = const_table [] ->
     Q (0, h) m') ->
  wp (init_member size) Q m.
Proof.
  intros HQ. unfold init_member. apply wp_bind, wp_hash_init; [| |done].
  - intros _ k. apply malloc_ample. unfold hash_prime_tab. cbn [prime_scan].
    assert (forall tab, Forall (fun p => p <= 2147483647) tab -> prime_scan tab size <= 2147483647) as H.
    { induction tab as [|p [|q tab] IH]; intros Hf; [cbn; lia|by inversion Hf|].
      inversion Hf; subst. cbn [prime_scan]. destruct (p <=? size); [by apply IH|done]. }
    etransitivity; [apply Z.mul_le_mono_nonneg_r; [lia|apply (H hash_prime_tab)]|].
    + repeat (apply Forall_cons; split); [lia..|by apply Forall_nil].
    + unfold PTRDIFF_MAX. lia.
  - intros h m' _ Hm W He _. apply wp_ret, HQ; [done|done|]. unfold contents. by rewrite He.
Qed.

Lemma wp_bus_api_init d m (Q : Z * obus_bus_api -> mem -> Prop) :
  bus_desc_ok d ->
  (forall api m', api_holds api (bd_objects d) (bd_events d) m' -> (m_count m <= m_count m')%nat ->
     Q (0, api) m') ->
  wp (obus_bus_api_init d) Q m.
Proof.
  intros D HQ. unfold obus_bus_api_init.
  apply wp_bind, wp_init_member. intros ho m1 Wo Hm1 Co. cbn [failed Z.ltb Z.compare].
  apply wp_bind, wp_init_member. intros hm m2 Wm Hm2 Cm. cbn [failed Z.ltb Z.compare].
  apply wp_bind, wp_init_member. intros he m3 We Hm3 Ce. cbn [failed Z.ltb Z.compare].
  apply wp_bind, wp_init_member. intros hb m4 Wb Hm4 Cb. cbn [failed Z.ltb Z.compare].
  apply wp_bind.
  set (I := fun (pre : list obus_object_desc) (api : obus_bus_api) (m' : mem) =>
    api_holds api pre [] m' /\ (m_count m4 <= m_count m')%nat).
  eapply wp_mono; [apply (wp_for_each I (fun _ _ _ => False)) with (done := [])|].
  - split; [|done]. constructor; try (eapply hash_wf_later; [eassumption|lia]); done.
  - intros pre o post api m5 Hp [Hh Hm5]. cbn in Hp.
    eapply wp_mono; [by apply (wp_api_add_object d pre o post)|].
    intros [ret api'] m6 (Hr & Hh' & Hm6). cbn [fst snd] in *. subst ret. cbn. split; [done|lia].
  - intros [ret api] m5 [[-> [Hh Hm5]]|[_ []]]. cbn [app] in Hh. cbn [failed Z.ltb Z.compare].
    destruct Hh as [V1 V2 V3 V4 E1 E2 E3 E4].
    apply wp_bind, (wp_insert_consts bed_uid _ []); [done|done|apply D|].
    intros hb' m6 Wb' Hm6 Cb'. cbn [failed Z.ltb Z.compare]. apply wp_ret, HQ; [|lia].
    constructor; cbn [api_desc api_obj_desc api_mtd_desc api_evt_desc api_bus_evt_desc];
      try (eapply hash_wf_later; [eassumption|lia]); done.
Qed.

Lemma elem_of_keyed {A} (uid : A -> Z) (sub : obus_object_desc -> list A) objs key x :
  (key, x) ∈ flat_map (fun o => map (fun x => (MTD_KEY (od_uid o) (uid x), x)) (sub o)) objs <->
  exists o, o ∈ objs /\ x ∈ sub o /\ key = MTD_KEY (od_uid o) (uid x).
Proof.
  rewrite list_elem_of_In, in_flat_map. split.
  - intros (o & Ho%list_elem_of_In & Hx%list_elem_of_In).
    apply list_elem_of_fmap in Hx as (y & [= -> ->] & Hy). by exists o.
  - intros (o & Ho & Hx & ->). exists o. split; apply list_elem_of_In; [done|].
    apply list_elem_of_fmap. by exists x.
Qed.

(** The lookup of the [uid] b in the object uid [a], for methods and events. *)
Lemma wp_keyed_lookup {A} (uid : A -> Z) (sub : obus_object_desc -> list A) objs h a b m
    (Q : option A -> mem -> Prop) :
  hash_wf h m ->
  contents h = const_table
    (flat_map (fun o => map (fun x => (MTD_KEY (od_uid o) (uid x), x)) (sub o)) objs) ->
  (forall o, o ∈ objs -> uid_ok (od_uid o) /\ Forall (fun x => uid_ok (uid x)) (sub o)) ->
  0 <= a < 2 ^ 16 -> 0 <= b < 2 ^ 16 ->
  (forall o x, o ∈ objs -> od_uid o = a -> x ∈ sub o -> uid x = b -> Q (Some x) m) ->
  ((forall o x, o ∈ objs -> od_uid o = a -> x ∈ sub o -> uid x <> b) -> Q None m) ->
  wp (if (a =? OBUS_INVALID_UID) || (b =? OBUS_INVALID_UID) then mret None else
      '(ret, x) ← obus_hash_lookup_const h (MTD_KEY a b); mret (if ret =? 0 then x else None)) Q m.
Proof.
  intros W Hc Ho Ha Hb H1 H2. unfold OBUS_INVALID_UID.
  assert (forall o x, o ∈ objs -> x ∈ sub o -> uid_ok (od_uid o) /\ uid_ok (uid x)) as Hu.
  { intros o x Hin Hx. destruct (Ho o Hin) as [? Hf]. rewrite Forall_forall in Hf. auto. }
  destruct (Z.eqb_spec a 0) as [->|Ha0].
  { apply wp_ret, H2. intros o x Hin He Hx. destruct (Hu o x Hin Hx) as [Hu1 _].
    unfold uid_ok in *. lia. }
  destruct (Z.eqb_spec b 0) as [->|Hb0]; cbn [orb].
  { apply wp_ret, H2. intros o x Hin He Hx He'. destruct (Hu o x Hin Hx) as [_ Hu1].
    unfold uid_ok in *. lia. }
  apply wp_bind, (wp_lookup_const_table _ _ _ _ _ W Hc).
  - intros x (o & Hin & Hx & Hk)%elem_of_keyed. destruct (Hu o x Hin Hx).
    apply MTD_KEY_inj in Hk as [E1 E2]; [|unfold uid_ok in *; lia..].
    apply wp_ret. cbn. by apply (H1 o x).
  - intros Hn. apply wp_ret. cbn. apply H2. intros o x Hin He Hx He'. apply (Hn x).
    apply elem_of_keyed. exists o. by rewrite He, He'.
Qed.

Lemma wp_uid_lookup {A} (uid : A -> Z) l h a m (Q : option A -> mem -> Prop) :
  hash_wf h m -> contents h = const_table (map (fun x => (uid x, x)) l) ->
  (forall x, x ∈ l -> a = 0 -> uid x <> 0) ->
  (forall x, x ∈ l -> uid x = a -> Q (Some x) m) ->
  ((forall x, x ∈ l -> uid x <> a) -> Q None m) ->
  wp (if a =? OBUS_INVALID_UID then mret None else
      '(ret, x) ← obus_hash_lookup_const h a; mret (if ret =? 0 then x else None)) Q m.
Proof.
  intros W Hc H0 H1 H2. unfold OBUS_INVALID_UID. destruct (Z.eqb_spec a 0) as [->|Ha].
  { apply wp_ret, H2. intros x Hx. by apply H0. }
  apply wp_bind, (wp_lookup_const_table _ _ _ _ _ W Hc).
  - intros x (y & [= He ->] & Hy)%list_elem_of_fmap. apply wp_ret. by apply H1.
  - intros Hn. apply wp_ret, H2. intros x Hx He. apply (Hn x). apply list_elem_of_fmap.
    exists x. by rewrite He.
Qed.

(** The lookups in a loaded api, on any heap. *)
Lemma api_object_found d api m0 o m :
  bus_desc_ok d -> api_holds api (bd_objects d) (bd_events d) m0 -> o ∈ bd_objects d ->
  obus_bus_api_object api (od_uid o) m = Some (Some o, m).
Proof.
  intros D H Ho. unfold obus_bus_api_object, OBUS_INVALID_UID.
  destruct (bo_obj _ D o Ho) as ([? ?] & _).
  destruct (Z.eqb_spec (od_uid o) 0); [lia|]. unfold mbind, M_bind.
  rewrite (const_table_lookup (obj_table (bd_objects d)) _ _ o m0); [done|apply H|apply H| |].
  - unfold obj_table. rewrite map_map. apply D.
  - apply list_elem_of_fmap. by exists o.
Qed.

Lemma api_event_found d api m0 o e m :
  bus_desc_ok d -> api_holds api (bd_objects d) (bd_events d) m0 ->
  o ∈ bd_objects d -> e ∈ od_events o ->
  obus_bus_api_event api (od_uid o) (evd_uid e) m = Some (Some e, m).
Proof.
  intros D H Ho He. unfold obus_bus_api_event, OBUS_INVALID_UID.
  destruct (bo_obj _ D o Ho) as ([? ?] & _ & _ & _ & Hf). rewrite Forall_forall in Hf.
  destruct (Hf e He). destruct (Z.eqb_spec (od_uid o) 0); [lia|].
  destruct (Z.eqb_spec (evd_uid e) 0); [lia|]. cbn [orb]. unfold mbind, M_bind.
  rewrite (const_table_lookup (evt_table (bd_objects d)) _ _ e m0); [done|apply H|apply H| |].
  - apply (keyed_NoDup evd_uid); [apply D|]. intros o' Ho'. by destruct (bo_obj _ D o' Ho') as (? & ? & ? & ? & ?).
  - apply (elem_of_keyed evd_uid). by exists o.
Qed.

Lemma api_bus_event_found d api m0 e m :
  bus_desc_ok d -> api_holds api (bd_objects d) (bd_events d) m0 -> e ∈ bd_events d ->
  uid_ok (bed_uid e) -> obus_bus_api_bus_event api (bed_uid e) m = Some (Some e, m).
Proof.
  intros D H He Hu. unfold obus_bus_api_bus_event, OBUS_INVALID_UID. unfold uid_ok in Hu.
  destruct (Z.eqb_spec (bed_uid e) 0); [lia|]. unfold mbind, M_bind.
  rewrite (const_table_lookup (bus_evt_table (bd_events d)) _ _ e m0); [done|apply H|apply H| |].
  - unfold bus_evt_table. rewrite map_map. apply D.
  - apply list_elem_of_fmap. by exists e.
Qed.

Lemma api_method_found d api m0 o x m :
  bus_desc_ok d -> api_holds api (bd_objects d) (bd_events d) m0 ->
  o ∈ bd_objects d -> x ∈ od_methods o ->
  obus_bus_api_method api (od_uid o) (md_uid x) m = Some (Some x, m).
Proof.
  intros D H Ho He. unfold obus_bus_api_method, OBUS_INVALID_UID.
  destruct (bo_obj _ D o Ho) as ([? ?] & _ & Hf & _). rewrite Forall_forall in Hf.
  destruct (Hf x He). destruct (Z.eqb_spec (od_uid o) 0); [lia|].
  destruct (Z.eqb_spec (md_uid x) 0); [lia|]. cbn [orb]. unfold mbind, M_bind.
  rewrite (const_table_lookup (mtd_table (bd_objects d)) _ _ x m0); [done|apply H|apply H| |].
  - apply (keyed_NoDup md_uid); [apply D|]. intros o' Ho'. by destruct (bo_obj _ D o' Ho') as (? & ? & ? & ? & ?).
  - apply (elem_of_keyed md_uid). by exists o.
Qed.

(** C29: once a bus description is loaded (distinct 16-bit uids, memory that
    suffices), every lookup answers exactly from the description: an object by
    its uid, a method or an event by the uid of its object and its own, a bus
    event by its uid; the answer is NULL when there is none, uid 0 included. *)
Theorem bus_api_lookups d m :
  bus_desc_ok d -> Forall (fun e => uid_ok (bed_uid e)) (bd_events d) ->
  wp (obus_bus_api_init d)
     (fun r m' => let '(ret, api) := r in ret = 0 /\
        forall a b, 0 <= a < 2 ^ 16 -> 0 <= b < 2 ^ 16 ->
          wp (obus_bus_api_object api a) (fun o _ => match o with
            | Some o => o ∈ bd_objects d /\ od_uid o = a
            | None => forall o, o ∈ bd_objects d -> od_uid o <> a end) m' /\
          wp (obus_bus_api_method api a b) (fun x _ => match x with
            | Some x => exists o, o ∈ bd_objects d /\ od_uid o = a /\ x ∈ od_methods o /\ md_uid x = b
            | None => forall o x, o ∈ bd_objects d -> od_uid o = a -> x ∈ od_methods o -> md_uid x <> b
            end) m' /\
          wp (obus_bus_api_event api a b) (fun x _ => match x with
            | Some x => exists o, o ∈ bd_objects d /\ od_uid o = a /\ x ∈ od_events o /\ evd_uid x = b
            | None => forall o x, o ∈ bd_objects d -> od_uid o = a -> x ∈ od_events o -> evd_uid x <> b
            end) m' /\
          wp (obus_bus_api_bus_event api a) (fun e _ => match e with
            | Some e => e ∈ bd_events d /\ bed_uid e = a
            | None => forall e, e ∈ bd_events d -> bed_uid e <> a end) m') m.
Proof.
  intros D Hev. apply wp_bus_api_init; [done|].
  intros api m' [W1 W2 W3 W4 C1 C2 C3 C4] _. split; [done|]. intros a b Ha Hb.
  rewrite Forall_forall in Hev. split_and!.
  - eapply wp_uid_lookup; [exact W1|exact C1| |done|done].
    intros x Hx _. destruct (bo_obj _ D x Hx) as [Hu _]. unfold uid_ok in Hu. lia.
  - eapply (wp_keyed_lookup md_uid); [exact W2|exact C2| |done|done| |done].
    + intros o Hin. destruct (bo_obj _ D o Hin) as (? & ? & ? & ? & ?). done.
    + intros o x. by exists o.
  - eapply (wp_keyed_lookup evd_uid); [exact W3|exact C3| |done|done| |done].
    + intros o Hin. destruct (bo_obj _ D o Hin) as (? & ? & ? & ? & ?). done.
    + intros o x. by exists o.
  - eapply wp_uid_lookup; [exact W4|exact C4| |done|done].
    intros x Hx _. specialize (Hev x Hx). unfold uid_ok in Hev. lia.
Qed.
End Specs.

Section Witnesses.
#[local] Existing Instance ample_alloc.

Definition wit_method : obus_method_desc := MethodDesc 21 1 None.
Definition wit_event : obus_event_desc := EventDesc 31 1 [].
Definition wit_info : obus_struct_desc := StructDesc 2 4 0 [].
Definition wit_object : obus_object_desc := ObjectDesc 11 1 wit_info [wit_event] [wit_method].
Definition wit_bus : obus_bus_desc := BusDesc [wit_object] [BusEventDesc 41 1] 77.

Lemma wit_bus_ok : bus_desc_ok wit_bus.
Proof.
  constructor; [apply NoDup_singleton..|].
  intros o ->%list_elem_of_singleton. cbn.
  unfold uid_ok. repeat split; try apply NoDup_singleton; try (apply Forall_singleton; cbn); lia.
Qed.

Lemma bus_api_lookups_witness :
  wp (obus_bus_api_init wit_bus)
     (fun r m' => let '(ret, api) := r in ret = 0 /\
        wp (obus_bus_api_object api 1) (fun o _ => match o with
            | Some o => o ∈ [wit_object] /\ od_uid o = 1
            | None => forall o, o ∈ [wit_object] -> od_uid o <> 1 end) m') mem0.
Proof.
  eapply wp_mono; [apply (bus_api_lookups wit_bus mem0)|].
  - exact wit_bus_ok.
  - apply Forall_singleton. unfold uid_ok. cbn. lia.
  - intros [ret api] m' [-> H]. split; [done|]. apply (H 1 1); lia.
Defined.
End Witnesses.
