(* ===== verification/World.v ===== *)
(** * obus_object.h, obus_call.h, obus_bus_event.h, obus_bus.h: the typed heap

    Objects, events, calls, bus events and providers refer to each other by
    pointer, so they live in stores by address, next to the bus whose tables
    hold the pointers.  [W] is the state monad over that heap; an access to a
    freed structure is undefined behaviour ([None]), and so is linking a node
    that is already in a list or unlinking one that is in none, which corrupts
    the intrusive lists.  An intrusive list is the sequence of the addresses of
    its members (file DList relates the two). *)
From S2P Require Import Prelude Mem Cstring Buffer Desc Field Struct Hash BusApi.

(** ** Enumerations of libobus.h *)

Inductive obus_call_status :=
| OBUS_CALL_INVALID | OBUS_CALL_ACKED | OBUS_CALL_ABORTED | OBUS_CALL_METHOD_DISABLED
| OBUS_CALL_METHOD_NOT_SUPPORTED | OBUS_CALL_INVALID_ARGUMENTS | OBUS_CALL_REFUSED
| OBUS_CALL_STATUS (n : Z).   (* any other value cast to the enumeration *)

Definition call_status_num (s : obus_call_status) : Z :=
  match s with
  | OBUS_CALL_INVALID => 0 | OBUS_CALL_ACKED => 1 | OBUS_CALL_ABORTED => 2
  | OBUS_CALL_METHOD_DISABLED => 3 | OBUS_CALL_METHOD_NOT_SUPPORTED => 4
  | OBUS_CALL_INVALID_ARGUMENTS => 5 | OBUS_CALL_REFUSED => 6
  | OBUS_CALL_STATUS n => n
  end.

(** [(enum obus_call_status) n] *)
Definition call_status_of (n : Z) : obus_call_status :=
  if n =? 0 then OBUS_CALL_INVALID else if n =? 1 then OBUS_CALL_ACKED
  else if n =? 2 then OBUS_CALL_ABORTED else if n =? 3 then OBUS_CALL_METHOD_DISABLED
  else if n =? 4 then OBUS_CALL_METHOD_NOT_SUPPORTED
  else if n =? 5 then OBUS_CALL_INVALID_ARGUMENTS else if n =? 6 then OBUS_CALL_REFUSED
  else OBUS_CALL_STATUS n.

Lemma call_status_num_of n : call_status_num (call_status_of n) = n.
Proof. unfold call_status_of. repeat case_bool; by subst. Qed.

(** ** Structures *)

(** Function pointers are addresses, 0 for NULL. *)
Record obus_object := Object {
  ob_bus : bool;             (* the bus pointer is not NULL *)
  ob_event_node : bool;      (* the event node is in a bus event list *)
  ob_desc : obus_object_desc;
  ob_handle : Z;
  ob_is_registered : bool;
  ob_user_data : Z;
  ob_info : obus_struct;
  ob_handlers : list Z
}.

Record obus_event := Event {
  ev_event_node : bool;      (* the event node is in a bus event list *)
  ev_desc : obus_event_desc;
  ev_obj : positive;
  ev_is_allocated : bool;
  ev_is_committed : bool;
  ev_info : obus_struct
}.

Record obus_call := Call {
  cl_desc : obus_method_desc;
  cl_obj : positive;
  cl_handle : Z;
  cl_peer : option positive;
  cl_status : obus_call_status;
  cl_args_desc : option obus_struct_desc;
  cl_args : option obus_struct;    (* [None]: the address is NULL *)
  cl_cb : Z
}.

Record obus_bus_event := BusEvent {
  be_desc : obus_bus_event_desc;
  be_add_objs : list positive;
  be_remove_objs : list positive;
  be_obj_events : list positive;
  be_is_committed : bool;
  be_is_allocated : bool
}.

Record obus_provider := Provider {
  pv_desc : obus_object_desc;
  pv_add : Z;
  pv_remove : Z;
  pv_event : Z;
  pv_user_data : Z
}.

Record obus_bus := Bus {
  b_api : obus_bus_api;
  b_calls_hash : obus_hash positive;
  b_calls : list positive;
  b_objects_hash : obus_hash positive;
  b_objects : list positive;
  b_providers_hash : obus_hash positive;
  b_providers : list positive
}.

(** [w_notes] records the calls made to call-status handlers, latest last. *)
Record world := World {
  w_bus : obus_bus;
  w_objs : gmap positive obus_object;
  w_evts : gmap positive obus_event;
  w_calls : gmap positive obus_call;
  w_bevs : gmap positive obus_bus_event;
  w_provs : gmap positive obus_provider;
  w_next : positive;
  w_notes : list (positive * Z * obus_call_status)
}.

Definition set_bus (w : world) (b : obus_bus) : world :=
  World b (w_objs w) (w_evts w) (w_calls w) (w_bevs w) (w_provs w) (w_next w) (w_notes w).
Definition set_objs (w : world) o : world :=
  World (w_bus w) o (w_evts w) (w_calls w) (w_bevs w) (w_provs w) (w_next w) (w_notes w).
Definition set_evts (w : world) e : world :=
  World (w_bus w) (w_objs w) e (w_calls w) (w_bevs w) (w_provs w) (w_next w) (w_notes w).
Definition set_calls (w : world) c : world :=
  World (w_bus w) (w_objs w) (w_evts w) c (w_bevs w) (w_provs w) (w_next w) (w_notes w).
Definition set_bevs (w : world) b : world :=
  World (w_bus w) (w_objs w) (w_evts w) (w_calls w) b (w_provs w) (w_next w) (w_notes w).
Definition set_next_addr (w : world) n : world :=
  World (w_bus w) (w_objs w) (w_evts w) (w_calls w) (w_bevs w) (w_provs w) n (w_notes w).
Definition add_note (w : world) n : world :=
  World (w_bus w) (w_objs w) (w_evts w) (w_calls w) (w_bevs w) (w_provs w) (w_next w)
    (w_notes w ++ [n]).

Definition set_api (b : obus_bus) a : obus_bus :=
  Bus a (b_calls_hash b) (b_calls b) (b_objects_hash b) (b_objects b) (b_providers_hash b) (b_providers b).
Definition set_call_tabs (b : obus_bus) h l : obus_bus :=
  Bus (b_api b) h l (b_objects_hash b) (b_objects b) (b_providers_hash b) (b_providers b).
Definition set_objects_hash (b : obus_bus) h : obus_bus :=
  Bus (b_api b) (b_calls_hash b) (b_calls b) h (b_objects b) (b_providers_hash b) (b_providers b).
Definition set_objects (b : obus_bus) l : obus_bus :=
  Bus (b_api b) (b_calls_hash b) (b_calls b) (b_objects_hash b) l (b_providers_hash b) (b_providers b).
Definition set_prov_tabs (b : obus_bus) h l : obus_bus :=
  Bus (b_api b) (b_calls_hash b) (b_calls b) (b_objects_hash b) (b_objects b) h l.

(** ** The state monad over the typed heap *)

Definition W (A : Type) : Type := world -> M (A * world).

#[export] Instance W_ret : MRet W := fun A a w => mret (a, w).
#[export] Instance W_bind : MBind W := fun A B f c w =>
  '(a, w') ← c w; f a w'.

Definition lift {A} (c : M A) : W A := fun w => a ← c; mret (a, w).
Definition w_undef {A} : W A := fun _ => m_undef.
Definition w_gets {A} (f : world -> A) : W A := fun w => mret (f w, w).
Definition w_modify (f : world -> world) : W unit := fun w => mret (tt, f w).

(** The next fresh address. *)
Definition fresh : W positive :=
  fun w => mret (w_next w, set_next_addr w (Pos.succ (w_next w))).

Definition w_lookup {A} (f : world -> gmap positive A) (p : positive) : W A :=
  m ← w_gets f; lift (m_lift (m !! p)).

Definition get_obj := w_lookup w_objs.
Definition get_evt := w_lookup w_evts.
Definition get_call := w_lookup w_calls.
Definition get_bev := w_lookup w_bevs.
Definition get_prov := w_lookup w_provs.
Definition put_obj p o : W unit := w_modify (fun w => set_objs w (<[p := o]> (w_objs w))).
Definition put_evt p e : W unit := w_modify (fun w => set_evts w (<[p := e]> (w_evts w))).
Definition put_call p c : W unit := w_modify (fun w => set_calls w (<[p := c]> (w_calls w))).
Definition put_bev p b : W unit := w_modify (fun w => set_bevs w (<[p := b]> (w_bevs w))).
Definition put_bus b : W unit := w_modify (fun w => set_bus w b).
Definition free_obj p : W unit := w_modify (fun w => set_objs w (delete p (w_objs w))).
Definition free_evt p : W unit := w_modify (fun w => set_evts w (delete p (w_evts w))).
Definition free_call p : W unit := w_modify (fun w => set_calls w (delete p (w_calls w))).
Definition free_bev p : W unit := w_modify (fun w => set_bevs w (delete p (w_bevs w))).

(** Loops over the members of a list at its start (the [_safe] walks). *)
Fixpoint w_fold {A S : Type} (l : list A) (body : A -> S -> W S) (s : S) : W S :=
  match l with
  | [] => mret s
  | x :: l' => s ← body x s; w_fold l' body s
  end.

Definition w_iter {A : Type} (l : list A) (body : A -> W unit) : W unit :=
  w_fold l (fun x _ => body x) tt.

(** [obus_list_add_before (head, node)] and [obus_list_del (node)]. *)
Definition list_link (p : positive) (l : list positive) : W (list positive) :=
  if decide (p ∈ l) then w_undef else mret (l ++ [p]).
Definition list_unlink (p : positive) (l : list positive) : W (list positive) :=
  if decide (p ∈ l) then mret (filter (fun q => q <> p) l) else w_undef.

(** The event node of an object or of an event: linked in one list at most. *)
Definition with_event_node (o : obus_object) (b : bool) : obus_object :=
  Object (ob_bus o) b (ob_desc o) (ob_handle o) (ob_is_registered o) (ob_user_data o)
    (ob_info o) (ob_handlers o).
Definition ev_with_event_node (e : obus_event) (b : bool) : obus_event :=
  Event b (ev_desc e) (ev_obj e) (ev_is_allocated e) (ev_is_committed e) (ev_info e).

Definition mark_obj_linked (p : positive) : W unit :=
  o ← get_obj p;
  if ob_event_node o then w_undef else put_obj p (with_event_node o true).

Definition mark_evt_linked (p : positive) : W unit :=
  e ← get_evt p;
  if ev_event_node e then w_undef else put_evt p (ev_with_event_node e true).

Definition drop_obj (p : positive) (b : obus_bus_event) : obus_bus_event :=
  BusEvent (be_desc b) (filter (fun q => q <> p) (be_add_objs b))
    (filter (fun q => q <> p) (be_remove_objs b)) (be_obj_events b)
    (be_is_committed b) (be_is_allocated b).
Definition drop_evt (p : positive) (b : obus_bus_event) : obus_bus_event :=
  BusEvent (be_desc b) (be_add_objs b) (be_remove_objs b)
    (filter (fun q => q <> p) (be_obj_events b)) (be_is_committed b) (be_is_allocated b).

(** [obus_list_del (&obj->event_node)]: out of the bus event that holds it. *)
Definition unlink_obj (p : positive) : W unit :=
  o ← get_obj p;
  if ob_event_node o then
    put_obj p (with_event_node o false);;
    w_modify (fun w => set_bevs w (drop_obj p <$> w_bevs w))
  else w_undef.

Definition unlink_evt (p : positive) : W unit :=
  e ← get_evt p;
  if ev_event_node e then
    put_evt p (ev_with_event_node e false);;
    w_modify (fun w => set_bevs w (drop_evt p <$> w_bevs w))
  else w_undef.

(** ** Weakest preconditions *)

Definition wpw {A} (c : W A) (Q : A -> world -> mem -> Prop) (w : world) (m : mem) : Prop :=
  wp (c w) (fun r m' => Q (fst r) (snd r) m') m.

Section WPW.
Context {A B : Type}.

Lemma wpw_ret (a : A) (Q : A -> world -> mem -> Prop) w m : Q a w m -> wpw (mret a) Q w m.
Proof. intros H. by apply wp_ret. Qed.

Lemma wpw_bind (c : W A) (f : A -> W B) (Q : B -> world -> mem -> Prop) w m :
  wpw c (fun a w' m' => wpw (f a) Q w' m') w m -> wpw (c ≫= f) Q w m.
Proof.
  intros H. unfold wpw, mbind, W_bind. eapply wp_bind_mono; [exact H|]. by intros [a w'] m'.
Qed.

Lemma wpw_mono (c : W A) (Q Q' : A -> world -> mem -> Prop) w m :
  wpw c Q w m -> (forall a w' m', Q a w' m' -> Q' a w' m') -> wpw c Q' w m.
Proof. intros H Hi. eapply wp_mono; [exact H|]. intros [a w'] m'. apply Hi. Qed.

Lemma wpw_lift (c : M A) (Q : A -> world -> mem -> Prop) w m :
  wp c (fun a m' => Q a w m') m -> wpw (lift c) Q w m.
Proof. intros H. unfold wpw, lift. eapply wp_bind_mono; [exact H|]. intros a m' HQ. by apply wp_ret. Qed.

Lemma wpw_gets (f : world -> A) (Q : A -> world -> mem -> Prop) w m :
  Q (f w) w m -> wpw (w_gets f) Q w m.
Proof. intros H. by apply wp_ret. Qed.
End WPW.


Lemma wpw_lookup {A} (f : world -> gmap positive A) p x (Q : A -> world -> mem -> Prop) w m :
  f w !! p = Some x -> Q x w m -> wpw (w_lookup f p) Q w m.
Proof.
  intros Hp HQ. unfold w_lookup. apply wpw_bind, wpw_gets, wpw_lift. by eapply wp_lift.
Qed.

Lemma wpw_modify f (Q : unit -> world -> mem -> Prop) w m : Q tt (f w) m -> wpw (w_modify f) Q w m.
Proof. intros H. by apply wp_ret. Qed.

Lemma wpw_fold {A S} (I : list A -> S -> world -> mem -> Prop) (body : A -> S -> W S)
    (l done : list A) s w m :
  I done s w m ->
  (forall pre x post s w m, done ++ l = pre ++ x :: post -> I pre s w m ->
     wpw (body x s) (I (pre ++ [x])) w m) ->
  wpw (w_fold l body s) (I (done ++ l)) w m.
Proof.
  revert done s w m. induction l as [|x l IH]; intros done s w m HI Hb; cbn.
  - apply wpw_ret. by rewrite app_nil_r.
  - apply wpw_bind. eapply wpw_mono; [apply (Hb done x l); done|]. intros s' w' m' HI'.
    replace (done ++ x :: l) with ((done ++ [x]) ++ l) by by rewrite <- app_assoc.
    apply IH; [done|]. intros pre y post s2 w2 m2 Heq. apply Hb with (post := post).
    by rewrite <- Heq, <- app_assoc.
Qed.

(** ** Records read by a decoder *)

(** A field of a record: its bytes leave the rest, whatever comes next. *)
Lemma wpw_read {A B} (c : buffer -> M (Z * option A * buffer)) bs x b rest
    (f : Z * option A * buffer -> W B) (Q : B -> world -> mem -> Prop) w m :
  reads c bs x -> buf_wf b -> buf_rest b = bs ++ rest ->
  (forall b', b' = with_pos b (buf_pos b + Z.of_nat (length bs)) -> buf_wf b' -> buf_rest b' = rest ->
     wpw (f (0, Some x, b')) Q w m) ->
  wpw (lift (c b) ≫= f) Q w m.
Proof.
  intros R Wb Hr HQ. destruct (after_read _ _ _ Wb Hr) as [W1 Hr1].
  apply wpw_bind, wpw_lift. eapply wp_mono; [by eapply R|]. intros r m' [-> ->]. by apply HQ.
Qed.

Lemma wpw_read_u16 {B} x b rest (f : Z * option Z * buffer -> W B) (Q : B -> world -> mem -> Prop) w m :
  0 <= x < 2 ^ 16 -> buf_wf b -> buf_rest b = be_bytes 2 x ++ rest ->
  (forall b', b' = with_pos b (buf_pos b + 2) -> buf_wf b' -> buf_rest b' = rest -> wpw (f (0, Some x, b')) Q w m) ->
  wpw (lift (obus_buffer_read_u16 b) ≫= f) Q w m.
Proof. intros Hx. apply (wpw_read obus_buffer_read_u16 (be_bytes 2 x)). by apply reads_u16. Qed.

Lemma wpw_read_u32 {B} x b rest (f : Z * option Z * buffer -> W B) (Q : B -> world -> mem -> Prop) w m :
  0 <= x < 2 ^ 32 -> buf_wf b -> buf_rest b = be_bytes 4 x ++ rest ->
  (forall b', b' = with_pos b (buf_pos b + 4) -> buf_wf b' -> buf_rest b' = rest -> wpw (f (0, Some x, b')) Q w m) ->
  wpw (lift (obus_buffer_read_u32 b) ≫= f) Q w m.
Proof. intros Hx. apply (wpw_read obus_buffer_read_u32 (be_bytes 4 x)). by apply reads_u32. Qed.

(** Two ways to say where a reader is. *)
Ltac same_position :=
  subst; unfold with_pos; cbn [buf_pos buf_size buf_length buf_data buf_refcnt];
  rewrite ?length_app, ?length_be_bytes; f_equal; lia.

(** The end of a record that was read to its announced length. *)
Lemma read_end b n :
  buf_wf b -> buf_wf (with_pos b (buf_pos b + n)) -> 0 <= n -> u64 (buf_pos b + n) = buf_pos b + n.
Proof.
  intros Wb W' Hn. wf_facts b Wb. apply u64_small.
  pose proof (wf_pos _ W') as Hp4. pose proof (wf_size _ W') as Hs4. cbn [buf_pos buf_size with_pos] in *.
  unfold PTRDIFF_MAX in *. lia.
Qed.

(** ** Frames of runs

    Every run of [c] relates the heaps before and after by [R]. *)
Definition wkeeps {A} (R : world -> world -> Prop) (c : W A) : Prop :=
  forall w m a w' m', c w m = Some ((a, w'), m') -> R w w'.

Section WKeeps.
Context {A B : Type} (R : world -> world -> Prop) `{!PreOrder R}.

Lemma wkeeps_ret (a : A) : wkeeps R (mret a).
Proof. by intros w m a' w' m' [= <- <- <-]. Qed.

Lemma wkeeps_lift (c : M A) : wkeeps R (lift c).
Proof. intros w m a w' m'. unfold lift, mbind, M_bind. destruct (c m) as [[? ?]|]; [|done]. by intros [= <- <- <-]. Qed.

Lemma wkeeps_gets (f : world -> A) : wkeeps R (w_gets f).
Proof. by intros w m a' w' m' [= <- <- <-]. Qed.

Lemma wkeeps_modify f : (forall w, R w (f w)) -> wkeeps R (w_modify f).
Proof. intros H w m a w' m' [= _ <- _]. apply H. Qed.

Lemma wkeeps_undef : wkeeps R (w_undef (A := A)).
Proof. done. Qed.

Lemma wkeeps_bind (c : W A) (f : A -> W B) : wkeeps R c -> (forall a, wkeeps R (f a)) -> wkeeps R (c ≫= f).
Proof.
  intros H1 H2 w m b w' m'. unfold mbind, W_bind, mbind, M_bind.
  destruct (c w m) as [[[a w1] m1]|] eqn:E; [|done]. intros E2. etransitivity; [by eapply H1|by eapply H2].
Qed.

Lemma wpw_keeps (c : W A) (Q : A -> world -> mem -> Prop) w m :
  wkeeps R c -> wpw c Q w m -> wpw c (fun a w' m' => Q a w' m' /\ R w w') w m.
Proof. intros H ([a w'] & m' & E & HQ). exists (a, w'), m'. split; [done|]. split; [done|by eapply H]. Qed.
End WKeeps.

Create HintDb wkeeps discriminated.
Ltac wkeeps_step :=
  match goal with
  | |- wkeeps ?R (mret _) => apply (wkeeps_ret R)
  | |- wkeeps ?R (lift _) => apply (wkeeps_lift R)
  | |- wkeeps ?R (w_gets _) => apply (wkeeps_gets R)
  | |- wkeeps ?R (w_modify _) => apply (wkeeps_modify R); done
  | |- wkeeps ?R w_undef => apply (wkeeps_undef R)
  | |- wkeeps ?R (_ ≫= _) => apply (wkeeps_bind R); [|intros ?]
  | |- wkeeps _ (match ?x with _ => _ end) => destruct x
  | |- wkeeps _ (let _ := _ in _) => cbv zeta
  | |- wkeeps _ _ => solve [eauto 2 with wkeeps]
  end.
Ltac wkeeps := repeat wkeeps_step.
