(* ===== verification/Bus.v ===== *)
(** * obus_bus.c: the registries of objects, calls and providers of a bus

    Handles are drawn by [obus_rand_handle] (obus_utils.c, /dev/urandom): the
    functions that draw take the list of the successive outcomes, 0 being a
    failure.  A list that ends before the retry loop does is no execution and
    gives [None]; [draw_handle_total] says that a fresh draw ends the loop.
    The functions that tear a bus down are in file Teardown. *)
From S2P Require Import Prelude Mem Desc Field Struct Hash BusApi World.

Definition OBUS_BUS_HASH_SIZE : Z := 4093.

Section Ops.
Context {AL : Allocator}.

(** ** Objects *)

Definition get_bus : W obus_bus := w_gets w_bus.

(** The retry loop: [None] when no handle could be drawn. *)
Fixpoint draw_handle (rands : list Z) (h : obus_hash positive) : M (option Z) :=
  match rands with
  | [] => m_undef
  | r :: rands' =>
    if r =? OBUS_INVALID_HANDLE then mret None else
    '(ret, _) ← obus_hash_lookup h r;
    if ret =? 0 then draw_handle rands' h else mret (Some r)
  end.

(** The handle to use: the one the peer has chosen, or a fresh one. *)
Definition choose_handle (rands : list Z) (h : obus_hash positive) (handle : Z)
  : M (option Z) :=
  if handle =? OBUS_INVALID_HANDLE then draw_handle rands h
  else _ ← obus_hash_lookup h handle; mret (Some handle).

Definition with_handle (o : obus_object) (handle : Z) : obus_object :=
  Object (ob_bus o) (ob_event_node o) (ob_desc o) handle (ob_is_registered o)
    (ob_user_data o) (ob_info o) (ob_handlers o).
Definition with_bus (o : obus_object) (b : bool) : obus_object :=
  Object b (ob_event_node o) (ob_desc o) (ob_handle o) (ob_is_registered o)
    (ob_user_data o) (ob_info o) (ob_handlers o).
Definition with_registered (o : obus_object) (b : bool) : obus_object :=
  Object (ob_bus o) (ob_event_node o) (ob_desc o) (ob_handle o) b
    (ob_user_data o) (ob_info o) (ob_handlers o).

Definition obus_bus_add_object (rands : list Z) (p : positive) : W Z :=
  o ← get_obj p;
  if od_uid (ob_desc o) =? OBUS_INVALID_UID then mret (- EINVAL) else
  bus ← get_bus;
  handle ← lift (choose_handle rands (b_objects_hash bus) (ob_handle o));
  match handle with
  | None => put_obj p (with_handle o OBUS_INVALID_HANDLE);; mret (- ENODEV)
  | Some handle =>
    put_obj p (with_handle o handle);;
    '(ret, h) ← lift (obus_hash_insert (b_objects_hash bus) handle p);
    put_bus (set_objects_hash bus h);;
    if failed ret then
      (if ob_handle o =? OBUS_INVALID_HANDLE
       then put_obj p (with_handle o OBUS_INVALID_HANDLE) else mret tt);;
      mret ret
    else
      put_obj p (with_bus (with_handle o handle) true);;
      mret 0
  end.

(** Called with the bus of the object: [has_bus] false is a NULL bus. *)
Definition obus_bus_remove_object (has_bus : bool) (p : positive) : W Z :=
  o ← get_obj p;
  if negb has_bus || (od_uid (ob_desc o) =? OBUS_INVALID_UID) then mret (- EINVAL) else
  bus ← get_bus;
  '(ret, h) ← lift (obus_hash_remove (b_objects_hash bus) (ob_handle o));
  put_bus (set_objects_hash bus h);;
  if failed ret then mret ret else
  put_obj p (with_bus o false);;
  mret 0.

Definition obus_bus_register_object (p : positive) : W Z :=
  o ← get_obj p;
  put_obj p (with_registered o true);;
  bus ← get_bus;
  l ← list_link p (b_objects bus);
  put_bus (set_objects bus l);;
  mret 0.

Definition obus_bus_unregister_object (p : positive) : W Z :=
  o ← get_obj p;
  put_obj p (with_registered o false);;
  bus ← get_bus;
  l ← list_unlink p (b_objects bus);
  put_bus (set_objects bus l);;
  mret 0.

Definition obus_bus_object (handle : Z) : W (option positive) :=
  if handle =? OBUS_INVALID_HANDLE then mret None else
  bus ← get_bus;
  '(ret, obj) ← lift (obus_hash_lookup (b_objects_hash bus) handle);
  mret (if ret =? 0 then obj else None).

Fixpoint find_uid (uid : Z) (l : list positive) : W (option positive) :=
  match l with
  | [] => mret None
  | p :: l' =>
    o ← get_obj p;
    if (uid =? OBUS_INVALID_UID) || (uid =? od_uid (ob_desc o)) then mret (Some p)
    else find_uid uid l'
  end.

Definition obus_bus_object_first (uid : Z) : W (option positive) :=
  bus ← get_bus; find_uid uid (b_objects bus).

(** The members after [prev]; its node must be in the list. *)
Fixpoint list_after (prev : positive) (l : list positive) : option (list positive) :=
  match l with
  | [] => None
  | p :: l' => if decide (p = prev) then Some l' else list_after prev l'
  end.

Definition obus_bus_object_next (prev : option positive) (uid : Z) : W (option positive) :=
  bus ← get_bus;
  match prev with
  | None => find_uid uid (b_objects bus)
  | Some prev =>
    l ← lift (m_lift (list_after prev (b_objects bus)));
    find_uid uid l
  end.

(** ** Calls *)

Definition cl_with_handle (c : obus_call) (handle : Z) : obus_call :=
  Call (cl_desc c) (cl_obj c) handle (cl_peer c) (cl_status c) (cl_args_desc c) (cl_args c) (cl_cb c).

Definition obus_bus_register_call (rands : list Z) (p : positive) : W Z :=
  c ← get_call p;
  bus ← get_bus;
  handle ← lift (choose_handle rands (b_calls_hash bus) (cl_handle c));
  match handle with
  | None => put_call p (cl_with_handle c OBUS_INVALID_HANDLE);; mret (- ENODEV)
  | Some handle =>
    put_call p (cl_with_handle c handle);;
    '(ret, h) ← lift (obus_hash_insert (b_calls_hash bus) handle p);
    if failed ret then
      put_bus (set_call_tabs bus h (b_calls bus));;
      (if cl_handle c =? OBUS_INVALID_HANDLE
       then put_call p (cl_with_handle c OBUS_INVALID_HANDLE) else mret tt);;
      mret ret
    else
      l ← list_link p (b_calls bus);
      put_bus (set_call_tabs bus h l);;
      mret 0
  end.

Definition obus_bus_unregister_call (p : positive) : W Z :=
  c ← get_call p;
  bus ← get_bus;
  '(ret, h) ← lift (obus_hash_remove (b_calls_hash bus) (cl_handle c));
  if failed ret then put_bus (set_call_tabs bus h (b_calls bus));; mret ret else
  l ← list_unlink p (b_calls bus);
  put_bus (set_call_tabs bus h l);;
  mret 0.

Definition obus_bus_call (handle : Z) : W (option positive) :=
  if handle =? OBUS_INVALID_HANDLE then mret None else
  bus ← get_bus;
  '(ret, call) ← lift (obus_hash_lookup (b_calls_hash bus) handle);
  mret (if ret =? 0 then call else None).

(** ** Providers *)

Definition obus_bus_register_provider (p : positive) : W Z :=
  prov ← get_prov p;
  bus ← get_bus;
  '(ret, h) ← lift (obus_hash_insert (b_providers_hash bus) (od_uid (pv_desc prov)) p);
  if failed ret then put_bus (set_prov_tabs bus h (b_providers bus));; mret ret else
  l ← list_link p (b_providers bus);
  put_bus (set_prov_tabs bus h l);;
  mret 0.

Definition obus_bus_unregister_provider (p : positive) : W Z :=
  prov ← get_prov p;
  bus ← get_bus;
  '(ret, h) ← lift (obus_hash_remove (b_providers_hash bus) (od_uid (pv_desc prov)));
  if failed ret then put_bus (set_prov_tabs bus h (b_providers bus));; mret ret else
  l ← list_unlink p (b_providers bus);
  put_bus (set_prov_tabs bus h l);;
  mret 0.

Definition obus_bus_provider (uid : Z) : W (option positive) :=
  if uid =? OBUS_INVALID_UID then mret None else
  bus ← get_bus;
  '(ret, prov) ← lift (obus_hash_lookup (b_providers_hash bus) uid);
  mret (if ret =? 0 then prov else None).

(** ** Creation *)

Definition zero_bus (api : obus_bus_api) : obus_bus :=
  Bus api zero_hash [] zero_hash [] zero_hash [].

(** On an error the hashes initialised so far are destroyed ([providers_hash]
    instead of [calls_hash] when the last one fails). *)
Definition obus_bus_init (desc : obus_bus_desc) : M (Z * obus_bus) :=
  '(ret, api) ← obus_bus_api_init desc;
  if failed ret then mret (ret, zero_bus api) else
  let fail ret := (ret, zero_bus (snd (obus_bus_api_destroy api))) in
  '(ret, ho) ← init_member OBUS_BUS_HASH_SIZE;
  if failed ret then mret (fail ret) else
  '(ret, hc) ← init_member OBUS_BUS_HASH_SIZE;
  if failed ret then mret (fail ret) else
  '(ret, hp) ← init_member (Z.of_nat (length (bd_objects desc)));
  if failed ret then
    mret (ret, Bus (snd (obus_bus_api_destroy api)) hc [] zero_hash [] zero_hash [])
  else mret (0, Bus api hc [] ho [] hp []).
End Ops.

(** ** The registries and their invariant *)

(** The objects registry: handle to object, known to the object. *)
Record objects_wf (w : world) (m : mem) : Prop := {
  ow_hash : plain_wf (b_objects_hash (w_bus w)) m;
  ow_objs : forall hdl p, reg (b_objects_hash (w_bus w)) !! hdl = Some p ->
    hdl <> OBUS_INVALID_HANDLE /\
    exists o, w_objs w !! p = Some o /\ ob_handle o = hdl /\ ob_bus o = true
}.

(** The calls registry: the hash and the list hold the same calls. *)
Record calls_wf (w : world) (m : mem) : Prop := {
  cw_hash : plain_wf (b_calls_hash (w_bus w)) m;
  cw_nodup : NoDup (b_calls (w_bus w));
  cw_reg : forall hdl p, reg (b_calls_hash (w_bus w)) !! hdl = Some p ->
    hdl <> OBUS_INVALID_HANDLE /\ p ∈ b_calls (w_bus w) /\
    exists c, w_calls w !! p = Some c /\ cl_handle c = hdl;
  cw_list : forall p, p ∈ b_calls (w_bus w) ->
    exists c, w_calls w !! p = Some c /\ reg (b_calls_hash (w_bus w)) !! cl_handle c = Some p
}.

(** The providers registry, by object uid. *)
Record provs_wf (w : world) (m : mem) : Prop := {
  vw_hash : plain_wf (b_providers_hash (w_bus w)) m;
  vw_nodup : NoDup (b_providers (w_bus w));
  vw_reg : forall uid p, reg (b_providers_hash (w_bus w)) !! uid = Some p ->
    p ∈ b_providers (w_bus w) /\ exists v, w_provs w !! p = Some v /\ od_uid (pv_desc v) = uid;
  vw_list : forall p, p ∈ b_providers (w_bus w) -> exists v, w_provs w !! p = Some v /\
    reg (b_providers_hash (w_bus w)) !! od_uid (pv_desc v) = Some p
}.

Record registry_wf (w : world) (m : mem) : Prop := {
  rw_objects : objects_wf w m;
  rw_calls : calls_wf w m;
  rw_provs : provs_wf w m;
  rw_list : NoDup (b_objects (w_bus w)) /\ forall p, p ∈ b_objects (w_bus w) -> is_Some (w_objs w !! p)
}.

(** The registries as their clients see them: what is found under which handle or
    uid, and the members in order. *)
Record registry := Registry {
  rg_objects : gmap Z positive;
  rg_registered : list positive;
  rg_calls : gmap Z positive;
  rg_pending : list positive;
  rg_provs : gmap Z positive;
  rg_providers : list positive
}.

Definition registry_of (w : world) : registry :=
  let b := w_bus w in
  Registry (reg (b_objects_hash b)) (b_objects b) (reg (b_calls_hash b)) (b_calls b)
    (reg (b_providers_hash b)) (b_providers b).

Definition rg_with_objects r x := Registry x (rg_registered r) (rg_calls r) (rg_pending r) (rg_provs r) (rg_providers r).
Definition rg_with_registered r x := Registry (rg_objects r) x (rg_calls r) (rg_pending r) (rg_provs r) (rg_providers r).
Definition rg_with_calls r x y := Registry (rg_objects r) (rg_registered r) x y (rg_provs r) (rg_providers r).
Definition rg_with_provs r x y := Registry (rg_objects r) (rg_registered r) (rg_calls r) (rg_pending r) x y.

(** The draws end the retry loop: used handles, then a fresh one or a failure. *)
Definition draws_end (h : obus_hash positive) (rands : list Z) : Prop :=
  exists pre r post, rands = pre ++ r :: post /\
    Forall (fun x => x <> OBUS_INVALID_HANDLE /\ is_Some (reg h !! x)) pre /\
    (r = OBUS_INVALID_HANDLE \/ reg h !! r = None).

Section Registry.
Context {AL : Allocator}.

Lemma wp_draw_first h pre r post m (Q : option Z -> mem -> Prop) :
  plain_wf h m ->
  Forall (fun x => x <> OBUS_INVALID_HANDLE /\ is_Some (reg h !! x)) pre ->
  r = OBUS_INVALID_HANDLE \/ reg h !! r = None ->
  Q (if r =? OBUS_INVALID_HANDLE then None else Some r) m ->
  wp (draw_handle (pre ++ r :: post) h) Q m.
Proof.
  intros P Hpre Hr HQ. induction pre as [|x pre IH]; cbn [app draw_handle].
  - destruct (Z.eqb_spec r OBUS_INVALID_HANDLE) as [->|Hne]; [by apply wp_ret|].
    destruct Hr as [?|Hr]; [done|]. apply wp_bind, wp_reg_lookup; [done|congruence|].
    intros _. by apply wp_ret.
  - apply Forall_cons in Hpre as [[Hx [q Hq]] Hpre].
    destruct (Z.eqb_spec x OBUS_INVALID_HANDLE); [done|].
    apply wp_bind, wp_reg_lookup; [done| |congruence]. intros d _. cbn. by apply IH.
Qed.

Lemma wp_draw_handle h rands m (Q : option Z -> mem -> Prop) :
  plain_wf h m -> draws_end h rands ->
  (forall r, r <> OBUS_INVALID_HANDLE -> reg h !! r = None -> Q (Some r) m) ->
  (OBUS_INVALID_HANDLE ∈ rands -> Q None m) ->
  wp (draw_handle rands h) Q m.
Proof.
  intros P (pre & r & post & -> & Hpre & Hr) H1 H2. apply wp_draw_first; [done..|].
  destruct (Z.eqb_spec r OBUS_INVALID_HANDLE) as [->|Hne].
  - apply H2, elem_of_app. right. by left.
  - destruct Hr; [done|by apply H1].
Qed.

(** The handle that is used: the chosen one, or a drawn one that is free. *)
Lemma wp_choose_handle h rands handle m (Q : option Z -> mem -> Prop) :
  plain_wf h m -> (handle = OBUS_INVALID_HANDLE -> draws_end h rands) ->
  (handle <> OBUS_INVALID_HANDLE -> Q (Some handle) m) ->
  (handle = OBUS_INVALID_HANDLE ->
     forall r, r <> OBUS_INVALID_HANDLE -> reg h !! r = None -> Q (Some r) m) ->
  (handle = OBUS_INVALID_HANDLE -> OBUS_INVALID_HANDLE ∈ rands -> Q None m) ->
  wp (choose_handle rands h handle) Q m.
Proof.
  intros P Hd H1 H2 H3. unfold choose_handle.
  destruct (Z.eqb_spec handle OBUS_INVALID_HANDLE) as [He|Hne].
  - by apply wp_draw_handle; auto.
  - apply wp_bind, wp_reg_lookup; [done|intros; by apply wp_ret, H1..].
Qed.

(** A table with a free handle lets the loop end: a draw of that handle does. *)
Lemma draws_end_free h r post :
  reg h !! r = None -> draws_end h (r :: post).
Proof. intros Hr. exists [], r, post. split; [done|]. split; [by constructor|by right]. Qed.

Lemma with_handle_same o : with_handle o (ob_handle o) = o.
Proof. by destruct o. Qed.

Lemma set_objs_same w p o : w_objs w !! p = Some o -> set_objs w (<[p := o]> (w_objs w)) = w.
Proof. intros Hp. unfold set_objs. rewrite insert_id by done. by destruct w. Qed.

(** The objects and their registry after an addition. *)
Definition add_post (w : world) (p : positive) (o : obus_object) (ret : Z) (w' : world) : Prop :=
  let h := b_objects_hash (w_bus w) in
  (failed ret = true /\ w_objs w' = w_objs w /\ w_bus w' = w_bus w /\
     (ret = - EEXIST -> ob_handle o <> OBUS_INVALID_HANDLE /\ is_Some (reg h !! ob_handle o))) \/
  (ret = 0 /\ exists hdl h', hdl <> OBUS_INVALID_HANDLE /\
     (ob_handle o <> OBUS_INVALID_HANDLE -> hdl = ob_handle o) /\
     reg h !! hdl = None /\ reg h' = <[hdl := p]> (reg h) /\
     w_objs w' = <[p := with_bus (with_handle o hdl) true]> (w_objs w) /\
     w_bus w' = set_objects_hash (w_bus w) h').

Definition added (p : positive) (o : obus_object) (w : world) (m : mem) (ret : Z) (w' : world) (m' : mem) : Prop :=
  add_post w p o ret w' /\ (m_count m <= m_count m')%nat /\
  plain_wf (b_objects_hash (w_bus w')) m' /\ w_calls w' = w_calls w /\ w_provs w' = w_provs w.

(** The insertion of an object, with its handle chosen. *)
Lemma wp_insert_object p o hdl w m :
  plain_wf (b_objects_hash (w_bus w)) m -> w_objs w !! p = Some o -> hdl <> OBUS_INVALID_HANDLE ->
  (ob_handle o <> OBUS_INVALID_HANDLE -> hdl = ob_handle o) ->
  (ob_handle o = OBUS_INVALID_HANDLE -> reg (b_objects_hash (w_bus w)) !! hdl = None) ->
  wpw (put_obj p (with_handle o hdl);;
      '(ret, h) ← lift (obus_hash_insert (b_objects_hash (w_bus w)) hdl p);
      put_bus (set_objects_hash (w_bus w) h);;
      (if failed ret then
        (if ob_handle o =? OBUS_INVALID_HANDLE
         then put_obj p (with_handle o OBUS_INVALID_HANDLE) else mret tt);;
        mret ret
      else put_obj p (with_bus (with_handle o hdl) true);; mret 0))
    (added p o w m) w m.
Proof.
  intros P Ho Hne Heq Hfree. apply wpw_bind, wpw_modify, wpw_bind, wpw_lift.
  apply wp_reg_insert; [done| |].
  - intros h' m' ret P' Hb Hm Hf -> Hr. apply wpw_bind, wpw_modify. rewrite Hf. apply wpw_bind.
    assert (forall w', w_objs w' = w_objs w -> w_bus w' = w_bus w -> w_calls w' = w_calls w ->
      w_provs w' = w_provs w -> added p o w m ret w' m') as Hend.
    { intros w' E1 E2 E3 E4. split_and!; [|done|by rewrite E2|done..]. left. split_and!; [done..|].
      intros ->. destruct Hr as [[[=] _]|[_ [q Hq]]].
      destruct (decide (ob_handle o = OBUS_INVALID_HANDLE)) as [E|E].
      - rewrite Hfree in Hq; done.
      - split; [done|]. rewrite <- Heq by done. by eexists. }
    assert (<[p:=o]> (w_objs w) = w_objs w) as Hid by by apply insert_id.
    destruct (Z.eqb_spec (ob_handle o) OBUS_INVALID_HANDLE) as [E|E].
    + apply wpw_modify, wpw_ret. apply Hend; cbn; [|by destruct (w_bus w)|done..].
      rewrite <- E, with_handle_same, insert_insert_eq. done.
    + apply wpw_ret, wpw_ret. apply Hend; cbn; [|by destruct (w_bus w)|done..].
      rewrite Heq, with_handle_same by done. done.
  - intros h' m' P' Hb Hm Hn He. apply wpw_bind, wpw_modify. cbn [failed Z.ltb Z.compare].
    apply wpw_bind, wpw_modify, wpw_ret. split_and!; [|done..]. right. split; [done|].
    exists hdl, h'. split_and!; [done..|cbn; by rewrite insert_insert_eq|done].
Qed.

Lemma wp_add_object_reg rands p o w m :
  plain_wf (b_objects_hash (w_bus w)) m -> w_objs w !! p = Some o ->
  (ob_handle o = OBUS_INVALID_HANDLE -> draws_end (b_objects_hash (w_bus w)) rands) ->
  wpw (obus_bus_add_object rands p) (added p o w m) w m.
Proof.
  intros P Ho Hd. unfold obus_bus_add_object.
  apply wpw_bind. eapply wpw_lookup; [exact Ho|].
  destruct (Z.eqb_spec (od_uid (ob_desc o)) OBUS_INVALID_UID).
  { apply wpw_ret. split_and!; [by left|done..]. }
  apply wpw_bind, wpw_gets, wpw_bind, wpw_lift. apply wp_choose_handle; [done|done| | |].
  - intros Hne. by apply wp_insert_object.
  - intros He r Hr Hf. apply wp_insert_object; [done|done|done|by intros|done].
  - intros He _. apply wpw_bind, wpw_modify, wpw_ret. rewrite <- He, with_handle_same.
    rewrite set_objs_same by done. split_and!; [left; done|done..].
Qed.

(** ** Every operation keeps the registries *)

Lemma objects_wf_frame w w' m m' :
  objects_wf w m -> b_objects_hash (w_bus w') = b_objects_hash (w_bus w) ->
  w_objs w' = w_objs w -> (m_count m <= m_count m')%nat -> objects_wf w' m'.
Proof.
  intros [P H] E1 E2 Hm. constructor; rewrite E1; [by eapply plain_wf_later|].
  intros hdl p Hp. rewrite E2. by apply H.
Qed.

Lemma calls_wf_frame w w' m m' :
  calls_wf w m -> b_calls_hash (w_bus w') = b_calls_hash (w_bus w) ->
  b_calls (w_bus w') = b_calls (w_bus w) -> w_calls w' = w_calls w ->
  (m_count m <= m_count m')%nat -> calls_wf w' m'.
Proof.
  intros [P N H1 H2] E1 E2 E3 Hm.
  constructor; rewrite ?E1, ?E2, ?E3; [by eapply plain_wf_later|done..].
Qed.

Lemma provs_wf_frame w w' m m' :
  provs_wf w m -> b_providers_hash (w_bus w') = b_providers_hash (w_bus w) ->
  b_providers (w_bus w') = b_providers (w_bus w) -> w_provs w' = w_provs w ->
  (m_count m <= m_count m')%nat -> provs_wf w' m'.
Proof.
  intros [P N H1 H2] E1 E2 E3 Hm.
  constructor; rewrite ?E1, ?E2, ?E3; [by eapply plain_wf_later|done..].
Qed.

Lemma wp_add_object rands p o w m :
  registry_wf w m -> w_objs w !! p = Some o ->
  (ob_handle o = OBUS_INVALID_HANDLE -> draws_end (b_objects_hash (w_bus w)) rands) ->
  wpw (obus_bus_add_object rands p)
      (fun ret w' m' => add_post w p o ret w' /\ registry_wf w' m') w m.
Proof.
  intros [RO RC RP [RN RL]] Ho Hd.
  eapply wpw_mono; [by apply wp_add_object_reg; [apply RO|..]|].
  intros ret w' m' (HA & Hm & P' & Ec & Ev). split; [done|].
  destruct HA as [(Hf & Eo & Eb & _)|(-> & hdl & h' & Hne & Heq & Hfree & Hreg & Eo & Eb)].
  - constructor.
    + by eapply objects_wf_frame; [..|rewrite ?Eb|]; [exact RO|by rewrite Eb|done|done].
    + eapply calls_wf_frame; [exact RC|by rewrite Eb..|done|done].
    + eapply provs_wf_frame; [exact RP|by rewrite Eb..|done|done].
    + rewrite Eb, Eo. done.
  - constructor.
    + constructor; [done|]. rewrite Eb. cbn [b_objects_hash set_objects_hash]. rewrite Hreg.
      intros hdl' q. rewrite lookup_insert_Some. intros [[<- <-]|[Hn Hq]].
      * split; [done|]. eexists. rewrite Eo, lookup_insert_eq. done.
      * destruct (ow_objs _ _ RO _ _ Hq) as (Hnz & oq & Hoq & Hh & Hb). split; [done|].
        exists oq. rewrite Eo. split; [|done]. rewrite lookup_insert_ne; [done|]. intros <-.
        simplify_eq. rewrite Heq in Hn by done. done.
    + eapply calls_wf_frame; [exact RC|by rewrite Eb..|done|done].
    + eapply provs_wf_frame; [exact RP|by rewrite Eb..|done|done].
    + rewrite Eb, Eo. split; [done|]. intros q Hq. destruct (RL q Hq) as [oq Hoq].
      destruct (decide (q = p)) as [->|]; [rewrite lookup_insert_eq; by eexists|].
      rewrite lookup_insert_ne by done. by eexists.
Qed.

Lemma wp_remove_object p o w m :
  registry_wf w m -> w_objs w !! p = Some o ->
  (reg (b_objects_hash (w_bus w)) !! ob_handle o = Some p \/
   reg (b_objects_hash (w_bus w)) !! ob_handle o = None) ->
  wpw (obus_bus_remove_object true p)
      (fun ret w' m' => registry_wf w' m' /\
         registry_of w' = if failed ret then registry_of w
           else rg_with_objects (registry_of w) (delete (ob_handle o) (reg (b_objects_hash (w_bus w))))) w m.
Proof.
  intros [RO RC RP [RN RL]] Ho Hr. unfold obus_bus_remove_object.
  apply wpw_bind. eapply wpw_lookup; [exact Ho|]. cbn [negb orb].
  destruct (od_uid (ob_desc o) =? OBUS_INVALID_UID).
  { apply wpw_ret. split; [by constructor|]. done. }
  apply wpw_bind, wpw_gets, wpw_bind, wpw_lift. apply wp_reg_remove; [apply RO| |].
  - intros Hn. apply wpw_bind, wpw_modify, wpw_ret. split; [|done].
    unfold set_bus. cbn. constructor; cbn; [|by eapply calls_wf_frame|by eapply provs_wf_frame|done].
    by eapply objects_wf_frame.
  - intros h' P' [q Hq] Hreg. destruct Hr as [Hr|Hr]; [|congruence].
    apply wpw_bind, wpw_modify. cbn [failed Z.ltb Z.compare]. apply wpw_bind, wpw_modify, wpw_ret.
    split; [|unfold registry_of; cbn; by rewrite Hreg]. constructor.
    + constructor; cbn; [done|]. rewrite Hreg. intros hdl x. rewrite lookup_delete_Some.
      intros [Hn Hx]. destruct (ow_objs _ _ RO _ _ Hx) as (Hnz & ox & Hox & Hh & Hb).
      split; [done|]. exists ox. split; [|done]. rewrite lookup_insert_ne; [done|]. intros <-.
      simplify_eq.
    + by eapply calls_wf_frame.
    + by eapply provs_wf_frame.
    + cbn. split; [done|]. intros x Hx. apply lookup_insert_is_Some'. right. by apply RL.
Qed.

Lemma wp_list_link p l (Q : list positive -> world -> mem -> Prop) w m :
  p ∉ l -> Q (l ++ [p]) w m -> wpw (list_link p l) Q w m.
Proof. intros Hp HQ. unfold list_link. rewrite decide_False by done. by apply wpw_ret. Qed.

Lemma wp_list_unlink p l (Q : list positive -> world -> mem -> Prop) w m :
  p ∈ l -> Q (filter (fun q => q <> p) l) w m -> wpw (list_unlink p l) Q w m.
Proof. intros Hp HQ. unfold list_unlink. rewrite decide_True by done. by apply wpw_ret. Qed.

Lemma NoDup_snoc (p : positive) l : NoDup l -> p ∉ l -> NoDup (l ++ [p]).
Proof. intros. apply NoDup_app. split; [done|]. split; [set_solver|apply NoDup_singleton]. Qed.

Lemma registered_objs_wf w m p o o' :
  objects_wf w m -> w_objs w !! p = Some o -> ob_handle o' = ob_handle o -> ob_bus o' = ob_bus o ->
  objects_wf (set_objs w (<[p := o']> (w_objs w))) m.
Proof.
  intros [P H] Ho E1 E2. constructor; [done|]. cbn. intros hdl q Hq.
  destruct (H hdl q Hq) as (Hn & oq & Hoq & Hh & Hb). split; [done|].
  destruct (decide (q = p)) as [->|].
  - simplify_eq. exists o'. by rewrite lookup_insert_eq, E1, E2.
  - exists oq. by rewrite lookup_insert_ne.
Qed.

Lemma wp_register_object p o w m :
  registry_wf w m -> w_objs w !! p = Some o -> p ∉ b_objects (w_bus w) ->
  wpw (obus_bus_register_object p)
      (fun ret w' m' => ret = 0 /\ registry_wf w' m' /\
         registry_of w' = rg_with_registered (registry_of w) (b_objects (w_bus w) ++ [p])) w m.
Proof.
  intros [RO RC RP [RN RL]] Ho Hp. unfold obus_bus_register_object.
  apply wpw_bind. eapply wpw_lookup; [exact Ho|]. apply wpw_bind, wpw_modify.
  apply wpw_bind, wpw_gets, wpw_bind, wp_list_link; [done|].
  apply wpw_bind, wpw_modify, wpw_ret. split; [done|]. split; [|done].
  pose proof (registered_objs_wf w m p o (with_registered o true) RO Ho eq_refl eq_refl) as RO'.
  constructor; [by eapply objects_wf_frame|by eapply calls_wf_frame|by eapply provs_wf_frame|].
  cbn. split; [by apply NoDup_snoc|]. intros q [Hq| ->%list_elem_of_singleton]%elem_of_app.
  - apply lookup_insert_is_Some'. right. by apply RL.
  - rewrite lookup_insert_eq. by eexists.
Qed.

Lemma wp_unregister_object p o w m :
  registry_wf w m -> w_objs w !! p = Some o -> p ∈ b_objects (w_bus w) ->
  wpw (obus_bus_unregister_object p)
      (fun ret w' m' => ret = 0 /\ registry_wf w' m' /\
         registry_of w' = rg_with_registered (registry_of w) (filter (fun q => q <> p) (b_objects (w_bus w)))) w m.
Proof.
  intros [RO RC RP [RN RL]] Ho Hp. unfold obus_bus_unregister_object.
  apply wpw_bind. eapply wpw_lookup; [exact Ho|]. apply wpw_bind, wpw_modify.
  apply wpw_bind, wpw_gets, wpw_bind, wp_list_unlink; [done|].
  apply wpw_bind, wpw_modify, wpw_ret. split; [done|]. split; [|done].
  pose proof (registered_objs_wf w m p o (with_registered o false) RO Ho eq_refl eq_refl) as RO'.
  constructor; [by eapply objects_wf_frame|by eapply calls_wf_frame|by eapply provs_wf_frame|].
  cbn. split; [by apply NoDup_filter|]. intros q [_ Hq]%list_elem_of_filter.
  apply lookup_insert_is_Some'. right. by apply RL.
Qed.

Lemma cl_with_handle_same c : cl_with_handle c (cl_handle c) = c.
Proof. by destruct c. Qed.

(** Why a call is refused. *)
Definition refusal (rands : list Z) (w : world) (c : obus_call) (ret : Z) : Prop :=
  ret = - ENODEV /\ OBUS_INVALID_HANDLE ∈ rands \/ ret = - ENOMEM /\ (exists k, malloc_ok k 48 = false) \/
  ret = - EEXIST /\ is_Some (reg (b_calls_hash (w_bus w)) !! cl_handle c).

(** The calls registry after a registration. *)
Definition call_post (rands : list Z) (w : world) (p : positive) (c : obus_call) (ret : Z) (w' : world) : Prop :=
  (failed ret = true /\ w_calls w' = w_calls w /\ w_bus w' = w_bus w /\ refusal rands w c ret) \/
  (ret = 0 /\ exists hdl h', hdl <> OBUS_INVALID_HANDLE /\
     (cl_handle c <> OBUS_INVALID_HANDLE -> hdl = cl_handle c) /\
     reg (b_calls_hash (w_bus w)) !! hdl = None /\
     reg h' = <[hdl := p]> (reg (b_calls_hash (w_bus w))) /\
     w_calls w' = <[p := cl_with_handle c hdl]> (w_calls w) /\
     w_bus w' = set_call_tabs (w_bus w) h' (b_calls (w_bus w) ++ [p])).

Lemma call_refused rands p c ret w w' m m' :
  registry_wf w m -> same_blocks m m' -> failed ret = true ->
  w_calls w' = w_calls w -> w_bus w' = w_bus w -> w_objs w' = w_objs w -> w_provs w' = w_provs w ->
  refusal rands w c ret ->
  call_post rands w p c ret w' /\ registry_wf w' m' /\ same_blocks m m'.
Proof.
  intros [RO RC RP RL] Hb Hf E1 E2 E3 E4 Hr. pose proof (proj2 (proj2 Hb)) as Hm.
  split; [by left|]. split; [|done]. constructor.
  - eapply objects_wf_frame; [exact RO|by rewrite E2|done..].
  - eapply calls_wf_frame; [exact RC|by rewrite E2..|done|done].
  - eapply provs_wf_frame; [exact RP|by rewrite E2..|done|done].
  - by rewrite E2, E3.
Qed.

(** A call that enters the registry under the handle [hdl]. *)
Lemma registry_wf_call p c hdl h' w m m' :
  registry_wf w m -> w_calls w !! p = Some c -> hdl <> OBUS_INVALID_HANDLE -> plain_wf h' m' ->
  (m_count m <= m_count m')%nat -> reg (b_calls_hash (w_bus w)) !! hdl = None ->
  reg h' = <[hdl := p]> (reg (b_calls_hash (w_bus w))) -> p ∉ b_calls (w_bus w) ->
  registry_wf (set_bus (set_calls w (<[p := cl_with_handle c hdl]> (w_calls w)))
    (set_call_tabs (w_bus w) h' (b_calls (w_bus w) ++ [p]))) m'.
Proof.
  intros [RO RC RP RL] Hc Hne P' Hm Hfree Hreg Hp.
  constructor; [by eapply objects_wf_frame| |by eapply provs_wf_frame|by apply RL].
  constructor; cbn; [done|by apply NoDup_snoc; [apply RC|]|..].
  - rewrite Hreg. intros hdl' q. rewrite lookup_insert_Some. intros [[<- <-]|[Hn Hq]].
    + split; [done|]. split; [set_solver|]. eexists. by rewrite lookup_insert_eq.
    + destruct (cw_reg _ _ RC _ _ Hq) as (Hnz & Hin & cq & Hcq & Hh).
      split; [done|]. split; [set_solver|]. exists cq. split; [|done].
      rewrite lookup_insert_ne; [done|]. intros <-. done.
  - intros q [Hq| ->%list_elem_of_singleton]%elem_of_app.
    + destruct (cw_list _ _ RC q Hq) as (cq & Hcq & Hr). exists cq.
      split; [rewrite lookup_insert_ne; [done|]; by intros <-|].
      rewrite Hreg, lookup_insert_ne; [done|]. intros He. rewrite <- He in Hr. congruence.
    + exists (cl_with_handle c hdl). split; [by rewrite lookup_insert_eq|].
      change (reg h' !! hdl = Some p). by rewrite Hreg, lookup_insert_eq.
Qed.

(** The insertion, with its handle chosen. *)
Lemma wp_insert_call rands p c hdl w m :
  registry_wf w m -> w_calls w !! p = Some c -> hdl <> OBUS_INVALID_HANDLE ->
  (cl_handle c <> OBUS_INVALID_HANDLE -> hdl = cl_handle c) ->
  (cl_handle c = OBUS_INVALID_HANDLE -> reg (b_calls_hash (w_bus w)) !! hdl = None) ->
  wpw (put_call p (cl_with_handle c hdl);;
       '(ret, h) ← lift (obus_hash_insert (b_calls_hash (w_bus w)) hdl p);
       if failed ret then
         put_bus (set_call_tabs (w_bus w) h (b_calls (w_bus w)));;
         (if cl_handle c =? OBUS_INVALID_HANDLE
          then put_call p (cl_with_handle c OBUS_INVALID_HANDLE) else mret tt);;
         mret ret
       else
         l ← list_link p (b_calls (w_bus w));
         put_bus (set_call_tabs (w_bus w) h l);;
         mret 0)
      (fun ret w' m' => call_post rands w p c ret w' /\ registry_wf w' m' /\ same_blocks m m') w m.
Proof.
  intros R Hc Hne Heq Hnew. apply wpw_bind, wpw_modify, wpw_bind, wpw_lift. apply wp_reg_insert; [apply R| |].
  - intros h' m' ret P' Hb Hm Hf -> Hr.
    assert (refusal rands w c ret) as Hr'.
    { right. destruct Hr as [?|[? [q Hq]]]; [by left|right; split; [done|]].
      destruct (decide (cl_handle c = OBUS_INVALID_HANDLE)) as [E|E].
      - rewrite Hnew in Hq by done. done.
      - rewrite <- Heq by done. by eexists. }
    rewrite Hf. apply wpw_bind, wpw_modify, wpw_bind.
    assert (<[p:=c]> (w_calls w) = w_calls w) as Hid by by apply insert_id.
    destruct (Z.eqb_spec (cl_handle c) OBUS_INVALID_HANDLE) as [E|E].
    + apply wpw_modify, wpw_ret. apply call_refused; cbn; [done|done|done| |by destruct (w_bus w)|done..].
      by rewrite <- E, cl_with_handle_same, insert_insert_eq.
    + apply wpw_ret, wpw_ret. apply call_refused; cbn; [done|done|done| |by destruct (w_bus w)|done..].
      by rewrite Heq, cl_with_handle_same by done.
  - intros h' m' P' Hb Hm Hfree Hreg. cbn [failed Z.ltb Z.compare]. pose proof (rw_calls _ _ R) as RC.
    assert (p ∉ b_calls (w_bus w)) as Hp.
    { intros Hp. destruct (cw_list _ _ RC p Hp) as (c' & Hc' & Hr'). simplify_eq.
      destruct (cw_reg _ _ RC _ _ Hr') as (Hnz & _). rewrite Heq in Hfree by done. congruence. }
    apply wpw_bind, wp_list_link; [done|]. apply wpw_bind, wpw_modify, wpw_ret.
    split; [right; split; [done|]; by exists hdl, h'|]. split; [|done]. by apply registry_wf_call with (m := m).
Qed.

Lemma wp_register_call rands p c w m :
  registry_wf w m -> w_calls w !! p = Some c ->
  (cl_handle c = OBUS_INVALID_HANDLE -> draws_end (b_calls_hash (w_bus w)) rands) ->
  wpw (obus_bus_register_call rands p)
      (fun ret w' m' => call_post rands w p c ret w' /\ registry_wf w' m' /\ same_blocks m m') w m.
Proof.
  intros R Hc Hd. unfold obus_bus_register_call.
  apply wpw_bind. eapply wpw_lookup; [exact Hc|]. apply wpw_bind, wpw_gets, wpw_bind, wpw_lift.
  apply wp_choose_handle; [apply R|done| | |].
  - intros Hne. by apply wp_insert_call.
  - intros He r Hr Hf. apply wp_insert_call; [done|done|done|by intros|done].
  - intros He Hrand. apply wpw_bind, wpw_modify, wpw_ret. rewrite <- He, cl_with_handle_same.
    apply call_refused; cbn; [done|done|done| |done..|by left; split]. by apply insert_id.
Qed.

Lemma wp_unregister_call p c w m :
  registry_wf w m -> w_calls w !! p = Some c ->
  (p ∈ b_calls (w_bus w) \/ reg (b_calls_hash (w_bus w)) !! cl_handle c = None) ->
  wpw (obus_bus_unregister_call p)
      (fun ret w' m' => registry_wf w' m' /\ w_calls w' = w_calls w /\
         (p ∈ b_calls (w_bus w) -> ret = 0) /\ (ret = 0 \/ failed ret = true /\ registry_of w' = registry_of w) /\
         (ret = 0 -> exists h', reg h' = delete (cl_handle c) (reg (b_calls_hash (w_bus w))) /\
            w_bus w' = set_call_tabs (w_bus w) h' (filter (fun q => q <> p) (b_calls (w_bus w))))) w m.
Proof.
  intros [RO RC RP RL] Hc Hp. unfold obus_bus_unregister_call.
  apply wpw_bind. eapply wpw_lookup; [exact Hc|]. apply wpw_bind, wpw_gets, wpw_bind, wpw_lift.
  assert (p ∈ b_calls (w_bus w) -> reg (b_calls_hash (w_bus w)) !! cl_handle c = Some p) as Hpr.
  { intros Hin. destruct (cw_list _ _ RC p Hin) as (c' & Hc' & Hr). by simplify_eq. }
  apply wp_reg_remove; [apply RC| |].
  - intros Hn. apply wpw_bind, wpw_modify, wpw_ret. split_and!; [|done| |by right|done].
    + constructor; cbn; [by eapply objects_wf_frame|by eapply calls_wf_frame|by eapply provs_wf_frame|done].
    + intros Hin. by rewrite Hpr in Hn.
  - intros h' P' [q Hq] Hreg. destruct Hp as [Hp|Hp]; [|congruence].
    cbn [failed Z.ltb Z.compare]. apply wpw_bind, wp_list_unlink; [done|].
    apply wpw_bind, wpw_modify, wpw_ret. split_and!; [|done|done|by left|by exists h'].
    constructor; [by eapply objects_wf_frame| |by eapply provs_wf_frame|done].
    constructor; cbn; [done|by apply NoDup_filter, RC|..].
    + rewrite Hreg. intros hdl x. rewrite lookup_delete_Some. intros [Hn Hx].
      destruct (cw_reg _ _ RC _ _ Hx) as (Hnz & Hin & cx & Hcx & Hh). split; [done|].
      split; [|by exists cx]. apply list_elem_of_filter. split; [|done]. intros ->. by simplify_eq.
    + intros x [Hn Hx]%list_elem_of_filter. destruct (cw_list _ _ RC x Hx) as (cx & Hcx & Hr).
      exists cx. split; [done|]. rewrite Hreg, lookup_delete_ne; [done|]. intros He.
      rewrite <- He, (Hpr Hp) in Hr. congruence.
Qed.

Lemma wp_register_provider p v w m :
  registry_wf w m -> w_provs w !! p = Some v -> p ∉ b_providers (w_bus w) ->
  wpw (obus_bus_register_provider p) (fun ret w' m' => registry_wf w' m' /\
    registry_of w' = if failed ret then registry_of w
      else rg_with_provs (registry_of w) (<[od_uid (pv_desc v) := p]> (reg (b_providers_hash (w_bus w))))
             (b_providers (w_bus w) ++ [p])) w m.
Proof.
  intros [RO RC RP RL] Hv Hp. unfold obus_bus_register_provider.
  apply wpw_bind. eapply wpw_lookup; [exact Hv|]. apply wpw_bind, wpw_gets, wpw_bind, wpw_lift.
  apply wp_reg_insert; [apply RP| |].
  - intros h' m' ret P' Hb Hm Hf -> _. rewrite Hf. apply wpw_bind, wpw_modify, wpw_ret.
    rewrite Hf. split; [|done].
    constructor; cbn; [by eapply objects_wf_frame|by eapply calls_wf_frame|by eapply provs_wf_frame|done].
  - intros h' m' P' Hb Hm Hfree Hreg. cbn [failed Z.ltb Z.compare].
    apply wpw_bind, wp_list_link; [done|]. apply wpw_bind, wpw_modify, wpw_ret.
    split; [|unfold registry_of; cbn; by rewrite Hreg].
    constructor; [by eapply objects_wf_frame|by eapply calls_wf_frame| |done].
    constructor; cbn; [done|by apply NoDup_snoc; [apply RP|]|..].
    + rewrite Hreg. intros uid q. rewrite lookup_insert_Some. intros [[<- <-]|[Hn Hq]].
      * split; [set_solver|]. by exists v.
      * destruct (vw_reg _ _ RP _ _ Hq) as [? ?]. split; [set_solver|done].
    + intros q [Hq| ->%list_elem_of_singleton]%elem_of_app.
      * destruct (vw_list _ _ RP q Hq) as (vq & Hvq & Hr). exists vq. split; [done|].
        rewrite Hreg, lookup_insert_ne; [done|]. intros He. congruence.
      * exists v. split; [done|]. by rewrite Hreg, lookup_insert_eq.
Qed.

Lemma wp_unregister_provider p v w m :
  registry_wf w m -> w_provs w !! p = Some v ->
  (p ∈ b_providers (w_bus w) \/ reg (b_providers_hash (w_bus w)) !! od_uid (pv_desc v) = None) ->
  wpw (obus_bus_unregister_provider p) (fun ret w' m' => registry_wf w' m' /\
    registry_of w' = if failed ret then registry_of w
      else rg_with_provs (registry_of w) (delete (od_uid (pv_desc v)) (reg (b_providers_hash (w_bus w))))
             (filter (fun q => q <> p) (b_providers (w_bus w)))) w m.
Proof.
  intros [RO RC RP RL] Hv Hp. unfold obus_bus_unregister_provider.
  apply wpw_bind. eapply wpw_lookup; [exact Hv|]. apply wpw_bind, wpw_gets, wpw_bind, wpw_lift.
  apply wp_reg_remove; [apply RP| |].
  - intros Hn. apply wpw_bind, wpw_modify, wpw_ret. split; [|done].
    constructor; cbn; [by eapply objects_wf_frame|by eapply calls_wf_frame|by eapply provs_wf_frame|done].
  - intros h' P' [q Hq] Hreg. destruct Hp as [Hp|Hp]; [|congruence].
    assert (reg (b_providers_hash (w_bus w)) !! od_uid (pv_desc v) = Some p) as Hpr.
    { destruct (vw_list _ _ RP p Hp) as (v' & Hv' & Hr). by simplify_eq. }
    cbn [failed Z.ltb Z.compare]. apply wpw_bind, wp_list_unlink; [done|].
    apply wpw_bind, wpw_modify, wpw_ret. split; [|unfold registry_of; cbn; by rewrite Hreg].
    constructor; [by eapply objects_wf_frame|by eapply calls_wf_frame| |done].
    constructor; cbn; [done|by apply NoDup_filter, RP|..].
    + rewrite Hreg. intros uid x. rewrite lookup_delete_Some. intros [Hn Hx].
      destruct (vw_reg _ _ RP _ _ Hx) as (Hin & vx & Hvx & Hu). split; [|by exists vx].
      apply list_elem_of_filter. split; [|done]. intros ->. by simplify_eq.
    + intros x [Hn Hx]%list_elem_of_filter. destruct (vw_list _ _ RP x Hx) as (vx & Hvx & Hr).
      exists vx. split; [done|]. rewrite Hreg, lookup_delete_ne; [done|]. intros He. congruence.
Qed.
End Registry.

(** ** The registries as a state machine *)

Inductive bus_op :=
| AddObject (rands : list Z) (p : positive)
| RemoveObject (p : positive)
| RegisterObject (p : positive)
| UnregisterObject (p : positive)
| RegisterCall (rands : list Z) (p : positive)
| UnregisterCall (p : positive)
| RegisterProvider (p : positive)
| UnregisterProvider (p : positive).

(** What the callers guarantee: live arguments, draws that end the loop, and a
    removed member that is one, or that no other member replaces. *)
Definition bus_op_ok (op : bus_op) (w : world) : Prop :=
  match op with
  | AddObject rands p => exists o, w_objs w !! p = Some o /\
      (ob_handle o = OBUS_INVALID_HANDLE -> draws_end (b_objects_hash (w_bus w)) rands)
  | RemoveObject p => exists o, w_objs w !! p = Some o /\
      (reg (b_objects_hash (w_bus w)) !! ob_handle o = Some p \/
       reg (b_objects_hash (w_bus w)) !! ob_handle o = None)
  | RegisterObject p => is_Some (w_objs w !! p) /\ p ∉ b_objects (w_bus w)
  | UnregisterObject p => p ∈ b_objects (w_bus w)
  | RegisterCall rands p => exists c, w_calls w !! p = Some c /\
      (cl_handle c = OBUS_INVALID_HANDLE -> draws_end (b_calls_hash (w_bus w)) rands)
  | UnregisterCall p => exists c, w_calls w !! p = Some c /\
      (p ∈ b_calls (w_bus w) \/ reg (b_calls_hash (w_bus w)) !! cl_handle c = None)
  | RegisterProvider p => is_Some (w_provs w !! p) /\ p ∉ b_providers (w_bus w)
  | UnregisterProvider p => exists v, w_provs w !! p = Some v /\
      (p ∈ b_providers (w_bus w) \/
       reg (b_providers_hash (w_bus w)) !! od_uid (pv_desc v) = None)
  end.

Section Theorems.
Context {AL : Allocator}.

Definition run_bus_op (op : bus_op) : W Z :=
  match op with
  | AddObject rands p => obus_bus_add_object rands p
  | RemoveObject p => obus_bus_remove_object true p
  | RegisterObject p => obus_bus_register_object p
  | UnregisterObject p => obus_bus_unregister_object p
  | RegisterCall rands p => obus_bus_register_call rands p
  | UnregisterCall p => obus_bus_unregister_call p
  | RegisterProvider p => obus_bus_register_provider p
  | UnregisterProvider p => obus_bus_unregister_provider p
  end.

(** What an operation that returned [ret] means for the registries; [w] is the state
    before it, [w'] the state after. *)
Definition spec_bus_op (op : bus_op) (ret : Z) (w w' : world) (r : registry) : registry :=
  if failed ret then r else
  match op with
  | AddObject _ p =>
    match w_objs w' !! p with
    | Some o => rg_with_objects r (<[ob_handle o := p]> (rg_objects r))
    | None => r
    end
  | RemoveObject p =>
    match w_objs w !! p with
    | Some o => rg_with_objects r (delete (ob_handle o) (rg_objects r))
    | None => r
    end
  | RegisterObject p => rg_with_registered r (rg_registered r ++ [p])
  | UnregisterObject p => rg_with_registered r (filter (fun q => q <> p) (rg_registered r))
  | RegisterCall _ p =>
    match w_calls w' !! p with
    | Some c => rg_with_calls r (<[cl_handle c := p]> (rg_calls r)) (rg_pending r ++ [p])
    | None => r
    end
  | UnregisterCall p =>
    match w_calls w !! p with
    | Some c => rg_with_calls r (delete (cl_handle c) (rg_calls r)) (filter (fun q => q <> p) (rg_pending r))
    | None => r
    end
  | RegisterProvider p =>
    match w_provs w !! p with
    | Some v => rg_with_provs r (<[od_uid (pv_desc v) := p]> (rg_provs r)) (rg_providers r ++ [p])
    | None => r
    end
  | UnregisterProvider p =>
    match w_provs w !! p with
    | Some v => rg_with_provs r (delete (od_uid (pv_desc v)) (rg_provs r)) (filter (fun q => q <> p) (rg_providers r))
    | None => r
    end
  end.

(** The states a bus goes through, with the registries its clients expect. *)
Inductive bus_step : world * mem * registry -> world * mem * registry -> Prop :=
| bus_step_op op w m r ret w' m' :
    bus_op_ok op w -> run_bus_op op w m = Some ((ret, w'), m') ->
    bus_step (w, m, r) (w', m', spec_bus_op op ret w w' r).

Lemma wp_run_bus_op op w m :
  registry_wf w m -> bus_op_ok op w ->
  wpw (run_bus_op op) (fun ret w' m' => registry_wf w' m' /\
    registry_of w' = spec_bus_op op ret w w' (registry_of w)) w m.
Proof.
  intros R Hop. unfold spec_bus_op. destruct op as [rands p|p|p|p|rands p|p|p|p]; cbn [bus_op_ok run_bus_op] in Hop |- *.
  - destruct Hop as (o & Ho & Hd). eapply wpw_mono; [by apply (wp_add_object rands p o)|].
    intros ret w' m' [[(-> & _ & Eb & _)|(-> & hdl & h' & _ & _ & _ & Hreg & Eo & Eb)] ?]; (split; [done|]).
    + unfold registry_of. by rewrite Eb.
    + cbn [failed Z.ltb Z.compare]. rewrite Eo, lookup_insert_eq. unfold registry_of. rewrite Eb. cbn. by rewrite Hreg.
  - destruct Hop as (o & Ho & Hd). eapply wpw_mono; [by apply (wp_remove_object p o)|].
    intros ret w' m' [? ->]. split; [done|]. by rewrite Ho.
  - destruct Hop as ([o Ho] & Hd). eapply wpw_mono; [by apply (wp_register_object p o)|].
    by intros ret w' m' (-> & ? & ->).
  - destruct (proj2 (rw_list _ _ R) p Hop) as [o Ho].
    eapply wpw_mono; [by apply (wp_unregister_object p o)|]. by intros ret w' m' (-> & ? & ->).
  - destruct Hop as (c & Hc & Hd). eapply wpw_mono; [by apply (wp_register_call rands p c)|].
    intros ret w' m' ([(-> & _ & Eb & _)|(-> & hdl & h' & _ & _ & _ & Hreg & Ec & Eb)] & ? & _); (split; [done|]).
    + unfold registry_of. by rewrite Eb.
    + cbn [failed Z.ltb Z.compare]. rewrite Ec, lookup_insert_eq. unfold registry_of. rewrite Eb. cbn. by rewrite Hreg.
  - destruct Hop as (c & Hc & Hd). eapply wpw_mono; [by apply (wp_unregister_call p c)|].
    intros ret w' m' (? & _ & _ & Hret & H0). split; [done|]. rewrite Hc.
    destruct Hret as [->|[-> ?]]; [|done]. destruct (H0 eq_refl) as (h' & Hreg & Eb).
    cbn [failed Z.ltb Z.compare]. unfold registry_of. rewrite Eb. cbn. by rewrite Hreg.
  - destruct Hop as ([v Hv] & Hd). rewrite Hv. by apply (wp_register_provider p v).
  - destruct Hop as (v & Hv & Hd). rewrite Hv. by apply (wp_unregister_provider p v).
Qed.

(** What the lookups answer in a well-formed registry. *)
Lemma wp_bus_object w m hdl (Q : option positive -> world -> mem -> Prop) :
  objects_wf w m -> Q (reg (b_objects_hash (w_bus w)) !! hdl) w m -> wpw (obus_bus_object hdl) Q w m.
Proof.
  intros [P H] HQ. unfold obus_bus_object. destruct (Z.eqb_spec hdl OBUS_INVALID_HANDLE) as [->|Hn].
  - destruct (reg (b_objects_hash (w_bus w)) !! OBUS_INVALID_HANDLE) as [p|] eqn:E; [|by apply wpw_ret].
    by destruct (H _ _ E).
  - apply wpw_bind, wpw_gets, wpw_bind, wpw_lift. apply wp_reg_lookup; [done| |].
    + intros d Hd. apply wpw_ret. by rewrite <- Hd.
    + intros Hd. apply wpw_ret. cbn. by rewrite <- Hd.
Qed.

(** The lookup of an object of the registry, on any heap. *)
Lemma wp_bus_object_found w m0 m hdl p (Q : option positive -> world -> mem -> Prop) :
  objects_wf w m0 -> reg (b_objects_hash (w_bus w)) !! hdl = Some p -> Q (Some p) w m ->
  wpw (obus_bus_object hdl) Q w m.
Proof.
  intros [P H] Hp HQ. unfold obus_bus_object, OBUS_INVALID_HANDLE in *. destruct (H _ _ Hp) as [Hn _].
  rewrite (proj2 (Z.eqb_neq hdl 0) Hn). apply wpw_bind, wpw_gets, wpw_bind, wpw_lift.
  exists (0, Some p), m. split; [by eapply reg_lookup_any|]. by apply wpw_ret.
Qed.

Lemma wp_bus_call w m hdl (Q : option positive -> world -> mem -> Prop) :
  calls_wf w m -> Q (reg (b_calls_hash (w_bus w)) !! hdl) w m -> wpw (obus_bus_call hdl) Q w m.
Proof.
  intros [P N H H'] HQ. unfold obus_bus_call. destruct (Z.eqb_spec hdl OBUS_INVALID_HANDLE) as [->|Hn].
  - destruct (reg (b_calls_hash (w_bus w)) !! OBUS_INVALID_HANDLE) as [p|] eqn:E; [|by apply wpw_ret].
    by destruct (H _ _ E).
  - apply wpw_bind, wpw_gets, wpw_bind, wpw_lift. apply wp_reg_lookup; [done| |].
    + intros d Hd. apply wpw_ret. by rewrite <- Hd.
    + intros Hd. apply wpw_ret. cbn. by rewrite <- Hd.
Qed.

Lemma wp_bus_provider w m uid (Q : option positive -> world -> mem -> Prop) :
  provs_wf w m -> Q (if uid =? OBUS_INVALID_UID then None else reg (b_providers_hash (w_bus w)) !! uid) w m ->
  wpw (obus_bus_provider uid) Q w m.
Proof.
  intros [P N H H'] HQ. unfold obus_bus_provider. destruct (uid =? OBUS_INVALID_UID); [by apply wpw_ret|].
  apply wpw_bind, wpw_gets, wpw_bind, wpw_lift. apply wp_reg_lookup; [done| |].
  - intros d Hd. apply wpw_ret. by rewrite <- Hd.
  - intros Hd. apply wpw_ret. cbn. by rewrite <- Hd.
Qed.

Lemma run_registry_inv w m r w' m' r' :
  registry_wf w m -> registry_of w = r -> rtc bus_step (w, m, r) (w', m', r') ->
  registry_wf w' m' /\ registry_of w' = r'.
Proof.
  intros R Er Hr. remember (w, m, r) as s eqn:E. remember (w', m', r') as s' eqn:E'.
  revert w m r w' m' r' E E' R Er. induction Hr as [s|s1 s2 s3 Hs Hr IH]; intros w m r w' m' r' E E' R Er; subst.
  - by injection E' as <- <- <-.
  - destruct s2 as [[w2 m2] r2]. inversion Hs as [op ? ? ? ret ? ? Hok Hrun]; subst.
    destruct (wp_run_bus_op op w m R Hok) as (a & m3 & Ha & Hq & Hreg). rewrite Hrun in Ha.
    injection Ha as <- <-. cbn [fst snd] in *. by eapply IH.
Qed.

(** C23: the registries of a bus are finite maps.  Run any operations on a bus
    (objects added, removed, registered and unregistered, calls and providers
    registered and unregistered), called as the library calls them ([bus_op_ok]),
    and update the maps its clients expect: an operation that fails changes
    nothing; an object that is added, and a call that is registered, is under the
    handle it has then, until it is removed; a provider is under its uid; the
    lists gain and lose one member.  Then every further operation is defined, and
    the bus finds, under each handle and each uid, exactly what the maps hold, in
    particular nothing under the handle 0, and its lists are the expected ones;
    and each object and each call has its own handle: what is found under a handle
    carries it, so it is under no other. *)
Theorem bus_registry_invariant w m w' m' r' :
  registry_wf w m -> rtc bus_step (w, m, registry_of w) (w', m', r') ->
  (forall op, bus_op_ok op w' -> is_Some (run_bus_op op w' m')) /\
  (forall hdl, wpw (obus_bus_object hdl) (fun p _ _ => p = rg_objects r' !! hdl) w' m') /\
  (forall hdl, wpw (obus_bus_call hdl) (fun p _ _ => p = rg_calls r' !! hdl) w' m') /\
  (forall uid, wpw (obus_bus_provider uid) (fun p _ _ =>
     p = if uid =? OBUS_INVALID_UID then None else rg_provs r' !! uid) w' m') /\
  b_objects (w_bus w') = rg_registered r' /\ b_calls (w_bus w') = rg_pending r' /\
  b_providers (w_bus w') = rg_providers r' /\
  (forall hdl p, rg_objects r' !! hdl = Some p ->
     hdl <> OBUS_INVALID_HANDLE /\ exists o, w_objs w' !! p = Some o /\ ob_handle o = hdl) /\
  (forall hdl p, rg_calls r' !! hdl = Some p ->
     hdl <> OBUS_INVALID_HANDLE /\ p ∈ rg_pending r' /\ exists c, w_calls w' !! p = Some c /\ cl_handle c = hdl) /\
  (forall p, p ∈ rg_pending r' -> exists c, w_calls w' !! p = Some c /\ rg_calls r' !! cl_handle c = Some p).
Proof.
  intros R Hr. destruct (run_registry_inv _ _ _ _ _ _ R eq_refl Hr) as [R' <-]. split_and!; try done.
  - intros op Hok. destruct (wp_run_bus_op op w' m' R' Hok) as (a & m2 & Ha & _). by eexists.
  - intros hdl. by apply wp_bus_object; [apply R'|].
  - intros hdl. by apply wp_bus_call; [apply R'|].
  - intros uid. by apply wp_bus_provider; [apply R'|].
  - intros hdl p Hp. destruct (ow_objs _ _ (rw_objects _ _ R') _ _ Hp) as (? & o & ? & ? & _). split; [done|]. by exists o.
  - apply (cw_reg _ _ (rw_calls _ _ R')).
  - apply (cw_list _ _ (rw_calls _ _ R')).
Qed.

(** C26: adding an object to a bus either fails and leaves the objects and the
    bus as they were, or gives it a handle that was free (its own when it has
    one, else one drawn at random), and from then on that handle finds it, and
    every other handle finds what it found before.  -EEXIST is for an object
    that came with a handle already in use. *)
Theorem add_object_spec rands p o w m :
  registry_wf w m -> w_objs w !! p = Some o ->
  (ob_handle o = OBUS_INVALID_HANDLE -> draws_end (b_objects_hash (w_bus w)) rands) ->
  wpw (obus_bus_add_object rands p)
      (fun ret w' m' =>
         (failed ret = true /\ w_objs w' = w_objs w /\ w_bus w' = w_bus w /\
            (ret = - EEXIST -> ob_handle o <> OBUS_INVALID_HANDLE /\
               is_Some (reg (b_objects_hash (w_bus w)) !! ob_handle o))) \/
         (ret = 0 /\ exists o', w_objs w' !! p = Some o' /\ ob_bus o' = true /\
            ob_handle o' <> OBUS_INVALID_HANDLE /\
            (ob_handle o <> OBUS_INVALID_HANDLE -> ob_handle o' = ob_handle o) /\
            reg (b_objects_hash (w_bus w)) !! ob_handle o' = None /\
            forall hdl, wpw (obus_bus_object hdl) (fun r _ _ =>
              r = if decide (hdl = ob_handle o') then Some p
                  else reg (b_objects_hash (w_bus w)) !! hdl) w' m')) w m.
Proof.
  intros R Ho Hd. eapply wpw_mono; [by apply (wp_add_object rands p o)|].
  intros ret w' m' [[H|(-> & hdl & h' & Hne & Heq & Hfree & Hreg & Eo & Eb)] R']; [by left|].
  right. split; [done|]. eexists. rewrite Eo, lookup_insert_eq. split; [done|].
  cbn [ob_bus ob_handle with_bus with_handle]. split_and!; [done..|].
  intros hdl'. apply wp_bus_object; [apply R'|]. rewrite Eb. cbn [b_objects_hash set_objects_hash].
  rewrite Hreg, lookup_insert. repeat case_decide; congruence.
Qed.

(** The draw of a handle ends as soon as a free one is drawn, whatever the
    draws before it, and returns the first free handle drawn; a failure of the
    random source ends it with no handle. *)
Theorem draw_handle_total h pre r post m :
  plain_wf h m ->
  Forall (fun x => x <> OBUS_INVALID_HANDLE /\ is_Some (reg h !! x)) pre ->
  r = OBUS_INVALID_HANDLE \/ reg h !! r = None ->
  wp (draw_handle (pre ++ r :: post) h)
     (fun o m' => m' = m /\ o = if r =? OBUS_INVALID_HANDLE then None else Some r) m.
Proof.
  intros P Hpre Hr. by apply wp_draw_first.
Qed.
End Theorems.

Section Witnesses.
#[local] Existing Instance ample_alloc.

Definition wit_objects : obus_hash positive := Hash [[Entry 0 false 1%positive 7]] 1 [Entry 0 false 1%positive 7].
Definition wit_none {D} : obus_hash D := Hash [[]] 1 [].

(** A bus with object 1 under handle 7, and object 2 not yet added. *)
Definition wit_obj (handle : Z) (b : bool) : obus_object :=
  Object b false wit_object handle b 0 (calloc_struct wit_info) [].
Definition wit_world : world :=
  World (Bus (BusApi wit_bus wit_none wit_none wit_none wit_none) wit_none [] wit_objects [1%positive]
           wit_none [])
    (<[1%positive := wit_obj 7 true]> {[2%positive := wit_obj 0 false]}) ∅ ∅ ∅ ∅ 3 [].
Definition wit_world_mem : mem := Mem ∅ 1 1.

Lemma wit_none_wf {D} m : plain_wf (@wit_none D) m.
Proof. split; [by apply (hash_empty_wf 1)|by constructor]. Qed.

Lemma wit_objects_wf : plain_wf wit_objects wit_world_mem.
Proof.
  split; [|by repeat constructor].
  constructor; cbn; [lia|done| | |apply NoDup_singleton|apply NoDup_singleton|repeat constructor].
  - intros [|i] chain e Hi He; cbn in Hi; [|done]. rewrite Z.mod_1_r. done.
  - done.
Qed.

Lemma wit_world_wf : registry_wf wit_world wit_world_mem.
Proof.
  constructor.
  - constructor; [exact wit_objects_wf|]. intros hdl p (e & He & <- & <-)%(reg_lookup _ wit_world_mem);
      [|exact wit_objects_wf]. cbn in He. apply list_elem_of_singleton in He as ->.
    split; [done|]. by eexists.
  - constructor; [apply wit_none_wf|constructor|done|]. intros p Hp. by apply not_elem_of_nil in Hp.
  - constructor; [apply wit_none_wf|constructor|done|]. intros p Hp. by apply not_elem_of_nil in Hp.
  - split; [apply NoDup_singleton|]. intros p ->%list_elem_of_singleton. by eexists.
Qed.

(** Object 1 is removed: its handle, 7, finds nothing any more. *)
Definition wit_removed : option (Z * world * mem) := run_bus_op (RemoveObject 1) wit_world wit_world_mem.

Lemma bus_registry_invariant_witness :
  registry_wf wit_world wit_world_mem /\ exists w' m', wit_removed = Some ((0, w'), m') /\
    wpw (obus_bus_object 7) (fun p _ _ => p = None) w' m'.
Proof.
  split; [exact wit_world_wf|]. destruct wit_removed as [[[ret w'] m']|] eqn:E; [|discriminate E].
  assert (ret = 0) as -> by (vm_compute in E; injection E as <- _ _; reflexivity).
  exists w', m'. split; [reflexivity|].
  assert (bus_op_ok (RemoveObject 1) wit_world) as Hok by (exists (wit_obj 7 true); split; [reflexivity|left; reflexivity]).
  destruct (bus_registry_invariant wit_world wit_world_mem w' m' _ wit_world_wf
    (rtc_once _ _ (bus_step_op _ _ _ _ _ _ _ Hok E))) as (_ & H & _).
  eapply wpw_mono; [apply H|]. intros p w2 m2 ->. reflexivity.
Defined.

Lemma add_object_spec_witness :
  wpw (obus_bus_add_object [7; 9] 2)
      (fun ret w' m' => failed ret = true \/
         exists o', w_objs w' !! 2%positive = Some o' /\
           reg wit_objects !! ob_handle o' = None) wit_world wit_world_mem.
Proof.
  eapply wpw_mono; [apply (add_object_spec [7; 9] 2 (wit_obj 0 false) wit_world wit_world_mem)|].
  - exact wit_world_wf.
  - reflexivity.
  - intros _. exists [7], 9, []. split; [reflexivity|]. split; [|right; reflexivity].
    apply Forall_singleton. split; [done|]. eexists. reflexivity.
  - intros ret w' m' [(Hf & _)|(_ & o' & Ho & _ & _ & _ & Hr & _)]; [by left|right].
    exists o'. split; [exact Ho|exact Hr].
Defined.

Lemma draw_handle_total_witness :
  wp (draw_handle [7; 7; 9; 4] wit_objects)
     (fun o m' => m' = wit_world_mem /\ o = Some 9) wit_world_mem.
Proof.
  apply (draw_handle_total wit_objects [7; 7] 9 [4] wit_world_mem).
  - exact wit_objects_wf.
  - repeat (apply Forall_cons; split); [split; [done|]; eexists; reflexivity..|apply Forall_nil; exact I].
  - right. reflexivity.
Defined.
End Witnesses.
