(* ===== verification/Object.v ===== *)
(** * obus_object.c: objects, their creation, destruction and wire format *)
From S2P Require Import Prelude Mem Cstring Buffer Desc Field Struct Hash BusApi World Bus.

Definition OBUS_METHOD_NOT_SUPPORTED : Z := 0.
Definition OBUS_METHOD_ENABLED : Z := 1.
Definition OBUS_METHOD_DISABLED : Z := 2.

Definition obus_method_state_is_valid (value : Z) : bool :=
  (value =? OBUS_METHOD_ENABLED) || (value =? OBUS_METHOD_NOT_SUPPORTED)
  || (value =? OBUS_METHOD_DISABLED).

(** The enumeration is a 32-bit word. *)
Definition obus_method_state_set_value (value : Z) : Z := u32 value.
Definition obus_method_state_get_value (state : Z) : Z := i32 state.

Definition obus_method_state_driver : obus_enum_driver := {|
  ed_addr := 1;
  ed_size := 4;
  ed_default_value := OBUS_METHOD_DISABLED;
  ed_is_valid := obus_method_state_is_valid;
  ed_set_value := obus_method_state_set_value;
  ed_get_value := obus_method_state_get_value
|}.

(** [sizeof (struct obus_object)] and of a handler pointer. *)
Definition OBJECT_SIZE : Z := 80.
Definition HANDLER_SIZE : Z := 8.

Section Ops.
Context {AL : Allocator}.

(** The info structure of a new object: initialised, every field present,
    then merged with the given one. *)
Definition new_object_info (desc : obus_struct_desc) (info : option obus_struct)
  : M (Z * obus_struct) :=
  '(ret, st) ← obus_struct_init (calloc_struct desc);
  if failed ret then mret (ret, st) else
  '(_, st) ← obus_struct_set_has_fields st;
  match info with
  | None => mret (0, st)
  | Some info => obus_struct_merge st info
  end.

Definition obus_object_new (desc : obus_object_desc) (cbs : option (list Z))
    (info : option obus_struct) : W (option positive) :=
  if match info with
     | Some info => negb (same_desc (st_desc info) (od_info_desc desc))
     | None => false
     end then mret None else
  let n_methods := Z.of_nat (length (od_methods desc)) in
  let size := OBJECT_SIZE + n_methods * HANDLER_SIZE + sd_size (od_info_desc desc) in
  a ← lift (m_alloc size);
  match a with
  | None => mret None
  | Some _ =>
    handlers ← match cbs with
               | Some cbs =>
                 if decide (length (od_methods desc) <= length cbs)%nat
                 then mret (take (length (od_methods desc)) cbs) else w_undef
               | None => mret (replicate (length (od_methods desc)) 0)
               end;
    '(ret, st) ← lift (new_object_info (od_info_desc desc) info);
    if failed ret then mret None else
    p ← fresh;
    put_obj p (Object false false desc OBUS_INVALID_HANDLE false 0 st handlers);;
    mret (Some p)
  end.

Definition obus_object_destroy (p : positive) : W Z :=
  o ← get_obj p;
  if ob_is_registered o then mret (- EPERM) else
  _ ← obus_bus_remove_object (ob_bus o) p;
  o ← get_obj p;
  (if ob_event_node o then unlink_obj p else mret tt);;
  lift (obus_struct_destroy (ob_info o));;
  free_obj p;;
  mret 0.

Definition obus_object_get_desc (p : positive) : W obus_object_desc :=
  o ← get_obj p; mret (ob_desc o).
Definition obus_object_is_registered (p : positive) : W bool :=
  o ← get_obj p; mret (ob_is_registered o).
Definition obus_object_get_handle (p : positive) : W Z :=
  o ← get_obj p; mret (ob_handle o).
Definition obus_object_get_info (p : positive) : W obus_struct :=
  o ← get_obj p; mret (ob_info o).

Definition obus_object_set_user_data (p : positive) (user_data : Z) : W Z :=
  o ← get_obj p;
  put_obj p (Object (ob_bus o) (ob_event_node o) (ob_desc o) (ob_handle o)
               (ob_is_registered o) user_data (ob_info o) (ob_handlers o));;
  mret 0.
Definition obus_object_get_user_data (p : positive) : W Z :=
  o ← get_obj p; mret (ob_user_data o).

(** [desc - obj->desc->methods], by address. *)
Fixpoint method_index (addr : Z) (l : list obus_method_desc) (i : nat) : option nat :=
  match l with
  | [] => None
  | d :: l' => if md_addr d =? addr then Some i else method_index addr l' (S i)
  end.

Definition obus_object_get_method_handler (o : obus_object) (desc : obus_method_desc) : M Z :=
  match method_index (md_addr desc) (od_methods (ob_desc o)) 0 with
  | None => mret 0
  | Some idx => m_lift (ob_handlers o !! idx)
  end.

Definition obus_object_get_method_state (o : obus_object) (uid : Z) : M Z :=
  match obus_struct_get_field_desc (ob_info o) uid with
  | None => mret OBUS_METHOD_DISABLED
  | Some i =>
    fdesc ← m_lift (sd_fields (st_desc (ob_info o)) !! i);
    if negb (bool_decide (fd_role fdesc = OBUS_METHOD)) then mret OBUS_METHOD_DISABLED else
    if negb (ed_addr (fd_enum_drv fdesc) =? ed_addr obus_method_state_driver)
    then mret OBUS_METHOD_DISABLED else
    get_num (ob_info o) (obus_field_address fdesc)
  end.

Definition obus_object_remove_encode (o : obus_object) (buf : buffer) : M (Z * buffer) :=
  '(ret, buf) ← obus_buffer_append_u16 buf (od_uid (ob_desc o));
  if failed ret then mret (ret, buf) else
  '(ret, buf) ← obus_buffer_append_u16 buf (ob_handle o);
  if failed ret then mret (ret, buf) else mret (0, buf).

Definition obus_object_remove_decode (buf : buffer) : W (option positive * buffer) :=
  '(ret, uid, buf) ← lift (obus_buffer_read_u16 buf);
  match uid with
  | None => mret (None, buf)
  | Some uid =>
    '(ret, handle, buf) ← lift (obus_buffer_read_u16 buf);
    match handle with
    | None => mret (None, buf)
    | Some handle => object ← obus_bus_object handle; mret (object, buf)
    end
  end.

(** The struct content is preceded by its length ([sized]). *)
Definition obus_object_add_encode (o : obus_object) (buf : buffer) : M (Z * buffer) :=
  '(ret, buf) ← obus_buffer_append_u16 buf (od_uid (ob_desc o));
  if failed ret then mret (ret, buf) else
  '(ret, buf) ← obus_buffer_append_u16 buf (ob_handle o);
  if failed ret then mret (ret, buf) else
  sized (obus_struct_encode (ob_info o)) buf.

Definition with_info (o : obus_object) (st : obus_struct) : obus_object :=
  Object (ob_bus o) (ob_event_node o) (ob_desc o) (ob_handle o) (ob_is_registered o)
    (ob_user_data o) st (ob_handlers o).

(** The [eat_bytes] label: skip the record. *)
Definition eat_bytes (buf : buffer) (end_pos : Z) : buffer :=
  snd (obus_buffer_set_read_position buf end_pos).

Definition obus_object_add_decode (buf : buffer) : W (option positive * buffer) :=
  '(ret, uid, buf) ← lift (obus_buffer_read_u16 buf);
  match uid with None => mret (None, buf) | Some uid =>
  '(ret, handle, buf) ← lift (obus_buffer_read_u16 buf);
  match handle with None => mret (None, buf) | Some handle =>
  '(ret, size, buf) ← lift (obus_buffer_read_u32 buf);
  match size with None => mret (None, buf) | Some size =>
  let offset := obus_buffer_get_read_position buf in
  let end_pos := u64 (offset + size) in
  if uid =? OBUS_INVALID_UID then mret (None, eat_bytes buf end_pos) else
  if handle =? OBUS_INVALID_HANDLE then mret (None, eat_bytes buf end_pos) else
  bus ← get_bus;
  desc ← lift (obus_bus_api_object (b_api bus) uid);
  match desc with None => mret (None, eat_bytes buf end_pos) | Some desc =>
  obj ← obus_object_new desc None None;
  match obj with None => mret (None, eat_bytes buf end_pos) | Some p =>
  o ← get_obj p;
  put_obj p (with_handle o handle);;
  '(ret, st, buf) ← lift (obus_struct_decode (ob_info o) buf);
  put_obj p (with_info (with_handle o handle) st);;
  if failed ret then
    _ ← obus_object_destroy p;
    mret (None, eat_bytes buf end_pos)
  else if negb (obus_buffer_get_read_position buf =? end_pos) then
    mret (Some p, eat_bytes buf end_pos)
  else mret (Some p, buf)
  end end end end end.
End Ops.

(** ** An object on the wire *)

Definition object_wire (o : obus_object) (cs : list (option fval)) : list Z :=
  let info := struct_wire (od_info_desc (ob_desc o)) cs in
  be_bytes 2 (od_uid (ob_desc o)) ++ be_bytes 2 (ob_handle o)
  ++ be_bytes 4 (Z.of_nat (length info)) ++ info.

(** An object with the contents [cs], ready to be sent. *)
Record object_sound (m : mem) (o : obus_object) (cs : list (option fval)) : Prop := {
  os_desc : st_desc (ob_info o) = od_info_desc (ob_desc o);
  os_shape : struct_shape (ob_info o);
  os_denotes : struct_denotes m (ob_info o) cs;
  os_ok : contents_ok (od_info_desc (ob_desc o)) cs;
  os_uid : uid_ok (od_uid (ob_desc o));
  os_handle : 0 < ob_handle o < 2 ^ 16;
  os_size : Z.of_nat (length (struct_wire (od_info_desc (ob_desc o)) cs)) < 2 ^ 32;
  os_alloc : OBJECT_SIZE + Z.of_nat (length (od_methods (ob_desc o))) * HANDLER_SIZE
             + sd_size (od_info_desc (ob_desc o)) <= PTRDIFF_MAX
}.

Lemma object_sound_length m o cs : object_sound m o cs -> length cs = length (sd_fields (od_info_desc (ob_desc o))).
Proof. intros S. rewrite <- (os_desc _ _ _ S). apply S. Qed.

Lemma object_sound_kinds m o cs : object_sound m o cs -> kinds_ok (od_info_desc (ob_desc o)) cs.
Proof. intros S. rewrite <- (os_desc _ _ _ S). eapply denotes_kinds, S. Qed.

(** The image of an object that is removed. *)
Definition remove_wire (uid handle : Z) : list Z := be_bytes 2 uid ++ be_bytes 2 handle.

Section Wire.
Context {AL : Allocator}.

Lemma emits_object_remove m o :
  emits m (obus_object_remove_encode o) (remove_wire (od_uid (ob_desc o)) (ob_handle o)).
Proof.
  apply (emits_seq m (fun b => obus_buffer_append_u16 b _)); [apply emits_append_u16|].
  rewrite <- (app_nil_r (be_bytes 2 (ob_handle o))).
  apply (emits_seq m (fun b => obus_buffer_append_u16 b _)); [apply emits_append_u16|apply emits_ret].
Qed.

Lemma emits_object m o cs :
  object_sound m o cs -> emits m (obus_object_add_encode o) (object_wire o cs).
Proof.
  intros S. unfold obus_object_add_encode, object_wire.
  apply (emits_seq m (fun b => obus_buffer_append_u16 b _)); [apply emits_append_u16|].
  apply (emits_seq m (fun b => obus_buffer_append_u16 b _)); [apply emits_append_u16|].
  apply emits_sized; [|apply S]. rewrite <- (os_desc _ _ _ S).
  apply emits_struct_encode; [apply S|apply S|]. rewrite (os_desc _ _ _ S). apply S.
Qed.

Lemma wp_new_object_info d m (Q : Z * obus_struct -> mem -> Prop) :
  desc_ok d ->
  (forall st, struct_shape st -> st_desc st = d ->
     (forall i f, sd_fields d !! i = Some f -> has st i = true /\
        field_denotes m (st_mem st) f (fval_default f)) -> Q (0, st) m) ->
  wp (new_object_info d None) Q m.
Proof.
  intros D HQ. unfold new_object_info. apply wp_bind, wp_struct_init; [by apply calloc_shape|].
  intros st SS Hd Hf. cbn [failed Z.ltb Z.compare]. apply wp_bind.
  unfold obus_struct_set_has_fields. apply (wp_all_fields _ true); [by apply wp_set_has_field|done|].
  intros st1 SS1 Hc1 Hh1. apply wp_ret. cbn [st_desc calloc_struct] in Hd.
  apply HQ; [done|by rewrite (proj1 Hc1)|]. intros i f Hi.
  pose proof (lookup_lt_Some _ _ _ Hi). rewrite <- Hd in Hi.
  split; [apply Hh1; by rewrite Hd|]. destruct (Hf i f) as [_ Hdef]; [by rewrite <- Hd|].
  eapply field_denotes_ext; [|exact Hdef]. intros off Ho. apply Hc1.
  by eapply field_offset_not_word; [apply SS|..].
Qed.

(** A new object, on memory that suffices. *)
Lemma wp_object_new `{!AmpleMemory AL} desc w m (Q : option positive -> world -> mem -> Prop) :
  desc_ok (od_info_desc desc) ->
  OBJECT_SIZE + Z.of_nat (length (od_methods desc)) * HANDLER_SIZE + sd_size (od_info_desc desc)
    <= PTRDIFF_MAX ->
  (forall st m', same_blocks m m' -> struct_shape st -> st_desc st = od_info_desc desc ->
     Q (Some (w_next w))
       (set_objs (set_next_addr w (Pos.succ (w_next w)))
          (<[w_next w := Object false false desc OBUS_INVALID_HANDLE false 0 st
               (replicate (length (od_methods desc)) 0)]> (w_objs w))) m') ->
  wpw (obus_object_new desc None None) Q w m.
Proof.
  intros D Hs HQ. unfold obus_object_new. apply wpw_bind, wpw_lift, wp_alloc; intros k m' Hm Hk.
  2:{ by rewrite malloc_ample in Hk. }
  apply wpw_bind, wpw_ret, wpw_bind, wpw_lift, wp_new_object_info; [done|].
  intros st SS Hd _. cbn [failed Z.ltb Z.compare].
  apply wpw_bind, wp_ret. apply wpw_bind, wpw_modify, wpw_ret. by apply HQ.
Qed.

(** A bus whose api was loaded from [d]. *)
Definition bus_loaded (d : obus_bus_desc) (w : world) : Prop :=
  bus_desc_ok d /\ exists m0, api_holds (b_api (w_bus w)) (bd_objects d) (bd_events d) m0.

(** Parsing the image of an object: a new object like the one sent. *)
Lemma wp_object_add_decode `{!AmpleMemory AL} d m0 o cs w m b rest
    (Q : option positive * buffer -> world -> mem -> Prop) :
  object_sound m0 o cs -> bus_loaded d w -> ob_desc o ∈ bd_objects d ->
  mem_wf m -> buf_wf b -> buf_rest b = object_wire o cs ++ rest ->
  (forall st m', grows m m' -> struct_shape st ->
     struct_denotes m' st (struct_back (od_info_desc (ob_desc o)) cs) ->
     Q (Some (w_next w), with_pos b (buf_pos b + Z.of_nat (length (object_wire o cs))))
       (set_objs (set_next_addr w (Pos.succ (w_next w)))
          (<[w_next w := Object false false (ob_desc o) (ob_handle o) false 0 st
               (replicate (length (od_methods (ob_desc o))) 0)]> (w_objs w))) m') ->
  wpw (obus_object_add_decode b) Q w m.
Proof.
  intros S [D [ma HA]] Hin Wm W Hr HQ. unfold obus_object_add_decode.
  pose proof (os_uid _ _ _ S) as Hu. pose proof (os_handle _ _ _ S) as Hh. unfold uid_ok in Hu.
  pose proof (os_size _ _ _ S) as Hsz. pose proof (os_shape _ _ _ S) as SS.
  unfold object_wire in Hr. set (info := struct_wire _ cs) in *. rewrite <- !app_assoc in Hr.
  eapply (wpw_read_u16 (od_uid (ob_desc o))); [lia|done|exact Hr|]. intros b1 E1 W1 Hr1.
  eapply (wpw_read_u16 (ob_handle o)); [lia|done|exact Hr1|]. intros b2 E2 W2 Hr2.
  eapply (wpw_read_u32 (Z.of_nat (length info))); [lia|done|exact Hr2|]. intros b3 E3 W3 Hr3.
  unfold obus_buffer_get_read_position, OBUS_INVALID_UID, OBUS_INVALID_HANDLE. cbn zeta.
  rewrite (proj2 (Z.eqb_neq (od_uid (ob_desc o)) 0)), (proj2 (Z.eqb_neq (ob_handle o) 0)) by lia.
  apply wpw_bind, wpw_gets, wpw_bind, wpw_lift.
  exists (Some (ob_desc o)), m. split; [by eapply api_object_found|].
  apply wpw_bind, wp_object_new; [rewrite <- (os_desc _ _ _ S); apply SS|apply S|].
  intros st0 m1 Hm1 SS0 Hd0. apply wpw_bind. eapply wpw_lookup; [cbn; apply lookup_insert_eq|].
  apply wpw_bind, wpw_modify, wpw_bind, wpw_lift. cbn [ob_info].
  eapply (wp_decode_image (od_info_desc (ob_desc o)) cs); [done|done|by eapply object_sound_length|apply S|
    by eapply object_sound_kinds|by eapply same_blocks_wf|done|exact Hr3|].
  intros st m2 G SS' _ SD. fold info. apply wpw_bind, wpw_modify. cbn [failed Z.ltb Z.compare buf_pos with_pos].
  rewrite (read_end b3) by (done || lia || by eapply after_read). rewrite Z.eqb_refl. cbn [negb]. apply wpw_ret.
  cbn [set_objs w_objs set_next_addr]. rewrite !insert_insert_eq.
  replace (with_pos b3 _) with (with_pos b (buf_pos b + Z.of_nat (length (object_wire o cs))))
    by (unfold object_wire; fold info; same_position).
  apply HQ; [|done|done]. eapply grows_trans; [by apply same_blocks_grows|exact G].
Qed.

(** The image of a removal, up to the lookup of the object. *)
Lemma wp_object_remove_decode uid handle b rest (Q : option positive * buffer -> world -> mem -> Prop) w m :
  0 <= uid < 2 ^ 16 -> 0 <= handle < 2 ^ 16 -> buf_wf b -> buf_rest b = remove_wire uid handle ++ rest ->
  (forall b', b' = with_pos b (buf_pos b + Z.of_nat (length (remove_wire uid handle))) -> buf_wf b' -> buf_rest b' = rest ->
     wpw (obus_bus_object handle) (fun x w' m' => Q (x, b') w' m') w m) ->
  wpw (obus_object_remove_decode b) Q w m.
Proof.
  intros Hu Hh W Hr HQ. unfold remove_wire in *. rewrite <- app_assoc in Hr.
  eapply (wpw_read_u16 uid); [done|done|exact Hr|]. intros b1 E1 W1 Hr1.
  eapply (wpw_read_u16 handle); [done|done|exact Hr1|]. intros b2 E2 W2 Hr2.
  apply wpw_bind. eapply wpw_mono; [apply (HQ b2); [same_position|done|done]|]. intros x w' m' H. by apply wpw_ret.
Qed.
End Wire.
