(* ===== verification/Event.v ===== *)
(** * obus_event.c: object events, their wire format and their commit *)
From S2P Require Import Prelude Mem Cstring Buffer Desc Field Struct Hash BusApi World Bus Object.

(** [sizeof (struct obus_event)] *)
Definition EVENT_SIZE : Z := 72.

Section Ops.
Context {AL : Allocator}.

(** [obus_event_init] fills an event of the caller: no allocation, and the
    info memory is the caller's. *)
Definition obus_event_init (obj : positive) (desc : obus_event_desc) (info : obus_struct)
  : W (Z * option obus_event) :=
  o ← get_obj obj;
  if negb (same_desc (st_desc info) (od_info_desc (ob_desc o))) then mret (- EINVAL, None) else
  mret (0, Some (Event false desc obj false false
                   (Struct (od_info_desc (ob_desc o)) (st_mem info)))).

Definition new_event_info (desc : obus_struct_desc) (info : option obus_struct)
  : M (Z * obus_struct) :=
  '(ret, st) ← obus_struct_init (calloc_struct desc);
  if failed ret then mret (ret, st) else
  match info with
  | None => mret (0, st)
  | Some info => obus_struct_merge st info
  end.

Definition obus_event_new (obj : positive) (desc : obus_event_desc)
    (info : option obus_struct) : W (option positive) :=
  o ← get_obj obj;
  let idesc := od_info_desc (ob_desc o) in
  if match info with
     | Some info => negb (same_desc (st_desc info) idesc)
     | None => false
     end then mret None else
  a ← lift (m_alloc (EVENT_SIZE + sd_size idesc));
  match a with
  | None => mret None
  | Some _ =>
    '(ret, st) ← lift (new_event_info idesc info);
    if failed ret then mret None else
    p ← fresh;
    put_evt p (Event false desc obj true false st);;
    mret (Some p)
  end.

Definition obus_event_destroy (p : positive) : W Z :=
  e ← get_evt p;
  if negb (ev_is_allocated e) then mret (- EPERM) else
  (if ev_event_node e then unlink_evt p else mret tt);;
  lift (obus_struct_destroy (ev_info e));;
  free_evt p;;
  mret 0.

Definition obus_event_get_object (p : positive) : W positive := e ← get_evt p; mret (ev_obj e).
Definition obus_event_get_object_desc (p : positive) : W obus_object_desc :=
  e ← get_evt p; o ← get_obj (ev_obj e); mret (ob_desc o).
Definition obus_event_get_desc (p : positive) : W obus_event_desc :=
  e ← get_evt p; mret (ev_desc e).
Definition obus_event_is_committed (p : positive) : W bool :=
  e ← get_evt p; mret (ev_is_committed e).
Definition obus_event_get_info (p : positive) : W obus_struct :=
  e ← get_evt p; mret (ev_info e).

Definition with_ev_info (e : obus_event) (st : obus_struct) : obus_event :=
  Event (ev_event_node e) (ev_desc e) (ev_obj e) (ev_is_allocated e) (ev_is_committed e) st.
Definition with_committed (e : obus_event) (b : bool) : obus_event :=
  Event (ev_event_node e) (ev_desc e) (ev_obj e) (ev_is_allocated e) b (ev_info e).

(** The search of a field among the updates of the event description. *)
Definition update_declared (desc : obus_event_desc) (f : obus_field_desc) : bool :=
  existsb (fun u => fd_uid f =? fd_uid u) (evd_updates desc).

(** Counts the present fields the event does not declare; the server clears
    them, the client keeps them. *)
Definition sanitize_info (desc : obus_event_desc) (is_server : bool) (st : obus_struct)
  : M (Z * obus_struct) :=
  for_all (fields_of (st_desc st))
    (fun '(i, f) '(ret, st) =>
       b ← obus_struct_has_field st i;
       if negb b then mret (ret, st) else
       if update_declared desc f then mret (ret, st) else
       if is_server then
         '(_, st) ← obus_struct_clear_has_field st i;
         mret (ret + 1, st)
       else mret (ret + 1, st)) (0, st).

Definition obus_event_sanitize (p : positive) (is_server : bool) : W Z :=
  e ← get_evt p;
  '(ret, st) ← lift (sanitize_info (ev_desc e) is_server (ev_info e));
  put_evt p (with_ev_info e st);;
  mret ret.

Definition obus_event_encode (o : obus_object) (e : obus_event) (buf : buffer) : M (Z * buffer) :=
  '(ret, buf) ← obus_buffer_append_u16 buf (od_uid (ob_desc o));
  if failed ret then mret (ret, buf) else
  '(ret, buf) ← obus_buffer_append_u16 buf (ob_handle o);
  if failed ret then mret (ret, buf) else
  '(ret, buf) ← obus_buffer_append_u16 buf (evd_uid (ev_desc e));
  if failed ret then mret (ret, buf) else
  sized (obus_struct_encode (ev_info e)) buf.

Definition obus_event_decode (buf : buffer) : W (option positive * buffer) :=
  '(ret, uid, buf) ← lift (obus_buffer_read_u16 buf);
  match uid with None => mret (None, buf) | Some uid =>
  '(ret, handle, buf) ← lift (obus_buffer_read_u16 buf);
  match handle with None => mret (None, buf) | Some handle =>
  '(ret, event_uid, buf) ← lift (obus_buffer_read_u16 buf);
  match event_uid with None => mret (None, buf) | Some event_uid =>
  '(ret, size, buf) ← lift (obus_buffer_read_u32 buf);
  match size with None => mret (None, buf) | Some size =>
  let offset := obus_buffer_get_read_position buf in
  let end_pos := u64 (offset + size) in
  if uid =? OBUS_INVALID_UID then mret (None, eat_bytes buf end_pos) else
  if handle =? OBUS_INVALID_HANDLE then mret (None, eat_bytes buf end_pos) else
  if event_uid =? OBUS_INVALID_UID then mret (None, eat_bytes buf end_pos) else
  obj ← obus_bus_object handle;
  match obj with None => mret (None, eat_bytes buf end_pos) | Some obj =>
  o ← get_obj obj;
  if negb (od_uid (ob_desc o) =? uid) then mret (None, eat_bytes buf end_pos) else
  bus ← get_bus;
  desc ← lift (obus_bus_api_event (b_api bus) (od_uid (ob_desc o)) event_uid);
  match desc with None => mret (None, eat_bytes buf end_pos) | Some desc =>
  event ← obus_event_new obj desc None;
  match event with None => mret (None, eat_bytes buf end_pos) | Some p =>
  e ← get_evt p;
  '(ret, st, buf) ← lift (obus_struct_decode (ev_info e) buf);
  put_evt p (with_ev_info e st);;
  if failed ret then
    _ ← obus_event_destroy p;
    mret (None, eat_bytes buf end_pos)
  else if negb (obus_buffer_get_read_position buf =? end_pos) then
    mret (Some p, eat_bytes buf end_pos)
  else mret (Some p, buf)
  end end end end end end end.

Definition obus_event_commit (p : positive) : W Z :=
  e ← get_evt p;
  if ev_is_committed e then mret 0 else
  o ← get_obj (ev_obj e);
  '(ret, st) ← lift (obus_struct_merge (ob_info o) (ev_info e));
  put_obj (ev_obj e) (with_info o st);;
  if failed ret then mret ret else
  put_evt p (with_committed e true);;
  mret 0.

Definition obus_event_is_empty (p : positive) : W bool :=
  e ← get_evt p; lift (obus_struct_is_empty (ev_info e)).
End Ops.
