(* ===== verification/Call.v ===== *)
(** * obus_call.c: method calls, their arguments and their acknowledgment *)
From S2P Require Import Prelude Mem Cstring Buffer Desc Field Struct Hash BusApi World Bus Object.

(** [sizeof (struct obus_call)] *)
Definition CALL_SIZE : Z := 80.

Section Ops.
Context {AL : Allocator}.

(** The allocation is [calloc (size, sizeof (struct obus_call))]; arguments that are not
    given are zeroed memory behind the call, not initialised further. *)
Definition obus_call_new (obj : positive) (desc : obus_method_desc) (cb : Z)
    (args : option obus_struct) : W (option positive) :=
  let size := CALL_SIZE + match args, md_args_desc desc with
                          | None, Some d => sd_size d
                          | _, _ => 0
                          end in
  a ← lift (m_alloc (size * CALL_SIZE));
  match a with
  | None => mret None
  | Some _ =>
    let st := match md_args_desc desc, args with
              | None, _ => None
              | Some d, Some st => Some (Struct d (st_mem st))
              | Some d, None => Some (calloc_struct d)
              end in
    p ← fresh;
    put_call p (Call desc obj OBUS_INVALID_HANDLE None OBUS_CALL_INVALID (md_args_desc desc) st cb);;
    mret (Some p)
  end.

Definition obus_call_destroy (p : positive) : W Z :=
  c ← get_call p;
  match cl_args_desc c, cl_args c with
  | Some _, Some st => lift (obus_struct_destroy st)
  | _, _ => mret tt
  end;;
  free_call p;;
  mret 0.

Definition obus_call_get_object (p : positive) : W positive := c ← get_call p; mret (cl_obj c).
Definition obus_call_get_object_desc (p : positive) : W obus_object_desc :=
  c ← get_call p; o ← get_obj (cl_obj c); mret (ob_desc o).

(** The arguments: nothing when the method has none, and a structure at a null
    address is dereferenced. *)
Definition encode_args (c : obus_call) (buf : buffer) : M (Z * buffer) :=
  match cl_args_desc c, cl_args c with
  | Some _, Some st => obus_struct_encode st buf
  | Some _, None => m_undef
  | None, _ => mret (0, buf)
  end.

Definition obus_call_encode (o : obus_object) (c : obus_call) (buf : buffer) : M (Z * buffer) :=
  '(ret, buf) ← obus_buffer_append_u16 buf (od_uid (ob_desc o));
  if failed ret then mret (ret, buf) else
  '(ret, buf) ← obus_buffer_append_u16 buf (ob_handle o);
  if failed ret then mret (ret, buf) else
  '(ret, buf) ← obus_buffer_append_u16 buf (md_uid (cl_desc c));
  if failed ret then mret (ret, buf) else
  '(ret, buf) ← obus_buffer_append_u16 buf (cl_handle c);
  if failed ret then mret (ret, buf) else
  sized (encode_args c) buf.

Definition cl_with_args (c : obus_call) (st : option obus_struct) : obus_call :=
  Call (cl_desc c) (cl_obj c) (cl_handle c) (cl_peer c) (cl_status c) (cl_args_desc c) st (cl_cb c).

(** The end of [obus_call_decode], once the arguments are decoded. *)
Definition finish_call (p : positive) (ret end_pos : Z) (buf : buffer)
  : W (option positive * buffer) :=
  if failed ret then
    _ ← obus_call_destroy p;
    mret (None, eat_bytes buf end_pos)
  else if negb (obus_buffer_get_read_position buf =? end_pos) then
    mret (Some p, eat_bytes buf end_pos)
  else mret (Some p, buf).

Definition obus_call_decode (buf : buffer) : W (option positive * buffer) :=
  '(ret, uid, buf) ← lift (obus_buffer_read_u16 buf);
  match uid with None => mret (None, buf) | Some uid =>
  '(ret, handle, buf) ← lift (obus_buffer_read_u16 buf);
  match handle with None => mret (None, buf) | Some handle =>
  '(ret, mtd_uid, buf) ← lift (obus_buffer_read_u16 buf);
  match mtd_uid with None => mret (None, buf) | Some mtd_uid =>
  '(ret, call_handle, buf) ← lift (obus_buffer_read_u16 buf);
  match call_handle with None => mret (None, buf) | Some call_handle =>
  '(ret, size, buf) ← lift (obus_buffer_read_u32 buf);
  match size with None => mret (None, buf) | Some size =>
  let offset := obus_buffer_get_read_position buf in
  let end_pos := u64 (offset + size) in
  obj ← obus_bus_object handle;
  match obj with None => mret (None, eat_bytes buf end_pos) | Some obj =>
  o ← get_obj obj;
  if negb (od_uid (ob_desc o) =? uid) then mret (None, eat_bytes buf end_pos) else
  bus ← get_bus;
  desc ← lift (obus_bus_api_method (b_api bus) (od_uid (ob_desc o)) mtd_uid);
  match desc with None => mret (None, eat_bytes buf end_pos) | Some desc =>
  call ← obus_call_new obj desc 0 None;
  match call with None => mret (None, eat_bytes buf end_pos) | Some p =>
  c ← get_call p;
  let c := cl_with_handle c call_handle in
  put_call p c;;
  match cl_args c with
  | None => finish_call p 0 end_pos buf
  | Some st =>
    '(ret, st, buf) ← lift (obus_struct_decode st buf);
    put_call p (cl_with_args c (Some st));;
    finish_call p ret end_pos buf
  end
  end end end end end end end end.

(** The handler of the caller; the calls made are recorded. *)
Definition obus_call_ack_notify (p : positive) (status : obus_call_status) : W unit :=
  c ← get_call p;
  if cl_cb c =? 0 then mret tt
  else w_modify (fun w => add_note w (cl_obj c, cl_handle c, status)).
End Ops.
