(* ===== verification/BusEvent.v ===== *)
(** * obus_bus_event.c: grouped updates: objects added, removed, object events *)
From S2P Require Import Prelude Mem Cstring Buffer Desc Field Struct Hash BusApi World Bus Object Event.

(** [sizeof (struct obus_bus_event)] *)
Definition BUS_EVENT_SIZE : Z := 64.

Section Ops.
Context {AL : Allocator}.

(** A bus event of the caller gets an address as well: it can be linked to. *)
Definition obus_bus_event_init (desc : obus_bus_event_desc) : W positive :=
  p ← fresh;
  put_bev p (BusEvent desc [] [] [] false false);;
  mret p.

Definition with_add_objs (b : obus_bus_event) l : obus_bus_event :=
  BusEvent (be_desc b) l (be_remove_objs b) (be_obj_events b) (be_is_committed b) (be_is_allocated b).
Definition with_remove_objs (b : obus_bus_event) l : obus_bus_event :=
  BusEvent (be_desc b) (be_add_objs b) l (be_obj_events b) (be_is_committed b) (be_is_allocated b).
Definition with_obj_events (b : obus_bus_event) l : obus_bus_event :=
  BusEvent (be_desc b) (be_add_objs b) (be_remove_objs b) l (be_is_committed b) (be_is_allocated b).

Definition obus_bus_event_get_desc (p : positive) : W obus_bus_event_desc :=
  b ← get_bev p; mret (be_desc b).

(** Linking without the check of the public functions. *)
Definition link_add (p obj : positive) : W unit :=
  mark_obj_linked obj;;
  b ← get_bev p; put_bev p (with_add_objs b (be_add_objs b ++ [obj])).
Definition link_remove (p obj : positive) : W unit :=
  mark_obj_linked obj;;
  b ← get_bev p; put_bev p (with_remove_objs b (be_remove_objs b ++ [obj])).
Definition link_event (p evt : positive) : W unit :=
  mark_evt_linked evt;;
  b ← get_bev p; put_bev p (with_obj_events b (be_obj_events b ++ [evt])).

Definition obus_bus_event_register_object (p obj : positive) : W Z :=
  o ← get_obj obj;
  if ob_event_node o then mret (- EPERM) else link_add p obj;; mret 0.

Definition obus_bus_event_unregister_object (p obj : positive) : W Z :=
  o ← get_obj obj;
  if ob_event_node o then mret (- EPERM) else link_remove p obj;; mret 0.

Definition obus_bus_event_add_event (p evt : positive) : W Z :=
  e ← get_evt evt;
  if ev_event_node e then mret (- EPERM) else link_event p evt;; mret 0.

Definition obus_bus_event_new (desc : obus_bus_event_desc) : W (option positive) :=
  a ← lift (m_alloc BUS_EVENT_SIZE);
  match a with
  | None => mret None
  | Some _ =>
    p ← obus_bus_event_init desc;
    b ← get_bev p;
    put_bev p (BusEvent (be_desc b) (be_add_objs b) (be_remove_objs b) (be_obj_events b)
                 (be_is_committed b) true);;
    mret (Some p)
  end.

Definition obus_bus_event_destroy (p : positive) : W Z :=
  b ← get_bev p;
  w_iter (be_obj_events b) (fun evt => unlink_evt evt;; _ ← obus_event_destroy evt; mret tt);;
  b ← get_bev p;
  w_iter (be_add_objs b) unlink_obj;;
  b ← get_bev p;
  w_iter (be_remove_objs b) (fun obj => unlink_obj obj;; _ ← obus_object_destroy obj; mret tt);;
  b ← get_bev p;
  (if be_is_allocated b then free_bev p else mret tt);;
  mret 0.

(** The structures a list of addresses points to. *)
Fixpoint get_all {A} (get : positive -> W A) (l : list positive) : W (list A) :=
  match l with
  | [] => mret []
  | p :: l' => x ← get p; xs ← get_all get l'; mret (x :: xs)
  end.

Definition get_evt_obj (p : positive) : W (obus_object * obus_event) :=
  e ← get_evt p; o ← get_obj (ev_obj e); mret (o, e).

Definition count (l : list positive) : Z := u32 (Z.of_nat (length l)).

Definition encode_bus_event (b : obus_bus_event) (adds removes : list obus_object)
    (evts : list (obus_object * obus_event)) (buf : buffer) : M (Z * buffer) :=
  '(ret, buf) ← obus_buffer_append_u16 buf (bed_uid (be_desc b));
  if failed ret then mret (ret, buf) else
  '(ret, buf) ← obus_buffer_append_u32 buf (count (be_add_objs b));
  if failed ret then mret (ret, buf) else
  '(ret, buf) ← obus_buffer_append_u32 buf (count (be_remove_objs b));
  if failed ret then mret (ret, buf) else
  '(ret, buf) ← obus_buffer_append_u32 buf (count (be_obj_events b));
  if failed ret then mret (ret, buf) else
  '(ret, buf) ← for_each adds obus_object_add_encode buf;
  if failed ret then mret (ret, buf) else
  '(ret, buf) ← for_each removes obus_object_remove_encode buf;
  if failed ret then mret (ret, buf) else
  for_each evts (fun '(o, e) buf => obus_event_encode o e buf) buf.

Definition obus_bus_event_encode (p : positive) (buf : buffer) : W (Z * buffer) :=
  b ← get_bev p;
  adds ← get_all get_obj (be_add_objs b);
  removes ← get_all get_obj (be_remove_objs b);
  evts ← get_all get_evt_obj (be_obj_events b);
  lift (encode_bus_event b adds removes evts buf).

(** One record of a list: decoded, and linked when that succeeds. *)
Definition decode_link (decode : buffer -> W (option positive * buffer))
    (link : positive -> W unit) (_ : Z) (buf : buffer) : W buffer :=
  '(x, buf) ← decode buf;
  match x with
  | None => mret buf
  | Some x => link x;; mret buf
  end.

Definition obus_bus_event_decode (buf : buffer) : W (option positive * buffer) :=
  '(ret, uid, buf) ← lift (obus_buffer_read_u16 buf);
  match uid with None => mret (None, buf) | Some uid =>
  '(ret, n_add_objs, buf) ← lift (obus_buffer_read_u32 buf);
  match n_add_objs with None => mret (None, buf) | Some n_add_objs =>
  '(ret, n_remove_objs, buf) ← lift (obus_buffer_read_u32 buf);
  match n_remove_objs with None => mret (None, buf) | Some n_remove_objs =>
  '(ret, n_obj_events, buf) ← lift (obus_buffer_read_u32 buf);
  match n_obj_events with None => mret (None, buf) | Some n_obj_events =>
  bus ← get_bus;
  desc ← lift (obus_bus_api_bus_event (b_api bus) uid);
  match desc with None => mret (None, buf) | Some desc =>
  event ← obus_bus_event_new desc;
  match event with None => mret (None, buf) | Some p =>
  buf ← w_fold (indices n_add_objs) (decode_link obus_object_add_decode (link_add p)) buf;
  buf ← w_fold (indices n_remove_objs) (decode_link obus_object_remove_decode (link_remove p)) buf;
  buf ← w_fold (indices n_obj_events) (decode_link obus_event_decode (link_event p)) buf;
  mret (Some p, buf)
  end end end end end end.
End Ops.
