(* ===== verification/Teardown.v ===== *)
(** * obus_bus.c: aborting calls, clearing and destroying a bus *)
From S2P Require Import Prelude Mem Cstring Buffer Desc Field Struct Hash BusApi World Bus Object Call.

Section Ops.
Context {AL : Allocator}.

(** Unregister, notify, destroy: the three steps of every abort loop. *)
Definition abort_call (p : positive) : W unit :=
  _ ← obus_bus_unregister_call p;
  obus_call_ack_notify p OBUS_CALL_ABORTED;;
  _ ← obus_call_destroy p;
  mret tt.

(** [obj] is [None] to abort every call. *)
Definition obus_bus_abort_call (obj : option positive) : W unit :=
  bus ← get_bus;
  w_iter (b_calls bus) (fun p =>
    c ← get_call p;
    match obj with
    | None => abort_call p
    | Some obj => if decide (cl_obj c = obj) then abort_call p else mret tt
    end).

(** The objects of the hash, in the order of its entries. *)
Definition obus_bus_clear : W Z :=
  bus ← get_bus;
  w_iter (b_calls bus) abort_call;;
  bus ← get_bus;
  w_iter (map e_data (h_entries (b_objects_hash bus))) (fun p =>
    _ ← obus_bus_unregister_object p;
    _ ← obus_object_destroy p;
    mret tt);;
  mret 0.

Definition obus_bus_destroy : W Z :=
  _ ← obus_bus_clear;
  bus ← get_bus;
  put_bus (zero_bus (snd (obus_bus_api_destroy (b_api bus))));;
  mret 0.
End Ops.
