(* ===== verification/CallFacts.v ===== *)
(** * The end of calls: the acknowledgment and the abort

    A call that ends is unregistered, its status handler is told, and it is
    freed.  Aborting the calls of an object ends exactly these calls. *)
From S2P Require Import Prelude Mem Cstring Buffer Desc Field Struct Hash BusApi World Bus Object Call Teardown.

(** Only calls, the bus and the address counter change. *)
Record calls_only (w w' : world) : Prop := {
  co_objs : w_objs w' = w_objs w;
  co_evts : w_evts w' = w_evts w;
  co_bevs : w_bevs w' = w_bevs w;
  co_provs : w_provs w' = w_provs w;
  co_notes : w_notes w' = w_notes w
}.

#[export] Instance calls_only_preorder : PreOrder calls_only.
Proof.
  split; [by intros w; split|]. intros w1 w2 w3 [A1 A2 A3 A4 A5] [B1 B2 B3 B4 B5].
  split; by etransitivity.
Qed.

#[local] Hint Extern 1 (wkeeps _ (w_modify _)) => apply wkeeps_modify; done : wkeeps.

Section Frames.
Context {AL : Allocator}.

Lemma register_call_frame rands p : wkeeps calls_only (obus_bus_register_call rands p).
Proof.
  unfold obus_bus_register_call, get_call, w_lookup, get_bus, put_call, put_bus, list_link. wkeeps.
Qed.

Lemma unregister_call_frame p : wkeeps calls_only (obus_bus_unregister_call p).
Proof.
  unfold obus_bus_unregister_call, get_call, w_lookup, get_bus, put_bus, list_unlink. wkeeps.
Qed.

(** ** The life of a call *)

Lemma registry_later w m m' : registry_wf w m -> (m_count m <= m_count m')%nat -> registry_wf w m'.
Proof.
  intros [RO RC RP RL] Hm.
  constructor; [by eapply objects_wf_frame|by eapply calls_wf_frame|by eapply provs_wf_frame|done].
Qed.

(** A fresh call does not disturb the registries. *)
Lemma registry_fresh_call w m p c m' :
  registry_wf w m -> w_calls w !! p = None -> (m_count m <= m_count m')%nat ->
  registry_wf (set_calls (set_next_addr w (Pos.succ (w_next w))) (<[p := c]> (w_calls w))) m'.
Proof.
  intros [RO RC RP RL] Hp Hm.
  constructor; [by eapply objects_wf_frame| |by eapply provs_wf_frame|done].
  destruct RC as [H1 H2 H3 H4]. constructor; cbn; [by eapply plain_wf_later|done|..].
  - intros hdl q Hq. destruct (H3 hdl q Hq) as (Hn & Hin & cq & Hcq & Hh). split_and!; [done..|].
    exists cq. split; [|done]. rewrite lookup_insert_ne; [done|]. intros <-. congruence.
  - intros q Hq. destruct (H4 q Hq) as (cq & Hcq & Hr). exists cq. split; [|done].
    rewrite lookup_insert_ne; [done|]. intros <-. congruence.
Qed.

(** A registered call may drop its arguments. *)
Lemma registry_set_args w m p c st m' :
  registry_wf w m -> w_calls w !! p = Some c -> (m_count m <= m_count m')%nat ->
  registry_wf (set_calls w (<[p := cl_with_args c st]> (w_calls w))) m'.
Proof.
  intros [RO RC RP RL] Hp Hm.
  constructor; [by eapply objects_wf_frame| |by eapply provs_wf_frame|done].
  destruct RC as [H1 H2 H3 H4]. constructor; cbn; [by eapply plain_wf_later|done|..].
  - intros hdl q Hq. destruct (H3 hdl q Hq) as (Hn & Hin & cq & Hcq & Hh). split_and!; [done..|].
    destruct (decide (q = p)) as [->|Hne]; [|exists cq; by rewrite lookup_insert_ne].
    rewrite lookup_insert_eq. eexists. split; [done|]. by simplify_eq.
  - intros q Hq. destruct (H4 q Hq) as (cq & Hcq & Hr).
    destruct (decide (q = p)) as [->|Hne]; [|exists cq; by rewrite lookup_insert_ne].
    rewrite lookup_insert_eq. eexists. split; [done|]. by simplify_eq.
Qed.

(** A call that is not registered may be freed, or changed. *)
Lemma registry_call_alter w m p f m' :
  registry_wf w m -> p ∉ b_calls (w_bus w) -> (m_count m <= m_count m')%nat ->
  (forall q, q <> p -> f !! q = w_calls w !! q) -> registry_wf (set_calls w f) m'.
Proof.
  intros [RO RC RP RL] Hp Hm Hf.
  constructor; [by eapply objects_wf_frame| |by eapply provs_wf_frame|done].
  destruct RC as [H1 H2 H3 H4]. constructor; cbn; [by eapply plain_wf_later|done|..].
  - intros hdl q Hq. destruct (H3 hdl q Hq) as (Hn & Hin & cq & Hcq & Hh). split_and!; [done..|].
    exists cq. split; [|done]. rewrite Hf; [done|]. by intros ->.
  - intros q Hq. destruct (H4 q Hq) as (cq & Hcq & Hr). exists cq. split; [|done].
    rewrite Hf; [done|]. by intros ->.
Qed.
End Frames.

Section Finish.
Context {AL : Allocator}.

(** A registered call without arguments is unregistered, notified and freed. *)
Definition call_finished (p : positive) (c : obus_call) (status : obus_call_status) (w w' : world) : Prop :=
  reg (b_calls_hash (w_bus w')) = delete (cl_handle c) (reg (b_calls_hash (w_bus w))) /\
  b_calls (w_bus w') = filter (fun q => q <> p) (b_calls (w_bus w)) /\
  w_calls w' = delete p (w_calls w) /\
  w_notes w' = w_notes w ++ (if cl_cb c =? 0 then [] else [(cl_obj c, cl_handle c, status)]) /\
  w_objs w' = w_objs w.

Lemma wp_call_destroy p c (Q : Z -> world -> mem -> Prop) w m :
  w_calls w !! p = Some c -> cl_args c = None ->
  Q 0 (set_calls w (delete p (w_calls w))) m -> wpw (obus_call_destroy p) Q w m.
Proof.
  intros Hc Ha HQ. unfold obus_call_destroy. apply wpw_bind. eapply wpw_lookup; [exact Hc|]. rewrite Ha.
  apply wpw_bind. replace (match cl_args_desc c with Some _ => mret () | None => mret () end) with (mret () : W unit)
    by by destruct (cl_args_desc c).
  by apply wpw_ret, wpw_bind, wpw_modify, wpw_ret.
Qed.

(** The three steps that end a call: the acknowledgment and the abort. *)
Lemma wp_finish_call p c status w m :
  registry_wf w m -> w_calls w !! p = Some c -> p ∈ b_calls (w_bus w) -> cl_args c = None ->
  wpw (_ ← obus_bus_unregister_call p; obus_call_ack_notify p status;; _ ← obus_call_destroy p; mret tt)
      (fun _ w' m' => registry_wf w' m' /\ call_finished p c status w w') w m.
Proof.
  intros R Hc Hp Ha. apply wpw_bind.
  eapply wpw_mono; [apply wpw_keeps; [apply unregister_call_frame|by apply (wp_unregister_call p c); [done|done|left]]|].
  intros ret w1 m1 ((R1 & E1 & Hr & _ & Hw) & [F1 F2 F3 F4 F5]). specialize (Hr Hp). destruct (Hw Hr) as (h' & Hreg & Hbus).
  assert (p ∉ b_calls (w_bus w1)) as Hp1.
  { rewrite Hbus. cbn. intros [Hn _]%list_elem_of_filter. done. }
  unfold obus_call_ack_notify. apply wpw_bind, wpw_bind. eapply wpw_lookup; [by rewrite E1|].
  set (w2 := if cl_cb c =? 0 then w1 else add_note w1 (cl_obj c, cl_handle c, status)).
  assert (w_calls w2 = w_calls w /\ w_bus w2 = w_bus w1 /\ w_objs w2 = w_objs w /\
    w_notes w2 = w_notes w ++ (if cl_cb c =? 0 then [] else [(cl_obj c, cl_handle c, status)])) as (G1 & G2 & G3 & G4).
  { unfold w2. destruct (cl_cb c =? 0); cbn; rewrite ?F5, ?app_nil_r; done. }
  assert (wpw (_ ← obus_call_destroy p; mret tt)
    (fun _ w' m' => registry_wf w' m' /\ call_finished p c status w w') w2 m1) as Hend.
  { apply wpw_bind. eapply wp_call_destroy; [by rewrite G1|done|]. apply wpw_ret. split.
    - apply (registry_call_alter w2 m1 p); [|by rewrite G2|lia|].
      + unfold w2. destruct (cl_cb c =? 0); [done|]. destruct R1.
        constructor; [by eapply objects_wf_frame|by eapply calls_wf_frame|by eapply provs_wf_frame|done].
      + intros q Hq. by rewrite lookup_delete_ne.
    - unfold call_finished. cbn. rewrite G1, G2, G3, G4, Hbus. done. }
  unfold w2 in Hend. destruct (cl_cb c =? 0); [by apply wpw_ret|by apply wpw_modify].
Qed.


(** ** Aborting calls *)

(** Is the call aborted when object [obj] goes, every call when it is [None]? *)
Definition targeted (obj : option positive) (w : world) (p : positive) : bool :=
  match w_calls w !! p, obj with
  | None, _ => false
  | Some _, None => true
  | Some c, Some obj => bool_decide (cl_obj c = obj)
  end.

(** What the status handler of a call is told. *)
Definition abort_note (w : world) (p : positive) : list (positive * Z * obus_call_status) :=
  match w_calls w !! p with
  | Some c => if cl_cb c =? 0 then [] else [(cl_obj c, cl_handle c, OBUS_CALL_ABORTED)]
  | None => []
  end.

(** The calls of [l] that are targeted are gone. *)
Record aborted (obj : option positive) (l : list positive) (w w' : world) : Prop := {
  ab_calls : b_calls (w_bus w') = filter (fun q => ~ (q ∈ l /\ targeted obj w q = true)) (b_calls (w_bus w));
  ab_store : forall q, w_calls w' !! q = if decide (q ∈ l /\ targeted obj w q = true) then None else w_calls w !! q;
  ab_notes : w_notes w' = w_notes w ++ flat_map (abort_note w) (filter (fun q => targeted obj w q = true) l);
  ab_objs : w_objs w' = w_objs w
}.

Lemma aborted_nil obj w : aborted obj [] w w.
Proof.
  constructor; [|intros q|by rewrite app_nil_r|done].
  - symmetry. apply filter_all. intros q _ [H _]. by apply not_elem_of_nil in H.
  - rewrite decide_False; [done|]. intros [H _]. by apply not_elem_of_nil in H.
Qed.

Lemma aborted_skip obj l p w w' :
  aborted obj l w w' -> targeted obj w p = false -> aborted obj (l ++ [p]) w w'.
Proof.
  intros [A1 A2 A3 A4] Ht.
  assert (forall q, q ∈ l ++ [p] /\ targeted obj w q = true <-> q ∈ l /\ targeted obj w q = true) as Hq.
  { intros q. rewrite elem_of_app, list_elem_of_singleton. split; [|tauto]. intros [[?| ->] ?]; [done|congruence]. }
  constructor; [rewrite A1| | |done].
  - apply filter_ext_in. intros q _. by rewrite Hq.
  - intros q. rewrite A2. by apply decide_ext.
  - rewrite A3, filter_app, filter_cons_False by congruence. by rewrite app_nil_r.
Qed.

Lemma aborted_step obj l p c w w1 w' :
  aborted obj l w w1 -> targeted obj w p = true -> w_calls w !! p = Some c ->
  call_finished p c OBUS_CALL_ABORTED w1 w' -> aborted obj (l ++ [p]) w w'.
Proof.
  intros [A1 A2 A3 A4] Ht Hc (_ & F2 & F3 & F4 & F5).
  constructor; [rewrite F2, A1|intros q; rewrite F3|rewrite F4, A3|by rewrite F5].
  - rewrite list_filter_filter. apply filter_ext_in. intros q _. rewrite elem_of_app, list_elem_of_singleton.
    split; [|intros Hn; split; [intros ->; tauto|tauto]]. intros [Hn Hl] [[?| ->] ?]; tauto.
  - destruct (decide (q = p)) as [->|Hn].
    + rewrite lookup_delete_eq, decide_True; [done|]. split; [|done]. apply elem_of_app. right. by left.
    + rewrite lookup_delete_ne, A2 by done. apply decide_ext. rewrite elem_of_app, list_elem_of_singleton. naive_solver.
  - rewrite filter_app, filter_cons_True, filter_nil by done. rewrite flat_map_app. cbn.
    unfold abort_note at 3. rewrite Hc, app_nil_r, <- app_assoc. done.
Qed.

(** C11: aborting the calls of an object (all calls when none is given) is
    defined whatever calls there are, and ends exactly the registered calls of
    that object: they leave the list and the table of the bus and are freed, their
    status handlers are told, in the order of the calls, that they were aborted;
    the other calls stay, the objects too, and the registries stay well formed. *)
Theorem abort_ends_calls obj w m :
  registry_wf w m -> (forall p c, p ∈ b_calls (w_bus w) -> w_calls w !! p = Some c -> cl_args c = None) ->
  wpw (obus_bus_abort_call obj)
      (fun _ w' m' => registry_wf w' m' /\
         b_calls (w_bus w') = filter (fun q => targeted obj w q = false) (b_calls (w_bus w)) /\
         (forall q, w_calls w' !! q =
            if decide (q ∈ b_calls (w_bus w) /\ targeted obj w q = true) then None else w_calls w !! q) /\
         w_notes w' = w_notes w ++ flat_map (abort_note w) (filter (fun q => targeted obj w q = true) (b_calls (w_bus w))) /\
         w_objs w' = w_objs w) w m.
Proof.
  intros R Hargs. unfold obus_bus_abort_call, get_bus. apply wpw_bind, wpw_gets.
  pose proof (cw_nodup _ _ (rw_calls _ _ R)) as HN.
  eapply wpw_mono.
  - apply (wpw_fold (fun l (_ : unit) w' m' => registry_wf w' m' /\ aborted obj l w w') _ _ []).
    + split; [done|apply aborted_nil].
    + intros pre p post [] w1 m1 Heq [R1 A]. cbn in Heq. rewrite Heq in HN.
      assert (p ∈ b_calls (w_bus w)) as Hp by (rewrite Heq; apply elem_of_app; right; by left).
      assert (p ∉ pre) as Hpre.
      { apply NoDup_app in HN as (_ & H & _). intros Hin. apply (H _ Hin). by left. }
      destruct (cw_list _ _ (rw_calls _ _ R) p Hp) as (c & Hc & _).
      assert (w_calls w1 !! p = Some c) as Hc1 by (rewrite (ab_store _ _ _ _ A), decide_False; [done|tauto]).
      assert (p ∈ b_calls (w_bus w1)) as Hp1.
      { rewrite (ab_calls _ _ _ _ A). apply list_elem_of_filter. split; [tauto|done]. }
      apply wpw_bind. eapply wpw_lookup; [exact Hc1|].
      assert (targeted obj w p = true -> wpw (abort_call p) (fun _ w' m' => registry_wf w' m' /\ aborted obj (pre ++ [p]) w w') w1 m1) as Hab.
      { intros Ht. eapply wpw_mono; [apply (wp_finish_call p c OBUS_CALL_ABORTED); [done..|by eapply Hargs]|].
        intros [] w' m' [R' HF]. split; [done|]. by eapply aborted_step. }
      unfold targeted in Hab. rewrite Hc in Hab. destruct obj as [obj|]; [|by apply Hab].
      case_decide as Hd; [by apply Hab, bool_decide_eq_true|]. apply wpw_ret. split; [done|].
      apply aborted_skip; [done|]. unfold targeted. rewrite Hc. by apply bool_decide_eq_false.
  - intros [] w' m' [R' [A1 A2 A3 A4]]. cbn [app] in *. split_and!; [done| |done..].
    rewrite A1. apply filter_ext_in. intros q Hq. rewrite not_and_l. destruct (targeted obj w q); naive_solver.
Qed.
End Finish.

Section Witnesses.
#[local] Existing Instance ample_alloc.

(** Two calls: 1 on object 1 under handle 9, 2 on object 3 under handle 4. *)
Definition wit_call (obj : positive) (handle : Z) : obus_call :=
  Call wit_method obj handle None OBUS_CALL_INVALID None None 5.
Definition wit_e1 : obus_hash_entry positive := Entry 0 false 1%positive 9.
Definition wit_e2 : obus_hash_entry positive := Entry 1 false 2%positive 4.
Definition wit_calls : obus_hash positive := Hash [[wit_e2; wit_e1]] 1 [wit_e1; wit_e2].
Definition wit_call_world : world :=
  World (Bus (BusApi wit_bus wit_none wit_none wit_none wit_none) wit_calls [1%positive; 2%positive] wit_none []
           wit_none [])
    ∅ ∅ {[1%positive := wit_call 1 9; 2%positive := wit_call 3 4]} ∅ ∅ 3 [].
Definition wit_call_mem : mem := Mem ∅ 1 2.

Lemma wit_calls_wf : plain_wf wit_calls wit_call_mem.
Proof.
  split; [|by repeat constructor].
  constructor; cbn; [lia|done| |apply Permutation_swap| | |].
  - intros [|i] chain e Hi He; cbn in Hi; [|done]. by rewrite Z.mod_1_r.
  - repeat constructor; set_solver.
  - repeat constructor; set_solver.
  - repeat constructor.
Qed.

Lemma wit_call_world_wf : registry_wf wit_call_world wit_call_mem.
Proof.
  assert (reg wit_calls = {[9 := 1%positive; 4 := 2%positive]}) as Hreg by (vm_compute; reflexivity).
  constructor.
  - constructor; [apply wit_none_wf|]. done.
  - constructor; cbn [b_calls_hash b_calls w_bus w_calls wit_call_world]; [exact wit_calls_wf|repeat constructor; set_solver|..].
    + intros hdl p. rewrite Hreg. intros [[<- <-]|[_ [<- <-]%lookup_singleton_Some]]%lookup_insert_Some;
        (split; [done|]; split; [set_solver|]; by eexists).
    + intros p. rewrite Hreg. intros [->|[->|H]%elem_of_cons]%elem_of_cons; [by eexists..|by apply not_elem_of_nil in H].
  - constructor; [apply wit_none_wf|constructor|done|]. intros p Hp. by apply not_elem_of_nil in Hp.
  - split; [constructor|]. intros p Hp. by apply not_elem_of_nil in Hp.
Qed.

Lemma wit_calls_detached p c :
  w_calls wit_call_world !! p = Some c -> cl_args c = None.
Proof. unfold wit_call_world. cbn [w_calls]. by intros [[_ <-]|[_ [_ <-]%lookup_singleton_Some]]%lookup_insert_Some. Qed.

Lemma abort_ends_calls_witness :
  wpw (obus_bus_abort_call (Some 1%positive))
      (fun _ w' _ => b_calls (w_bus w') = [2%positive] /\ w_notes w' = [(1%positive, 9, OBUS_CALL_ABORTED)])
      wit_call_world wit_call_mem.
Proof.
  eapply wpw_mono; [apply (abort_ends_calls (Some 1%positive) wit_call_world wit_call_mem)|].
  - exact wit_call_world_wf.
  - intros p c _. apply wit_calls_detached.
  - intros [] w' m' (_ & -> & _ & -> & _). split; reflexivity.
Defined.
End Witnesses.
