(* ===== verification/Io.v ===== *)
(** * obus_io.c: non-blocking reads, and the queue of pending writes

    The kernel is a script.  [read] takes bytes from the front chunk of the
    incoming stream, at most as many as asked for; an empty chunk is the end of
    file.  [write] accepts some number of bytes or fails with an errno.  Loop
    registration and the write timer are flags.  A script that ends where the
    code calls the kernel once more is no execution and gives [None]. *)
From S2P Require Import Prelude Mem Buffer Pool.

Inductive sys_read :=
| Incoming (bs : list Z)      (* bytes ready on the descriptor; [] is EOF *)
| ReadError (errno : Z).

Inductive sys_write :=
| Accepted (n : Z)            (* at most the size that was asked for *)
| WriteError (errno : Z).

Inductive obus_io_status :=
| OBUS_IO_OK | OBUS_IO_EOF | OBUS_IO_ERROR | OBUS_IO_TIMEOUT | OBUS_IO_ABORT.

Section Read.
Context {AL : Allocator}.

(** [read] retried on [EINTR]: number of bytes or negative code, the bytes, and
    the stream left. *)
Fixpoint read_retry (script : list sys_read) (size : Z) : M (Z * list Z * list sys_read) :=
  match script with
  | [] => m_undef
  | ReadError e :: script' =>
    if e =? EINTR then read_retry script' size else mret (- e, [], script')
  | Incoming bs :: script' =>
    let now := take (Z.to_nat size) bs in
    let later := drop (Z.to_nat size) bs in
    mret (Z.of_nat (length now), now,
          match later with [] => script' | _ => Incoming later :: script' end)
  end.

Definition obus_io_read (script : list sys_read) (buf : buffer) (size : Z)
  : M (Z * buffer * list sys_read) :=
  if size =? 0 then mret (- EINVAL, buf, script) else
  '(ret, buf) ← obus_buffer_ensure_write_space buf size;
  if failed ret then mret (ret, buf, script) else
  '(nbytes, bs, script) ← read_retry script size;
  if nbytes <=? 0 then mret (nbytes, buf, script) else
  buf ← data_blit buf (obus_buffer_write_offset buf) bs;
  mret (nbytes, obus_buffer_inc_write_ptr buf nbytes, script).
End Read.

(** ** Writing *)

(** [io_calls] records the write callbacks, [io_wire] the bytes the kernel has
    accepted. *)
Record obus_io := Io {
  io_write_buffers : list positive;
  io_nbr_written : Z;
  io_write_fd_used : bool;
  io_write_timer : bool;
  io_pool : pool;
  io_wire : list Z;
  io_calls : list (obus_io_status * positive)
}.

Definition with_timer (io : obus_io) b : obus_io :=
  Io (io_write_buffers io) (io_nbr_written io) (io_write_fd_used io) b (io_pool io) (io_wire io) (io_calls io).
Definition with_fd_used (io : obus_io) b : obus_io :=
  Io (io_write_buffers io) (io_nbr_written io) b (io_write_timer io) (io_pool io) (io_wire io) (io_calls io).
Definition with_written (io : obus_io) n : obus_io :=
  Io (io_write_buffers io) n (io_write_fd_used io) (io_write_timer io) (io_pool io) (io_wire io) (io_calls io).
Definition with_pool (io : obus_io) pl : obus_io :=
  Io (io_write_buffers io) (io_nbr_written io) (io_write_fd_used io) (io_write_timer io) pl (io_wire io) (io_calls io).
Definition with_queue (io : obus_io) l : obus_io :=
  Io l (io_nbr_written io) (io_write_fd_used io) (io_write_timer io) (io_pool io) (io_wire io) (io_calls io).
Definition with_wire (io : obus_io) bs : obus_io :=
  Io (io_write_buffers io) (io_nbr_written io) (io_write_fd_used io) (io_write_timer io) (io_pool io) bs (io_calls io).
Definition with_calls (io : obus_io) l : obus_io :=
  Io (io_write_buffers io) (io_nbr_written io) (io_write_fd_used io) (io_write_timer io) (io_pool io) (io_wire io) l.

Section Write.
Context {AL : Allocator}.

(** The loop of [obus_io_write_buffer]: the bytes [bs] left to write; code,
    bytes accepted, script left. *)
Fixpoint write_loop (script : list sys_write) (bs : list Z) (wire : list Z) (nbr_written : Z)
  : M (Z * Z * list Z * list sys_write) :=
  match bs with
  | [] => mret (0, nbr_written, wire, script)
  | _ =>
    match script with
    | [] => m_undef
    | WriteError e :: script' =>
      if e =? EINTR then write_loop script' bs wire nbr_written
      else mret (- e, nbr_written, wire, script')
    | Accepted n :: script' =>
      let n := Z.max 0 (Z.min n (Z.of_nat (length bs))) in
      write_loop script' (drop (Z.to_nat n) bs) (wire ++ take (Z.to_nat n) bs) (nbr_written + n)
    end
  end.

Definition obus_io_write_buffer (script : list sys_write) (io : obus_io) (p : positive)
    (offset : Z) : M (Z * Z * obus_io * list sys_write) :=
  b ← get_buf (io_pool io) p;
  let size := u64 (obus_buffer_length b - offset) in
  bs ← data_slice b offset size;
  '(ret, n, wire, script) ← write_loop script bs (io_wire io) 0;
  mret (ret, n, with_wire io wire, script).

Definition obus_io_write_buffer_complete (io : obus_io) (status : obus_io_status) : M obus_io :=
  match io_write_buffers io with
  | [] => mret io
  | p :: l =>
    '(_, pl) ← obus_buffer_unref (io_pool io) p;
    let io := with_queue (with_pool io pl) l in
    let io := with_written io 0 in
    mret (with_calls io (io_calls io ++ [(status, p)]))
  end.

Definition obus_io_write_timer (io : obus_io) : M obus_io :=
  obus_io_write_buffer_complete (with_timer io false) OBUS_IO_TIMEOUT.

(** The drain loop; every turn but the last removes the first buffer. *)
Fixpoint drain (fuel : nat) (script : list sys_write) (io : obus_io)
  : M (obus_io * list sys_write) :=
  match fuel with
  | O => m_undef
  | S fuel' =>
    match io_write_buffers io with
    | [] => mret (io, script)
    | p :: _ =>
      '(ret, n, io, script) ← obus_io_write_buffer script io p (io_nbr_written io);
      if ret =? - EAGAIN then mret (with_written io (u64 (io_nbr_written io + n)), script)
      else
        io ← obus_io_write_buffer_complete io (if ret =? 0 then OBUS_IO_OK else OBUS_IO_ERROR);
        drain fuel' script io
    end
  end.

(** [error] and [ready]: the tests of the loop events. *)
Definition obus_io_write_events (script : list sys_write) (error ready : bool) (io : obus_io)
  : M (obus_io * list sys_write) :=
  let io := with_timer io false in
  if error then io ← obus_io_write_buffer_complete io OBUS_IO_ERROR; mret (io, script) else
  if negb ready then mret (io, script) else
  '(io, script) ← drain (S (length (io_write_buffers io))) script io;
  match io_write_buffers io with
  | [] => mret (with_fd_used io false, script)
  | _ => mret (with_timer io true, script)
  end.

Definition IO_BUFFER_SIZE : Z := 24.

(** [obus_io_buffer_new]: the wrapper takes a reference. *)
Definition obus_io_buffer_new (io : obus_io) (p : positive) : M (option obus_io) :=
  a ← m_alloc IO_BUFFER_SIZE;
  match a with
  | None => mret None
  | Some _ => pl ← obus_buffer_ref (io_pool io) p; mret (Some (with_pool io pl))
  end.

Definition obus_io_write (script : list sys_write) (io : obus_io) (p : positive)
  : M (Z * obus_io * list sys_write) :=
  match io_write_buffers io with
  | _ :: _ =>
    r ← obus_io_buffer_new io p;
    match r with
    | None => mret (- ENOMEM, io, script)
    | Some io => mret (- EAGAIN, with_queue io (io_write_buffers io ++ [p]), script)
    end
  | [] =>
    '(ret, n, io, script) ← obus_io_write_buffer script io p 0;
    if ret =? - EAGAIN then
      r ← obus_io_buffer_new io p;
      match r with
      | None => mret (- ENOMEM, io, script)
      | Some io =>
        let io := with_timer (with_fd_used io true) true in
        mret (ret, with_written (with_queue io (io_write_buffers io ++ [p])) n, script)
      end
    else mret (ret, io, script)
  end.

(** Every pending buffer loses the reference of its wrapper. *)
Definition obus_io_destroy (io : obus_io) : M obus_io :=
  pl ← for_all (io_write_buffers io) (fun p pl => '(_, pl) ← obus_buffer_unref pl p; mret pl)
         (io_pool io);
  mret (with_timer (with_fd_used (with_queue (with_pool io pl) []) false) false).
End Write.

(** ** The stream of bytes and the order of completions *)

Definition content (pl : pool) (p : positive) : list Z :=
  match pl_bufs pl !! p with Some b => buf_bytes b | None => [] end.

Definition queued (pl : pool) (l : list positive) : list Z := concat (map (content pl) l).

(** The bytes accepted for writing and not yet taken by the kernel. *)
Definition pending (io : obus_io) : list Z :=
  drop (Z.to_nat (io_nbr_written io)) (queued (io_pool io) (io_write_buffers io)).

Definition occurrences (p : positive) (l : list positive) : Z :=
  Z.of_nat (length (filter (fun q => q = p) l)).

(** The queue holds a reference for each of its entries, on top of the one the
    caller holds on the buffers [held]; the bytes written are within the first
    buffer. *)
Record io_wf (held : list positive) (io : obus_io) : Prop := {
  iw_pool : pool_wf (io_pool io);
  iw_refs : forall p, occurrences p (io_write_buffers io) + (if decide (p ∈ held) then 1 else 0)
              <= refs (io_pool io) p;
  iw_written : 0 <= io_nbr_written io;
  iw_first : match io_write_buffers io with
    | [] => io_nbr_written io = 0
    | p :: _ => io_nbr_written io <= Z.of_nat (length (content (io_pool io) p))
    end
}.

(** A kernel that ends up refusing more bytes for now: no call is left without
    an answer. *)
Definition blocks (script : list sys_write) : Prop :=
  WriteError EAGAIN ∈ script /\
  Forall (fun s => match s with WriteError e => 0 < e | Accepted _ => True end) script.

(** What is left of a script after the first [EAGAIN] it answers. *)
Fixpoint after_block (script : list sys_write) : option (list sys_write) :=
  match script with
  | [] => None
  | WriteError e :: script' => if e =? EAGAIN then Some script' else after_block script'
  | Accepted _ :: script' => after_block script'
  end.

(** No error but [EINTR] and [EAGAIN]. *)
Definition soft (script : list sys_write) : Prop :=
  Forall (fun s => match s with WriteError e => e = EINTR \/ e = EAGAIN | Accepted _ => True end) script.

Lemma occurrences_cons p q l :
  occurrences p (q :: l) = (if decide (q = p) then 1 else 0) + occurrences p l.
Proof.
  unfold occurrences. destruct (decide (q = p)).
  - rewrite filter_cons_True by done. cbn. lia.
  - by rewrite filter_cons_False.
Qed.

Lemma occurrences_app p l l' : occurrences p (l ++ l') = occurrences p l + occurrences p l'.
Proof. unfold occurrences. rewrite filter_app, length_app. lia. Qed.

Lemma occurrences_pos p l : 0 <= occurrences p l.
Proof. unfold occurrences. lia. Qed.

Lemma content_refcnt pl p b r q :
  pl_bufs pl !! p = Some b -> content (set_buf pl p (with_refcnt b r)) q = content pl q.
Proof.
  intros Hb. unfold content. cbn. rewrite lookup_insert. case_decide; [|done]. subst. by rewrite Hb.
Qed.

Lemma ref_content pl p m :
  0 < refs pl p ->
  wp (obus_buffer_ref pl p) (fun pl' _ => forall q, content pl' q = content pl q) m.
Proof.
  intros Hp. destruct (refs_pos _ _ Hp) as (b & Hb & _). unfold obus_buffer_ref.
  apply wp_bind. eapply wp_get_buf; [exact Hb|]. apply wp_ret. intros q. by apply content_refcnt.
Qed.

Lemma unref_content pl p m :
  0 < refs pl p ->
  wp (obus_buffer_unref pl p) (fun r _ => forall q, content (snd r) q = content pl q) m.
Proof.
  intros Hp. destruct (refs_pos _ _ Hp) as (b & Hb & _). unfold obus_buffer_unref.
  apply wp_bind. eapply wp_get_buf; [exact Hb|]. cbn zeta. case_match.
  - apply wp_bind. unfold obus_buffer_pool_put. apply wp_bind.
    eapply wp_get_buf; [cbn; apply lookup_insert_eq|]. apply wp_ret, wp_ret. intros q. cbn.
    unfold content. cbn. rewrite insert_insert_eq, lookup_insert. case_decide; [|done]. subst. by rewrite Hb.
  - apply wp_ret. intros q. by apply content_refcnt.
Qed.

Lemma queued_ext pl pl' l : (forall q, content pl' q = content pl q) -> queued pl' l = queued pl l.
Proof. intros H. unfold queued. f_equal. apply map_ext. done. Qed.

Lemma queued_app pl l l' : queued pl (l ++ l') = queued pl l ++ queued pl l'.
Proof. unfold queued. by rewrite map_app, concat_app. Qed.

Section PoolOps.
Context {AL : Allocator}.

Lemma wp_unref_full pl p m (Q : Z * pool -> mem -> Prop) :
  pool_wf pl -> 0 < refs pl p ->
  (forall pl', pool_wf pl' ->
     (forall q, refs pl' q = refs pl q - (if decide (p = q) then 1 else 0)) ->
     (forall q, content pl' q = content pl q) -> Q (refs pl p - 1, pl') m) ->
  wp (obus_buffer_unref pl p) Q m.
Proof.
  intros W Hp HQ.
  eapply wp_mono; [apply wp_and; [by apply unref_content|]|].
  { apply (wp_unref pl p m (fun r m' => m' = m /\ fst r = refs pl p - 1 /\ pool_wf (snd r) /\
      forall q, refs (snd r) q = if decide (p = q) then refs pl p - 1 else refs pl q)); [done..|].
    by intros. }
  intros [ret pl'] m' (Hc & -> & Hr & W' & Hrefs). cbn [fst snd] in *. subst ret. apply HQ; [done| |done].
  intros q. rewrite Hrefs. case_decide; subst; lia.
Qed.

Lemma wp_ref_full pl p m (Q : pool -> mem -> Prop) :
  pool_wf pl -> 0 < refs pl p ->
  (forall pl', pool_wf pl' ->
     (forall q, refs pl' q = refs pl q + (if decide (p = q) then 1 else 0)) ->
     (forall q, content pl' q = content pl q) -> Q pl' m) ->
  wp (obus_buffer_ref pl p) Q m.
Proof.
  intros W Hp HQ.
  eapply wp_mono; [apply wp_and; [by apply ref_content|]|].
  { apply (wp_ref pl p m (fun r m' => m' = m /\ pool_wf r /\
      forall q, refs r q = if decide (p = q) then refs pl p + 1 else refs pl q)); [done..|].
    by intros. }
  intros pl' m' (Hc & -> & W' & Hrefs). apply HQ; [done| |done].
  intros q. rewrite Hrefs. case_decide; subst; lia.
Qed.

Lemma wp_unref_all l pl m (Q : pool -> mem -> Prop) :
  pool_wf pl -> (forall q, occurrences q l <= refs pl q) ->
  (forall pl', pool_wf pl' -> (forall q, refs pl' q = refs pl q - occurrences q l) ->
     (forall q, content pl' q = content pl q) -> Q pl' m) ->
  wp (for_all l (fun p pl => '(_, pl) ← obus_buffer_unref pl p; mret pl) pl) Q m.
Proof.
  revert pl. induction l as [|p l IH]; intros pl W Hr HQ; cbn [for_all].
  { apply wp_ret, HQ; [done| |done]. intros q. unfold occurrences. cbn. lia. }
  pose proof (Hr p) as Hp. rewrite occurrences_cons, decide_True in Hp by done.
  pose proof (occurrences_pos p l). apply wp_bind, wp_bind, wp_unref_full; [done|lia|].
  intros pl1 W1 Hr1 Hc1. apply wp_ret, IH; [done| |].
  - intros q. specialize (Hr q). rewrite occurrences_cons in Hr. rewrite Hr1. repeat case_decide; subst; lia.
  - intros pl2 W2 Hr2 Hc2. apply HQ; [done| |intros q; by rewrite Hc2].
    intros q. rewrite Hr2, Hr1, occurrences_cons. repeat case_decide; subst; lia.
Qed.

End PoolOps.

Section Stream.
Context {AL : Allocator}.

(** What a run of the write loop does with the bytes [bs]. *)
Definition loop_post (bs : list Z) (wire : list Z) (n : Z) (script : list sys_write)
    (ret n' : Z) (wire' : list Z) (script' : list sys_write) : Prop :=
  exists k, (k <= length bs)%nat /\ n' = n + Z.of_nat k /\ wire' = wire ++ take k bs /\
    ((ret = 0 /\ k = length bs /\ blocks script' /\ (soft script -> soft script') /\
        after_block script = after_block script') \/
     (ret = - EAGAIN /\ (k < length bs)%nat /\ after_block script = Some script') \/
     (failed ret = true /\ ret <> - EAGAIN /\ ~ soft script /\ blocks script' /\
        after_block script = after_block script')).

Lemma blocks_tail s script :
  blocks (s :: script) -> s <> WriteError EAGAIN -> blocks script.
Proof.
  intros [Hin Hf] Hs. apply Forall_cons in Hf as [_ Hf]. split; [|done].
  apply elem_of_cons in Hin as [Hin|Hin]; [by subst|done].
Qed.

Lemma soft_tail s script : soft (s :: script) -> soft script.
Proof. intros H. by apply Forall_cons in H as [_ ?]. Qed.

Lemma loop_post_step s script bs wire n k ret n' wire' script' :
  s <> WriteError EAGAIN -> (k <= length bs)%nat ->
  loop_post (drop k bs) (wire ++ take k bs) (n + Z.of_nat k) script ret n' wire' script' ->
  loop_post bs wire n (s :: script) ret n' wire' script'.
Proof.
  intros Hs Hk (j & Hj & -> & -> & Hr). rewrite length_drop in Hj.
  assert (after_block (s :: script) = after_block script) as Ha.
  { destruct s as [a|e]; [done|]. cbn. destruct (Z.eqb_spec e EAGAIN); congruence. }
  exists (k + j)%nat. split_and!; [lia|lia|by rewrite <- app_assoc, take_take_drop|]. rewrite Ha.
  destruct Hr as [(-> & -> & HB & HS & HA)|[(-> & Hlt & HA)|(Hf & Hne & HS & HB & HA)]].
  - left. split_and!; [done|rewrite length_drop; lia|done|intros H; by eapply HS, soft_tail|done].
  - right; left. rewrite length_drop in Hlt. split_and!; [done|lia|done].
  - right; right. split_and!; [done|done|intros H; by eapply HS, soft_tail|done|done].
Qed.

Lemma wp_write_loop script bs wire n m :
  blocks script ->
  wp (write_loop script bs wire n)
     (fun r m' => let '(ret, n', wire', script') := r in
        m' = m /\ loop_post bs wire n script ret n' wire' script') m.
Proof.
  revert bs wire n. induction script as [|s script IH]; intros bs wire n HB.
  { destruct HB as [Hin _]. by apply not_elem_of_nil in Hin. }
  destruct bs as [|x bs].
  { cbn. apply wp_ret. split; [done|]. exists 0%nat. split_and!; [done|lia|by rewrite app_nil_r|].
    left. split_and!; done. }
  destruct s as [a|e]; cbn [write_loop].
  - set (k := Z.max 0 (Z.min a (Z.of_nat (length (x :: bs))))).
    eapply wp_mono; [apply IH; by eapply blocks_tail|].
    intros [[[ret n'] wire'] script'] m' [-> HL]. split; [done|].
    apply (loop_post_step _ _ _ _ _ (Z.to_nat k)); [done|lia|].
    by replace (Z.of_nat (Z.to_nat k)) with k by lia.
  - destruct (Z.eqb_spec e EINTR) as [->|He].
    + eapply wp_mono; [apply IH; by eapply blocks_tail|].
      intros [[[ret n'] wire'] script'] m' [-> HL]. split; [done|].
      apply (loop_post_step _ _ _ _ _ 0%nat); [done|lia|]. by rewrite drop_0, app_nil_r, Z.add_0_r.
    + apply wp_ret. split; [done|]. exists 0%nat. cbn. split_and!; [lia|lia|by rewrite app_nil_r|].
      destruct (Z.eqb_spec e EAGAIN) as [->|Hea]; [right; left; split_and!; done || lia|]. right. right.
      split_and!; [| | | |done].
      * destruct HB as [_ Hp]. apply Forall_cons in Hp as [Hp _]. unfold failed. apply Z.ltb_lt. lia.
      * unfold EAGAIN in *. lia.
      * intros H. apply Forall_cons in H as [[H|H] _]; done.
      * eapply blocks_tail; [done|]. congruence.
Qed.

Lemma slice_content b off :
  buf_wf b -> 0 <= off <= buf_length b ->
  slice (buf_data b) off (buf_length b - off) = drop (Z.to_nat off) (buf_bytes b).
Proof.
  intros W Ho. unfold slice, buf_bytes. rewrite take_drop_commute.
  f_equal. f_equal. lia.
Qed.

Lemma wp_write_buffer script io p b off m :
  blocks script -> pl_bufs (io_pool io) !! p = Some b -> buf_wf b ->
  0 <= off <= Z.of_nat (length (content (io_pool io) p)) ->
  wp (obus_io_write_buffer script io p off)
     (fun r m' => let '(ret, n, io', script') := r in m' = m /\
        exists wire', io' = with_wire io wire' /\
          loop_post (drop (Z.to_nat off) (content (io_pool io) p)) (io_wire io) 0 script
            ret n wire' script') m.
Proof.
  intros HB Hb W Ho. unfold content in *. rewrite Hb in *.
  rewrite length_buf_bytes in Ho by done. wf_facts b W.
  unfold obus_io_write_buffer. apply wp_bind. eapply wp_get_buf; [exact Hb|].
  cbn zeta. unfold obus_buffer_length. rewrite u64_small by wrap_lia.
  apply wp_bind, wp_data_slice; [done|lia..|]. rewrite slice_content by done.
  eapply wp_bind_mono; [by apply wp_write_loop|].
  intros [[[ret n] wire'] script'] m' [-> HL]. apply wp_ret. split; [done|]. by exists wire'.
Qed.

Lemma occurrences_held_refs held io p :
  io_wf held io -> p ∈ io_write_buffers io \/ p ∈ held -> 0 < refs (io_pool io) p.
Proof.
  intros W Hp. pose proof (iw_refs _ _ W p) as Hr. pose proof (occurrences_pos p (io_write_buffers io)).
  destruct Hp as [Hp|Hp]; [|rewrite decide_True in Hr by done; lia].
  enough (0 < occurrences p (io_write_buffers io)) by (case_decide; lia).
  unfold occurrences. destruct (filter (fun q => q = p) (io_write_buffers io)) as [|y l'] eqn:E; [|cbn; lia].
  assert (p ∈ filter (fun q => q = p) (io_write_buffers io)) as Hin by by apply list_elem_of_filter.
  rewrite E in Hin. by apply not_elem_of_nil in Hin.
Qed.

Lemma refs_buf pl p : pool_wf pl -> 0 < refs pl p -> exists b, pl_bufs pl !! p = Some b /\ buf_wf b.
Proof.
  intros W Hp. destruct (refs_pos _ _ Hp) as (b & Hb & _). exists b. split; [done|].
  by apply (pw_count _ W p).
Qed.

Lemma io_wf_wire held io wire : io_wf held io -> io_wf held (with_wire io wire).
Proof. intros [W1 W2 W3 W4]. by constructor. Qed.

(** Completing the first buffer of the queue. *)
Lemma wp_complete held io status m :
  io_wf held io ->
  wp (obus_io_write_buffer_complete io status)
     (fun io' m' => io_wf held io' /\ io_wire io' = io_wire io /\
        (forall q, content (io_pool io') q = content (io_pool io) q) /\
        match io_write_buffers io with
        | [] => io' = io
        | p :: l => io_write_buffers io' = l /\ io_nbr_written io' = 0 /\
            io_calls io' = io_calls io ++ [(status, p)]
        end) m.
Proof.
  intros IW. unfold obus_io_write_buffer_complete. destruct (io_write_buffers io) as [|p l] eqn:El.
  { by apply wp_ret. }
  assert (0 < refs (io_pool io) p) as Hp.
  { eapply occurrences_held_refs; [done|]. left. rewrite El. by left. }
  eapply wp_bind_mono.
  { apply wp_and; [apply (unref_content _ _ _ Hp)|].
    apply (wp_unref (io_pool io) p m (fun r _ => pool_wf (snd r) /\
      forall q, refs (snd r) q = if decide (p = q) then refs (io_pool io) p - 1 else refs (io_pool io) q));
      [apply IW|done|]. by intros. }
  intros [ret pl'] m' (Hc & W' & Hr). apply wp_ret. cbn [snd] in *. cbn.
  split_and!; [|done..]. pose proof (iw_refs _ _ IW) as Hrefs. rewrite El in Hrefs.
  constructor; cbn; [done| |lia|].
  - intros q. rewrite Hr. specialize (Hrefs q). rewrite occurrences_cons in Hrefs.
    repeat case_decide; subst; try done; lia.
  - destruct l; [done|]. lia.
Qed.

(** What a run of completions does: the buffers [done] leave the front of the
    queue, each with one callback, and bytes go to the wire. *)
Record progress (io io' : obus_io) (done : list positive) (sts : list obus_io_status)
    (sent : list Z) : Prop := {
  pg_queue : io_write_buffers io = done ++ io_write_buffers io';
  pg_calls : length sts = length done /\ io_calls io' = io_calls io ++ zip sts done;
  pg_wire : io_wire io' = io_wire io ++ sent;
  pg_content : forall q, content (io_pool io') q = content (io_pool io) q
}.

Lemma pending_cons io p l :
  io_write_buffers io = p :: l -> io_nbr_written io <= Z.of_nat (length (content (io_pool io) p)) ->
  pending io = drop (Z.to_nat (io_nbr_written io)) (content (io_pool io) p) ++ queued (io_pool io) l.
Proof.
  intros El Hn. unfold pending. rewrite El. unfold queued. cbn. by rewrite drop_app_le by lia.
Qed.

(** Where the drain loop stops: nothing is left, or the kernel has answered
    [EAGAIN] for the bytes left of the first buffer. *)
Definition drained (script script' : list sys_write) (io' : obus_io) : Prop :=
  match io_write_buffers io' with
  | [] => True
  | p :: _ => io_nbr_written io' < Z.of_nat (length (content (io_pool io') p)) /\
      after_block script = Some script'
  end.

Definition drain_post (held : list positive) (script : list sys_write) (io io' : obus_io)
    (script' : list sys_write) : Prop :=
  io_wf held io' /\ drained script script' io' /\ exists done sts sent, progress io io' done sts sent /\
    (Forall (eq OBUS_IO_OK) sts -> sent ++ pending io' = pending io) /\
    (soft script -> Forall (eq OBUS_IO_OK) sts).

(** The kernel has refused more bytes of the first buffer, after [k]. *)
Lemma drain_blocked held script script' io p b l k wire' :
  io_wf held io -> io_write_buffers io = p :: l -> pl_bufs (io_pool io) !! p = Some b -> buf_wf b ->
  let bytes := drop (Z.to_nat (io_nbr_written io)) (content (io_pool io) p) in
  (k < length bytes)%nat -> wire' = io_wire io ++ take k bytes -> after_block script = Some script' ->
  drain_post held script io
    (with_written (with_wire io wire') (u64 (io_nbr_written io + (0 + Z.of_nat k)))) script'.
Proof.
  intros IW El Hb Wb bytes Hk -> HA.
  pose proof (iw_first _ _ IW) as Hfirst. rewrite El in Hfirst. pose proof (iw_written _ _ IW) as Hn0.
  pose proof (pending_cons io p l El Hfirst) as Hpend. unfold bytes in *. clear bytes.
  set (bytes := content (io_pool io) p) in *. set (off := Z.to_nat (io_nbr_written io)) in *.
  rewrite length_drop in Hk.
  assert (Z.of_nat (length bytes) < 2 ^ 63) as Hlen.
  { unfold bytes, content. rewrite Hb, length_buf_bytes by done. wf_facts b Wb.
    unfold PTRDIFF_MAX in *. lia. }
  assert (Z.of_nat off = io_nbr_written io) as Hoff by (unfold off; lia).
  assert (u64 (io_nbr_written io + (0 + Z.of_nat k)) = io_nbr_written io + Z.of_nat k) as ->
    by (rewrite u64_small; lia).
  split_and!.
  - destruct IW as [W1 W2 W3 W4]. constructor; cbn; [done|done|lia|]. rewrite El. fold bytes. lia.
  - unfold drained. cbn. rewrite El. fold bytes. split; [lia|done].
  - exists [], [], (take k (drop off bytes)). split_and!; [|intros _|done].
    { constructor; cbn; [done|by rewrite app_nil_r|done|done]. }
    unfold pending at 1. cbn. rewrite El. unfold queued. cbn. fold bytes.
    rewrite Hpend, drop_app_le by lia. rewrite app_assoc. f_equal.
    replace (Z.to_nat (io_nbr_written io + Z.of_nat k)) with (off + k)%nat by lia.
    rewrite <- drop_drop. apply take_drop.
Qed.

(** A buffer has left the queue with the code [ret] of its write, and the rest of the
    loop has run from [io2]. *)
Lemma drain_more held script script1 script' io io2 io3 p l k ret wire' :
  io_write_buffers io = p :: l -> io_nbr_written io <= Z.of_nat (length (content (io_pool io) p)) ->
  let bytes := drop (Z.to_nat (io_nbr_written io)) (content (io_pool io) p) in
  wire' = io_wire io ++ take k bytes -> ret <> - EAGAIN ->
  (ret = 0 -> k = length bytes) -> (soft script -> ret = 0 /\ soft script1) ->
  after_block script = after_block script1 ->
  io_wire io2 = wire' -> (forall q, content (io_pool io2) q = content (io_pool io) q) ->
  io_write_buffers io2 = l -> io_nbr_written io2 = 0 ->
  io_calls io2 = io_calls io ++ [(if ret =? 0 then OBUS_IO_OK else OBUS_IO_ERROR, p)] ->
  drain_post held script1 io2 io3 script' -> drain_post held script io io3 script'.
Proof.
  intros El Hfirst bytes Hw Hne Hall Hsoft HA Hw2 Hc2 Hq2 Hn2 Hcalls2 (IW3 & HD & dn & sts & sent & PG & HO & HS).
  split_and!; [done|unfold drained in *; by rewrite HA|].
  exists (p :: dn), ((if ret =? 0 then OBUS_IO_OK else OBUS_IO_ERROR) :: sts), (take k bytes ++ sent).
  destruct PG as [Q1 [Hl Q2] Q3 Q4]. split_and!.
  - constructor.
    + rewrite El. cbn. by rewrite <- Q1, Hq2.
    + split; [cbn; lia|]. rewrite Q2, Hcalls2, <- app_assoc. done.
    + by rewrite Q3, Hw2, Hw, app_assoc.
    + intros q. by rewrite Q4, Hc2.
  - intros [H0 Hsts]%Forall_cons. destruct (Z.eqb_spec ret 0) as [Hr|]; [|done].
    rewrite (Hall Hr), firstn_all, <- app_assoc, HO by done. unfold pending at 1.
    rewrite Hn2, Hq2, drop_0, (queued_ext _ _ _ Hc2). by rewrite (pending_cons io p l).
  - intros H. destruct (Hsoft H) as [-> H1]. cbn. apply Forall_cons. split; [done|by apply HS].
Qed.

Lemma wp_drain held fuel script io m :
  io_wf held io -> blocks script -> (length (io_write_buffers io) < fuel)%nat ->
  wp (drain fuel script io) (fun r m' => drain_post held script io (fst r) (snd r)) m.
Proof.
  revert script io m. induction fuel as [|fuel IH]; intros script io m IW HB Hf; [lia|].
  cbn [drain]. destruct (io_write_buffers io) as [|p l] eqn:El.
  { apply wp_ret. split_and!; [done|unfold drained; cbn; by rewrite El|]. exists [], [], []. split_and!; [|done..].
    constructor; [done|by rewrite app_nil_r|by rewrite app_nil_r|done]. }
  assert (0 < refs (io_pool io) p) as Hp.
  { eapply occurrences_held_refs; [done|]. left. rewrite El. by left. }
  destruct (refs_buf _ _ (iw_pool _ _ IW) Hp) as (b & Hb & Wb).
  pose proof (iw_first _ _ IW) as Hfirst. rewrite El in Hfirst. pose proof (iw_written _ _ IW) as Hn0.
  eapply wp_bind_mono; [apply (wp_write_buffer script io p b (io_nbr_written io)); done|].
  intros [[[ret n] io1] script1] m1 (-> & wire' & -> & k & Hk & -> & Hw & Hr).
  destruct (Z.eqb_spec ret (- EAGAIN)) as [->|Hne].
  { apply wp_ret. destruct Hr as [[? _]|[(_ & Hlt & HA)|(_ & ? & _)]]; [done| |done].
    by apply (drain_blocked held script script1 io p b l k). }
  eapply wp_bind_mono.
  { apply (wp_complete held). by apply io_wf_wire. }
  cbn [io_write_buffers with_wire io_wire io_pool io_calls]. rewrite El.
  intros io2 m2 (IW2 & Hw2 & Hc2 & Hq2 & Hn2 & Hcalls2).
  assert (blocks script1 /\ after_block script = after_block script1) as [HB1 HA]
    by (destruct Hr as [(_ & _ & ? & _ & ?)|[(? & _)|(_ & _ & _ & ? & ?)]]; done).
  eapply wp_mono; [apply (IH script1 io2); [done|done|rewrite Hq2; cbn in Hf; lia]|].
  intros [io3 script3] m3 HD. apply (drain_more held script script1 script3 io io2 io3 p l k ret wire'); try done.
  - intros ->. destruct Hr as [(_ & -> & _)|[(? & _)|(? & _)]]; done.
  - intros HS. destruct Hr as [(-> & _ & _ & H & _)|[(? & _)|(_ & _ & ? & _)]]; [split; auto|done|done].
Qed.

(** ** Writes and events, in any order *)

Inductive io_op :=
| IoWrite (script : list sys_write) (p : positive)
| IoEvents (script : list sys_write) (error ready : bool)
| IoTimer.

(** The code of a write, 0 for an event. *)
Definition run_io_op (op : io_op) (io : obus_io) : M (Z * obus_io) :=
  match op with
  | IoWrite script p => '(ret, io, _) ← obus_io_write script io p; mret (ret, io)
  | IoEvents script error ready => '(io, _) ← obus_io_write_events script error ready io; mret (0, io)
  | IoTimer => io ← obus_io_write_timer io; mret (0, io)
  end.

Fixpoint run_io_ops (ops : list io_op) (io : obus_io) : M (list Z * obus_io) :=
  match ops with
  | [] => mret ([], io)
  | op :: ops' =>
    '(code, io) ← run_io_op op io;
    '(codes, io) ← run_io_ops ops' io;
    mret (code :: codes, io)
  end.

Definition io_op_ok (held : list positive) (op : io_op) : Prop :=
  match op with
  | IoWrite script p => blocks script /\ p ∈ held
  | IoEvents script _ _ => blocks script
  | IoTimer => True
  end.

(** No write error, no error event, no timeout. *)
Definition io_op_soft (op : io_op) : Prop :=
  match op with
  | IoWrite script _ => soft script
  | IoEvents script error _ => soft script /\ error = false
  | IoTimer => False
  end.

(** The buffers given to [obus_io_write], and those it queued. *)
Definition op_buffer (op : io_op) : list positive :=
  match op with IoWrite _ p => [p] | _ => [] end.
Definition op_queued (op : io_op) (code : Z) : list positive :=
  if code =? - EAGAIN then op_buffer op else [].

(** A write is accepted when its buffer is sent or queued. *)
Definition accepted (code : Z) : Prop := code = 0 \/ code = - EAGAIN.

(** The completions of a run, in order; the stream is whole as long as they all
    succeed, and every write is accepted. *)
Definition ran (io : obus_io) (bufs q : list positive) (ok good : Prop) (io' : obus_io) : Prop :=
  exists sts dn, length sts = length dn /\ io_calls io' = io_calls io ++ zip sts dn /\
    io_write_buffers io ++ q = dn ++ io_write_buffers io' /\
    (ok -> Forall (eq OBUS_IO_OK) sts ->
       io_wire io' ++ pending io' = io_wire io ++ pending io ++ queued (io_pool io) bufs) /\
    (good -> ok /\ Forall (eq OBUS_IO_OK) sts).

Definition op_post (held : list positive) (op : io_op) (io : obus_io) (code : Z) (io' : obus_io) : Prop :=
  io_wf held io' /\ (forall q, content (io_pool io') q = content (io_pool io) q) /\
  ran io (op_buffer op) (op_queued op code) (accepted code) (io_op_soft op /\ AmpleMemory AL) io'.

Lemma op_post_same held op io io' code :
  io_wf held io -> op_queued op code = [] -> io_pool io' = io_pool io ->
  io_write_buffers io' = io_write_buffers io -> io_nbr_written io' = io_nbr_written io ->
  io_calls io' = io_calls io ->
  (accepted code -> io_wire io' ++ pending io = io_wire io ++ pending io ++ queued (io_pool io) (op_buffer op)) ->
  (io_op_soft op -> AmpleMemory AL -> accepted code) -> op_post held op io code io'.
Proof.
  intros [W1 W2 W3 W4] Hq E1 E2 E3 E4 Hs Hgood. split_and!.
  - constructor; rewrite ?E1, ?E2, ?E3; done.
  - by rewrite E1.
  - exists [], []. rewrite Hq, E2, E4, !app_nil_r. split_and!; [done..| |].
    + intros Hc _. unfold pending at 1. rewrite E1, E2, E3. by apply Hs.
    + intros [H1 H2]. split; [by apply Hgood|done].
Qed.

Lemma wp_complete_op held op io io0 status m :
  io_wf held io -> op_buffer op = [] -> ~ io_op_soft op -> status <> OBUS_IO_OK ->
  io_pool io0 = io_pool io -> io_write_buffers io0 = io_write_buffers io ->
  io_nbr_written io0 = io_nbr_written io -> io_calls io0 = io_calls io -> io_wire io0 = io_wire io ->
  wp (obus_io_write_buffer_complete io0 status) (fun io' _ => op_post held op io 0 io') m.
Proof.
  intros IW Hb Hs Hst E1 E2 E3 E4 E5.
  assert (io_wf held io0) as IW0 by (destruct IW; constructor; rewrite ?E1, ?E2, ?E3; done).
  eapply wp_mono; [by apply (wp_complete held)|]. intros io' m' (IW' & Hw & Hc & Hr).
  rewrite E2 in Hr. split_and!; [done|by rewrite <- E1|]. unfold op_queued. rewrite Hb. cbn [Z.eqb].
  destruct (io_write_buffers io) as [|p l] eqn:El.
  - subst io'. exists [], []. rewrite E2, E4, El, !app_nil_r. split_and!; [done..| |by intros [? _]].
    intros _ _. unfold pending. by rewrite E1, E2, E3, E5, El.
  - destruct Hr as (Hq & _ & Hcl). exists [status], [p]. rewrite Hq, Hcl, E4, El, app_nil_r.
    split_and!; [done..| |by intros [? _]]. intros _ [H _]%Forall_cons. congruence.
Qed.

Lemma wp_io_events held script error ready io m :
  io_wf held io -> blocks script ->
  wp (run_io_op (IoEvents script error ready) io)
     (fun r _ => op_post held (IoEvents script error ready) io (fst r) (snd r)) m.
Proof.
  intros IW HB. cbn [run_io_op]. unfold obus_io_write_events. apply wp_bind.
  destruct error.
  { eapply wp_bind_mono; [apply (wp_complete_op held (IoEvents script true ready) io); try done|].
    - cbn. by intros [].
    - intros io' m' H. by apply wp_ret, wp_ret. }
  destruct ready; cbn [negb].
  2:{ apply wp_ret, wp_ret. apply op_post_same; try done; [intros _; by rewrite app_nil_r|by left]. }
  eapply wp_bind_mono.
  { apply (wp_drain held _ script (with_timer io false)); [|done|lia]. by destruct IW. }
  intros [io1 script1] m1 (IW1 & _ & dn & sts & sent & [Q1 [Hl Q2] Q3 Q4] & HO & HS). cbn [fst snd] in *.
  assert (forall io2, io_pool io2 = io_pool io1 -> io_write_buffers io2 = io_write_buffers io1 ->
    io_nbr_written io2 = io_nbr_written io1 -> io_calls io2 = io_calls io1 ->
    io_wire io2 = io_wire io1 ->
    op_post held (IoEvents script false true) io 0 io2) as Hend.
  { intros io2 E1 E2 E3 E4 E5. split_and!.
    - destruct IW1; constructor; rewrite ?E1, ?E2, ?E3; done.
    - intros q. by rewrite E1, Q4.
    - exists sts, dn. rewrite E4, Q2, E2. cbn. rewrite app_nil_r, <- Q1. split_and!; [done..| |].
      + intros _ H. rewrite app_nil_r, E5, Q3, <- app_assoc. f_equal.
        unfold pending at 1. rewrite E1, E2, E3. by apply HO.
      + intros [[H _] _]. split; [by left|by apply HS]. }
  cbn zeta. destruct (io_write_buffers io1) eqn:El; apply wp_ret, wp_ret; by apply Hend.
Qed.

Lemma wp_io_buffer_new io p m (Q : option obus_io -> mem -> Prop) :
  pool_wf (io_pool io) -> 0 < refs (io_pool io) p ->
  (~ AmpleMemory AL -> forall m', Q None m') ->
  (forall pl' m', pool_wf pl' ->
     (forall q, refs pl' q = if decide (p = q) then refs (io_pool io) p + 1 else refs (io_pool io) q) ->
     (forall q, content pl' q = content (io_pool io) q) -> Q (Some (with_pool io pl')) m') ->
  wp (obus_io_buffer_new io p) Q m.
Proof.
  intros W Hp H1 H2. unfold obus_io_buffer_new. apply wp_bind, wp_alloc; intros k m' _ Hk.
  - eapply wp_bind_mono.
    { apply wp_and; [apply (ref_content _ _ _ Hp)|].
      apply (wp_ref (io_pool io) p m' (fun pl' _ => pool_wf pl' /\
        forall q, refs pl' q = if decide (p = q) then refs (io_pool io) p + 1 else refs (io_pool io) q));
        [done|done|]. by intros. }
    intros pl' m2 (Hc & W' & Hr). apply wp_ret. by apply H2.
  - apply wp_ret, H1. intros HA. rewrite malloc_ample in Hk; [done|]. unfold IO_BUFFER_SIZE, PTRDIFF_MAX. lia.
Qed.

(** A write that returns 0 or [-EAGAIN] has taken the whole buffer; it fails
    for want of memory or on a write error only. *)
Definition sent_post (script : list sys_write) (p : positive) (io : obus_io) (code : Z) (io' : obus_io) : Prop :=
  pool_wf (io_pool io') /\
  (forall q, content (io_pool io') q = content (io_pool io) q) /\
  (forall q, refs (io_pool io') q = refs (io_pool io) q + (if decide (code = - EAGAIN /\ p = q) then 1 else 0)) /\
  io_calls io' = io_calls io /\
  io_write_buffers io' = io_write_buffers io ++ op_queued (IoWrite script p) code /\
  (0 <= io_nbr_written io' /\
   match io_write_buffers io' with
   | [] => io_nbr_written io' = 0
   | q :: _ => io_nbr_written io' <= Z.of_nat (length (content (io_pool io') q))
   end) /\
  (code = 0 \/ code = - EAGAIN ->
     io_wire io' ++ pending io' = io_wire io ++ pending io ++ content (io_pool io) p) /\
  (soft script -> AmpleMemory AL -> code = 0 \/ code = - EAGAIN) /\
  code <= 0.

Lemma sent_post_same script p io io' code :
  pool_wf (io_pool io) -> io_pool io' = io_pool io -> io_calls io' = io_calls io ->
  io_write_buffers io' = io_write_buffers io -> io_nbr_written io' = io_nbr_written io ->
  (0 <= io_nbr_written io /\
   match io_write_buffers io with
   | [] => io_nbr_written io = 0
   | q :: _ => io_nbr_written io <= Z.of_nat (length (content (io_pool io) q))
   end) ->
  code <> - EAGAIN ->
  (code = 0 -> io_wire io' ++ pending io = io_wire io ++ pending io ++ content (io_pool io) p) ->
  (soft script -> AmpleMemory AL -> code = 0) ->
  code <= 0 ->
  sent_post script p io code io'.
Proof.
  intros W E1 E2 E3 E4 Hn Hc Hs Hsoft Hle. unfold sent_post. rewrite E1, E2, E3, E4.
  split_and!; try done.
  - intros q. rewrite decide_False by tauto. lia.
  - unfold op_queued. rewrite (proj2 (Z.eqb_neq _ _) Hc). by rewrite app_nil_r.
  - apply Hn.
  - apply Hn.
  - intros [H|H]; [|done]. unfold pending. rewrite E1, E3, E4. by apply Hs.
  - intros H1 H2. left. by apply Hsoft.
Qed.

(** Queueing the buffer behind what is pending, after [k] of its bytes were written
    when the queue was empty; [io0] is the io after that write. *)
Lemma wp_queue_sent script p io io0 k n m m1 :
  io_wf [p] io -> same_blocks m m1 -> io_pool io0 = io_pool io -> io_calls io0 = io_calls io ->
  io_write_buffers io0 = io_write_buffers io -> io_nbr_written io0 = io_nbr_written io ->
  0 <= n -> (io_write_buffers io = [] -> n = Z.of_nat k /\ (k <= length (content (io_pool io) p))%nat /\
     io_wire io0 = io_wire io ++ take k (content (io_pool io) p)) ->
  (io_write_buffers io <> [] -> n = io_nbr_written io /\ io_wire io0 = io_wire io) ->
  wp (obus_io_buffer_new io0 p) (fun r m' => same_blocks m m' /\
    match r with
    | None => ~ AmpleMemory AL
    | Some io1 => io_nbr_written io1 = io_nbr_written io0 /\ forall io2, io_pool io2 = io_pool io1 -> io_calls io2 = io_calls io1 ->
        io_wire io2 = io_wire io1 -> io_write_buffers io2 = io_write_buffers io1 ++ [p] ->
        io_nbr_written io2 = n -> sent_post script p io (- EAGAIN) io2
    end) m1.
Proof.
  intros IW Hm1 E1 E2 E3 E4 Hn1 Hempty Hfull. unfold obus_io_buffer_new.
  assert (0 < refs (io_pool io) p) as Hp.
  { eapply occurrences_held_refs; [done|]. right. by apply list_elem_of_singleton. }
  pose proof (iw_first _ _ IW) as Hn.
  apply wp_bind, wp_alloc; intros a m2 Hm2 Ha.
  2:{ apply wp_ret. split; [by transitivity m1|]. intros HA. rewrite malloc_ample in Ha; [done|].
      unfold IO_BUFFER_SIZE, PTRDIFF_MAX. lia. }
  rewrite E1. eapply wp_bind_mono.
  { apply wp_and; [apply (ref_content _ _ _ Hp)|].
    apply (wp_ref (io_pool io) p m2 (fun pl' m3 => m3 = m2 /\ pool_wf pl' /\
      forall q, refs pl' q = if decide (p = q) then refs (io_pool io) p + 1 else refs (io_pool io) q));
      [apply IW|done|]. by intros. }
  intros pl' m3 (Hc & -> & W' & Hr). apply wp_ret. split; [by transitivity m1|]. split; [done|].
  cbn [io_pool io_calls io_wire io_write_buffers with_pool]. rewrite E2, E3.
  intros io2 F1 F2 F3 F4 F5. unfold sent_post. rewrite F1, F2, F4, F5. cbn [io_pool].
  split_and!; try done.
  - intros q. rewrite Hr. repeat case_decide; subst; tauto || lia.
  - destruct (io_write_buffers io) as [|x l] eqn:El; cbn; rewrite Hc.
    + destruct (Hempty eq_refl) as (-> & ? & _). lia.
    + destruct (Hfull ltac:(done)) as [-> _]. done.
  - intros _. rewrite F3. cbn [io_wire with_pool]. unfold pending. rewrite F1, F4, F5. cbn [io_pool].
    rewrite (queued_ext _ _ _ Hc), queued_app.
    destruct (io_write_buffers io) as [|x l] eqn:El.
    + destruct (Hempty eq_refl) as (-> & Hk & ->). unfold queued. cbn.
      rewrite drop_nil, !app_nil_r, <- app_assoc. f_equal. rewrite Nat2Z.id. apply take_drop.
    + destruct (Hfull ltac:(done)) as [-> ->]. f_equal. rewrite drop_app_le.
      * f_equal. unfold queued. cbn. by rewrite app_nil_r.
      * unfold queued. cbn. rewrite length_app. lia.
  - by right.
Qed.

Lemma wp_io_write_sent script p io m :
  io_wf [p] io -> blocks script ->
  wp (obus_io_write script io p)
     (fun r m' => same_blocks m m' /\ sent_post script p io (fst (fst r)) (snd (fst r))) m.
Proof.
  intros IW HB. unfold obus_io_write.
  assert (0 < refs (io_pool io) p) as Hp.
  { eapply occurrences_held_refs; [done|]. right. by apply list_elem_of_singleton. }
  pose proof (iw_first _ _ IW) as Hn. pose proof (iw_written _ _ IW) as Hn0.
  destruct (io_write_buffers io) as [|x l] eqn:El.
  - destruct (refs_buf _ _ (iw_pool _ _ IW) Hp) as (b & Hb & Wb).
    eapply wp_bind_mono; [apply (wp_write_buffer script io p b 0); try done; lia|].
    intros [[[ret n] io1] script1] m1 (-> & wire' & -> & k & Hk & -> & Hw & Hr). rewrite drop_0 in *.
    destruct (Z.eqb_spec ret (- EAGAIN)) as [->|Hne].
    + eapply wp_bind_mono; [apply (wp_queue_sent script p io _ k (0 + Z.of_nat k) m); rewrite ?El; try done; lia|].
      intros [io2|] m2 [Hm2 H]; apply wp_ret; (split; [done|]).
      * destruct H as [_ H]. apply H; cbn; rewrite ?El; done.
      * apply sent_post_same; try done; rewrite ?El; try done. apply IW.
    + apply wp_ret. split; [done|]. cbn [fst snd].
      apply sent_post_same; try done; rewrite ?El; try done; try lia; [apply IW| | |].
      * intros ->. cbn [io_wire with_wire]. destruct Hr as [(_ & -> & _)|[[? _]|(Hf & _)]]; [|done|done].
        unfold pending. rewrite El. unfold queued. cbn. rewrite drop_nil, app_nil_r, Hw, firstn_all. done.
      * intros HS HA. destruct Hr as [(-> & _)|[[? _]|(_ & _ & ? & _)]]; done.
      * destruct Hr as [(-> & _)|[[? _]|(Hf%Z.ltb_lt & _)]]; done || lia.
  - eapply wp_bind_mono; [apply (wp_queue_sent script p io io 0%nat (io_nbr_written io) m); rewrite ?El; done|].
    intros [io2|] m2 [Hm2 H]; apply wp_ret; (split; [done|]).
    + destruct H as [Hw H]. apply H; cbn; rewrite ?El; done.
    + apply sent_post_same; try done; rewrite ?El; try done. apply IW.
Qed.

Lemma wp_io_write held script p io m :
  io_wf held io -> blocks script -> p ∈ held ->
  wp (run_io_op (IoWrite script p) io)
     (fun r _ => op_post held (IoWrite script p) io (fst r) (snd r)) m.
Proof.
  intros IW HB Hh. cbn [run_io_op]. apply wp_bind. eapply wp_mono.
  { apply wp_io_write_sent; [|exact HB]. destruct IW as [W1 W2 W3 W4]. constructor; try done.
    intros q. specialize (W2 q). destruct (decide (q ∈ [p])) as [->%list_elem_of_singleton|_];
      [by rewrite decide_True in W2|case_decide; lia]. }
  intros [[code io'] script'] m' [_ (P1 & P2 & P3 & P4 & P5 & P6 & P7 & P8 & _)]. cbn [fst snd] in *.
  apply wp_ret. cbn [fst snd]. split_and!; [|done|].
  - destruct IW as [W1 W2 W3 W4]. constructor; [done| |apply P6|apply P6].
    intros q. rewrite P5, P3, occurrences_app. specialize (W2 q). unfold op_queued.
    destruct (Z.eqb_spec code (- EAGAIN)) as [->|Hne].
    + cbn. rewrite occurrences_cons. unfold occurrences at 2. cbn. repeat case_decide; tauto || lia.
    + unfold occurrences at 2. cbn. rewrite (decide_False (P := code = - EAGAIN /\ p = q)) by tauto. lia.
  - exists [], []. rewrite P4, P5. split_and!; [done|by rewrite app_nil_r|done| |].
    + intros Hc _. rewrite P7 by done. unfold queued. cbn. by rewrite app_nil_r.
    + intros [HS HA]. split; [by apply P8|done].
Qed.

Lemma wp_run_io_op held op io m :
  io_wf held io -> io_op_ok held op ->
  wp (run_io_op op io) (fun r _ => op_post held op io (fst r) (snd r)) m.
Proof.
  intros IW Hok. destruct op as [script p|script error ready|].
  - destruct Hok. by apply wp_io_write.
  - by apply wp_io_events.
  - cbn [run_io_op]. unfold obus_io_write_timer.
    eapply wp_bind_mono; [apply (wp_complete_op held IoTimer io); [done|done|by intros []|done..]|].
    intros io' m' H. by apply wp_ret.
Qed.

(** The buffers queued by a run. *)
Fixpoint ops_queued (ops : list io_op) (codes : list Z) : list positive :=
  match ops, codes with
  | op :: ops', code :: codes' => op_queued op code ++ ops_queued ops' codes'
  | _, _ => []
  end.

Lemma wp_run_io_ops held ops io m :
  io_wf held io -> Forall (io_op_ok held) ops ->
  wp (run_io_ops ops io)
     (fun r _ => let '(codes, io') := r in
        io_wf held io' /\ (forall q, content (io_pool io') q = content (io_pool io) q) /\
        ran io (flat_map op_buffer ops) (ops_queued ops codes) (Forall accepted codes)
          (Forall io_op_soft ops /\ AmpleMemory AL) io') m.
Proof.
  revert io m. induction ops as [|op ops IH]; intros io m IW Hok; cbn [run_io_ops].
  { apply wp_ret. split_and!; [done|done|]. exists [], []. cbn. rewrite !app_nil_r. by split_and!. }
  apply Forall_cons in Hok as [Hop Hok].
  eapply wp_bind_mono; [by apply (wp_run_io_op held)|].
  intros [code io1] m1 (IW1 & Hc1 & (s1 & d1 & L1 & C1 & Q1 & E1 & G1)). cbn [fst snd] in *.
  eapply wp_bind_mono; [by apply IH|].
  intros [codes io2] m2 (IW2 & Hc2 & (s2 & d2 & L2 & C2 & Q2 & E2 & G2)). apply wp_ret.
  split_and!; [done|intros q; by rewrite Hc2|].
  exists (s1 ++ s2), (d1 ++ d2). rewrite !length_app, C2, C1, zip_with_app, <- app_assoc by done.
  split_and!; [lia|done| | |].
  - cbn [ops_queued]. by rewrite app_assoc, Q1, <- app_assoc, Q2, <- app_assoc.
  - intros [Ha Has]%Forall_cons [Hs1 Hs2]%Forall_app. rewrite E2, app_assoc, E1 by done.
    cbn [flat_map]. rewrite queued_app, <- !app_assoc. by rewrite (queued_ext _ _ _ Hc1).
  - intros [[HS HSs]%Forall_cons HA]. destruct (G1 (conj HS HA)) as [? ?], (G2 (conj HSs HA)) as [? ?].
    split; [by apply Forall_cons|by apply Forall_app].
Qed.

(** ** Every queued buffer leaves the queue *)

(** The first buffer alone is completed. *)
Definition first_completed (status : obus_io_status) (io io' : obus_io) : Prop :=
  match io_write_buffers io with
  | [] => io_write_buffers io' = [] /\ io_calls io' = io_calls io
  | p :: l => io_write_buffers io' = l /\ io_calls io' = io_calls io ++ [(status, p)]
  end.

Lemma wp_first_completed held status io b m :
  io_wf held io ->
  wp (obus_io_write_buffer_complete (with_timer io b) status) (fun io' _ => first_completed status io io') m.
Proof.
  intros IW. eapply wp_mono; [apply (wp_complete held); by destruct IW|]. intros io' m' (_ & _ & _ & Hr).
  unfold first_completed. cbn in Hr. destruct (io_write_buffers io) as [|p l] eqn:El; [subst io'; done|].
  by destruct Hr as (-> & _ & ->).
Qed.

(** A kernel that takes each buffer of the queue at its first write. *)
Definition takes_all (io : obus_io) (ns : list Z) : Prop :=
  (length (io_write_buffers io) <= length ns)%nat /\
  Forall (fun n => forall p, p ∈ io_write_buffers io -> Z.of_nat (length (content (io_pool io) p)) <= n) ns.

Lemma write_loop_takes n script bs wire k :
  Z.of_nat (length bs) <= n ->
  exists script', (script' = script \/ script' = Accepted n :: script) /\
    forall m, write_loop (Accepted n :: script) bs wire k m
      = Some ((0, k + Z.of_nat (length bs), wire ++ bs, script'), m).
Proof.
  intros Hn. destruct bs as [|x bs]; cbn [write_loop].
  { exists (Accepted n :: script). split; [by right|]. intros m. by rewrite Z.add_0_r, app_nil_r. }
  exists script. split; [by left|]. intros m.
  replace (Z.max 0 (Z.min n (Z.of_nat (length (x :: bs))))) with (Z.of_nat (length (x :: bs))) by lia.
  rewrite Nat2Z.id, drop_all, firstn_all. by destruct script.
Qed.

Lemma wp_drain_takes held fuel ns rest io m :
  io_wf held io -> takes_all io ns -> (length (io_write_buffers io) < fuel)%nat ->
  wp (drain fuel (map Accepted ns ++ rest) io) (fun r _ =>
    io_write_buffers (fst r) = [] /\
    io_calls (fst r) = io_calls io ++ map (pair OBUS_IO_OK) (io_write_buffers io)) m.
Proof.
  revert ns io m. induction fuel as [|fuel IH]; intros ns io m IW [HL HT] Hf; [lia|]. cbn [drain].
  destruct (io_write_buffers io) as [|p l] eqn:El; [apply wp_ret; cbn; by rewrite El, app_nil_r|].
  destruct ns as [|n ns]; [cbn in HL; lia|].
  assert (0 < refs (io_pool io) p) as Hp.
  { eapply occurrences_held_refs; [done|]. left. rewrite El. by left. }
  destruct (refs_buf _ _ (iw_pool _ _ IW) Hp) as (b & Hb & Wb).
  pose proof (iw_first _ _ IW) as Hfirst. rewrite El in Hfirst. pose proof (iw_written _ _ IW) as Hn0.
  pose proof HT as [Hn HT']%Forall_cons. specialize (Hn p ltac:(by left)).
  assert (content (io_pool io) p = buf_bytes b) as Hcb by (unfold content; by rewrite Hb).
  rewrite Hcb in Hfirst, Hn. rewrite length_buf_bytes in Hfirst by done.
  rewrite length_buf_bytes in Hn by done. wf_facts b Wb.
  unfold obus_io_write_buffer. apply wp_bind, wp_bind. eapply wp_get_buf; [exact Hb|]. cbn zeta.
  unfold obus_buffer_length. rewrite u64_small by wrap_lia.
  apply wp_bind, wp_data_slice; [done|lia..|]. rewrite slice_content by lia || done.
  cbn [map app]. set (bs := drop _ _).
  destruct (write_loop_takes n (map Accepted ns ++ rest) bs (io_wire io) 0) as (script' & Hs' & Hrun).
  { unfold bs. pose proof (length_buf_bytes b Wb). rewrite length_drop. lia. }
  apply wp_bind. eexists _, m. split; [apply Hrun|]. apply wp_ret. cbn [Z.eqb Z.opp EAGAIN].
  eapply wp_bind_mono; [apply (wp_complete held); by apply io_wf_wire|].
  cbn [io_write_buffers with_wire io_wire io_pool io_calls]. rewrite El.
  intros io2 m2 (IW2 & _ & Hc2 & Hq2 & _ & Hcalls2).
  assert (forall q, q ∈ io_write_buffers io2 -> q ∈ p :: l) as Hsub by (rewrite Hq2; intros q; by right).
  assert (Forall (fun n => forall q, q ∈ io_write_buffers io2 -> Z.of_nat (length (content (io_pool io2) q)) <= n) (n :: ns)) as HT2.
  { eapply Forall_impl; [exact HT|]. cbn. intros n' Hle q Hq. rewrite Hc2. by apply Hle, Hsub. }
  destruct Hs' as [->| ->].
  - eapply wp_mono; [apply (IH ns io2); [done| |rewrite Hq2; cbn in Hf; lia]|].
    + split; [rewrite Hq2; cbn in HL; lia|]. by apply Forall_cons in HT2 as [_ ?].
    + intros r m3 [E1 E2]. split; [done|]. by rewrite E2, Hcalls2, Hq2, <- app_assoc.
  - eapply wp_mono; [apply (IH (n :: ns) io2); [done| |rewrite Hq2; cbn in Hf; lia]|].
    + split; [rewrite Hq2; cbn in HL |- *; lia|done].
    + intros r m3 [E1 E2]. split; [done|]. by rewrite E2, Hcalls2, Hq2, <- app_assoc.
Qed.

(** C4: bytes are written in order, none lost and none twice.  Take any sequence of
    writes, write-ready events, error events and timeouts, with a kernel that cuts
    the writes as it likes (short counts, EINTR, EAGAIN, errors), and any
    allocator.  As long as every [obus_io_write] has returned 0 or -EAGAIN, and
    every completion has reported OBUS_IO_OK, the bytes the kernel has accepted
    followed by those still pending are the bytes of the buffers given to
    [obus_io_write], in the order of the calls.  And so it goes when memory is
    ample and the kernel gives no other error than EINTR and EAGAIN, without error
    event or timeout.  (After a failure that is reported, the stream misses bytes
    of that buffer: a write that ends with -ENOMEM may have sent its first
    bytes.) *)
Theorem io_stream_in_order held ops io m :
  io_wf held io -> Forall (io_op_ok held) ops ->
  wp (run_io_ops ops io)
     (fun r _ => let '(codes, io') := r in
        exists sts dn, length sts = length dn /\ io_calls io' = io_calls io ++ zip sts dn /\
          (Forall accepted codes -> Forall (eq OBUS_IO_OK) sts ->
             io_wire io' ++ pending io' =
             io_wire io ++ pending io ++ queued (io_pool io) (flat_map op_buffer ops)) /\
          (Forall io_op_soft ops -> AmpleMemory AL ->
             Forall accepted codes /\ Forall (eq OBUS_IO_OK) sts)) m.
Proof.
  intros IW Hok. eapply wp_mono; [by apply (wp_run_io_ops held)|].
  intros [codes io'] m' (_ & _ & sts & dn & H1 & H2 & _ & H3 & H4). exists sts, dn.
  split_and!; [done..|]. intros HS HA. by apply H4.
Qed.

End Stream.

Section Witnesses.
#[local] Existing Instance ample_alloc.

(** Buffer 1 holds the bytes 1 2 3 and has one reference. *)
Definition wit_io_pool : pool := Pool 4 [] {[1%positive := Buffer 4 3 0 [1; 2; 3; 170] 1]} 2.
Definition wit_io : obus_io := Io [] 0 false false wit_io_pool [] [].

Definition wit_io_ops : list io_op :=
  [IoWrite [Accepted 2; WriteError EINTR; WriteError EAGAIN] 1;
   IoWrite [WriteError EAGAIN] 1;
   IoEvents [Accepted 1; Accepted 5; WriteError EAGAIN] false true].

Lemma wit_io_wf : io_wf [1%positive] wit_io.
Proof.
  constructor.
  - constructor; cbn; [lia|constructor|..].
    + intros p. split; [intros Hp; by apply not_elem_of_nil in Hp|].
      intros (b & Hb & Hz). apply lookup_singleton_Some in Hb as [_ <-]. done.
    + intros p b Hb. apply lookup_singleton_Some in Hb as [_ <-]. split; [cbn; lia|].
      constructor; cbn; [lia|lia|unfold PTRDIFF_MAX; lia|done|].
      repeat (apply Forall_cons; split); try apply Forall_nil; unfold is_byte; done || lia.
    + intros p [b Hb]. apply lookup_singleton_Some in Hb as [<- _]. lia.
  - intros p. cbn. unfold occurrences. cbn. unfold refs. cbn.
    case_decide as Hp; [apply list_elem_of_singleton in Hp as ->; vm_compute; congruence|].
    destruct (decide (p = 1%positive)) as [->|Hne]; [by destruct Hp; left|].
    rewrite lookup_singleton_ne by congruence. lia.
  - cbn. lia.
  - reflexivity.
Qed.

Lemma wit_blocks script :
  Forall (fun s => match s with WriteError e => 0 < e | Accepted _ => True end) script ->
  blocks (script ++ [WriteError EAGAIN]).
Proof. intros H. split; [set_solver|]. apply Forall_app. split; [done|]. by apply Forall_singleton. Qed.

Lemma wit_io_ops_ok : Forall (io_op_ok [1%positive]) wit_io_ops.
Proof.
  constructor; [|constructor; [|constructor; [|constructor]]].
  - split; [|by left]. apply (wit_blocks [Accepted 2; WriteError EINTR]). by repeat constructor.
  - split; [|by left]. apply (wit_blocks []). constructor.
  - apply (wit_blocks [Accepted 1; Accepted 5]). by repeat constructor.
Qed.

Lemma wit_io_ops_soft : Forall io_op_soft wit_io_ops.
Proof.
  constructor; [|constructor; [|constructor; [|constructor]]].
  - constructor; [done|]. constructor; [by left|]. constructor; [by right|constructor].
  - constructor; [by right|constructor].
  - split; [|done]. constructor; [done|]. constructor; [done|]. constructor; [by right|constructor].
Qed.

Lemma io_stream_in_order_witness :
  wp (run_io_ops wit_io_ops wit_io)
     (fun r _ => io_wire (snd r) ++ pending (snd r) = [1; 2; 3; 1; 2; 3]) mem0.
Proof.
  eapply wp_mono; [exact (io_stream_in_order [1%positive] wit_io_ops wit_io mem0 wit_io_wf wit_io_ops_ok)|].
  intros [codes io'] m' (sts & dn & _ & _ & H & G). destruct (G wit_io_ops_soft ample_alloc_ample) as [G1 G2].
  exact (H G1 G2).
Defined.

End Witnesses.
