(* ===== verification/Packet.v ===== *)
(** * obus_packet.c: packet encoding, the header scanner and the packet decoder

    A packet is a header (magic, size of the whole packet, type) and a payload.
    [encode_packet] is the shape of every encoder: clear, reserve the header,
    append the payload, write the header in the reserved bytes. *)
From S2P Require Import Prelude Mem Cstring Buffer Pool Desc Field Struct Hash BusApi World Bus Object Event Call BusEvent Io.

Definition OBUS_MAGIC_0 : Z := 111.  (* 'o' *)
Definition OBUS_MAGIC_1 : Z := 98.   (* 'b' *)
Definition OBUS_MAGIC_2 : Z := 117.  (* 'u' *)
Definition OBUS_MAGIC_3 : Z := 115.  (* 's' *)

Definition obus_magic : Z :=
  Z.shiftl OBUS_MAGIC_0 24 + Z.shiftl OBUS_MAGIC_1 16 + Z.shiftl OBUS_MAGIC_2 8 + OBUS_MAGIC_3.

Definition OBUS_PROTOCOL_VERSION : Z := 2.

(** [enum obus_packet_type] *)
Definition OBUS_PKT_CONREQ : Z := 0.
Definition OBUS_PKT_CONRESP : Z := 1.
Definition OBUS_PKT_ADD : Z := 2.
Definition OBUS_PKT_REMOVE : Z := 3.
Definition OBUS_PKT_BUS_EVENT : Z := 4.
Definition OBUS_PKT_EVENT : Z := 5.
Definition OBUS_PKT_CALL : Z := 6.
Definition OBUS_PKT_ACK : Z := 7.
Definition OBUS_PKT_COUNT : Z := 8.

(** [enum obus_conresp_status] *)
Definition OBUS_CONRESP_ACCEPTED : Z := 0.
Definition OBUS_CONRESP_REFUSED : Z := 1.
Definition OBUS_CONRESP_STATUS_COUNT : Z := 2.

Definition OBUS_PKT_HDR_SIZE : Z := 9.
Definition OBUS_PKT_HDR_MAGIC_OFFSET : Z := 0.
Definition OBUS_PKT_HDR_SIZE_OFFSET : Z := 4.
Definition OBUS_PKT_HDR_TYPE_OFFSET : Z := 8.

Record obus_packet_conreq := Conreq {
  cq_version : Z; cq_bus : cstr; cq_crc : Z; cq_client : cstr
}.

Record obus_ack := Ack { ack_handle : Z; ack_status : obus_call_status }.

Record obus_packet_conresp := Conresp { cp_status : Z; cp_objects : list positive }.

Inductive obus_packet_info :=
| InfoConreq (r : obus_packet_conreq)
| InfoConresp (r : obus_packet_conresp)
| InfoAdd (obj : positive)
| InfoRemove (obj : option positive)
| InfoBusEvent (e : positive)
| InfoEvent (e : positive)
| InfoCall (c : positive)
| InfoAck (a : obus_ack).

Record obus_packet_header := Header { hdr_magic : Z; hdr_size : Z; hdr_type : Z }.

(** The buffer of a decoder is passed next to it. *)
Record obus_packet_decoder := Decoder {
  d_hdr : obus_packet_header;
  d_hdr_valid : bool;
  d_log_hdr : bool
}.

Definition with_hdr (d : obus_packet_decoder) h v : obus_packet_decoder := Decoder h v (d_log_hdr d).

Section Encode.
Context {AL : Allocator}.

Definition obus_packet_encode_header (buf : buffer) (type : Z) : M (Z * buffer) :=
  '(ret, buf) ← obus_buffer_write_u32 buf obus_magic OBUS_PKT_HDR_MAGIC_OFFSET;
  if failed ret then mret (ret, buf) else
  '(ret, buf) ← obus_buffer_write_u32 buf (u32 (obus_buffer_length buf)) OBUS_PKT_HDR_SIZE_OFFSET;
  if failed ret then mret (ret, buf) else
  '(ret, buf) ← obus_buffer_write_u8 buf type OBUS_PKT_HDR_TYPE_OFFSET;
  if failed ret then mret (ret, buf) else mret (0, buf).

Definition encode_packet (type : Z) (payload : buffer -> M (Z * buffer)) (buf : buffer)
  : M (Z * buffer) :=
  let buf := obus_buffer_clear buf in
  '(ret, buf) ← obus_buffer_reserve buf OBUS_PKT_HDR_SIZE;
  if failed ret then mret (ret, buf) else
  '(ret, buf) ← payload buf;
  if failed ret then mret (ret, buf) else
  obus_packet_encode_header buf type.

Definition conreq_payload (client bus : cstr) (crc : Z) (buf : buffer) : M (Z * buffer) :=
  '(ret, buf) ← obus_buffer_append_u8 buf OBUS_PROTOCOL_VERSION;
  if failed ret then mret (ret, buf) else
  '(ret, buf) ← obus_buffer_append_string buf bus;
  if failed ret then mret (ret, buf) else
  '(ret, buf) ← obus_buffer_append_u32 buf crc;
  if failed ret then mret (ret, buf) else
  obus_buffer_append_string buf client.

Definition obus_packet_conreq_encode (buf : buffer) (client bus : cstr) (crc : Z)
  : M (Z * buffer) :=
  encode_packet OBUS_PKT_CONREQ (conreq_payload client bus crc) buf.

(** [objects] is [None] for a NULL list. *)
Definition conresp_payload (status : Z) (n_objects : Z) (objs : list obus_object) (buf : buffer)
  : M (Z * buffer) :=
  '(ret, buf) ← obus_buffer_append_u8 buf (u8 status);
  if failed ret then mret (ret, buf) else
  '(ret, buf) ← obus_buffer_append_u32 buf n_objects;
  if failed ret then mret (ret, buf) else
  if 0 <? n_objects then for_each objs obus_object_add_encode buf else mret (0, buf).

Definition obus_packet_conresp_encode (buf : buffer) (status : Z) (objects : option (list positive))
  : W (Z * buffer) :=
  objs ← get_all get_obj (default [] objects);
  let n_objects := match objects with Some l => count l | None => 0 end in
  lift (encode_packet OBUS_PKT_CONRESP (conresp_payload status n_objects objs) buf).

Definition obus_packet_add_encode (buf : buffer) (obj : positive) : W (Z * buffer) :=
  o ← get_obj obj;
  lift (encode_packet OBUS_PKT_ADD (obus_object_add_encode o) buf).

Definition obus_packet_remove_encode (buf : buffer) (obj : positive) : W (Z * buffer) :=
  o ← get_obj obj;
  lift (encode_packet OBUS_PKT_REMOVE (obus_object_remove_encode o) buf).

Definition obus_packet_event_encode (buf : buffer) (event : positive) : W (Z * buffer) :=
  '(o, e) ← get_evt_obj event;
  lift (encode_packet OBUS_PKT_EVENT (obus_event_encode o e) buf).

Definition obus_packet_bus_event_encode (buf : buffer) (event : positive) : W (Z * buffer) :=
  b ← get_bev event;
  adds ← get_all get_obj (be_add_objs b);
  removes ← get_all get_obj (be_remove_objs b);
  evts ← get_all get_evt_obj (be_obj_events b);
  lift (encode_packet OBUS_PKT_BUS_EVENT (encode_bus_event b adds removes evts) buf).

Definition obus_packet_call_encode (buf : buffer) (call : positive) : W (Z * buffer) :=
  c ← get_call call;
  o ← get_obj (cl_obj c);
  lift (encode_packet OBUS_PKT_CALL (obus_call_encode o c) buf).

Definition ack_payload (ack : obus_ack) (buf : buffer) : M (Z * buffer) :=
  '(ret, buf) ← obus_buffer_append_u16 buf (ack_handle ack);
  if failed ret then mret (ret, buf) else
  obus_buffer_append_u8 buf (u8 (call_status_num (ack_status ack))).

Definition obus_packet_ack_encode (buf : buffer) (ack : obus_ack) : M (Z * buffer) :=
  encode_packet OBUS_PKT_ACK (ack_payload ack) buf.
End Encode.

Section Decode.
Context {AL : Allocator}.

(** A decoder of a payload: code, contents when it succeeds, buffer. *)
Definition obus_packet_conreq_decode (buf : buffer)
  : M (Z * option obus_packet_conreq * buffer) :=
  '(ret, version, buf) ← obus_buffer_read_u8 buf;
  match version with None => mret (ret, None, buf) | Some version =>
  '(ret, bus, buf) ← obus_buffer_read_string buf;
  if failed ret then mret (ret, None, buf) else
  '(ret, crc, buf) ← obus_buffer_read_u32 buf;
  match crc with None => mret (ret, None, buf) | Some crc =>
  '(ret, client, buf) ← obus_buffer_read_string buf;
  if failed ret then mret (ret, None, buf) else
  mret (0, Some (Conreq version (default CNull bus) crc (default CNull client)), buf)
  end end.

Definition add_decoded (_ : Z) (s : list positive * buffer) : W (list positive * buffer) :=
  let '(l, buf) := s in
  '(obj, buf) ← obus_object_add_decode buf;
  mret (match obj with Some p => l ++ [p] | None => l end, buf).

(** The status test lets [OBUS_CONRESP_STATUS_COUNT] through. *)
Definition obus_packet_conresp_decode (buf : buffer)
  : W (Z * option obus_packet_conresp * buffer) :=
  '(ret, status, buf) ← lift (obus_buffer_read_u8 buf);
  match status with None => mret (ret, None, buf) | Some status =>
  if OBUS_CONRESP_STATUS_COUNT <? status then mret (- EINVAL, None, buf) else
  '(ret, n_objects, buf) ← lift (obus_buffer_read_u32 buf);
  match n_objects with None => mret (ret, None, buf) | Some n_objects =>
  '(l, buf) ← w_fold (indices n_objects) add_decoded ([], buf);
  mret (0, Some (Conresp status l), buf)
  end end.

(** The wrappers that turn a NULL result into [-ENOENT]. *)
Definition or_enoent (c : W (option positive * buffer)) : W (Z * option positive * buffer) :=
  '(x, buf) ← c;
  mret (match x with Some _ => 0 | None => - ENOENT end, x, buf).

Definition obus_packet_add_decode (buf : buffer) := or_enoent (obus_object_add_decode buf).

(** No test here: the object may be NULL with code 0. *)
Definition obus_packet_remove_decode (buf : buffer) : W (Z * option positive * buffer) :=
  '(x, buf) ← obus_object_remove_decode buf;
  mret (0, x, buf).

Definition obus_packet_event_decode (buf : buffer) := or_enoent (obus_event_decode buf).
Definition obus_packet_bus_event_decode (buf : buffer) := or_enoent (obus_bus_event_decode buf).
Definition obus_packet_call_decode (buf : buffer) := or_enoent (obus_call_decode buf).

Definition obus_packet_ack_decode (buf : buffer) : M (Z * option obus_ack * buffer) :=
  '(ret, handle, buf) ← obus_buffer_read_u16 buf;
  match handle with None => mret (ret, None, buf) | Some handle =>
  '(ret, status, buf) ← obus_buffer_read_u8 buf;
  match status with None => mret (ret, None, buf) | Some status =>
  mret (0, Some (Ack handle (call_status_of status)), buf)
  end end.

(** The scan for a header, from the read position on.  A turn that does not
    return moves one byte forward; [fuel] bounds the turns. *)
Fixpoint header_scan (fuel : nat) (d : obus_packet_decoder) (buf : buffer)
  : M (Z * obus_packet_decoder * buffer) :=
  if obus_buffer_read_length buf <? OBUS_PKT_HDR_SIZE then
    if OBUS_PKT_HDR_SIZE <=? obus_buffer_length buf then
      buf ← obus_buffer_remove_first buf
              (u64 (obus_buffer_length buf - (OBUS_PKT_HDR_SIZE - 1)));
      mret (- EAGAIN, d, buf)
    else mret (- EAGAIN, d, buf)
  else
    match fuel with
    | O => m_undef
    | S fuel' =>
      let pos := obus_buffer_get_read_position buf in
      '(_, magic, buf) ← obus_buffer_read_u32 buf;
      let magic := default 0 magic in
      if negb (magic =? obus_magic) then
        header_scan fuel' (with_hdr d (Header magic 0 0) (d_hdr_valid d))
          (snd (obus_buffer_set_read_position buf (u64 (pos + 1))))
      else
        '(_, size, buf) ← obus_buffer_read_u32 buf;
        '(_, type, buf) ← obus_buffer_read_u8 buf;
        let hdr := Header magic (default 0 size) (default 0 type) in
        if OBUS_PKT_COUNT <=? hdr_type hdr then
          header_scan fuel' (with_hdr d hdr (d_hdr_valid d))
            (snd (obus_buffer_set_read_position buf (u64 (pos + 1))))
        else
          buf ← obus_buffer_remove_first buf pos;
          mret (0, with_hdr d hdr true, buf)
    end.

Definition scan_fuel (buf : buffer) : nat := Z.to_nat (obus_buffer_read_length buf).

Definition obus_packet_decode_header (d : obus_packet_decoder) (buf : buffer)
  : M (Z * obus_packet_decoder * buffer) :=
  header_scan (scan_fuel buf) d buf.

(** [map_info]: the member of the union a payload decoder fills. *)
Definition map_info {A} (f : A -> obus_packet_info) (c : W (Z * option A * buffer))
  : W (Z * option obus_packet_info * buffer) :=
  '(ret, x, buf) ← c; mret (ret, f <$> x, buf).

(** The switch on the packet type. *)
Definition decode_payload_of (type : Z) (buf : buffer)
  : W (Z * option obus_packet_info * buffer) :=
  if type =? OBUS_PKT_CONREQ then map_info InfoConreq (lift (obus_packet_conreq_decode buf))
  else if type =? OBUS_PKT_CONRESP then map_info InfoConresp (obus_packet_conresp_decode buf)
  else if type =? OBUS_PKT_ADD then map_info InfoAdd (obus_packet_add_decode buf)
  else if type =? OBUS_PKT_REMOVE then
    '(ret, x, buf) ← obus_packet_remove_decode buf; mret (ret, Some (InfoRemove x), buf)
  else if type =? OBUS_PKT_BUS_EVENT then map_info InfoBusEvent (obus_packet_bus_event_decode buf)
  else if type =? OBUS_PKT_EVENT then map_info InfoEvent (obus_packet_event_decode buf)
  else if type =? OBUS_PKT_CALL then map_info InfoCall (obus_packet_call_decode buf)
  else if type =? OBUS_PKT_ACK then map_info InfoAck (lift (obus_packet_ack_decode buf))
  else mret (- ENOENT, None, buf).

(** One decoded packet leaves the buffer, whatever its code. *)
Definition decode_packet (d : obus_packet_decoder) (buf : buffer)
  : W (Z * option obus_packet_info * obus_packet_decoder * buffer) :=
  '(ret, info, buf) ← decode_payload_of (hdr_type (d_hdr d)) buf;
  buf ← lift (obus_buffer_remove_first buf (hdr_size (d_hdr d)));
  let buf := snd (obus_buffer_set_read_position buf 0) in
  mret (ret, info, with_hdr d (d_hdr d) false, buf).

Definition obus_buffer_size (buf : buffer) : Z := buf_size buf.

Definition read_more_bytes (script : list sys_read) (buf : buffer)
  : M (Z * buffer * list sys_read) :=
  let len := obus_buffer_write_space buf in
  let len := if len =? 0 then obus_buffer_size buf else len in
  obus_io_read script buf len.

(** How a turn of the [while (1)] of [obus_packet_decoder_read] ends: with the
    code and the packet, or with another turn. *)
Inductive turn_end :=
| Return (ret : Z) (info : option obus_packet_info)
| Again (read_more : bool).

Definition decoder_turn (read_more : bool) (d : obus_packet_decoder) (buf : buffer) (script : list sys_read)
  : W (turn_end * obus_packet_decoder * buffer * list sys_read) :=
  '(nbytes, buf, script) ← (if read_more then lift (read_more_bytes script buf)
                            else mret (1, buf, script));
  if nbytes <? 0 then mret (Return nbytes None, d, buf, script) else
  if nbytes =? 0 then mret (Return (- EIO) None, d, buf, script) else
  '(ret, d, buf) ← (if d_hdr_valid d then mret (0, d, buf)
                    else lift (obus_packet_decode_header d buf));
  if failed ret then mret (Again true, d, buf, script) else
  if obus_buffer_length buf <? hdr_size (d_hdr d) then mret (Again true, d, buf, script) else
  '(ret, info, d, buf) ← decode_packet d buf;
  if ret =? 0 then mret (Return 0 info, d, buf, script)
  else mret (Again read_more, d, buf, script).

(** The loop: [fuel] bounds its turns. *)
Fixpoint decoder_loop (fuel : nat) (read_more : bool) (d : obus_packet_decoder) (buf : buffer)
    (script : list sys_read)
  : W (Z * option obus_packet_info * obus_packet_decoder * buffer * list sys_read) :=
  match fuel with
  | O => w_undef
  | S fuel' =>
    '(t, d, buf, script) ← decoder_turn read_more d buf script;
    match t with
    | Return ret info => mret (ret, info, d, buf, script)
    | Again read_more => decoder_loop fuel' read_more d buf script
    end
  end.

Definition obus_packet_decoder_read (fuel : nat) (d : obus_packet_decoder) (buf : buffer)
    (script : list sys_read) :=
  decoder_loop fuel false d buf script.

(** Creation, reset and destruction work on a buffer of the pool. *)
Definition obus_packet_decoder_init (pl : pool) (p : positive) (log_hdr : bool)
  : M (Z * obus_packet_decoder * pool) :=
  pl ← obus_buffer_ref pl p;
  b ← get_buf pl p;
  mret (0, Decoder (Header 0 0 0) false log_hdr, set_buf pl p (obus_buffer_clear b)).

Definition obus_packet_decoder_reset (pl : pool) (p : positive) (d : obus_packet_decoder)
  : M (Z * obus_packet_decoder * pool) :=
  b ← get_buf pl p;
  mret (0, with_hdr d (d_hdr d) false, set_buf pl p (obus_buffer_clear b)).

Definition obus_packet_decoder_destroy (pl : pool) (p : positive) : M (Z * pool) :=
  b ← get_buf pl p;
  '(_, pl) ← obus_buffer_unref (set_buf pl p (obus_buffer_clear b)) p;
  mret (0, pl).
End Decode.

(** ** Headers in a stream of bytes *)

(** The header at the start of [l]: size and type. *)
Definition header_at (l : list Z) : option (Z * Z) :=
  match l with
  | m0 :: m1 :: m2 :: m3 :: s0 :: s1 :: s2 :: s3 :: t :: _ =>
    if (be_val [m0; m1; m2; m3] =? obus_magic) && (t <? OBUS_PKT_COUNT)
    then Some (be_val [s0; s1; s2; s3], t) else None
  | _ => None
  end.

(** The first header of [l] and its offset. *)
Fixpoint find_header (l : list Z) : option (nat * (Z * Z)) :=
  match header_at l with
  | Some h => Some (O, h)
  | None =>
    match l with
    | [] => None
    | _ :: l' => match find_header l' with Some (i, h) => Some (S i, h) | None => None end
    end
  end.

Lemma header_at_short l : (length l < 9)%nat -> header_at l = None.
Proof. do 9 (destruct l as [|? l]; [done|cbn [length]]). lia. Qed.

Lemma find_header_short l : (length l < 9)%nat -> find_header l = None.
Proof.
  induction l as [|x l IH]; intros Hl; [done|]. cbn [find_header].
  rewrite header_at_short by done. rewrite IH; [done|]. cbn in Hl. lia.
Qed.

Lemma find_header_Some l i h : find_header l = Some (i, h) -> header_at (drop i l) = Some h /\ (i <= length l)%nat.
Proof.
  revert i. induction l as [|x l IH]; intros i; [done|]. cbn [find_header].
  destruct (header_at (x :: l)) as [h'|] eqn:E; [intros [= <- <-]; rewrite drop_0; split; [done|lia]|].
  destruct (find_header l) as [[j h']|]; [|done]. intros [= <- <-]. cbn.
  destruct (IH j eq_refl). split; [done|lia].
Qed.

Lemma find_header_None l i : find_header l = None -> header_at (drop i l) = None.
Proof.
  revert i. induction l as [|x l IH]; intros i H; [by rewrite drop_nil|]. cbn [find_header] in H.
  destruct (header_at (x :: l)) eqn:E; [done|].
  destruct (find_header l) as [[j h]|] eqn:Ef; [done|]. destruct i; [done|]. cbn. by apply IH.
Qed.

Section Scan.
Context {AL : Allocator}.

(** The outcome of the scan. *)
Definition scan_post (d : obus_packet_decoder) (b : buffer)
    (ret : Z) (d' : obus_packet_decoder) (b' : buffer) : Prop :=
  buf_wf b' /\ buf_size b' = buf_size b /\ buf_refcnt b' = buf_refcnt b /\
  match find_header (buf_rest b) with
  | Some (i, (size, type)) =>
    ret = 0 /\ d' = with_hdr d (Header obus_magic size type) true /\
    buf_bytes b' = drop (Z.to_nat (buf_pos b) + i) (buf_bytes b) /\ buf_pos b' = OBUS_PKT_HDR_SIZE
  | None =>
    ret = - EAGAIN /\ d_hdr_valid d' = d_hdr_valid d /\ d_log_hdr d' = d_log_hdr d /\
    buf_bytes b' = drop (length (buf_bytes b) - 8) (buf_bytes b) /\
    buf_pos b' = Z.max 0 (buf_pos b - Z.max 0 (buf_length b - 8))
  end.

Lemma length_buf_rest b : buf_wf b -> buf_pos b <= buf_length b ->
  Z.of_nat (length (buf_rest b)) = obus_buffer_read_length b.
Proof.
  intros W Hp. unfold buf_rest, obus_buffer_read_length. rewrite length_drop.
  pose proof (length_buf_bytes b W). wf_facts b W. destruct (Z.ltb_spec (buf_pos b) (buf_length b));
    [rewrite u64_small by wrap_lia|]; lia.
Qed.

Lemma header_scan_unfold fuel d buf :
  header_scan fuel d buf =
  if obus_buffer_read_length buf <? OBUS_PKT_HDR_SIZE then
    if OBUS_PKT_HDR_SIZE <=? obus_buffer_length buf then
      buf ← obus_buffer_remove_first buf
              (u64 (obus_buffer_length buf - (OBUS_PKT_HDR_SIZE - 1)));
      mret (- EAGAIN, d, buf)
    else mret (- EAGAIN, d, buf)
  else
    match fuel with
    | O => m_undef
    | S fuel' =>
      let pos := obus_buffer_get_read_position buf in
      '(_, magic, buf) ← obus_buffer_read_u32 buf;
      let magic := default 0 magic in
      if negb (magic =? obus_magic) then
        header_scan fuel' (with_hdr d (Header magic 0 0) (d_hdr_valid d))
          (snd (obus_buffer_set_read_position buf (u64 (pos + 1))))
      else
        '(_, size, buf) ← obus_buffer_read_u32 buf;
        '(_, type, buf) ← obus_buffer_read_u8 buf;
        let hdr := Header magic (default 0 size) (default 0 type) in
        if OBUS_PKT_COUNT <=? hdr_type hdr then
          header_scan fuel' (with_hdr d hdr (d_hdr_valid d))
            (snd (obus_buffer_set_read_position buf (u64 (pos + 1))))
        else
          buf ← obus_buffer_remove_first buf pos;
          mret (0, with_hdr d hdr true, buf)
    end.
Proof. by destruct fuel. Qed.

(** Fewer than 9 bytes left: the last 8 are kept. *)
Lemma wp_scan_stop d b m :
  buf_wf b -> buf_pos b <= buf_length b -> (length (buf_rest b) < 9)%nat ->
  wp (if OBUS_PKT_HDR_SIZE <=? obus_buffer_length b then
        b ← obus_buffer_remove_first b (u64 (obus_buffer_length b - (OBUS_PKT_HDR_SIZE - 1)));
        mret (- EAGAIN, d, b)
      else mret (- EAGAIN, d, b))
     (fun r m' => let '(ret, d', b') := r in m' = m /\ scan_post d b ret d' b') m.
Proof.
  intros W Hp Hs. unfold scan_post, OBUS_PKT_HDR_SIZE, obus_buffer_length.
  pose proof (length_buf_bytes b W) as Hl. wf_facts b W. rewrite find_header_short by done.
  destruct (Z.leb_spec 9 (buf_length b)) as [H9|H9].
  - rewrite u64_small by wrap_lia. apply wp_bind, wp_remove_first; [done|lia|].
    intros b' W' Hb Hsz Hr Hpos. apply wp_ret. split; [done|]. split_and!; [done..| |].
    + rewrite Hb. f_equal. lia.
    + rewrite Hpos. unfold pos_after_remove.
      repeat (case_bool; cbn [orb]); lia.
  - apply wp_ret. split; [done|]. split_and!; [done..| |lia].
    by replace (length (buf_bytes b) - 8)%nat with 0%nat by lia.
Qed.

(** One more turn starts one byte further. *)
Lemma scan_post_step d d1 b x l ret d' b' :
  buf_wf b -> buf_rest b = x :: l -> header_at (x :: l) = None -> buf_pos b + 9 <= buf_length b ->
  (forall h v, with_hdr d1 h v = with_hdr d h v) -> d_hdr_valid d1 = d_hdr_valid d ->
  d_log_hdr d1 = d_log_hdr d ->
  scan_post d1 (with_pos b (buf_pos b + 1)) ret d' b' -> scan_post d b ret d' b'.
Proof.
  intros W Hr Hh H9 Hd Hv Hlg (W' & Hsz & Hrc & HP). split_and!; [done..|].
  wf_facts b W. rewrite buf_rest_with_pos, Hr in HP by lia. cbn [drop] in HP.
  change (drop (Z.to_nat 1) (x :: l)) with l in HP. rewrite Hr. cbn [find_header]. rewrite Hh.
  destruct (find_header l) as [[i [size type]]|].
  - destruct HP as (? & -> & Hb & ?). rewrite Hd. split_and!; [done..| |done].
    rewrite Hb. change (buf_bytes (with_pos b (buf_pos b + 1))) with (buf_bytes b). f_equal.
    cbn [buf_pos with_pos]. lia.
  - destruct HP as (? & ? & ? & ? & Hpos). split_and!; [done|congruence..|done|].
    rewrite Hpos. cbn [buf_pos with_pos buf_length]. lia.
Qed.

(** Nine bytes ahead: a magic number, a size and a type. *)
Lemma header_bytes b :
  buf_wf b -> buf_pos b <= buf_length b -> OBUS_PKT_HDR_SIZE <= obus_buffer_read_length b ->
  buf_pos b + 9 <= buf_length b /\ exists m0 m1 m2 m3 s0 s1 s2 s3 t rest,
    let ms := [m0; m1; m2; m3] in let ss := [s0; s1; s2; s3] in
    buf_rest b = ms ++ ss ++ t :: rest /\ 0 <= be_val ms < 2 ^ 32 /\ 0 <= be_val ss < 2 ^ 32 /\
    be_bytes 4 (be_val ms) = ms /\ be_bytes 4 (be_val ss) = ss.
Proof.
  intros W Hp Hge. pose proof (length_buf_rest b W Hp) as Hl. wf_facts b W. unfold OBUS_PKT_HDR_SIZE in *.
  assert (Forall is_byte (buf_rest b)) as HB by (apply Forall_drop, buf_bytes_byte, W).
  destruct (buf_rest b) as [|m0 [|m1 [|m2 [|m3 [|s0 [|s1 [|s2 [|s3 [|t rest]]]]]]]]] eqn:Hr;
    cbn [length] in Hl; try lia.
  split.
  { unfold obus_buffer_read_length in Hge. destruct (Z.ltb_spec (buf_pos b) (buf_length b)); [|lia].
    rewrite u64_small in Hge by wrap_lia. lia. }
  apply (Forall_app _ [m0; m1; m2; m3] (s0 :: _)) in HB as [HBm HB].
  apply (Forall_app _ [s0; s1; s2; s3] (t :: _)) in HB as [HBs _].
  exists m0, m1, m2, m3, s0, s1, s2, s3, t, rest.
  split; [done|]. split; [apply (be_val_range _ HBm)|]. split; [apply (be_val_range _ HBs)|].
  split; [apply (be_bytes_be_val _ HBm)|apply (be_bytes_be_val _ HBs)].
Qed.

Definition scans (fuel : nat) (d : obus_packet_decoder) (b : buffer) (d1 : obus_packet_decoder) (b1 : buffer)
    (m : mem) : Prop :=
  wp (header_scan fuel d1 b1)
     (fun r m' => let '(ret, d', b') := r in m' = m /\ scan_post d b ret d' b') m.

(** No header here: the scan goes on from the next byte. *)
Lemma scan_next fuel d d1 b m :
  (forall d b, buf_wf b -> buf_pos b <= buf_length b -> (length (buf_rest b) <= fuel)%nat -> scans fuel d b d b m) ->
  buf_wf b -> (length (buf_rest b) <= S fuel)%nat -> buf_pos b + 9 <= buf_length b -> header_at (buf_rest b) = None ->
  (forall h v, with_hdr d1 h v = with_hdr d h v) -> d_hdr_valid d1 = d_hdr_valid d -> d_log_hdr d1 = d_log_hdr d ->
  scans fuel d b d1 (with_pos b (buf_pos b + 1)) m.
Proof.
  intros IH W Hf H1 Hh E1 E2 E3. wf_facts b W.
  assert (exists x l, buf_rest b = x :: l) as (x & l & Hr).
  { pose proof (length_buf_rest b W ltac:(lia)) as Hl. destruct (buf_rest b) as [|x l]; [|by eexists _, _].
    unfold obus_buffer_read_length in Hl. destruct (Z.ltb_spec (buf_pos b) (buf_length b)); [|lia].
    rewrite u64_small in Hl by wrap_lia. cbn in Hl. lia. }
  eapply wp_mono.
  - apply IH; [apply buf_wf_with_pos; [done|lia]|cbn [buf_pos buf_length with_pos]; lia|].
    rewrite Hr in Hf. rewrite buf_rest_with_pos, Hr by lia. change (Z.to_nat 1) with 1%nat. cbn [drop length] in Hf |- *. rewrite drop_0. lia.
  - intros [[ret d'] b'] m' [-> HP]. split; [done|]. rewrite Hr in Hh. by eapply scan_post_step.
Qed.

(** The header found: what is before it leaves the buffer. *)
Lemma scan_found d b m0 m1 m2 m3 s0 s1 s2 s3 t rest m :
  buf_wf b -> buf_pos b + 9 <= buf_length b -> buf_rest b = [m0; m1; m2; m3] ++ [s0; s1; s2; s3] ++ t :: rest ->
  be_val [m0; m1; m2; m3] = obus_magic -> t < OBUS_PKT_COUNT ->
  wp (buf ← obus_buffer_remove_first (with_pos b (buf_pos b + 9)) (buf_pos b);
      mret (0, with_hdr d (Header obus_magic (be_val [s0; s1; s2; s3]) t) true, buf))
     (fun r m' => let '(ret, d', b') := r in m' = m /\ scan_post d b ret d' b') m.
Proof.
  intros W H9 Hr Hm Ht. wf_facts b W.
  apply wp_bind, wp_remove_first; [apply buf_wf_with_pos; [done|lia]|lia|].
  intros b' W' Hb Hsz Hrc Hpos. apply wp_ret. split; [done|]. split_and!; [done..|].
  rewrite Hr. cbn [app find_header header_at].
  rewrite (proj2 (Z.eqb_eq _ _) Hm), (proj2 (Z.ltb_lt _ _) Ht). cbn [andb].
  split_and!; [done..| |].
  - rewrite Hb, Nat.add_0_r. done.
  - rewrite Hpos. unfold pos_after_remove, OBUS_PKT_HDR_SIZE. cbn [buf_length buf_pos with_pos].
    repeat (case_bool; cbn [orb]); lia.
Qed.

Lemma wp_header_scan fuel d b m :
  buf_wf b -> buf_pos b <= buf_length b -> (length (buf_rest b) <= fuel)%nat -> scans fuel d b d b m.
Proof.
  revert d b. induction fuel as [|fuel IH]; intros d b W Hp Hf; unfold scans; rewrite header_scan_unfold.
  { rewrite (proj2 (Z.ltb_lt _ _)); [apply wp_scan_stop; [done..|lia]|].
    rewrite <- length_buf_rest by done. unfold OBUS_PKT_HDR_SIZE. lia. }
  pose proof (length_buf_rest b W Hp) as Hl. wf_facts b W.
  destruct (Z.ltb_spec (obus_buffer_read_length b) OBUS_PKT_HDR_SIZE) as [Hlt|Hge]; [apply wp_scan_stop; [done..|unfold OBUS_PKT_HDR_SIZE in *; lia]|].
  destruct (header_bytes b W Hp Hge) as (H9 & m0 & m1 & m2 & m3 & s0 & s1 & s2 & s3 & t & rest & Hr & Rm & Rs & Em & Es).
  unfold obus_buffer_get_read_position. cbn zeta. apply wp_bind. eapply wp_mono.
  { eapply (reads_u32 (be_val [m0; m1; m2; m3])); [exact Rm|done|]. rewrite Em. exact Hr. }
  intros r m' [-> ->]. rewrite Em. cbn [default length]. unfold id.
  assert (forall p', snd (obus_buffer_set_read_position (with_pos b p') (u64 (buf_pos b + 1)))
    = with_pos b (buf_pos b + 1)) as Hset.
  { intros p'. unfold obus_buffer_set_read_position. rewrite u64_small by wrap_lia.
    cbn [buf_length with_pos]. destruct (Z.ltb_spec (buf_length b) (buf_pos b + 1)); [lia|done]. }
  destruct (Z.eqb_spec (be_val [m0; m1; m2; m3]) obus_magic) as [Hm|Hm]; cbn [negb].
  2:{ rewrite Hset. apply scan_next; [done|done|done|lia| |done..]. rewrite Hr. cbn [app header_at].
      by rewrite (proj2 (Z.eqb_neq _ _) Hm). }
  assert (buf_rest (with_pos b (buf_pos b + Z.of_nat 4)) = be_bytes 4 (be_val [s0; s1; s2; s3]) ++ t :: rest) as Hr4.
  { rewrite buf_rest_with_pos, Hr, Es by lia. done. }
  assert (buf_wf (with_pos b (buf_pos b + Z.of_nat 4))) as W4 by (apply buf_wf_with_pos; [done|lia]).
  apply wp_bind. eapply wp_mono; [eapply (reads_u32 _ Rs); [exact W4|exact Hr4]|].
  intros r m' [-> ->]. rewrite Es. cbn [default length]. unfold id.
  destruct (after_read _ _ _ W4 Hr4) as [W8 Hr8]. rewrite Es in W8, Hr8. cbn [length] in W8, Hr8.
  apply wp_bind. eapply wp_mono; [eapply (reads_u8 t); [exact W8|exact Hr8]|].
  intros r m' [-> ->]. cbn [default length hdr_type]. unfold id.
  change (with_pos (with_pos (with_pos b ?p) ?q) ?r) with (with_pos b r).
  destruct (Z.leb_spec OBUS_PKT_COUNT t) as [Ht|Ht].
  { rewrite Hset. apply scan_next; [done|done|done|lia| |done..]. rewrite Hr. cbn [app header_at].
    rewrite (proj2 (Z.ltb_ge _ _) Ht), andb_false_r. done. }
  cbn [buf_pos with_pos].
  replace (buf_pos b + Z.of_nat 4 + Z.of_nat 4 + Z.of_nat 1) with (buf_pos b + 9) by lia.
  rewrite Hm. by eapply scan_found.
Qed.
End Scan.

(** ** Framing *)

Definition packet_size (bs : list Z) : Z := OBUS_PKT_HDR_SIZE + Z.of_nat (length bs).

(** A packet of type [type] with the payload [bs]. *)
Definition packet_wire (type : Z) (bs : list Z) : list Z :=
  be_bytes 4 obus_magic ++ be_bytes 4 (packet_size bs) ++ [type] ++ bs.

Lemma length_packet_wire type bs : Z.of_nat (length (packet_wire type bs)) = packet_size bs.
Proof.
  unfold packet_wire, packet_size, OBUS_PKT_HDR_SIZE.
  rewrite !length_app, !length_be_bytes. cbn [length]. lia.
Qed.

Lemma header_at_wire type bs rest :
  packet_size bs < 2 ^ 32 -> 0 <= type < OBUS_PKT_COUNT ->
  header_at (packet_wire type bs ++ rest) = Some (packet_size bs, type).
Proof.
  intros Hs Ht. unfold packet_wire. rewrite !be_bytes_4. cbn [app header_at].
  rewrite <- !be_bytes_4, !be_val_be_bytes.
  assert (packet_size bs mod 256 ^ Z.of_nat 4 = packet_size bs) as ->.
  { apply Z.mod_small. unfold packet_size, OBUS_PKT_HDR_SIZE in *. lia. }
  rewrite (proj2 (Z.ltb_lt _ _)) by lia. reflexivity.
Qed.

Section Framing.
Context {AL : Allocator}.

Definition frame_post (type : Z) (bs : list Z) (b : buffer) (m : mem) (r : Z * buffer) (m' : mem) : Prop :=
  same_blocks m m' /\ buf_wf (snd r) /\ buf_pos (snd r) = buf_pos b /\
  buf_refcnt (snd r) = buf_refcnt b /\
  ((fst r = 0 /\ buf_bytes (snd r) = packet_wire type bs) \/
   (fst r = - ENOMEM /\ refused (packet_size bs))).

Lemma wp_encode_packet type payload bs b m :
  emits m payload bs -> buf_wf b -> is_byte type -> packet_size bs < 2 ^ 32 ->
  wp (encode_packet type payload b) (frame_post type bs b m) m.
Proof.
  intros Hp W Ht Hs. wf_facts b W. unfold encode_packet.
  assert (buf_wf (obus_buffer_clear b)) as Wc by (apply buf_wf_with_length; [done|lia]).
  assert (forall m' b', same_blocks m m' -> buf_wf b' -> buf_pos b' = buf_pos b ->
    buf_refcnt b' = buf_refcnt b -> refused (packet_size bs) -> wp (mret (- ENOMEM, b')) (frame_post type bs b m) m') as Hend.
  { intros m' b' Hm W' E E' Hr. apply wp_ret. split_and!; [done..|]. by right. }
  unfold packet_size, OBUS_PKT_HDR_SIZE in *.
  apply wp_bind, wp_reserve; [done|lia| |]; cbn [failed Z.ltb Z.compare Z.opp ENOMEM].
  2:{ intros m' Hm Hr. apply Hend; [done..|]. eapply refused_mono; [|exact Hr]. cbn. lia. }
  intros b1 m1 gap Hm1 Hgap G1. destruct gap as [|g0 [|g1 [|g2 [|g3 [|g4 [|g5 [|g6 [|g7 [|g8 [|? ?]]]]]]]]]];
    cbn in Hgap; try lia.
  pose proof (gr_bytes _ _ _ G1) as Hb1. change (buf_bytes (obus_buffer_clear b)) with (@nil Z) in Hb1.
  cbn [app] in Hb1.
  pose proof (grown_length _ _ _ Wc G1) as Hl1. cbn in Hl1.
  eapply wp_bind_mono; [apply Hp; [done|apply G1]|].
  intros [r b2] m2 (Hm2 & bs' & G2 & [[Hr ->]|[Hr Hf]]); cbn [fst snd] in *; subst r;
    cbn [failed Z.ltb Z.compare Z.opp ENOMEM].
  2:{ apply Hend; [by transitivity m1|apply G2|rewrite (gr_pos _ _ _ G2), (gr_pos _ _ _ G1); done|rewrite (gr_ref _ _ _ G2), (gr_ref _ _ _ G1); done|].
      eapply refused_mono; [|exact Hf]. lia. }
  pose proof (gr_bytes _ _ _ G2) as Hb2. rewrite Hb1 in Hb2. cbn [app] in Hb2.
  pose proof (gr_wf _ _ _ G2) as W2. pose proof (grown_length _ _ _ (gr_wf _ _ _ G1) G2) as Hl2.
  unfold obus_packet_encode_header. apply wp_bind.
  eapply (wp_write_u32 _ _ _ [] g0 g1 g2 g3); [done|exact Hb2|done|]. intros b3 R3.
  cbn [failed Z.ltb Z.compare app]. apply wp_bind.
  eapply (wp_write_u32 _ _ _ (be_bytes 4 obus_magic) g4 g5 g6 g7); [apply R3|apply R3|done|].
  intros b4 R4. cbn [failed Z.ltb Z.compare]. apply wp_bind.
  eapply (wp_write_u8 _ _ _ (be_bytes 4 obus_magic ++ be_bytes 4 _) g8);
    [apply R4|rewrite <- app_assoc; apply R4|done|done|]. intros b5 R5.
  cbn [failed Z.ltb Z.compare]. apply wp_ret. split_and!; [by transitivity m1|apply R5| | |].
  - cbn [snd]. rewrite (rw_pos _ _ _ R5), (rw_pos _ _ _ R4), (rw_pos _ _ _ R3), (gr_pos _ _ _ G2).
    by rewrite (gr_pos _ _ _ G1).
  - cbn [snd]. rewrite (rw_ref _ _ _ R5), (rw_ref _ _ _ R4), (rw_ref _ _ _ R3), (gr_ref _ _ _ G2).
    by rewrite (gr_ref _ _ _ G1).
  - left. split; [done|]. cbn [snd]. rewrite (rw_bytes _ _ _ R5), <- app_assoc. unfold packet_wire.
    f_equal. f_equal. f_equal. unfold packet_size, OBUS_PKT_HDR_SIZE, obus_buffer_length.
    rewrite (rw_length _ _ _ R3). rewrite u32_small by lia. lia.
Qed.

(** Reading back a packet that is whole in the buffer, from its first byte. *)
Lemma wp_decoder_read fuel d b script type bs rest
    (Q : option obus_packet_info -> world -> mem -> Prop) w m :
  buf_wf b -> buf_pos b = 0 -> buf_bytes b = packet_wire type bs ++ rest ->
  d_hdr_valid d = false -> 0 <= type < OBUS_PKT_COUNT -> packet_size bs < 2 ^ 32 ->
  (forall b1, buf_wf b1 -> buf_pos b1 = OBUS_PKT_HDR_SIZE -> buf_rest b1 = bs ++ rest ->
     wpw (decode_payload_of type b1)
       (fun r w' m' => let '(ret, info, b2) := r in ret = 0 /\ moved b1 b2 /\ Q info w' m') w m) ->
  wpw (obus_packet_decoder_read (S fuel) d b script)
      (fun r w' m' => let '(ret, info, d', b', script') := r in
         ret = 0 /\ Q info w' m' /\ script' = script /\ d_hdr_valid d' = false /\
         (buf_wf b' /\ buf_refcnt b' = buf_refcnt b) /\ buf_pos b' = 0 /\ buf_bytes b' = rest) w m.
Proof.
  intros W Hp Hb Hd Ht Hs Hdec. unfold obus_packet_decoder_read. cbn [decoder_loop].
  wf_facts b W. pose proof (length_buf_bytes b W) as Hl.
  apply wpw_bind. unfold decoder_turn. apply wpw_bind, wpw_ret. cbn [Z.ltb Z.eqb Z.compare]. rewrite Hd.
  apply wpw_bind, wpw_lift. unfold obus_packet_decode_header, scan_fuel.
  assert (length (packet_wire type bs ++ rest) = length (buf_bytes b)) as Hlw by by rewrite Hb.
  rewrite length_app in Hlw. pose proof (length_packet_wire type bs) as Hlp.
  eapply wp_mono; [apply wp_header_scan; [done|lia|]|].
  { rewrite <- length_buf_rest by (done || lia). lia. }
  intros [[ret d1] b1] m1 [-> (W1 & Hsz1 & Hrc1 & HP)].
  assert (buf_rest b = packet_wire type bs ++ rest) as Hr.
  { unfold buf_rest. by rewrite Hp, Hb. }
  assert (find_header (buf_rest b) = Some (O, (packet_size bs, type))) as Hfind.
  { rewrite Hr. pose proof (header_at_wire type bs rest Hs Ht) as Hh.
    destruct (packet_wire type bs ++ rest); cbn [find_header]; by rewrite Hh. }
  rewrite Hfind in HP. destruct HP as (-> & -> & Hb1 & Hp1). rewrite Hp in Hb1. cbn [failed Z.ltb Z.compare].
  change (drop _ (buf_bytes b)) with (buf_bytes b) in Hb1. rewrite Hb in Hb1.
  pose proof (length_buf_bytes b1 W1) as Hl1. rewrite Hb1, length_app in Hl1. wf_facts b1 W1.
  cbn [d_hdr with_hdr hdr_size hdr_type]. unfold obus_buffer_length.
  destruct (Z.ltb_spec (buf_length b1) (packet_size bs)); [lia|].
  apply wpw_bind. unfold decode_packet. cbn [d_hdr with_hdr hdr_size hdr_type]. apply wpw_bind.
  eapply wpw_mono; [apply (Hdec b1 W1 Hp1)|].
  { unfold buf_rest. rewrite Hp1, Hb1. unfold packet_wire. rewrite <- !app_assoc.
    rewrite !be_bytes_4. reflexivity. }
  intros [[ret info] b2] w' m' (-> & (p2 & -> & Hp2) & HQ). apply wpw_bind, wpw_lift.
  assert (0 <= packet_size bs) as Hs0 by (unfold packet_size, OBUS_PKT_HDR_SIZE; lia).
  apply wp_remove_first; [by apply buf_wf_with_pos|done|].
  intros b3 W3 Hb3 _ Hrc3 _. cbn zeta. apply wpw_ret. cbn [Z.eqb]. apply wpw_ret, wpw_ret.
  wf_facts b3 W3. unfold obus_buffer_set_read_position.
  destruct (Z.ltb_spec (buf_length b3) 0); [lia|]. cbn [snd].
  split_and!; [done|done|done|done|apply buf_wf_with_pos; [done|lia]|by rewrite <- Hrc1|done|].
  change (buf_bytes (with_pos b3 0)) with (buf_bytes b3). rewrite Hb3.
  change (buf_bytes (with_pos b1 p2)) with (buf_bytes b1). rewrite Hb1.
  replace (Z.to_nat (packet_size bs)) with (length (packet_wire type bs)) by lia.
  apply drop_app_length.
Qed.
End Framing.

Section Theorems.
Context {AL : Allocator}.

Definition conreq_wire (client bus : option (list Z)) (crc : Z) : list Z :=
  [OBUS_PROTOCOL_VERSION] ++ string_wire bus ++ be_bytes 4 crc ++ string_wire client.

Lemma emits_conreq m client bus crc oc ob :
  cstr_chars m client = Some oc -> wire_string oc -> cstr_chars m bus = Some ob -> wire_string ob ->
  emits m (conreq_payload client bus crc) (conreq_wire oc ob crc).
Proof.
  intros Hc Wc Hb Wb. unfold conreq_payload, conreq_wire.
  apply (emits_seq m (fun b => obus_buffer_append_u8 b OBUS_PROTOCOL_VERSION));
    [apply emits_append_u8; unfold is_byte, OBUS_PROTOCOL_VERSION; lia|].
  apply (emits_seq m (fun b => obus_buffer_append_string b bus)); [by apply emits_append_string|].
  apply (emits_seq m (fun b => obus_buffer_append_u32 b crc)); [apply emits_append_u32|].
  by apply emits_append_string.
Qed.

Definition ack_wire (handle status : Z) : list Z := be_bytes 2 handle ++ [u8 status].

Lemma emits_ack m ack :
  emits m (ack_payload ack) (ack_wire (ack_handle ack) (call_status_num (ack_status ack))).
Proof.
  unfold ack_payload, ack_wire.
  apply (emits_seq m (fun b => obus_buffer_append_u16 b (ack_handle ack))); [apply emits_append_u16|].
  apply emits_append_u8, u8_range.
Qed.

(** What [encode_packet] leaves in the buffer is the frame of the
    payload: magic, total size, type, payload, whatever the buffer held; the
    only failure is for lack of memory.  This is the body of the eight encoders
    of obus_packet.c. *)
Theorem encode_packet_frames type payload bs b m :
  emits m payload bs -> buf_wf b -> is_byte type -> packet_size bs < 2 ^ 32 ->
  wp (encode_packet type payload b)
     (fun r m' => same_blocks m m' /\ buf_wf (snd r) /\ buf_pos (snd r) = buf_pos b /\
        ((fst r = 0 /\ buf_bytes (snd r) = packet_wire type bs) \/
         (fst r = - ENOMEM /\ refused (packet_size bs)))) m.
Proof.
  intros Hp W Ht Hs. eapply wp_mono; [by apply wp_encode_packet|].
  intros r m' (? & ? & ? & _ & ?). by split_and!.
Qed.

(** C3: header detection always ends, and synchronises on any stream.  When
    the unread bytes hold a header (magic and a known type), it returns 0 with
    the first one, everything before it dropped; otherwise it returns -EAGAIN
    and keeps the last 8 bytes, which is enough: a header that later bytes
    complete starts within them. *)
Theorem decode_header_finds_first d b m :
  buf_wf b -> buf_pos b <= buf_length b ->
  wp (obus_packet_decode_header d b)
     (fun r _ => let '(ret, d', b') := r in
        buf_wf b' /\
        match find_header (buf_rest b) with
        | Some (i, (size, type)) =>
          ret = 0 /\ d_hdr d' = Header obus_magic size type /\ d_hdr_valid d' = true /\
          header_at (buf_bytes b') = Some (size, type) /\
          buf_bytes b' = drop (Z.to_nat (buf_pos b) + i) (buf_bytes b) /\
          buf_pos b' = OBUS_PKT_HDR_SIZE /\
          (forall j, (j < i)%nat -> header_at (drop j (buf_rest b)) = None)
        | None =>
          ret = - EAGAIN /\ d_hdr_valid d' = d_hdr_valid d /\
          buf_bytes b' = drop (length (buf_bytes b) - 8) (buf_bytes b) /\
          forall more i h, header_at (drop i (buf_rest b ++ more)) = Some h ->
            (length (buf_rest b) <= i + 8)%nat
        end) m.
Proof.
  intros W Hp. unfold obus_packet_decode_header, scan_fuel. wf_facts b W.
  eapply wp_mono; [apply wp_header_scan; [done|done|rewrite <- length_buf_rest by done; lia]|].
  intros [[ret d'] b'] m' [_ (W' & _ & _ & HP)]. split; [done|].
  destruct (find_header (buf_rest b)) as [[i [size type]]|] eqn:E.
  - destruct HP as (-> & -> & Hb & Hpos). destruct (find_header_Some _ _ _ E) as [Hh _].
    split_and!; [done..| |done|done|].
    + rewrite Hb. unfold buf_rest in Hh. by rewrite drop_drop in Hh.
    + clear -E. revert i E. induction (buf_rest b) as [|x l IH]; intros i E j Hj; [done|].
      cbn [find_header] in E. destruct (header_at (x :: l)) eqn:Eh; [injection E as <- _; lia|].
      destruct (find_header l) as [[k h]|]; [|done]. injection E as <- ->.
      destruct j as [|j]; [done|]. cbn. apply (IH k eq_refl). lia.
  - destruct HP as (-> & Hv & _ & Hb & _). split_and!; [done..|].
    intros more i h Hh. destruct (Nat.le_gt_cases (length (buf_rest b)) (i + 8)) as [|Hlt]; [done|exfalso].
    rewrite drop_app_le in Hh by lia. pose proof (find_header_None _ i E) as Hn.
    assert (9 <= length (drop i (buf_rest b)))%nat as H9 by (rewrite length_drop; lia).
    destruct (drop i (buf_rest b)) as [|a0 [|a1 [|a2 [|a3 [|a4 [|a5 [|a6 [|a7 [|a8 l]]]]]]]]];
      cbn [length] in H9; try lia. cbn [app] in Hh. cbn [header_at] in Hn, Hh. congruence.
Qed.

(** Reading a connection request from a buffer that holds one. *)
Lemma wp_read_conreq `{!AmpleMemory AL} oc ob crc d rb script rest fuel w m :
  mem_wf m -> wire_string oc -> wire_string ob -> 0 <= crc < 2 ^ 32 ->
  packet_size (conreq_wire oc ob crc) < 2 ^ 32 -> buf_wf rb -> buf_pos rb = 0 ->
  buf_bytes rb = packet_wire OBUS_PKT_CONREQ (conreq_wire oc ob crc) ++ rest -> d_hdr_valid d = false ->
  wpw (obus_packet_decoder_read (S fuel) d rb script)
      (fun x _ m2 => let '(ret, info, d', rb', script') := x in
         ret = 0 /\ script' = script /\ d_hdr_valid d' = false /\ buf_bytes rb' = rest /\
         exists bus' client', info = Some (InfoConreq (Conreq OBUS_PROTOCOL_VERSION bus' crc client')) /\
           cstr_chars m2 bus' = Some ob /\ cstr_chars m2 client' = Some oc) w m.
Proof.
  intros Wm' Wc Wb Hcrc Hs Wr Hp Hrb Hd.
  eapply wpw_mono; [eapply (wp_decoder_read fuel d rb script OBUS_PKT_CONREQ (conreq_wire oc ob crc) rest
    (fun info _ m2 => exists bus' client',
       info = Some (InfoConreq (Conreq OBUS_PROTOCOL_VERSION bus' crc client')) /\
       cstr_chars m2 bus' = Some ob /\ cstr_chars m2 client' = Some oc)); try done|].
  2:{ intros [[[[ret' info] d'] rb'] script'] w' m2 (? & ? & ? & ? & _ & _ & ?). by split_and!. }
  intros b1 W1 Hp1 Hr1. cbn [decode_payload_of Z.eqb OBUS_PKT_CONREQ].
  unfold conreq_wire in Hr1. rewrite <- !app_assoc in Hr1.
  apply wpw_bind, wpw_lift. unfold obus_packet_conreq_decode.
  destruct (after_read _ _ _ W1 Hr1) as [W2 Hr2].
  apply wp_bind. eapply wp_mono; [eapply (reads_u8 OBUS_PROTOCOL_VERSION); [done|exact Hr1]|].
  intros r m2 [-> ->]. set (b2 := with_pos b1 _) in *.
  destruct (after_read _ _ _ W2 Hr2) as [W3 Hr3].
  apply wp_bind. eapply wp_mono; [eapply (reads_string b2 _ ob); [done|done|exact Hr2]|].
  intros r m3 (bus' & -> & Hn & Hbus). set (b3 := with_pos b2 _) in *. cbn [failed Z.ltb Z.compare].
  pose proof (new_string_grows _ _ _ Wm' Hn) as G3.
  destruct (after_read _ _ _ W3 Hr3) as [W4 Hr4].
  apply wp_bind. eapply wp_mono; [eapply (reads_u32 crc); [done|done|exact Hr3]|].
  intros r m4 [-> ->]. set (b4 := with_pos b3 _) in *.
  destruct (after_read _ _ _ W4 Hr4) as [W5 Hr5].
  apply wp_bind. eapply wp_mono; [eapply (reads_string b4 _ oc); [done|done|exact Hr4]|].
  intros r m5 (client' & -> & Hn' & Hcl). set (b5 := with_pos b4 _) in *. cbn [failed Z.ltb Z.compare].
  pose proof (new_string_grows _ _ _ (grows_wf _ _ G3) Hn') as G5.
  apply wp_ret, wpw_ret. split; [done|]. split.
  - exists (buf_pos b5). split; [done|]. split; [apply W5|]. apply W5.
  - exists bus', client'. split; [done|]. split; [|done]. by eapply cstr_chars_grows.
Qed.

(** A connection request crosses the wire: the bytes the client encodes,
    followed by anything, make the decoder of the server return 0 with the
    protocol version, the same crc and fresh copies of the two names, and
    leave exactly what followed, without reading the descriptor. *)
Theorem conreq_roundtrip `{!AmpleMemory AL} client bus crc oc ob b m :
  mem_wf m -> buf_wf b -> cstr_chars m client = Some oc -> wire_string oc ->
  cstr_chars m bus = Some ob -> wire_string ob -> 0 <= crc < 2 ^ 32 ->
  packet_size (conreq_wire oc ob crc) < 2 ^ 32 ->
  wp (obus_packet_conreq_encode b client bus crc)
     (fun r m' => fst r = 0 /\
        forall d rb script rest fuel w,
          buf_wf rb -> buf_pos rb = 0 -> buf_bytes rb = buf_bytes (snd r) ++ rest ->
          d_hdr_valid d = false ->
          wpw (obus_packet_decoder_read (S fuel) d rb script)
              (fun x _ m2 => let '(ret, info, d', rb', script') := x in
                 ret = 0 /\ script' = script /\ d_hdr_valid d' = false /\ buf_bytes rb' = rest /\
                 exists bus' client', info = Some (InfoConreq (Conreq OBUS_PROTOCOL_VERSION bus' crc client')) /\
                   cstr_chars m2 bus' = Some ob /\ cstr_chars m2 client' = Some oc) w m') m.
Proof.
  intros Wm W Hc Wc Hb Wb Hcrc Hs. unfold obus_packet_conreq_encode.
  eapply wp_mono; [by eapply wp_encode_packet; [by apply emits_conreq|..]|].
  intros [ret b'] m' (Hm & _ & _ & _ & [[Hr Hbytes]|[_ Hr]]); cbn [fst snd] in *;
    [|exfalso; eapply ample_not_refused; [|exact Hr]; unfold PTRDIFF_MAX; lia].
  split; [done|]. intros d rb script rest fuel w Wr Hp Hrb Hd. rewrite Hbytes in Hrb.
  apply wp_read_conreq; try done. by eapply same_blocks_wf.
Qed.

(** C16: an object crosses the wire, where no allocation is refused.  The packet that announces an object of a
    known description makes the decoder of the other side return 0 and a new
    object of its own: same description, same handle, not registered, its
    handlers empty, its info structure with the contents of the sent one.  No
    other object of the receiver changes, and what followed the packet stays. *)
Theorem object_add_roundtrip `{!AmpleMemory AL} p o cs b w m :
  mem_wf m -> buf_wf b -> w_objs w !! p = Some o -> object_sound m o cs ->
  packet_size (object_wire o cs) < 2 ^ 32 ->
  wpw (obus_packet_add_encode b p)
      (fun r w' m' => fst r = 0 /\ w' = w /\
         forall d dec rb script rest fuel wr,
           bus_loaded d wr -> ob_desc o ∈ bd_objects d ->
           buf_wf rb -> buf_pos rb = 0 -> buf_bytes rb = buf_bytes (snd r) ++ rest ->
           d_hdr_valid dec = false ->
           wpw (obus_packet_decoder_read (S fuel) dec rb script)
               (fun x w2 m2 => let '(ret, info, dec', rb', script') := x in
                  ret = 0 /\ script' = script /\ d_hdr_valid dec' = false /\ buf_bytes rb' = rest /\
                  info = Some (InfoAdd (w_next wr)) /\
                  exists o', w_objs w2 = <[w_next wr := o']> (w_objs wr) /\
                    ob_desc o' = ob_desc o /\ ob_handle o' = ob_handle o /\
                    ob_is_registered o' = false /\ Forall (eq 0) (ob_handlers o') /\
                    struct_shape (ob_info o') /\
                    struct_denotes m2 (ob_info o') (struct_back (od_info_desc (ob_desc o)) cs)) wr m')
      w m.
Proof.
  intros Wm W Hp S Hs. unfold obus_packet_add_encode. apply wpw_bind. eapply wpw_lookup; [exact Hp|].
  apply wpw_lift. eapply wp_mono; [by eapply wp_encode_packet; [by apply emits_object|..]|].
  intros [ret b'] m' (Hm & _ & _ & _ & [[Hr Hbytes]|[_ Hr]]); cbn [fst snd] in *;
    [|exfalso; eapply ample_not_refused; [|exact Hr]; unfold PTRDIFF_MAX; lia].
  split_and!; [done..|]. intros d dec rb script rest fuel wr HL Hin Wr Hpos Hrb Hd. rewrite Hbytes in Hrb.
  assert (mem_wf m') as Wm' by by eapply same_blocks_wf.
  eapply wpw_mono; [eapply (wp_decoder_read fuel dec rb script OBUS_PKT_ADD (object_wire o cs) rest
    (fun info w2 m2 => info = Some (InfoAdd (w_next wr)) /\
       exists o', w_objs w2 = <[w_next wr := o']> (w_objs wr) /\
         ob_desc o' = ob_desc o /\ ob_handle o' = ob_handle o /\
         ob_is_registered o' = false /\ Forall (eq 0) (ob_handlers o') /\
         struct_shape (ob_info o') /\
         struct_denotes m2 (ob_info o') (struct_back (od_info_desc (ob_desc o)) cs))); try done|].
  2:{ intros [[[[ret' info] d'] rb'] script'] w' m2 (? & (? & ?) & ? & ? & _ & _ & ?). by split_and!. }
  intros b1 W1 Hp1 Hr1. unfold decode_payload_of, map_info, obus_packet_add_decode, or_enoent.
  cbn [Z.eqb OBUS_PKT_ADD OBUS_PKT_CONREQ OBUS_PKT_CONRESP].
  destruct (after_read _ _ _ W1 Hr1) as [W2 _].
  apply wpw_bind, wpw_bind. eapply wp_object_add_decode; [exact S|exact HL|done..|exact Hr1|].
  intros st m2 G SS SD. apply wpw_ret, wpw_ret. split; [done|]. split.
  - eexists. split; [reflexivity|]. apply W2.
  - split; [done|]. eexists. split; [reflexivity|]. cbn. split_and!; [done..| |done|done].
    by apply Forall_replicate.
Qed.

(** Reading an ACK packet: the status is a byte. *)
Lemma wp_read_ack handle n d rb script rest fuel w m :
  0 <= handle < 2 ^ 16 -> buf_wf rb -> buf_pos rb = 0 ->
  buf_bytes rb = packet_wire OBUS_PKT_ACK (ack_wire handle n) ++ rest -> d_hdr_valid d = false ->
  wpw (obus_packet_decoder_read (S fuel) d rb script)
      (fun x w' m2 => let '(ret, info, d', rb', script') := x in
         ret = 0 /\ script' = script /\ buf_bytes rb' = rest /\ w' = w /\ m2 = m /\
         info = Some (InfoAck (Ack handle (call_status_of (u8 n))))) w m.
Proof.
  intros Hh Wr Hp Hrb Hd.
  eapply wpw_mono; [eapply (wp_decoder_read fuel d rb script OBUS_PKT_ACK (ack_wire handle n) rest
    (fun info w' m2 => w' = w /\ m2 = m /\ info = Some (InfoAck (Ack handle (call_status_of (u8 n)))))); try done|].
  2:{ intros [[[[ret' info] d'] rb'] script'] w' m2 (? & (? & ? & ?) & ? & ? & _ & _ & ?). by split_and!. }
  intros b1 W1 Hp1 Hr1. unfold decode_payload_of. cbn [Z.eqb OBUS_PKT_ACK OBUS_PKT_CONREQ].
  unfold ack_wire in Hr1. rewrite <- !app_assoc in Hr1.
  apply wpw_bind, wpw_lift. unfold obus_packet_ack_decode.
  destruct (after_read _ _ _ W1 Hr1) as [W2 Hr2].
  apply wp_bind. eapply wp_mono; [eapply (reads_u16 handle); [done|done|exact Hr1]|].
  intros r m2 [-> ->]. set (b2 := with_pos b1 _) in *.
  destruct (after_read _ _ _ W2 Hr2) as [W3 Hr3].
  apply wp_bind. eapply wp_mono; [eapply (reads_u8 (u8 n)); [done|exact Hr2]|].
  intros r m3 [-> ->]. apply wp_ret, wpw_ret. split; [done|]. split.
  - eexists. split; [reflexivity|]. apply W3.
  - done.
Qed.

(** An acknowledgment crosses the wire, on any memory: it is refused with
    -ENOMEM, or its bytes, followed by anything, decode to the same handle and
    status and leave what followed. *)
Theorem ack_roundtrip handle n b m :
  buf_wf b -> 0 <= handle < 2 ^ 16 -> 0 <= n < 2 ^ 8 ->
  wp (obus_packet_ack_encode b (Ack handle (call_status_of n)))
     (fun r m' => fst r = - ENOMEM \/ fst r = 0 /\
        forall d rb script rest fuel w,
          buf_wf rb -> buf_pos rb = 0 -> buf_bytes rb = buf_bytes (snd r) ++ rest ->
          d_hdr_valid d = false ->
          wpw (obus_packet_decoder_read (S fuel) d rb script)
              (fun x w' m2 => let '(ret, info, d', rb', script') := x in
                 ret = 0 /\ script' = script /\ buf_bytes rb' = rest /\ w' = w /\ m2 = m' /\
                 info = Some (InfoAck (Ack handle (call_status_of n)))) w m') m.
Proof.
  intros W Hh Hn. unfold obus_packet_ack_encode.
  eapply wp_mono; [eapply wp_encode_packet; [apply emits_ack|done| |]; done|].
  intros [ret b'] m' (Hm & _ & _ & _ & [[Hr Hbytes]|[Hr _]]); cbn [fst snd] in *; [right|by left].
  split; [done|]. intros d rb script rest fuel w Wr Hp Hrb Hd. rewrite Hbytes in Hrb.
  cbn [ack_handle ack_status] in Hrb. rewrite call_status_num_of in Hrb.
  rewrite <- (u8_small n) by done. by apply wp_read_ack.
Qed.

(** [k] turns of the loop, or fewer when one of them returns. *)
Fixpoint decoder_turns (k : nat) (read_more : bool) (d : obus_packet_decoder) (buf : buffer)
    (script : list sys_read) : W (turn_end * obus_packet_decoder * buffer * list sys_read) :=
  match k with
  | O => mret (Again read_more, d, buf, script)
  | S k' =>
    '(t, d, buf, script) ← decoder_turn read_more d buf script;
    match t with
    | Return _ _ => mret (t, d, buf, script)
    | Again read_more => decoder_turns k' read_more d buf script
    end
  end.

Lemma run_wbind {A B} (c : W A) (f : A -> W B) a w m w' m' :
  c w m = Some ((a, w'), m') -> (c ≫= f) w m = f a w' m'.
Proof. intros H. unfold mbind, W_bind, mbind, M_bind. by rewrite H. Qed.

Lemma decoder_loop_turns k fuel read_more d buf script w m read_more' d' buf' script' w' m' :
  decoder_turns k read_more d buf script w m = Some ((Again read_more', d', buf', script', w'), m') ->
  decoder_loop (k + fuel) read_more d buf script w m = decoder_loop fuel read_more' d' buf' script' w' m'.
Proof.
  revert read_more d buf script w m. induction k as [|k IH]; intros read_more d buf script w m E; cbn [Nat.add].
  { cbn in E. by injection E as -> -> -> -> -> ->. }
  cbn [decoder_turns decoder_loop] in *.
  destruct (decoder_turn read_more d buf script w m) as [[[[[[t d1] b1] sc1] w1] m1]|] eqn:Et.
  - rewrite (run_wbind _ _ _ _ _ _ _ Et). rewrite (run_wbind _ _ _ _ _ _ _ Et) in E. destruct t as [ret info|rm]; [done|]. by apply IH.
  - unfold mbind, W_bind, mbind, M_bind in E. by rewrite Et in E.
Qed.

(** The body of an acknowledgment is 3 bytes long. *)
Lemma wp_ack_decode_short b m :
  buf_wf b -> buf_pos b <= buf_length b -> (length (buf_rest b) < 3)%nat ->
  wp (obus_packet_ack_decode b) (fun r m' => m' = m /\ exists ret p,
    r = (ret, None, with_pos b p) /\ ret <> 0 /\ 0 <= p <= buf_length b) m.
Proof.
  intros W Hp Hl. pose proof (length_buf_rest b W Hp) as Hlr. wf_facts b W. unfold obus_packet_ack_decode.
  unfold obus_buffer_read_length in Hlr.
  assert (buf_length b - buf_pos b <= 2) as Hd.
  { revert Hlr. case_bool; [rewrite u64_small by wrap_lia|]; lia. }
  apply wp_bind. unfold obus_buffer_read_u16. rewrite u64_small by wrap_lia.
  destruct (Z.leb_spec (buf_length b) (buf_pos b + 1)).
  { apply wp_ret, wp_ret. split; [done|]. exists (- EINVAL), (buf_pos b).
    split; [by destruct b|]. split; [done|lia]. }
  do 2 (apply wp_bind; apply wp_data_get_byte; [exact W|lia|intros ? ? ?]). apply wp_ret.
  rewrite u64_small by wrap_lia. apply wp_bind. unfold obus_buffer_read_u8. cbn [buf_length buf_pos with_pos].
  destruct (Z.leb_spec (buf_length b) (buf_pos b + 2)); [|lia]. apply wp_ret, wp_ret. split; [done|].
  exists (- EAGAIN), (buf_pos b + 2). split; [done|]. split; [done|lia].
Qed.

(** A frame that announces no byte at all, not even its own header, and what may
    follow it. *)
Definition zero_frame (bytes : list Z) : Prop :=
  exists tail, (length tail < 3)%nat /\ bytes = be_bytes 4 obus_magic ++ be_bytes 4 0 ++ [OBUS_PKT_ACK] ++ tail.

Lemma wp_zero_frame_turn d b script w m :
  d_hdr_valid d = false -> buf_wf b -> buf_pos b = 0 -> zero_frame (buf_bytes b) ->
  wpw (decoder_turn false d b script) (fun r w' m' => w' = w /\ m' = m /\ exists d' b',
    r = (Again false, d', b', script) /\ d_hdr_valid d' = false /\
    buf_wf b' /\ buf_pos b' = 0 /\ buf_bytes b' = buf_bytes b) w m.
Proof.
  intros Hd W Hp (tail & Ht & Hb). unfold decoder_turn. pose proof (length_buf_bytes b W) as Hl. wf_facts b W.
  apply wpw_bind, wpw_ret. cbn [Z.ltb Z.eqb Z.compare]. rewrite Hd. apply wpw_bind, wpw_lift.
  assert (buf_rest b = buf_bytes b) as Hr by (unfold buf_rest; by rewrite Hp).
  unfold obus_packet_decode_header, scan_fuel. eapply wp_mono; [apply wp_header_scan; [done|lia|]|].
  { rewrite <- length_buf_rest by (done || lia). lia. }
  intros [[ret d1] b1] m1 [-> (W1 & _ & _ & HP)].
  assert (find_header (buf_rest b) = Some (O, (0, OBUS_PKT_ACK))) as Hf by (rewrite Hr, Hb; reflexivity).
  rewrite Hf in HP. destruct HP as (-> & -> & Hb1 & Hp1). rewrite Hp in Hb1.
  change (drop _ (buf_bytes b)) with (buf_bytes b) in Hb1. cbn [failed Z.ltb Z.compare d_hdr with_hdr hdr_size].
  pose proof (length_buf_bytes b1 W1) as Hl1. wf_facts b1 W1. unfold obus_buffer_length.
  destruct (Z.ltb_spec (buf_length b1) 0); [lia|].
  assert (buf_rest b1 = tail) as Hr1.
  { unfold buf_rest. rewrite Hp1, Hb1, Hb. reflexivity. }
  apply wpw_bind. unfold decode_packet. cbn [d_hdr with_hdr hdr_size hdr_type]. apply wpw_bind.
  unfold decode_payload_of, map_info.
  cbn [Z.eqb OBUS_PKT_ACK OBUS_PKT_CONREQ OBUS_PKT_CONRESP OBUS_PKT_ADD OBUS_PKT_REMOVE OBUS_PKT_EVENT OBUS_PKT_BUS_EVENT OBUS_PKT_CALL Pos.eqb].
  apply wpw_bind, wpw_lift. eapply wp_mono; [apply wp_ack_decode_short; [done| |by rewrite Hr1]|].
  { rewrite <- Hl1, Hb1, Hb, Hp1, !length_app, !length_be_bytes. cbn. unfold OBUS_PKT_HDR_SIZE. lia. }
  intros r m2 (-> & ret & p & -> & Hret & Hpp). apply wpw_ret, wpw_bind, wpw_lift.
  unfold obus_buffer_remove_first. cbn [Z.eqb orb]. apply wp_ret. cbn zeta. apply wpw_ret.
  rewrite (proj2 (Z.eqb_neq _ _) Hret). apply wpw_ret. split_and!; [done..|].
  unfold obus_buffer_set_read_position. cbn [buf_length with_pos]. destruct (Z.ltb_spec (buf_length b1) 0); [lia|].
  eexists _, _. split; [reflexivity|]. split_and!; [done|apply (buf_wf_with_pos (with_pos b1 p))|done|].
  - apply buf_wf_with_pos; [done|lia].
  - cbn. lia.
  - exact Hb1.
Qed.

(** C40: nine bytes hang the decoder.  A header with the size 0, an ACK, followed by
    fewer bytes than the body of an ACK, is found, fails to decode, and is removed
    for its size, 0 bytes: the turn of the loop of [obus_packet_decoder_read] is
    defined, and ends with another turn, on the same bytes, at the same position,
    without reading the descriptor, the world and the memory as they were.  So after any
    number [k] of turns, all of them defined, the decoder is where it started:
    the loop has no turn that returns, whatever arrives. *)
Theorem zero_size_packet_hangs k d b script w m :
  d_hdr_valid d = false -> buf_wf b -> buf_pos b = 0 -> zero_frame (buf_bytes b) ->
  exists d' b', decoder_turns k false d b script w m = Some ((Again false, d', b', script, w), m) /\
    d_hdr_valid d' = false /\ buf_wf b' /\ buf_pos b' = 0 /\ buf_bytes b' = buf_bytes b /\
    forall fuel, obus_packet_decoder_read (k + fuel) d b script w m
                 = obus_packet_decoder_read fuel d' b' script w m.
Proof.
  intros Hd W Hp HZ.
  assert (exists d' b', decoder_turns k false d b script w m = Some ((Again false, d', b', script, w), m) /\
    d_hdr_valid d' = false /\ buf_wf b' /\ buf_pos b' = 0 /\ buf_bytes b' = buf_bytes b) as (d' & b' & Hk & H).
  { revert d b Hd W Hp HZ. induction k as [|k IH]; intros d b Hd W Hp HZ; [by exists d, b|].
    destruct (wp_zero_frame_turn d b script w m Hd W Hp HZ)
      as ([r w1] & m1 & E & Hw & -> & d1 & b1 & Hr & Hd1 & W1 & Hp1 & Hb1).
    cbn [fst snd] in Hw, Hr. subst w1 r. cbn [decoder_turns]. rewrite (run_wbind _ _ _ _ _ _ _ E).
    destruct (IH d1 b1 Hd1 W1 Hp1) as (d' & b' & Hk & H1 & H2 & H3 & H4); [by rewrite Hb1|].
    exists d', b'. split_and!; [done..|]. by rewrite H4. }
  exists d', b'. destruct H as (H1 & H2 & H3 & H4). split_and!; [done..|].
  intros fuel. by apply decoder_loop_turns.
Qed.

(** the status of a connection response is checked one too far: the code
    accepts every status byte up to [OBUS_CONRESP_STATUS_COUNT] included, that
    is one value that is no status. *)
Theorem conresp_status_bound status b w m :
  buf_wf b -> 0 <= status < 2 ^ 8 ->
  buf_rest b = [status] ++ be_bytes 4 0 ->
  wpw (obus_packet_conresp_decode b)
      (fun r _ _ => let '(ret, resp, _) := r in
         if status <=? OBUS_CONRESP_STATUS_COUNT then ret = 0 /\ resp = Some (Conresp status [])
         else ret = - EINVAL /\ resp = None) w m.
Proof.
  intros W Hs Hr. unfold obus_packet_conresp_decode.
  eapply (wpw_read obus_buffer_read_u8 [status]); [apply reads_u8|done|exact Hr|]. intros b2 E2 W2 Hr2.
  destruct (Z.ltb_spec OBUS_CONRESP_STATUS_COUNT status) as [Hlt|Hge].
  { apply wpw_ret. by rewrite (proj2 (Z.leb_gt _ _) Hlt). }
  rewrite (proj2 (Z.leb_le _ _) Hge). rewrite <- (app_nil_r (be_bytes 4 0)) in Hr2.
  eapply (wpw_read_u32 0); [lia|done|exact Hr2|]. intros b3 E3 W3 Hr3.
  apply wpw_bind. apply wpw_ret. by apply wpw_ret.
Qed.
End Theorems.

Section Witnesses.
#[local] Existing Instance ample_alloc.

Definition wit_decoder : obus_packet_decoder := Decoder (Header 0 0 0) false false.
Definition wit_w : world :=
  World (zero_bus (BusApi wit_bus zero_hash zero_hash zero_hash zero_hash)) ∅ ∅ ∅ ∅ ∅ 1 [].

Lemma encode_packet_frames_witness :
  wp (encode_packet OBUS_PKT_ACK (ack_payload (Ack 5 OBUS_CALL_ACKED)) wit_buf)
     (fun r m' => same_blocks mem0 m' /\ buf_wf (snd r) /\ buf_pos (snd r) = 0 /\
        ((fst r = 0 /\ buf_bytes (snd r) = [111; 98; 117; 115; 0; 0; 0; 12; 7; 0; 5; 1]) \/
         (fst r = - ENOMEM /\ refused 12))) mem0.
Proof.
  apply (encode_packet_frames OBUS_PKT_ACK _ (ack_wire 5 1) wit_buf mem0).
  - apply (emits_ack mem0 (Ack 5 OBUS_CALL_ACKED)).
  - exact wit_buf_wf.
  - unfold is_byte, OBUS_PKT_ACK. lia.
  - vm_compute. reflexivity.
Defined.

(** Two stray bytes before a header. *)
Definition stray_buf : buffer :=
  Buffer 16 14 0 [1; 111; 111; 98; 117; 115; 0; 0; 0; 12; 7; 0; 5; 1; 0; 0] 1.

Lemma stray_buf_wf : buf_wf stray_buf.
Proof.
  constructor; cbn; [lia|lia|unfold PTRDIFF_MAX; lia|done|].
  repeat (apply Forall_cons; split; [unfold is_byte; lia|]). by apply Forall_nil.
Qed.

Lemma decode_header_finds_first_witness :
  find_header (buf_rest stray_buf) = Some (2%nat, (12, 7)) /\
  wp (obus_packet_decode_header wit_decoder stray_buf)
     (fun r _ => let '(ret, d', b') := r in
        buf_wf b' /\ ret = 0 /\ d_hdr d' = Header obus_magic 12 7 /\
        buf_bytes b' = [111; 98; 117; 115; 0; 0; 0; 12; 7; 0; 5; 1]) mem0.
Proof.
  split; [reflexivity|].
  eapply wp_mono; [apply (decode_header_finds_first wit_decoder stray_buf mem0)|].
  - exact stray_buf_wf.
  - cbn. lia.
  - intros [[ret d'] b'] m' (W & H1 & H2 & _ & _ & H3 & _). split_and!; [done..|]. exact H3.
Defined.

Lemma conreq_roundtrip_witness :
  wp (obus_packet_conreq_encode wit_buf (CHeap 1) CNull 77)
     (fun r m' => fst r = 0 /\
        forall rb, buf_wf rb -> buf_pos rb = 0 -> buf_bytes rb = buf_bytes (snd r) ++ [] ->
          wpw (obus_packet_decoder_read 1 wit_decoder rb [])
              (fun x _ m2 => let '(ret, info, d', rb', script') := x in
                 ret = 0 /\ script' = [] /\ d_hdr_valid d' = false /\ buf_bytes rb' = [] /\
                 exists bus' client', info = Some (InfoConreq (Conreq OBUS_PROTOCOL_VERSION bus' 77 client')) /\
                   cstr_chars m2 bus' = Some None /\ cstr_chars m2 client' = Some (Some [104; 105]))
              wit_w m') wit_mem.
Proof.
  eapply wp_mono;
    [apply (conreq_roundtrip (CHeap 1) CNull 77 (Some [104; 105]) None wit_buf wit_mem)|].
  - exact wit_mem_wf.
  - exact wit_buf_wf.
  - reflexivity.
  - split; [|done]. repeat (apply Forall_cons; split; [lia|]). by apply Forall_nil.
  - reflexivity.
  - exact I.
  - lia.
  - vm_compute. reflexivity.
  - intros [ret b'] m' [Hr H]. split; [exact Hr|]. intros rb Wr Hp Hb.
    exact (H wit_decoder rb [] [] 0%nat wit_w Wr Hp Hb eq_refl).
Defined.

(** An object whose info structure holds numbers, a string and arrays. *)
Definition wit_rich : obus_object_desc := ObjectDesc 12 1 wit_desc [wit_event] [wit_method].
Definition wit_rich_bus : obus_bus_desc := BusDesc [wit_rich] [BusEventDesc 41 1] 78.
Definition wit_rich_obj : obus_object := Object true true wit_rich 9 true 0 wit_struct [0].
Definition wit_rich_w : world :=
  World (zero_bus (BusApi wit_rich_bus zero_hash zero_hash zero_hash zero_hash))
    {[1%positive := wit_rich_obj]} ∅ ∅ ∅ ∅ 2 [].

Lemma wit_rich_loaded : exists wr, bus_loaded wit_rich_bus wr.
Proof.
  assert (bus_desc_ok wit_rich_bus) as D.
  { constructor; [apply NoDup_singleton..|].
    intros o ->%list_elem_of_singleton. cbn.
    unfold uid_ok. repeat split; try apply NoDup_singleton; try (apply Forall_singleton; cbn); lia. }
  destruct (wp_bus_api_init wit_rich_bus mem0
    (fun r m' => api_holds (snd r) (bd_objects wit_rich_bus) (bd_events wit_rich_bus) m') D)
    as ([ret api] & m' & _ & H); [done|].
  exists (World (zero_bus api) ∅ ∅ ∅ ∅ ∅ 1 []). split; [exact D|]. by exists m'.
Qed.

Lemma object_add_roundtrip_witness :
  exists wr, bus_loaded wit_rich_bus wr /\
  wpw (obus_packet_add_encode wit_buf 1)
      (fun r _ m' => fst r = 0 /\
         forall rb, buf_wf rb -> buf_pos rb = 0 -> buf_bytes rb = buf_bytes (snd r) ++ [] ->
           wpw (obus_packet_decoder_read 1 wit_decoder rb [])
               (fun x w2 m2 => let '(ret, info, _, _, _) := x in
                  ret = 0 /\ info = Some (InfoAdd (w_next wr)) /\
                  exists o', w_objs w2 = <[w_next wr := o']> (w_objs wr) /\
                    ob_desc o' = wit_rich /\ ob_handle o' = 9 /\
                    struct_denotes m2 (ob_info o') (struct_back wit_desc wit_contents)) wr m')
      wit_rich_w wit_mem.
Proof.
  destruct wit_rich_loaded as [wr Hwr]. exists wr. split; [exact Hwr|].
  eapply wpw_mono;
    [apply (object_add_roundtrip 1 wit_rich_obj wit_contents wit_buf wit_rich_w wit_mem)|].
  - exact wit_mem_wf.
  - exact wit_buf_wf.
  - reflexivity.
  - constructor; cbn [ob_info ob_desc ob_handle wit_rich_obj od_uid od_info_desc wit_rich].
    + reflexivity.
    + exact wit_struct_shape.
    + exact wit_struct_denotes.
    + exact wit_contents_ok.
    + unfold uid_ok. lia.
    + lia.
    + vm_compute. reflexivity.
    + vm_compute. congruence.
  - vm_compute. reflexivity.
  - intros [ret b'] w' m' (Hr & _ & H). split; [exact Hr|]. intros rb Wr Hp Hb.
    eapply wpw_mono; [apply (H wit_rich_bus wit_decoder rb [] [] 0%nat wr Hwr)|].
    + by apply list_elem_of_singleton.
    + exact Wr.
    + exact Hp.
    + exact Hb.
    + reflexivity.
    + intros [[[[ret' info] d'] rb'] script'] w2 m2 (H1 & _ & _ & _ & H2 & o' & H3 & H4 & H5 & _ & _ & _ & H6).
      split; [exact H1|]. split; [exact H2|]. exists o'. by split_and!.
Defined.

Lemma ack_roundtrip_witness :
  wp (obus_packet_ack_encode wit_buf (Ack 5 (call_status_of 3)))
     (fun r m' => fst r = - ENOMEM \/ fst r = 0 /\
        forall rb, buf_wf rb -> buf_pos rb = 0 -> buf_bytes rb = buf_bytes (snd r) ++ [1] ->
          wpw (obus_packet_decoder_read 1 wit_decoder rb [])
              (fun x w' m2 => let '(ret, info, d', rb', script') := x in
                 ret = 0 /\ script' = [] /\ buf_bytes rb' = [1] /\ w' = wit_w /\ m2 = m' /\
                 info = Some (InfoAck (Ack 5 OBUS_CALL_METHOD_DISABLED))) wit_w m') mem0.
Proof.
  eapply wp_mono; [apply (ack_roundtrip 5 3 wit_buf mem0)|].
  - exact wit_buf_wf.
  - lia.
  - lia.
  - intros [ret b'] m' [H|[Hr H]]; [by left|right]. split; [exact Hr|]. intros rb Wr Hp Hb.
    exact (H wit_decoder rb [] [1] 0%nat wit_w Wr Hp Hb eq_refl).
Defined.

(** The nine bytes, in an array of 16. *)
Definition hang_buf : buffer := Buffer 16 9 0 [111; 98; 117; 115; 0; 0; 0; 0; 7; 0; 0; 0; 0; 0; 0; 0] 1.

Lemma hang_buf_wf : buf_wf hang_buf.
Proof.
  constructor; cbn; [lia|lia|unfold PTRDIFF_MAX; lia|done|].
  repeat (apply Forall_cons; split; [unfold is_byte; lia|]). by apply Forall_nil.
Qed.

Lemma zero_size_packet_hangs_witness :
  exists d' b', decoder_turns 1000 false wit_decoder hang_buf [Incoming [1]] wit_w mem0
    = Some ((Again false, d', b', [Incoming [1]], wit_w), mem0) /\ buf_bytes b' = [111; 98; 117; 115; 0; 0; 0; 0; 7].
Proof.
  destruct (zero_size_packet_hangs 1000 wit_decoder hang_buf [Incoming [1]] wit_w mem0 eq_refl hang_buf_wf eq_refl
    ltac:(exists []; split; [cbn; lia|reflexivity])) as (d' & b' & H & _ & _ & _ & Hb & _).
  exists d', b'. split; [exact H|exact Hb].
Defined.

Definition conresp_buf : buffer := Buffer 5 5 0 [2; 0; 0; 0; 0] 1.

Lemma conresp_buf_wf : buf_wf conresp_buf.
Proof.
  constructor; cbn; [lia|lia|unfold PTRDIFF_MAX; lia|done|].
  repeat (apply Forall_cons; split; [unfold is_byte; lia|]). by apply Forall_nil.
Qed.

Lemma conresp_status_bound_witness :
  wpw (obus_packet_conresp_decode conresp_buf)
      (fun r _ _ => let '(ret, resp, _) := r in ret = 0 /\ resp = Some (Conresp 2 [])) wit_w mem0.
Proof.
  apply (conresp_status_bound 2 conresp_buf wit_w mem0).
  - exact conresp_buf_wf.
  - lia.
  - reflexivity.
Defined.
End Witnesses.
