(* ===== verification/EventWire.v ===== *)
(** * Object events: their wire format, and what sanitizing them removes

    The bytes of an event, the event a receiver makes of them, and the effect of
    [obus_event_sanitize] on its contents. *)
From S2P Require Import Prelude Mem Cstring Buffer Desc Field Struct Hash BusApi World Bus Object Event BusEvent Packet.

(** What a receiver has of an object [o] of the sender, in the world [w]: an object
    [o'] at [q], under the same handle and of the same description, which the bus
    describes. *)
Record knows_object (d : obus_bus_desc) (o : obus_object) (q : positive) (o' : obus_object)
    (w : world) (m : mem) : Prop := {
  ko_loaded : bus_loaded d w;
  ko_objects : objects_wf w m;
  ko_desc : ob_desc o ∈ bd_objects d;
  ko_handle : 0 <= ob_handle o < 2 ^ 16;
  ko_found : reg (b_objects_hash (w_bus w)) !! ob_handle o = Some q;
  ko_obj : w_objs w !! q = Some o';
  ko_same : ob_desc o' = ob_desc o
}.

(** ** Sanitizing *)

Section Sanitize.

(** The contents without the fields the event does not declare. *)
Definition keep_declared (desc : obus_event_desc) (f : obus_field_desc) (o : option fval) : option fval :=
  if update_declared desc f then o else None.

Definition sanitized (desc : obus_event_desc) (fs : list obus_field_desc) (cs : list (option fval))
  : list (option fval) := zip_with (keep_declared desc) fs cs.

(** The number of fields that are present and not declared. *)
Fixpoint undeclared (desc : obus_event_desc) (fs : list obus_field_desc) (cs : list (option fval)) : Z :=
  match fs, cs with
  | f :: fs', Some _ :: cs' => (if update_declared desc f then 0 else 1) + undeclared desc fs' cs'
  | _ :: fs', None :: cs' => undeclared desc fs' cs'
  | _, _ => 0
  end.

(** The body of the loop. *)
Notation sanitize_body desc is_server := (fun '(i, f) '(ret, st) =>
  b ← obus_struct_has_field st i;
  if negb b then mret (ret, st) else
  if update_declared desc f then mret (ret, st) else
  if is_server : bool then
    '(_, st) ← obus_struct_clear_has_field st i;
    mret (ret + 1, st)
  else mret (ret + 1, st)).

(** The structure keeps its cells but for the words of the bitset, and the fields
    before [k] were treated. *)
Record swept (desc : obus_event_desc) (is_server : bool) (st0 st : obus_struct) (k : nat) : Prop := {
  sw_shape : struct_shape st;
  sw_changes : changes_at (word_offsets (st_desc st0)) st0 st;
  sw_has : forall j f, sd_fields (st_desc st0) !! j = Some f ->
    has st j = if is_server && (j <? k)%nat then has st0 j && update_declared desc f else has st0 j
}.

Lemma wp_sweep_field desc is_server st0 st i f n m (Q : Z * obus_struct -> mem -> Prop) :
  swept desc is_server st0 st i -> sd_fields (st_desc st0) !! i = Some f ->
  (forall st', swept desc is_server st0 st' (S i) ->
     Q (n + (if has st0 i && negb (update_declared desc f) then 1 else 0), st') m) ->
  wp (sanitize_body desc is_server (i, f) (n, st)) Q m.
Proof.
  intros [SS [Hd Hc] Hh] Hf HQ. pose proof (lookup_lt_Some _ _ _ Hf) as Hi.
  assert (has st i = has st0 i) as Hhi by (rewrite (Hh i f Hf), Nat.ltb_irrefl; by rewrite andb_false_r).
  assert (has st0 i && negb (update_declared desc f) = false \/ is_server = false -> swept desc is_server st0 st (S i)) as Hsame.
  { intros Hu. split; [done|by split|]. intros j g Hg. rewrite (Hh j g Hg).
    destruct (Nat.lt_trichotomy j i) as [Hj|[->|Hj]].
    - by rewrite (proj2 (Nat.ltb_lt j i)), (proj2 (Nat.ltb_lt j (S i))) by lia.
    - rewrite Nat.ltb_irrefl, (proj2 (Nat.ltb_lt i (S i))) by lia. simplify_eq.
      destruct is_server; cbn [andb]; [|done]. destruct Hu as [Hu|]; [|done].
      destruct (has st0 i), (update_declared desc f); done.
    - by rewrite (proj2 (Nat.ltb_ge j i)), (proj2 (Nat.ltb_ge j (S i))) by lia. }
  apply wp_bind, wp_has_field; [done|by rewrite Hd|]. rewrite Hhi.
  destruct (has st0 i) eqn:E; cbn [negb andb] in *; [|apply wp_ret; rewrite <- (Z.add_0_r n); auto].
  destruct (update_declared desc f) eqn:Eu; cbn [negb] in *; [apply wp_ret; rewrite <- (Z.add_0_r n); auto|].
  destruct is_server; [|apply wp_ret; auto].
  apply wp_bind, wp_clear_has_field; [done|by rewrite Hd|]. intros st' SS' Hch Hh'. apply wp_ret, HQ.
  rewrite Hd in Hch. split; [done|by eapply changes_at_trans; [split|]|].
  intros j g Hg. rewrite Hh', (Hh j g Hg). cbn [andb]. case_decide as Hj.
  - subst j. rewrite (proj2 (Nat.ltb_lt i (S i))) by lia. simplify_eq. by rewrite Eu, andb_false_r.
  - destruct (Nat.ltb_spec j i), (Nat.ltb_spec j (S i)); try lia; done.
Qed.

Lemma wp_sanitize_fields desc is_server st0 fs cs k st n m (Q : Z * obus_struct -> mem -> Prop) :
  swept desc is_server st0 st k -> length cs = length fs ->
  (forall i f o, fs !! i = Some f -> cs !! i = Some o ->
     sd_fields (st_desc st0) !! (k + i)%nat = Some f /\ has st0 (k + i)%nat = bool_decide (is_Some o)) ->
  (forall st', swept desc is_server st0 st' (k + length fs) -> Q (n + undeclared desc fs cs, st') m) ->
  wp (for_all (imap (fun i f => ((k + i)%nat, f)) fs) (sanitize_body desc is_server) (n, st)) Q m.
Proof.
  revert cs k st n. induction fs as [|f fs IH]; intros [|o cs] k st n HS Hl H HQ; try done; cbn [imap].
  { apply wp_ret. rewrite <- (Z.add_0_r n). apply (HQ st). by rewrite Nat.add_0_r. }
  replace (imap ((fun i f => ((k + i)%nat, f)) ∘ S) fs)
    with (imap (fun i f => ((S k + i)%nat, f)) fs)
    by (apply imap_ext; intros i x _; cbn; f_equal; lia).
  destruct (H 0%nat f o eq_refl eq_refl) as [Hf Hh]. rewrite Nat.add_0_r in *. cbn [for_all].
  apply wp_bind. eapply wp_sweep_field; [done|done|]. intros st1 HS1.
  apply (IH cs (S k)); [done|by injection Hl| |].
  - intros i g o' Hg Ho. rewrite Nat.add_succ_comm. by apply (H (S i)).
  - intros st' HS'. cbn [length] in HQ. rewrite <- Nat.add_succ_comm in HQ. specialize (HQ st' HS').
    rewrite Hh. cbn [undeclared] in HQ. destruct o as [c|].
    + rewrite bool_decide_true by by eexists. cbn [andb].
      destruct (update_declared desc f); cbn [negb]; by rewrite <- Z.add_assoc.
    + rewrite bool_decide_false by by intros []. cbn [andb]. by rewrite Z.add_0_r.
Qed.

(** C20: sanitizing an event counts, and on the server removes, what its description does
    not declare. [obus_event_sanitize] returns the number of fields that are
    present and that are not updates of the event; on the server the event is left
    with its declared contents only, on the client with all of them; no value is
    changed or freed. *)
Theorem sanitize_removes_undeclared p e cs is_server w m :
  w_evts w !! p = Some e -> struct_shape (ev_info e) -> struct_denotes m (ev_info e) cs ->
  let fs := sd_fields (st_desc (ev_info e)) in
  wpw (obus_event_sanitize p is_server) (fun n w' m' => n = undeclared (ev_desc e) fs cs /\ m' = m /\
    exists st, w' = set_evts w (<[p := with_ev_info e st]> (w_evts w)) /\
      struct_shape st /\ st_desc st = st_desc (ev_info e) /\
      struct_denotes m st (if is_server then sanitized (ev_desc e) fs cs else cs)) w m.
Proof.
  intros Hp SS SD fs. unfold obus_event_sanitize, sanitize_info. apply wpw_bind. eapply wpw_lookup; [exact Hp|].
  apply wpw_bind, wpw_lift. destruct SD as [Hl Hh Hf].
  apply (wp_sanitize_fields (ev_desc e) is_server (ev_info e) fs cs 0 (ev_info e) 0).
  - split; [done|apply changes_at_refl|]. intros j f Hj. by rewrite (proj2 (Nat.ltb_ge j 0)), andb_false_r by lia.
  - done.
  - intros i f o Hi Ho. split; [done|]. by apply Hh.
  - intros st [SS' [Hd Hc] Hh']. apply wpw_bind, wpw_modify, wpw_ret. split; [done|]. split; [done|].
    exists st. split_and!; [done..|].
    assert (forall i f c, fs !! i = Some f -> cs !! i = Some (Some c) -> field_denotes m (st_mem st) f c) as Hfields.
    { intros i f c Hi Hcs. eapply field_denotes_ext; [|by apply (Hf i)].
      intros off Ho. apply Hc. by eapply field_offset_not_word; [apply SS|..]. }
    assert (forall i o, cs !! i = Some o -> exists f, fs !! i = Some f) as Hex.
    { intros i o Ho. apply lookup_lt_is_Some_2. unfold fs. rewrite <- Hl. by eapply lookup_lt_Some. }
    destruct is_server; constructor; rewrite ?Hd; fold fs.
    + unfold sanitized. rewrite length_zip_with. unfold fs in *. lia.
    + intros i o (f & o0 & -> & Hi & Ho)%lookup_zip_with_Some. rewrite (Hh' i f Hi). cbn [andb].
      rewrite (proj2 (Nat.ltb_lt _ _)) by (cbn; by eapply lookup_lt_Some). rewrite (Hh i o0 Ho).
      unfold keep_declared. destruct (update_declared (ev_desc e) f); [by rewrite andb_true_r|].
      rewrite andb_false_r. symmetry. apply bool_decide_false. by intros [].
    + intros i f c Hi (f' & o0 & Heq & Hi' & Ho)%lookup_zip_with_Some. simplify_eq.
      unfold keep_declared in Heq.
      destruct (update_declared (ev_desc e) _) in Heq; [|done]. subst o0. by apply (Hfields i).
    + done.
    + intros i o Ho. destruct (Hex i o Ho) as [f Hi]. rewrite (Hh' i f Hi). cbn [andb]. by apply Hh.
    + intros i f c Hi Ho. by apply (Hfields i).
Qed.
End Sanitize.

(** ** The wire format *)

Definition event_wire (o : obus_object) (desc : obus_event_desc) (cs : list (option fval)) : list Z :=
  let info := struct_wire (od_info_desc (ob_desc o)) cs in
  be_bytes 2 (od_uid (ob_desc o)) ++ be_bytes 2 (ob_handle o) ++ be_bytes 2 (evd_uid desc)
  ++ be_bytes 4 (Z.of_nat (length info)) ++ info.

(** An event of the object [o] with the contents [cs], ready to be sent. *)
Record event_sound (m : mem) (o : obus_object) (e : obus_event) (cs : list (option fval)) : Prop := {
  es_desc : st_desc (ev_info e) = od_info_desc (ob_desc o);
  es_event : ev_desc e ∈ od_events (ob_desc o);
  es_shape : struct_shape (ev_info e);
  es_denotes : struct_denotes m (ev_info e) cs;
  es_ok : contents_ok (od_info_desc (ob_desc o)) cs;
  es_size : Z.of_nat (length (struct_wire (od_info_desc (ob_desc o)) cs)) < 2 ^ 32;
  es_alloc : EVENT_SIZE + sd_size (od_info_desc (ob_desc o)) <= PTRDIFF_MAX
}.

Lemma event_sound_length m o e cs :
  event_sound m o e cs -> length cs = length (sd_fields (od_info_desc (ob_desc o))).
Proof. intros S. rewrite <- (es_desc _ _ _ _ S). apply S. Qed.

Lemma event_sound_kinds m o e cs : event_sound m o e cs -> kinds_ok (od_info_desc (ob_desc o)) cs.
Proof. intros S. rewrite <- (es_desc _ _ _ _ S). eapply denotes_kinds, S. Qed.

Lemma emits_event {AL : Allocator} m o e cs :
  event_sound m o e cs -> emits m (obus_event_encode o e) (event_wire o (ev_desc e) cs).
Proof.
  intros S. unfold obus_event_encode, event_wire.
  do 3 (apply (emits_seq m (fun b => obus_buffer_append_u16 b _)); [apply emits_append_u16|]).
  apply emits_sized; [|apply S]. rewrite <- (es_desc _ _ _ _ S).
  apply emits_struct_encode; [apply S|apply S|]. rewrite (es_desc _ _ _ _ S). apply S.
Qed.

(** The event a receiver makes, and its world. *)
Definition received_event (desc : obus_event_desc) (obj : positive) (st : obus_struct) : obus_event :=
  Event false desc obj true false st.

Definition with_event (w : world) (e : obus_event) : world :=
  set_evts (set_next_addr w (Pos.succ (w_next w))) (<[w_next w := e]> (w_evts w)).

Section Receive.
Context {AL : Allocator} `{!AmpleMemory AL}.

Lemma wp_event_new obj o desc w m (Q : option positive -> world -> mem -> Prop) :
  w_objs w !! obj = Some o -> desc_ok (od_info_desc (ob_desc o)) ->
  EVENT_SIZE + sd_size (od_info_desc (ob_desc o)) <= PTRDIFF_MAX ->
  (forall st m', same_blocks m m' -> struct_shape st -> st_desc st = od_info_desc (ob_desc o) ->
     Q (Some (w_next w)) (with_event w (received_event desc obj st)) m') ->
  wpw (obus_event_new obj desc None) Q w m.
Proof.
  intros Ho D Hs HQ. unfold obus_event_new. apply wpw_bind. eapply wpw_lookup; [exact Ho|].
  apply wpw_bind, wpw_lift, wp_alloc; intros k m' Hm Hk; [|by rewrite malloc_ample in Hk].
  apply wpw_bind, wpw_lift. unfold new_event_info. apply wp_bind, wp_struct_init; [by apply calloc_shape|].
  intros st SS Hd _. cbn [failed Z.ltb Z.compare]. apply wp_ret. cbn [failed Z.ltb Z.compare].
  apply wpw_bind, wp_ret. apply wpw_bind, wpw_modify, wpw_ret. by apply HQ.
Qed.

Lemma wp_event_decode d o q o' m0 mk e cs w m b rest (Q : option positive * buffer -> world -> mem -> Prop) :
  knows_object d o q o' w mk -> event_sound m0 o e cs ->
  mem_wf m -> buf_wf b -> buf_rest b = event_wire o (ev_desc e) cs ++ rest ->
  (forall st m', grows m m' -> struct_shape st ->
     struct_denotes m' st (struct_back (od_info_desc (ob_desc o)) cs) ->
     Q (Some (w_next w), with_pos b (buf_pos b + Z.of_nat (length (event_wire o (ev_desc e) cs))))
       (with_event w (received_event (ev_desc e) q st)) m') ->
  wpw (obus_event_decode b) Q w m.
Proof.
  intros [[D [ma HA]] RO Hdi Hoh Hq Ho' Hsame] S Wm W Hr HQ. unfold obus_event_decode.
  destruct (bo_obj _ D _ Hdi) as (Hu & _ & _ & _ & Heu). rewrite Forall_forall in Heu.
  specialize (Heu _ (es_event _ _ _ _ S)). unfold uid_ok in Hu, Heu. pose proof (es_size _ _ _ _ S) as Hsz.
  destruct (ow_objs _ _ RO _ _ Hq) as [Hnz _].
  unfold event_wire in Hr. set (info := struct_wire _ cs) in *. rewrite <- !app_assoc in Hr.
  eapply (wpw_read_u16 (od_uid (ob_desc o))); [lia|done|exact Hr|]. intros b1 E1 W1 Hr1.
  eapply (wpw_read_u16 (ob_handle o)); [lia|done|exact Hr1|]. intros b2 E2 W2 Hr2.
  eapply (wpw_read_u16 (evd_uid (ev_desc e))); [lia|done|exact Hr2|]. intros b3 E3 W3 Hr3.
  eapply (wpw_read_u32 (Z.of_nat (length info))); [lia|done|exact Hr3|]. intros b4 E4 W4 Hr4.
  unfold obus_buffer_get_read_position, OBUS_INVALID_UID, OBUS_INVALID_HANDLE in *. cbn zeta.
  rewrite (proj2 (Z.eqb_neq (od_uid (ob_desc o)) 0)), (proj2 (Z.eqb_neq (ob_handle o) 0)),
    (proj2 (Z.eqb_neq (evd_uid (ev_desc e)) 0)) by lia.
  apply wpw_bind. eapply wp_bus_object_found; [exact RO|exact Hq|].
  apply wpw_bind. eapply wpw_lookup; [exact Ho'|]. rewrite Hsame, Z.eqb_refl. cbn [negb].
  apply wpw_bind, wpw_gets, wpw_bind, wpw_lift.
  exists (Some (ev_desc e)), m. split; [eapply api_event_found; [done..|apply S]|].
  apply wpw_bind, (wp_event_new q o'); rewrite ?Hsame; [done|rewrite <- (es_desc _ _ _ _ S); apply S|apply S|].
  intros st0 m1 Hm1 SS0 Hd0. apply wpw_bind. eapply wpw_lookup; [cbn; apply lookup_insert_eq|].
  apply wpw_bind, wpw_lift. cbn [ev_info received_event].
  eapply (wp_decode_image (od_info_desc (ob_desc o)) cs); [done|done|by eapply event_sound_length|apply S|
    by eapply event_sound_kinds|by eapply same_blocks_wf|done|exact Hr4|].
  intros st m2 G SS _ SD. fold info. apply wpw_bind, wpw_modify. cbn [failed Z.ltb Z.compare buf_pos with_pos].
  rewrite (read_end b4) by (done || lia || by eapply after_read). rewrite Z.eqb_refl. cbn [negb]. apply wpw_ret.
  replace (with_pos b4 _) with (with_pos b (buf_pos b + Z.of_nat (length (event_wire o (ev_desc e) cs))))
    by (unfold event_wire; fold info; same_position).
  replace (set_evts _ _) with (with_event w (received_event (ev_desc e) q st))
    by (unfold with_event, set_evts; cbn; by rewrite insert_insert_eq).
  apply HQ; [|done|done]. eapply grows_trans; [by apply same_blocks_grows|exact G].
Qed.
End Receive.

Section Roundtrip.
Context {AL : Allocator} `{!AmpleMemory AL}.

(** C19: an event crosses the wire, where no allocation is refused. The packet of an event makes the decoder of a
    receiver that has the object under the same handle, of the same description,
    return 0 and a new event of its own: of the same kind, on its object, with the
    contents of the sent one, not yet committed; nothing the receiver had changes and
    what followed the packet stays. *)
Theorem event_roundtrip p e o cs b w m :
  mem_wf m -> buf_wf b -> w_evts w !! p = Some e -> w_objs w !! ev_obj e = Some o ->
  event_sound m o e cs -> packet_size (event_wire o (ev_desc e) cs) < 2 ^ 32 ->
  wpw (obus_packet_event_encode b p)
      (fun r w' m' => fst r = 0 /\ w' = w /\
         forall d q o' dec rb script rest fuel wr,
           knows_object d o q o' wr m' -> buf_wf rb -> buf_pos rb = 0 ->
           buf_bytes rb = buf_bytes (snd r) ++ rest -> d_hdr_valid dec = false ->
           wpw (obus_packet_decoder_read (S fuel) dec rb script)
               (fun x w2 m2 => let '(ret, info, dec', rb', script') := x in
                  ret = 0 /\ script' = script /\ d_hdr_valid dec' = false /\ buf_bytes rb' = rest /\
                  info = Some (InfoEvent (w_next wr)) /\
                  exists st, w2 = with_event wr (received_event (ev_desc e) q st) /\ struct_shape st /\
                    struct_denotes m2 st (struct_back (od_info_desc (ob_desc o)) cs)) wr m') w m.
Proof.
  intros Wm W He Ho S Hs. unfold obus_packet_event_encode, get_evt_obj.
  apply wpw_bind, wpw_bind. eapply wpw_lookup; [exact He|]. apply wpw_bind. eapply wpw_lookup; [exact Ho|].
  apply wpw_ret, wpw_lift. eapply wp_mono; [by eapply wp_encode_packet; [by apply emits_event|..]|].
  intros [ret b'] m' (Hm & _ & _ & _ & [[Hr Hbytes]|[_ Hr]]); cbn [fst snd] in *;
    [|exfalso; eapply ample_not_refused; [|exact Hr]; unfold PTRDIFF_MAX; lia].
  split_and!; [done..|]. intros d q o' dec rb script rest fuel wr K Wr Hp Hrb Hd. rewrite Hbytes in Hrb.
  eapply wpw_mono; [eapply (wp_decoder_read fuel dec rb script OBUS_PKT_EVENT (event_wire o (ev_desc e) cs) rest
    (fun info w2 m2 => info = Some (InfoEvent (w_next wr)) /\
       exists st, w2 = with_event wr (received_event (ev_desc e) q st) /\ struct_shape st /\
         struct_denotes m2 st (struct_back (od_info_desc (ob_desc o)) cs))); try done|].
  2:{ intros [[[[ret' info] d'] rb'] script'] w' m2 (? & (? & ?) & ? & ? & _ & _ & ?). by split_and!. }
  intros b1 W1 Hp1 Hr1. unfold decode_payload_of, map_info, obus_packet_event_decode, or_enoent.
  cbn [Z.eqb OBUS_PKT_EVENT OBUS_PKT_CONREQ OBUS_PKT_CONRESP OBUS_PKT_ADD OBUS_PKT_REMOVE OBUS_PKT_BUS_EVENT Pos.eqb].
  destruct (after_read _ _ _ W1 Hr1) as [W2 _].
  apply wpw_bind, wpw_bind. eapply wp_event_decode; [exact K|exact S|by eapply same_blocks_wf|done|exact Hr1|].
  intros st m2 G SS SD. apply wpw_ret, wpw_ret. split; [done|]. split.
  - eexists. split; [reflexivity|]. apply W2.
  - split; [done|]. by exists st.
Qed.
End Roundtrip.

(** ** Witnesses *)

Section Witnesses.
#[local] Existing Instance ample_alloc.

(** A table of objects that has the handle 9, at the address 1. *)
Definition wit_known_table : obus_hash positive := Hash [[Entry 0 false 1%positive 9]] 1 [Entry 0 false 1%positive 9].

Lemma wit_known_table_wf n : plain_wf wit_known_table (Mem ∅ 1 (S n)).
Proof.
  split; [|by repeat constructor].
  constructor; cbn; [lia|done| | |apply NoDup_singleton|apply NoDup_singleton|].
  - intros [|i] chain e Hi He; cbn in Hi; [|done]. rewrite Z.mod_1_r. done.
  - done.
  - apply Forall_singleton. cbn. lia.
Qed.

(** An event that declares the age only, of an object with three fields present. *)
Definition wit_evt : obus_event := Event false (EventDesc 31 1 (take 1 (sd_fields wit_desc))) 1 true false wit_struct.
Definition wit_evt_w : world := set_evts wit_rich_w {[1%positive := wit_evt]}.

Lemma sanitize_removes_undeclared_witness :
  wpw (obus_event_sanitize 1 true) (fun n w' m' => n = 2 /\ m' = wit_mem /\
    exists st, w_evts w' !! 1%positive = Some (with_ev_info wit_evt st) /\
      struct_denotes wit_mem st [Some (FScalar (ANum 5)); None; None; None]) wit_evt_w wit_mem.
Proof.
  eapply wpw_mono; [apply (sanitize_removes_undeclared 1 wit_evt wit_contents true wit_evt_w wit_mem)|].
  - reflexivity.
  - exact wit_struct_shape.
  - exact wit_struct_denotes.
  - intros n w' m' (Hn & Hm & st & -> & _ & _ & SD). split; [rewrite Hn; vm_compute; reflexivity|].
    split; [exact Hm|]. exists st. split; [reflexivity|exact SD].
Defined.

(** An event of a kind the description has. *)
Definition wit_sent_evt : obus_event := Event false wit_event 1 true false wit_struct.
Definition wit_sent_evt_w : world := set_evts wit_rich_w {[1%positive := wit_sent_evt]}.

Lemma wit_evt_sound : event_sound wit_mem wit_rich_obj wit_sent_evt wit_contents.
Proof.
  constructor; [reflexivity|by left|exact wit_struct_shape|exact wit_struct_denotes|exact wit_contents_ok| |].
  - vm_compute. reflexivity.
  - vm_compute. discriminate.
Qed.

Lemma event_roundtrip_witness :
  wpw (obus_packet_event_encode wit_buf 1)
      (fun r w' m' => fst r = 0 /\
         forall d q o' wr rb, knows_object d wit_rich_obj q o' wr m' -> buf_wf rb -> buf_pos rb = 0 ->
           buf_bytes rb = buf_bytes (snd r) ++ [] ->
           wpw (obus_packet_decoder_read 1 wit_decoder rb [])
               (fun x w2 m2 => let '(ret, info, _, _, _) := x in
                  ret = 0 /\ info = Some (InfoEvent (w_next wr)) /\
                  exists st, w_evts w2 !! w_next wr = Some (received_event wit_event q st) /\
                    struct_denotes m2 st (struct_back wit_desc wit_contents)) wr m') wit_sent_evt_w wit_mem.
Proof.
  eapply wpw_mono; [apply (event_roundtrip 1 wit_sent_evt wit_rich_obj wit_contents wit_buf wit_sent_evt_w wit_mem)|].
  - exact wit_mem_wf.
  - exact wit_buf_wf.
  - reflexivity.
  - reflexivity.
  - exact wit_evt_sound.
  - vm_compute. reflexivity.
  - intros [ret b'] w' m' (Hr & _ & H). split; [exact Hr|]. intros d q o' wr rb K Wr Hp Hb.
    eapply wpw_mono; [apply (H d q o' wit_decoder rb [] [] 0%nat wr K Wr Hp Hb eq_refl)|].
    intros [[[[ret' info] d'] rb'] sc'] w2 m2 (H1 & _ & _ & _ & H2 & st & -> & _ & H3).
    split; [exact H1|]. split; [exact H2|]. exists st. split; [cbn; apply lookup_insert_eq|exact H3].
Defined.
End Witnesses.
