(* ===== verification/BusEventWire.v ===== *)
(** * Bus events on the wire: the image of a group, and the group a receiver makes

    A bus event carries objects added, objects removed and events in one packet.
    The receiver makes the first and the last, finds the removed ones in its
    registry, and links all of them to a bus event of its own. *)
From S2P Require Import Prelude Mem Cstring Buffer Desc Field Struct Hash BusApi World Bus Object Event BusEvent Packet EventWire.

(** ** Images *)

(** An object, or an event of an object, with the contents of its structure. *)
Notation sent_object := (obus_object * list (option fval))%type.
Notation sent_event := (obus_object * obus_event * list (option fval))%type.

Definition add_image (x : sent_object) : list Z := object_wire (fst x) (snd x).
Definition remove_image (o : obus_object) : list Z := remove_wire (od_uid (ob_desc o)) (ob_handle o).
Definition event_image (x : sent_event) : list Z := event_wire (fst (fst x)) (ev_desc (snd (fst x))) (snd x).

Definition bus_event_wire (desc : obus_bus_event_desc) (adds : list sent_object)
    (removes : list obus_object) (evts : list sent_event) : list Z :=
  be_bytes 2 (bed_uid desc) ++ be_bytes 4 (Z.of_nat (length adds))
  ++ be_bytes 4 (Z.of_nat (length removes)) ++ be_bytes 4 (Z.of_nat (length evts))
  ++ concat (map add_image adds) ++ concat (map remove_image removes)
  ++ concat (map event_image evts).

(** Records are not empty, so their number is bounded by the size of the packet. *)
Lemma length_images {A} (image : A -> list Z) l :
  (forall x, (0 < length (image x))%nat) -> (length l <= length (concat (map image l)))%nat.
Proof.
  intros H. induction l as [|x l IH]; cbn [map concat length]; [lia|].
  rewrite length_app. pose proof (H x). lia.
Qed.

Record few_members (adds : list sent_object) (removes : list obus_object)
    (evts : list sent_event) : Prop := {
  fm_adds : Z.of_nat (length adds) < 2 ^ 32;
  fm_removes : Z.of_nat (length removes) < 2 ^ 32;
  fm_events : Z.of_nat (length evts) < 2 ^ 32
}.

Lemma members_of_packet desc adds removes evts :
  packet_size (bus_event_wire desc adds removes evts) < 2 ^ 32 -> few_members adds removes evts.
Proof.
  unfold packet_size, bus_event_wire. rewrite !length_app, !length_be_bytes. intros H.
  pose proof (length_images add_image adds) as H1. pose proof (length_images remove_image removes) as H2.
  pose proof (length_images event_image evts) as H3.
  unfold add_image, remove_image, event_image, object_wire, remove_wire, event_wire in *.
  constructor; [specialize (H1 ltac:(intros; rewrite length_app, length_be_bytes; lia))
               |specialize (H2 ltac:(intros; rewrite length_app, length_be_bytes; lia))
               |specialize (H3 ltac:(intros; rewrite length_app, length_be_bytes; lia))];
    unfold OBUS_PKT_HDR_SIZE in *; lia.
Qed.

(** ** The sender *)

(** A bus event whose members are live and ready to be sent, with their contents. *)
Record bus_event_sound (w : world) (m : mem) (b : obus_bus_event) (adds : list sent_object)
    (removes : list obus_object) (evts : list sent_event) : Prop := {
  bs_uid : uid_ok (bed_uid (be_desc b));
  bs_adds : Forall2 (fun p x => w_objs w !! p = Some (fst x) /\ object_sound m (fst x) (snd x))
              (be_add_objs b) adds;
  bs_removes : Forall2 (fun p o => w_objs w !! p = Some o /\ uid_ok (od_uid (ob_desc o)) /\
                 0 <= ob_handle o < 2 ^ 16) (be_remove_objs b) removes;
  bs_events : Forall2 (fun p x => let '(o, e, cs) := x in
                 w_evts w !! p = Some e /\ w_objs w !! ev_obj e = Some o /\ event_sound m o e cs)
              (be_obj_events b) evts
}.

Lemma wpw_get_all {A} (get : positive -> W A) l xs w m (Q : list A -> world -> mem -> Prop) :
  Forall2 (fun p x => forall R : A -> world -> mem -> Prop, R x w m -> wpw (get p) R w m) l xs ->
  Q xs w m -> wpw (get_all get l) Q w m.
Proof.
  intros H. revert Q. induction H as [|p x l xs Hx _ IH]; intros Q HQ; cbn [get_all]; [by apply wpw_ret|].
  apply wpw_bind, Hx. apply wpw_bind, IH. by apply wpw_ret.
Qed.

Section Send.
Context {AL : Allocator}.

Lemma emits_images {X A} m (body : A -> buffer -> M (Z * buffer)) (image : X -> list Z) (f : X -> A) xs :
  (forall x, x ∈ xs -> emits m (body (f x)) (image x)) ->
  emits m (for_each (map f xs) body) (concat (map image xs)).
Proof.
  intros H. apply emits_for_each, Forall2_fmap_2, Forall_Forall2_diag, Forall_forall. exact H.
Qed.

Lemma emits_bus_event w m b adds removes evts :
  bus_event_sound w m b adds removes evts -> few_members adds removes evts ->
  emits m (encode_bus_event b (map fst adds) removes (map fst evts))
    (bus_event_wire (be_desc b) adds removes evts).
Proof.
  intros [Hu Ha Hr He] []. unfold encode_bus_event, bus_event_wire, count.
  rewrite (Forall2_length _ _ _ Ha), (Forall2_length _ _ _ Hr), (Forall2_length _ _ _ He).
  rewrite !u32_small by lia.
  apply (emits_seq m (fun b => obus_buffer_append_u16 b _)); [apply emits_append_u16|].
  do 3 (apply (emits_seq m (fun b => obus_buffer_append_u32 b _)); [apply emits_append_u32|]).
  apply (emits_seq m (for_each _ _)).
  { apply emits_images. intros x Hx. apply emits_object.
    apply list_elem_of_lookup in Hx as [i Hi]. by destruct (Forall2_lookup_r _ _ _ _ _ Ha Hi) as (p & _ & _ & ?). }
  apply (emits_seq m (for_each _ _)).
  { rewrite <- (map_id removes) at 1. apply (emits_images m _ _ id). intros x _. apply emits_object_remove. }
  apply emits_images. intros [[o e] cs] Hx. apply emits_event.
  apply list_elem_of_lookup in Hx as [i Hi]. by destruct (Forall2_lookup_r _ _ _ _ _ He Hi) as (p & _ & _ & _ & ?).
Qed.

Lemma wp_send_bus_event p b adds removes evts buf w m :
  buf_wf buf -> w_bevs w !! p = Some b -> bus_event_sound w m b adds removes evts ->
  packet_size (bus_event_wire (be_desc b) adds removes evts) < 2 ^ 32 ->
  wpw (obus_packet_bus_event_encode buf p) (fun r w' m' => w' = w /\
    frame_post OBUS_PKT_BUS_EVENT (bus_event_wire (be_desc b) adds removes evts) buf m r m') w m.
Proof.
  intros Wb Hp S Hs. pose proof (members_of_packet _ _ _ _ Hs) as Hf. unfold obus_packet_bus_event_encode.
  apply wpw_bind. eapply wpw_lookup; [exact Hp|].
  apply wpw_bind, (wpw_get_all _ _ (map fst adds)).
  { apply Forall2_fmap_r. eapply Forall2_impl; [apply S|]. intros q x [Hq _] R HR. by eapply wpw_lookup. }
  apply wpw_bind, (wpw_get_all _ _ removes).
  { eapply Forall2_impl; [apply S|]. intros q x [Hq _] R HR. by eapply wpw_lookup. }
  apply wpw_bind, (wpw_get_all _ _ (map fst evts)).
  { apply Forall2_fmap_r. eapply Forall2_impl; [apply S|]. intros q [[o e] cs] (He & Ho & _) R HR.
    apply wpw_bind. eapply wpw_lookup; [exact He|]. apply wpw_bind. eapply wpw_lookup; [exact Ho|]. by apply wpw_ret. }
  apply wpw_lift. eapply wp_mono; [apply wp_encode_packet; [by eapply emits_bus_event|done|done|done]|].
  intros r m' H. by split.
Qed.
End Send.

(** ** The receiver *)

(** All addresses in use are below the next one. *)
Record addresses_below (w : world) : Prop := {
  ab_objs : forall q o, w_objs w !! q = Some o -> (q < w_next w)%positive;
  ab_evts : forall q e, w_evts w !! q = Some e -> (q < w_next w)%positive
}.

(** A receiver that can follow the bus event: its bus was loaded from a description
    that has all that is sent, it knows the objects removed, at [qs], none of which
    is held by a bus event, and the objects of the events, at [eqs]. *)
Record receives (d : obus_bus_desc) (desc : obus_bus_event_desc) (adds : list sent_object)
    (removes : list obus_object) (evts : list sent_event) (qs eqs : list positive)
    (w : world) (m : mem) : Prop := {
  rv_loaded : bus_loaded d w;
  rv_objects : objects_wf w m;
  rv_below : addresses_below w;
  rv_desc : desc ∈ bd_events d;
  rv_adds : Forall (fun x => ob_desc (fst x) ∈ bd_objects d) adds;
  rv_removes : Forall2 (fun o q => reg (b_objects_hash (w_bus w)) !! ob_handle o = Some q /\
                 exists o', w_objs w !! q = Some o' /\ ob_event_node o' = false) removes qs;
  rv_nodup : NoDup qs;
  rv_events : Forall2 (fun x q => exists o', knows_object d (fst (fst x)) q o' w m) evts eqs
}.

(** The object a receiver makes, linked to a bus event. *)
Definition received_object (o : obus_object) (st : obus_struct) (linked : bool) : obus_object :=
  Object false linked (ob_desc o) (ob_handle o) false 0 st (replicate (length (od_methods (ob_desc o))) 0).

(** At [q], an object like the one sent, and an event of the object at [oq]; made
    after the world [w0]. *)
Definition object_copy (w0 w : world) (m : mem) (q : positive) (x : sent_object) : Prop :=
  (w_next w0 <= q < w_next w)%positive /\ exists st,
    w_objs w !! q = Some (received_object (fst x) st true) /\ struct_shape st /\
    struct_denotes m st (struct_back (od_info_desc (ob_desc (fst x))) (snd x)).

Definition event_copy (w0 w : world) (m : mem) (q : positive) (x : sent_event * positive) : Prop :=
  let '(o, e, cs, oq) := x in
  (w_next w0 <= q < w_next w)%positive /\ exists st,
    w_evts w !! q = Some (ev_with_event_node (received_event (ev_desc e) oq st) true) /\
    struct_shape st /\ struct_denotes m st (struct_back (od_info_desc (ob_desc o)) cs).

(** The bus event at [w_next w0], made from the records received so far: copies of
    the objects [adds] at [al], the removed objects at [qs], copies of the events at
    [el].  All the rest is as it was in [w0], but for the mark of the removed ones. *)
Record received (w0 : world) (desc : obus_bus_event_desc) (adds : list sent_object)
    (qs : list positive) (evts : list (sent_event * positive)) (al el : list positive)
    (w : world) (m : mem) : Prop := {
  re_bus : w_bus w = w_bus w0;
  re_calls : w_calls w = w_calls w0;
  re_provs : w_provs w = w_provs w0;
  re_notes : w_notes w = w_notes w0;
  re_next : (w_next w0 < w_next w)%positive;
  re_objs : forall q o, w_objs w0 !! q = Some o ->
    w_objs w !! q = Some (if decide (q ∈ qs) then with_event_node o true else o);
  re_evts : forall q e, w_evts w0 !! q = Some e -> w_evts w !! q = Some e;
  re_bevs : w_bevs w = <[w_next w0 := BusEvent desc al qs el false true]> (w_bevs w0);
  re_adds : Forall2 (object_copy w0 w m) al adds;
  re_events : Forall2 (event_copy w0 w m) el evts
}.

Lemma object_copies_later w0 w w' m m' al adds :
  (forall q, (q < w_next w)%positive -> w_objs w' !! q = w_objs w !! q) -> (w_next w <= w_next w')%positive ->
  grows m m' -> Forall2 (object_copy w0 w m) al adds -> Forall2 (object_copy w0 w' m') al adds.
Proof.
  intros Ho Hn G H. eapply Forall2_impl; [exact H|]. intros q x (Hq & st & Hst & SS & SD).
  split; [lia|]. exists st. rewrite Ho by lia. split_and!; [done..|]. by eapply struct_denotes_grows.
Qed.

Lemma event_copies_later w0 w w' m m' el evts :
  (forall q, (q < w_next w)%positive -> w_evts w' !! q = w_evts w !! q) -> (w_next w <= w_next w')%positive ->
  grows m m' -> Forall2 (event_copy w0 w m) el evts -> Forall2 (event_copy w0 w' m') el evts.
Proof.
  intros Ho Hn G H. eapply Forall2_impl; [exact H|]. intros q [[[o e] cs] oq] (Hq & st & Hst & SS & SD).
  split; [lia|]. exists st. rewrite Ho by lia. split_and!; [done..|]. by eapply struct_denotes_grows.
Qed.

Section Receive.
Context {AL : Allocator} `{!AmpleMemory AL}.
Context (d : obus_bus_desc) (desc : obus_bus_event_desc) (w0 : world) (m0 : mem).
Context (D : bus_loaded d w0) (RO : objects_wf w0 m0) (AB : addresses_below w0).

(** What the registry finds is in the world, in every state on the way. *)
Lemma received_objects_wf adds qs evts al el w m :
  received w0 desc adds qs evts al el w m -> objects_wf w m0.
Proof.
  intros R. destruct RO as [P H]. rewrite <- (re_bus _ _ _ _ _ _ _ _ _ R) in P.
  constructor; [exact P|]. intros hdl q. rewrite (re_bus _ _ _ _ _ _ _ _ _ R). intros Hq.
  destruct (H hdl q Hq) as (Hn & o & Ho & E1 & E2). split; [exact Hn|].
  apply (re_objs _ _ _ _ _ _ _ _ _ R) in Ho. eexists. split; [exact Ho|]. by case_decide.
Qed.

Lemma received_loaded adds qs evts al el w m :
  received w0 desc adds qs evts al el w m -> bus_loaded d w.
Proof. intros R. unfold bus_loaded. by rewrite (re_bus _ _ _ _ _ _ _ _ _ R). Qed.

Lemma received_knows o q o' adds qs evts al el w m :
  received w0 desc adds qs evts al el w m -> knows_object d o q o' w0 m0 ->
  exists o2, knows_object d o q o2 w m0.
Proof.
  intros R [_ _ H1 H2 H3 H4 H5]. eexists. constructor.
  - by eapply received_loaded.
  - by eapply received_objects_wf.
  - exact H1.
  - exact H2.
  - by rewrite (re_bus _ _ _ _ _ _ _ _ _ R).
  - by apply (re_objs _ _ _ _ _ _ _ _ _ R).
  - by case_decide.
Qed.

(** An object made and linked. *)
Lemma received_add x st adds qs evts al el w m m' :
  let o := received_object (fst x) st in
  let b := BusEvent desc al qs el false true in
  received w0 desc adds qs evts al el w m -> grows m m' -> struct_shape st ->
  struct_denotes m' st (struct_back (od_info_desc (ob_desc (fst x))) (snd x)) ->
  received w0 desc (adds ++ [x]) qs evts (al ++ [w_next w]) el
    (set_bevs (set_objs (set_next_addr w (Pos.succ (w_next w)))
       (<[w_next w := o true]> (<[w_next w := o false]> (w_objs w))))
       (<[w_next w0 := with_add_objs b (al ++ [w_next w])]> (w_bevs w))) m'.
Proof.
  intros o b [] G SS SD. constructor; cbn -[Pos.lt Pos.le]; try done.
  - lia.
  - intros q oq Hq. pose proof (ab_objs _ AB _ _ Hq). rewrite !lookup_insert_ne by lia. by apply re_objs0.
  - rewrite re_bevs0, insert_insert_eq. done.
  - apply Forall2_app.
    + eapply (object_copies_later w0 w); [| |exact G|done]; cbn; [|lia].
      intros q Hq. by rewrite !lookup_insert_ne by lia.
    + apply Forall2_cons; split; [|apply Forall2_nil; done].
      split; [cbn; lia|]. exists st. cbn. rewrite lookup_insert_eq. by split_and!.
  - eapply (event_copies_later w0 w); [| |exact G|done]; cbn; [done|lia].
Qed.

(** A removed object linked. *)
Lemma received_remove q o adds qs evts al el w m :
  let b := BusEvent desc al qs el false true in
  received w0 desc adds qs evts al el w m -> mem_wf m -> w_objs w0 !! q = Some o -> q ∉ qs ->
  received w0 desc adds (qs ++ [q]) evts al el
    (set_bevs (set_objs w (<[q := with_event_node o true]> (w_objs w)))
       (<[w_next w0 := with_remove_objs b (qs ++ [q])]> (w_bevs w))) m.
Proof.
  intros b [] Wm Hq Hn. pose proof (ab_objs _ AB _ _ Hq) as Hlt. constructor; cbn -[Pos.lt Pos.le]; try done.
  - intros q2 o2 Hq2. destruct (decide (q2 = q)) as [->|Hne].
    + simplify_eq. rewrite lookup_insert_eq, decide_True by set_solver. done.
    + rewrite lookup_insert_ne by done. rewrite (re_objs0 _ _ Hq2). do 2 f_equal.
      destruct (decide (q2 ∈ qs)); [rewrite decide_True by set_solver|rewrite decide_False by set_solver]; done.
  - rewrite re_bevs0, insert_insert_eq. done.
  - eapply Forall2_impl; [exact re_adds0|]. intros q2 x (Hr & st & Ho & ?). split; [done|]. exists st. cbn.
    rewrite lookup_insert_ne by lia. done.
Qed.

(** An event made and linked. *)
Lemma received_evt x oq st adds qs evts al el w m m' :
  let e := received_event (ev_desc (snd (fst x))) oq st in
  let b := BusEvent desc al qs el false true in
  received w0 desc adds qs evts al el w m -> grows m m' -> struct_shape st ->
  struct_denotes m' st (struct_back (od_info_desc (ob_desc (fst (fst x)))) (snd x)) ->
  received w0 desc adds qs (evts ++ [(x, oq)]) al (el ++ [w_next w])
    (set_bevs (set_evts (set_next_addr w (Pos.succ (w_next w)))
       (<[w_next w := ev_with_event_node e true]> (<[w_next w := e]> (w_evts w))))
       (<[w_next w0 := with_obj_events b (el ++ [w_next w])]> (w_bevs w))) m'.
Proof.
  intros e b [] G SS SD. constructor; cbn -[Pos.lt Pos.le]; try done.
  - lia.
  - intros q oe Hq. pose proof (ab_evts _ AB _ _ Hq). rewrite !lookup_insert_ne by lia. by apply re_evts0.
  - rewrite re_bevs0, insert_insert_eq. done.
  - eapply (object_copies_later w0 w); [| |exact G|done]; cbn; [done|lia].
  - apply Forall2_app.
    + eapply (event_copies_later w0 w); [| |exact G|done]; cbn; [|lia].
      intros q Hq. by rewrite !lookup_insert_ne by lia.
    + apply Forall2_cons; split; [|apply Forall2_nil; done].
      destruct x as [[o e0] cs]. split; [cbn; lia|]. exists st. cbn.
      rewrite lookup_insert_eq. by split_and!.
Qed.

(** ** The loops *)

(** The body of a loop decodes and links the record of each member. *)
Definition links_records {X} (decode : buffer -> W (option positive * buffer)) (link : positive -> W unit)
    (image : X -> list Z) (Inv : list X -> world -> mem -> Prop) (xs : list X) : Prop :=
  forall xs1 x xs2 i b rest w m (R : buffer -> world -> mem -> Prop),
    xs = xs1 ++ x :: xs2 -> Inv xs1 w m -> mem_wf m -> buf_wf b -> buf_rest b = image x ++ rest ->
    (forall w' m', Inv (xs1 ++ [x]) w' m' -> mem_wf m' ->
       R (with_pos b (buf_pos b + Z.of_nat (length (image x)))) w' m') ->
    wpw (decode_link decode link i b) R w m.

Lemma wp_decode_rest {X} decode link image (Inv : list X -> world -> mem -> Prop) all (ks : list Z) pre xs b rest w m
    (Q : buffer -> world -> mem -> Prop) :
  links_records decode link image Inv all -> all = pre ++ xs -> length ks = length xs ->
  Inv pre w m -> mem_wf m -> buf_wf b -> buf_rest b = concat (map image xs) ++ rest ->
  (forall w' m', Inv all w' m' -> mem_wf m' ->
     Q (with_pos b (buf_pos b + Z.of_nat (length (concat (map image xs))))) w' m') ->
  wpw (w_fold ks (decode_link decode link) b) Q w m.
Proof.
  intros Hstep. revert pre xs b w m. induction ks as [|i ks IH]; intros pre [|x xs] b w m E Hl HI Wm Wb Hr HQ; try done.
  - cbn [w_fold]. apply wpw_ret. rewrite app_nil_r in E. subst pre.
    specialize (HQ w m HI Wm). cbn in HQ. rewrite Z.add_0_r in HQ. destruct b. exact HQ.
  - cbn [w_fold map concat] in *. rewrite <- app_assoc in Hr. destruct (after_read _ _ _ Wb Hr) as [W1 Hr1].
    apply wpw_bind. eapply Hstep; [exact E|exact HI|exact Wm|exact Wb|exact Hr|]. intros w' m' HI' Wm'.
    apply (IH (pre ++ [x]) xs); [by rewrite <- app_assoc|by injection Hl|done..|].
    intros w2 m2 HI2 Wm2. specialize (HQ w2 m2 HI2 Wm2). rewrite length_app in HQ.
    replace (with_pos (with_pos b _) _) with (with_pos b (buf_pos b +
      Z.of_nat (length (image x) + length (concat (map image xs))))); [exact HQ|].
    unfold with_pos. cbn. f_equal. lia.
Qed.

Lemma wp_decode_links {X} decode link image (Inv : list X -> world -> mem -> Prop) xs b rest w m
    (Q : buffer -> world -> mem -> Prop) :
  links_records decode link image Inv xs ->
  Inv [] w m -> mem_wf m -> buf_wf b -> buf_rest b = concat (map image xs) ++ rest ->
  (forall w' m', Inv xs w' m' -> mem_wf m' ->
     Q (with_pos b (buf_pos b + Z.of_nat (length (concat (map image xs))))) w' m') ->
  wpw (w_fold (indices (Z.of_nat (length xs))) (decode_link decode link) b) Q w m.
Proof.
  intros H. pose proof (length_indices (Z.of_nat (length xs)) ltac:(lia)) as Hl.
  apply (wp_decode_rest _ _ _ _ xs _ []); [done|done|lia].
Qed.

(** The objects added. *)
Lemma link_adds qs evts el adds :
  Forall (fun x => exists ms, object_sound ms (fst x) (snd x) /\ ob_desc (fst x) ∈ bd_objects d) adds ->
  links_records obus_object_add_decode (link_add (w_next w0)) add_image
    (fun done w m => exists al, received w0 desc done qs evts al el w m) adds.
Proof.
  intros Hs xs1 x xs2 i b rest w m R -> [al HI] Wm Wb Hr HR. unfold decode_link.
  apply Forall_app in Hs as [_ [(ms & S & Hd) _]%Forall_cons].
  pose proof (received_loaded _ _ _ _ _ _ _ HI) as D'.
  apply wpw_bind. eapply (wp_object_add_decode d ms (fst x) (snd x)); [exact S|exact D'|exact Hd|exact Wm|exact Wb|exact Hr|].
  intros st m' G SS SD. apply wpw_bind. unfold link_add, mark_obj_linked.
  apply wpw_bind, wpw_bind. eapply wpw_lookup; [cbn; apply lookup_insert_eq|]. cbn [ob_event_node].
  apply wpw_modify. apply wpw_bind. eapply wpw_lookup.
  { cbn. rewrite (re_bevs _ _ _ _ _ _ _ _ _ HI). apply lookup_insert_eq. }
  apply wpw_modify, wpw_ret, HR; [|apply G]. eexists.
  exact (received_add x st xs1 qs evts al el w m m' HI G SS SD).
Qed.

(** The objects removed, at [qs]. *)
Lemma link_removes adds evts al el removes qs :
  Forall2 (fun o q => reg (b_objects_hash (w_bus w0)) !! ob_handle o = Some q /\
     (exists o', w_objs w0 !! q = Some o' /\ ob_event_node o' = false) /\
     0 <= od_uid (ob_desc o) < 2 ^ 16 /\ 0 <= ob_handle o < 2 ^ 16) removes qs -> NoDup qs ->
  links_records obus_object_remove_decode (link_remove (w_next w0)) remove_image
    (fun done w m => received w0 desc adds (take (length done) qs) evts al el w m) removes.
Proof.
  intros Hs ND xs1 o xs2 i b rest w m R -> HI Wm Wb Hr HR. unfold decode_link.
  destruct (Forall2_lookup_l _ _ _ (length xs1) o Hs) as (q & Hq & Hreg & (o' & Ho' & Hnode) & Hu & Hh).
  { by rewrite list_lookup_middle. }
  assert (q ∉ take (length xs1) qs) as Hn.
  { intros (j & Hj & Hlt)%elem_of_take. pose proof (NoDup_lookup _ _ _ _ ND Hj Hq). lia. }
  apply wpw_bind. eapply wp_object_remove_decode; [exact Hu|exact Hh|exact Wb|exact Hr|]. intros b' -> _ _.
  eapply wp_bus_object_found; [by eapply received_objects_wf| |].
  { rewrite (re_bus _ _ _ _ _ _ _ _ _ HI). exact Hreg. }
  apply wpw_bind. unfold link_remove, mark_obj_linked. apply wpw_bind, wpw_bind. eapply wpw_lookup.
  { rewrite (re_objs _ _ _ _ _ _ _ _ _ HI _ _ Ho'), decide_False by done. done. }
  rewrite Hnode. apply wpw_modify. apply wpw_bind. eapply wpw_lookup.
  { cbn. rewrite (re_bevs _ _ _ _ _ _ _ _ _ HI). apply lookup_insert_eq. }
  apply wpw_modify, wpw_ret, HR; [|done]. rewrite length_app, Nat.add_1_r, (take_S_r _ _ _ Hq).
  exact (received_remove q o' adds _ evts al el w m HI Wm Ho' Hn).
Qed.

(** The events, of the objects at [eqs]. *)
Lemma link_events adds qs al evts :
  Forall (fun '(x, q) => exists ms o', event_sound ms (fst (fst x)) (snd (fst x)) (snd x) /\
     knows_object d (fst (fst x)) q o' w0 m0) evts ->
  links_records obus_event_decode (link_event (w_next w0)) (fun x => event_image (fst x))
    (fun done w m => exists el, received w0 desc adds qs done al el w m) evts.
Proof.
  intros Hs xs1 [x q] xs2 i b rest w m R -> [el HI] Wm Wb Hr HR. unfold decode_link.
  apply Forall_app in Hs as [_ [(ms & o' & S & K) _]%Forall_cons].
  destruct (received_knows _ _ _ _ _ _ _ _ _ _ HI K) as [o2 K2].
  apply wpw_bind. eapply (wp_event_decode d _ q o2 ms m0); [exact K2|exact S|exact Wm|exact Wb|exact Hr|].
  intros st m' G SS SD. apply wpw_bind. unfold link_event, mark_evt_linked.
  apply wpw_bind, wpw_bind. eapply wpw_lookup; [cbn; apply lookup_insert_eq|]. cbn [ev_event_node received_event].
  apply wpw_modify. apply wpw_bind. eapply wpw_lookup.
  { cbn. rewrite (re_bevs _ _ _ _ _ _ _ _ _ HI). apply lookup_insert_eq. }
  apply wpw_modify, wpw_ret, HR; [|apply G]. eexists.
  exact (received_evt x q st adds qs xs1 al el w m m' HI G SS SD).
Qed.
End Receive.

(** ** Decoding a bus event *)

(** What the sender promises of the members, whatever its heaps. *)
Record members_sound (adds : list sent_object) (removes : list obus_object) (evts : list sent_event) : Prop := {
  mb_adds : Forall (fun x => exists ms, object_sound ms (fst x) (snd x)) adds;
  mb_removes : Forall (fun o => uid_ok (od_uid (ob_desc o)) /\ 0 <= ob_handle o < 2 ^ 16) removes;
  mb_events : Forall (fun x => exists ms, event_sound ms (fst (fst x)) (snd (fst x)) (snd x)) evts
}.

Lemma sound_members w m b adds removes evts :
  bus_event_sound w m b adds removes evts -> members_sound adds removes evts.
Proof.
  intros [_ Ha Hr He]. constructor.
  - eapply Forall2_Forall_r; [exact Ha|]. apply Forall_forall. intros p _ x [_ S]. by exists m.
  - eapply Forall2_Forall_r; [exact Hr|]. apply Forall_forall. intros p _ o [_ H]. exact H.
  - eapply Forall2_Forall_r; [exact He|]. apply Forall_forall. intros p _ [[o e] cs] (_ & _ & S). by exists m.
Qed.

Section Decode.
Context {AL : Allocator} `{!AmpleMemory AL}.

Lemma wp_bus_event_new desc w m (Q : option positive -> world -> mem -> Prop) :
  (forall m', same_blocks m m' ->
     Q (Some (w_next w)) (set_bevs (set_next_addr w (Pos.succ (w_next w)))
       (<[w_next w := BusEvent desc [] [] [] false true]> (w_bevs w))) m') ->
  wpw (obus_bus_event_new desc) Q w m.
Proof.
  intros HQ. unfold obus_bus_event_new. apply wpw_bind, wpw_lift, wp_alloc; intros k m' Hm Hk.
  2:{ rewrite malloc_ample in Hk; [done|]. vm_compute. done. }
  unfold obus_bus_event_init. apply wpw_bind, wpw_bind, wp_ret. cbn [fst snd]. apply wpw_bind, wpw_modify, wpw_ret.
  apply wpw_bind. eapply wpw_lookup; [cbn; apply lookup_insert_eq|]. apply wpw_bind, wpw_modify, wpw_ret.
  specialize (HQ m' Hm).
  replace (set_bevs _ _) with (set_bevs (set_next_addr w (Pos.succ (w_next w)))
       (<[w_next w := BusEvent desc [] [] [] false true]> (w_bevs w))); [exact HQ|].
  unfold set_bevs. cbn. by rewrite insert_insert_eq.
Qed.

(** The loops over the three lists. *)
Lemma wp_decode_members d desc adds removes evts qs eqs w0 m0 w m b rest
    (Q : option positive * buffer -> world -> mem -> Prop) :
  receives d desc adds removes evts qs eqs w0 m0 -> members_sound adds removes evts ->
  received w0 desc [] [] [] [] [] w m -> mem_wf m -> buf_wf b ->
  buf_rest b = concat (map add_image adds) ++ concat (map remove_image removes)
               ++ concat (map event_image evts) ++ rest ->
  (forall al el k w' m', received w0 desc adds qs (zip evts eqs) al el w' m' ->
     buf_wf (with_pos b k) -> buf_rest (with_pos b k) = rest -> Q (Some (w_next w0), with_pos b k) w' m') ->
  wpw (buf ← w_fold (indices (Z.of_nat (length adds))) (decode_link obus_object_add_decode (link_add (w_next w0))) b;
       buf ← w_fold (indices (Z.of_nat (length removes))) (decode_link obus_object_remove_decode (link_remove (w_next w0))) buf;
       buf ← w_fold (indices (Z.of_nat (length evts))) (decode_link obus_event_decode (link_event (w_next w0))) buf;
       mret (Some (w_next w0), buf)) Q w m.
Proof.
  intros [D RO AB Hd Hda Hdr ND Hde] [Sa Sr Se] R0 Wm Wb Hr HQ.
  destruct (after_read _ _ _ Wb Hr) as [W1 Hr1]. destruct (after_read _ _ _ W1 Hr1) as [W2 Hr2].
  destruct (after_read _ _ _ W2 Hr2) as [W3 Hr3]. pose proof (Forall2_length _ _ _ Hdr) as Hlr.
  pose proof (Forall2_length _ _ _ Hde) as Hle.
  apply wpw_bind. eapply (wp_decode_links _ _ _ (fun done w m => exists al, received w0 desc done [] [] al [] w m));
    [eapply link_adds; [exact D|exact AB|]|by exists []|exact Wm|exact Wb|exact Hr|].
  { apply Forall_forall. intros x Hx. rewrite Forall_forall in Sa, Hda. destruct (Sa x Hx) as [ms S].
    exists ms. split; [done|]. by apply Hda. }
  intros w1 m1 [al R1] Wm1. apply wpw_bind.
  eapply (wp_decode_links _ _ _ (fun done w m => received w0 desc adds (take (length done) qs) [] al [] w m));
    [eapply link_removes; [exact D|exact RO|exact AB| |exact ND]|exact R1|exact Wm1|exact W1|exact Hr1|].
  { apply Forall2_same_length_lookup_2; [done|]. intros i o q Ho Hq.
    destruct (Forall2_lookup_lr _ _ _ _ _ _ Hdr Ho Hq) as [Hreg Hex].
    destruct (Forall_lookup_1 _ _ _ _ Sr Ho) as [Hu Hh]. unfold uid_ok in Hu. split_and!; (done || lia). }
  intros w2 m2 R2 Wm2. rewrite Hlr, firstn_all in R2.
  assert (map (fun x => event_image (fst x)) (zip evts eqs) = map event_image evts) as Emap.
  { rewrite <- (fst_zip evts eqs) at 2 by lia. by rewrite map_map. }
  replace (length evts) with (length (zip evts eqs)) by (rewrite length_zip; lia).
  apply wpw_bind. eapply (wp_decode_links _ _ _ (fun done w m => exists el, received w0 desc adds qs done al el w m));
    [eapply link_events; [exact D|exact RO|exact AB|]|by exists []|exact Wm2|exact W2|by rewrite Emap|].
  { apply Forall_forall. intros [x q] Hx. apply list_elem_of_lookup in Hx as [i Hi].
    apply lookup_zip_Some in Hi as [Hi Hq].
    destruct (Forall_lookup_1 _ _ _ _ Se Hi) as [ms S]. destruct (Forall2_lookup_lr _ _ _ _ _ _ Hde Hi Hq) as [o' K].
    by exists ms, o'. }
  intros w3 m3 [el R3] Wm3. rewrite Emap. apply wpw_ret. by apply (HQ al el _ w3 m3).
Qed.

Lemma wp_bus_event_decode d desc adds removes evts qs eqs w m b rest
    (Q : option positive * buffer -> world -> mem -> Prop) :
  receives d desc adds removes evts qs eqs w m -> members_sound adds removes evts ->
  few_members adds removes evts -> uid_ok (bed_uid desc) -> mem_wf m -> buf_wf b ->
  buf_rest b = bus_event_wire desc adds removes evts ++ rest ->
  (forall al el k w' m', received w desc adds qs (zip evts eqs) al el w' m' ->
     buf_wf (with_pos b k) -> buf_rest (with_pos b k) = rest -> Q (Some (w_next w), with_pos b k) w' m') ->
  wpw (obus_bus_event_decode b) Q w m.
Proof.
  intros RV S [] Hu Wm Wb Hr HQ. pose proof RV as [[D [ma HA]] RO AB Hd _ _ _ _]. pose proof Hu as Hu'. unfold uid_ok in Hu'.
  unfold bus_event_wire in Hr. rewrite <- !app_assoc in Hr. unfold obus_bus_event_decode.
  eapply (wpw_read_u16 (bed_uid desc)); [lia|done|exact Hr|]. intros b1 E1 W1 Hr1.
  eapply (wpw_read_u32 (Z.of_nat (length adds))); [lia|done|exact Hr1|]. intros b2 E2 W2 Hr2.
  eapply (wpw_read_u32 (Z.of_nat (length removes))); [lia|done|exact Hr2|]. intros b3 E3 W3 Hr3.
  eapply (wpw_read_u32 (Z.of_nat (length evts))); [lia|done|exact Hr3|]. intros b4 E4 W4 Hr4.
  apply wpw_bind, wpw_gets, wpw_bind, wpw_lift. exists (Some desc), m. split; [by eapply api_bus_event_found|].
  apply wpw_bind, wp_bus_event_new. intros m1 Hm1.
  eapply (wp_decode_members d desc adds removes evts qs eqs w m); [exact RV|exact S| | |exact W4|exact Hr4|].
  - constructor; cbn -[Pos.lt Pos.le]; [done..|lia|done|done|done|constructor|constructor].
  - by eapply same_blocks_wf.
  - intros al el k w' m' R Wk Hk. subst b1 b2 b3 b4. by apply (HQ al el k w' m').
Qed.
End Decode.

Section Roundtrip.
Context {AL : Allocator} `{!AmpleMemory AL}.

(** C18: a bus event crosses the wire, where no allocation is refused. The packet of a bus event, with any objects,
    removals and events whose contents are sound, makes the decoder of a receiver that
    can follow it return 0 and one new bus event of the same kind. The
    receiver gets, in the order they were sent, an object of its own for each object
    added and an event of its own for each event, with the same contents and linked
    to the bus event, and the removed objects it had under the same handles; the
    rest of its bus is not touched, and what followed the packet stays. *)
Theorem bus_event_roundtrip p b adds removes evts buf w m :
  buf_wf buf -> w_bevs w !! p = Some b -> bus_event_sound w m b adds removes evts ->
  packet_size (bus_event_wire (be_desc b) adds removes evts) < 2 ^ 32 ->
  wpw (obus_packet_bus_event_encode buf p)
      (fun r w' m' => fst r = 0 /\ w' = w /\
         forall d qs eqs dec rb script rest fuel wr mr,
           mem_wf mr -> receives d (be_desc b) adds removes evts qs eqs wr mr ->
           buf_wf rb -> buf_pos rb = 0 -> buf_bytes rb = buf_bytes (snd r) ++ rest -> d_hdr_valid dec = false ->
           wpw (obus_packet_decoder_read (S fuel) dec rb script)
               (fun x w2 m2 => let '(ret, info, dec', rb', script') := x in
                  ret = 0 /\ script' = script /\ d_hdr_valid dec' = false /\ buf_bytes rb' = rest /\
                  info = Some (InfoBusEvent (w_next wr)) /\
                  exists al el, received wr (be_desc b) adds qs (zip evts eqs) al el w2 m2) wr mr) w m.
Proof.
  intros W Hp S Hs. pose proof (sound_members _ _ _ _ _ _ S) as SM. pose proof (members_of_packet _ _ _ _ Hs) as Hf.
  eapply wpw_mono; [by apply wp_send_bus_event|].
  intros [ret b'] w' m' (-> & Hm & _ & _ & _ & [[Hr Hbytes]|[_ Hr]]); cbn [fst snd] in *;
    [|exfalso; eapply ample_not_refused; [|exact Hr]; unfold PTRDIFF_MAX; lia].
  split_and!; [done..|]. intros d qs eqs dec rb script rest fuel wr mr Wm RV Wr Hp0 Hrb Hd. rewrite Hbytes in Hrb.
  eapply wpw_mono; [eapply (wp_decoder_read fuel dec rb script OBUS_PKT_BUS_EVENT _ rest
    (fun info w2 m2 => info = Some (InfoBusEvent (w_next wr)) /\
       exists al el, received wr (be_desc b) adds qs (zip evts eqs) al el w2 m2)); try done|].
  2:{ intros [[[[ret' info] d'] rb'] script'] w' m2 (? & (? & ?) & ? & ? & _ & _ & ?). by split_and!. }
  intros b1 W1 Hp1 Hr1. unfold decode_payload_of, map_info, obus_packet_bus_event_decode, or_enoent.
  cbn [Z.eqb OBUS_PKT_CONREQ OBUS_PKT_CONRESP OBUS_PKT_ADD OBUS_PKT_REMOVE OBUS_PKT_BUS_EVENT Pos.eqb].
  apply wpw_bind, wpw_bind. eapply wp_bus_event_decode; [exact RV|exact SM|exact Hf|apply S|done|exact W1|exact Hr1|].
  intros al el k w2 m2 R Wk Hk. apply wpw_ret, wpw_ret. split; [done|]. split.
  - exists k. split; [done|]. apply Wk.
  - split; [done|]. by exists al, el.
Qed.
End Roundtrip.

(** ** Witness: one object added, one removed, one event *)

Section Witness.
#[local] Existing Instance ample_alloc.

Definition wit_added_obj : obus_object := Object false true wit_rich 8 true 0 wit_struct [0].
Definition wit_group : obus_bus_event := BusEvent (BusEventDesc 41 1) [2%positive] [1%positive] [3%positive] true true.
Definition wit_group_w : world :=
  World (w_bus wit_rich_w) {[1%positive := wit_rich_obj; 2%positive := wit_added_obj]}
    {[3%positive := Event true wit_event 1 true true wit_struct]} ∅ {[4%positive := wit_group]} ∅ 5 [].
Definition wit_group_evts : list sent_event :=
  [(wit_rich_obj, Event true wit_event 1 true true wit_struct, wit_contents)].

Lemma wit_group_sound : bus_event_sound wit_group_w wit_mem wit_group
  [(wit_added_obj, wit_contents)] [wit_rich_obj] wit_group_evts.
Proof.
  constructor; [unfold uid_ok; cbn; lia| | |]; (apply Forall2_cons; split; [|by apply Forall2_nil]); split; try reflexivity.
  - constructor; cbn [ob_info ob_desc ob_handle wit_added_obj od_uid od_info_desc wit_rich fst snd];
      [reflexivity|exact wit_struct_shape|exact wit_struct_denotes|exact wit_contents_ok|
       unfold uid_ok; lia|lia|vm_compute; reflexivity|vm_compute; congruence].
  - unfold uid_ok. cbn. lia.
  - split; [reflexivity|].
    constructor; [reflexivity|by left|exact wit_struct_shape|exact wit_struct_denotes|exact wit_contents_ok| |];
      vm_compute; [reflexivity|discriminate].
Qed.

(** The receiver has the object 9, at the address 1. *)
Definition wit_known : obus_object := Object true false wit_rich 9 true 0 wit_struct [0].
Definition wit_known_w (api : obus_bus_api) : world :=
  World (Bus api zero_hash [] wit_known_table [1%positive] zero_hash []) {[1%positive := wit_known]} ∅ ∅ ∅ ∅ 2 [].

Lemma wit_known_objects api : objects_wf (wit_known_w api) (Mem ∅ 1 1).
Proof.
  constructor; [apply wit_known_table_wf|]. intros hdl p (e & He & <- & <-)%(reg_lookup _ (Mem ∅ 1 1));
    [|apply (wit_known_table_wf 0)]. cbn in He. apply list_elem_of_singleton in He as ->.
  split; [done|]. by eexists.
Qed.

Lemma wit_receives : exists api, receives wit_rich_bus (BusEventDesc 41 1)
  [(wit_added_obj, wit_contents)] [wit_rich_obj] wit_group_evts [1%positive] [1%positive]
  (wit_known_w api) (Mem ∅ 1 1).
Proof.
  destruct wit_rich_loaded as [wr HL]. exists (b_api (w_bus wr)).
  constructor; [exact HL|exact (wit_known_objects _)| |by left|apply Forall_singleton; by left| |apply NoDup_singleton|].
  - split; cbn; [|done]. intros q o Hq. apply lookup_singleton_Some in Hq as [<- _]. lia.
  - apply Forall2_cons; split; [|by apply Forall2_nil]. split; [vm_compute; reflexivity|]. by eexists.
  - apply Forall2_cons; split; [|by apply Forall2_nil]. exists wit_known.
    constructor; [exact HL|exact (wit_known_objects _)|by left|cbn; lia|vm_compute; reflexivity|reflexivity|reflexivity].
Qed.

Lemma bus_event_roundtrip_witness :
  exists api, wpw (obus_packet_bus_event_encode wit_buf 4)
    (fun r w' m' => fst r = 0 /\
       forall rb, buf_wf rb -> buf_pos rb = 0 -> buf_bytes rb = buf_bytes (snd r) ++ [] ->
         wpw (obus_packet_decoder_read 1 wit_decoder rb [])
             (fun x w2 m2 => let '(ret, info, _, _, _) := x in
                ret = 0 /\ info = Some (InfoBusEvent 2) /\
                exists a e st, w_bevs w2 = {[2%positive := BusEvent (BusEventDesc 41 1) [a] [1%positive] [e] false true]} /\
                  w_objs w2 !! 1%positive = Some (with_event_node wit_known true) /\
                  w_objs w2 !! a = Some (received_object wit_added_obj st true) /\
                  struct_denotes m2 st (struct_back wit_desc wit_contents))
             (wit_known_w api) (Mem ∅ 1 1)) wit_group_w wit_mem.
Proof.
  destruct wit_receives as [api RV]. exists api.
  eapply wpw_mono; [apply (bus_event_roundtrip 4 wit_group [(wit_added_obj, wit_contents)] [wit_rich_obj] wit_group_evts
    wit_buf wit_group_w wit_mem)|].
  - exact wit_buf_wf.
  - reflexivity.
  - exact wit_group_sound.
  - vm_compute. reflexivity.
  - intros [ret b'] w' m' (Hr & _ & H). split; [exact Hr|]. intros rb Wr Hp Hb.
    assert (mem_wf (Mem ∅ 1 1)) as Wm by by intros p [x Hx].
    eapply wpw_mono; [apply (H wit_rich_bus [1%positive] [1%positive] wit_decoder rb [] [] 0%nat (wit_known_w api) (Mem ∅ 1 1) Wm RV Wr Hp Hb eq_refl)|].
    intros [[[[ret' info] d'] rb'] sc'] w2 m2 (H1 & _ & _ & _ & H2 & al & el & R).
    split; [exact H1|]. split; [exact H2|]. destruct R as [_ _ _ _ _ Ro _ Rb Ra Re].
    inversion Ra as [|a x al' xs' Ha Hnil]; subst. inversion Hnil; subst. clear Ra Hnil.
    inversion Re as [|e y el' ys' He Hnil]; subst. inversion Hnil; subst. clear Re Hnil.
    destruct Ha as (_ & st & Ho & _ & SD). exists a, e, st.
    split; [rewrite Rb; reflexivity|]. split; [|split; [exact Ho|exact SD]].
    rewrite (Ro 1%positive wit_known eq_refl). reflexivity.
Defined.

(** A record that removes the same object twice links its node twice: the decoder
    does not look at the node, as the public functions do. *)
Definition wit_twice : buffer :=
  Buffer 22 22 0 ([0; 1] ++ [0; 0; 0; 0] ++ [0; 0; 0; 2] ++ [0; 0; 0; 0] ++ [0; 1; 0; 9] ++ [0; 1; 0; 9]) 1.

(** With the api that the initialisation makes. *)
Definition with_loaded {A} (f : obus_bus_api -> mem -> A) : option A :=
  '((_, api), m) ← obus_bus_api_init wit_rich_bus mem0; Some (f api m).

Lemma remove_twice_breaks :
  with_loaded (fun api m => match obus_bus_event_decode wit_twice (wit_known_w api) m with
    | None => true
    | Some _ => false
    end) = Some true.
Proof. vm_compute. reflexivity. Qed.

(** The counts of a record are not compared with its size: a bus event of fourteen
    bytes announces 300 objects, each of them looked for in a buffer that is empty. *)
Definition wit_counts : buffer :=
  Buffer 14 14 0 ([0; 1] ++ [0; 0; 1; 44] ++ [0; 0; 0; 0] ++ [0; 0; 0; 0]) 1.

Lemma counts_are_trusted :
  with_loaded (fun api m => match obus_bus_event_decode wit_counts (wit_known_w api) m with
    | Some ((p, b, w), _) => Some (p, b, w_bevs w !! 2%positive)
    | None => None
    end) = Some (Some (Some 2%positive, with_pos wit_counts 14,
                       Some (BusEvent (BusEventDesc 41 1) [] [] [] false true))).
Proof. vm_compute. reflexivity. Qed.
End Witness.
