(* ===== verification/Handler.v ===== *)
(** * Handlers: computations on a component that owns a bus

    The server and the client are records; their handlers and their interface are
    state-passing computations over such a record [S] and the typed heap of the
    bus.  [Kernel] gives the answers of the system calls, in the order they are
    asked for; the count of the questions is part of the state of a component. *)
From S2P Require Import Prelude Mem Cstring Buffer Pool Desc Field Struct Hash BusApi World Bus Io.

Definition StW (S A : Type) : Type := S -> W (A * S).

#[export] Instance StW_ret {S} : MRet (StW S) := fun A a s => mret (a, s).
#[export] Instance StW_bind {S} : MBind (StW S) := fun A B f c s =>
  '(a, s') ← c s; f a s'.

Definition on_bus {S A} (c : W A) : StW S A := fun s => a ← c; mret (a, s).
Definition on_mem {S A} (c : M A) : StW S A := on_bus (lift c).
Definition sv_gets {S A} (f : S -> A) : StW S A := fun s => mret (f s, s).
Definition sv_modify {S} (f : S -> S) : StW S unit := fun s => mret (tt, f s).
Definition sv_undef {S A} : StW S A := on_bus w_undef.

Class Kernel := {
  k_write : nat -> list sys_write;   (* the write calls of one io operation *)
  k_read : nat -> list sys_read;     (* the read calls of one read event *)
  k_rand : nat -> list Z;            (* the handles drawn by one registration *)
  k_ok : nat -> bool                 (* is a timer created, a descriptor watched? *)
}.

(** A state that counts the questions it has asked. *)
Class Ticking (S : Type) := {
  tick : S -> nat;
  with_tick : S -> nat -> S
}.

Definition ask {S A} `{Ticking S} (f : nat -> A) : StW S A :=
  n ← sv_gets tick; sv_modify (fun s => with_tick s (Datatypes.S n));; mret (f n).

(** [sizeof] of an io. *)
Definition IO_SIZE : Z := 232.

(** The timer is created, then the descriptor is watched for reading. *)
Definition obus_io_new {S} `{Ticking S} {AL : Allocator} {KE : Kernel} : StW S (option obus_io) :=
  a ← on_mem (m_alloc IO_SIZE);
  match a with
  | None => mret None
  | Some _ =>
    timer ← ask k_ok;
    if negb timer then mret None else
    added ← ask k_ok;
    if negb added then mret None else
    mret (Some (Io [] 0 false false (obus_buffer_pool_init 0) [] []))
  end.

(** [obus_list_walk_entry_forward_safe] over a list of the state: the next member
    is read before the body runs.  The list does not grow during a walk, so its
    length is fuel enough. *)
Fixpoint walk {S} (get : StW S (list positive)) (fuel : nat) (cur : option positive)
    (body : positive -> StW S unit) : StW S unit :=
  match cur with
  | None => mret tt
  | Some p =>
    match fuel with
    | O => sv_undef
    | Datatypes.S fuel' =>
      l ← get;
      after ← on_mem (m_lift (list_after p l));
      body p;;
      walk get fuel' (head after) body
    end
  end.

Definition walk_list {S} (get : StW S (list positive)) (body : positive -> StW S unit) : StW S unit :=
  l ← get; walk get (length l) (head l) body.

(** ** Weakest preconditions *)

Definition wps {S A} (c : StW S A) (Q : A -> S -> world -> mem -> Prop)
    (s : S) (w : world) (m : mem) : Prop :=
  wpw (c s) (fun r w' m' => Q (fst r) (snd r) w' m') w m.

Section WPS.
Context {S A B : Type}.

Lemma wps_ret (a : A) (Q : A -> S -> world -> mem -> Prop) s w m :
  Q a s w m -> wps (mret a) Q s w m.
Proof. intros H. by apply wpw_ret. Qed.

Lemma wps_bind (c : StW S A) (f : A -> StW S B) (Q : B -> S -> world -> mem -> Prop) s w m :
  wps c (fun a s' w' m' => wps (f a) Q s' w' m') s w m -> wps (c ≫= f) Q s w m.
Proof.
  intros H. unfold wps, wpw, mbind, StW_bind, mbind, W_bind in *.
  eapply wp_bind_mono; [exact H|]. intros [[a s'] w'] m' HQ. exact HQ.
Qed.

Lemma wps_mono (c : StW S A) (Q Q' : A -> S -> world -> mem -> Prop) s w m :
  wps c Q s w m -> (forall a s' w' m', Q a s' w' m' -> Q' a s' w' m') -> wps c Q' s w m.
Proof.
  intros H Hi. unfold wps, wpw in *. eapply wp_mono; [exact H|]. intros [[a s'] w'] m'. apply Hi.
Qed.

Lemma wps_bus (c : W A) (Q : A -> S -> world -> mem -> Prop) s w m :
  wpw c (fun a w' m' => Q a s w' m') w m -> wps (on_bus c) Q s w m.
Proof.
  intros H. unfold wps, wpw, on_bus, mbind, W_bind in *. eapply wp_bind_mono; [exact H|].
  intros [a w'] m' HQ. by apply wp_ret.
Qed.

Lemma wps_mem (c : M A) (Q : A -> S -> world -> mem -> Prop) s w m :
  wp c (fun a m' => Q a s w m') m -> wps (on_mem c) Q s w m.
Proof. intros H. by apply wps_bus, wpw_lift. Qed.

Lemma wps_gets (f : S -> A) (Q : A -> S -> world -> mem -> Prop) s w m :
  Q (f s) s w m -> wps (sv_gets f) Q s w m.
Proof. intros H. by apply wpw_ret. Qed.

Lemma wps_ask {TS : Ticking S} (f : nat -> A) (Q : A -> S -> world -> mem -> Prop) s w m :
  Q (f (tick s)) (with_tick s (Datatypes.S (tick s))) w m -> wps (ask f) Q s w m.
Proof. intros H. by repeat apply wpw_ret. Qed.

End WPS.

Lemma wps_modify {S} (f : S -> S) (Q : unit -> S -> world -> mem -> Prop) s w m :
  Q tt (f s) w m -> wps (sv_modify f) Q s w m.
Proof. intros H. by apply wpw_ret. Qed.

(** ** Walks *)

Lemma list_after_app p pre l : p ∉ pre -> list_after p (pre ++ p :: l) = Some l.
Proof.
  induction pre as [|x pre IH]; intros Hp; cbn.
  - by rewrite decide_True.
  - rewrite decide_False by (intros ->; apply Hp; by left). apply IH. intros H. apply Hp. by right.
Qed.

Section Walk.
Context {S : Type} (get : StW S (list positive)) (view : S -> world -> list positive).
Hypothesis get_view : forall (Q : list positive -> S -> world -> mem -> Prop) s w m,
  Q (view s w) s w m -> wps get Q s w m.

(** A body that removes the current member at most. *)
Lemma wps_walk (I : list positive -> list positive -> S -> world -> mem -> Prop)
    (body : positive -> StW S unit) fuel pre l s w m :
  (length l <= fuel)%nat -> view s w = pre ++ l -> NoDup (pre ++ l) -> I pre l s w m ->
  (forall pre p l s w m, view s w = pre ++ p :: l -> NoDup (pre ++ p :: l) -> I pre (p :: l) s w m ->
     wps (body p) (fun _ s' w' m' => exists pre', (pre' = pre ++ [p] \/ pre' = pre) /\
        view s' w' = pre' ++ l /\ I pre' l s' w' m') s w m) ->
  wps (walk get fuel (head l) body) (fun _ s' w' m' => I (view s' w') [] s' w' m') s w m.
Proof.
  revert fuel pre s w m. induction l as [|p l IH]; intros fuel pre s w m Hf Hp HN HI Hb.
  - destruct fuel; cbn; apply wps_ret; by rewrite Hp, app_nil_r.
  - cbn in Hf. destruct fuel as [|fuel]; [lia|]. cbn [walk head].
    apply NoDup_app in HN as HN'. destruct HN' as (HN1 & HN2 & HN3).
    apply wps_bind, get_view, wps_bind, wps_mem. rewrite Hp, list_after_app.
    2:{ intros H. apply (HN2 _ H). by left. }
    eapply wp_lift; [done|]. apply wps_bind. eapply wps_mono; [by apply Hb|].
    intros [] s' w' m' (pre' & Hpre & Hp' & HI'). apply (IH fuel pre'); [lia|done| |done|done].
    destruct Hpre as [->| ->]; [by rewrite <- app_assoc|].
    apply NoDup_app. split_and!; [done| |by apply NoDup_cons in HN3 as [_ ?]].
    intros y Hy Hyl. apply (HN2 _ Hy). by right.
Qed.

Lemma wps_walk_list (I : list positive -> list positive -> S -> world -> mem -> Prop)
    (body : positive -> StW S unit) s w m :
  NoDup (view s w) -> I [] (view s w) s w m ->
  (forall pre p l s w m, view s w = pre ++ p :: l -> NoDup (pre ++ p :: l) -> I pre (p :: l) s w m ->
     wps (body p) (fun _ s' w' m' => exists pre', (pre' = pre ++ [p] \/ pre' = pre) /\
        view s' w' = pre' ++ l /\ I pre' l s' w' m') s w m) ->
  wps (walk_list get body) (fun _ s' w' m' => I (view s' w') [] s' w' m') s w m.
Proof. intros HN HI Hb. unfold walk_list. apply wps_bind, get_view. by apply wps_walk with (pre := []). Qed.
End Walk.

(** ** Runs *)

Lemma wp_run {A} (c : M A) Q m : wp c Q m -> exists a m', c m = Some (a, m') /\ Q a m'.
Proof. done. Qed.

Section Runs.
Context {S A B : Type}.

Lemma run_bind (c : StW S A) (f : A -> StW S B) s w m a s1 w1 m1 :
  c s w m = Some ((a, s1), w1, m1) -> (c ≫= f) s w m = f a s1 w1 m1.
Proof. intros H. unfold mbind, StW_bind, mbind, W_bind, mbind, M_bind. by rewrite H. Qed.

Lemma run_bind_none (c : StW S A) (f : A -> StW S B) s w m : c s w m = None -> (c ≫= f) s w m = None.
Proof. intros H. unfold mbind, StW_bind, mbind, W_bind, mbind, M_bind. by rewrite H. Qed.

Lemma run_assoc {D} (c : StW S A) (f : A -> StW S B) (g : B -> StW S D) s w m :
  ((c ≫= f) ≫= g) s w m = (c ≫= (fun a => f a ≫= g)) s w m.
Proof.
  unfold mbind, StW_bind, mbind, W_bind, mbind, M_bind. by destruct (c s w m) as [[[[a s1] w1] m1]|].
Qed.

Lemma run_bus (c : W A) (s : S) w m a w1 m1 :
  c w m = Some ((a, w1), m1) -> on_bus c s w m = Some ((a, s), w1, m1).
Proof. intros H. unfold on_bus, mbind, W_bind, mbind, M_bind. by rewrite H. Qed.

Lemma run_mem (c : M A) (s : S) w m a m1 : c m = Some (a, m1) -> on_mem c s w m = Some ((a, s), w, m1).
Proof. intros H. apply run_bus. unfold lift, mbind, M_bind. by rewrite H. Qed.

Lemma bind_inv (c : StW S A) (f : A -> StW S B) s w m r :
  (c ≫= f) s w m = Some r -> exists a s1 w1 m1, c s w m = Some ((a, s1), w1, m1) /\ f a s1 w1 m1 = Some r.
Proof.
  unfold mbind, StW_bind, mbind, W_bind, mbind, M_bind.
  destruct (c s w m) as [[[[a s1] w1] m1]|] eqn:E; [|done]. intros H. by exists a, s1, w1, m1.
Qed.

Lemma bus_inv (c : W A) (s : S) w m a s' w' m' :
  on_bus c s w m = Some ((a, s'), w', m') -> s' = s.
Proof.
  unfold on_bus, mbind, W_bind, mbind, M_bind, mret, W_ret, mret, M_ret.
  destruct (c w m) as [[[a1 w1] m1]|]; [|done]. by intros [= _ <- _ _].
Qed.
End Runs.

(** ** Invariants of runs

    A run of [c] keeps [I]; [R] relates the states before and after. *)
Definition keeps {S A} (I : S -> Prop) (R : S -> S -> Prop) (c : StW S A) : Prop :=
  forall s w m a s' w' m', c s w m = Some ((a, s'), w', m') -> I s -> I s' /\ R s s'.

Section Keeps.
Context {S A B : Type} (I : S -> Prop) (R : S -> S -> Prop).

Lemma keeps_weaken (R' : S -> S -> Prop) (c : StW S A) :
  (forall s s', R s s' -> R' s s') -> keeps I R c -> keeps I R' c.
Proof. intros HR H s w m a s' w' m' E C. destruct (H _ _ _ _ _ _ _ E C). split; [done|by apply HR]. Qed.

Context `{!PreOrder R}.

Lemma keeps_ret (a : A) : keeps I R (mret a).
Proof. by intros s w m a' s' w' m' [= <- <- <- <-]. Qed.

Lemma keeps_bus (c : W A) : keeps I R (on_bus c).
Proof. by intros s w m a s' w' m' ->%bus_inv. Qed.

Lemma keeps_gets (f : S -> A) : keeps I R (sv_gets f).
Proof. by intros s w m a' s' w' m' [= <- <- <- <-]. Qed.

Lemma keeps_bind (c : StW S A) (f : A -> StW S B) :
  keeps I R c -> (forall a, keeps I R (f a)) -> keeps I R (c ≫= f).
Proof.
  intros H1 H2 s w m b s' w' m' (a & s1 & w1 & m1 & E1 & E2)%bind_inv C.
  destruct (H1 _ _ _ _ _ _ _ E1 C) as [C1 R1]. destruct (H2 a _ _ _ _ _ _ _ E2 C1) as [C2 R2].
  split; [done|by etransitivity].
Qed.

Lemma keeps_undef : keeps I R (sv_undef (A := A)).
Proof. by intros s w m a s' w' m' H. Qed.
End Keeps.

(** A weakest precondition with the run itself, and with what its runs keep. *)
Lemma wps_run {S A} (c : StW S A) (Q : A -> S -> world -> mem -> Prop) s w m :
  wps c Q s w m ->
  wps c (fun a s' w' m' => Q a s' w' m' /\ c s w m = Some ((a, s'), w', m')) s w m.
Proof. intros ([[a s1] w1] & m1 & E & H). exists (a, s1, w1), m1. by split. Qed.

(** What a run that is known leaves. *)
Lemma wps_at {S A} (c : StW S A) (Q : A -> S -> world -> mem -> Prop) s w m a s' w' m' :
  c s w m = Some (((a, s'), w'), m') -> wps c Q s w m <-> Q a s' w' m'.
Proof.
  intros E. split.
  - intros ([[a1 s1] w1] & m1 & E1 & H). rewrite E in E1. by injection E1 as <- <- <- <-.
  - intros H. exists ((a, s'), w'), m'. by split.
Qed.

Lemma wps_keeps {S A} (I : S -> Prop) (R : S -> S -> Prop) (c : StW S A)
    (Q : A -> S -> world -> mem -> Prop) s w m :
  keeps I R c -> I s -> wps c Q s w m ->
  wps c (fun a s' w' m' => Q a s' w' m' /\ I s' /\ R s s') s w m.
Proof.
  intros HK HI H. eapply wps_mono; [by apply wps_run|]. intros a s' w' m' [HQ E].
  split; [done|]. by eapply HK.
Qed.

(** Sequences of steps that keep an invariant; the steps on the state itself are
    hints. *)
Create HintDb keeps discriminated.
Ltac keeps_step :=
  match goal with
  | |- keeps ?I ?R (mret _) => apply (keeps_ret I R)
  | |- keeps ?I ?R (on_bus _) => apply (keeps_bus I R)
  | |- keeps ?I ?R (on_mem _) => apply (keeps_bus I R)
  | |- keeps ?I ?R (sv_gets _) => apply (keeps_gets I R)
  | |- keeps ?I ?R sv_undef => apply (keeps_undef I R)
  | |- keeps ?I ?R (_ ≫= _) => apply (keeps_bind I R); [|intros ?]
  | |- keeps _ _ (match ?x with _ => _ end) => destruct x
  | |- keeps _ _ (let _ := _ in _) => cbv zeta
  | |- keeps _ _ _ => solve [eauto 2 with keeps]
  end.
Ltac keeps := repeat keeps_step.

Lemma keeps_walk {S} (I : S -> Prop) (R : S -> S -> Prop) `{!PreOrder R} get body fuel cur :
  keeps I R get -> (forall p, keeps I R (body p)) -> keeps I R (walk get fuel cur body).
Proof. intros Hg Hb. revert cur. induction fuel as [|fuel IH]; intros [p|]; cbn; keeps. Qed.
