(* ===== verification/ServerState.v ===== *)
(** * obus_server.c: the state of a server, its peers, and what surrounds it

    A peer owns an [obus_io] and a packet decoder; the pool of buffers is the
    server's, so it is moved into the io of a peer for the time of an io
    operation ([with_peer_io]).  The class [UserCode] stands for the callbacks of
    the application, which may use the whole interface of the server. *)
From S2P Require Import Prelude Mem Cstring Buffer Pool Desc Field Struct Hash BusApi World Bus Object Event Call BusEvent Io Packet Handler.

Inductive obus_server_state := SERVER_STATE_IDLE | SERVER_STATE_STARTED.

Inductive obus_peer_state :=
| PEER_STATE_IDLE | PEER_STATE_CONNECTING | PEER_STATE_CONNECTED
| PEER_STATE_DISCONNECTED | PEER_STATE_REFUSED.

Inductive obus_peer_event :=
| OBUS_PEER_EVENT_CONNECTING | OBUS_PEER_EVENT_CONNECTED | OBUS_PEER_EVENT_DISCONNECTED.

#[export] Instance obus_peer_state_eq_dec : EqDecision obus_peer_state.
Proof. solve_decision. Defined.

(** The member [pr_dbuf] is the buffer of the decoder. *)
Record obus_peer := Peer {
  pr_name : cstr;
  pr_state : obus_peer_state;
  pr_io : obus_io;
  pr_decoder : obus_packet_decoder;
  pr_dbuf : positive;
  pr_user_data : Z
}.

(** Callbacks are addresses, 0 for NULL.  [sv_bus_name] is the name of the bus
    description, [sv_tick] the number of answers asked from the kernel. *)
Record obus_server := Server {
  sv_peers : list positive;
  sv_store : gmap positive obus_peer;
  sv_bus_name : list Z;
  sv_n_sks : Z;
  sv_pool : pool;
  sv_call : option positive;
  sv_state : obus_server_state;
  sv_n_peers_connected : Z;
  sv_peer_connection_cb : Z;
  sv_user_data : Z;
  sv_next : positive;
  sv_tick : nat
}.

Definition set_peers (s : obus_server) l : obus_server :=
  Server l (sv_store s) (sv_bus_name s) (sv_n_sks s) (sv_pool s) (sv_call s) (sv_state s)
    (sv_n_peers_connected s) (sv_peer_connection_cb s) (sv_user_data s) (sv_next s) (sv_tick s).
Definition set_store (s : obus_server) m : obus_server :=
  Server (sv_peers s) m (sv_bus_name s) (sv_n_sks s) (sv_pool s) (sv_call s) (sv_state s)
    (sv_n_peers_connected s) (sv_peer_connection_cb s) (sv_user_data s) (sv_next s) (sv_tick s).
Definition set_pool (s : obus_server) pl : obus_server :=
  Server (sv_peers s) (sv_store s) (sv_bus_name s) (sv_n_sks s) pl (sv_call s) (sv_state s)
    (sv_n_peers_connected s) (sv_peer_connection_cb s) (sv_user_data s) (sv_next s) (sv_tick s).
Definition set_call (s : obus_server) c : obus_server :=
  Server (sv_peers s) (sv_store s) (sv_bus_name s) (sv_n_sks s) (sv_pool s) c (sv_state s)
    (sv_n_peers_connected s) (sv_peer_connection_cb s) (sv_user_data s) (sv_next s) (sv_tick s).
Definition set_started (s : obus_server) n : obus_server :=
  Server (sv_peers s) (sv_store s) (sv_bus_name s) n (sv_pool s) (sv_call s) SERVER_STATE_STARTED
    (sv_n_peers_connected s) (sv_peer_connection_cb s) (sv_user_data s) (sv_next s) (sv_tick s).
Definition set_n_connected (s : obus_server) n : obus_server :=
  Server (sv_peers s) (sv_store s) (sv_bus_name s) (sv_n_sks s) (sv_pool s) (sv_call s) (sv_state s)
    n (sv_peer_connection_cb s) (sv_user_data s) (sv_next s) (sv_tick s).
Definition set_connection_cb (s : obus_server) cb ud : obus_server :=
  Server (sv_peers s) (sv_store s) (sv_bus_name s) (sv_n_sks s) (sv_pool s) (sv_call s) (sv_state s)
    (sv_n_peers_connected s) cb ud (sv_next s) (sv_tick s).
Definition set_next_peer (s : obus_server) n : obus_server :=
  Server (sv_peers s) (sv_store s) (sv_bus_name s) (sv_n_sks s) (sv_pool s) (sv_call s) (sv_state s)
    (sv_n_peers_connected s) (sv_peer_connection_cb s) (sv_user_data s) n (sv_tick s).
Definition set_tick (s : obus_server) n : obus_server :=
  Server (sv_peers s) (sv_store s) (sv_bus_name s) (sv_n_sks s) (sv_pool s) (sv_call s) (sv_state s)
    (sv_n_peers_connected s) (sv_peer_connection_cb s) (sv_user_data s) (sv_next s) n.

Definition with_state (p : obus_peer) st : obus_peer :=
  Peer (pr_name p) st (pr_io p) (pr_decoder p) (pr_dbuf p) (pr_user_data p).
Definition with_name (p : obus_peer) n : obus_peer :=
  Peer n (pr_state p) (pr_io p) (pr_decoder p) (pr_dbuf p) (pr_user_data p).
Definition with_io (p : obus_peer) io : obus_peer :=
  Peer (pr_name p) (pr_state p) io (pr_decoder p) (pr_dbuf p) (pr_user_data p).
Definition with_decoder (p : obus_peer) d : obus_peer :=
  Peer (pr_name p) (pr_state p) (pr_io p) d (pr_dbuf p) (pr_user_data p).
Definition with_user_data (p : obus_peer) ud : obus_peer :=
  Peer (pr_name p) (pr_state p) (pr_io p) (pr_decoder p) (pr_dbuf p) ud.

(** ** The computations of the server *)

Notation SV := (StW obus_server).

#[export] Instance server_ticking : Ticking obus_server := {
  tick := sv_tick;
  with_tick := set_tick
}.

Definition get_peer (p : positive) : SV obus_peer :=
  m ← sv_gets sv_store; on_mem (m_lift (m !! p)).
Definition put_peer (p : positive) (x : obus_peer) : SV unit :=
  sv_modify (fun s => set_store s (<[p := x]> (sv_store s))).
Definition free_peer (p : positive) : SV unit :=
  sv_modify (fun s => set_store s (delete p (sv_store s))).

(** An operation on the pool. *)
Definition on_pool {A} (c : pool -> M (A * pool)) : SV A :=
  pl ← sv_gets sv_pool;
  '(a, pl) ← on_mem (c pl);
  sv_modify (fun s => set_pool s pl);;
  mret a.

(** An operation on the io of a peer, with the pool of the server. *)
Definition with_peer_io {A} (p : positive) (c : obus_io -> M (A * obus_io)) : SV A :=
  x ← get_peer p;
  pl ← sv_gets sv_pool;
  '(a, io) ← on_mem (c (with_pool (pr_io x) pl));
  sv_modify (fun s => set_pool s (io_pool io));;
  put_peer p (with_io x io);;
  mret a.

(** ** The application *)

Class UserCode := {
  connection_cb : Z -> obus_peer_event -> positive -> Z -> SV unit;
  method_handler : Z -> positive -> Z -> option obus_struct -> SV unit
}.

(** ** Weakest preconditions *)

Lemma wps_pool {A} (c : pool -> M (A * pool)) (Q : A -> obus_server -> world -> mem -> Prop) s w m :
  wp (c (sv_pool s)) (fun r m' => Q (fst r) (set_pool s (snd r)) w m') m ->
  wps (on_pool c) Q s w m.
Proof.
  intros H. unfold on_pool. apply wps_bind, wps_gets, wps_bind, wps_mem.
  eapply wp_mono; [exact H|]. intros [a pl] m' HQ. by apply wps_bind, wps_modify, wps_ret.
Qed.

Lemma wps_get_peer p x (Q : obus_peer -> obus_server -> world -> mem -> Prop) s w m :
  sv_store s !! p = Some x -> Q x s w m -> wps (get_peer p) Q s w m.
Proof.
  intros Hp HQ. unfold get_peer. apply wps_bind, wps_gets, wps_mem. by eapply wp_lift.
Qed.

Lemma wps_peer_io {A} p x (c : obus_io -> M (A * obus_io))
    (Q : A -> obus_server -> world -> mem -> Prop) s w m :
  sv_store s !! p = Some x ->
  wp (c (with_pool (pr_io x) (sv_pool s)))
     (fun r m' => Q (fst r) (set_store (set_pool s (io_pool (snd r)))
        (<[p := with_io x (snd r)]> (sv_store s))) w m') m ->
  wps (with_peer_io p c) Q s w m.
Proof.
  intros Hp H. unfold with_peer_io. apply wps_bind. eapply wps_get_peer; [exact Hp|].
  apply wps_bind, wps_gets, wps_bind, wps_mem. eapply wp_mono; [exact H|]. intros [a io] m' HQ.
  apply wps_bind, wps_modify. apply wps_bind, wps_modify, wps_ret. exact HQ.
Qed.
