(* ===== verification/Server.v ===== *)
(** * obus_server.c: peers, connection requests, calls, and what a server sends

    The server API (objects, events, bus events, acknowledgments) and the
    handlers the loop calls (accept, read, write ready, write timer), written on
    the monad of file ServerState. *)
From S2P Require Import Prelude Mem Cstring Buffer Pool Desc Field Struct Hash BusApi World Bus Object Event Call BusEvent Teardown Io Packet Handler ServerState.

Definition OBUS_DEFAULT_BUFFER_SIZE : Z := 1024.

(** [sizeof] of the structures allocated here. *)
Definition SERVER_SIZE : Z := 432.
Definition PEER_SIZE : Z := 128.
Definition POINTER_SIZE : Z := 8.

Section Ops.
Context {AL : Allocator} {KE : Kernel} {UC : UserCode}.

(** ** Peers *)

Definition obus_peer_is_connected (p : positive) : SV bool :=
  x ← get_peer p; mret (bool_decide (pr_state x = PEER_STATE_CONNECTED)).

Definition obus_server_set_peer_connection_cb (cb user_data : Z) : SV Z :=
  sv_modify (fun s => set_connection_cb s cb user_data);; mret 0.
Definition obus_peer_set_user_data (p : positive) (user_data : Z) : SV Z :=
  x ← get_peer p; put_peer p (with_user_data x user_data);; mret 0.
Definition obus_peer_get_user_data (p : positive) : SV Z :=
  x ← get_peer p; mret (pr_user_data x).
Definition obus_peer_get_name (p : positive) : SV cstr :=
  x ← get_peer p; mret (pr_name x).

Definition obus_peer_refuse_connection (p : positive) : SV Z :=
  x ← get_peer p;
  if negb (bool_decide (pr_state x = PEER_STATE_CONNECTING)) then mret (- EPERM) else
  put_peer p (with_state x PEER_STATE_REFUSED);; mret 0.

Definition obus_peer_notify_user (p : positive) (event : obus_peer_event) : SV unit :=
  cb ← sv_gets sv_peer_connection_cb;
  user_data ← sv_gets sv_user_data;
  if cb =? 0 then mret tt else connection_cb cb event p user_data.

(** [obus_list_del (&peer->node)] *)
Definition peer_list_del (p : positive) : SV unit :=
  l ← sv_gets sv_peers;
  if decide (p ∈ l) then sv_modify (fun s => set_peers s (list_del p l)) else sv_undef.

Definition obus_peer_destroy (p : positive) : SV Z :=
  x ← get_peer p;
  (if bool_decide (pr_state x = PEER_STATE_CONNECTED) then
     put_peer p (with_state x PEER_STATE_DISCONNECTED);;
     sv_modify (fun s => set_n_connected s (u64 (sv_n_peers_connected s - 1)));;
     obus_peer_notify_user p OBUS_PEER_EVENT_DISCONNECTED
   else mret tt);;
  peer_list_del p;;
  with_peer_io p (fun io => io ← obus_io_destroy io; mret (tt, io));;
  x ← get_peer p;
  _ ← on_pool (fun pl => obus_packet_decoder_destroy pl (pr_dbuf x));
  on_mem (c_free (pr_name x));;
  free_peer p;;
  mret 0.

Definition walk_peers (body : positive -> SV unit) : SV unit := walk_list (sv_gets sv_peers) body.

(** ** Buffers and writes *)

Definition server_peek : SV (option positive) := on_pool obus_buffer_pool_peek.
Definition server_unref (buf : positive) : SV unit :=
  _ ← on_pool (fun pl => obus_buffer_unref pl buf); mret tt.
Definition server_ref (buf : positive) : SV unit :=
  on_pool (fun pl => pl ← obus_buffer_ref pl buf; mret (tt, pl)).

Definition peer_write (p buf : positive) : SV Z :=
  script ← ask k_write;
  with_peer_io p (fun io => '(ret, io, _) ← obus_io_write script io buf; mret (ret, io)).

(** An encoder run on a buffer of the pool. *)
Definition encode_into (buf : positive) (enc : buffer -> W (Z * buffer)) : SV Z :=
  pl ← sv_gets sv_pool;
  b ← on_mem (get_buf pl buf);
  '(ret, b) ← on_bus (enc b);
  sv_modify (fun s => set_pool s (set_buf pl buf b));;
  mret ret.

(** The write of a packet for one peer: a buffer that is queued keeps the
    reference of the caller for its completion. *)
Definition write_or_unref (p buf : positive) : SV Z :=
  ret ← peer_write p buf;
  if ret =? 0 then server_unref buf;; mret ret
  else if ret =? - EAGAIN then mret 0
  else server_unref buf;; mret ret.

Definition send_peer (buf p : positive) : SV unit :=
  c ← obus_peer_is_connected p;
  if negb c then mret tt else
  ret ← peer_write p buf;
  if ret =? - EAGAIN then server_ref buf
  else if negb (ret =? 0) then _ ← obus_peer_destroy p; mret tt
  else mret tt.

Definition obus_server_send_peers (buf : positive) : SV unit := walk_peers (send_peer buf).

Definition obus_peer_io_write_done (status : obus_io_status) (buf p : positive) : SV unit :=
  server_unref buf;;
  match status with
  | OBUS_IO_OK => mret tt
  | _ => _ ← obus_peer_destroy p; mret tt
  end.

(** ** Connection requests *)

Definition obus_peer_send_connection_response (p : positive) (status : Z) : SV Z :=
  buf ← server_peek;
  match buf with
  | None => mret (- ENOMEM)
  | Some buf =>
    ret ← encode_into buf (fun b =>
      bus ← get_bus;
      let objects := if status =? OBUS_CONRESP_ACCEPTED then Some (b_objects bus) else None in
      obus_packet_conresp_encode b status objects);
    if failed ret then server_unref buf;; mret ret else
    write_or_unref p buf
  end.

(** The checks of a request, before the user is asked. *)
Definition request_status (pkt : obus_packet_conreq) : SV Z :=
  if negb (cq_version pkt =? OBUS_PROTOCOL_VERSION) then mret OBUS_CONRESP_REFUSED else
  name ← sv_gets sv_bus_name;
  bus_chars ← on_mem (m_chars (cq_bus pkt));
  if negb (bool_decide (bus_chars = name)) then mret OBUS_CONRESP_REFUSED else
  bus ← on_bus get_bus;
  if negb (cq_crc pkt =? bd_crc (api_desc (b_api bus))) then mret OBUS_CONRESP_REFUSED else
  match cq_client pkt with
  | CNull => mret OBUS_CONRESP_REFUSED
  | _ =>
    chars ← on_mem (m_chars (cq_client pkt));
    mret (match chars with [] => OBUS_CONRESP_REFUSED | _ => OBUS_CONRESP_ACCEPTED end)
  end.

(** The user is asked, and may refuse. *)
Definition ask_user (p : positive) (status : Z) : SV Z :=
  if negb (status =? OBUS_CONRESP_ACCEPTED) then mret status else
  x ← get_peer p;
  put_peer p (with_state x PEER_STATE_CONNECTING);;
  obus_peer_notify_user p OBUS_PEER_EVENT_CONNECTING;;
  x ← get_peer p;
  mret (if bool_decide (pr_state x = PEER_STATE_REFUSED) then OBUS_CONRESP_REFUSED else status).

Definition obus_peer_connection_request (p : positive) (pkt : obus_packet_conreq) : SV Z :=
  x ← get_peer p;
  if negb (bool_decide (pr_state x = PEER_STATE_IDLE)) then mret 0 else
  name ← on_mem (strdup (cq_client pkt));
  put_peer p (with_name x name);;
  status ← request_status pkt;
  status ← ask_user p status;
  ret ← obus_peer_send_connection_response p status;
  if failed ret then _ ← obus_peer_destroy p; mret (- 1) else
  x ← get_peer p;
  if status =? OBUS_CONRESP_ACCEPTED then
    put_peer p (with_state x PEER_STATE_CONNECTED);;
    sv_modify (fun s => set_n_connected s (u64 (sv_n_peers_connected s + 1)));;
    obus_peer_notify_user p OBUS_PEER_EVENT_CONNECTED;;
    mret 0
  else
    put_peer p (with_state x PEER_STATE_REFUSED);;
    mret 0.

(** ** Calls and acknowledgments *)

Definition cl_with_status (c : obus_call) (status : obus_call_status) : obus_call :=
  Call (cl_desc c) (cl_obj c) (cl_handle c) (cl_peer c) status (cl_args_desc c) (cl_args c) (cl_cb c).
Definition cl_with_peer (c : obus_call) (p : positive) : obus_call :=
  Call (cl_desc c) (cl_obj c) (cl_handle c) (Some p) (cl_status c) (cl_args_desc c) (cl_args c) (cl_cb c).

Definition obus_server_send_ack (handle : Z) (status : obus_call_status) : SV Z :=
  call ← sv_gets sv_call;
  match call with
  | None => mret (- ENOENT)
  | Some call =>
    c ← on_bus (get_call call);
    if negb (cl_handle c =? handle) then mret (- ENOENT) else
    p ← on_mem (m_lift (cl_peer c));
    buf ← server_peek;
    match buf with
    | None => mret (- ENOMEM)
    | Some buf =>
      ret ← encode_into buf (fun b => lift (obus_packet_ack_encode b (Ack (cl_handle c) status)));
      if failed ret then server_unref buf;; mret ret else
      _ ← write_or_unref p buf;
      c ← on_bus (get_call call);
      on_bus (put_call call (cl_with_status c status));;
      sv_modify (fun s => set_call s None);;
      mret 0
    end
  end.

Definition obus_server_get_call_peer (handle : Z) : SV (option positive) :=
  call ← sv_gets sv_call;
  match call with
  | None => mret None
  | Some call =>
    c ← on_bus (get_call call);
    if negb (cl_handle c =? handle) then mret None else mret (cl_peer c)
  end.

(** The status to answer when the handler has not answered itself. *)
Definition handle_call (c : obus_call) (o : obus_object) : SV obus_call_status :=
  if negb (ob_is_registered o) then mret OBUS_CALL_ABORTED else
  state ← on_mem (obus_object_get_method_state o (md_uid (cl_desc c)));
  handler ← on_mem (obus_object_get_method_handler o (cl_desc c));
  if state =? OBUS_METHOD_ENABLED then
    (if handler =? 0 then mret tt
     else method_handler handler (cl_obj c) (cl_handle c) (cl_args c));;
    mret OBUS_CALL_REFUSED
  else mret (if state =? OBUS_METHOD_DISABLED then OBUS_CALL_METHOD_DISABLED
             else if state =? OBUS_METHOD_NOT_SUPPORTED then OBUS_CALL_METHOD_NOT_SUPPORTED
             else OBUS_CALL_REFUSED).

Definition obus_peer_call_request (call : positive) : SV Z :=
  sv_modify (fun s => set_call s (Some call));;
  c ← on_bus (get_call call);
  o ← on_bus (get_obj (cl_obj c));
  status ← handle_call c o;
  c ← on_bus (get_call call);
  match cl_status c with
  | OBUS_CALL_INVALID => _ ← obus_server_send_ack (cl_handle c) status; mret 0
  | _ => mret 0
  end.

(** ** The handlers of the loop *)

(** A packet of a peer; the other packets are not for servers. *)
Definition handle_packet (p : positive) (info : option obus_packet_info) : SV Z :=
  match info with
  | Some (InfoConreq r) =>
    ret ← obus_peer_connection_request p r;
    on_mem (c_free (cq_bus r));;
    on_mem (c_free (cq_client r));;
    mret ret
  | Some (InfoCall call) =>
    c ← on_bus (get_call call);
    on_bus (put_call call (cl_with_peer c p));;
    ret ← obus_peer_call_request call;
    _ ← on_bus (obus_call_destroy call);
    mret ret
  | _ => mret 0
  end.

(** The [do ... while (ret == 0)] of the read handler; [turns] bounds the loop of
    the decoder. *)
Fixpoint read_packets (fuel turns : nat) (p : positive) (script : list sys_read) : SV unit :=
  match fuel with
  | O => sv_undef
  | S fuel' =>
    x ← get_peer p;
    pl ← sv_gets sv_pool;
    b ← on_mem (get_buf pl (pr_dbuf x));
    '(ret, info, d, b, script) ← on_bus (obus_packet_decoder_read turns (pr_decoder x) b script);
    sv_modify (fun s => set_pool s (set_buf pl (pr_dbuf x) b));;
    put_peer p (with_decoder x d);;
    if ret =? - EAGAIN then mret tt else
    if failed ret then _ ← obus_peer_destroy p; mret tt else
    ret ← handle_packet p info;
    if ret =? 0 then read_packets fuel' turns p script else mret tt
  end.

Definition obus_peer_io_read_event (fuel turns : nat) (error readable : bool) (p : positive) : SV unit :=
  if error then _ ← obus_peer_destroy p; mret tt else
  if negb readable then mret tt else
  script ← ask k_read; read_packets fuel turns p script.

(** The completions of an io operation that started with [n] of them. *)
Definition new_calls (n : nat) (p : positive) : SV (list (obus_io_status * positive)) :=
  x ← get_peer p; mret (drop n (io_calls (pr_io x))).

Fixpoint run_callbacks (p : positive) (cs : list (obus_io_status * positive)) : SV unit :=
  match cs with
  | [] => mret tt
  | (status, buf) :: cs' => obus_peer_io_write_done status buf p;; run_callbacks p cs'
  end.

(** [obus_io_write_events] and the callbacks it makes.  After a failed write the
    callback has destroyed the io the drain loop goes on with. *)
Definition peer_write_ready (error ready : bool) (p : positive) : SV unit :=
  x ← get_peer p;
  script ← ask k_write;
  with_peer_io p (fun io => '(io, _) ← obus_io_write_events script error ready io; mret (tt, io));;
  cs ← new_calls (length (io_calls (pr_io x))) p;
  if negb error && negb (forallb (fun c => match c.1 with OBUS_IO_OK => true | _ => false end) cs)
  then sv_undef
  else run_callbacks p cs.

Definition peer_write_timeout (p : positive) : SV unit :=
  x ← get_peer p;
  with_peer_io p (fun io => io ← obus_io_write_timer io; mret (tt, io));;
  cs ← new_calls (length (io_calls (pr_io x))) p;
  run_callbacks p cs.

Definition obus_server_accept : SV unit :=
  a ← on_mem (m_alloc PEER_SIZE);
  match a with
  | None => mret tt
  | Some _ =>
    io ← obus_io_new;
    match io with
    | None => mret tt
    | Some io =>
      buf ← server_peek;
      match buf with
      | None => mret tt
      | Some buf =>
        d ← on_pool (fun pl => '(_, d, pl) ← obus_packet_decoder_init pl buf false; mret (d, pl));
        server_unref buf;;
        p ← sv_gets sv_next;
        sv_modify (fun s => set_next_peer s (Pos.succ p));;
        put_peer p (Peer CNull PEER_STATE_IDLE io d buf 0);;
        sv_modify (fun s => set_peers s (sv_peers s ++ [p]))
      end
    end
  end.

(** ** Creation, start, destruction *)

(** [loop_ok]: the creation of the event loop. *)
Definition obus_server_new (desc : obus_bus_desc) (bus_name : list Z) (loop_ok : bool)
  : W (option obus_server) :=
  a ← lift (m_alloc SERVER_SIZE);
  match a with
  | None => mret None
  | Some _ =>
    '(ret, bus) ← lift (obus_bus_init desc);
    put_bus bus;;
    if failed ret then mret None else
    if negb loop_ok then _ ← obus_bus_destroy; mret None else
    mret (Some (Server [] ∅ bus_name 0 (obus_buffer_pool_init OBUS_DEFAULT_BUFFER_SIZE) None
                  SERVER_STATE_IDLE 0 0 0 1 0))
  end.

(** [results]: the code of [obus_socket_server_new] for each address. *)
Definition obus_server_start (results : list Z) : SV Z :=
  match results with
  | [] => mret (- EINVAL)
  | _ =>
    st ← sv_gets sv_state;
    match st with
    | SERVER_STATE_STARTED => mret (- EPERM)
    | SERVER_STATE_IDLE =>
      a ← on_mem (m_alloc (Z.of_nat (length results) * POINTER_SIZE));
      match a with
      | None => mret (- ENOMEM)
      | Some _ =>
        match find failed results with
        | Some ret => mret ret
        | None => sv_modify (fun s => set_started s (Z.of_nat (length results)));; mret 0
        end
      end
    end
  end.

Definition obus_server_destroy : SV Z :=
  walk_peers (fun p => _ ← obus_peer_destroy p; mret tt);;
  _ ← on_bus obus_bus_destroy;
  sv_modify (fun s => set_pool s (obus_buffer_pool_destroy (sv_pool s)));;
  mret 0.

(** ** Objects *)

Definition obus_server_new_object (desc : obus_object_desc) (cbs : option (list Z))
    (info : option obus_struct) : SV (option positive) :=
  obj ← on_bus (obus_object_new desc cbs info);
  match obj with
  | None => mret None
  | Some obj =>
    rands ← ask k_rand;
    ret ← on_bus (obus_bus_add_object rands obj);
    if failed ret then _ ← on_bus (obus_object_destroy obj); mret None
    else mret (Some obj)
  end.

(** Peek a buffer, encode, send to the connected peers, give the buffer back. *)
Definition broadcast (enc : buffer -> W (Z * buffer)) : SV Z :=
  buf ← server_peek;
  match buf with
  | None => mret (- ENOMEM)
  | Some buf =>
    ret ← encode_into buf enc;
    if failed ret then server_unref buf;; mret ret else
    obus_server_send_peers buf;;
    server_unref buf;;
    mret 0
  end.

(** Nothing is encoded when no peer is connected. *)
Definition broadcast_if_peers (enc : buffer -> W (Z * buffer)) : SV Z :=
  n ← sv_gets sv_n_peers_connected;
  if n =? 0 then mret 0 else broadcast enc.

Definition obus_server_register_object (obj : positive) : SV Z :=
  r ← on_bus (obus_object_is_registered obj);
  if r : bool then mret (- EPERM) else
  ret ← on_bus (obus_bus_register_object obj);
  if failed ret then mret ret else
  broadcast_if_peers (fun b => obus_packet_add_encode b obj).

Definition obus_server_unregister_object (obj : positive) : SV Z :=
  r ← on_bus (obus_object_is_registered obj);
  if negb r then mret (- EPERM) else
  ret ← on_bus (obus_bus_unregister_object obj);
  if failed ret then mret ret else
  broadcast_if_peers (fun b => obus_packet_remove_encode b obj).

Definition obus_server_object_next (prev : option positive) (uid : Z) : SV (option positive) :=
  on_bus (obus_bus_object_next prev uid).
Definition obus_server_get_object (handle : Z) : SV (option positive) :=
  on_bus (obus_bus_object handle).

(** ** Events *)

Definition obus_server_sanitize_event (event : positive) : W unit :=
  _ ← obus_event_sanitize event true; mret tt.

Definition obus_server_send_event (event : positive) : SV Z :=
  e ← on_bus (get_evt event);
  r ← on_bus (obus_object_is_registered (ev_obj e));
  if negb r then mret (- EPERM) else
  on_bus (obus_server_sanitize_event event);;
  ret ← broadcast_if_peers (fun b => obus_packet_event_encode b event);
  if failed ret then mret ret else
  _ ← on_bus (obus_event_commit event);
  mret 0.

(** Is some member of the list one for which [bad] holds? *)
Fixpoint some_bad (bad : positive -> W bool) (l : list positive) : W bool :=
  match l with
  | [] => mret false
  | p :: l' => b ← bad p; if b : bool then mret true else some_bad bad l'
  end.

(** The events: when the object of one is not registered, the error message
    reads the description of [obj], which no longer points to an object. *)
Fixpoint check_events (l : list positive) : W Z :=
  match l with
  | [] => mret 0
  | p :: l' =>
    e ← get_evt p;
    r ← obus_object_is_registered (ev_obj e);
    if negb r then w_undef else
    obus_server_sanitize_event p;; check_events l'
  end.

Definition obus_server_check_bus_event (event : positive) : W Z :=
  b ← get_bev event;
  bad ← some_bad obus_object_is_registered (be_add_objs b);
  if bad : bool then mret (- EPERM) else
  bad ← some_bad (fun p => r ← obus_object_is_registered p; mret (negb r)) (be_remove_objs b);
  if bad : bool then mret (- EPERM) else
  check_events (be_obj_events b).

Definition obus_server_undo_register_objects (event : positive) : W unit :=
  b ← get_bev event;
  w_iter (be_add_objs b) (fun p => _ ← obus_bus_unregister_object p; mret tt).

Fixpoint register_all (l : list positive) : W Z :=
  match l with
  | [] => mret 0
  | p :: l' =>
    ret ← obus_bus_register_object p;
    if failed ret then mret ret else register_all l'
  end.

Definition obus_server_register_objects (event : positive) : W Z :=
  b ← get_bev event; register_all (be_add_objs b).

Definition obus_server_commit_bus_event (event : positive) : W Z :=
  b ← get_bev event;
  ret ← w_fold (be_obj_events b) (fun p ret => r ← obus_event_commit p; mret (Z.lor ret r)) 0;
  w_fold (be_remove_objs b) (fun p ret => r ← obus_bus_unregister_object p; mret (Z.lor ret r)) ret.

Definition obus_server_send_bus_event (event : positive) : SV Z :=
  ret ← on_bus (obus_server_check_bus_event event);
  if failed ret then mret ret else
  ret ← on_bus (obus_server_register_objects event);
  ret ← (if failed ret then mret ret
         else broadcast_if_peers (fun b => obus_packet_bus_event_encode b event));
  if failed ret then on_bus (obus_server_undo_register_objects event);; mret ret else
  _ ← on_bus (obus_server_commit_bus_event event);
  mret 0.
End Ops.
