(* ===== verification/ServerFacts.v ===== *)
(** * Properties of the server: who receives what is sent, and the state of peers

    [server_wf] is the invariant: the count of connected peers, the references
    that write queues and decoders hold on the buffers of the pool, decoders
    whose buffer nobody else has.  The application is [QuietUser] here: its
    connection callback changes nothing when a peer is connected or disconnected. *)
From S2P Require Import Prelude Mem Cstring Buffer Pool Desc Field Struct Hash BusApi World Bus Object Event Call BusEvent Io Packet Handler ServerState Server.

(** ** Sums over the peers *)

Fixpoint zsum {A} (f : A -> Z) (l : list A) : Z :=
  match l with [] => 0 | x :: l' => f x + zsum f l' end.

Lemma zsum_app {A} (f : A -> Z) l l' : zsum f (l ++ l') = zsum f l + zsum f l'.
Proof. induction l as [|x l IH]; cbn; [done|]. rewrite IH. lia. Qed.

Lemma zsum_ext {A} (f g : A -> Z) l : (forall x, x ∈ l -> f x = g x) -> zsum f l = zsum g l.
Proof.
  induction l as [|x l IH]; intros H; cbn; [done|]. rewrite (H x) by by left.
  rewrite IH; [done|]. intros y Hy. apply H. by right.
Qed.

Lemma zsum_nonneg {A} (f : A -> Z) l : (forall x, 0 <= f x) -> 0 <= zsum f l.
Proof. intros H. induction l as [|x l IH]; cbn; [lia|]. specialize (H x). lia. Qed.

Lemma list_del_notin p l : p ∉ l -> list_del p l = l.
Proof. intros H. apply filter_all. intros x Hx ->. done. Qed.

Lemma zsum_del f p l : NoDup l -> p ∈ l -> zsum f l = f p + zsum f (list_del p l).
Proof.
  unfold list_del. induction 1 as [|x l Hx HN IH]; intros Hp; [by apply not_elem_of_nil in Hp|].
  apply elem_of_cons in Hp as [<-|Hp].
  - rewrite filter_cons_False by tauto. cbn. f_equal.
    pose proof (list_del_notin p l Hx) as E. unfold list_del in E. by rewrite E.
  - rewrite filter_cons_True by (intros ->; done). cbn. rewrite IH by done. lia.
Qed.

(** ** The invariant *)

(** References of a peer on a buffer: two for each entry of its queue (the entry
    and its completion), one for its decoder. *)
Definition peer_refs (s : obus_server) (b p : positive) : Z :=
  match sv_store s !! p with
  | Some x => 2 * occurrences b (io_write_buffers (pr_io x)) + (if decide (pr_dbuf x = b) then 1 else 0)
  | None => 0
  end.

Definition total_refs (s : obus_server) (b : positive) : Z := zsum (peer_refs s b) (sv_peers s).

Definition connected (s : obus_server) (p : positive) : bool :=
  match sv_store s !! p with
  | Some x => bool_decide (pr_state x = PEER_STATE_CONNECTED)
  | None => false
  end.

Definition n_connected (s : obus_server) : Z :=
  zsum (fun p => if connected s p then 1 else 0) (sv_peers s).

Definition written_ok (pl : pool) (io : obus_io) : Prop :=
  0 <= io_nbr_written io /\
  match io_write_buffers io with
  | [] => io_nbr_written io = 0
  | q :: _ => io_nbr_written io <= Z.of_nat (length (content pl q))
  end.

(** [held]: the references the running operation holds itself. *)
Record server_wf (held : list positive) (s : obus_server) : Prop := {
  sw_nodup : NoDup (sv_peers s);
  sw_live : forall p, p ∈ sv_peers s <-> is_Some (sv_store s !! p);
  sw_next : forall p, p ∈ sv_peers s -> (p < sv_next s)%positive;
  sw_count : sv_n_peers_connected s = u64 (n_connected s);
  sw_pool : pool_wf (sv_pool s);
  sw_refs : forall b, total_refs s b + occurrences b held <= refs (sv_pool s) b;
  sw_io : forall p x, sv_store s !! p = Some x -> written_ok (sv_pool s) (pr_io x);
  sw_dec : forall p q x y, sv_store s !! p = Some x -> sv_store s !! q = Some y ->
    pr_dbuf x ∉ io_write_buffers (pr_io y) /\ pr_dbuf x ∉ held /\ (p <> q -> pr_dbuf x <> pr_dbuf y)
}.

(** The names of the peers are blocks of their own. *)
Record names_wf (s : obus_server) (m : mem) : Prop := {
  nw_live : forall p x, sv_store s !! p = Some x ->
     match pr_name x with CNull => True | CEmpty => False | CHeap b => is_Some (m_blocks m !! b) end;
  nw_own : forall p q x y b, p <> q -> sv_store s !! p = Some x -> sv_store s !! q = Some y ->
     pr_name x = CHeap b -> pr_name y = CHeap b -> False
}.

(** What a peer has received or will receive: the bytes taken by the kernel,
    then the bytes of its queue. *)
Definition peer_out (s : obus_server) (p : positive) : list Z :=
  match sv_store s !! p with
  | Some x => io_wire (pr_io x) ++ pending (with_pool (pr_io x) (sv_pool s))
  | None => []
  end.

(** A connection callback that only observes connections and disconnections; a
    request to connect it may answer. *)
Class QuietUser (UC : UserCode) : Prop :=
  quiet_cb : forall cb ev p ud s w m, ev <> OBUS_PEER_EVENT_CONNECTING ->
    wps (connection_cb cb ev p ud) (fun _ s' w' m' => s' = s /\ w' = w /\ m' = m) s w m.

(** A kernel that answers every write until it blocks. *)
Class BlockingKernel (KE : Kernel) : Prop := k_blocks : forall n, blocks (k_write n).

Lemma peer_refs_nonneg s b p : 0 <= peer_refs s b p.
Proof.
  unfold peer_refs. destruct (sv_store s !! p) as [x|]; [|lia].
  pose proof (occurrences_pos b (io_write_buffers (pr_io x))). case_decide; lia.
Qed.

Lemma peer_refs_le held s b p x :
  server_wf held s -> sv_store s !! p = Some x ->
  2 * occurrences b (io_write_buffers (pr_io x)) + (if decide (pr_dbuf x = b) then 1 else 0)
    + occurrences b held <= refs (sv_pool s) b.
Proof.
  intros W Hp. pose proof (sw_refs _ _ W b) as Hr. unfold total_refs in Hr.
  rewrite (zsum_del _ p) in Hr; [|apply W|apply W; by eexists].
  pose proof (zsum_nonneg (peer_refs s b) (list_del p (sv_peers s)) (peer_refs_nonneg s b)).
  unfold peer_refs at 1 in Hr. rewrite Hp in Hr. lia.
Qed.

Lemma occurrences_elem b l : b ∈ l -> 0 < occurrences b l.
Proof.
  intros (l1 & l2 & ->)%list_elem_of_split. unfold occurrences.
  rewrite filter_app, filter_cons_True by done. rewrite length_app. cbn. lia.
Qed.

(** The io of a peer, with the pool of the server, is well formed. *)
Lemma peer_io_wf held s p x l :
  server_wf held s -> sv_store s !! p = Some x -> (forall b, b ∈ l -> b ∈ held) -> NoDup l ->
  io_wf l (with_pool (pr_io x) (sv_pool s)).
Proof.
  intros W Hp Hl HN. destruct (sw_io _ _ W _ _ Hp) as [H1 H2]. constructor; cbn; [apply W| |done|done].
  intros b. pose proof (peer_refs_le _ _ b _ _ W Hp) as Hr.
  pose proof (occurrences_pos b (io_write_buffers (pr_io x))).
  pose proof (occurrences_pos b held). destruct (decide (b ∈ l)) as [Hb|Hb]; [|case_decide; lia].
  pose proof (occurrences_elem b held (Hl _ Hb)). case_decide; lia.
Qed.

(** ** References and the pool *)

Section PoolOps.
Context {AL : Allocator}.

Lemma wp_io_destroy io m (Q : obus_io -> mem -> Prop) :
  pool_wf (io_pool io) -> (forall q, occurrences q (io_write_buffers io) <= refs (io_pool io) q) ->
  (forall io', pool_wf (io_pool io') ->
     (forall q, refs (io_pool io') q = refs (io_pool io) q - occurrences q (io_write_buffers io)) ->
     (forall q, content (io_pool io') q = content (io_pool io) q) -> Q io' m) ->
  wp (obus_io_destroy io) Q m.
Proof.
  intros W Hr HQ. unfold obus_io_destroy. apply wp_bind, wp_unref_all; [done..|].
  intros pl' W' Hr' Hc. apply wp_ret. by apply HQ.
Qed.

Lemma wp_decoder_destroy pl p m (Q : Z * pool -> mem -> Prop) :
  pool_wf pl -> 0 < refs pl p ->
  (forall pl', pool_wf pl' ->
     (forall q, refs pl' q = refs pl q - (if decide (p = q) then 1 else 0)) ->
     (forall q, q <> p -> content pl' q = content pl q) -> Q (0, pl') m) ->
  wp (obus_packet_decoder_destroy pl p) Q m.
Proof.
  intros W Hp HQ. destruct (refs_buf _ _ W Hp) as (b & Hb & Wb). unfold obus_packet_decoder_destroy.
  apply wp_bind. eapply wp_get_buf; [exact Hb|]. wf_facts b Wb.
  assert (refs pl p = buf_refcnt b) as Hrb by (unfold refs; by rewrite Hb).
  assert (pool_wf (set_buf pl p (obus_buffer_clear b))) as W1.
  { apply pool_wf_use; [done..|apply buf_wf_with_length; [done|lia]|done]. }
  assert (forall q, refs (set_buf pl p (obus_buffer_clear b)) q = refs pl q) as Hr1.
  { intros q. rewrite refs_set_buf. case_decide; subst; [by rewrite Hrb|done]. }
  apply wp_bind, wp_unref_full; [done|by rewrite Hr1|]. intros pl' W' Hr' Hc'.
  apply wp_ret, HQ; [done|intros q; by rewrite Hr', Hr1|].
  intros q Hq. rewrite Hc'. unfold content, set_buf. cbn. by rewrite lookup_insert_ne by done.
Qed.
End PoolOps.

(** ** Destroying a peer *)

Lemma zsum_list_del_ext f g p l :
  NoDup l -> p ∈ l -> (forall q, q <> p -> f q = g q) -> zsum g (list_del p l) = zsum f l - f p.
Proof.
  intros HN Hp H. rewrite (zsum_del f p l) by done.
  rewrite (zsum_ext g f); [lia|]. intros q [_ Hq]%elem_of_list_del. by rewrite H.
Qed.

Section Del.
Context (held : list positive) (s s' : obus_server) (p : positive) (x : obus_peer).
Hypothesis W : server_wf held s.
Hypothesis Hx : sv_store s !! p = Some x.
Hypothesis Hpeers : sv_peers s' = list_del p (sv_peers s).
Hypothesis Hstore : sv_store s' = delete p (sv_store s).
Hypothesis Hcontent : forall q, q <> pr_dbuf x -> content (sv_pool s') q = content (sv_pool s) q.

Lemma del_in : p ∈ sv_peers s.
Proof. apply W. by eexists. Qed.

Lemma del_store q : q <> p -> sv_store s' !! q = sv_store s !! q.
Proof. intros H. rewrite Hstore. by apply lookup_delete_ne. Qed.

Lemma del_lookup q y : sv_store s' !! q = Some y -> q <> p /\ sv_store s !! q = Some y.
Proof. rewrite Hstore. intros H. by apply lookup_delete_Some in H as [? ?]. Qed.

Lemma del_n_connected : n_connected s' = n_connected s - (if connected s p then 1 else 0).
Proof.
  unfold n_connected. rewrite Hpeers.
  apply (zsum_list_del_ext (fun q => if connected s q then 1 else 0)); [apply W|apply del_in|].
  intros q Hq. unfold connected. by rewrite del_store.
Qed.

Lemma del_total_refs b : total_refs s' b = total_refs s b - peer_refs s b p.
Proof.
  unfold total_refs. rewrite Hpeers. apply (zsum_list_del_ext (peer_refs s b)); [apply W|apply del_in|].
  intros q Hq. unfold peer_refs. by rewrite del_store.
Qed.

(** The queues of the others do not hold the buffer of the decoder. *)
Lemma del_content q y b :
  q <> p -> sv_store s !! q = Some y -> b ∈ io_write_buffers (pr_io y) ->
  content (sv_pool s') b = content (sv_pool s) b.
Proof. intros Hq Hy Hb. apply Hcontent. intros ->. by destruct (sw_dec _ _ W p q x y Hx Hy). Qed.

Lemma queued_in_ext pl pl' l : (forall b, b ∈ l -> content pl' b = content pl b) -> queued pl' l = queued pl l.
Proof. intros H. unfold queued. f_equal. apply map_ext_in. intros b Hb. by apply H, list_elem_of_In. Qed.

Lemma del_out q : q <> p -> peer_out s' q = peer_out s q.
Proof.
  intros Hq. unfold peer_out. rewrite del_store by done.
  destruct (sv_store s !! q) as [y|] eqn:Hy; [|done]. f_equal. unfold pending. cbn.
  f_equal. apply queued_in_ext. intros b Hb. by eapply del_content.
Qed.

Lemma del_wf :
  sv_next s' = sv_next s ->
  sv_n_peers_connected s' = u64 (sv_n_peers_connected s - (if connected s p then 1 else 0)) ->
  pool_wf (sv_pool s') ->
  (forall b, refs (sv_pool s) b - occurrences b (io_write_buffers (pr_io x))
     - (if decide (pr_dbuf x = b) then 1 else 0) <= refs (sv_pool s') b) ->
  server_wf held s'.
Proof.
  intros Hnext Hn HP Hr. constructor.
  - rewrite Hpeers. by apply NoDup_filter, W.
  - intros q. rewrite Hpeers, elem_of_list_del, Hstore, (sw_live _ _ W).
    split; [intros [? ?]; by rewrite lookup_delete_ne|]. intros [y [? ?]%lookup_delete_Some]. split; [by eexists|done].
  - intros q. rewrite Hpeers, elem_of_list_del, Hnext. intros [Hq _]. by apply W.
  - rewrite Hn, (sw_count _ _ W), del_n_connected. unfold u64. by rewrite Zminus_mod_idemp_l.
  - done.
  - intros b. rewrite del_total_refs. unfold peer_refs. rewrite Hx.
    pose proof (sw_refs _ _ W b). pose proof (Hr b). pose proof (occurrences_pos b (io_write_buffers (pr_io x))).
    lia.
  - intros q y [Hq Hy]%del_lookup. destruct (sw_io _ _ W _ _ Hy) as [H1 H2]. split; [done|].
    destruct (io_write_buffers (pr_io y)) as [|b l] eqn:El; [done|].
    rewrite (del_content q y); [done..|]. rewrite El. by left.
  - intros q r y z [Hq Hy]%del_lookup [_ Hz]%del_lookup. by eapply W.
Qed.
End Del.

Section Destroy.
Context {AL : Allocator} {KE : Kernel} {UC : UserCode} `{!QuietUser UC}.

Lemma wps_notify p ev (Q : unit -> obus_server -> world -> mem -> Prop) s w m :
  ev <> OBUS_PEER_EVENT_CONNECTING -> Q tt s w m -> wps (obus_peer_notify_user p ev) Q s w m.
Proof.
  intros He H. unfold obus_peer_notify_user. apply wps_bind, wps_gets, wps_bind, wps_gets.
  destruct (_ =? 0); [by apply wps_ret|]. eapply wps_mono; [by apply quiet_cb|].
  by intros [] s' w' m' (-> & -> & ->).
Qed.

Lemma names_del s s' p x m (Q : unit -> mem -> Prop) :
  names_wf s m -> sv_store s !! p = Some x -> sv_store s' = delete p (sv_store s) ->
  (forall m', names_wf s' m' -> Q tt m') -> wp (c_free (pr_name x)) Q m.
Proof.
  intros [N1 N2] Hx Hs HQ. pose proof (N1 _ _ Hx) as Hn.
  assert (forall q y, sv_store s' !! q = Some y -> q <> p /\ sv_store s !! q = Some y) as Hl.
  { intros q y. rewrite Hs. by intros [? ?]%lookup_delete_Some. }
  assert (forall q r y z b, q <> r -> sv_store s' !! q = Some y -> sv_store s' !! r = Some z ->
    pr_name y = CHeap b -> pr_name z = CHeap b -> False) as N2'.
  { intros q r y z b Hne [_ Hy]%Hl [_ Hz]%Hl. by eapply N2. }
  destruct (pr_name x) as [| |b] eqn:En; cbn [c_free]; [|done|].
  - apply wp_ret, HQ. split; [|done]. intros q y [_ Hy]%Hl. by eapply N1.
  - destruct Hn as [bs Hbs]. do 2 eexists. split; [unfold m_free; by rewrite Hbs|]. apply HQ. split; [|done].
    intros q y [Hq Hy]%Hl. pose proof (N1 _ _ Hy) as Hb. destruct (pr_name y) as [| |b'] eqn:Eny; [done..|].
    cbn. rewrite lookup_delete_ne; [done|]. intros <-. by eapply (N2 p q).
Qed.

Lemma wps_peer_destroy held p x (Q : Z -> obus_server -> world -> mem -> Prop) s w m :
  server_wf held s -> names_wf s m -> sv_store s !! p = Some x ->
  (forall s' m', server_wf held s' -> names_wf s' m' -> sv_peers s' = list_del p (sv_peers s) ->
     (forall q, q <> p -> sv_store s' !! q = sv_store s !! q /\ peer_out s' q = peer_out s q) ->
     (forall b, b ∈ held -> content (sv_pool s') b = content (sv_pool s) b) -> Q 0 s' w m') ->
  wps (obus_peer_destroy p) Q s w m.
Proof.
  intros W N Hx HQ. unfold obus_peer_destroy.
  assert (p ∈ sv_peers s) as Hin by (apply W; by eexists).
  pose proof (peer_io_wf held s p x [] W Hx ltac:(by intros ? ?%not_elem_of_nil) ltac:(constructor)) as IW.
  pose proof (fun b => peer_refs_le _ _ b _ _ W Hx) as Hrefs.
  apply wps_bind. eapply wps_get_peer; [exact Hx|]. apply wps_bind.
  apply (wps_mono _ (fun _ s1 w1 m1 => w1 = w /\ m1 = m /\ sv_peers s1 = sv_peers s /\
     sv_pool s1 = sv_pool s /\ sv_next s1 = sv_next s /\
     sv_n_peers_connected s1 = u64 (sv_n_peers_connected s - (if connected s p then 1 else 0)) /\
     exists x1, sv_store s1 = <[p := x1]> (sv_store s) /\ pr_io x1 = pr_io x /\
       pr_dbuf x1 = pr_dbuf x /\ pr_name x1 = pr_name x)).
  { unfold connected. rewrite Hx. destruct (bool_decide _) eqn:Hst.
    - unfold put_peer. apply wps_bind, wps_modify, wps_bind, wps_modify, wps_notify; [done|]. cbn.
      split_and!; [done..|]. by eexists.
    - apply wps_ret. split_and!; [done..| |].
      + rewrite Z.sub_0_r, (sw_count _ _ W). unfold u64. by rewrite Z.mod_mod.
      + exists x. by rewrite insert_id. }
  intros [] s1 w1 m1 (-> & -> & E1 & E2 & E3 & E4 & x1 & E5 & E6 & E7 & E8).
  apply wps_bind. unfold peer_list_del. apply wps_bind, wps_gets. rewrite E1, decide_True by done.
  apply wps_modify, wps_bind. eapply wps_peer_io; [cbn; rewrite E5; apply lookup_insert_eq|].
  cbn [sv_pool set_peers]. rewrite E2, E6.
  apply wp_bind, wp_io_destroy; [apply IW|intros b; cbn; pose proof (Hrefs b);
    pose proof (occurrences_pos b (io_write_buffers (pr_io x))); pose proof (occurrences_pos b held);
    case_decide; lia|].
  cbn [io_pool with_pool io_write_buffers]. intros io' W2 Hr2 Hc2. apply wp_ret. cbn [fst snd].
  apply wps_bind. eapply wps_get_peer; [cbn; apply lookup_insert_eq|].
  apply wps_bind, wps_pool. cbn [sv_pool set_store set_pool pr_dbuf with_io]. rewrite E7.
  apply wp_decoder_destroy; [done|pose proof (Hrefs (pr_dbuf x)) as H; rewrite decide_True in H by done;
    rewrite Hr2; pose proof (occurrences_pos (pr_dbuf x) (io_write_buffers (pr_io x)));
    pose proof (occurrences_pos (pr_dbuf x) held); lia|].
  intros pl3 W3 Hr3 Hc3. cbn [fst snd].
  set (s4 := set_pool _ pl3). set (s' := set_store s4 (delete p (sv_store s4))).
  assert (sv_store s' = delete p (sv_store s)) as Hst'.
  { cbn. rewrite E5. by rewrite !delete_insert_eq. }
  apply wps_bind, wps_mem. cbn [pr_name with_io]. rewrite E8.
  eapply names_del; [exact N|exact Hx|exact Hst'|]. intros m' N'.
  apply wps_bind. unfold free_peer. apply wps_modify, wps_ret. fold s'.
  assert (sv_peers s' = list_del p (sv_peers s)) as Hp' by done.
  assert (forall q, q <> pr_dbuf x -> content (sv_pool s') q = content (sv_pool s) q) as Hc'.
  { intros q Hq. cbn. rewrite Hc3 by done. apply Hc2. }
  apply HQ; [|done|done| |].
  - eapply del_wf; [exact W|exact Hx|done..| |]; cbn; [done|].
    intros b. rewrite Hr3, Hr2. lia.
  - intros q Hq. split; [by eapply del_store|by eapply del_out].
  - intros b Hb. apply Hc'. intros ->. by destruct (sw_dec _ _ W p p x x Hx Hx) as (_ & ? & _).
Qed.
End Destroy.

(** ** Writing to a peer *)

Lemma pending_ext io io' :
  io_nbr_written io' = io_nbr_written io -> io_write_buffers io' = io_write_buffers io ->
  (forall b, b ∈ io_write_buffers io -> content (io_pool io') b = content (io_pool io) b) ->
  pending io' = pending io.
Proof. intros H1 H2 H3. unfold pending. rewrite H1, H2. by rewrite (queued_in_ext _ _ _ H3). Qed.

(** Another pool: the same contents for what is queued, other references. *)
Definition queued_same (s : obus_server) (pl : pool) : Prop :=
  forall p x b, sv_store s !! p = Some x -> b ∈ io_write_buffers (pr_io x) ->
    content pl b = content (sv_pool s) b.

Lemma set_pool_wf held held' s pl :
  server_wf held s -> pool_wf pl -> queued_same s pl ->
  (forall b, total_refs s b + occurrences b held' <= refs pl b) ->
  (forall b p x, b ∈ held' -> sv_store s !! p = Some x -> pr_dbuf x <> b) ->
  server_wf held' (set_pool s pl).
Proof.
  intros W HP Hc Hr Hd. destruct W as [W1 W2 W3 W4 W5 W6 W7 W8]. constructor; cbn; try done.
  - intros p x Hx. destruct (W7 _ _ Hx) as [H1 H2]. split; [done|].
    destruct (io_write_buffers (pr_io x)) as [|b l] eqn:El; [done|].
    rewrite (Hc _ _ b Hx); [done|]. rewrite El. by left.
  - intros p q x y Hx Hy. destruct (W8 p q x y Hx Hy) as (H1 & _ & H3). split_and!; [done| |done].
    intros Hb. exact (Hd _ _ _ Hb Hx eq_refl).
Qed.

Lemma set_pool_out s pl p : queued_same s pl -> peer_out (set_pool s pl) p = peer_out s p.
Proof.
  intros Hc. unfold peer_out. cbn. destruct (sv_store s !! p) as [x|] eqn:Hx; [|done]. f_equal.
  apply pending_ext; [done..|]. intros b Hb. by eapply Hc.
Qed.

Section Put.
Context (s s' : obus_server) (p : positive) (x x' : obus_peer).
Hypothesis Hx : sv_store s !! p = Some x.
Hypothesis Hpeers : sv_peers s' = sv_peers s.
Hypothesis Hstore : sv_store s' = <[p := x']> (sv_store s).

Lemma put_store q : q <> p -> sv_store s' !! q = sv_store s !! q.
Proof. intros H. rewrite Hstore. by apply lookup_insert_ne. Qed.

Lemma put_store_eq : sv_store s' !! p = Some x'.
Proof. rewrite Hstore. apply lookup_insert_eq. Qed.

Lemma put_sum (f g : positive -> Z) :
  NoDup (sv_peers s) -> p ∈ sv_peers s -> (forall q, q <> p -> g q = f q) ->
  zsum g (sv_peers s') = zsum f (sv_peers s) + (g p - f p).
Proof.
  intros HN Hp H. rewrite Hpeers, (zsum_del g p), (zsum_del f p) by done.
  rewrite (zsum_ext g f); [lia|]. intros q [_ Hq]%elem_of_list_del. by apply H.
Qed.

Lemma put_total_refs held b :
  server_wf held s -> total_refs s' b = total_refs s b + (peer_refs s' b p - peer_refs s b p).
Proof.
  intros W. apply put_sum; [apply W|apply W; by eexists|]. intros q Hq. unfold peer_refs. by rewrite put_store.
Qed.

Lemma put_n_connected held :
  server_wf held s ->
  n_connected s' = n_connected s + ((if connected s' p then 1 else 0) - (if connected s p then 1 else 0)).
Proof.
  intros W. apply (put_sum (fun q => if connected s q then 1 else 0) (fun q => if connected s' q then 1 else 0));
    [apply W|apply W; by eexists|].
  intros q Hq. unfold connected. by rewrite put_store.
Qed.

Lemma put_wf held held' :
  server_wf held s -> sv_next s' = sv_next s ->
  sv_n_peers_connected s' = u64 (n_connected s') ->
  pool_wf (sv_pool s') ->
  (forall b, total_refs s b + (peer_refs s' b p - peer_refs s b p) + occurrences b held' <= refs (sv_pool s') b) ->
  written_ok (sv_pool s') (pr_io x') ->
  (forall b, content (sv_pool s') b = content (sv_pool s) b) ->
  pr_dbuf x' = pr_dbuf x ->
  (forall b, b ∈ io_write_buffers (pr_io x') -> b ∈ io_write_buffers (pr_io x) \/
     forall q y, sv_store s !! q = Some y -> pr_dbuf y <> b) ->
  (forall b, b ∈ held' -> forall q y, sv_store s !! q = Some y -> pr_dbuf y <> b) ->
  server_wf held' s'.
Proof.
  intros W Hn Hc HP Hr Hw Hcont Hd Hq Hh. constructor.
  - rewrite Hpeers. apply W.
  - intros q. rewrite Hpeers, (sw_live _ _ W), Hstore. destruct (decide (q = p)) as [->|Hne].
    + rewrite lookup_insert_eq, Hx. split; intros _; by eexists.
    + by rewrite lookup_insert_ne.
  - rewrite Hpeers, Hn. apply W.
  - done.
  - done.
  - intros b. rewrite (put_total_refs held) by done. apply Hr.
  - intros q y. rewrite Hstore. destruct (decide (q = p)) as [->|Hne].
    + rewrite lookup_insert_eq. by intros [= <-].
    + rewrite lookup_insert_ne by done. intros Hy. destruct (sw_io _ _ W _ _ Hy) as [H1 H2]. split; [done|].
      destruct (io_write_buffers (pr_io y)); [done|]. by rewrite Hcont.
  - assert (forall q y, sv_store s' !! q = Some y -> exists y0, sv_store s !! q = Some y0 /\
      pr_dbuf y = pr_dbuf y0 /\ forall b, b ∈ io_write_buffers (pr_io y) ->
        b ∈ io_write_buffers (pr_io y0) \/ forall r z, sv_store s !! r = Some z -> pr_dbuf z <> b) as Hold.
    { intros q y. destruct (decide (q = p)) as [->|Hne].
      - rewrite put_store_eq. intros [= <-]. by exists x.
      - rewrite put_store by done. intros Hy. exists y. split_and!; [done..|]. by left. }
    intros q r y z Hy Hz. destruct (Hold _ _ Hy) as (y0 & Hy0 & -> & _).
    destruct (Hold _ _ Hz) as (z0 & Hz0 & -> & Hzq).
    destruct (sw_dec _ _ W q r y0 z0 Hy0 Hz0) as (H1 & _ & H3). split_and!; [| |done].
    + intros [Hb|Hb]%Hzq; [done|]. exact (Hb _ _ Hy0 eq_refl).
    + intros Hb. exact (Hh _ Hb _ _ Hy0 eq_refl).
Qed.
End Put.

Section Write.
Context {AL : Allocator} {KE : Kernel} {UC : UserCode} `{!BlockingKernel KE}.

(** The references of a peer, when its io has queued [buf] or not. *)
Lemma peer_refs_written s s' p x io' script buf code :
  sv_store s !! p = Some x -> sv_store s' = <[p := with_io x io']> (sv_store s) ->
  io_write_buffers io' = io_write_buffers (pr_io x) ++ op_queued (IoWrite script buf) code ->
  peer_refs s' buf p = peer_refs s buf p + (if decide (code = - EAGAIN) then 2 else 0) /\
  forall b, b <> buf -> peer_refs s' b p = peer_refs s b p.
Proof.
  intros Hx Hstore P5. unfold peer_refs. rewrite (put_store_eq s s' p _ Hstore), Hx. cbn. rewrite P5. unfold op_queued.
  split.
  - rewrite occurrences_app. destruct (Z.eqb_spec code (- EAGAIN)) as [->|Hne].
    + rewrite (decide_True (P := - EAGAIN = - EAGAIN)) by done. cbn. rewrite occurrences_cons, decide_True by done.
      unfold occurrences at 2. cbn. lia.
    + rewrite (decide_False (P := code = - EAGAIN)) by done. unfold occurrences at 2. cbn. lia.
  - intros b Hb. rewrite occurrences_app. destruct (code =? - EAGAIN); [|unfold occurrences at 2; cbn; lia].
    cbn. rewrite occurrences_cons, decide_False by done. unfold occurrences at 2. cbn. lia.
Qed.

(** The server after a write to the peer [p]: its buffer is queued, and referenced
    for the queue, exactly when the write would block. *)
Lemma peer_written_wf held s s' p x io io' script buf code :
  server_wf (buf :: held) s -> sv_store s !! p = Some x ->
  io_pool io = sv_pool s -> io_write_buffers io = io_write_buffers (pr_io x) ->
  sent_post script buf io code io' ->
  sv_peers s' = sv_peers s -> sv_store s' = <[p := with_io x io']> (sv_store s) ->
  sv_pool s' = io_pool io' -> sv_next s' = sv_next s ->
  sv_n_peers_connected s' = sv_n_peers_connected s ->
  if decide (code = - EAGAIN) then server_wf held s' /\ 0 < refs (sv_pool s') buf
  else server_wf (buf :: held) s'.
Proof.
  intros W Hx Hpl Hwb (P1 & P2 & P3 & _ & P5 & P6 & _) Hpeers Hstore Hpl' Hnext Hcount.
  rewrite Hpl in P2, P3. rewrite Hwb in P5. rewrite <- Hpl' in P1, P2, P3, P6.
  assert (forall (held0 : list positive) b, (forall c, c ∈ held0 -> c ∈ buf :: held) -> b ∈ held0 ->
    forall q y, sv_store s !! q = Some y -> pr_dbuf y <> b) as Hh.
  { intros held0 b Hsub Hb q y Hy E. destruct (sw_dec _ _ W q q y y Hy Hy) as (_ & H & _).
    apply H. rewrite E. by apply Hsub. }
  assert (forall b, b ∈ io_write_buffers (pr_io (with_io x io')) -> b ∈ io_write_buffers (pr_io x) \/
     forall q y, sv_store s !! q = Some y -> pr_dbuf y <> b) as Hq.
  { intros b. cbn. rewrite P5, elem_of_app. intros [Hb|Hb]; [by left|right].
    unfold op_queued in Hb. destruct (code =? _); [|by apply not_elem_of_nil in Hb].
    apply list_elem_of_singleton in Hb as ->. eapply (Hh [buf]); [|by left].
    intros c ->%list_elem_of_singleton. by left. }
  destruct (peer_refs_written s s' p x io' script buf code Hx Hstore P5) as [Hpr1 Hpr2].
  pose proof (sw_refs _ _ W) as Hr.
  assert (sv_n_peers_connected s' = u64 (n_connected s')) as Hn.
  { rewrite (put_n_connected s s' p x _ Hx Hpeers Hstore _ W), Hcount, (sw_count _ _ W). f_equal.
    unfold connected. rewrite (put_store_eq s s' p _ Hstore), Hx. cbn. lia. }
  destruct (decide (code = - EAGAIN)) as [Hc|Hc].
  - assert (refs (sv_pool s') buf = refs (sv_pool s) buf + 1) as Hrb by by rewrite P3, decide_True by done.
    pose proof (Hr buf) as Hrbuf. rewrite occurrences_cons, decide_True in Hrbuf by done. split.
    + eapply (put_wf s s' p x (with_io x io')); [done..| |done|done|done|done|].
      * intros b. destruct (decide (b = buf)) as [->|Hb]; [rewrite Hpr1, Hrb; lia|].
        rewrite Hpr2, P3, decide_False by (done || by intros [_ ?]).
        specialize (Hr b). rewrite occurrences_cons, decide_False in Hr by done. lia.
      * intros b Hb. eapply Hh; [|exact Hb]. intros c ?. by right.
    + rewrite Hrb. pose proof (occurrences_pos buf held).
      pose proof (zsum_nonneg (peer_refs s buf) (sv_peers s) (peer_refs_nonneg s buf)).
      unfold total_refs in Hrbuf. lia.
  - eapply (put_wf s s' p x (with_io x io')); [done..| |done|done|done|done|by intros b; apply Hh].
    intros b. rewrite P3, decide_False by (by intros [? _]). specialize (Hr b).
    destruct (decide (b = buf)) as [->|Hb]; [rewrite Hpr1|rewrite Hpr2 by done]; lia.
Qed.

(** The write takes over one reference of the caller when it queues the buffer. *)
Lemma wps_peer_write held buf p x (Q : Z -> obus_server -> world -> mem -> Prop) s w m :
  server_wf (buf :: held) s -> sv_store s !! p = Some x ->
  (forall code s' m' x', same_blocks m m' -> sv_peers s' = sv_peers s ->
     sv_store s' = <[p := x']> (sv_store s) -> pr_state x' = pr_state x -> pr_name x' = pr_name x ->
     pr_dbuf x' = pr_dbuf x -> pr_decoder x' = pr_decoder x -> io_calls (pr_io x') = io_calls (pr_io x) ->
     (forall b, content (sv_pool s') b = content (sv_pool s) b) ->
     (forall q, q <> p -> peer_out s' q = peer_out s q) ->
     (code = 0 \/ code = - EAGAIN -> peer_out s' p = peer_out s p ++ content (sv_pool s) buf) ->
     (soft (k_write (sv_tick s)) -> AmpleMemory AL -> code = 0 \/ code = - EAGAIN) -> code <= 0 ->
     sv_call s' = sv_call s -> sv_tick s' = S (sv_tick s) ->
     (if decide (code = - EAGAIN) then server_wf held s' /\ 0 < refs (sv_pool s') buf
      else server_wf (buf :: held) s') ->
     Q code s' w m') ->
  wps (peer_write p buf) Q s w m.
Proof.
  intros W Hx HQ. unfold peer_write. apply wps_bind, wps_ask. cbn [tick with_tick server_ticking].
  set (s1 := set_tick s _). set (script := k_write (sv_tick s)).
  eapply wps_peer_io; [exact Hx|]. change (sv_pool s1) with (sv_pool s).
  set (io := with_pool (pr_io x) (sv_pool s)).
  assert (io_wf [buf] io) as IW.
  { eapply peer_io_wf; [exact W|exact Hx| |apply NoDup_singleton]. intros b ->%list_elem_of_singleton. by left. }
  eapply wp_bind_mono; [apply wp_io_write_sent; [exact IW|apply k_blocks]|].
  intros [[code io'] script'] m' [Hm SP]. cbn [fst snd] in SP. apply wp_ret. cbn [fst snd].
  pose proof SP as (_ & P2 & _ & P4 & _ & _ & P7 & P8 & P9). change (io_pool io) with (sv_pool s) in *.
  change (io_wire io) with (io_wire (pr_io x)) in *. change (io_calls io) with (io_calls (pr_io x)) in *.
  set (x' := with_io x io'). set (s' := set_store _ _).
  assert (sv_peers s' = sv_peers s) as Hpeers by done.
  assert (sv_store s' = <[p := x']> (sv_store s)) as Hstore by done.
  apply (HQ code s' m' x'); try done.
  - intros q Hne. unfold peer_out. rewrite (put_store s s' p x' Hstore) by done.
    destruct (sv_store s !! q); [|done]. f_equal. by apply pending_ext.
  - intros Hc. unfold peer_out. rewrite (put_store_eq s s' p x' Hstore), Hx. cbn [pr_io x' with_io].
    fold io. by rewrite <- app_assoc, <- (P7 Hc).
  - by apply (peer_written_wf held s s' p x io io' script buf code).
Qed.
End Write.

(** ** Walks over the peers *)

Lemma list_del_mid p pre l : NoDup (pre ++ p :: l) -> list_del p (pre ++ p :: l) = pre ++ l.
Proof.
  intros (HN1 & HN2 & HN3)%NoDup_app. apply NoDup_cons in HN3 as [Hpl _]. unfold list_del.
  rewrite filter_app, filter_cons_False by tauto.
  pose proof (list_del_notin p l Hpl) as E1. unfold list_del in E1. rewrite E1. f_equal.
  apply (list_del_notin p pre). intros H. apply (HN2 _ H). by left.
Qed.

(** ** Sending a packet to the connected peers *)

Section Broadcast.
Context {AL : Allocator} {KE : Kernel} {UC : UserCode} `{!QuietUser UC} `{!BlockingKernel KE}.

(** What a broadcast of [bs] leaves, from [s0]: [pre] are the peers that stay
    among those already visited, [l] those to come. *)
Record sending (held : list positive) (buf : positive) (s0 : obus_server)
    (pre l : list positive) (s : obus_server) (m : mem) : Prop := {
  sd_wf : server_wf (buf :: held) s;
  sd_names : names_wf s m;
  sd_content : content (sv_pool s) buf = content (sv_pool s0) buf;
  sd_todo : forall q, q ∈ l -> sv_store s !! q = sv_store s0 !! q /\ peer_out s q = peer_out s0 q;
  sd_done : forall q, q ∈ pre -> q ∈ sv_peers s0 /\ connected s q = connected s0 q /\
    peer_out s q = peer_out s0 q ++ (if connected s0 q then content (sv_pool s0) buf else []);
  sd_kept : forall q, q ∈ sv_peers s0 -> connected s0 q = false -> q ∈ pre ++ l;
  sd_soft : (forall n, soft (k_write n)) -> AmpleMemory AL -> pre ++ l = sv_peers s0
}.

Lemma names_same s s' m m' :
  names_wf s m -> m_blocks m' = m_blocks m ->
  (forall p x', sv_store s' !! p = Some x' -> exists x, sv_store s !! p = Some x /\ pr_name x = pr_name x') ->
  names_wf s' m'.
Proof.
  intros [N1 N2] Hm H. split.
  - intros p x' Hx'. destruct (H _ _ Hx') as (x & Hx & <-). rewrite Hm. by eapply N1.
  - intros p q x y b Hne Hx Hy E1 E2. destruct (H _ _ Hx) as (x0 & Hx0 & E3).
    destruct (H _ _ Hy) as (y0 & Hy0 & E4). eapply (N2 p q x0 y0 b); congruence.
Qed.

Lemma wps_server_ref held buf s w m (Q : unit -> obus_server -> world -> mem -> Prop) :
  server_wf held s -> 0 < refs (sv_pool s) buf ->
  (forall p x, sv_store s !! p = Some x -> pr_dbuf x <> buf) ->
  (forall pl, (forall b, content pl b = content (sv_pool s) b) ->
     server_wf (buf :: held) (set_pool s pl) -> Q tt (set_pool s pl) w m) ->
  wps (server_ref buf) Q s w m.
Proof.
  intros W Hp Hd HQ. unfold server_ref. apply wps_pool, wp_bind, wp_ref_full; [apply W|done|].
  intros pl W' Hr Hc. apply wp_ret. cbn [fst snd]. apply HQ; [done|].
  eapply set_pool_wf; [exact W|done|by intros ? ? ? _ _; apply Hc| |].
  - intros b. rewrite Hr, occurrences_cons. pose proof (sw_refs _ _ W b). repeat case_decide; subst; lia.
  - intros b p x [->|Hb]%elem_of_cons Hx; [by eapply Hd|].
    intros E. destruct (sw_dec _ _ W p p x x Hx Hx) as (_ & H' & _). apply H'. by rewrite E.
Qed.

Lemma wps_server_unref held buf s w m (Q : unit -> obus_server -> world -> mem -> Prop) :
  server_wf (buf :: held) s ->
  (forall pl, (forall b, content pl b = content (sv_pool s) b) ->
     server_wf held (set_pool s pl) -> Q tt (set_pool s pl) w m) ->
  wps (server_unref buf) Q s w m.
Proof.
  intros W HQ. pose proof (sw_refs _ _ W buf) as Hb. rewrite occurrences_cons, decide_True in Hb by done.
  pose proof (occurrences_pos buf held).
  pose proof (zsum_nonneg (peer_refs s buf) (sv_peers s) (peer_refs_nonneg s buf)). unfold total_refs in Hb.
  unfold server_unref. apply wps_bind, wps_pool, wp_unref_full; [apply W|lia|].
  intros pl W' Hr Hc. apply wps_ret. cbn [fst snd]. apply HQ; [done|].
  eapply set_pool_wf; [exact W|done|by intros ? ? ? _ _; apply Hc| |].
  - intros b. rewrite Hr. pose proof (sw_refs _ _ W b) as Hb'. rewrite occurrences_cons in Hb'.
    repeat case_decide; subst; lia.
  - intros b p x Hin Hx E. destruct (sw_dec _ _ W p p x x Hx Hx) as (_ & H' & _). apply H'. rewrite E. by right.
Qed.

(** A peer that is not connected is passed over. *)
Lemma sending_skip held buf s0 pre p l s m :
  p ∈ sv_peers s0 -> connected s0 p = false ->
  sending held buf s0 pre (p :: l) s m -> sending held buf s0 (pre ++ [p]) l s m.
Proof.
  intros Hp0 Ec [W N Hc Ht Hdn Hk Hs]. destruct (Ht p ltac:(by left)) as [Hst Hout]. constructor; try done.
  - intros q Hq. apply Ht. by right.
  - intros q [Hq| ->%list_elem_of_singleton]%elem_of_app; [by apply Hdn|].
    rewrite Ec, Hout, app_nil_r. unfold connected. by rewrite Hst.
  - intros q. rewrite <- app_assoc. apply Hk.
  - rewrite <- app_assoc. apply Hs.
Qed.

(** A connected peer that gets the packet. *)
Lemma sending_sent held buf s0 pre p l x x' s s' m m' :
  p ∉ pre -> p ∉ l -> p ∈ sv_peers s0 -> connected s0 p = true -> sending held buf s0 pre (p :: l) s m ->
  sv_store s !! p = Some x -> sv_store s' = <[p := x']> (sv_store s) -> pr_state x' = pr_state x ->
  (forall q, q <> p -> peer_out s' q = peer_out s q) ->
  peer_out s' p = peer_out s p ++ content (sv_pool s) buf ->
  content (sv_pool s') buf = content (sv_pool s) buf -> server_wf (buf :: held) s' -> names_wf s' m' ->
  sending held buf s0 (pre ++ [p]) l s' m'.
Proof.
  intros Hnp Hnl Hp0 Ec [W N Hc Ht Hdn Hk Hs] Hx Hst' Hstate Ho Hop Hcont W' N'.
  destruct (Ht p ltac:(by left)) as [Hst Hout]. constructor; try done.
  - by rewrite Hcont.
  - intros q Hq. rewrite Ho, Hst', lookup_insert_ne by (intros ->; done). apply Ht. by right.
  - intros q [Hq| ->%list_elem_of_singleton]%elem_of_app.
    + assert (q <> p) by (intros ->; done). destruct (Hdn q Hq) as (H1 & H2 & H3). split_and!; [done| |].
      * rewrite <- H2. unfold connected. by rewrite Hst', lookup_insert_ne.
      * by rewrite Ho.
    + split_and!; [done| |].
      * unfold connected. by rewrite Hst', lookup_insert_eq, <- Hst, Hx, Hstate.
      * by rewrite Hop, Hout, Hc, Ec.
  - intros q. rewrite <- app_assoc. apply Hk.
  - rewrite <- app_assoc. apply Hs.
Qed.

(** A connected peer that is dropped. *)
Lemma sending_lost held buf s0 pre p l s s' m m' :
  p ∉ pre -> p ∉ l -> connected s0 p = true -> sending held buf s0 pre (p :: l) s m ->
  (forall q, q <> p -> sv_store s' !! q = sv_store s !! q /\ peer_out s' q = peer_out s q) ->
  content (sv_pool s') buf = content (sv_pool s) buf -> server_wf (buf :: held) s' -> names_wf s' m' ->
  ((forall n, soft (k_write n)) -> AmpleMemory AL -> False) ->
  sending held buf s0 pre l s' m'.
Proof.
  intros Hnp Hnl Ec [W N Hc Ht Hdn Hk Hs] Hq2 Hcont W' N' Hsoft. constructor; try done.
  - by rewrite Hcont.
  - intros q Hq. assert (q <> p) as Hne by (intros ->; done). destruct (Hq2 q Hne) as [-> ->]. apply Ht. by right.
  - intros q Hq. assert (q <> p) as Hne by (intros ->; done). destruct (Hdn q Hq) as (H1 & H2 & H3).
    destruct (Hq2 q Hne) as [E1 ->]. split_and!; [done| |done]. rewrite <- H2. unfold connected. by rewrite E1.
  - intros q Hq0 Hqc. pose proof (Hk q Hq0 Hqc) as Hqin. apply elem_of_app in Hqin as [?|[->|?]%elem_of_cons];
      [apply elem_of_app; by left|congruence|apply elem_of_app; by right].
  - intros H1 H2. by destruct (Hsoft H1 H2).
Qed.

Lemma wps_send_peer held buf s0 pre p l s w m :
  sv_peers s = pre ++ p :: l -> NoDup (pre ++ p :: l) -> p ∈ sv_peers s0 ->
  sending held buf s0 pre (p :: l) s m ->
  wps (send_peer buf p) (fun _ s' w' m' => w' = w /\ exists pre', (pre' = pre ++ [p] \/ pre' = pre) /\
     sv_peers s' = pre' ++ l /\ sending held buf s0 pre' l s' m') s w m.
Proof.
  intros Hpeers HN Hp0 SD. pose proof SD as [W N _ Ht _ _ _].
  assert (p ∉ pre /\ p ∉ l) as [Hnp Hnl].
  { apply NoDup_app in HN as (_ & H2 & H3). apply NoDup_cons in H3 as [? _]. split; [|done].
    intros Hpre. apply (H2 _ Hpre). by left. }
  destruct (Ht p ltac:(by left)) as [Hst _].
  assert (p ∈ sv_peers s) as Hin by (rewrite Hpeers; apply elem_of_app; right; by left).
  apply W in Hin as [x Hx]. unfold send_peer, obus_peer_is_connected.
  apply wps_bind, wps_bind. eapply wps_get_peer; [exact Hx|]. apply wps_ret.
  assert (connected s0 p = bool_decide (pr_state x = PEER_STATE_CONNECTED)) as <-.
  { unfold connected. by rewrite <- Hst, Hx. }
  destruct (connected s0 p) eqn:Ec; cbn [negb].
  2:{ apply wps_ret. split; [done|]. exists (pre ++ [p]). split_and!; [by left|by rewrite <- app_assoc|].
      by apply sending_skip. }
  apply wps_bind. eapply wps_peer_write; [exact W|exact Hx|].
  intros code s' m' x' Hm Hp' Hst' Hstate Hname Hdb _ _ Hc' Ho' Hop Hsoft _ _ _ HW.
  assert (names_wf s' m') as N'.
  { eapply names_same; [exact N|apply Hm|]. intros q y. rewrite Hst'. destruct (decide (q = p)) as [->|Hne].
    - rewrite lookup_insert_eq. intros [= <-]. by exists x.
    - rewrite lookup_insert_ne by done. intros Hy. by exists y. }
  destruct (Z.eqb_spec code (- EAGAIN)) as [Hcode|Hcode].
  - rewrite decide_True in HW by done. destruct HW as [HW Hb]. apply wps_server_ref with (held := held); [done..| |].
    + intros q y. rewrite Hst'. intros Hy E.
      assert (exists z, sv_store s !! q = Some z /\ pr_dbuf z = buf) as (z & Hz & Ez).
      { destruct (decide (q = p)) as [->|Hne]; [rewrite lookup_insert_eq in Hy; injection Hy as <-; exists x; by rewrite <- Hdb|].
        rewrite lookup_insert_ne in Hy by done. by exists y. }
      destruct (sw_dec _ _ W q q z z Hz Hz) as (_ & H & _). apply H. rewrite Ez. by left.
    + intros pl Hcpl HW'. split; [done|]. exists (pre ++ [p]). split_and!; [by left|cbn; by rewrite Hp', Hpeers, <- app_assoc|].
      assert (forall q, peer_out (set_pool s' pl) q = peer_out s' q) as Hout'
        by (intros q; apply set_pool_out; by intros ? ? ? _ _; apply Hcpl).
      eapply (sending_sent held buf s0 pre p l x x' s); try done.
      * intros q Hq. by rewrite Hout', Ho'.
      * rewrite Hout', Hop by by right. done.
      * cbn. by rewrite Hcpl.
      * eapply names_same; [exact N'|done|]. intros q y Hy. by exists y.
  - rewrite decide_False in HW by done. destruct (Z.eqb_spec code 0) as [Hz|Hz]; cbn [negb].
    + apply wps_ret. split; [done|]. exists (pre ++ [p]). split_and!; [by left|by rewrite Hp', Hpeers, <- app_assoc|].
      eapply (sending_sent held buf s0 pre p l x x' s); try done. apply Hop. by left.
    + apply wps_bind. eapply wps_peer_destroy; [exact HW|exact N'|rewrite Hst'; apply lookup_insert_eq|].
      intros s2 m2 W2 N2 Hp2 Hq2 Hc2. apply wps_ret. split; [done|]. exists pre.
      split_and!; [by right|by rewrite Hp2, Hp', Hpeers, list_del_mid|].
      eapply (sending_lost held buf s0 pre p l s); try done.
      * intros q Hq. destruct (Hq2 q Hq) as [-> ->]. by rewrite Ho', Hst', lookup_insert_ne.
      * rewrite Hc2 by by left. by rewrite Hc'.
      * intros H1 H2. by destruct (Hsoft (H1 _) H2).
Qed.
End Broadcast.
