(* ===== verification/ServerSend.v ===== *)
(** * What the server sends: broadcasts and the packets of the object interface *)
From S2P Require Import Prelude Mem Cstring Buffer Pool Desc Field Struct Hash BusApi World Bus Object Event Call BusEvent Io Packet Handler ServerState Server ServerFacts.

Section Peek.
Context {AL : Allocator}.

Lemma wp_buffer_new_blocks n m :
  0 <= n -> wp (obus_buffer_new n) (fun r m' => same_blocks m m' /\ (r = None -> refused (BUFFER_STRUCT_SIZE + n))) m.
Proof.
  intros Hn. unfold obus_buffer_new.
  apply wp_bind, wp_alloc; intros k m1 Hm1 E1.
  2:{ apply wp_ret. split; [done|]. intros _. exists k, BUFFER_STRUCT_SIZE. split; [lia|done]. }
  apply wp_bind, wp_alloc; intros k2 m2 Hm2 E2; apply wp_ret; (split; [by transitivity m1|]); [done|].
  intros _. exists k2, n. unfold BUFFER_STRUCT_SIZE. split; [lia|done].
Qed.

(** [peek] gives a buffer nobody holds, and leaves the others alone. *)
Lemma wp_peek_full pl m (Q : option positive * pool -> mem -> Prop) :
  pool_wf pl ->
  (forall m', same_blocks m m' -> refused (BUFFER_STRUCT_SIZE + pl_buffsize pl) -> Q (None, pl) m') ->
  (forall p pl' m', same_blocks m m' -> pool_wf pl' -> refs pl p = 0 ->
     (forall q, refs pl' q = if decide (p = q) then 1 else refs pl q) ->
     (forall q, q <> p -> content pl' q = content pl q) -> Q (Some p, pl') m') ->
  wp (obus_buffer_pool_peek pl) Q m.
Proof.
  intros W H1 H2.
  assert (wp (obus_buffer_pool_peek pl) (fun r m' => same_blocks m m' /\
    match fst r with
    | None => snd r = pl /\ refused (BUFFER_STRUCT_SIZE + pl_buffsize pl)
    | Some p => forall q, q <> p -> content (snd r) q = content pl q
    end) m) as HB.
  { unfold obus_buffer_pool_peek. destruct (pl_free pl) as [|p l] eqn:El.
    - eapply wp_bind_mono; [apply wp_buffer_new_blocks, W|]. intros [b|] m' [Hm Hf]; apply wp_ret; split; try done;
        [|split; [done|by apply Hf]].
      intros q Hq. unfold content. cbn. by rewrite lookup_insert_ne.
    - destruct (proj1 (pw_free _ W p)) as (b & Hb & _); [rewrite El; by left|].
      apply wp_bind. eapply wp_get_buf; [exact Hb|]. apply wp_ret. split; [done|].
      intros q Hq. unfold content. cbn. by rewrite lookup_insert_ne. }
  eapply wp_mono.
  { apply wp_and; [exact HB|]. apply (wp_pool_peek pl m (fun r _ => match fst r with
      | None => snd r = pl
      | Some p => pool_wf (snd r) /\ refs pl p = 0 /\
          forall q, refs (snd r) q = if decide (p = q) then 1 else refs pl q
      end)); [done|done|]. by intros. }
  intros [[p|] pl'] m' [[Hm Hc] H]; cbn in *.
  - destruct H as (? & ? & ?). by apply H2.
  - destruct Hc as [-> ?]. by apply H1.
Qed.
End Peek.

Section Send.
Context {AL : Allocator} {KE : Kernel} {UC : UserCode} `{!QuietUser UC} `{!BlockingKernel KE}.

Lemma wps_send_peers held buf s w m :
  server_wf (buf :: held) s -> names_wf s m ->
  wps (obus_server_send_peers buf)
      (fun _ s' w' m' => w' = w /\ sending held buf s (sv_peers s') [] s' m') s w m.
Proof.
  intros W N. unfold obus_server_send_peers, walk_peers.
  eapply wps_mono; [apply (wps_walk_list (sv_gets sv_peers) (fun s _ => sv_peers s) ltac:(by intros; apply wps_gets)
    (fun (pre l : list positive) s1 w1 m1 => (w1 = w /\
    forall p, p ∈ pre ++ l -> p ∈ sv_peers s) /\ sending held buf s pre l s1 m1))|].
  - apply W.
  - split; [done|]. constructor; try done. by intros q ?%not_elem_of_nil.
  - intros pre p l s1 w1 m1 Hp HN [[-> Hsub] HS].
    eapply wps_mono; [apply (wps_send_peer held buf s pre p l); try done|].
    + apply Hsub, elem_of_app. right. by left.
    + intros [] s2 w2 m2 (-> & pre' & Hpre & Hp2 & HS2). exists pre'. split_and!; [done..| |done].
      intros q Hq. apply Hsub. destruct Hpre as [->| ->].
      * by rewrite <- app_assoc in Hq.
      * apply elem_of_app in Hq as [?|?]; apply elem_of_app; [by left|right; by right].
  - intros [] s' w' m' [[-> _] HS]. done.
Qed.

(** The peers of [s0] and what they receive: the bytes [bs] for every connected
    peer that is still there, nothing for the others; a peer is dropped only
    when it was connected, and none is when the kernel has no write error. *)
Record delivered (bs : list Z) (s0 s : obus_server) : Prop := {
  dl_out : forall p, p ∈ sv_peers s -> p ∈ sv_peers s0 /\ connected s p = connected s0 p /\
    peer_out s p = peer_out s0 p ++ (if connected s0 p then bs else []);
  dl_kept : forall p, p ∈ sv_peers s0 -> connected s0 p = false -> p ∈ sv_peers s;
  dl_soft : (forall n, soft (k_write n)) -> AmpleMemory AL -> sv_peers s = sv_peers s0
}.

Lemma total_refs_pos s b p x :
  p ∈ sv_peers s -> NoDup (sv_peers s) -> sv_store s !! p = Some x ->
  b ∈ io_write_buffers (pr_io x) \/ pr_dbuf x = b -> 0 < total_refs s b.
Proof.
  intros Hp HN Hx Hb. unfold total_refs. rewrite (zsum_del _ p) by done.
  pose proof (zsum_nonneg (peer_refs s b) (list_del p (sv_peers s)) (peer_refs_nonneg s b)).
  unfold peer_refs at 1. rewrite Hx. pose proof (occurrences_pos b (io_write_buffers (pr_io x))).
  destruct Hb as [Hb|Hb]; [pose proof (occurrences_elem _ _ Hb); case_decide; lia|].
  rewrite decide_True by done. lia.
Qed.

(** A buffer without references is in no queue and in no decoder. *)
Lemma unreferenced held s b :
  server_wf held s -> refs (sv_pool s) b = 0 ->
  forall p x, sv_store s !! p = Some x -> b ∉ io_write_buffers (pr_io x) /\ pr_dbuf x <> b.
Proof.
  intros W Hr p x Hx. pose proof (sw_refs _ _ W b). pose proof (occurrences_pos b held).
  assert (p ∈ sv_peers s) as Hp by (apply W; by eexists).
  split; intros Hb; pose proof (total_refs_pos s b p x Hp (sw_nodup _ _ W) Hx); [|]; cut (0 < total_refs s b); [lia|tauto|lia|tauto].
Qed.

Lemma wps_server_peek held s w m (Q : option positive -> obus_server -> world -> mem -> Prop) :
  server_wf held s ->
  (forall m', same_blocks m m' -> refused (BUFFER_STRUCT_SIZE + pl_buffsize (sv_pool s)) -> Q None s w m') ->
  (forall b pl m', same_blocks m m' -> server_wf (b :: held) (set_pool s pl) -> queued_same s pl ->
     refs (sv_pool s) b = 0 -> refs pl b = 1 -> (forall q, q <> b -> content pl q = content (sv_pool s) q) ->
     Q (Some b) (set_pool s pl) w m') ->
  wps server_peek Q s w m.
Proof.
  intros W H1 H2. unfold server_peek. apply wps_pool, wp_peek_full; [apply W| |]; cbn [fst snd].
  - intros m' Hm Hf. replace (set_pool s (sv_pool s)) with s by by destruct s. by apply H1.
  - intros b pl m' Hm HW Hb Hr Hc. pose proof (unreferenced _ _ _ W Hb) as Hu.
    assert (queued_same s pl) as Hq.
    { intros p x c Hx Hin. apply Hc. intros ->. by destruct (Hu _ _ Hx). }
    apply H2; try done; [|by rewrite Hr, decide_True].
    eapply set_pool_wf; [exact W|done|done| |].
    + intros c. rewrite Hr, occurrences_cons. pose proof (sw_refs _ _ W c) as Hrc.
      pose proof (zsum_nonneg (peer_refs s c) (sv_peers s) (peer_refs_nonneg s c)).
      unfold total_refs in *. pose proof (occurrences_pos c held).
      repeat case_decide; subst; lia || done.
    + intros c p x [->|Hin]%elem_of_cons Hx; [by destruct (Hu _ _ Hx)|].
      intros E. destruct (sw_dec _ _ W p p x x Hx Hx) as (_ & H & _). apply H. by rewrite E.
Qed.

(** An encoder that frames the payload [bs], on the buffer just peeked. *)
Definition frames (type : Z) (bs : list Z) (enc : buffer -> W (Z * buffer)) (w : world) (m : mem) : Prop :=
  forall b m1, same_blocks m m1 -> buf_wf b ->
    wpw (enc b) (fun r w' m' => w' = w /\ frame_post type bs b m1 r m') w m1.

Lemma wps_encode_into held buf enc type bs s w m (Q : Z -> obus_server -> world -> mem -> Prop) :
  server_wf (buf :: held) s -> refs (sv_pool s) buf = 1 -> frames type bs enc w m ->
  (forall code pl m', same_blocks m m' -> server_wf (buf :: held) (set_pool s pl) -> queued_same s pl ->
     (code = 0 /\ content pl buf = packet_wire type bs \/ code = - ENOMEM /\ refused (packet_size bs)) ->
     Q code (set_pool s pl) w m') ->
  wps (encode_into buf enc) Q s w m.
Proof.
  intros W Hr HF HQ. unfold encode_into. apply wps_bind, wps_gets, wps_bind, wps_mem.
  destruct (refs_buf _ _ (sw_pool _ _ W) ltac:(by rewrite Hr)) as (b & Hb & Wb).
  assert (buf_refcnt b = 1) as Hc by (revert Hr; unfold refs; by rewrite Hb).
  eapply wp_get_buf; [exact Hb|]. apply wps_bind, wps_bus.
  eapply wpw_mono; [apply (HF b m); done|]. intros [code b'] w' m' (-> & Hm & Wb' & _ & Hc' & Hcode).
  cbn [fst snd] in *. apply wps_bind, wps_modify, wps_ret.
  assert (forall c, refs (set_buf (sv_pool s) buf b') c = refs (sv_pool s) c) as Hrefs.
  { intros c. rewrite refs_set_buf. case_decide; subst; [by rewrite Hr, Hc', Hc|done]. }
  pose proof (sw_refs _ _ W buf) as Htot. rewrite occurrences_cons, decide_True, Hr in Htot by done.
  pose proof (occurrences_pos buf held).
  assert (queued_same s (set_buf (sv_pool s) buf b')) as Hq.
  { intros p x c Hx Hin. unfold content, set_buf. cbn. rewrite lookup_insert_ne; [done|]. intros <-.
    pose proof (total_refs_pos s buf p x ltac:(apply W; by eexists) (sw_nodup _ _ W) Hx ltac:(by left)). lia. }
  apply HQ; [done| |done|].
  - eapply set_pool_wf; [exact W| |done| |].
    + apply pool_wf_use; [apply W|by rewrite Hr|done|by rewrite Hr, Hc', Hc].
    + intros c. rewrite Hrefs. apply W.
    + intros c p x Hin Hx E. destruct (sw_dec _ _ W p p x x Hx Hx) as (_ & Hd & _). apply Hd. by rewrite E.
  - destruct Hcode as [[? Hbytes]|?]; [left|by right]. split; [done|]. unfold content, set_buf. cbn.
    by rewrite lookup_insert_eq.
Qed.

Lemma delivered_from bs s0 s1 s2 :
  sv_peers s1 = sv_peers s0 -> (forall p, connected s1 p = connected s0 p) ->
  (forall p, peer_out s1 p = peer_out s0 p) -> delivered bs s1 s2 -> delivered bs s0 s2.
Proof.
  intros H1 H2 H3 [D1 D2 D3]. constructor.
  - intros p Hp. rewrite <- H1, <- H2, <- H3. by apply D1.
  - intros p. rewrite <- H1, <- H2. apply D2.
  - intros Hs HA. rewrite <- H1. by apply D3.
Qed.

Lemma delivered_nothing s0 s1 :
  sv_peers s1 = sv_peers s0 -> (forall p, connected s1 p = connected s0 p) ->
  (forall p, peer_out s1 p = peer_out s0 p) -> delivered [] s0 s1.
Proof.
  intros H1 H2 H3. constructor; [|by intros; rewrite H1|done].
  intros p. rewrite H1, H2, H3. intros Hp. split_and!; [done..|]. case_match; by rewrite app_nil_r.
Qed.

(** Some allocation of a buffer for a packet of payload [bs] was refused. *)
Definition no_buffer (s : obus_server) (bs : list Z) : Prop :=
  refused (BUFFER_STRUCT_SIZE + pl_buffsize (sv_pool s) + packet_size bs).

(** What the operations that send a packet do for the peers. *)
Definition sent (held : list positive) (type : Z) (bs : list Z) (s : obus_server)
    (code : Z) (s' : obus_server) (m' : mem) : Prop :=
  server_wf held s' /\ names_wf s' m' /\
  (code = 0 /\ delivered (packet_wire type bs) s s' \/
   code = - ENOMEM /\ no_buffer s bs /\ delivered [] s s').

(** Another pool, the same bytes in the queues. *)
Definition repooled (s s1 : obus_server) : Prop := exists pl, s1 = set_pool s pl /\ queued_same s pl.

Lemma repooled_trans s pl s2 : queued_same s pl -> repooled (set_pool s pl) s2 -> repooled s s2.
Proof.
  intros Hq (pl2 & -> & Hq2). exists pl2. split; [done|]. intros p x b Hx Hb.
  rewrite (Hq2 p x b Hx Hb). by apply (Hq p x b).
Qed.

Lemma repooled_out s s1 p : repooled s s1 -> peer_out s1 p = peer_out s p.
Proof. intros (pl & -> & Hq). by apply set_pool_out. Qed.

Lemma repooled_names s s1 m m' : repooled s s1 -> names_wf s m -> m_blocks m' = m_blocks m -> names_wf s1 m'.
Proof. intros (pl & -> & _) N Hm. eapply names_same; [exact N|done|]. intros p x Hx. by exists x. Qed.

(** A buffer is peeked and a packet is encoded into it. *)
Lemma wps_framed held enc type bs (k : positive -> SV Z) s w m (Q : Z -> obus_server -> world -> mem -> Prop) :
  server_wf held s -> frames type bs enc w m ->
  (forall s1 m1, repooled s s1 -> same_blocks m m1 -> server_wf held s1 -> no_buffer s bs -> Q (- ENOMEM) s1 w m1) ->
  (forall buf s1 m1, repooled s s1 -> same_blocks m m1 -> server_wf (buf :: held) s1 ->
     content (sv_pool s1) buf = packet_wire type bs -> wps (k buf) Q s1 w m1) ->
  wps (buf ← server_peek;
       match buf with
       | None => mret (- ENOMEM)
       | Some buf =>
         ret ← encode_into buf enc;
         if failed ret then server_unref buf;; mret ret else k buf
       end) Q s w m.
Proof.
  intros W HF H1 H2. pose proof (pw_size _ (sw_pool _ _ W)).
  assert (0 <= packet_size bs) by (unfold packet_size, OBUS_PKT_HDR_SIZE; lia).
  apply wps_bind. eapply wps_server_peek; [exact W| |].
  { intros m' Hm Hf. apply wps_ret, H1; [|done..|].
    - exists (sv_pool s). by destruct s.
    - eapply (refused_mono (BUFFER_STRUCT_SIZE + pl_buffsize (sv_pool s))); [lia|exact Hf]. }
  intros buf pl m1 Hm1 W1 Hq1 Hr0 Hr1 Hc1. apply wps_bind.
  eapply wps_encode_into; [exact W1|exact Hr1|intros b m2 Hm2; apply HF; by transitivity m1|].
  intros code pl2 m2 Hm2 W2 Hq2 Hcode.
  assert (repooled s (set_pool (set_pool s pl) pl2)) as R by (eapply repooled_trans; [exact Hq1|by eexists]).
  assert (same_blocks m m2) as Hm by by transitivity m1.
  destruct Hcode as [[-> Hcont]|[-> Hf]]; cbn [failed Z.ltb Z.compare Z.opp ENOMEM].
  - by apply H2.
  - apply wps_bind. eapply wps_server_unref; [exact W2|]. intros pl4 Hc4 W4. apply wps_ret, H1; [|done..|].
    + eapply repooled_trans; [exact Hq1|]. eapply repooled_trans; [exact Hq2|]. exists pl4. split; [done|].
      by intros ? ? ? _ _; apply Hc4.
    + apply (refused_mono (packet_size bs)); [unfold BUFFER_STRUCT_SIZE; lia|exact Hf].
Qed.

Lemma repooled_delivered bs s s1 s2 : repooled s s1 -> delivered bs s1 s2 -> delivered bs s s2.
Proof.
  intros R. pose proof (fun p => repooled_out s s1 p R). destruct R as (pl & -> & _). by apply delivered_from.
Qed.

Lemma repooled_nothing s s1 : repooled s s1 -> delivered [] s s1.
Proof. intros R. pose proof (fun p => repooled_out s s1 p R). destruct R as (pl & -> & _). by apply delivered_nothing. Qed.

Lemma wps_broadcast held enc type bs s w m :
  server_wf held s -> names_wf s m -> frames type bs enc w m ->
  wps (broadcast enc) (fun code s' w' m' => w' = w /\ sent held type bs s code s' m') s w m.
Proof.
  intros W N HF. unfold broadcast, sent. eapply wps_framed; [exact W|exact HF| |].
  - intros s1 m1 R Hm W1 Hf. split; [done|]. split; [done|]. split; [eapply repooled_names; [exact R|exact N|apply Hm]|].
    right. split; [done|]. split; [done|]. by apply repooled_nothing.
  - intros buf s2 m2 R Hm W2 Hcont. apply wps_bind.
    eapply wps_mono; [apply wps_send_peers; [exact W2|eapply repooled_names; [exact R|exact N|apply Hm]]|].
    intros [] s3 w3 m3 [-> [D1 D2 D3 D4 D5 D6 D7]]. rewrite Hcont in D5.
    apply wps_bind. eapply wps_server_unref; [exact D1|]. intros pl4 Hc4 W4. apply wps_ret.
    assert (forall p, peer_out (set_pool s3 pl4) p = peer_out s3 p) as Hsp.
    { intros p. apply set_pool_out. by intros ? ? ? _ _; apply Hc4. }
    split_and!; [done..| |left; split; [done|]].
    + eapply names_same; [exact D2|done|]. intros p x Hx. by exists x.
    + eapply repooled_delivered; [exact R|]. constructor.
      * intros p Hp. rewrite Hsp. by apply D5.
      * intros p Hp Hcp. pose proof (D6 p Hp Hcp) as Hin. by rewrite app_nil_r in Hin.
      * intros HS HA. rewrite <- (D7 HS HA). by rewrite app_nil_r.
Qed.
End Send.

(** ** Announcing objects *)

Section Announce.
Context {AL : Allocator} {KE : Kernel} {UC : UserCode} `{!QuietUser UC} `{!BlockingKernel KE}.

Lemma n_connected_range s : 0 <= n_connected s <= Z.of_nat (length (sv_peers s)).
Proof.
  unfold n_connected. induction (sv_peers s) as [|p l IH]; cbn [zsum Datatypes.length]; [lia|].
  rewrite Nat2Z.inj_succ. destruct (connected s p); lia.
Qed.

Lemma n_connected_zero s p : n_connected s = 0 -> p ∈ sv_peers s -> connected s p = false.
Proof.
  unfold n_connected. induction (sv_peers s) as [|q l IH]; cbn [zsum]; intros Hn Hp; [by apply not_elem_of_nil in Hp|].
  assert (0 <= zsum (fun p => if connected s p then 1 else 0) l).
  { apply zsum_nonneg. intros r. by destruct (connected s r). }
  destruct (connected s q) eqn:Eq; [lia|]. apply elem_of_cons in Hp as [->|Hp]; [done|]. by apply IH.
Qed.

(** Nothing is sent when no peer is connected, which is what is due. *)
Lemma wps_broadcast_if_peers held enc type bs s w m :
  server_wf held s -> names_wf s m -> Z.of_nat (length (sv_peers s)) < 2 ^ 64 -> frames type bs enc w m ->
  wps (broadcast_if_peers enc) (fun code s' w' m' => w' = w /\ sent held type bs s code s' m') s w m.
Proof.
  intros W N Hl HF. unfold broadcast_if_peers. apply wps_bind, wps_gets.
  destruct (Z.eqb_spec (sv_n_peers_connected s) 0) as [Hz|Hz]; [|by apply wps_broadcast].
  apply wps_ret. split; [done|]. split; [done|]. split; [done|]. left. split; [done|].
  rewrite (sw_count _ _ W) in Hz. pose proof (n_connected_range s).
  rewrite u64_small in Hz by lia. constructor; [|done|done].
  intros p Hp. rewrite (n_connected_zero _ _ Hz Hp), app_nil_r. done.
Qed.

Lemma frames_encode type bs payload w m :
  is_byte type -> packet_size bs < 2 ^ 32 -> emits m payload bs ->
  frames type bs (fun b => lift (encode_packet type payload b)) w m.
Proof.
  intros Ht Hs He b m1 Hm Wb. apply wpw_lift. eapply wp_mono; [apply (wp_encode_packet type payload bs b m1); try done|].
  - intros b1 m2 Hm2. apply He. by transitivity m1.
  - intros r m' H. done.
Qed.

Lemma frames_get_obj type bs f p o w m :
  w_objs w !! p = Some o -> frames type bs (f o) w m ->
  frames type bs (fun b => o ← get_obj p; f o b) w m.
Proof.
  intros Hp HF b m1 Hm Wb. apply wpw_bind. eapply wpw_lookup; [exact Hp|]. by apply HF.
Qed.

Lemma object_sound_registered m o cs b : object_sound m o cs -> object_sound m (with_registered o b) cs.
Proof. by intros []. Qed.

(** C7: registering an object announces it to the connected peers, and to them
    only.  The object joins the list of the bus; every peer that was connected
    either gets, after what it already had to receive, exactly the ADD packet of
    the object, or is dropped after a write error; the other peers get nothing.
    When no buffer can be had the code is -ENOMEM and nothing at all is sent. *)
Theorem register_object_announces p o cs s w m :
  server_wf [] s -> names_wf s m -> Z.of_nat (length (sv_peers s)) < 2 ^ 64 ->
  w_objs w !! p = Some o -> ob_is_registered o = false -> p ∉ b_objects (w_bus w) ->
  object_sound m o cs -> packet_size (object_wire o cs) < 2 ^ 32 ->
  wps (obus_server_register_object p)
      (fun code s' w' m' => server_wf [] s' /\ names_wf s' m' /\
         b_objects (w_bus w') = b_objects (w_bus w) ++ [p] /\
         w_objs w' = <[p := with_registered o true]> (w_objs w) /\
         (code = 0 /\ delivered (packet_wire OBUS_PKT_ADD (object_wire o cs)) s s' \/
          code = - ENOMEM /\ no_buffer s (object_wire o cs) /\ delivered [] s s')) s w m.
Proof.
  intros W N Hl Hp Ho Hb S Hs. unfold obus_server_register_object, obus_object_is_registered.
  apply wps_bind, wps_bus, wpw_bind. eapply wpw_lookup; [exact Hp|]. rewrite Ho. apply wpw_ret.
  unfold obus_bus_register_object. apply wps_bind, wps_bus, wpw_bind. eapply wpw_lookup; [exact Hp|].
  apply wpw_bind, wpw_modify, wpw_bind, wpw_gets, wpw_bind. unfold list_link. rewrite decide_False by done.
  apply wpw_ret, wpw_bind, wpw_modify, wpw_ret. cbn [failed Z.ltb Z.compare].
  eapply wps_mono; [apply (wps_broadcast_if_peers [] _ OBUS_PKT_ADD (object_wire o cs)); try done|].
  - apply (frames_get_obj _ _ (fun o b => lift (encode_packet OBUS_PKT_ADD (obus_object_add_encode o) b)) _
      (with_registered o true)); [apply lookup_insert_eq|].
    apply frames_encode; [unfold is_byte, OBUS_PKT_ADD; lia|done|].
    apply (emits_object m (with_registered o true)). by apply object_sound_registered.
  - intros code s' w' m' (-> & ? & ? & ?). by split_and!.
Qed.

(** C14: unregistering an object withdraws it from the connected peers.  The object
    leaves the list of the bus in any case.  When a buffer can be had, every peer
    that was connected either gets, after what it already had to receive, exactly
    the REMOVE packet with the uid and the handle of the object, or is dropped after
    a write error, and the other peers get nothing; no connected peer is dropped
    when no write and no allocation fails.  When no buffer can be had the code is
    -ENOMEM and nothing at all is sent. *)
Theorem unregister_object_withdraws p o s w m :
  server_wf [] s -> names_wf s m -> Z.of_nat (length (sv_peers s)) < 2 ^ 64 ->
  w_objs w !! p = Some o -> ob_is_registered o = true -> p ∈ b_objects (w_bus w) ->
  wps (obus_server_unregister_object p)
      (fun code s' w' m' => server_wf [] s' /\ names_wf s' m' /\
         b_objects (w_bus w') = filter (fun q => q <> p) (b_objects (w_bus w)) /\
         w_objs w' = <[p := with_registered o false]> (w_objs w) /\
         (code = 0 /\
            delivered (packet_wire OBUS_PKT_REMOVE (remove_wire (od_uid (ob_desc o)) (ob_handle o))) s s' \/
          code = - ENOMEM /\ no_buffer s (remove_wire (od_uid (ob_desc o)) (ob_handle o)) /\
            delivered [] s s')) s w m.
Proof.
  intros W N Hl Hp Ho Hb. unfold obus_server_unregister_object, obus_object_is_registered.
  apply wps_bind, wps_bus, wpw_bind. eapply wpw_lookup; [exact Hp|]. rewrite Ho. apply wpw_ret. cbn [negb].
  unfold obus_bus_unregister_object. apply wps_bind, wps_bus, wpw_bind. eapply wpw_lookup; [exact Hp|].
  apply wpw_bind, wpw_modify, wpw_bind, wpw_gets, wpw_bind. unfold list_unlink. rewrite decide_True by done.
  apply wpw_ret, wpw_bind, wpw_modify, wpw_ret. cbn [failed Z.ltb Z.compare].
  eapply wps_mono; [apply (wps_broadcast_if_peers [] _ OBUS_PKT_REMOVE
    (remove_wire (od_uid (ob_desc o)) (ob_handle o))); try done|].
  - apply (frames_get_obj _ _ (fun o b => lift (encode_packet OBUS_PKT_REMOVE (obus_object_remove_encode o) b)) _
      (with_registered o false)); [apply lookup_insert_eq|].
    apply frames_encode; [unfold is_byte, OBUS_PKT_REMOVE; lia|done|].
    apply (emits_object_remove m (with_registered o false)).
  - intros code s' w' m' (-> & ? & ? & ?). by split_and!.
Qed.
End Announce.

(** ** A server with a connected peer and a new one *)

Section Witnesses.
#[local] Existing Instance ample_alloc.

(** A kernel that takes every packet at once, and users that do nothing. *)
#[local] Instance wit_kernel : Kernel := {
  k_write n := [Accepted 65536; WriteError EAGAIN];
  k_read n := [];
  k_rand n := [7];
  k_ok n := true
}.

#[local] Instance wit_user : UserCode := {
  connection_cb _ _ _ _ := mret tt;
  method_handler _ _ _ _ := mret tt
}.

#[local] Instance wit_user_quiet : QuietUser wit_user.
Proof. intros cb ev p ud s w m _. by apply wps_ret. Qed.

#[local] Instance wit_kernel_blocks : BlockingKernel wit_kernel.
Proof. intros n. apply (wit_blocks [Accepted 65536]). by repeat constructor. Qed.

Lemma wit_kernel_soft n : soft (k_write n).
Proof. constructor; [done|]. constructor; [by right|constructor]. Qed.

Definition wit_srv_buf : buffer := Buffer 4 0 0 [0; 0; 0; 0] 1.
Definition wit_srv_pool : pool := Pool 16 [] {[1%positive := wit_srv_buf; 2%positive := wit_srv_buf]} 3.
Definition wit_peer st b : obus_peer :=
  Peer CNull st (Io [] 0 false false (obus_buffer_pool_init 0) [] []) wit_decoder b 0.
Definition wit_srv : obus_server :=
  Server [1%positive; 2%positive]
    {[1%positive := wit_peer PEER_STATE_CONNECTED 1; 2%positive := wit_peer PEER_STATE_IDLE 2]}
    [98] 1 wit_srv_pool None SERVER_STATE_STARTED 1 0 0 3 0.

Lemma wit_two {A} (x y : A) (q : positive) z :
  ({[1%positive := x; 2%positive := y]} : gmap positive A) !! q = Some z ->
  (q = 1%positive /\ z = x) \/ (q = 2%positive /\ z = y).
Proof. intros [[<- <-]|[_ [<- <-]%lookup_singleton_Some]]%lookup_insert_Some; tauto. Qed.

Lemma wit_srv_pool_wf : pool_wf wit_srv_pool.
Proof.
  assert (buf_wf wit_srv_buf) as Wb.
  { constructor; cbn; [lia|lia|unfold PTRDIFF_MAX; lia|done|].
    repeat (apply Forall_cons; split; [unfold is_byte; lia|]). by apply Forall_nil. }
  constructor; cbn; [lia|constructor|..].
  - intros p. split; [intros Hp; by apply not_elem_of_nil in Hp|].
    by intros (b & [[_ ->]|[_ ->]]%wit_two & ?).
  - intros p b [[_ ->]|[_ ->]]%wit_two; by split.
  - intros p [b [[-> _]|[-> _]]%wit_two]; lia.
Qed.

Lemma wit_srv_wf : server_wf [] wit_srv.
Proof.
  constructor.
  - repeat constructor; set_solver.
  - intros p. cbn. split.
    + intros [->|[->|H]%elem_of_cons]%elem_of_cons; [by eexists|by eexists|by apply not_elem_of_nil in H].
    + intros [x [[-> _]|[-> _]]%wit_two]; [by left|right; by left].
  - intros p. cbn. intros [->|[->|H]%elem_of_cons]%elem_of_cons; [lia|lia|by apply not_elem_of_nil in H].
  - reflexivity.
  - exact wit_srv_pool_wf.
  - intros b. unfold total_refs, zsum, peer_refs, refs. cbn [sv_peers wit_srv].
    destruct (decide (b = 1%positive)) as [->|H1]; [vm_compute; congruence|].
    destruct (decide (b = 2%positive)) as [->|H2]; [vm_compute; congruence|].
    cbn [sv_store sv_pool pl_bufs wit_srv wit_srv_pool]. rewrite lookup_insert_eq.
    rewrite lookup_insert_ne, lookup_singleton_eq by done. rewrite lookup_insert_ne, lookup_singleton_ne by congruence.
    cbn. rewrite !decide_False by congruence. unfold occurrences. cbn. lia.
  - by intros p x [[_ ->]|[_ ->]]%wit_two.
  - intros p q x y [[-> ->]|[-> ->]]%wit_two [[-> ->]|[-> ->]]%wit_two; cbn;
      (split_and!; [by apply not_elem_of_nil|by apply not_elem_of_nil|done]).
Qed.

Lemma wit_srv_names m : names_wf wit_srv m.
Proof. split; [by intros p x [[_ ->]|[_ ->]]%wit_two|by intros p q x y b _ [[_ ->]|[_ ->]]%wit_two]. Qed.

Lemma wit_rich_sound : object_sound wit_mem wit_rich_obj wit_contents.
Proof.
  constructor; cbn [ob_info ob_desc ob_handle wit_rich_obj od_uid od_info_desc wit_rich];
    [reflexivity|exact wit_struct_shape|exact wit_struct_denotes|exact wit_contents_ok|
     unfold uid_ok; lia|lia|vm_compute; reflexivity|vm_compute; congruence].
Qed.

(** What is delivered on [wit_srv] when nothing fails. *)
Lemma wit_delivered bs s' :
  delivered bs wit_srv s' ->
  sv_peers s' = [1%positive; 2%positive] /\ peer_out s' 1%positive = bs /\ peer_out s' 2%positive = [].
Proof.
  intros [D1 _ D3]. pose proof (D3 wit_kernel_soft _) as Hp. change (sv_peers wit_srv) with [1%positive; 2%positive] in Hp.
  split; [done|]. rewrite Hp in D1.
  destruct (D1 1%positive) as (_ & _ & ->); [by left|]. by destruct (D1 2%positive) as (_ & _ & ->); [right; by left|].
Qed.

Lemma wit_no_buffer bs : packet_size bs < 2 ^ 20 -> no_buffer wit_srv bs -> False.
Proof.
  intros H. apply ample_not_refused. unfold BUFFER_STRUCT_SIZE, PTRDIFF_MAX. cbn [sv_pool wit_srv pl_buffsize wit_srv_pool]. lia.
Qed.

Definition wit_fresh_obj : obus_object := with_registered wit_rich_obj false.
Definition wit_fresh_w : world := set_objs wit_rich_w {[1%positive := wit_fresh_obj]}.

Lemma register_object_announces_witness :
  wps (obus_server_register_object 1)
      (fun code s' w' _ => code = 0 /\ b_objects (w_bus w') = [1%positive] /\ sv_peers s' = [1%positive; 2%positive] /\
         peer_out s' 1%positive = packet_wire OBUS_PKT_ADD (object_wire wit_fresh_obj wit_contents) /\
         peer_out s' 2%positive = []) wit_srv wit_fresh_w wit_mem.
Proof.
  assert (packet_size (object_wire wit_fresh_obj wit_contents) < 2 ^ 20) as Hs by (vm_compute; reflexivity).
  eapply wps_mono; [apply (register_object_announces 1 wit_fresh_obj wit_contents wit_srv wit_fresh_w wit_mem)|].
  - exact wit_srv_wf.
  - exact (wit_srv_names _).
  - cbn. lia.
  - reflexivity.
  - reflexivity.
  - by apply not_elem_of_nil.
  - apply object_sound_registered. exact wit_rich_sound.
  - lia.
  - intros code s' w' m' (_ & _ & Hb & _ & [[Hc D]|(_ & Hn & _)]); [|destruct (wit_no_buffer _ Hs Hn)].
    split; [exact Hc|]. split; [exact Hb|]. exact (wit_delivered _ _ D).
Defined.

Definition wit_reg_w : world := set_bus wit_rich_w (set_objects (w_bus wit_rich_w) [1%positive]).

Lemma unregister_object_withdraws_witness :
  wps (obus_server_unregister_object 1)
      (fun code s' w' _ => code = 0 /\ b_objects (w_bus w') = [] /\ sv_peers s' = [1%positive; 2%positive] /\
         peer_out s' 1%positive = [111; 98; 117; 115; 0; 0; 0; 13; 3; 0; 1; 0; 9] /\
         peer_out s' 2%positive = []) wit_srv wit_reg_w wit_mem.
Proof.
  assert (packet_size (be_bytes 2 1 ++ be_bytes 2 9) < 2 ^ 20) as Hs by (vm_compute; reflexivity).
  eapply wps_mono; [apply (unregister_object_withdraws 1 wit_rich_obj wit_srv wit_reg_w wit_mem)|].
  - exact wit_srv_wf.
  - exact (wit_srv_names _).
  - cbn. lia.
  - reflexivity.
  - reflexivity.
  - by left.
  - intros code s' w' m' (_ & _ & Hb & _ & [[Hc D]|(_ & Hn & _)]); [|destruct (wit_no_buffer _ Hs Hn)].
    split; [exact Hc|]. split; [exact Hb|]. exact (wit_delivered _ _ D).
Defined.
End Witnesses.
