(* ===== verification/ServerCount.v ===== *)
(** * The count of connected peers, whatever the application does

    [sv_n_peers_connected] decides whether anything is sent at all, so it has to
    be the number of connected peers at every moment, also inside the callbacks
    of the application, which may use the whole interface.  Here the callbacks
    are arbitrary code with two duties ([LawfulUser]): they leave the count right
    and they do not connect a peer; every function of the interface, and every
    sequence of them, fulfils them. *)
From S2P Require Import Prelude Mem Cstring Buffer Pool Desc Field Struct Hash BusApi World Bus Object Event Call BusEvent Io Packet Handler ServerState Server ServerFacts ServerSend.

Record count_ok (s : obus_server) : Prop := {
  co_nodup : NoDup (sv_peers s);
  co_live : forall p, p ∈ sv_peers s <-> is_Some (sv_store s !! p);
  co_next : forall p, p ∈ sv_peers s -> (p < sv_next s)%positive;
  co_count : sv_n_peers_connected s = u64 (n_connected s)
}.

(** No peer becomes connected. *)
Definition no_new (s s' : obus_server) : Prop := forall p, connected s' p = true -> connected s p = true.

#[export] Instance no_new_preorder : PreOrder no_new.
Proof. split; [by intros s p|]. intros s1 s2 s3 H1 H2 p Hp. by apply H1, H2. Qed.

Class LawfulUser (UC : UserCode) : Prop := {
  lawful_connection : forall cb ev p ud, keeps count_ok no_new (connection_cb cb ev p ud);
  lawful_method : forall h obj handle args, keeps count_ok no_new (method_handler h obj handle args)
}.

(** The parts of the state the invariant reads. *)
Definition same_peers (s s' : obus_server) : Prop :=
  sv_peers s' = sv_peers s /\ sv_store s' = sv_store s /\ sv_next s' = sv_next s /\
  sv_n_peers_connected s' = sv_n_peers_connected s.

Lemma n_connected_ext s s' :
  sv_peers s' = sv_peers s -> (forall p, p ∈ sv_peers s -> connected s' p = connected s p) ->
  n_connected s' = n_connected s.
Proof. intros H1 H2. unfold n_connected. rewrite H1. apply zsum_ext. intros p Hp. by rewrite H2. Qed.

Lemma keeps_modify f : (forall s, same_peers s (f s)) -> keeps count_ok no_new (sv_modify f).
Proof.
  intros H s w m a s' w' m' [= _ <- _ _] [C1 C2 C3 C4]. destruct (H s) as (E1 & E2 & E3 & E4).
  assert (forall p, connected (f s) p = connected s p) as Hc by (intros p; unfold connected; by rewrite E2).
  split; [|intros p; by rewrite Hc]. constructor; rewrite ?E1, ?E2, ?E3, ?E4; try done.
  rewrite C4. f_equal. symmetry. by apply n_connected_ext.
Qed.

#[local] Hint Extern 1 (keeps _ _ (sv_modify _)) => apply keeps_modify; done : keeps.

(** Replacing a peer by one that is not connected unless it was already. *)
Lemma count_put s p x x' :
  count_ok s -> sv_store s !! p = Some x ->
  (pr_state x' = PEER_STATE_CONNECTED <-> pr_state x = PEER_STATE_CONNECTED) ->
  let s' := set_store s (<[p := x']> (sv_store s)) in
  count_ok s' /\ forall q, connected s' q = connected s q.
Proof.
  intros [C1 C2 C3 C4] Hx Hst s'.
  assert (forall q, connected s' q = connected s q) as Hc.
  { intros q. unfold connected. cbn. destruct (decide (q = p)) as [->|Hq].
    - rewrite lookup_insert_eq, Hx. by apply bool_decide_ext.
    - by rewrite lookup_insert_ne. }
  split; [|done]. constructor; cbn; try done.
  - intros q. rewrite C2, lookup_insert_is_Some'. split; [by right|]. intros [<-|?]; [by eexists|done].
  - rewrite C4. f_equal. symmetry. by apply (n_connected_ext s s').
Qed.

(** ** Inverting runs *)

Lemma get_peer_inv p s w m x s' w' m' :
  get_peer p s w m = Some ((x, s'), w', m') -> s' = s /\ sv_store s !! p = Some x.
Proof.
  unfold get_peer. intros (st & s1 & w1 & m1 & [= <- <- <- <-] & E)%bind_inv.
  unfold on_mem, on_bus, lift, m_lift, mbind, W_bind, mbind, M_bind, mret, W_ret, mret, M_ret in E.
  destruct (sv_store s !! p) as [y|]; cbn in E; [|done]. by injection E as <- <- <- <-.
Qed.

Lemma on_pool_inv {A} (c : pool -> M (A * pool)) s w m a s' w' m' :
  on_pool c s w m = Some ((a, s'), w', m') -> exists pl, s' = set_pool s pl.
Proof.
  unfold on_pool. intros (pl & s1 & w1 & m1 & [= <- <- <- <-] & E)%bind_inv.
  apply bind_inv in E as ([b pl'] & s2 & w2 & m2 & ->%bus_inv & E).
  apply bind_inv in E as ([] & s3 & w3 & m3 & [= <- _ _] & [= _ <- _ _]). by eexists.
Qed.

Lemma peer_io_inv {A} p (c : obus_io -> M (A * obus_io)) s w m a s' w' m' :
  with_peer_io p c s w m = Some ((a, s'), w', m') ->
  exists x io pl, sv_store s !! p = Some x /\
    s' = set_store (set_pool s pl) (<[p := with_io x io]> (sv_store s)).
Proof.
  unfold with_peer_io. intros (x & s1 & w1 & m1 & [-> Hx]%get_peer_inv & E)%bind_inv.
  apply bind_inv in E as (pl & s2 & w2 & m2 & [= <- <- <- <-] & E).
  apply bind_inv in E as ([b io] & s3 & w3 & m3 & ->%bus_inv & E).
  apply bind_inv in E as ([] & s4 & w4 & m4 & [= <- _ _] & E).
  apply bind_inv in E as ([] & s5 & w5 & m5 & [= <- _ _] & [= _ <- _ _]). by do 3 eexists.
Qed.

(** ** The operations *)

Section Ops.
Context {AL : Allocator} {KE : Kernel} {UC : UserCode} `{!LawfulUser UC}.

Lemma keeps_get p : keeps count_ok no_new (get_peer p).
Proof. by intros s w m x s' w' m' [-> _]%get_peer_inv. Qed.

Lemma keeps_pool {A} (c : pool -> M (A * pool)) : keeps count_ok no_new (on_pool c).
Proof.
  intros s w m a s' w' m' [pl ->]%on_pool_inv.
  exact (keeps_modify (fun s => set_pool s pl) ltac:(by intros s0) s w m tt _ w m eq_refl).
Qed.

Lemma keeps_peer_io {A} p (c : obus_io -> M (A * obus_io)) : keeps count_ok no_new (with_peer_io p c).
Proof.
  intros s w m a s' w' m' (x & io & pl & Hx & ->)%peer_io_inv C.
  destruct (keeps_modify (fun s => set_pool s pl) ltac:(by intros s0) s w m tt _ w m eq_refl C) as [C1 R1].
  destruct (count_put (set_pool s pl) p x (with_io x io) C1 Hx) as [C2 R2]; [done|].
  split; [done|]. intros q. by rewrite R2.
Qed.

Hint Resolve keeps_get keeps_pool keeps_peer_io : keeps.

(** Changing a peer that was just read. *)
Lemma keeps_put p x x' s w m (a : unit) s' w' m' :
  put_peer p x' s w m = Some ((a, s'), w', m') -> sv_store s !! p = Some x ->
  (pr_state x' = PEER_STATE_CONNECTED <-> pr_state x = PEER_STATE_CONNECTED) ->
  count_ok s -> count_ok s' /\ forall q, connected s' q = connected s q.
Proof. intros [= _ <- _ _] Hx Hst C. by apply (count_put s p x x'). Qed.

Lemma keeps_ask {A} (f : nat -> A) : keeps count_ok no_new (ask f).
Proof. unfold ask. keeps. Qed.

Hint Resolve lawful_connection lawful_method keeps_ask : keeps.

Lemma keeps_notify p ev : keeps count_ok no_new (obus_peer_notify_user p ev).
Proof. unfold obus_peer_notify_user. keeps. Qed.

(** A peer that leaves the connected state is counted off. *)
Lemma count_disconnect s p x :
  count_ok s -> sv_store s !! p = Some x -> pr_state x = PEER_STATE_CONNECTED ->
  let s' := set_n_connected (set_store s (<[p := with_state x PEER_STATE_DISCONNECTED]> (sv_store s)))
              (u64 (sv_n_peers_connected s - 1)) in
  count_ok s' /\ no_new s s' /\ connected s' p = false.
Proof.
  intros [C1 C2 C3 C4] Hx Hst s'.
  assert (connected s' p = false) as Hp by (unfold connected; cbn; by rewrite lookup_insert_eq).
  assert (forall q, q <> p -> connected s' q = connected s q) as Hq.
  { intros q Hq. unfold connected. cbn. by rewrite lookup_insert_ne. }
  assert (p ∈ sv_peers s) as Hin by (apply C2; by eexists).
  split_and!; [|intros q H; destruct (decide (q = p)) as [->|Hne]; [congruence|by rewrite <- Hq]|done].
  constructor; cbn; try done.
  - intros q. rewrite C2, lookup_insert_is_Some'. split; [by right|]. intros [<-|?]; [by eexists|done].
  - change (u64 (sv_n_peers_connected s - 1) = u64 (n_connected s')). rewrite C4.
    assert (n_connected s' = n_connected s - 1) as ->; [|unfold u64; by rewrite Zminus_mod_idemp_l].
    unfold n_connected. change (sv_peers s') with (sv_peers s).
    rewrite (zsum_del (fun q => if connected s' q then 1 else 0) p) by done.
    rewrite (zsum_del (fun q => if connected s q then 1 else 0) p) by done.
    assert (connected s p = true) as Hcp by (unfold connected; by rewrite Hx, Hst).
    cbn beta. rewrite Hp, Hcp.
    rewrite (zsum_ext (fun q => if connected s' q then 1 else 0) (fun q => if connected s q then 1 else 0)); [lia|].
    intros q [_ Hne]%elem_of_list_del. by rewrite Hq.
Qed.

(** A peer that is not connected can be dropped. *)
Lemma count_drop s s' p :
  count_ok s -> connected s p = false -> p ∈ sv_peers s ->
  sv_peers s' = list_del p (sv_peers s) -> (forall q, q <> p -> sv_store s' !! q = sv_store s !! q) ->
  sv_store s' !! p = None -> sv_next s' = sv_next s -> sv_n_peers_connected s' = sv_n_peers_connected s ->
  count_ok s' /\ no_new s s'.
Proof.
  intros [C1 C2 C3 C4] Hp Hin E1 E2 E3 E4 E5.
  assert (forall q, q <> p -> connected s' q = connected s q) as Hq.
  { intros q Hq. unfold connected. by rewrite E2. }
  split.
  - constructor.
    + rewrite E1. by apply NoDup_filter.
    + intros q. rewrite E1, elem_of_list_del, C2. destruct (decide (q = p)) as [->|Hne].
      * rewrite E3. split; [by intros []|by intros [? ?]].
      * rewrite E2 by done. naive_solver.
    + intros q. rewrite E1, elem_of_list_del, E4. intros [? _]. by apply C3.
    + rewrite E5, C4. f_equal. unfold n_connected. rewrite E1.
      rewrite (zsum_del _ p) by done. rewrite Hp. apply zsum_ext.
      intros q [_ Hne]%elem_of_list_del. by rewrite Hq.
  - intros q. destruct (decide (q = p)) as [->|Hne]; [unfold connected; by rewrite E3|by rewrite Hq].
Qed.

Definition forget_peer (p : positive) : SV Z :=
  peer_list_del p;;
  with_peer_io p (fun io => io ← obus_io_destroy io; mret (tt, io));;
  x ← get_peer p;
  _ ← on_pool (fun pl => obus_packet_decoder_destroy pl (pr_dbuf x));
  on_mem (c_free (pr_name x));;
  free_peer p;;
  mret 0.

Lemma keeps_forget p s w m a s' w' m' :
  forget_peer p s w m = Some ((a, s'), w', m') -> connected s p = false -> count_ok s ->
  count_ok s' /\ no_new s s'.
Proof.
  unfold forget_peer. intros E Hp C. apply bind_inv in E as ([] & s1 & w1 & m1 & E1 & E).
  unfold peer_list_del in E1. apply bind_inv in E1 as (l & s2 & w2 & m2 & [= <- <- <- <-] & E1).
  case_decide as Hin; [|done]. injection E1 as <- <- <-.
  apply bind_inv in E as ([] & s3 & w3 & m3 & (x & io & pl & Hx & ->)%peer_io_inv & E).
  apply bind_inv in E as (y & s4 & w4 & m4 & [-> Hy]%get_peer_inv & E).
  apply bind_inv in E as (z & s5 & w5 & m5 & [pl' ->]%on_pool_inv & E).
  apply bind_inv in E as ([] & s6 & w6 & m6 & ->%bus_inv & E).
  apply bind_inv in E as ([] & s7 & w7 & m7 & [= <- _ _] & [= _ <- _ _]).
  eapply count_drop; try done; cbn; [|apply lookup_delete_eq].
  intros q Hq. by rewrite lookup_delete_ne, lookup_insert_ne.
Qed.

Lemma keeps_destroy p : keeps count_ok no_new (obus_peer_destroy p).
Proof.
  intros s w m a s' w' m' E C. unfold obus_peer_destroy in E.
  apply bind_inv in E as (x & s1 & w1 & m1 & [-> Hx]%get_peer_inv & E).
  apply bind_inv in E as ([] & s2 & w2 & m2 & E1 & E). fold (forget_peer p) in E.
  assert (count_ok s2 /\ no_new s s2 /\ connected s2 p = false) as (C2 & R2 & Hp2).
  { destruct (bool_decide (pr_state x = PEER_STATE_CONNECTED)) eqn:Hst.
    - apply bool_decide_eq_true in Hst. destruct (count_disconnect s p x C Hx Hst) as (Ca & Ra & Hpa).
      apply bind_inv in E1 as ([] & s3 & w3 & m3 & [= <- _ _] & E1).
      apply bind_inv in E1 as ([] & s4 & w4 & m4 & [= <- _ _] & E1).
      destruct (keeps_notify _ _ _ _ _ _ _ _ _ E1 Ca) as [Cb Rb].
      split_and!; [done|by etransitivity|]. destruct (connected s2 p) eqn:E2; [|done].
      pose proof (Rb p E2). congruence.
    - injection E1 as <- _ _. split_and!; [done..|]. unfold connected. by rewrite Hx. }
  destruct (keeps_forget _ _ _ _ _ _ _ _ E Hp2 C2). split; [done|by etransitivity].
Qed.
Hint Resolve keeps_notify keeps_destroy : keeps.

(** Changing a peer that was read before. *)
Lemma keeps_update {B} p (f : obus_peer -> SV B) :
  (forall x, exists x' k, f x = (put_peer p x';; k) /\ keeps count_ok no_new k /\
     (pr_state x' = PEER_STATE_CONNECTED <-> pr_state x = PEER_STATE_CONNECTED)) ->
  keeps count_ok no_new (x ← get_peer p; f x).
Proof.
  intros H s w m b s' w' m' E C. apply bind_inv in E as (x & s1 & w1 & m1 & [-> Hx]%get_peer_inv & E).
  destruct (H x) as (x' & k & Ef & Hk & Hst). rewrite Ef in E.
  apply bind_inv in E as ([] & s2 & w2 & m2 & E1 & E).
  destruct (keeps_put _ _ _ _ _ _ _ _ _ _ E1 Hx Hst C) as [C2 R2].
  destruct (Hk _ _ _ _ _ _ _ E C2) as [C3 R3]. split; [done|]. intros q Hq. rewrite <- R2. by apply R3.
Qed.

Lemma keeps_set_user_data p ud : keeps count_ok no_new (obus_peer_set_user_data p ud).
Proof. apply keeps_update. intros x. do 2 eexists. split; [done|]. split; [keeps|done]. Qed.

Lemma keeps_refuse p : keeps count_ok no_new (obus_peer_refuse_connection p).
Proof.
  intros s w m b s' w' m' E C. unfold obus_peer_refuse_connection in E.
  apply bind_inv in E as (x & s1 & w1 & m1 & [-> Hx]%get_peer_inv & E).
  destruct (bool_decide (pr_state x = PEER_STATE_CONNECTING)) eqn:Hst; [|by injection E as <- <- _ _].
  apply bool_decide_eq_true in Hst. apply bind_inv in E as ([] & s2 & w2 & m2 & E1 & [= _ <- _ _]).
  destruct (keeps_put _ _ _ _ _ _ _ _ _ _ E1 Hx ltac:(cbn; rewrite Hst; done) C) as [C2 R2].
  split; [done|]. intros q. by rewrite R2.
Qed.

Lemma keeps_peek : keeps count_ok no_new server_peek.
Proof. unfold server_peek. keeps. Qed.
Lemma keeps_unref buf : keeps count_ok no_new (server_unref buf).
Proof. unfold server_unref. keeps. Qed.
Lemma keeps_ref buf : keeps count_ok no_new (server_ref buf).
Proof. unfold server_ref. keeps. Qed.
Lemma keeps_write p buf : keeps count_ok no_new (peer_write p buf).
Proof. unfold peer_write. keeps. Qed.
Lemma keeps_encode buf enc : keeps count_ok no_new (encode_into buf enc).
Proof. unfold encode_into. keeps. Qed.
Hint Resolve keeps_peek keeps_unref keeps_ref keeps_write keeps_encode : keeps.

Lemma keeps_write_or_unref p buf : keeps count_ok no_new (write_or_unref p buf).
Proof. unfold write_or_unref. keeps. Qed.
Lemma keeps_write_done st buf p : keeps count_ok no_new (obus_peer_io_write_done st buf p).
Proof. unfold obus_peer_io_write_done. keeps. Qed.
Lemma keeps_send_peers buf : keeps count_ok no_new (obus_server_send_peers buf).
Proof.
  unfold obus_server_send_peers, walk_peers, walk_list. keeps. apply (keeps_walk count_ok no_new); [keeps|]. intros p.
  unfold send_peer, obus_peer_is_connected. keeps.
Qed.
Hint Resolve keeps_write_or_unref keeps_write_done keeps_send_peers : keeps.

Lemma keeps_broadcast enc : keeps count_ok no_new (broadcast enc).
Proof. unfold broadcast. keeps. Qed.
Hint Resolve keeps_broadcast : keeps.
Lemma keeps_broadcast_if enc : keeps count_ok no_new (broadcast_if_peers enc).
Proof. unfold broadcast_if_peers. keeps. Qed.
Hint Resolve keeps_broadcast_if : keeps.

Lemma keeps_send_ack handle st : keeps count_ok no_new (obus_server_send_ack handle st).
Proof. unfold obus_server_send_ack. keeps. Qed.
Hint Resolve keeps_send_ack : keeps.

Lemma keeps_call_request call : keeps count_ok no_new (obus_peer_call_request call).
Proof. unfold obus_peer_call_request, handle_call. keeps. Qed.

Lemma keeps_callbacks p cs : keeps count_ok no_new (run_callbacks p cs).
Proof. induction cs as [|[st buf] cs IH]; cbn; keeps. Qed.
Hint Resolve keeps_call_request keeps_callbacks : keeps.

Lemma keeps_write_ready error ready p : keeps count_ok no_new (peer_write_ready error ready p).
Proof. unfold peer_write_ready, new_calls. keeps. Qed.
Lemma keeps_write_timeout p : keeps count_ok no_new (peer_write_timeout p).
Proof. unfold peer_write_timeout, new_calls. keeps. Qed.
Hint Resolve keeps_set_user_data keeps_refuse keeps_write_ready keeps_write_timeout : keeps.

(** *** The interface, as the application uses it *)

(** [ApiBus]: the functions on objects, events, calls and bus events, which do
    not see the server. *)
Inductive api_op :=
| ApiSetCallback (cb ud : Z)
| ApiSetUserData (p : positive) (ud : Z)
| ApiRefuse (p : positive)
| ApiNewObject (d : obus_object_desc) (cbs : option (list Z)) (info : option obus_struct)
| ApiRegister (obj : positive)
| ApiUnregister (obj : positive)
| ApiSendEvent (event : positive)
| ApiSendBusEvent (event : positive)
| ApiSendAck (handle : Z) (st : obus_call_status)
| ApiStart (results : list Z)
| ApiBus (c : W Z).

Definition run_api (o : api_op) : SV unit :=
  match o with
  | ApiSetCallback cb ud => _ ← obus_server_set_peer_connection_cb cb ud; mret tt
  | ApiSetUserData p ud => _ ← obus_peer_set_user_data p ud; mret tt
  | ApiRefuse p => _ ← obus_peer_refuse_connection p; mret tt
  | ApiNewObject d cbs info => _ ← obus_server_new_object d cbs info; mret tt
  | ApiRegister obj => _ ← obus_server_register_object obj; mret tt
  | ApiUnregister obj => _ ← obus_server_unregister_object obj; mret tt
  | ApiSendEvent event => _ ← obus_server_send_event event; mret tt
  | ApiSendBusEvent event => _ ← obus_server_send_bus_event event; mret tt
  | ApiSendAck handle st => _ ← obus_server_send_ack handle st; mret tt
  | ApiStart results => _ ← obus_server_start results; mret tt
  | ApiBus c => _ ← on_bus c; mret tt
  end.

Fixpoint run_apis (l : list api_op) : SV unit :=
  match l with [] => mret tt | o :: l' => run_api o;; run_apis l' end.

Lemma keeps_api o : keeps count_ok no_new (run_api o).
Proof.
  destruct o; cbn [run_api]; keeps; unfold obus_server_set_peer_connection_cb, obus_server_new_object,
    obus_server_register_object, obus_server_unregister_object, obus_server_send_event,
    obus_server_send_bus_event, obus_server_start; keeps.
Qed.

Lemma keeps_apis l : keeps count_ok no_new (run_apis l).
Proof. induction l as [|o l IH]; cbn; keeps. apply keeps_api. Qed.

(** *** Connecting *)

(** [p] at most becomes connected. *)
Definition only_connects (p : positive) (s s' : obus_server) : Prop :=
  forall q, connected s' q = true -> connected s q = true \/ q = p.

#[local] Instance only_connects_preorder p : PreOrder (only_connects p).
Proof.
  split; [by intros s q ?; left|]. intros s1 s2 s3 H1 H2 q Hq.
  destruct (H2 q Hq) as [Hq2|]; [|by right]. by apply H1.
Qed.

Lemma no_new_only p s s' : no_new s s' -> only_connects p s s'.
Proof. intros H q Hq. left. by apply H. Qed.

Lemma count_connect s p x :
  count_ok s -> sv_store s !! p = Some x -> connected s p = false ->
  let s' := set_n_connected (set_store s (<[p := with_state x PEER_STATE_CONNECTED]> (sv_store s)))
              (u64 (sv_n_peers_connected s + 1)) in
  count_ok s' /\ only_connects p s s'.
Proof.
  intros [C1 C2 C3 C4] Hx Hp s'.
  assert (connected s' p = true) as Hp' by (unfold connected; cbn; by rewrite lookup_insert_eq).
  assert (forall q, q <> p -> connected s' q = connected s q) as Hq.
  { intros q Hq. unfold connected. cbn. by rewrite lookup_insert_ne. }
  assert (p ∈ sv_peers s) as Hin by (apply C2; by eexists).
  split; [|intros q H; destruct (decide (q = p)) as [->|Hne]; [by right|left; by rewrite <- Hq]].
  constructor; cbn; try done.
  - intros q. rewrite C2, lookup_insert_is_Some'. split; [by right|]. intros [<-|?]; [by eexists|done].
  - change (u64 (sv_n_peers_connected s + 1) = u64 (n_connected s')). rewrite C4.
    assert (n_connected s' = n_connected s + 1) as ->; [|unfold u64; by rewrite Zplus_mod_idemp_l].
    unfold n_connected. change (sv_peers s') with (sv_peers s).
    rewrite (zsum_del (fun q => if connected s' q then 1 else 0) p) by done.
    rewrite (zsum_del (fun q => if connected s q then 1 else 0) p) by done.
    cbn beta. rewrite Hp', Hp.
    rewrite (zsum_ext (fun q => if connected s' q then 1 else 0) (fun q => if connected s q then 1 else 0)); [lia|].
    intros q [_ Hne]%elem_of_list_del. by rewrite Hq.
Qed.

Lemma not_connected_after s s' p : no_new s s' -> connected s p = false -> connected s' p = false.
Proof. intros R Hp. destruct (connected s' p) eqn:E; [|done]. apply R in E. congruence. Qed.

Lemma keeps_request_status pkt : keeps count_ok no_new (request_status pkt).
Proof. unfold request_status. keeps. Qed.
Lemma keeps_response p st : keeps count_ok no_new (obus_peer_send_connection_response p st).
Proof. unfold obus_peer_send_connection_response. keeps. Qed.
Hint Resolve keeps_request_status keeps_response : keeps.

(** Asking the user, for a peer that is not connected. *)
Lemma ask_user_keeps p st s w m a s' w' m' :
  ask_user p st s w m = Some ((a, s'), w', m') -> connected s p = false ->
  count_ok s -> count_ok s' /\ no_new s s'.
Proof.
  unfold ask_user. intros E Hp C. destruct (negb _); [by injection E as <- <- _ _|].
  apply bind_inv in E as (x & s1 & w1 & m1 & [-> Hx]%get_peer_inv & E).
  assert (pr_state x <> PEER_STATE_CONNECTED) as Hst.
  { intros H. revert Hp. unfold connected. by rewrite Hx, H. }
  apply bind_inv in E as ([] & s2 & w2 & m2 & E2 & E).
  destruct (keeps_put _ _ _ _ _ _ _ _ _ _ E2 Hx ltac:(by split) C) as [C2 R2].
  apply bind_inv in E as ([] & s3 & w3 & m3 & E3 & E).
  destruct (keeps_notify _ _ _ _ _ _ _ _ _ E3 C2) as [C3 R3].
  apply bind_inv in E as (y & s4 & w4 & m4 & [-> _]%get_peer_inv & [= _ <- _ _]).
  split; [done|]. intros q Hq. rewrite <- R2. by apply R3.
Qed.

Lemma connection_request_keeps p pkt : keeps count_ok (only_connects p) (obus_peer_connection_request p pkt).
Proof.
  intros s w m a s' w' m' E C. unfold obus_peer_connection_request in E.
  apply bind_inv in E as (x & s1 & w1 & m1 & [-> Hx]%get_peer_inv & E).
  destruct (bool_decide (pr_state x = PEER_STATE_IDLE)) eqn:Hst; [|by injection E as <- <- _ _].
  apply bool_decide_eq_true in Hst.
  assert (connected s p = false) as Hp by (unfold connected; by rewrite Hx, Hst).
  apply bind_inv in E as (name & s2 & w2 & m2 & ->%bus_inv & E).
  apply bind_inv in E as ([] & s3 & w3 & m3 & E3 & E).
  destruct (keeps_put _ _ _ _ _ _ _ _ _ _ E3 Hx ltac:(done) C) as [C3 R3].
  rewrite <- R3 in Hp.
  apply bind_inv in E as (st & s4 & w4 & m4 & E4 & E).
  destruct (keeps_request_status _ _ _ _ _ _ _ _ E4 C3) as [C4 R4].
  pose proof (not_connected_after _ _ _ R4 Hp) as Hp4.
  apply bind_inv in E as (st' & s5 & w5 & m5 & E5 & E).
  destruct (ask_user_keeps _ _ _ _ _ _ _ _ _ E5 Hp4 C4) as [C5 R5].
  pose proof (not_connected_after _ _ _ R5 Hp4) as Hp5.
  apply bind_inv in E as (ret & s6 & w6 & m6 & E6 & E).
  destruct (keeps_response _ _ _ _ _ _ _ _ _ E6 C5) as [C6 R6].
  pose proof (not_connected_after _ _ _ R6 Hp5) as Hp6.
  assert (no_new s s6) as R.
  { intros q Hq. rewrite <- R3. by apply R4, R5, R6. }
  assert (forall {A} (c : SV A) b s7 w7 m7, keeps count_ok no_new c -> c s6 w6 m6 = Some ((b, s7), w7, m7) ->
    count_ok s7 /\ only_connects p s s7) as Hrest.
  { intros A c b s7 w7 m7 Hk E7. destruct (Hk _ _ _ _ _ _ _ E7 C6). split; [done|].
    apply no_new_only. by transitivity s6. }
  destruct (failed ret).
  { eapply Hrest; [|exact E]. keeps. }
  apply bind_inv in E as (y & s7 & w7 & m7 & [-> Hy]%get_peer_inv & E).
  destruct (st' =? OBUS_CONRESP_ACCEPTED).
  - apply bind_inv in E as ([] & s8 & w8 & m8 & [= <- _ _] & E).
    apply bind_inv in E as ([] & s9 & w9 & m9 & [= <- _ _] & E).
    apply bind_inv in E as ([] & s10 & w10 & m10 & E10 & [= _ <- _ _]).
    destruct (count_connect s6 p y C6 Hy Hp6) as [C9 R9].
    destruct (keeps_notify _ _ _ _ _ _ _ _ _ E10 C9) as [C10 R10]. split; [done|].
    transitivity s6; [by apply no_new_only|]. etransitivity; [exact R9|by apply no_new_only].
  - apply bind_inv in E as ([] & s8 & w8 & m8 & E8 & [= _ <- _ _]).
    destruct (keeps_put _ _ _ _ _ _ _ _ _ _ E8 Hy) as [C8 R8]; [|done|].
    + cbn. split; [done|]. intros H. revert Hp6. unfold connected. by rewrite Hy, H.
    + split; [done|]. apply no_new_only. transitivity s6; [done|]. intros q. by rewrite R8.
Qed.

Lemma keeps_only_bind {A B} p (c : SV A) (f : A -> SV B) :
  keeps count_ok (only_connects p) c -> (forall a, keeps count_ok (only_connects p) (f a)) -> keeps count_ok (only_connects p) (c ≫= f).
Proof. apply (keeps_bind count_ok (only_connects p)). Qed.

Lemma keeps_only {A} p (c : SV A) : keeps count_ok no_new c -> keeps count_ok (only_connects p) c.
Proof. apply keeps_weaken, no_new_only. Qed.

Lemma handle_packet_keeps p info : keeps count_ok (only_connects p) (handle_packet p info).
Proof.
  unfold handle_packet. destruct info as [[r| | | | | | | ]|]; try (apply keeps_only; by keeps).
  apply keeps_only_bind; [apply connection_request_keeps|]. intros ret. apply keeps_only. keeps.
Qed.

Lemma keeps_put_decoder p x d :
  forall s w m (a : unit) s' w' m', sv_store s !! p = Some x ->
    put_peer p (with_decoder x d) s w m = Some ((a, s'), w', m') -> count_ok s -> count_ok s' /\ no_new s s'.
Proof.
  intros s w m a s' w' m' Hx E C. destruct (keeps_put _ _ _ _ _ _ _ _ _ _ E Hx ltac:(done) C) as [C' R].
  split; [done|]. intros q. by rewrite R.
Qed.

Lemma read_packets_keeps fuel turns p script : keeps count_ok (only_connects p) (read_packets fuel turns p script).
Proof.
  revert script. induction fuel as [|fuel IH]; intros script s w m a s' w' m' E C; [done|]. cbn [read_packets] in E.
  apply bind_inv in E as (x & s1 & w1 & m1 & [-> Hx]%get_peer_inv & E).
  apply bind_inv in E as (pl & s2 & w2 & m2 & [= <- <- <- <-] & E).
  apply bind_inv in E as (b & s3 & w3 & m3 & ->%bus_inv & E).
  apply bind_inv in E as ([[[[ret info] d] b'] script'] & s4 & w4 & m4 & ->%bus_inv & E).
  apply bind_inv in E as ([] & s5 & w5 & m5 & E5 & E).
  destruct (keeps_modify (fun s0 => set_pool s0 (set_buf (sv_pool s) (pr_dbuf x) b')) ltac:(by intros s0) _ _ _ _ _ _ _ E5 C)
    as [C5 R5].
  injection E5 as <- <- <-.
  apply bind_inv in E as ([] & s6 & w6 & m6 & E6 & E).
  eapply keeps_put_decoder in E6 as [C6 R6]; [|exact Hx|exact C5].
  assert (only_connects p s s6) as R by (apply no_new_only; etransitivity; [exact R5|exact R6]).
  cut (keeps count_ok (only_connects p) (if ret =? - EAGAIN then mret tt else
    if failed ret then _ ← obus_peer_destroy p; mret tt else
    ret ← handle_packet p info; if ret =? 0 then read_packets fuel turns p script' else mret tt)).
  { intros Hk. destruct (Hk _ _ _ _ _ _ _ E C6) as [C7 R7]. split; [done|by transitivity s6]. }
  destruct (ret =? - EAGAIN); [apply keeps_only; keeps|].
  destruct (failed ret); [apply keeps_only; keeps|].
  apply keeps_only_bind; [apply handle_packet_keeps|]. intros r.
  destruct (r =? 0); [apply IH|apply keeps_only; keeps].
Qed.

(** A new peer, not yet connected. *)
Lemma count_new s x :
  count_ok s -> pr_state x = PEER_STATE_IDLE ->
  let p := sv_next s in
  let s1 := set_store (set_next_peer s (Pos.succ p)) (<[p := x]> (sv_store s)) in
  let s' := set_peers s1 (sv_peers s1 ++ [p]) in
  count_ok s' /\ no_new s s'.
Proof.
  intros [C1 C2 C3 C4] Hx p s1 s'.
  assert (p ∉ sv_peers s) as Hp by (intros H; apply C3 in H; unfold p in H; lia).
  assert (forall q, connected s' q = if decide (q = p) then false else connected s q) as Hc.
  { intros q. unfold connected. cbn. case_decide as Hq; [subst q; by rewrite lookup_insert_eq, Hx|].
    by rewrite lookup_insert_ne. }
  split; [|intros q; rewrite Hc; by case_decide].
  constructor; cbn.
  - apply NoDup_app. split_and!; [done| |apply NoDup_singleton].
    intros q Hq ->%list_elem_of_singleton. done.
  - intros q. rewrite elem_of_app, list_elem_of_singleton, lookup_insert_is_Some', C2. naive_solver.
  - intros q [Hq|Hq%list_elem_of_singleton]%elem_of_app; [apply C3 in Hq|rewrite Hq]; unfold p; lia.
  - rewrite C4. f_equal. unfold n_connected. change (sv_peers s') with (sv_peers s ++ [p]).
    rewrite zsum_app. cbn [zsum]. rewrite (Hc p), decide_True by done.
    rewrite (zsum_ext (fun q => if connected s' q then 1 else 0) (fun q => if connected s q then 1 else 0)); [lia|].
    intros q Hq. rewrite Hc, decide_False; [done|]. intros ->. done.
Qed.

Lemma accept_keeps : keeps count_ok no_new obus_server_accept.
Proof.
  unfold obus_server_accept. keeps_step; [keeps|].
  destruct a as [a|]; [|keeps]. keeps_step; [unfold obus_io_new; keeps|].
  destruct a0 as [io|]; [|keeps]. keeps_step; [keeps|].
  destruct a0 as [buf|]; [|keeps]. keeps_step; [keeps|]. keeps_step; [keeps|].
  intros s w m a2 s' w' m' E C.
  apply bind_inv in E as (p & s1 & w1 & m1 & [= <- <- <- <-] & E).
  apply bind_inv in E as ([] & s2 & w2 & m2 & [= <- _ _] & E).
  apply bind_inv in E as ([] & s3 & w3 & m3 & [= <- _ _] & [= _ <- _ _]).
  by apply count_new.
Qed.

(** *** Any run of a server *)

(** What the loop and the application do, in any order. *)
Inductive server_op :=
| OpAccept
| OpRead (fuel turns : nat) (error readable : bool) (p : positive)
| OpWriteReady (error ready : bool) (p : positive)
| OpWriteTimeout (p : positive)
| OpApi (o : api_op).

Definition run_op (o : server_op) : SV unit :=
  match o with
  | OpAccept => obus_server_accept
  | OpRead fuel turns error readable p => obus_peer_io_read_event fuel turns error readable p
  | OpWriteReady error ready p => peer_write_ready error ready p
  | OpWriteTimeout p => peer_write_timeout p
  | OpApi o => run_api o
  end.

(** The states a server can be in, from its creation on. *)
Inductive reachable : obus_server -> Prop :=
| reachable_new desc name loop_ok s w m w' m' :
    obus_server_new desc name loop_ok w m = Some ((Some s, w'), m') -> reachable s
| reachable_op o s w m s' w' m' :
    reachable s -> run_op o s w m = Some ((tt, s'), w', m') -> reachable s'.

Lemma run_op_keeps o : keeps count_ok (fun _ _ => True) (run_op o).
Proof.
  assert (forall {A} (R : obus_server -> obus_server -> Prop) (c : SV A), keeps count_ok R c -> keeps count_ok (fun _ _ => True) c) as Hw.
  { intros A R c. by apply keeps_weaken. }
  destruct o as [|fuel turns error readable p|error ready p|p|o]; cbn [run_op].
  - eapply Hw, accept_keeps.
  - apply (Hw _ (only_connects p)). unfold obus_peer_io_read_event.
    destruct error; [apply keeps_only; keeps|]. destruct (negb readable); [apply keeps_only; keeps|].
    apply keeps_only_bind; [apply keeps_only; keeps|]. intros script. apply read_packets_keeps.
  - apply (Hw _ no_new). keeps.
  - apply (Hw _ no_new). keeps.
  - eapply Hw, keeps_api.
Qed.

Lemma new_count_ok desc name loop_ok s w m w' m' :
  obus_server_new desc name loop_ok w m = Some ((Some s, w'), m') -> count_ok s.
Proof.
  intros H. assert (sv_peers s = [] /\ sv_store s = ∅ /\ sv_n_peers_connected s = 0) as (E1 & E2 & E3).
  { revert H. unfold obus_server_new, mbind, W_bind, mbind, M_bind, mret, W_ret, mret, M_ret.
    destruct (lift _ w m) as [[[[a|] w1] m1]|]; [|done..].
    destruct (lift _ w1 m1) as [[[[ret bus] w2] m2]|]; [|done]. unfold put_bus.
    repeat (case_match; try done). all: intros [= <- _ _]; done. }
  constructor.
  - rewrite E1. constructor.
  - intros p. rewrite E1, E2, lookup_empty. split; [by intros ?%not_elem_of_nil|by intros [? ?]].
  - intros p. rewrite E1. by intros ?%not_elem_of_nil.
  - unfold n_connected. by rewrite E1, E3.
Qed.

Lemma reachable_count_ok s : reachable s -> count_ok s.
Proof.
  induction 1 as [desc name loop_ok s w m w' m' H|o s w m s' w' m' _ IH H]; [by eapply new_count_ok|].
  by apply (run_op_keeps o _ _ _ _ _ _ _ H) in IH as [? _].
Qed.

Lemma n_connected_filter s : n_connected s = Z.of_nat (length (filter (fun p => connected s p = true) (sv_peers s))).
Proof.
  unfold n_connected. induction (sv_peers s) as [|p l IH]; [done|]. cbn [zsum]. rewrite IH.
  destruct (connected s p) eqn:E; [rewrite filter_cons_True by done; cbn [Datatypes.length]; lia|].
  rewrite filter_cons_False by congruence. lia.
Qed.

(** C8: the count of connected peers is right in every state a server can
    reach, whatever the loop delivers and whatever the application does in its
    callbacks, errors included: it is the number of listed peers in the connected
    state, the list has no duplicate and names exactly the live peers, and the
    test [n_peers_connected == 0], on which a broadcast is skipped, holds just
    when no peer is connected. *)
Theorem connected_count_invariant s :
  reachable s -> Z.of_nat (length (sv_peers s)) < 2 ^ 64 ->
  sv_n_peers_connected s = Z.of_nat (length (filter (fun p => connected s p = true) (sv_peers s))) /\
  NoDup (sv_peers s) /\ (forall p, p ∈ sv_peers s <-> is_Some (sv_store s !! p)) /\
  (sv_n_peers_connected s = 0 <-> forall p, connected s p = false).
Proof.
  intros [C1 C2 C3 C4]%reachable_count_ok Hl. pose proof (n_connected_range s).
  assert (sv_n_peers_connected s = n_connected s) as Hn by (rewrite C4; apply u64_small; lia).
  split; [by rewrite Hn, n_connected_filter|]. split_and!; [done..|]. rewrite Hn. split.
  - intros Hz p. destruct (decide (p ∈ sv_peers s)) as [Hp|Hp]; [by apply n_connected_zero|].
    unfold connected. destruct (sv_store s !! p) eqn:E; [|done]. destruct Hp. apply C2. by eexists.
  - intros Hp. unfold n_connected. rewrite (zsum_ext _ (fun _ => 0)); [by clear; induction (sv_peers s)|].
    intros p _. by rewrite Hp.
Qed.
End Ops.

(** ** Applications that answer every callback with calls to the interface *)

Section Scripted.
Context {AL : Allocator} {KE : Kernel}.

(** The callbacks run the calls of a script, the callbacks made by these calls
    run theirs, down to [n] callbacks inside each other. *)
Fixpoint scripted (script : Z -> positive -> list api_op) (n : nat) : UserCode :=
  match n with
  | O => {| connection_cb _ _ _ _ := mret tt; method_handler _ _ _ _ := mret tt |}
  | S n' =>
    let UC := scripted script n' in
    {| connection_cb cb _ p _ := run_apis (script cb p);
       method_handler h p _ _ := run_apis (script h p) |}
  end.

#[export] Instance scripted_lawful script n : LawfulUser (scripted script n).
Proof. induction n as [|n IH]; constructor; intros; cbn; try apply (keeps_ret count_ok no_new); apply keeps_apis. Qed.

(** The duties of the connection callback are met by an application that, in its
    callbacks, calls the functions of [api_op] in any order, the callbacks they make
    included, at any depth: the count of connected peers stays right, and no peer
    gets connected. *)
Theorem interface_keeps_count script n s w m a s' w' m' cb ev p ud :
  connection_cb (UserCode := scripted script n) cb ev p ud s w m = Some ((a, s'), w', m') -> count_ok s ->
  count_ok s' /\ forall q, connected s' q = true -> connected s q = true.
Proof. apply lawful_connection. Qed.
End Scripted.

Section Witnesses.
#[local] Existing Instance ample_alloc.
#[local] Existing Instance wit_kernel.

(** On every callback the application registers object 1 and refuses the peer. *)
Definition wit_script (cb : Z) (p : positive) : list api_op := [ApiRegister 1; ApiRefuse p].
#[local] Instance wit_scripted : UserCode := scripted wit_script 3.
#[local] Instance wit_scripted_lawful : LawfulUser wit_scripted := scripted_lawful wit_script 3.

Definition wit_new : option (obus_server * world * mem) :=
  match obus_server_new wit_bus [98] true wit_w mem0 with
  | Some ((Some s, w), m) => Some (s, w, m) | _ => None end.
Definition wit_run (o : server_op) (r : option (obus_server * world * mem)) : option (obus_server * world * mem) :=
  match r with
  | Some (s, w, m) => match run_op o s w m with Some ((_, s'), w', m') => Some (s', w', m') | None => None end
  | None => None
  end.

(** Two peers arrive, the second one fails. *)
Definition wit_state : option (obus_server * world * mem) :=
  wit_run (OpRead 1 1 true false 2) (wit_run OpAccept (wit_run OpAccept wit_new)).

Lemma wit_run_reachable o r s w m :
  (forall s w m, r = Some (s, w, m) -> reachable s) -> wit_run o r = Some (s, w, m) -> reachable s.
Proof.
  intros H. destruct r as [[[s0 w0] m0]|]; [|done]. cbn.
  destruct (run_op o s0 w0 m0) as [[[[[] s1] w1] m1]|] eqn:E; [|done]. intros [= -> -> ->].
  eapply reachable_op; [by eapply H|exact E].
Qed.

Lemma wit_state_reachable s w m : wit_state = Some (s, w, m) -> reachable s.
Proof.
  apply wit_run_reachable. intros ? ? ?. apply wit_run_reachable. intros ? ? ?. apply wit_run_reachable.
  intros s3 w3 m3. unfold wit_new.
  destruct (obus_server_new wit_bus [98] true wit_w mem0) as [[[[s4|] w4] m4]|] eqn:E; [|done..].
  intros [= -> _ _]. by eapply reachable_new.
Qed.

Lemma connected_count_invariant_witness :
  exists s w m, wit_state = Some (s, w, m) /\ sv_peers s = [1%positive] /\ sv_n_peers_connected s = 0 /\
    forall p, connected s p = false.
Proof.
  assert (match wit_state with
    | Some (s, _, _) => bool_decide (sv_peers s = [1%positive]) && (sv_n_peers_connected s =? 0)
    | None => false end = true) as Hrun by (vm_compute; reflexivity).
  destruct wit_state as [[[s w] m]|] eqn:E; [|discriminate Hrun].
  apply andb_prop in Hrun as [Hp%bool_decide_eq_true Hn%Z.eqb_eq].
  pose proof (wit_state_reachable _ _ _ E) as Hr. exists s, w, m. split; [exact eq_refl|].
  split; [exact Hp|]. split; [exact Hn|].
  destruct (connected_count_invariant s Hr ltac:(rewrite Hp; cbn; lia)) as (_ & _ & _ & Hz). by apply Hz.
Defined.

Definition is_Some_b {A} (o : option A) : bool := match o with Some _ => true | None => false end.

(** On [wit_srv] the callback registers the object and the peer is not refused,
    since it is not connecting. *)
Lemma interface_keeps_count_witness :
  match connection_cb (UserCode := wit_scripted) 5 OBUS_PEER_EVENT_CONNECTED 2 0 wit_srv wit_fresh_w wit_mem with
  | Some ((_, s'), _, _) => count_ok s' /\ (connected s' 2%positive = true -> False)
  | None => False
  end.
Proof.
  assert (is_Some_b (connection_cb (UserCode := wit_scripted) 5 OBUS_PEER_EVENT_CONNECTED 2 0 wit_srv wit_fresh_w wit_mem) = true)
    as Hrun by (vm_compute; reflexivity).
  destruct (connection_cb (UserCode := wit_scripted) 5 OBUS_PEER_EVENT_CONNECTED 2 0 wit_srv wit_fresh_w wit_mem)
    as [[[[a s'] w'] m']|] eqn:E; [|discriminate Hrun].
  destruct (interface_keeps_count wit_script 3 wit_srv wit_fresh_w wit_mem a s' w' m' 5 _ 2%positive 0 E) as [C H].
  - destruct wit_srv_wf. by constructor.
  - split; [exact C|]. intros H2. apply H in H2. discriminate.
Defined.
End Witnesses.
