(* ===== verification/ServerRequest.v ===== *)
(** * What the server answers: connection requests and calls *)
From S2P Require Import Prelude Mem Cstring Buffer Pool Desc Field Struct Hash BusApi World Bus Object Event Call BusEvent Io Packet Handler ServerState Server ServerFacts ServerSend.

(** ** A packet for one peer *)

Section One.
Context {AL : Allocator} {KE : Kernel} {UC : UserCode} `{!BlockingKernel KE}.

(** At most the io of the peer [p], which was [x], has changed. *)
Record wrote (held : list positive) (p : positive) (x : obus_peer) (s s' : obus_server) (m m' : mem) : Prop := {
  wr_wf : server_wf held s';
  wr_blocks : same_blocks m m';
  wr_peers : sv_peers s' = sv_peers s;
  wr_peer : exists x', sv_store s' !! p = Some x' /\
     pr_state x' = pr_state x /\ pr_name x' = pr_name x /\ pr_dbuf x' = pr_dbuf x;
  wr_others : forall q, q <> p -> sv_store s' !! q = sv_store s !! q /\ peer_out s' q = peer_out s q;
  wr_call : sv_call s' = sv_call s
}.

(** Why a packet of payload [bs] may not be sent. *)
Definition trouble (s : obus_server) (bs : list Z) : Prop :=
  no_buffer s bs \/ ~ ((forall n, soft (k_write n)) /\ AmpleMemory AL).

Lemma names_wrote held p x s s' m m' :
  names_wf s m -> sv_store s !! p = Some x -> wrote held p x s s' m m' -> names_wf s' m'.
Proof.
  intros N Hx R. eapply names_same; [exact N|apply R|]. intros q y Hy.
  destruct (decide (q = p)) as [->|Hq]; [|exists y; by rewrite <- (proj1 (wr_others _ _ _ _ _ _ _ R q Hq))].
  destruct (wr_peer _ _ _ _ _ _ _ R) as (x' & Hx' & _ & Hn & _). exists x. split; [done|].
  rewrite Hy in Hx'. by injection Hx' as ->.
Qed.

Lemma wps_write_or_unref held buf p x s w m :
  server_wf (buf :: held) s -> sv_store s !! p = Some x ->
  wps (write_or_unref p buf) (fun code s' w' m' => w' = w /\ wrote held p x s s' m m' /\ code <= 0 /\
     (code = 0 -> peer_out s' p = peer_out s p ++ content (sv_pool s) buf) /\
     ((forall n, soft (k_write n)) -> AmpleMemory AL -> code = 0)) s w m.
Proof.
  intros W Hx. unfold write_or_unref. apply wps_bind. eapply wps_peer_write; [exact W|exact Hx|].
  intros code s' m' x' Hm Hp' Hst' Hstate Hname Hdb _ _ Hc' Ho' Hop Hsoft Hle Hcall _ HW.
  assert (forall pl, (forall b, content pl b = content (sv_pool s') b) -> server_wf held (set_pool s' pl) ->
    wrote held p x s (set_pool s' pl) m m') as Hwrote.
  { intros pl Hpl HW'. constructor; cbn; try done.
    - exists x'. rewrite Hst'. split; [apply lookup_insert_eq|done].
    - intros q Hq. rewrite Hst', lookup_insert_ne by done. split; [done|].
      rewrite set_pool_out by (by intros ? ? ? _ _). by apply Ho'. }
  assert (forall pl, (forall b, content pl b = content (sv_pool s') b) -> peer_out (set_pool s' pl) p = peer_out s' p) as Hout.
  { intros pl Hpl. apply set_pool_out. by intros ? ? ? _ _. }
  destruct (Z.eqb_spec code 0) as [->|Hz]; [|destruct (Z.eqb_spec code (- EAGAIN)) as [->|He]].
  - rewrite decide_False in HW by done. apply wps_bind. eapply wps_server_unref; [exact HW|].
    intros pl Hpl HW'. apply wps_ret. split_and!; [done|by apply Hwrote|done| |done].
    intros _. rewrite Hout by done. apply Hop. by left.
  - rewrite decide_True in HW by done. destruct HW as [HW _].
    apply wps_ret. replace s' with (set_pool s' (sv_pool s')) by by destruct s'.
    split_and!; [done| |done| |done].
    + apply Hwrote; [done|]. by replace (set_pool s' (sv_pool s')) with s' by by destruct s'.
    + intros _. rewrite Hout by done. apply Hop. by right.
  - rewrite decide_False in HW by done. apply wps_bind. eapply wps_server_unref; [exact HW|].
    intros pl Hpl HW'. apply wps_ret. split_and!; [done|by apply Hwrote|done|done|].
    intros HS HA. destruct (Hsoft (HS _) HA); done.
Qed.

(** A write that follows a change of pool. *)
Lemma wrote_repooled held p x s s1 s' m m1 m' :
  repooled s s1 -> same_blocks m m1 -> wrote held p x s1 s' m1 m' -> wrote held p x s s' m m'.
Proof.
  intros R Hm [H1 H2 H3 H4 H5 H6]. pose proof (fun q => repooled_out s s1 q R) as Ho.
  destruct R as (pl & -> & _). constructor; try done; [by etransitivity|].
  intros q Hq. rewrite <- Ho. by apply H5.
Qed.

Lemma wrote_nothing held p x s s1 m m1 :
  repooled s s1 -> same_blocks m m1 -> sv_store s !! p = Some x -> server_wf held s1 -> wrote held p x s s1 m m1.
Proof.
  intros R Hm Hx W. pose proof (fun q => repooled_out s s1 q R) as Ho.
  destruct R as (pl & -> & _). constructor; try done. by exists x.
Qed.
End One.

(** ** The response to a connection request *)

(** The objects of the bus and their records. *)
Definition listed (w : world) (m : mem) (q : positive) (bs : list Z) : Prop :=
  exists o cs, w_objs w !! q = Some o /\ object_sound m o cs /\ bs = object_wire o cs.

Definition conresp_wire (status : Z) (wires : list (list Z)) : list Z :=
  [u8 status] ++ be_bytes 4 (Z.of_nat (length wires)) ++ concat wires.

Section Conresp.
Context {AL : Allocator}.

Lemma wpw_get_objects w m l wires :
  Forall2 (listed w m) l wires ->
  wpw (get_all get_obj l) (fun os w' m' => w' = w /\ m' = m /\
     Forall2 (fun o bs => exists cs, object_sound m o cs /\ bs = object_wire o cs) os wires) w m.
Proof.
  induction 1 as [|q bs l wires (o & cs & Ho & S & ->) _ IH]; cbn [get_all].
  - by apply wpw_ret.
  - apply wpw_bind. eapply wpw_lookup; [exact Ho|]. apply wpw_bind.
    eapply wpw_mono; [exact IH|]. intros os w' m' (-> & -> & H). apply wpw_ret.
    split_and!; [done..|]. constructor; [by exists cs|done].
Qed.

Lemma object_sound_impl m m' o cs :
  (forall v a, denotes m v a -> denotes m' v a) -> object_sound m o cs -> object_sound m' o cs.
Proof.
  intros Hm [H1 H2 [D1 D2 D3] H4 H5 H6 H7 H8]. constructor; try done. constructor; [done..|].
  intros i f c Hf Hc. eapply field_denotes_impl; [exact Hm|]. by eapply D3.
Qed.

Lemma object_sound_same m m' o cs : same_blocks m m' -> object_sound m o cs -> object_sound m' o cs.
Proof. intros Hm. apply object_sound_impl. intros v a. by apply denotes_same. Qed.

Lemma listed_impl w m m' l wires :
  (forall v a, denotes m v a -> denotes m' v a) -> Forall2 (listed w m) l wires -> Forall2 (listed w m') l wires.
Proof.
  intros Hm H. eapply Forall2_impl; [exact H|]. intros q bs (o & cs & Ho & S & ->). exists o, cs.
  split_and!; [done| |done]. by eapply object_sound_impl.
Qed.

Lemma emits_conresp m status os wires :
  Forall2 (fun o bs => exists cs, object_sound m o cs /\ bs = object_wire o cs) os wires ->
  Z.of_nat (length wires) < 2 ^ 32 ->
  emits m (conresp_payload status (Z.of_nat (length wires)) os) (conresp_wire status wires).
Proof.
  intros H Hl. unfold conresp_payload, conresp_wire.
  apply (emits_seq m (fun b => obus_buffer_append_u8 b (u8 status))); [apply emits_append_u8, u8_range|].
  apply (emits_seq m (fun b => obus_buffer_append_u32 b (Z.of_nat (length wires)))); [apply emits_append_u32|].
  destruct (Z.ltb_spec 0 (Z.of_nat (length wires))) as [Hp|Hp].
  - apply emits_for_each. eapply Forall2_impl; [exact H|]. intros o bs (cs & S & ->). by apply emits_object.
  - destruct wires; [apply emits_ret|cbn in Hp; lia].
Qed.

Lemma frames_response m w st wires :
  Forall2 (listed w m) (if st =? OBUS_CONRESP_ACCEPTED then b_objects (w_bus w) else []) wires ->
  Z.of_nat (length wires) < 2 ^ 32 -> packet_size (conresp_wire st wires) < 2 ^ 32 ->
  frames OBUS_PKT_CONRESP (conresp_wire st wires) (fun b =>
    bus ← get_bus;
    let objects := if st =? OBUS_CONRESP_ACCEPTED then Some (b_objects bus) else None in
    obus_packet_conresp_encode b st objects) w m.
Proof.
  intros H Hl Hs b m1 Hm Wb. unfold get_bus, obus_packet_conresp_encode. apply wpw_bind, wpw_gets.
  cbv zeta. set (objects := if st =? _ then Some _ else _).
  assert (default [] objects = if st =? OBUS_CONRESP_ACCEPTED then b_objects (w_bus w) else []) as E1.
  { unfold objects. by destruct (st =? _). }
  assert ((match objects with Some l => count l | None => 0 end) = Z.of_nat (length wires)) as E2.
  { revert H. unfold objects. destruct (st =? _); intros H.
    - unfold count. rewrite (Forall2_length _ _ _ H). apply u32_small. lia.
    - apply Forall2_nil_inv_l in H as ->. done. }
  rewrite E1, E2. apply wpw_bind.
  assert (Forall2 (listed w m1) (if st =? OBUS_CONRESP_ACCEPTED then b_objects (w_bus w) else []) wires) as H1.
  { eapply listed_impl; [|exact H]. intros v a. by apply denotes_same. }
  eapply wpw_mono; [by apply wpw_get_objects|]. intros os w' m' (-> & -> & Hos).
  apply wpw_lift. eapply wp_mono; [apply (wp_encode_packet OBUS_PKT_CONRESP _ (conresp_wire st wires)); try done|].
  - by apply emits_conresp.
  - intros r m' H'. done.
Qed.
End Conresp.

(** ** The state of a peer *)

Section State.
Context {AL : Allocator} {KE : Kernel} {UC : UserCode}.

(** The record of a peer changes, its io does not. *)
Lemma put_peer_wf held s p x x' n :
  server_wf held s -> sv_store s !! p = Some x -> pr_io x' = pr_io x -> pr_dbuf x' = pr_dbuf x ->
  n = sv_n_peers_connected s + (if bool_decide (pr_state x' = PEER_STATE_CONNECTED) then 1 else 0)
      - (if bool_decide (pr_state x = PEER_STATE_CONNECTED) then 1 else 0) ->
  let s' := set_n_connected (set_store s (<[p := x']> (sv_store s))) (u64 n) in
  server_wf held s' /\ forall q, peer_out s' q = peer_out s q.
Proof.
  intros W Hx Hio Hd Hn s'. assert (sv_store s' = <[p := x']> (sv_store s)) as Hst by done.
  assert (forall b, peer_refs s' b p = peer_refs s b p) as Hr.
  { intros b. unfold peer_refs. rewrite (put_store_eq s s' p x' Hst), Hx. by rewrite Hio, Hd. }
  split.
  - eapply (put_wf s s' p x x'); try done.
    + change (sv_n_peers_connected s') with (u64 n).
      rewrite (put_n_connected s s' p x x' Hx eq_refl Hst held W), Hn, (sw_count _ _ W).
      unfold connected. rewrite (put_store_eq s s' p x' Hst), Hx. unfold u64.
      rewrite <- Z.add_sub_assoc. by rewrite Zplus_mod_idemp_l.
    + apply W.
    + intros b. rewrite Hr. pose proof (sw_refs _ _ W b). change (sv_pool s') with (sv_pool s). lia.
    + rewrite Hio. by apply (sw_io _ _ W p).
    + intros b. rewrite Hio. by left.
    + intros b Hb q y Hy E. destruct (sw_dec _ _ W q q y y Hy Hy) as (_ & H & _). apply H. by rewrite E.
  - intros q. unfold peer_out. destruct (decide (q = p)) as [->|Hq].
    + rewrite (put_store_eq s s' p x' Hst), Hx, Hio. done.
    + by rewrite (put_store s s' p x' Hst).
Qed.

(** The state of a peer changes between states other than CONNECTED. *)
Lemma put_state_wf held s p x x' :
  server_wf held s -> sv_store s !! p = Some x -> pr_io x' = pr_io x -> pr_dbuf x' = pr_dbuf x ->
  pr_state x <> PEER_STATE_CONNECTED -> pr_state x' <> PEER_STATE_CONNECTED ->
  let s' := set_store s (<[p := x']> (sv_store s)) in
  server_wf held s' /\ forall q, peer_out s' q = peer_out s q.
Proof.
  intros W Hx Hio Hd H1 H2 s'.
  destruct (put_peer_wf held s p x x' (sv_n_peers_connected s) W Hx Hio Hd) as [W' Ho].
  { rewrite !bool_decide_eq_false_2 by done. lia. }
  assert (u64 (sv_n_peers_connected s) = sv_n_peers_connected s) as E.
  { rewrite (sw_count _ _ W). unfold u64. by rewrite Z.mod_mod. }
  rewrite E in W', Ho. done.
Qed.

Lemma until_nul_ends cs : is_Some (until_nul (cs ++ [0])).
Proof.
  induction cs as [|c cs IH]; cbn; [by eexists|]. destruct (c =? 0); [by eexists|].
  destruct IH as [y ->]. by eexists.
Qed.

Lemma wp_strdup s cs m (Q : cstr -> mem -> Prop) :
  cstr_chars m s = Some (Some cs) -> (forall n m', new_string m m' n -> Q n m') -> wp (strdup s) Q m.
Proof.
  intros Hs HQ. unfold strdup. apply wp_bind. eapply wp_m_chars; [exact Hs|].
  apply wp_bind, wp_new_block; [intros m' Hm _|intros k m' Hm Hn]; apply wp_ret, HQ; [by left|right].
  exists (cs ++ [0]). split_and!; [done..|]. apply until_nul_ends.
Qed.

(** A peer gets a name of its own. *)
Lemma names_new s p x n m m' :
  names_wf s m -> mem_wf m -> new_string m m' n ->
  names_wf (set_store s (<[p := with_name x n]> (sv_store s))) m'.
Proof.
  intros [N1 N2] Wm Hn.
  assert (forall q y b, sv_store s !! q = Some y -> pr_name y = CHeap b -> is_Some (m_blocks m !! b)) as Hl.
  { intros q y b Hy E. pose proof (N1 _ _ Hy). by rewrite E in *. }
  pose proof (new_string_grows _ _ _ Wm Hn) as G.
  assert (forall b, is_Some (m_blocks m !! b) -> is_Some (m_blocks m' !! b)) as Hg.
  { intros b [bs Hb]. exists bs. by apply (grows_blocks _ _ G). }
  assert (forall b, n = CHeap b -> is_Some (m_blocks m' !! b) /\ m_blocks m !! b = None) as Hnew.
  { intros b ->. destruct Hn as [[? _]|(bs & [= ->] & Hb & _)]; [done|].
    rewrite Hb, lookup_insert_eq. split; [by eexists|]. 
    destruct (m_blocks m !! m_next m) eqn:E; [|done]. specialize (Wm (m_next m) ltac:(by eexists)). lia. }
  split.
  - intros q y. cbn. destruct (decide (q = p)) as [->|Hq].
    + rewrite lookup_insert_eq. intros [= <-]. cbn. destruct n as [| |b]; [done| |by apply Hnew].
      destruct Hn as [[? _]|(bs & ? & _)]; done.
    + rewrite lookup_insert_ne by done. intros Hy. pose proof (N1 _ _ Hy). destruct (pr_name y); try done. by apply Hg.
  - intros q r y z b Hne. cbn.
    assert (forall q' y', q' <> p -> sv_store s !! q' = Some y' -> pr_name y' = CHeap b -> n = CHeap b -> False) as Hold.
    { intros q' y' _ Hy' E' En. destruct (Hnew b En) as [_ Hnone]. destruct (Hl _ _ _ Hy' E') as [? ?]. congruence. }
    destruct (decide (q = p)) as [->|Hq], (decide (r = p)) as [->|Hr]; [done| | |].
    + rewrite lookup_insert_eq, lookup_insert_ne by done. intros [= <-] Hz En Ez. by eapply (Hold r z).
    + rewrite lookup_insert_eq, lookup_insert_ne by done. intros Hy [= <-] Ey En. by eapply (Hold q y).
    + rewrite !lookup_insert_ne by done. by eapply N2.
Qed.
End State.

(** ** Deciding a request *)

(** The user may refuse the peer that asks to connect, and does nothing else. *)
Class DecidingUser (UC : UserCode) := {
  refuses : Z -> positive -> Z -> bool;
  deciding_cb : forall cb p ud s w m x,
    sv_store s !! p = Some x -> pr_state x = PEER_STATE_CONNECTING ->
    wps (connection_cb cb OBUS_PEER_EVENT_CONNECTING p ud) (fun _ s' w' m' => w' = w /\ m' = m /\
      s' = if refuses cb p ud then set_store s (<[p := with_state x PEER_STATE_REFUSED]> (sv_store s)) else s) s w m
}.

(** The server accepts the request, as far as the library is concerned. *)
Definition acceptable (s : obus_server) (w : world) (pkt : obus_packet_conreq) (client bus : list Z) : bool :=
  (cq_version pkt =? OBUS_PROTOCOL_VERSION) && bool_decide (bus = sv_bus_name s) &&
  (cq_crc pkt =? bd_crc (api_desc (b_api (w_bus w)))) && negb (bool_decide (client = [])).

Definition user_agrees {UC : UserCode} `{!DecidingUser UC} (s : obus_server) (p : positive) : bool :=
  (sv_peer_connection_cb s =? 0) || negb (refuses (sv_peer_connection_cb s) p (sv_user_data s)).

Definition response_status (ok : bool) : Z := if ok then OBUS_CONRESP_ACCEPTED else OBUS_CONRESP_REFUSED.

Section Decide.
Context {AL : Allocator} {KE : Kernel} {UC : UserCode} `{!DecidingUser UC} `{!QuietUser UC} `{!BlockingKernel KE}.

Lemma wps_request_status pkt client bus s w m :
  cstr_chars m (cq_client pkt) = Some (Some client) -> cstr_chars m (cq_bus pkt) = Some (Some bus) ->
  wps (request_status pkt) (fun st s' w' m' => s' = s /\ w' = w /\ m' = m /\
     st = response_status (acceptable s w pkt client bus)) s w m.
Proof.
  intros Hc Hb. unfold request_status, acceptable.
  destruct (cq_version pkt =? OBUS_PROTOCOL_VERSION); cbn [negb andb]; [|by apply wps_ret].
  apply wps_bind, wps_gets, wps_bind, wps_mem. eapply wp_m_chars; [exact Hb|].
  destruct (bool_decide (bus = sv_bus_name s)); cbn [negb andb]; [|by apply wps_ret].
  apply wps_bind, wps_bus, wpw_gets.
  destruct (cq_crc pkt =? bd_crc (api_desc (b_api (w_bus w)))); cbn [negb andb]; [|by apply wps_ret].
  destruct (cq_client pkt) eqn:Ec; [done| |].
  all: apply wps_bind, wps_mem; (eapply wp_m_chars; [exact Hc|]); apply wps_ret; by destruct client.
Qed.

Lemma wps_ask_user p x ok s w m :
  sv_store s !! p = Some x ->
  wps (ask_user p (response_status ok)) (fun st s' w' m' => w' = w /\ m' = m /\
     st = response_status (ok && user_agrees s p) /\
     exists st', (st' = pr_state x \/ st' = PEER_STATE_CONNECTING \/ st' = PEER_STATE_REFUSED) /\
       s' = set_store s (<[p := with_state x st']> (sv_store s))) s w m.
Proof.
  intros Hx. unfold ask_user. destruct ok; cbn [response_status negb Z.eqb OBUS_CONRESP_ACCEPTED OBUS_CONRESP_REFUSED andb].
  2:{ apply wps_ret. split_and!; [done..|]. exists (pr_state x). split; [by left|].
      rewrite insert_id; [by destruct s|]. rewrite Hx. by destruct x. }
  apply wps_bind. eapply wps_get_peer; [exact Hx|]. unfold put_peer. apply wps_bind, wps_modify, wps_bind.
  set (x1 := with_state x PEER_STATE_CONNECTING). set (s1 := set_store s _).
  unfold obus_peer_notify_user. apply wps_bind, wps_gets, wps_bind, wps_gets.
  change (sv_peer_connection_cb s1) with (sv_peer_connection_cb s). change (sv_user_data s1) with (sv_user_data s).
  assert (sv_store s1 !! p = Some x1) as H1 by apply lookup_insert_eq.
  unfold user_agrees. destruct (sv_peer_connection_cb s =? 0); cbn [orb].
  - apply wps_ret, wps_bind. eapply wps_get_peer; [exact H1|]. apply wps_ret. split_and!; [done..|].
    exists PEER_STATE_CONNECTING. split; [right; by left|done].
  - eapply wps_mono; [by apply (deciding_cb _ _ _ _ _ _ x1)|]. intros [] s2 w2 m2 (-> & -> & ->).
    destruct (refuses _ _ _).
    + apply wps_bind. eapply wps_get_peer; [apply lookup_insert_eq|]. apply wps_ret. split_and!; [done..|].
      exists PEER_STATE_REFUSED. split; [by do 2 right|].
      change (set_store s (<[p := with_state x PEER_STATE_REFUSED]> (<[p := x1]> (sv_store s))) =
        set_store s (<[p := with_state x PEER_STATE_REFUSED]> (sv_store s))). by rewrite insert_insert_eq.
    + apply wps_bind. eapply wps_get_peer; [exact H1|]. apply wps_ret. split_and!; [done..|].
      exists PEER_STATE_CONNECTING. split; [right; by left|done].
Qed.

Lemma wps_response held p x st wires s w m :
  server_wf held s -> sv_store s !! p = Some x ->
  Forall2 (listed w m) (if st =? OBUS_CONRESP_ACCEPTED then b_objects (w_bus w) else []) wires ->
  Z.of_nat (length wires) < 2 ^ 32 -> packet_size (conresp_wire st wires) < 2 ^ 32 ->
  wps (obus_peer_send_connection_response p st) (fun code s' w' m' => w' = w /\ wrote held p x s s' m m' /\ code <= 0 /\
     (code = 0 -> peer_out s' p = peer_out s p ++ packet_wire OBUS_PKT_CONRESP (conresp_wire st wires)) /\
     (code <> 0 -> trouble s (conresp_wire st wires))) s w m.
Proof.
  intros W Hx Hw Hl Hs. unfold obus_peer_send_connection_response.
  eapply wps_framed; [exact W|by apply (frames_response m w st wires)| |].
  - intros s1 m1 R Hm W1 Hf. split; [done|]. split; [by apply wrote_nothing|]. split; [unfold ENOMEM; lia|].
    split; [done|]. intros _. by left.
  - intros buf s1 m1 R Hm W1 Hcont.
    assert (sv_store s1 !! p = Some x) as Hx1 by by destruct R as (pl & -> & _).
    eapply wps_mono; [by apply (wps_write_or_unref held buf p x)|].
    intros code s2 w2 m2 (-> & HW & Hle & Hout & Hsoft). split; [done|].
    split; [by eapply wrote_repooled|]. split; [done|]. split.
    + intros Hc. by rewrite (Hout Hc), (repooled_out _ _ p R), Hcont.
    + intros Hc. right. intros [HS HA]. by apply Hc, Hsoft.
Qed.

(** What is left to do once the response is sent. *)
Definition finish_request (p : positive) (ok : bool) : SV Z :=
  x ← get_peer p;
  if response_status ok =? OBUS_CONRESP_ACCEPTED then
    put_peer p (with_state x PEER_STATE_CONNECTED);;
    sv_modify (fun s => set_n_connected s (u64 (sv_n_peers_connected s + 1)));;
    obus_peer_notify_user p OBUS_PEER_EVENT_CONNECTED;;
    mret 0
  else
    put_peer p (with_state x PEER_STATE_REFUSED);;
    mret 0.

Definition decided (ok : bool) : obus_peer_state := if ok then PEER_STATE_CONNECTED else PEER_STATE_REFUSED.

Lemma wps_finish_request p ok x s w m :
  server_wf [] s -> sv_store s !! p = Some x -> pr_state x <> PEER_STATE_CONNECTED ->
  wps (finish_request p ok) (fun code s' w' m' => w' = w /\ m' = m /\ code = 0 /\ server_wf [] s' /\
     sv_peers s' = sv_peers s /\ sv_store s' = <[p := with_state x (decided ok)]> (sv_store s) /\
     forall q, peer_out s' q = peer_out s q) s w m.
Proof.
  intros W Hx Hst. unfold finish_request, put_peer. apply wps_bind. eapply wps_get_peer; [exact Hx|].
  destruct ok; cbn [response_status Z.eqb OBUS_CONRESP_ACCEPTED OBUS_CONRESP_REFUSED decided].
  - apply wps_bind, wps_modify, wps_bind, wps_modify, wps_bind, wps_notify; [done|]. apply wps_ret.
    destruct (put_peer_wf [] s p x (with_state x PEER_STATE_CONNECTED) (sv_n_peers_connected s + 1) W Hx) as [W' Ho];
      [done|done| |split_and!; done].
    cbn [pr_state with_state]. rewrite (bool_decide_eq_false_2 _ Hst), bool_decide_eq_true_2 by done. lia.
  - apply wps_bind, wps_modify, wps_ret.
    by destruct (put_state_wf [] s p x (with_state x PEER_STATE_REFUSED) W Hx) as [W' Ho].
Qed.

(** C5: a new peer that asks to connect is connected exactly when the protocol
    version is the server's, the bus name and the crc are those of the bus, the
    name of the client is not empty and the application does not refuse it in its
    callback; otherwise it is refused.  Either way it gets one CONRESP packet with
    that answer, which lists every object of the bus if the peer is accepted and
    none otherwise; nothing is sent to the other peers.  When the response cannot
    be sent the peer is destroyed and the code is -1. *)
Theorem connection_request_decides p x pkt client bus wires s w m :
  server_wf [] s -> names_wf s m -> mem_wf m ->
  sv_store s !! p = Some x -> pr_state x = PEER_STATE_IDLE ->
  cstr_chars m (cq_client pkt) = Some (Some client) -> cstr_chars m (cq_bus pkt) = Some (Some bus) ->
  let ok := acceptable s w pkt client bus && user_agrees s p in
  let wire := conresp_wire (response_status ok) wires in
  Forall2 (listed w m) (if ok then b_objects (w_bus w) else []) wires ->
  Z.of_nat (length wires) < 2 ^ 32 -> packet_size wire < 2 ^ 32 ->
  wps (obus_peer_connection_request p pkt) (fun code s' w' m' =>
     w' = w /\ server_wf [] s' /\ names_wf s' m' /\
     (forall q, q <> p -> sv_store s' !! q = sv_store s !! q /\ peer_out s' q = peer_out s q) /\
     (code = 0 /\ sv_peers s' = sv_peers s /\ pr_state <$> sv_store s' !! p = Some (decided ok) /\
        peer_out s' p = peer_out s p ++ packet_wire OBUS_PKT_CONRESP wire \/
      code = - 1 /\ sv_peers s' = list_del p (sv_peers s) /\ trouble s wire)) s w m.
Proof.
  intros W N Wm Hx Hst Hc Hb ok wire Hw Hl Hs. unfold obus_peer_connection_request.
  apply wps_bind. eapply wps_get_peer; [exact Hx|]. rewrite bool_decide_eq_true_2 by done. cbn [negb].
  apply wps_bind, wps_mem. eapply wp_strdup; [exact Hc|]. intros name m1 Hn.
  pose proof (new_string_grows _ _ _ Wm Hn) as G. pose proof (names_new s p x name m m1 N Wm Hn) as N1.
  unfold put_peer at 1. apply wps_bind, wps_modify.
  destruct (put_state_wf [] s p x (with_name x name) W Hx) as [W1 Ho1]; [done|done|by rewrite Hst|by cbn; rewrite Hst|].
  set (s1 := set_store s _) in *.
  apply wps_bind. eapply wps_mono.
  { apply (wps_request_status pkt client bus); (eapply cstr_chars_grows; [exact G|]); done. }
  intros st1 s1' w1 m1' (-> & -> & -> & ->).
  change (acceptable s1 w pkt client bus) with (acceptable s w pkt client bus).
  apply wps_bind. eapply wps_mono; [apply (wps_ask_user p (with_name x name)); apply lookup_insert_eq|].
  intros st2 s2 w2 m2 (-> & -> & -> & st' & Hst' & ->). change (user_agrees s1 p) with (user_agrees s p). fold ok.
  assert (st' <> PEER_STATE_CONNECTED) as Hnc by (cbn in Hst'; rewrite Hst in Hst'; naive_solver).
  set (x2 := with_state (with_name x name) st').
  destruct (put_state_wf [] s1 p (with_name x name) x2 W1) as [W2 Ho2]; [apply lookup_insert_eq|done|done|by cbn; rewrite Hst|done|].
  set (s2 := set_store s1 _) in *.
  assert (sv_store s2 !! p = Some x2) as Hx2 by apply lookup_insert_eq.
  assert (names_wf s2 m1) as N2.
  { eapply names_same; [exact N1|done|]. intros q y. cbn. destruct (decide (q = p)) as [->|Hq].
    - rewrite lookup_insert_eq. intros [= <-]. eexists. split; [apply lookup_insert_eq|done].
    - rewrite !lookup_insert_ne by done. intros Hy. by exists y. }
  apply wps_bind. eapply wps_mono.
  { apply (wps_response [] p x2 (response_status ok) wires); try done.
    eapply listed_impl; [intros v a; by apply denotes_grows|]. by destruct ok. }
  intros code s3 w3 m3 (-> & HW & Hle & Hout & Htr). fold wire in Hout, Htr.
  assert (forall q, q <> p -> sv_store s3 !! q = sv_store s !! q /\ peer_out s3 q = peer_out s q) as Hoth.
  { intros q Hq. destruct (wr_others _ _ _ _ _ _ _ HW q Hq) as [-> ->]. rewrite Ho2, Ho1. split; [|done].
    cbn. by rewrite !lookup_insert_ne. }
  destruct (wr_peer _ _ _ _ _ _ _ HW) as (x3 & Hx3 & Hx3st & _).
  pose proof (names_wrote _ _ _ _ _ _ _ N2 Hx2 HW) as N3. unfold failed. destruct (Z.ltb_spec code 0) as [Hneg|Hpos].
  - apply wps_bind. eapply wps_peer_destroy; [apply HW|exact N3|exact Hx3|].
    intros s4 m4 W4 N4 Hp4 Ho4 _. apply wps_ret. split_and!; [done..| |right].
    + intros q Hq. destruct (Ho4 q Hq) as [-> ->]. by apply Hoth.
    + split; [done|]. rewrite Hp4, (wr_peers _ _ _ _ _ _ _ HW). split; [done|]. apply Htr. lia.
  - assert (code = 0) as -> by lia. fold (finish_request p ok).
    eapply wps_mono; [apply (wps_finish_request p ok x3 s3 w m3 (wr_wf _ _ _ _ _ _ _ HW) Hx3); by rewrite Hx3st|].
    intros code s4 w4 m4 (-> & -> & -> & W4 & Hp4 & Hst4 & Ho4). split_and!; [done|done| | |left].
    + eapply names_same; [exact N3|done|]. intros q y. rewrite Hst4. destruct (decide (q = p)) as [->|Hq].
      * rewrite lookup_insert_eq. intros [= <-]. by exists x3.
      * rewrite lookup_insert_ne by done. intros Hy. by exists y.
    + intros q Hq. rewrite Hst4, Ho4, lookup_insert_ne by done. by apply Hoth.
    + rewrite Hp4, Hst4, Ho4, lookup_insert_eq, Hout, Ho2, Ho1 by done. split_and!; [done| |done|done].
      by rewrite (wr_peers _ _ _ _ _ _ _ HW).
Qed.
End Decide.

(** ** Calls and acknowledgments *)

(** The handler of a method answers the call it is given, or leaves it. *)
Class AnsweringUser {AL : Allocator} {KE : Kernel} (UC : UserCode) := {
  answer : Z -> positive -> option obus_call_status;
  answering_handler : forall h obj handle args (Q : unit -> obus_server -> world -> mem -> Prop) s w m,
    wps (match answer h obj with
         | Some st => _ ← obus_server_send_ack handle st; mret tt
         | None => mret tt end) Q s w m ->
    wps (method_handler h obj handle args) Q s w m
}.

(** The kernel has no write error and there is memory for an acknowledgment. *)
Class Healthy (AL : Allocator) (KE : Kernel) : Prop := {
  healthy_memory : AmpleMemory AL;
  healthy_kernel : forall n, soft (k_write n)
}.

Definition small_buffers (s : obus_server) : Prop := pl_buffsize (sv_pool s) < 2 ^ 40.

Definition ack_of (c : obus_call) (st : obus_call_status) : list Z := ack_wire (cl_handle c) (call_status_num st).

Lemma ack_buffer {AL : Allocator} `{!AmpleMemory AL} s c st : small_buffers s -> ~ no_buffer s (ack_of c st).
Proof.
  intros Hs. unfold no_buffer. apply ample_not_refused.
  unfold small_buffers, packet_size, OBUS_PKT_HDR_SIZE, BUFFER_STRUCT_SIZE, PTRDIFF_MAX in *.
  unfold ack_of, ack_wire. rewrite length_app, length_be_bytes. cbn. lia.
Qed.

(** The call is answered with [st]: the packet is written to the peer, and the
    server has no call under way.  The write may fail. *)
Definition answered {AL : Allocator} {KE : Kernel} (p : positive) (x : obus_peer) (call : positive) (c : obus_call)
    (st : obus_call_status) (s s' : obus_server) (w w' : world) (m m' : mem) : Prop :=
  w' = set_calls w (<[call := cl_with_status c st]> (w_calls w)) /\
  exists s1, s' = set_call s1 None /\ wrote [] p x s s1 m m' /\
    (peer_out s1 p = peer_out s p ++ packet_wire OBUS_PKT_ACK (ack_of c st) \/ ~ Healthy AL KE).

(** It is not: nothing has changed but the pool. *)
Definition unanswered {AL : Allocator} (p : positive) (x : obus_peer) (s s' : obus_server) (w w' : world) (m m' : mem) : Prop :=
  w' = w /\ wrote [] p x s s' m m' /\ peer_out s' p = peer_out s p.

Section Calls.
Context {AL : Allocator} {KE : Kernel} {UC : UserCode} `{!AnsweringUser UC} `{!BlockingKernel KE}.

Lemma wps_send_ack p x call c st s w m :
  server_wf [] s -> sv_store s !! p = Some x -> sv_call s = Some call ->
  w_calls w !! call = Some c -> cl_peer c = Some p ->
  wps (obus_server_send_ack (cl_handle c) st) (fun code s' w' m' =>
     code = 0 /\ answered p x call c st s s' w w' m m' \/
     code = - ENOMEM /\ no_buffer s (ack_of c st) /\ unanswered p x s s' w w' m m') s w m.
Proof.
  intros W Hx Hcall Hc Hp. unfold obus_server_send_ack. apply wps_bind, wps_gets. rewrite Hcall.
  apply wps_bind, wps_bus. eapply wpw_lookup; [exact Hc|]. rewrite Z.eqb_refl. cbn [negb].
  apply wps_bind, wps_mem. rewrite Hp. eapply wp_lift; [done|].
  eapply (wps_framed _ _ OBUS_PKT_ACK (ack_of c st)); [exact W| | |].
  - apply frames_encode; [unfold is_byte, OBUS_PKT_ACK; lia| |apply (emits_ack m (Ack (cl_handle c) st))].
    unfold packet_size, ack_of, ack_wire. rewrite length_app, length_be_bytes. cbn. unfold OBUS_PKT_HDR_SIZE. lia.
  - intros s1 m1 R Hm W1 Hf. right. split_and!; [done|done|]. split; [done|].
    split; [by apply wrote_nothing|]. by apply repooled_out.
  - intros buf s1 m1 R Hm W1 Hcont.
    assert (sv_store s1 !! p = Some x) as Hx1 by by destruct R as (pl & -> & _).
    apply wps_bind. eapply wps_mono; [by apply (wps_write_or_unref [] buf p x)|].
    intros code s2 w2 m2 (-> & HW & _ & Hout & Hsoft).
    apply wps_bind, wps_bus. eapply wpw_lookup; [exact Hc|]. apply wps_bind, wps_bus, wpw_modify.
    apply wps_bind, wps_modify, wps_ret. left. split; [done|]. split; [done|]. exists s2. split; [done|].
    split; [by eapply wrote_repooled|]. destruct (decide (code = 0)) as [Hz|Hz].
    + left. by rewrite (Hout Hz), (repooled_out _ _ p R), Hcont.
    + right. intros [HA HK]. by apply Hz, Hsoft.
Qed.

(** The status a call is answered with, by the state of its method. *)
Definition call_result (registered : bool) (state handler : Z) (obj : positive) : obus_call_status :=
  if negb registered then OBUS_CALL_ABORTED
  else if state =? OBUS_METHOD_ENABLED then
    if handler =? 0 then OBUS_CALL_REFUSED else default OBUS_CALL_REFUSED (answer handler obj)
  else if state =? OBUS_METHOD_DISABLED then OBUS_CALL_METHOD_DISABLED
  else if state =? OBUS_METHOD_NOT_SUPPORTED then OBUS_CALL_METHOD_NOT_SUPPORTED
  else OBUS_CALL_REFUSED.

(** The handler has answered; or it has not, and the status is the result; or its
    answer was refused a buffer, and the status is REFUSED. *)
Definition handled (p : positive) (x : obus_peer) (call : positive) (c : obus_call)
    (result st : obus_call_status) (s s' : obus_server) (w w' : world) (m m' : mem) : Prop :=
  answered p x call c result s s' w w' m m' \/
  (st = result /\ s' = s /\ w' = w /\ m' = m) \/
  (st = OBUS_CALL_REFUSED /\ no_buffer s (ack_of c result) /\ unanswered p x s s' w w' m m').

Lemma wps_handle_call p x call c o state handler s w m :
  server_wf [] s -> sv_store s !! p = Some x -> sv_call s = Some call ->
  w_calls w !! call = Some c -> cl_peer c = Some p ->
  (ob_is_registered o = true -> obus_object_get_method_state o (md_uid (cl_desc c)) m = Some (state, m) /\
     obus_object_get_method_handler o (cl_desc c) m = Some (handler, m)) ->
  wps (handle_call c o) (fun st s' w' m' =>
    handled p x call c (call_result (ob_is_registered o) state handler (cl_obj c)) st s s' w w' m m') s w m.
Proof.
  intros W Hx Hcall Hc Hp Hm. unfold handle_call, call_result.
  destruct (ob_is_registered o); cbn [negb]; [|apply wps_ret; by right; left].
  destruct (Hm eq_refl) as [Hs Hh]. apply wps_bind, wps_mem. exists state, m. split; [done|].
  apply wps_bind, wps_mem. exists handler, m. split; [done|].
  destruct (state =? OBUS_METHOD_ENABLED); [|apply wps_ret; by right; left].
  apply wps_bind. destruct (handler =? 0); [apply wps_ret, wps_ret; by right; left|].
  apply answering_handler. destruct (answer handler (cl_obj c)) as [st|]; cbn [default].
  - apply wps_bind. eapply wps_mono; [by apply (wps_send_ack p x call c)|].
    intros code s' w' m' [[_ H]|(_ & Hn & H)]; apply wps_ret, wps_ret; [by left|by right; right].
  - apply wps_ret, wps_ret. by right; left.
Qed.

Lemma wrote_trans held p x x1 s s1 s2 m m1 m2 :
  wrote held p x s s1 m m1 -> sv_store s1 !! p = Some x1 -> wrote held p x1 s1 s2 m1 m2 -> wrote held p x s s2 m m2.
Proof.
  intros [A1 A2 A3 (x0 & A4 & A5 & A6 & A7) A8 A9] Hx1 [B1 B2 B3 (x2 & B4 & B5 & B6 & B7) B8 B9].
  rewrite A4 in Hx1. injection Hx1 as <-. constructor; try congruence; [by etransitivity| |].
  - exists x2. split_and!; congruence.
  - intros q Hq. destruct (A8 q Hq) as [E1 E2]. rewrite <- E1, <- E2. by apply B8.
Qed.

(** What a request of the peer [p] leaves: its call answered with the result, or
    with REFUSED when the answer of the handler was refused a buffer; or still under
    way when that one is refused a buffer too. *)
Definition replied (p : positive) (x : obus_peer) (call : positive) (c : obus_call)
    (result : obus_call_status) (s s' : obus_server) (w w' : world) (m m' : mem) : Prop :=
  (exists st, (st = result \/ st = OBUS_CALL_REFUSED /\ no_buffer s (ack_of c result)) /\
     answered p x call c st s s' w w' m m') \/
  (no_buffer s (ack_of c result) /\ unanswered p x s s' w w' m m').

Lemma wps_call_request p x call c o state handler s w m :
  server_wf [] s -> sv_store s !! p = Some x ->
  w_calls w !! call = Some c -> cl_peer c = Some p -> cl_status c = OBUS_CALL_INVALID ->
  w_objs w !! cl_obj c = Some o ->
  (ob_is_registered o = true -> obus_object_get_method_state o (md_uid (cl_desc c)) m = Some (state, m) /\
     obus_object_get_method_handler o (cl_desc c) m = Some (handler, m)) ->
  let result := call_result (ob_is_registered o) state handler (cl_obj c) in
  wps (obus_peer_call_request call) (fun code s' w' m' =>
    code = 0 /\ replied p x call c result (set_call s (Some call)) s' w w' m m') s w m.
Proof.
  intros W Hx Hc Hp Hst Ho Hm result. unfold obus_peer_call_request.
  apply wps_bind, wps_modify, wps_bind, wps_bus. eapply wpw_lookup; [exact Hc|].
  apply wps_bind, wps_bus. eapply wpw_lookup; [exact Ho|]. apply wps_bind.
  set (s0 := set_call s (Some call)). assert (server_wf [] s0) as W0 by by destruct W.
  eapply wps_mono; [apply (wps_handle_call p x call c o state handler); done|]. fold result. clearbody result.
  intros st s1 w1 m1 [(-> & HA)|H]; apply wps_bind, wps_bus.
  { eapply wpw_lookup; [apply lookup_insert_eq|]. cbn [cl_status cl_with_status].
    assert (replied p x call c result s0 s1 w (set_calls w (<[call := cl_with_status c result]> (w_calls w))) m m1) as HR.
    { left. exists result. by split; [left|]. }
    destruct result; try (by apply wps_ret). apply wps_bind.
    destruct HA as (s2 & -> & _). unfold obus_server_send_ack. apply wps_bind, wps_gets. by do 2 apply wps_ret. }
  assert (w1 = w) as -> by by destruct H as [(_ & _ & -> & _)|(_ & _ & -> & _)].
  eapply wpw_lookup; [exact Hc|]. rewrite Hst. apply wps_bind.
  destruct H as [(-> & -> & _ & ->)|(-> & Hn & _ & HW & Hout)].
  - eapply wps_mono; [apply (wps_send_ack p x call c result); done|].
    intros code s' w' m' [[_ H]|(_ & Hn & H)]; apply wps_ret; (split; [done|]); [left|by right].
    exists result. by split; [left|].
  - destruct (wr_peer _ _ _ _ _ _ _ HW) as (x1 & Hx1 & _).
    eapply wps_mono; [apply (wps_send_ack p x1 call c); [apply HW|done|by rewrite (wr_call _ _ _ _ _ _ _ HW)|done..]|].
    intros code s' w' m' [[_ H]|(_ & _ & -> & HW2 & Ho2)]; apply wps_ret; (split; [done|]).
    + left. exists OBUS_CALL_REFUSED. split; [by right|]. destruct H as (-> & s2 & -> & HW2 & Ho2).
      split; [done|]. exists s2. split; [done|]. split; [by eapply wrote_trans|]. by rewrite <- Hout.
    + right. split; [done|]. split; [done|]. split; [by eapply wrote_trans|]. by rewrite Ho2.
Qed.

(** C6: a call is answered once. Handlers, when they are run, answer the call they are
    given or leave it, and do nothing else with the server ([AnsweringUser]).  Then
    whatever the method is, the peer that made the call gets one ACK packet, after
    what it already had to receive and with the handle of the call, unless a write
    or an allocation fails on the way ([Healthy]).  The status is ABORTED for an object
    that is not registered, METHOD_DISABLED or METHOD_NOT_SUPPORTED according to the
    state of the method, the answer of the handler when it gives one, REFUSED
    otherwise; it is recorded in the call, and the server has no call under way
    afterwards.  When no buffer can be had for the answer of the handler, the server
    tries with REFUSED; when it cannot be had for the answer of the server, nothing is
    sent and the call stays under way.  The other peers get nothing in any case,
    the list of peers is the same, and the code is 0. *)
Theorem call_is_acknowledged p x call c o state handler s w m :
  server_wf [] s -> sv_store s !! p = Some x ->
  w_calls w !! call = Some c -> cl_peer c = Some p -> cl_status c = OBUS_CALL_INVALID ->
  w_objs w !! cl_obj c = Some o ->
  (ob_is_registered o = true -> obus_object_get_method_state o (md_uid (cl_desc c)) m = Some (state, m) /\
     obus_object_get_method_handler o (cl_desc c) m = Some (handler, m)) ->
  let result := call_result (ob_is_registered o) state handler (cl_obj c) in
  let unsent := no_buffer s (ack_wire (cl_handle c) (call_status_num result)) in
  wps (obus_peer_call_request call) (fun code s' w' m' =>
     code = 0 /\ server_wf [] s' /\ sv_peers s' = sv_peers s /\
     (forall q, q <> p -> peer_out s' q = peer_out s q) /\
     ((exists st, (st = result \/ st = OBUS_CALL_REFUSED /\ unsent) /\ sv_call s' = None /\
         w' = set_calls w (<[call := cl_with_status c st]> (w_calls w)) /\
         (peer_out s' p = peer_out s p ++ packet_wire OBUS_PKT_ACK (ack_wire (cl_handle c) (call_status_num st)) \/
          ~ Healthy AL KE)) \/
      (unsent /\ sv_call s' = Some call /\ w' = w /\ peer_out s' p = peer_out s p))) s w m.
Proof.
  intros W Hx Hc Hp Hst Ho Hm result unsent.
  eapply wps_mono; [by apply (wps_call_request p x call c o state handler)|]. fold result.
  intros code s' w' m' (-> & [(st & Hres & -> & s1 & -> & HW & Hout)|(Hn & -> & HW & Hout)]);
    destruct HW as [A1 _ A3 _ A5 A6]; (split; [done|]).
  - split_and!; [by destruct A1|done|intros q Hq; by apply A5|left]. by exists st.
  - split_and!; [done|done|intros q Hq; by apply A5|by right].
Qed.

(** With memory and without write errors, it is answered with the result. *)
Lemma wps_call_answered `{!Healthy AL KE} p x call c o state handler s w m :
  server_wf [] s -> small_buffers s -> sv_store s !! p = Some x ->
  w_calls w !! call = Some c -> cl_peer c = Some p -> cl_status c = OBUS_CALL_INVALID ->
  w_objs w !! cl_obj c = Some o ->
  (ob_is_registered o = true -> obus_object_get_method_state o (md_uid (cl_desc c)) m = Some (state, m) /\
     obus_object_get_method_handler o (cl_desc c) m = Some (handler, m)) ->
  let result := call_result (ob_is_registered o) state handler (cl_obj c) in
  wps (obus_peer_call_request call) (fun code s' w' m' => code = 0 /\
     w' = set_calls w (<[call := cl_with_status c result]> (w_calls w)) /\
     exists s1, s' = set_call s1 None /\ wrote [] p x (set_call s (Some call)) s1 m m' /\
       peer_out s1 p = peer_out s p ++ packet_wire OBUS_PKT_ACK (ack_of c result)) s w m.
Proof.
  intros W Hb Hx Hc Hp Hst Ho Hm result. pose proof (healthy_memory (AL := AL)) as HA.
  assert (~ no_buffer (set_call s (Some call)) (ack_of c result)) as Hn by by apply ack_buffer.
  eapply wps_mono; [by apply (wps_call_request p x call c o state handler)|]. fold result.
  intros code s' w' m' (-> & [(st & [-> |[_ ?]] & -> & s1 & -> & HW & [Hout|[]])|[? _]]); [|done..].
  split; [done|]. split; [done|]. by exists s1.
Qed.
End Calls.

(** ** A client without a name *)

Section NullName.
Context {AL : Allocator} `{!AmpleMemory AL} {KE : Kernel} {UC : UserCode}.

Lemma run_get_peer p x s w m : sv_store s !! p = Some x -> get_peer p s w m = Some ((x, s), w, m).
Proof. intros H. unfold get_peer. erewrite run_bind by done. apply run_mem. by rewrite H. Qed.

(** A connection request whose client name is the null string, which is a
    legal string on the wire, crashes the server: the name is duplicated before it
    is compared with NULL.  Any peer can send it, before any check is made. *)
Theorem null_client_name_crashes p x b bus crc rest fuel turns s w m :
  mem_wf m -> sv_store s !! p = Some x -> pr_state x = PEER_STATE_IDLE ->
  pl_bufs (sv_pool s) !! pr_dbuf x = Some b -> buf_wf b -> buf_pos b = 0 ->
  d_hdr_valid (pr_decoder x) = false -> wire_string bus -> 0 <= crc < 2 ^ 32 ->
  packet_size (conreq_wire None bus crc) < 2 ^ 32 ->
  buf_bytes b = packet_wire OBUS_PKT_CONREQ (conreq_wire None bus crc) ++ rest ->
  obus_peer_io_read_event (S fuel) (S turns) false true p s w m = None.
Proof.
  intros Wm Hx Hst Hb Wb Hpos Hd Hbus Hcrc Hs Hbytes.
  pose proof (wp_read_conreq None bus crc (pr_decoder x) b (k_read (sv_tick s)) rest turns w m
    Wm I Hbus Hcrc Hs Wb Hpos Hbytes Hd) as H.
  apply wp_run in H as ([[[[[ret info] d'] b'] script'] w'] & m2 & Hrun & -> & -> & _ & _ & bus' & client' & -> & _ & Hc).
  assert (client' = CNull) as ->.
  { destruct client' as [| |q]; [done|done|]. cbn in Hc. destruct (m_blocks m2 !! q) as [bs|]; [|done].
    cbn in Hc. destruct (until_nul bs); done. }
  unfold obus_peer_io_read_event. cbn [negb]. erewrite run_bind by done. cbn [read_packets]. cbn [tick with_tick server_ticking].
  set (s1 := set_tick s (S (sv_tick s))). erewrite run_bind by (by apply run_get_peer). erewrite run_bind by done.
  erewrite run_bind by (apply (run_mem _ _ _ _ b); unfold get_buf, m_lift;
    change (sv_pool s1) with (sv_pool s); by rewrite Hb).
  erewrite run_bind by (apply run_bus; exact Hrun). cbv beta iota.
  erewrite run_bind by done. erewrite run_bind by done.
  cbn [Z.eqb Z.opp EAGAIN failed Z.ltb Z.compare handle_packet].
  do 2 apply run_bind_none. unfold obus_peer_connection_request.
  erewrite run_bind by (apply run_get_peer, lookup_insert_eq).
  cbn [pr_state with_decoder]. by rewrite Hst.
Qed.
End NullName.

(** ** A peer that connects, then calls a method *)

Section Witnesses.
#[local] Existing Instance ample_alloc.
#[local] Existing Instance wit_kernel.
#[local] Existing Instance wit_kernel_blocks.

(** Handlers accept every call; the connection callback lets every peer in. *)
#[local] Instance wit_acker : UserCode := {
  connection_cb _ _ _ _ := mret tt;
  method_handler _ _ handle _ :=
    _ ← obus_server_send_ack handle OBUS_CALL_ACKED; mret tt
}.

#[local] Instance wit_acker_quiet : QuietUser wit_acker.
Proof. intros cb ev p ud s w m _. by apply wps_ret. Qed.

#[local] Instance wit_acker_decides : DecidingUser wit_acker.
Proof. refine {| refuses _ _ _ := false |}. intros cb p ud s w m x _ _. by apply wps_ret. Defined.

#[local] Instance wit_acker_answers : AnsweringUser wit_acker.
Proof. refine {| answer _ _ := Some OBUS_CALL_ACKED |}. intros h obj handle args Q s w m H. exact H. Defined.

#[local] Instance wit_healthy : Healthy ample_alloc wit_kernel.
Proof. split; [apply _|exact wit_kernel_soft]. Qed.

(** The server of the bus "hi", with object 1 registered. *)
Definition wit_hi_srv : obus_server :=
  Server (sv_peers wit_srv) (sv_store wit_srv) [104; 105] 1 (sv_pool wit_srv) None SERVER_STATE_STARTED 1 0 0 3 0.

Lemma wit_hi_wf : server_wf [] wit_hi_srv.
Proof. by destruct wit_srv_wf. Qed.

Definition wit_conreq : obus_packet_conreq := Conreq OBUS_PROTOCOL_VERSION (CHeap 1) 78 (CHeap 1).

Lemma connection_request_decides_witness :
  wps (obus_peer_connection_request 2 wit_conreq)
      (fun code s' _ _ => code = 0 /\ pr_state <$> sv_store s' !! 2%positive = Some PEER_STATE_CONNECTED /\
         peer_out s' 2%positive = packet_wire OBUS_PKT_CONRESP (conresp_wire 0 [object_wire wit_rich_obj wit_contents]))
      wit_hi_srv wit_reg_w wit_mem.
Proof.
  assert (packet_size (conresp_wire 0 [object_wire wit_rich_obj wit_contents]) < 2 ^ 20) as Hs by (vm_compute; reflexivity).
  eapply wps_mono; [apply (connection_request_decides 2 (wit_peer PEER_STATE_IDLE 2) wit_conreq [104; 105] [104; 105]
    [object_wire wit_rich_obj wit_contents] wit_hi_srv wit_reg_w wit_mem)|].
  - exact wit_hi_wf.
  - destruct (wit_srv_names wit_mem). by split.
  - exact wit_mem_wf.
  - reflexivity.
  - reflexivity.
  - reflexivity.
  - reflexivity.
  - constructor; [|constructor]. exists wit_rich_obj, wit_contents. split; [reflexivity|]. split; [exact wit_rich_sound|reflexivity].
  - cbn. lia.
  - change (packet_size (conresp_wire 0 [object_wire wit_rich_obj wit_contents]) < 2 ^ 32). lia.
  - intros code s' w' m' (_ & _ & _ & _ & [(Hc & _ & Hst & Ho)|(_ & _ & [Hn|Hn])]).
    + split; [exact Hc|]. split; [exact Hst|exact Ho].
    + exfalso. revert Hn. apply ample_not_refused. unfold BUFFER_STRUCT_SIZE, PTRDIFF_MAX.
      change (64 + 16 + packet_size (conresp_wire 0 [object_wire wit_rich_obj wit_contents]) <= 2 ^ 63 - 1). lia.
    + destruct Hn. split; [exact wit_kernel_soft|apply _].
Defined.

(** An object whose only method is enabled. *)
Definition wit_call_info : obus_struct :=
  Struct (StructDesc 3 8 0 [FieldDesc 1 4 OBUS_METHOD OBUS_FIELD_ENUM obus_method_state_driver 0])
    (list_to_map [(0, CVal (VNum 1)); (4, CVal (VNum OBUS_METHOD_ENABLED))]).
Definition wit_call_obj : obus_object :=
  Object true true (ObjectDesc 11 1 (st_desc wit_call_info) [] [wit_method]) 9 true 0 wit_call_info [55].
Definition wit_call : obus_call := Call wit_method 1 300 (Some 1%positive) OBUS_CALL_INVALID None None 0.
Definition wit_call_w : world :=
  set_calls (set_objs wit_reg_w {[1%positive := wit_call_obj]}) {[5%positive := wit_call]}.

Lemma call_is_acknowledged_witness :
  wps (obus_peer_call_request 5)
      (fun code s' w' _ => code = 0 /\ sv_call s' = None /\
         w_calls w' !! 5%positive = Some (cl_with_status wit_call OBUS_CALL_ACKED) /\
         peer_out s' 1%positive = [111; 98; 117; 115; 0; 0; 0; 12; 7; 1; 44; 1] /\ peer_out s' 2%positive = [])
      wit_srv wit_call_w wit_mem.
Proof.
  eapply wps_mono; [apply (call_is_acknowledged 1 (wit_peer PEER_STATE_CONNECTED 1) 5 wit_call wit_call_obj
    OBUS_METHOD_ENABLED 55 wit_srv wit_call_w wit_mem)|].
  - exact wit_srv_wf.
  - reflexivity.
  - reflexivity.
  - reflexivity.
  - reflexivity.
  - reflexivity.
  - intros _. split; reflexivity.
  - intros code s' w' m' (Hc & _ & _ & Hq & H). rewrite (Hq 2%positive) by discriminate.
    assert (no_buffer wit_srv (ack_of wit_call OBUS_CALL_ACKED) -> False) as Hn.
    { apply ack_buffer. unfold small_buffers. cbn. lia. }
    destruct H as [(st & [Hs|[_ Hs]] & Hcall & Hw & Ho)|[H _]]; [|destruct (Hn Hs)|destruct (Hn H)].
    subst st. destruct Ho as [Ho|Ho]; [|destruct Ho; exact wit_healthy].
    rewrite Hw, Ho. split; [exact Hc|]. split; [exact Hcall|]. split; [reflexivity|]. split; reflexivity.
Defined.

(** A new peer sends the 24 bytes of a request without client name. *)
Definition wit_null_bytes : list Z := packet_wire OBUS_PKT_CONREQ (conreq_wire None None 78).
Definition wit_null_buf : buffer :=
  Buffer (Z.of_nat (length wit_null_bytes)) (Z.of_nat (length wit_null_bytes)) 0 wit_null_bytes 1.
Definition wit_null_srv : obus_server := set_pool wit_srv (set_buf wit_srv_pool 2 wit_null_buf).

Lemma wit_null_wf : buf_wf wit_null_buf.
Proof.
  constructor; [vm_compute; split; congruence|vm_compute; split; congruence|vm_compute; congruence|reflexivity|].
  let l := eval vm_compute in wit_null_bytes in change (Forall is_byte l).
  repeat (apply Forall_cons; split; [unfold is_byte; lia|]). by apply Forall_nil.
Qed.

Lemma null_client_name_crashes_witness :
  obus_peer_io_read_event 1 1 false true 2 wit_null_srv wit_w mem0 = None.
Proof.
  apply (null_client_name_crashes 2 (wit_peer PEER_STATE_IDLE 2) wit_null_buf None 78 [] 0 0).
  - exact mem0_wf.
  - reflexivity.
  - reflexivity.
  - reflexivity.
  - exact wit_null_wf.
  - reflexivity.
  - reflexivity.
  - exact I.
  - lia.
  - vm_compute. reflexivity.
  - reflexivity.
Defined.
End Witnesses.
