(* ===== verification/ClientState.v ===== *)
(** * obus_client.c: the state of a client and its application

    The client owns one [obus_io] and one decoder while it has a socket
    connection; the pool of buffers is moved into the io for the time of an io
    operation.  The class [ClientCode] stands for the callbacks of the
    application: the bus events and the providers of objects. *)
From S2P Require Import Prelude Mem Cstring Buffer Pool Desc Field Struct Hash BusApi World Bus Object Event Call BusEvent Io Packet Handler.

Inductive obus_client_state :=
| STATE_IDLE | STATE_CONNECTING | STATE_CONNECTED
| STATE_DISCONNECTING | STATE_DISCONNECTED | STATE_REFUSED.

#[export] Instance obus_client_state_eq_dec : EqDecision obus_client_state.
Proof. solve_decision. Defined.

(** Callbacks are addresses, 0 for NULL.  [c_bus_name] is the name of the bus
    description; [c_dbuf] is the buffer of the decoder, [None] for NULL; [c_sk]:
    the socket exists. *)
Record obus_client := Client {
  c_name : cstr;
  c_bus_name : cstr;
  c_cb : Z;
  c_user_data : Z;
  c_sk : bool;
  c_state : obus_client_state;
  c_io : option obus_io;
  c_pool : pool;
  c_decoder : obus_packet_decoder;
  c_dbuf : option positive;
  c_connected_desc : obus_bus_event_desc;
  c_disconnected_desc : obus_bus_event_desc;
  c_connection_refused_desc : obus_bus_event_desc;
  c_tick : nat
}.

Definition set_cstate (c : obus_client) st : obus_client :=
  Client (c_name c) (c_bus_name c) (c_cb c) (c_user_data c) (c_sk c) st (c_io c) (c_pool c)
    (c_decoder c) (c_dbuf c) (c_connected_desc c) (c_disconnected_desc c) (c_connection_refused_desc c) (c_tick c).
Definition set_sk (c : obus_client) b : obus_client :=
  Client (c_name c) (c_bus_name c) (c_cb c) (c_user_data c) b (c_state c) (c_io c) (c_pool c)
    (c_decoder c) (c_dbuf c) (c_connected_desc c) (c_disconnected_desc c) (c_connection_refused_desc c) (c_tick c).
Definition set_io (c : obus_client) io : obus_client :=
  Client (c_name c) (c_bus_name c) (c_cb c) (c_user_data c) (c_sk c) (c_state c) io (c_pool c)
    (c_decoder c) (c_dbuf c) (c_connected_desc c) (c_disconnected_desc c) (c_connection_refused_desc c) (c_tick c).
Definition set_cpool (c : obus_client) pl : obus_client :=
  Client (c_name c) (c_bus_name c) (c_cb c) (c_user_data c) (c_sk c) (c_state c) (c_io c) pl
    (c_decoder c) (c_dbuf c) (c_connected_desc c) (c_disconnected_desc c) (c_connection_refused_desc c) (c_tick c).
Definition set_decoder (c : obus_client) d b : obus_client :=
  Client (c_name c) (c_bus_name c) (c_cb c) (c_user_data c) (c_sk c) (c_state c) (c_io c) (c_pool c)
    d b (c_connected_desc c) (c_disconnected_desc c) (c_connection_refused_desc c) (c_tick c).
Definition set_ctick (c : obus_client) n : obus_client :=
  Client (c_name c) (c_bus_name c) (c_cb c) (c_user_data c) (c_sk c) (c_state c) (c_io c) (c_pool c)
    (c_decoder c) (c_dbuf c) (c_connected_desc c) (c_disconnected_desc c) (c_connection_refused_desc c) n.

Notation CL := (StW obus_client).

#[export] Instance client_ticking : Ticking obus_client := {
  tick := c_tick;
  with_tick := set_ctick
}.

(** An operation on the pool. *)
Definition on_cpool {A} (f : pool -> M (A * pool)) : CL A :=
  pl ← sv_gets c_pool;
  '(a, pl) ← on_mem (f pl);
  sv_modify (fun c => set_cpool c pl);;
  mret a.

(** An operation on the io, with the pool of the client. *)
Definition on_io {A} (f : obus_io -> M (A * obus_io)) : CL A :=
  io ← sv_gets c_io;
  io ← on_mem (m_lift io);
  pl ← sv_gets c_pool;
  '(a, io) ← on_mem (f (with_pool io pl));
  sv_modify (fun c => set_cpool (set_io c (Some io)) (io_pool io));;
  mret a.

(** The callbacks: of bus events, and of the providers for the addition and the
    removal of an object and for its events; the bus event they are part of, if
    any, is passed along. *)
Class ClientCode := {
  bus_event_cb : Z -> positive -> Z -> CL unit;
  prov_add : Z -> positive -> option positive -> Z -> CL unit;
  prov_remove : Z -> positive -> option positive -> Z -> CL unit;
  prov_event : Z -> positive -> positive -> option positive -> Z -> CL unit
}.

Lemma wps_cpool {A} (f : pool -> M (A * pool)) (Q : A -> obus_client -> world -> mem -> Prop) c w m :
  wp (f (c_pool c)) (fun r m' => Q (fst r) (set_cpool c (snd r)) w m') m ->
  wps (on_cpool f) Q c w m.
Proof.
  intros H. unfold on_cpool. apply wps_bind, wps_gets, wps_bind, wps_mem.
  eapply wp_mono; [exact H|]. intros [a pl] m' HQ. by apply wps_bind, wps_modify, wps_ret.
Qed.

Lemma wps_on_io {A} io (f : obus_io -> M (A * obus_io))
    (Q : A -> obus_client -> world -> mem -> Prop) c w m :
  c_io c = Some io ->
  wp (f (with_pool io (c_pool c)))
     (fun r m' => Q (fst r) (set_cpool (set_io c (Some (snd r))) (io_pool (snd r))) w m') m ->
  wps (on_io f) Q c w m.
Proof.
  intros Hio H. unfold on_io. apply wps_bind, wps_gets, wps_bind, wps_mem. rewrite Hio. eapply wp_lift; [done|].
  apply wps_bind, wps_gets, wps_bind, wps_mem. eapply wp_mono; [exact H|]. intros [a io'] m' HQ.
  by apply wps_bind, wps_modify, wps_ret.
Qed.
