(* ===== verification/Client.v ===== *)
(** * obus_client.c: connection, objects, events, calls *)
From S2P Require Import Prelude Mem Cstring Buffer Pool Desc Field Struct Hash BusApi World Bus Object Event Call BusEvent Teardown Io Packet Handler ClientState.

Definition OBUS_DEFAULT_BUFFER_SIZE : Z := 1024.

(** [sizeof (struct obus_client)] *)
Definition CLIENT_SIZE : Z := 520.

Definition OBUS_BUS_EVENT_CONNECTED_UID : Z := 1.
Definition OBUS_BUS_EVENT_DISCONNECTED_UID : Z := 2.
Definition OBUS_BUS_EVENT_CONNECTION_REFUSED_UID : Z := 3.

Section Ops.
Context {AL : Allocator} {KE : Kernel} {CC : ClientCode}.

Definition client_peek : CL (option positive) := on_cpool obus_buffer_pool_peek.
Definition client_unref (buf : positive) : CL unit :=
  _ ← on_cpool (fun pl => obus_buffer_unref pl buf); mret tt.

(** [obus_io_write (client->io, buf)]; a NULL io is refused. *)
Definition client_write (buf : positive) : CL Z :=
  io ← sv_gets c_io;
  match io with
  | None => mret (- EINVAL)
  | Some _ =>
    script ← ask k_write;
    on_io (fun io => '(ret, io, _) ← obus_io_write script io buf; mret (ret, io))
  end.

Definition client_encode (buf : positive) (enc : buffer -> W (Z * buffer)) : CL Z :=
  pl ← sv_gets c_pool;
  b ← on_mem (get_buf pl buf);
  '(ret, b) ← on_bus (enc b);
  sv_modify (fun c => set_cpool c (set_buf pl buf b));;
  mret ret.

(** ** Events and objects *)

Definition obus_client_bus_event_notify (event : positive) : CL unit :=
  cb ← sv_gets c_cb;
  user_data ← sv_gets c_user_data;
  bus_event_cb cb event user_data.

(** The provider of the objects of [obj]'s kind. *)
Definition provider_of (obj : positive) : W (option obus_provider) :=
  o ← get_obj obj;
  prov ← obus_bus_provider (od_uid (ob_desc o));
  match prov with
  | None => mret None
  | Some p => v ← get_prov p; mret (Some v)
  end.

Definition obus_client_sanitize_event (event : positive) : W unit :=
  _ ← obus_event_sanitize event false; mret tt.

Definition obus_client_event (event : positive) (bus_event : option positive) : CL unit :=
  e ← on_bus (get_evt event);
  on_bus (obus_client_sanitize_event event);;
  prov ← on_bus (provider_of (ev_obj e));
  match prov with
  | Some v =>
    if pv_event v =? 0 then mret tt
    else prov_event (pv_event v) (ev_obj e) event bus_event (pv_user_data v)
  | None => mret tt
  end;;
  _ ← on_bus (obus_event_commit event);
  _ ← on_bus (obus_event_destroy event);
  mret tt.

Definition obus_client_add_object_notify (obj : positive) (bus_event : option positive) : CL unit :=
  prov ← on_bus (provider_of obj);
  match prov with
  | Some v =>
    if pv_add v =? 0 then mret tt else prov_add (pv_add v) obj bus_event (pv_user_data v)
  | None => mret tt
  end.

Definition obus_client_add_object (obj : positive) (bus_event : option positive) (notify : bool) : CL unit :=
  rands ← ask k_rand;
  ret ← on_bus (obus_bus_add_object rands obj);
  if failed ret then _ ← on_bus (obus_object_destroy obj); mret tt else
  ret ← on_bus (obus_bus_register_object obj);
  if failed ret then
    _ ← on_bus (obus_bus_remove_object true obj);
    _ ← on_bus (obus_object_destroy obj);
    mret tt
  else if notify then obus_client_add_object_notify obj bus_event else mret tt.

(** The object is [None] when the handle of the packet is unknown: every call is
    aborted, then the object is read through the NULL pointer. *)
Definition obus_client_remove_object (obj : option positive) (event : option positive) : CL unit :=
  on_bus (obus_bus_abort_call obj);;
  match obj with
  | None => sv_undef
  | Some obj =>
    prov ← on_bus (provider_of obj);
    match prov with
    | Some v =>
      if pv_remove v =? 0 then mret tt else prov_remove (pv_remove v) obj event (pv_user_data v)
    | None => mret tt
    end;;
    _ ← on_bus (obus_bus_unregister_object obj);
    _ ← on_bus (obus_bus_remove_object true obj);
    _ ← on_bus (obus_object_destroy obj);
    mret tt
  end.

(** ** Bus events *)

Definition event_list (f : obus_bus_event -> list positive) (event : positive) : CL (list positive) :=
  on_bus (b ← get_bev event; mret (f b)).

Definition set_committed (b : obus_bus_event) : obus_bus_event :=
  BusEvent (be_desc b) (be_add_objs b) (be_remove_objs b) (be_obj_events b) true (be_is_allocated b).

Definition obus_client_commit_bus_event (event : positive) : CL Z :=
  b ← on_bus (get_bev event);
  if be_is_committed b then mret 0 else
  on_bus (put_bev event (set_committed b));;
  walk_list (event_list be_add_objs event) (fun obj =>
    obus_client_add_object obj (Some event) false);;
  walk_list (event_list be_add_objs event) (fun obj =>
    on_bus (unlink_obj obj);; obus_client_add_object_notify obj (Some event));;
  walk_list (event_list be_obj_events event) (fun evt =>
    on_bus (unlink_evt evt);; obus_client_event evt (Some event));;
  walk_list (event_list be_remove_objs event) (fun obj =>
    on_bus (unlink_obj obj);; obus_client_remove_object (Some obj) (Some event));;
  mret 0.

Definition obus_client_handle_bus_event (event : positive) : CL unit :=
  obus_client_bus_event_notify event;;
  _ ← obus_client_commit_bus_event event;
  _ ← on_bus (obus_bus_event_destroy event);
  mret tt.

(** ** Disconnection *)

Definition obus_client_disconnect_bus : CL unit :=
  desc ← sv_gets c_disconnected_desc;
  event ← on_bus (obus_bus_event_init desc);
  bus ← on_bus get_bus;
  on_bus (w_iter (b_objects bus) (link_remove event));;
  obus_client_handle_bus_event event.

Definition obus_client_disconnect (reconnect : bool) : CL unit :=
  state ← sv_gets c_state;
  sv_modify (fun c => set_cstate c STATE_DISCONNECTING);;
  io ← sv_gets c_io;
  match io with
  | None => mret tt
  | Some _ =>
    dbuf ← sv_gets c_dbuf;
    buf ← on_mem (m_lift dbuf);
    _ ← on_cpool (fun pl => obus_packet_decoder_destroy pl buf);
    sv_modify (fun c => set_decoder c (c_decoder c) None);;
    on_io (fun io => io ← obus_io_destroy io; mret (tt, io));;
    sv_modify (fun c => set_io c None)
  end;;
  (if reconnect then mret tt else sv_modify (fun c => set_sk c false));;
  (if bool_decide (state = STATE_CONNECTED) then obus_client_disconnect_bus else mret tt);;
  sv_modify (fun c => set_cstate c (if reconnect then STATE_CONNECTING else STATE_DISCONNECTED)).

Definition obus_client_io_write_done (status : obus_io_status) (buf : positive) : CL unit :=
  client_unref buf;;
  match status with
  | OBUS_IO_OK => mret tt
  | _ => obus_client_disconnect true
  end.

(** ** Packets of the server *)

Definition obus_client_connection_response (status : Z) (objects : list positive) : CL unit :=
  st ← sv_gets c_state;
  if negb (bool_decide (st = STATE_CONNECTING)) then mret tt else
  if negb (status =? OBUS_CONRESP_ACCEPTED) then
    sv_modify (fun c => set_cstate c STATE_REFUSED);;
    desc ← sv_gets c_connection_refused_desc;
    event ← on_bus (obus_bus_event_init desc);
    obus_client_bus_event_notify event
  else
    sv_modify (fun c => set_cstate c STATE_CONNECTED);;
    desc ← sv_gets c_connected_desc;
    event ← on_bus (obus_bus_event_init desc);
    on_bus (w_iter objects (link_add event));;
    obus_client_handle_bus_event event.

Definition obus_client_ack (ack : obus_ack) : W unit :=
  call ← obus_bus_call (ack_handle ack);
  match call with
  | None => mret tt
  | Some call =>
    _ ← obus_bus_unregister_call call;
    obus_call_ack_notify call (ack_status ack);;
    _ ← obus_call_destroy call;
    mret tt
  end.

Definition client_packet (info : option obus_packet_info) : CL unit :=
  match info with
  | Some (InfoConresp r) => obus_client_connection_response (cp_status r) (cp_objects r)
  | Some (InfoAdd obj) => obus_client_add_object obj None true
  | Some (InfoRemove obj) => obus_client_remove_object obj None
  | Some (InfoEvent event) => obus_client_event event None
  | Some (InfoBusEvent event) => obus_client_handle_bus_event event
  | Some (InfoAck ack) => on_bus (obus_client_ack ack)
  | _ => mret tt
  end.

(** The [do ... while (ret == 0)]: the code of the decoder is the only one. *)
Fixpoint client_read (fuel turns : nat) (script : list sys_read) : CL unit :=
  match fuel with
  | O => sv_undef
  | S fuel' =>
    d ← sv_gets c_decoder;
    dbuf ← sv_gets c_dbuf;
    buf ← on_mem (m_lift dbuf);
    pl ← sv_gets c_pool;
    b ← on_mem (get_buf pl buf);
    '(ret, info, d, b, script) ← on_bus (obus_packet_decoder_read turns d b script);
    sv_modify (fun c => set_decoder (set_cpool c (set_buf pl buf b)) d dbuf);;
    if ret =? - EAGAIN then mret tt else
    if failed ret then obus_client_disconnect true else
    client_packet info;;
    if ret =? 0 then client_read fuel' turns script else mret tt
  end.

Definition obus_client_io_read_event (fuel turns : nat) (error readable : bool) : CL unit :=
  if error then obus_client_disconnect true else
  if negb readable then mret tt else
  script ← ask k_read; client_read fuel turns script.

(** The completions of an io operation that started with [n] of them; after a
    failed write the callback has destroyed the io the drain loop goes on with. *)
Definition client_calls (n : nat) : CL (list (obus_io_status * positive)) :=
  io ← sv_gets c_io; io ← on_mem (m_lift io); mret (drop n (io_calls io)).

Fixpoint client_callbacks (cs : list (obus_io_status * positive)) : CL unit :=
  match cs with
  | [] => mret tt
  | (status, buf) :: cs' => obus_client_io_write_done status buf;; client_callbacks cs'
  end.

Definition client_write_ready (error ready : bool) : CL unit :=
  io ← sv_gets c_io;
  io ← on_mem (m_lift io);
  script ← ask k_write;
  on_io (fun io => '(io, _) ← obus_io_write_events script error ready io; mret (tt, io));;
  cs ← client_calls (length (io_calls io));
  if negb error && negb (forallb (fun c => match c.1 with OBUS_IO_OK => true | _ => false end) cs)
  then sv_undef
  else client_callbacks cs.

Definition client_write_timeout : CL unit :=
  io ← sv_gets c_io;
  io ← on_mem (m_lift io);
  on_io (fun io => io ← obus_io_write_timer io; mret (tt, io));;
  cs ← client_calls (length (io_calls io));
  client_callbacks cs.

(** ** Connection *)

Definition obus_client_send_connection_request : CL Z :=
  buf ← client_peek;
  match buf with
  | None => mret (- ENOMEM)
  | Some buf =>
    name ← sv_gets c_name;
    bus_name ← sv_gets c_bus_name;
    ret ← client_encode buf (fun b =>
      bus ← get_bus;
      lift (obus_packet_conreq_encode b name bus_name (bd_crc (api_desc (b_api bus)))));
    if failed ret then client_unref buf;; mret ret else
    ret ← client_write buf;
    if ret =? 0 then client_unref buf;; mret ret
    else if ret =? - EAGAIN then mret 0
    else client_unref buf;; mret ret
  end.

Definition obus_client_socket_connected : CL unit :=
  io ← obus_io_new;
  sv_modify (fun c => set_io c io);;
  match io with
  | None => obus_client_disconnect true
  | Some _ =>
    buf ← client_peek;
    match buf with
    | None => obus_client_disconnect true
    | Some buf =>
      d ← on_cpool (fun pl => '(_, d, pl) ← obus_packet_decoder_init pl buf false; mret (d, pl));
      sv_modify (fun c => set_decoder c d (Some buf));;
      client_unref buf;;
      ret ← obus_client_send_connection_request;
      if failed ret then obus_client_disconnect true else mret tt
    end
  end.

(** ** Creation, start, destruction *)

(** [loop_ok]: the creation of the event loop.  The bus stays when a description
    of the three bus events is missing. *)
Definition obus_client_new (name bus_name : cstr) (desc : obus_bus_desc) (cb user_data : Z)
    (loop_ok : bool) : W (option obus_client) :=
  match name with
  | CNull => mret None
  | _ =>
    chars ← lift (m_chars name);
    match chars with
    | [] => mret None
    | _ =>
      if cb =? 0 then mret None else
      a ← lift (m_alloc CLIENT_SIZE);
      match a with
      | None => mret None
      | Some _ =>
        name ← lift (strdup name);
        match name with
        | CNull => mret None
        | _ =>
          '(ret, bus) ← lift (obus_bus_init desc);
          put_bus bus;;
          if failed ret then lift (c_free name);; mret None else
          connected ← lift (obus_bus_api_bus_event (b_api bus) OBUS_BUS_EVENT_CONNECTED_UID);
          disconnected ← lift (obus_bus_api_bus_event (b_api bus) OBUS_BUS_EVENT_DISCONNECTED_UID);
          refused ← lift (obus_bus_api_bus_event (b_api bus) OBUS_BUS_EVENT_CONNECTION_REFUSED_UID);
          match connected, disconnected, refused with
          | Some connected, Some disconnected, Some refused =>
            if negb loop_ok then _ ← obus_bus_destroy; lift (c_free name);; mret None else
            mret (Some (Client name bus_name cb user_data false STATE_IDLE None
              (obus_buffer_pool_init OBUS_DEFAULT_BUFFER_SIZE) (Decoder (Header 0 0 0) false false) None
              connected disconnected refused 0))
          | _, _, _ => lift (c_free name);; mret None
          end
        end
      end
    end
  end.

(** [ret]: the code of [obus_socket_client_new]. *)
Definition obus_client_start (ret : Z) : CL Z :=
  st ← sv_gets c_state;
  if negb (bool_decide (st = STATE_IDLE)) then mret (- EPERM) else
  if failed ret then mret ret else
  sv_modify (fun c => set_cstate (set_sk c true) STATE_CONNECTING);;
  mret ret.

Definition obus_client_destroy : CL Z :=
  obus_client_disconnect false;;
  _ ← on_bus obus_bus_destroy;
  sv_modify (fun c => set_cpool c (obus_buffer_pool_destroy (c_pool c)));;
  name ← sv_gets c_name;
  on_mem (c_free name);;
  mret 0.

Definition obus_client_is_connected : CL bool :=
  st ← sv_gets c_state; mret (bool_decide (st = STATE_CONNECTED)).

Definition obus_client_get_object (handle : Z) : CL (option positive) := on_bus (obus_bus_object handle).
Definition obus_client_object_next (prev : option positive) (uid : Z) : CL (option positive) :=
  on_bus (obus_bus_object_next prev uid).
Definition obus_client_register_provider (prov : positive) : CL Z := on_bus (obus_bus_register_provider prov).
Definition obus_client_unregister_provider (prov : positive) : CL Z := on_bus (obus_bus_unregister_provider prov).

(** ** Calls *)

(** The call lets go of the arguments of the caller. *)
Definition detach_args (call : positive) : W unit :=
  c ← get_call call; put_call call (cl_with_args c None).

(** The [destroy_call] and [unregister_call] labels. *)
Definition drop_call (call : positive) : W unit :=
  detach_args call;; _ ← obus_call_destroy call; mret tt.
Definition cancel_call (call : positive) : W unit :=
  _ ← obus_bus_unregister_call call;
  c ← get_call call;
  put_call call (cl_with_handle c OBUS_INVALID_HANDLE);;
  drop_call call.

(** The call is registered: it is encoded and sent; the handle is given back. *)
Definition send_call (call : positive) : CL (Z * option Z) :=
  buf ← client_peek;
  match buf with
  | None => on_bus (cancel_call call);; mret (- ENOMEM, None)
  | Some buf =>
    ret ← client_encode buf (fun b => obus_packet_call_encode b call);
    if failed ret then client_unref buf;; on_bus (cancel_call call);; mret (ret, None) else
    ret ← client_write buf;
    if negb (ret =? 0) && negb (ret =? - EAGAIN) then
      client_unref buf;; on_bus (cancel_call call);; mret (ret, None)
    else
      (if ret =? 0 then client_unref buf else mret tt);;
      c ← on_bus (get_call call);
      on_bus (detach_args call);;
      mret (0, Some (cl_handle c))
  end.

Definition obus_client_call (obj : positive) (desc : obus_method_desc) (args : option obus_struct)
    (cb : Z) : CL (Z * option Z) :=
  conn ← obus_client_is_connected;
  if negb conn then mret (- EPERM, None) else
  o ← on_bus (get_obj obj);
  if negb (ob_is_registered o) then mret (- EPERM, None) else
  state ← on_mem (obus_object_get_method_state o (md_uid desc));
  if negb (state =? OBUS_METHOD_ENABLED) then mret (- EPERM, None) else
  call ← on_bus (obus_call_new obj desc cb args);
  match call with
  | None => mret (- ENOMEM, None)
  | Some call =>
    rands ← ask k_rand;
    ret ← on_bus (obus_bus_register_call rands call);
    if failed ret then on_bus (drop_call call);; mret (ret, None) else
    send_call call
  end.
End Ops.
