(* ===== verification/ClientFacts.v ===== *)
(** * The connection states of a client

    A client holds an io and the buffer of a decoder together, and it has both
    whenever it is connected, so that a call always finds a descriptor to write
    to.  The callbacks of the application are arbitrary code that leaves the
    connection alone ([LawfulClient]), as every function of the interface they
    may call does. *)
From S2P Require Import Prelude Mem Cstring Buffer Pool Desc Field Struct Hash BusApi World Bus Object Event Call BusEvent Teardown Io Packet Handler ClientState Client.

Record client_ok (c : obus_client) : Prop := {
  ck_decoder : is_Some (c_io c) <-> is_Some (c_dbuf c);
  ck_open : c_state c = STATE_CONNECTED \/ c_state c = STATE_REFUSED -> is_Some (c_io c);
  ck_socket : is_Some (c_io c) \/ c_state c = STATE_CONNECTING -> c_sk c = true;
  ck_closed : c_state c = STATE_IDLE \/ c_state c = STATE_DISCONNECTED -> c_sk c = false;
  ck_leaving : c_state c = STATE_DISCONNECTING -> c_io c = None
}.

(** The connection as it was. *)
Record calm (c c' : obus_client) : Prop := {
  cm_state : c_state c' = c_state c;
  cm_sk : c_sk c' = c_sk c;
  cm_dbuf : c_dbuf c' = c_dbuf c;
  cm_io : is_Some (c_io c') <-> is_Some (c_io c)
}.

#[export] Instance calm_preorder : PreOrder calm.
Proof.
  split; [by intros c; split|]. intros c1 c2 c3 [A1 A2 A3 A4] [B1 B2 B3 B4].
  split; [by etransitivity..|]. by rewrite B4.
Qed.

Lemma calm_ok c c' : calm c c' -> client_ok c -> client_ok c'.
Proof.
  intros [A1 A2 A3 A4] [B1 B2 B3 B4 B5]. split; rewrite ?A1, ?A2, ?A3, ?A4; try done.
  intros H. apply eq_None_not_Some. rewrite A4. apply eq_None_not_Some. by apply B5.
Qed.

Class LawfulClient (CC : ClientCode) : Prop := {
  lawful_bus_event : forall cb ev ud, keeps client_ok calm (bus_event_cb cb ev ud);
  lawful_add : forall cb obj ev ud, keeps client_ok calm (prov_add cb obj ev ud);
  lawful_remove : forall cb obj ev ud, keeps client_ok calm (prov_remove cb obj ev ud);
  lawful_event : forall cb obj e ev ud, keeps client_ok calm (prov_event cb obj e ev ud)
}.

#[local] Hint Resolve lawful_bus_event lawful_add lawful_remove lawful_event : keeps.

Lemma keeps_calm f : (forall c, calm c (f c)) -> keeps client_ok calm (sv_modify f).
Proof. intros H c w m a c' w' m' [= _ <- _ _] C. split; [by apply (calm_ok c)|apply H]. Qed.

#[local] Hint Extern 1 (keeps _ _ (sv_modify _)) => apply keeps_calm; done : keeps.

Lemma keeps_on_io {A} (f : obus_io -> M (A * obus_io)) : keeps client_ok calm (on_io f).
Proof.
  intros c w m a c' w' m' E C. unfold on_io in E.
  apply bind_inv in E as (io & c1 & w1 & m1 & [= <- <- <- <-] & E).
  apply bind_inv in E as (io' & c2 & w2 & m2 & E2 & E). pose proof (bus_inv _ _ _ _ _ _ _ _ E2) as ->.
  apply bind_inv in E as (pl & c3 & w3 & m3 & [= <- <- <- <-] & E).
  apply bind_inv in E as ([b io2] & c4 & w4 & m4 & ->%bus_inv & E).
  apply bind_inv in E as ([] & c5 & w5 & m5 & [= <- _ _] & [= _ <- _ _]).
  assert (calm c (set_cpool (set_io c (Some io2)) (io_pool io2))) as Hc.
  { split; [done..|]. cbn. split; [|by eexists]. intros _.
    revert E2. unfold on_mem, on_bus, lift, m_lift, mbind, W_bind, mbind, M_bind.
    by destruct (c_io c); [eexists|]. }
  split; [by eapply calm_ok|done].
Qed.
#[local] Hint Resolve keeps_on_io : keeps.

Section Ops.
Context {AL : Allocator} {KE : Kernel} {CC : ClientCode} `{!LawfulClient CC}.

#[local] Notation quiet := (keeps client_ok calm).

Lemma client_peek_keeps : quiet client_peek.
Proof. unfold client_peek, on_cpool. keeps. Qed.
Lemma client_unref_keeps buf : quiet (client_unref buf).
Proof. unfold client_unref, on_cpool. keeps. Qed.
#[local] Hint Resolve client_peek_keeps client_unref_keeps : keeps.
Lemma client_write_keeps buf : quiet (client_write buf).
Proof. unfold client_write, ask. keeps. Qed.
Lemma client_encode_keeps buf enc : quiet (client_encode buf enc).
Proof. unfold client_encode. keeps. Qed.
#[local] Hint Resolve client_write_keeps client_encode_keeps : keeps.

Lemma notify_keeps event : quiet (obus_client_bus_event_notify event).
Proof. unfold obus_client_bus_event_notify. keeps. Qed.
Lemma event_keeps event bev : quiet (obus_client_event event bev).
Proof. unfold obus_client_event. keeps. Qed.
Lemma add_notify_keeps obj bev : quiet (obus_client_add_object_notify obj bev).
Proof. unfold obus_client_add_object_notify. keeps. Qed.
#[local] Hint Resolve notify_keeps event_keeps add_notify_keeps : keeps.
Lemma add_object_keeps obj bev notify : quiet (obus_client_add_object obj bev notify).
Proof. unfold obus_client_add_object, ask. keeps. Qed.
Lemma remove_object_keeps obj bev : quiet (obus_client_remove_object obj bev).
Proof. unfold obus_client_remove_object. keeps. Qed.
#[local] Hint Resolve add_object_keeps remove_object_keeps : keeps.
Lemma walk_list_keeps get body :
  quiet get -> (forall p, quiet (body p)) -> quiet (walk_list get body).
Proof. intros Hg Hb. unfold walk_list. keeps. by apply keeps_walk; [apply _|..]. Qed.
Lemma commit_bus_event_keeps event : quiet (obus_client_commit_bus_event event).
Proof.
  unfold obus_client_commit_bus_event, event_list.
  repeat first [apply walk_list_keeps; [|intros ?] | keeps_step].
Qed.
#[local] Hint Resolve commit_bus_event_keeps : keeps.
Lemma handle_bus_event_keeps event : quiet (obus_client_handle_bus_event event).
Proof. unfold obus_client_handle_bus_event. keeps. Qed.
#[local] Hint Resolve handle_bus_event_keeps : keeps.
Lemma disconnect_bus_keeps : quiet obus_client_disconnect_bus.
Proof. unfold obus_client_disconnect_bus. keeps. Qed.
Lemma send_conreq_keeps : quiet obus_client_send_connection_request.
Proof. unfold obus_client_send_connection_request. keeps. Qed.
#[local] Hint Resolve disconnect_bus_keeps send_conreq_keeps : keeps.
Lemma call_keeps obj desc args cb : quiet (obus_client_call obj desc args cb).
Proof. unfold obus_client_call, obus_client_is_connected, send_call, ask. keeps. Qed.
#[local] Hint Resolve call_keeps : keeps.

(** ** A client with a socket *)

Definition active (c : obus_client) : Prop :=
  client_ok c /\ c_sk c = true /\ c_state c <> STATE_DISCONNECTING.
Definition active_open (c : obus_client) : Prop := active c /\ is_Some (c_io c).

Definition anything (c c' : obus_client) : Prop := True.
#[local] Instance anything_preorder : PreOrder anything.
Proof. by split. Qed.

Lemma calm_active c c' : calm c c' -> active c -> active c'.
Proof. intros Hc (H1 & H2 & H3). split; [by apply (calm_ok c)|]. destruct Hc as [E1 E2 _ _]. by rewrite E1, E2. Qed.

Lemma open_active c : client_ok c -> is_Some (c_io c) -> active_open c.
Proof.
  intros H Hio. split; [|done]. split; [done|]. split; [by apply H; left|].
  intros Hd. apply (ck_leaving _ H) in Hd. rewrite Hd in Hio. by destruct Hio.
Qed.

Lemma quiet_active {A} (f : CL A) : quiet f -> keeps active anything f.
Proof. intros H c w m a c' w' m' E C. destruct (H _ _ _ _ _ _ _ E (proj1 C)). split; [by eapply calm_active|done]. Qed.

Lemma quiet_open {A} (f : CL A) : quiet f -> keeps active_open anything f.
Proof.
  intros H c w m a c' w' m' E [C Hio]. destruct (H _ _ _ _ _ _ _ E (proj1 C)) as [_ Hc].
  split; [|done]. split; [by eapply calm_active|by apply Hc].
Qed.

Lemma open_then_active {A B} (f : CL A) (g : A -> CL B) :
  keeps active_open anything f -> (forall a, keeps active anything (g a)) ->
  forall c w m a c' w' m', (f ≫= g) c w m = Some ((a, c'), w', m') -> active_open c -> active c'.
Proof.
  intros Hf Hg c w m b c' w' m' (a & c1 & w1 & m1 & E1 & E2)%bind_inv C.
  destruct (Hf _ _ _ _ _ _ _ E1 C) as [[C1 _] _]. by destruct (Hg a _ _ _ _ _ _ _ E2 C1).
Qed.

Lemma on_bus_run {S A} (f : W A) (s : S) w m a s' w' m' :
  on_bus f s w m = Some ((a, s'), w', m') -> s' = s /\ f w m = Some ((a, w'), m').
Proof.
  unfold on_bus, mbind, W_bind, mbind, M_bind, mret, W_ret, mret, M_ret.
  destruct (f w m) as [[[a1 w1] m1]|]; [|done]. by intros [= <- <- <- <-].
Qed.

Lemma on_lift_run {S A} (o : option A) (s : S) w m a s' w' m' :
  on_mem (m_lift o) s w m = Some ((a, s'), w', m') -> s' = s /\ o = Some a.
Proof.
  intros [-> E]%on_bus_run. split; [done|]. revert E. unfold lift, m_lift, mbind, M_bind.
  destruct o; [|done]. by intros [= <- _ _].
Qed.

(** The end of a disconnection, once the io is gone. *)
Lemma disconnect_run reconnect c w m a c' w' m' :
  obus_client_disconnect reconnect c w m = Some ((a, c'), w', m') ->
  client_ok c -> (reconnect = true -> c_sk c = true) ->
  client_ok c' /\ c_io c' = None /\ c_sk c' = reconnect /\
  c_state c' = if reconnect then STATE_CONNECTING else STATE_DISCONNECTED.
Proof.
  intros E C Hsk. unfold obus_client_disconnect in E.
  apply bind_inv in E as (st & c1 & w1 & m1 & [= <- <- <- <-] & E).
  apply bind_inv in E as ([] & c2 & w2 & m2 & [= <- <- <-] & E).
  apply bind_inv in E as (io & c3 & w3 & m3 & [= <- <- <- <-] & E).
  apply bind_inv in E as ([] & c4 & w4 & m4 & E4 & E).
  assert (c_io c4 = None /\ c_dbuf c4 = None /\ c_sk c4 = c_sk c /\ c_state c4 = STATE_DISCONNECTING) as (F1 & F2 & F3 & F4).
  { cbn in E4. destruct (c_io c) as [io|] eqn:Hio.
    - unfold on_cpool, on_io in E4.
      apply bind_inv in E4 as (db & d1 & ? & ? & [= <- <- <- <-] & E4).
      apply bind_inv in E4 as (buf & d2 & ? & ? & ->%bus_inv & E4).
      apply bind_inv in E4 as (r & d3 & ? & ? & E5 & E4).
      apply bind_inv in E5 as (pl & d4 & ? & ? & [= <- <- <- <-] & E5).
      apply bind_inv in E5 as ([r' pl'] & d5 & ? & ? & ->%bus_inv & E5).
      apply bind_inv in E5 as ([] & d6 & ? & ? & [= <- _ _] & [= _ <- _ _]).
      apply bind_inv in E4 as ([] & d7 & ? & ? & [= <- _ _] & E4).
      apply bind_inv in E4 as ([] & d8 & ? & ? & E5 & [= <- _ _]).
      apply bind_inv in E5 as (io' & d9 & ? & ? & [= <- <- <- <-] & E5).
      apply bind_inv in E5 as (io2 & d10 & ? & ? & ->%bus_inv & E5).
      apply bind_inv in E5 as (pl2 & d11 & ? & ? & [= <- <- <- <-] & E5).
      apply bind_inv in E5 as ([r2 io3] & d12 & ? & ? & ->%bus_inv & E5).
      by apply bind_inv in E5 as ([] & d13 & ? & ? & [= <- _ _] & [= _ <- _ _]).
    - injection E4 as <- <- <-. split_and!; [done| |done..].
      cbn. apply eq_None_not_Some. rewrite <- (ck_decoder _ C), Hio. by intros [? ?]. }
  apply bind_inv in E as ([] & c5 & w5 & m5 & E5 & E).
  assert (c_io c5 = None /\ c_dbuf c5 = None /\ c_sk c5 = reconnect /\ c_state c5 = STATE_DISCONNECTING) as (G1 & G2 & G3 & G4).
  { destruct reconnect; [|by injection E5 as <- <- <-].
    injection E5 as <- <- <-. split_and!; [done..| |done]. rewrite F3. by apply Hsk. }
  assert (client_ok c5) as C5.
  { split; rewrite ?G1, ?G2, ?G3, ?G4.
    - split; by intros [? ?].
    - by intros [?|?].
    - intros [[? ?]|?]; done.
    - by intros [?|?].
    - done. }
  apply bind_inv in E as ([] & c6 & w6 & m6 & E6 & [= _ <- _ _]).
  assert (client_ok c6 /\ calm c5 c6) as [C6 [K1 K2 K3 K4]].
  { destruct (bool_decide _); [|by injection E6 as <- _ _].
    by apply (disconnect_bus_keeps _ _ _ _ _ _ _ E6). }
  assert (c_io c6 = None) as Hio by (apply eq_None_not_Some; rewrite K4, G1; by intros [? ?]).
  cbn [c_io c_sk c_state set_cstate]. split_and!; [|done|by rewrite K2|done].
  destruct C6 as [A1 A2 A3 A4 A5]. split; cbn [c_io c_dbuf c_sk c_state set_cstate].
  - done.
  - destruct reconnect; by intros [?|?].
  - destruct reconnect; [intros _; by rewrite K2, G3|]. rewrite Hio. by intros [[? ?]|?].
  - destruct reconnect; [by intros [?|?]|]. intros _. by rewrite K2, G3.
  - by destruct reconnect.
Qed.

Lemma reconnect_keeps : keeps active anything (obus_client_disconnect true).
Proof.
  intros c w m a c' w' m' E (C & Hs & _). apply disconnect_run in E as (C' & _ & Hs' & Hst); [|done|done].
  split; [|done]. split; [done|]. split; [done|]. by rewrite Hst.
Qed.

#[local] Hint Resolve reconnect_keeps : keeps.
#[local] Hint Extern 2 (keeps active _ _) => apply quiet_active; eauto 2 with keeps : keeps.
#[local] Hint Extern 2 (keeps active_open _ _) => apply quiet_open; eauto 2 with keeps : keeps.

(** *** Packets *)

Lemma keeps_state st : st = STATE_CONNECTED \/ st = STATE_REFUSED ->
  keeps active_open anything (sv_modify (fun c => set_cstate c st)).
Proof.
  intros Hst c w m a c' w' m' [= _ <- _ _] [(C & Hsk & _) Hio]. split; [|done]. apply open_active; [|done].
  destruct C as [A1 A2 A3 A4 A5]. split; cbn; [done..| |]; destruct Hst as [-> | ->].
  all: first [by intros [?|?]|done].
Qed.

Lemma connection_response_keeps status objs :
  keeps active_open anything (obus_client_connection_response status objs).
Proof.
  unfold obus_client_connection_response. repeat first [apply keeps_state; by auto | keeps_step].
Qed.

Lemma client_packet_keeps info : keeps active_open anything (client_packet info).
Proof.
  pose proof connection_response_keeps. unfold client_packet.
  destruct info as [[]|]; eauto 2 with keeps; apply quiet_open; keeps.
Qed.

Lemma client_read_keeps fuel turns script : keeps active anything (client_read fuel turns script).
Proof.
  revert script. induction fuel as [|fuel IH]; intros script c w m a c' w' m' E C; [done|].
  split; [|done]. cbn [client_read] in E.
  apply bind_inv in E as (d & c1 & w1 & m1 & [= <- <- <- <-] & E).
  apply bind_inv in E as (db & c2 & w2 & m2 & [= <- <- <- <-] & E).
  apply bind_inv in E as (buf & c3 & w3 & m3 & [-> Hdb]%on_lift_run & E).
  apply bind_inv in E as (pl & c4 & w4 & m4 & [= <- <- <- <-] & E).
  apply bind_inv in E as (b & c5 & w5 & m5 & ->%bus_inv & E).
  apply bind_inv in E as ([[[[ret info] d'] b'] script'] & c6 & w6 & m6 & ->%bus_inv & E).
  apply bind_inv in E as ([] & c7 & w7 & m7 & [= <- <- <-] & E).
  assert (active_open (set_decoder (set_cpool c (set_buf (c_pool c) buf b')) d' (c_dbuf c))) as C7.
  { destruct C as (C & Hsk & Hst). split; [|apply (ck_decoder _ C); rewrite Hdb; by eexists].
    split; [|done]. by destruct C. }
  destruct (ret =? - EAGAIN); [injection E as _ <- _ _; apply C7|].
  destruct (failed ret); [by apply (reconnect_keeps _ _ _ _ _ _ _ E), C7|].
  eapply open_then_active; [apply client_packet_keeps| |destruct a; exact E|exact C7].
  intros []. destruct (ret =? 0); [apply IH|]. apply quiet_active. keeps.
Qed.

Lemma read_event_keeps fuel turns error readable :
  keeps active anything (obus_client_io_read_event fuel turns error readable).
Proof.
  pose proof client_read_keeps. unfold obus_client_io_read_event, ask. keeps.
Qed.

(** *** Completions *)

Lemma write_done_keeps status buf : keeps active anything (obus_client_io_write_done status buf).
Proof. unfold obus_client_io_write_done. keeps. Qed.
#[local] Hint Resolve write_done_keeps : keeps.

Lemma client_callbacks_keeps cs : keeps active anything (client_callbacks cs).
Proof. induction cs as [|[status buf] cs IH]; cbn; keeps. Qed.
#[local] Hint Resolve client_callbacks_keeps : keeps.

Lemma write_ready_keeps error ready : keeps active anything (client_write_ready error ready).
Proof. unfold client_write_ready, client_calls, ask. keeps; apply quiet_active; keeps. Qed.

Lemma write_timeout_keeps : keeps active anything client_write_timeout.
Proof. unfold client_write_timeout, client_calls. keeps. Qed.

(** *** The socket connects *)

(** The io is there, the decoder has no buffer yet. *)
Definition opening (c : obus_client) : Prop :=
  c_state c = STATE_CONNECTING /\ c_sk c = true /\ is_Some (c_io c) /\ c_dbuf c = None.

Lemma keeps_on_cpool {A} (I : obus_client -> Prop) (f : pool -> M (A * pool)) :
  (forall c pl, I c -> I (set_cpool c pl)) -> keeps I anything (on_cpool f).
Proof.
  intros H c w m a c' w' m' E C. unfold on_cpool in E. split; [|done].
  apply bind_inv in E as (pl & c1 & w1 & m1 & [= <- <- <- <-] & E).
  apply bind_inv in E as ([r pl'] & c2 & w2 & m2 & ->%bus_inv & E).
  apply bind_inv in E as ([] & c3 & w3 & m3 & [= <- _ _] & [= _ <- _ _]). by apply H.
Qed.

Lemma socket_connected_run c w m c' w' m' :
  obus_client_socket_connected c w m = Some ((tt, c'), w', m') ->
  client_ok c -> c_state c = STATE_CONNECTING -> c_io c = None -> active c'.
Proof.
  intros E C Hst Hio. unfold obus_client_socket_connected in E.
  assert (active c) as C0.
  { split; [done|]. split; [by apply (ck_socket _ C); right|]. by rewrite Hst. }
  apply bind_inv in E as (io & c1 & w1 & m1 & E1 & E).
  assert (calm c c1) as Hc.
  { assert (quiet obus_io_new) as Hk by (unfold obus_io_new, ask; keeps). by apply (Hk _ _ _ _ _ _ _ E1). }
  apply bind_inv in E as ([] & c2 & w2 & m2 & [= <- <- <-] & E).
  pose proof (calm_active _ _ Hc C0) as C1. destruct Hc as [K1 K2 K3 K4]. destruct io as [io|].
  2:{ eapply reconnect_keeps; [exact E|].
      assert (c_io c1 = None) as Hn by (apply eq_None_not_Some; rewrite K4, Hio; by intros [? ?]).
      replace (set_io c1 None) with c1; [done|]. destruct c1; cbn in *. by subst. }
  assert (opening (set_io c1 (Some io))) as C2.
  { split_and!; cbn; [by rewrite K1|rewrite K2; apply C0|by eexists|]. rewrite K3.
    apply eq_None_not_Some. rewrite <- (ck_decoder _ C), Hio. by intros [? ?]. }
  apply bind_inv in E as (buf & c3 & w3 & m3 & E3 & E).
  destruct (keeps_on_cpool opening obus_buffer_pool_peek ltac:(by intros) _ _ _ _ _ _ _ E3 C2) as [(D1 & D2 & D3 & D4) _].
  destruct buf as [buf|].
  2:{ exfalso. unfold obus_client_disconnect in E.
      apply bind_inv in E as (st & d1 & ? & ? & [= <- <- <- <-] & E).
      apply bind_inv in E as ([] & d2 & ? & ? & [= <- <- <-] & E).
      apply bind_inv in E as (io' & d3 & ? & ? & [= <- <- <- <-] & E). cbn [c_io set_cstate] in E.
      destruct D3 as [io3 D3]. rewrite D3 in E.
      apply bind_inv in E as ([] & d4 & ? & ? & E & _).
      apply bind_inv in E as (db & d5 & ? & ? & [= <- <- <- <-] & E).
      apply bind_inv in E as (b & d6 & ? & ? & [-> Hb]%on_lift_run & E). cbn [c_dbuf set_cstate] in Hb. congruence. }
  apply bind_inv in E as (d & c4 & w4 & m4 & E4 & E).
  destruct (keeps_on_cpool opening _ ltac:(by intros) _ _ _ _ _ _ _ E4) as [(F1 & F2 & F3 & F4) _]; [done|].
  apply bind_inv in E as ([] & c5 & w5 & m5 & [= <- <- <-] & E).
  assert (active (set_decoder c4 d (Some buf))) as C5.
  { split; [|split; [done|]; cbn; by rewrite F1]. split; cbn; rewrite ?F1, ?F2; [|done|done| |done].
    - split; [by eexists|done].
    - by intros [?|?]. }
  revert E C5. generalize (set_decoder c4 d (Some buf)) as c6. intros c6 E C5.
  assert (keeps active anything (client_unref buf;;
      ret ← obus_client_send_connection_request;
      if failed ret then obus_client_disconnect true else mret tt)) as Hk by keeps.
  by eapply Hk.
Qed.

(** ** Runs of a client *)

Inductive client_op :=
| ClStart (ret : Z)
| ClConnected
| ClRead (fuel turns : nat) (error readable : bool)
| ClWriteReady (error ready : bool)
| ClWriteTimeout
| ClCall (obj : positive) (desc : obus_method_desc) (args : option obus_struct) (cb : Z)
| ClCommit (event : positive)
| ClRegister (prov : positive)
| ClUnregister (prov : positive)
| ClDestroy.

Definition run_client (o : client_op) : CL unit :=
  match o with
  | ClStart ret => _ ← obus_client_start ret; mret tt
  | ClConnected => obus_client_socket_connected
  | ClRead fuel turns error readable => obus_client_io_read_event fuel turns error readable
  | ClWriteReady error ready => client_write_ready error ready
  | ClWriteTimeout => client_write_timeout
  | ClCall obj desc args cb => _ ← obus_client_call obj desc args cb; mret tt
  | ClCommit event => _ ← obus_client_commit_bus_event event; mret tt
  | ClRegister prov => _ ← obus_client_register_provider prov; mret tt
  | ClUnregister prov => _ ← obus_client_unregister_provider prov; mret tt
  | ClDestroy => _ ← obus_client_destroy; mret tt
  end.

(** When the loop and the application do what: the socket reports a connection
    while it is being set up, a descriptor is watched while its io exists, and a
    destroyed client is not used. *)
Definition client_op_ok (o : client_op) (c : obus_client) : Prop :=
  match o with
  | ClConnected => c_state c = STATE_CONNECTING /\ c_io c = None
  | ClRead _ _ _ _ | ClWriteReady _ _ | ClWriteTimeout => is_Some (c_io c)
  | _ => c_state c <> STATE_DISCONNECTED
  end.

Inductive client_reachable : obus_client -> Prop :=
| client_new name bus_name desc cb user_data loop_ok c w m w' m' :
    obus_client_new name bus_name desc cb user_data loop_ok w m = Some ((Some c, w'), m') ->
    client_reachable c
| client_run o c w m c' w' m' :
    client_reachable c -> client_op_ok o c -> run_client o c w m = Some ((tt, c'), w', m') ->
    client_reachable c'.

Definition settled (c : obus_client) : Prop := client_ok c /\ c_state c <> STATE_DISCONNECTING.

Lemma quiet_settled {A} (f : CL A) c w m a c' w' m' :
  quiet f -> f c w m = Some ((a, c'), w', m') -> settled c -> settled c'.
Proof.
  intros H E [C Hs]. destruct (H _ _ _ _ _ _ _ E C) as [C' [K _ _ _]]. split; [done|by rewrite K].
Qed.

Lemma open_settled {A} (f : CL A) c w m a c' w' m' :
  keeps active anything f -> f c w m = Some ((a, c'), w', m') -> settled c -> is_Some (c_io c) -> settled c'.
Proof.
  intros H E [C _] Hio. destruct (open_active c C Hio) as [Ca _].
  destruct (H _ _ _ _ _ _ _ E Ca) as [(C' & _ & Hs) _]. by split.
Qed.

Lemma start_settled ret c w m a c' w' m' :
  obus_client_start ret c w m = Some ((a, c'), w', m') -> settled c -> settled c'.
Proof.
  intros E [C Hs]. unfold obus_client_start in E.
  apply bind_inv in E as (st & c1 & w1 & m1 & [= <- <- <- <-] & E).
  destruct (bool_decide_reflect (c_state c = STATE_IDLE)) as [Hst|]; [|injection E as _ <- _ _; by split].
  cbn [negb] in E. destruct (failed ret); [injection E as _ <- _ _; by split|].
  apply bind_inv in E as ([] & c2 & w2 & m2 & [= <- _ _] & [= _ <- _ _]).
  split; [|done]. destruct C as [A1 A2 A3 A4 A5]. split; cbn; [done| |done| |done]; by intros [?|?].
Qed.

Lemma destroy_settled c w m a c' w' m' :
  obus_client_destroy c w m = Some ((a, c'), w', m') -> settled c -> settled c'.
Proof.
  intros E [C Hs]. unfold obus_client_destroy in E.
  apply bind_inv in E as ([] & c1 & w1 & m1 & E1 & E).
  apply disconnect_run in E1 as (C1 & Hio & Hsk & Hst); [|done|done].
  eapply quiet_settled in E; [exact E|keeps|]. split; [done|by rewrite Hst].
Qed.

Lemma run_client_settled o c w m c' w' m' :
  run_client o c w m = Some ((tt, c'), w', m') -> client_op_ok o c -> settled c -> settled c'.
Proof.
  intros E Hok C. destruct o; cbn [run_client] in E; cbn in Hok.
  - apply bind_inv in E as (r & c1 & w1 & m1 & E & [= <- _ _]). by eapply start_settled.
  - destruct Hok, C as [C _]. apply socket_connected_run in E as (C' & _ & ?); [|done..]. by split.
  - by eapply open_settled; [apply read_event_keeps|..].
  - by eapply open_settled; [apply write_ready_keeps|..].
  - by eapply open_settled; [apply write_timeout_keeps|..].
  - eapply quiet_settled; [|exact E|done]. keeps.
  - eapply quiet_settled; [|exact E|done]. keeps.
  - eapply quiet_settled; [|exact E|done]. unfold obus_client_register_provider. keeps.
  - eapply quiet_settled; [|exact E|done]. unfold obus_client_unregister_provider. keeps.
  - apply bind_inv in E as (r & c1 & w1 & m1 & E & [= <- _ _]). by eapply destroy_settled.
Qed.

Lemma new_settled name bus_name desc cb user_data loop_ok c w m w' m' :
  obus_client_new name bus_name desc cb user_data loop_ok w m = Some ((Some c, w'), m') -> settled c.
Proof.
  intros H. assert (c_state c = STATE_IDLE /\ c_io c = None /\ c_dbuf c = None /\ c_sk c = false) as (E1 & E2 & E3 & E4).
  { revert H. unfold obus_client_new, mbind, W_bind, mbind, M_bind, mret, W_ret, mret, M_ret, put_bus, w_modify.
    repeat (case_match; try done). all: by intros [= <- _ _]. }
  split; [|by rewrite E1]. split; rewrite ?E1, ?E2, ?E3, ?E4; try done.
  - by intros [?|?].
  - by intros [[? ?]|?].
Qed.

Lemma reachable_settled c : client_reachable c -> settled c.
Proof. induction 1; [by eapply new_settled|by eapply run_client_settled]. Qed.

(** C10: in every state a client can reach, whatever the server sends, whatever
    fails and whatever the callbacks do through the interface: the io and the
    buffer of its decoder exist together, a connected or refused client has
    them, the socket is there as long as the io is or a connection is awaited,
    and a client that is not started or is destroyed holds none of them; the
    state DISCONNECTING is left before the loop runs again. *)
Theorem client_connection_invariant c :
  client_reachable c ->
  (is_Some (c_io c) <-> is_Some (c_dbuf c)) /\
  (c_state c = STATE_CONNECTED \/ c_state c = STATE_REFUSED -> is_Some (c_io c)) /\
  (is_Some (c_io c) \/ c_state c = STATE_CONNECTING -> c_sk c = true) /\
  (c_state c = STATE_IDLE \/ c_state c = STATE_DISCONNECTED -> c_sk c = false /\ c_io c = None) /\
  c_state c <> STATE_DISCONNECTING.
Proof.
  intros [[A1 A2 A3 A4 A5] Hs]%reachable_settled. split_and!; [done..| |done]. intros H. split; [by apply A4|].
  destruct (c_io c) as [io|] eqn:E; [|done]. pose proof (A4 H).
  assert (c_sk c = true) by (apply A3; left; by eexists). congruence.
Qed.
End Ops.

(** ** Applications that answer every callback with calls to the interface *)

Section Scripted.
Context {AL : Allocator} {KE : Kernel}.

(** What may be called inside a callback: everything but the start and the
    destruction of the client. *)
Inductive client_api :=
| ApiCall (obj : positive) (desc : obus_method_desc) (args : option obus_struct) (cb : Z)
| ApiCommit (event : positive)
| ApiProvider (prov : positive)
| ApiUnprovider (prov : positive).

Definition run_client_api `{CC : ClientCode} (o : client_api) : CL unit :=
  match o with
  | ApiCall obj desc args cb => _ ← obus_client_call obj desc args cb; mret tt
  | ApiCommit event => _ ← obus_client_commit_bus_event event; mret tt
  | ApiProvider prov => _ ← obus_client_register_provider prov; mret tt
  | ApiUnprovider prov => _ ← obus_client_unregister_provider prov; mret tt
  end.

Fixpoint run_client_apis `{CC : ClientCode} (l : list client_api) : CL unit :=
  match l with
  | [] => mret tt
  | o :: l' => run_client_api o;; run_client_apis l'
  end.

(** Each callback runs the calls of a script, which depends on the function and
    on what it is called for; the callbacks made by these calls run theirs, down
    to [n] callbacks inside each other. *)
Fixpoint scripted_client (script : Z -> positive -> list client_api) (n : nat) : ClientCode :=
  match n with
  | O => {| bus_event_cb _ _ _ := mret tt; prov_add _ _ _ _ := mret tt;
            prov_remove _ _ _ _ := mret tt; prov_event _ _ _ _ _ := mret tt |}
  | S n' =>
    let CC := scripted_client script n' in
    {| bus_event_cb cb ev _ := run_client_apis (script cb ev);
       prov_add cb obj _ _ := run_client_apis (script cb obj);
       prov_remove cb obj _ _ := run_client_apis (script cb obj);
       prov_event cb _ evt _ _ := run_client_apis (script cb evt) |}
  end.

Lemma run_client_apis_keeps `{CC : ClientCode, !LawfulClient CC} l :
  keeps client_ok calm (run_client_apis l).
Proof.
  pose proof call_keeps. pose proof commit_bus_event_keeps.
  induction l as [|o l IH]; cbn; [keeps|]. keeps_step; [|keeps].
  destruct o; cbn; unfold obus_client_register_provider, obus_client_unregister_provider; keeps.
Qed.

#[export] Instance scripted_client_lawful script n : LawfulClient (scripted_client script n).
Proof.
  induction n as [|n IH]; constructor; intros; cbn; first [by apply run_client_apis_keeps|apply (keeps_ret client_ok calm)].
Qed.
End Scripted.

Section Witnesses.
#[local] Existing Instance ample_alloc.

Definition wit_client_desc : obus_bus_desc :=
  BusDesc [wit_object] [BusEventDesc 41 1; BusEventDesc 42 2; BusEventDesc 43 3] 77.

(** The server accepts the connection and announces no object; nothing follows. *)
Definition wit_accept : list Z := packet_wire OBUS_PKT_CONRESP [OBUS_CONRESP_ACCEPTED; 0; 0; 0; 0].
#[local] Instance wit_client_kernel : Kernel := {
  k_write n := [Accepted 65536; WriteError EAGAIN];
  k_read n := [Incoming wit_accept; ReadError EAGAIN];
  k_rand n := [7];
  k_ok n := true
}.

(** On every callback the application commits what it is called for. *)
Definition wit_client_script (cb : Z) (p : positive) : list client_api := [ApiCommit p].
#[local] Instance wit_client_code : ClientCode := scripted_client wit_client_script 2.
#[local] Instance wit_client_lawful : LawfulClient wit_client_code := scripted_client_lawful wit_client_script 2.

Definition wit_client_w : world := set_next_addr wit_world 100.
Definition wit_client_new : option (obus_client * world * mem) :=
  match obus_client_new (CHeap 1) CNull wit_client_desc 5 0 true wit_client_w wit_mem with
  | Some ((Some c, w), m) => Some (c, w, m) | _ => None end.
Definition wit_client_run (o : client_op) (r : option (obus_client * world * mem)) :=
  match r with
  | Some (c, w, m) => match run_client o c w m with Some ((_, c'), w', m') => Some (c', w', m') | None => None end
  | None => None
  end.

Definition wit_connected : option (obus_client * world * mem) :=
  wit_client_run (ClRead 3 5 false true) (wit_client_run ClConnected (wit_client_run (ClStart 0) wit_client_new)).

Definition is_state (st : obus_client_state) (r : option (obus_client * world * mem)) : bool :=
  match r with Some (c, _, _) => bool_decide (c_state c = st) | None => false end.

(** The operations of the run are called when the loop and the user may call them. *)
Definition op_ok_b (o : client_op) (c : obus_client) : bool :=
  match o with
  | ClConnected => bool_decide (c_state c = STATE_CONNECTING) && match c_io c with None => true | _ => false end
  | ClRead _ _ _ _ | ClWriteReady _ _ | ClWriteTimeout => match c_io c with None => false | _ => true end
  | _ => negb (bool_decide (c_state c = STATE_DISCONNECTED))
  end.
Definition ok_in (o : client_op) (r : option (obus_client * world * mem)) : bool :=
  match r with Some (c, _, _) => op_ok_b o c | None => false end.

Lemma op_ok_b_ok o c : op_ok_b o c = true -> client_op_ok o c.
Proof.
  destruct o; cbn; try (intros H%negb_true_iff%bool_decide_eq_false; exact H);
    destruct (c_io c); rewrite ?andb_true_r, ?andb_false_r; try done; by intros ?%bool_decide_eq_true.
Qed.

Lemma wit_client_reachable o r c w m :
  (forall c w m, r = Some (c, w, m) -> client_reachable c) -> ok_in o r = true ->
  wit_client_run o r = Some (c, w, m) -> client_reachable c.
Proof.
  intros H Hok. destruct r as [[[c0 w0] m0]|]; [|done]. cbn.
  destruct (run_client o c0 w0 m0) as [[[[[] c1] w1] m1]|] eqn:E; [|done]. intros [= -> -> ->].
  eapply client_run; [by eapply H|by apply op_ok_b_ok|exact E].
Qed.

Lemma wit_connected_reachable c w m : wit_connected = Some (c, w, m) -> client_reachable c.
Proof.
  apply wit_client_reachable; [|vm_compute; reflexivity]. intros ? ? ?.
  apply wit_client_reachable; [|vm_compute; reflexivity]. intros ? ? ?.
  apply wit_client_reachable; [|vm_compute; reflexivity]. intros c9 w9 m9. unfold wit_client_new.
  destruct (obus_client_new (CHeap 1) CNull wit_client_desc 5 0 true wit_client_w wit_mem)
    as [[[[c8|] w8] m8]|] eqn:E; [|done..].
  intros [= -> _ _]. by eapply client_new.
Qed.

Lemma client_connection_invariant_witness :
  exists c w m, wit_connected = Some (c, w, m) /\ c_state c = STATE_CONNECTED /\ is_Some (c_io c) /\ c_sk c = true.
Proof.
  assert (is_state STATE_CONNECTED wit_connected = true) as Hrun by (vm_compute; reflexivity).
  destruct wit_connected as [[[c w] m]|] eqn:E; [|discriminate Hrun]. apply bool_decide_eq_true in Hrun.
  pose proof (wit_connected_reachable _ _ _ E) as Hr. exists c, w, m.
  destruct (client_connection_invariant c Hr) as (_ & Ho & Hs & _).
  split; [exact eq_refl|]. split; [exact Hrun|]. split; [by apply Ho; left|]. apply Hs. left. by apply Ho; left.
Defined.
End Witnesses.
