(* ===== verification/ClientCall.v ===== *)
(** * Calls of a client and their acknowledgments

    A call either reaches the stream of the client as a CALL packet, under a
    handle that was free, or it fails and leaves the registry of calls as it was;
    the acknowledgment of the server finishes exactly the call it names. *)
From S2P Require Import Prelude Mem Cstring Buffer Pool Desc Field Struct Hash BusApi World Bus Object Event Call BusEvent Teardown CallFacts Io Packet Handler ServerFacts ServerSend ClientState Client ClientFacts.

Section Ack.
Context {AL : Allocator}.

(** C12: an acknowledgment finishes the call whose handle it carries: the call
    leaves the registry and is freed, its status handler is called once, with the
    object, the handle and the status of the acknowledgment (not at all when the
    caller gave none), and no other call is touched; an acknowledgment with an
    unknown handle changes nothing.  No step of it is undefined. *)
Theorem ack_finishes_call ack w m :
  registry_wf w m -> (forall p c, p ∈ b_calls (w_bus w) -> w_calls w !! p = Some c -> cl_args c = None) ->
  wpw (obus_client_ack ack)
      (fun _ w' m' => registry_wf w' m' /\
         match reg (b_calls_hash (w_bus w)) !! ack_handle ack with
         | None => w' = w
         | Some p => exists c, w_calls w !! p = Some c /\ cl_handle c = ack_handle ack /\
             call_finished p c (ack_status ack) w w'
         end) w m.
Proof.
  intros R Hargs. unfold obus_client_ack. apply wpw_bind, wp_bus_call; [apply R|].
  destruct (reg (b_calls_hash (w_bus w)) !! ack_handle ack) as [p|] eqn:E; [|by apply wpw_ret].
  destruct (cw_reg _ _ (rw_calls _ _ R) _ _ E) as (_ & Hin & c & Hc & Hh).
  eapply wpw_mono; [by apply (wp_finish_call p c); [..|by apply (Hargs p)]|].
  intros [] w' m' [R' HF]. split; [done|]. by exists c.
Qed.
End Ack.

(** ** The stream of a client *)

(** The io of a client; [held] are the buffers used by the decoder and by the
    running operation. *)
Record sender (held : list positive) (c : obus_client) (io : obus_io) : Prop := {
  se_io : c_io c = Some io;
  se_wf : io_wf held (with_pool io (c_pool c))
}.

(** What the server has received or will receive. *)
Definition client_out (c : obus_client) : list Z :=
  match c_io c with
  | Some io => io_wire io ++ pending (with_pool io (c_pool c))
  | None => []
  end.

(** The connection and its stream stay; the pool, the questions asked of the
    kernel and the bookkeeping of the io may change. *)
Record same_line (c c' : obus_client) : Prop := {
  sl_state : c_state c' = c_state c;
  sl_name : c_name c' = c_name c;
  sl_dbuf : c_dbuf c' = c_dbuf c;
  sl_decoder : c_decoder c' = c_decoder c
}.

#[export] Instance same_line_preorder : PreOrder same_line.
Proof. split; [by intros c; split|]. intros c1 c2 c3 [] []. split; by etransitivity. Qed.

Section Stream.
Context {AL : Allocator} {KE : Kernel} `{!BlockingKernel KE}.

(** One more buffer held. *)
Lemma held_cons (b q : positive) l :
  b ∉ l -> (if decide (q ∈ b :: l) then 1 else 0) = (if decide (q ∈ l) then 1 else 0) + (if decide (b = q) then 1 else 0).
Proof.
  intros Hb. destruct (decide (b = q)) as [<-|Hn].
  - rewrite decide_True by by left. by rewrite decide_False.
  - destruct (decide (q ∈ l)) as [H|H]; [by rewrite decide_True by by right|].
    rewrite decide_False; [done|]. by intros [->|?]%elem_of_cons.
Qed.

(** A buffer nobody refers to is in no queue and not held. *)
Lemma sender_unreferenced held c io b :
  sender held c io -> refs (c_pool c) b = 0 -> b ∉ io_write_buffers io /\ b ∉ held.
Proof.
  intros [_ W] Hr. pose proof (iw_refs _ _ W b) as H. cbn in H. rewrite Hr in H.
  pose proof (occurrences_pos b (io_write_buffers io)). split; intros Hb.
  - pose proof (occurrences_elem _ _ Hb). case_decide; lia.
  - rewrite decide_True in H by done. lia.
Qed.

(** Another pool with the same contents in the queue. *)
Lemma sender_pool held held' c io pl :
  sender held c io -> pool_wf pl ->
  (forall b, occurrences b (io_write_buffers io) + (if decide (b ∈ held') then 1 else 0) <= refs pl b) ->
  (forall b, b ∈ io_write_buffers io -> content pl b = content (c_pool c) b) ->
  sender held' (set_cpool c pl) io /\ client_out (set_cpool c pl) = client_out c.
Proof.
  intros [Hio [W1 W2 W3 W4]] Wp Hr Hc. split.
  - split; [done|]. constructor; cbn; [done|done|done|]. cbn in W4. destruct (io_write_buffers io) as [|q l]; [done|].
    rewrite Hc; [done|by left].
  - unfold client_out. cbn. rewrite Hio. f_equal. apply pending_ext; [done..|]. exact Hc.
Qed.

Lemma wps_client_peek held c io w m (Q : option positive -> obus_client -> world -> mem -> Prop) :
  sender held c io ->
  (forall m', same_blocks m m' -> refused (BUFFER_STRUCT_SIZE + pl_buffsize (c_pool c)) -> Q None c w m') ->
  (forall b pl m', same_blocks m m' -> sender (b :: held) (set_cpool c pl) io ->
     client_out (set_cpool c pl) = client_out c -> refs pl b = 1 -> b ∉ held -> b ∉ io_write_buffers io ->
     Q (Some b) (set_cpool c pl) w m') ->
  wps client_peek Q c w m.
Proof.
  intros S H1 H2. unfold client_peek. apply wps_cpool, wp_peek_full; [apply S| |]; cbn [fst snd].
  - intros m' Hm Hf. replace (set_cpool c (c_pool c)) with c by by destruct c. by apply H1.
  - intros b pl m' Hm HW Hb Hr Hc. destruct (sender_unreferenced _ _ _ _ S Hb) as [Hu1 Hu2].
    destruct (sender_pool held (b :: held) c io pl S HW) as [S' Hout].
    + intros q. rewrite Hr. pose proof (iw_refs _ _ (se_wf _ _ _ S) q) as Hq. cbn in Hq.
      rewrite held_cons by done. destruct (decide (b = q)) as [->|Hn]; [rewrite Hb in Hq|]; lia.
    + intros q Hq. apply Hc. by intros ->.
    + apply H2; try done. by rewrite Hr, decide_True.
Qed.

Lemma wps_client_unref held c io b w m (Q : unit -> obus_client -> world -> mem -> Prop) :
  sender (b :: held) c io -> b ∉ held -> b ∉ io_write_buffers io ->
  (forall pl, sender held (set_cpool c pl) io -> client_out (set_cpool c pl) = client_out c ->
     Q tt (set_cpool c pl) w m) ->
  wps (client_unref b) Q c w m.
Proof.
  intros S Hh Hq HQ. unfold client_unref. apply wps_bind, wps_cpool.
  assert (forall q, occurrences q (io_write_buffers io) + (if decide (q ∈ b :: held) then 1 else 0) <= refs (c_pool c) q)
    as Hr by apply (se_wf _ _ _ S).
  pose proof (Hr b) as Hb. rewrite held_cons, (decide_True (P := b = b)), (decide_False (P := b ∈ held)) in Hb by done. pose proof (occurrences_pos b (io_write_buffers io)).
  apply wp_unref_full; [apply S|lia|]. intros pl W Hr' Hc. cbn [fst snd]. apply wps_ret.
  destruct (sender_pool (b :: held) held c io pl S W) as [S' Hout]; [|intros; apply Hc|by apply HQ].
  intros q. rewrite Hr'. pose proof (Hr q) as Hrq. rewrite held_cons in Hrq by done. lia.
Qed.

Lemma wps_client_encode held c io buf enc type bs w m (Q : Z -> obus_client -> world -> mem -> Prop) :
  sender (buf :: held) c io -> refs (c_pool c) buf = 1 -> buf ∉ io_write_buffers io -> frames type bs enc w m ->
  (forall code pl m', same_blocks m m' -> sender (buf :: held) (set_cpool c pl) io ->
     client_out (set_cpool c pl) = client_out c ->
     (code = 0 /\ content pl buf = packet_wire type bs \/ code = - ENOMEM /\ refused (packet_size bs)) ->
     Q code (set_cpool c pl) w m') ->
  wps (client_encode buf enc) Q c w m.
Proof.
  intros S Hr Hq HF HQ. unfold client_encode. apply wps_bind, wps_gets, wps_bind, wps_mem.
  pose proof (iw_pool _ _ (se_wf _ _ _ S)) as Wp. cbn in Wp.
  destruct (refs_buf _ _ Wp ltac:(by rewrite Hr)) as (b & Hb & Wb).
  assert (buf_refcnt b = 1) as Hc by (revert Hr; unfold refs; by rewrite Hb).
  eapply wp_get_buf; [exact Hb|]. apply wps_bind, wps_bus.
  eapply wpw_mono; [apply (HF b m); done|]. intros [code b'] w' m' (-> & Hm & Wb' & _ & Hc' & Hcode).
  cbn [fst snd] in *. apply wps_bind, wps_modify, wps_ret.
  assert (forall q, refs (set_buf (c_pool c) buf b') q = refs (c_pool c) q) as Hrefs.
  { intros q. rewrite refs_set_buf. case_decide; subst; [by rewrite Hr, Hc', Hc|done]. }
  destruct (sender_pool (buf :: held) (buf :: held) c io (set_buf (c_pool c) buf b') S) as [S' Hout].
  - apply pool_wf_use; [done|by rewrite Hr|done|by rewrite Hr, Hc', Hc].
  - intros q. rewrite Hrefs. apply (iw_refs _ _ (se_wf _ _ _ S)).
  - intros q Hin. unfold content, set_buf. cbn. rewrite lookup_insert_ne; [done|]. by intros <-.
  - apply HQ; [done..|]. destruct Hcode as [[? Hbytes]|?]; [left|by right]. split; [done|].
    unfold content, set_buf. cbn. by rewrite lookup_insert_eq.
Qed.

(** The write is complete, or queued, or it failed. *)
Lemma wps_client_write held c io buf w m (Q : Z -> obus_client -> world -> mem -> Prop) :
  sender (buf :: held) c io -> buf ∉ held -> buf ∉ io_write_buffers io ->
  (forall code c' io' m', same_blocks m m' -> code <= 0 -> same_line c c' ->
     sender (if decide (code = - EAGAIN) then held else buf :: held) c' io' ->
     (code <> - EAGAIN -> buf ∉ io_write_buffers io') ->
     (code = 0 \/ code = - EAGAIN -> client_out c' = client_out c ++ content (c_pool c) buf) ->
     (soft (k_write (c_tick c)) -> AmpleMemory AL -> code = 0 \/ code = - EAGAIN) ->
     Q code c' w m') ->
  wps (client_write buf) Q c w m.
Proof.
  intros S Hh Hq HQ. unfold client_write. apply wps_bind, wps_gets. rewrite (se_io _ _ _ S).
  apply wps_bind, wps_ask. cbn [tick with_tick client_ticking]. set (script := k_write (c_tick c)).
  set (c1 := set_ctick c _). eapply wps_on_io; [exact (se_io _ _ _ S)|].
  change (c_pool c1) with (c_pool c). set (iop := with_pool io (c_pool c)).
  assert (io_wf [buf] iop) as IW.
  { destruct (se_wf _ _ _ S) as [W1 W2 W3 W4]. constructor; [done| |done|done]. intros b. specialize (W2 b).
    cbn in W2 |- *. rewrite held_cons in W2 by done. rewrite held_cons by apply not_elem_of_nil.
    rewrite (decide_False (P := b ∈ [])) by apply not_elem_of_nil. destruct (decide (b ∈ held)); lia. }
  eapply wp_bind_mono; [apply wp_io_write_sent; [exact IW|apply k_blocks]|].
  intros [[code io'] script'] m' [Hm SP]. cbn [fst snd] in SP. apply wp_ret. cbn [fst snd].
  destruct SP as (P1 & P2 & P3 & P4 & P5 & P6 & P7 & P8 & P9).
  assert (io_wf (if decide (code = - EAGAIN) then held else buf :: held) io') as IW'.
  { destruct (se_wf _ _ _ S) as [W1 W2 W3 W4]. constructor; [done| |apply P6|apply P6].
    intros b. rewrite P5, P3. specialize (W2 b). cbn in W2 |- *. unfold op_queued. rewrite occurrences_app.
    destruct (Z.eqb_spec code (- EAGAIN)) as [->|Hne].
    - rewrite (decide_True (P := - EAGAIN = - EAGAIN)) by done. cbn [op_buffer].
      rewrite occurrences_cons. unfold occurrences at 2. cbn.
      rewrite held_cons in W2 by done.
      destruct (decide (buf = b)); [rewrite (decide_True (P := - EAGAIN = - EAGAIN /\ buf = b)) by done|
        rewrite (decide_False (P := - EAGAIN = - EAGAIN /\ buf = b)) by tauto]; lia.
    - rewrite (decide_False (P := code = - EAGAIN)) by done. unfold occurrences at 2. cbn.
      rewrite (decide_False (P := code = - EAGAIN /\ buf = b)) by tauto. lia. }
  apply (HQ code _ io'); try done.
  - split; [done|]. cbn. by destruct io'.
  - intros Hne. rewrite P5. unfold op_queued. rewrite (proj2 (Z.eqb_neq _ _) Hne), app_nil_r. done.
  - intros Hc. unfold client_out. rewrite (se_io _ _ _ S). cbn. fold iop. change (content (c_pool c) buf) with (content (io_pool iop) buf).
    replace (with_pool io' (io_pool io')) with io' by by destruct io'. rewrite (P7 Hc). cbn. by rewrite app_assoc.
Qed.
End Stream.

(** ** Calls *)

(** The arguments of a call and their bytes. *)
Definition args_wire (m : mem) (desc : obus_method_desc) (args : option obus_struct) (bs : list Z) : Prop :=
  match md_args_desc desc, args with
  | None, _ => bs = []
  | Some d, Some st => struct_shape (Struct d (st_mem st)) /\
      exists cs, struct_denotes m (Struct d (st_mem st)) cs /\ contents_ok d cs /\ bs = struct_wire d cs
  | Some _, None => False
  end.

(** The payload of a CALL packet. *)
Definition call_wire (o : obus_object) (desc : obus_method_desc) (handle : Z) (bs : list Z) : list Z :=
  be_bytes 2 (od_uid (ob_desc o)) ++ be_bytes 2 (ob_handle o) ++ be_bytes 2 (md_uid desc) ++
  be_bytes 2 handle ++ be_bytes 4 (Z.of_nat (length bs)) ++ bs.

(** A new call, under a handle. *)
Definition new_call (obj : positive) (desc : obus_method_desc) (cb handle : Z) (args : option obus_struct) : obus_call :=
  Call desc obj handle None OBUS_CALL_INVALID (md_args_desc desc)
    (match md_args_desc desc, args with
     | None, _ => None
     | Some d, Some st => Some (Struct d (st_mem st))
     | Some d, None => Some (calloc_struct d)
     end) cb.

(** The registry of calls, the calls and what the handlers were told. *)
Record no_call (w w' : world) : Prop := {
  nc_reg : reg (b_calls_hash (w_bus w')) = reg (b_calls_hash (w_bus w));
  nc_list : b_calls (w_bus w') = b_calls (w_bus w);
  nc_calls : w_calls w' = w_calls w;
  nc_notes : w_notes w' = w_notes w;
  nc_objs : w_objs w' = w_objs w
}.

Section Calls.
Context {AL : Allocator} {KE : Kernel} {CC : ClientCode} `{!BlockingKernel KE}.

Lemma emits_call m o obj desc cb handle args bs :
  args_wire m desc args bs -> Z.of_nat (length bs) < 2 ^ 32 ->
  emits m (obus_call_encode o (new_call obj desc cb handle args)) (call_wire o desc handle bs).
Proof.
  intros Ha Hl. unfold obus_call_encode, call_wire.
  do 4 (apply (emits_seq m (fun b => obus_buffer_append_u16 b _)); [apply emits_append_u16|]).
  apply emits_sized; [|done]. unfold encode_args, new_call. cbn. unfold args_wire in Ha.
  destruct (md_args_desc desc) as [d|]; [|subst bs; apply emits_ret].
  destruct args as [st|]; [|done]. destruct Ha as (S & cs & D & C & ->). by apply (emits_struct_encode m (Struct d (st_mem st))).
Qed.

Lemma frames_call w m p obj o desc cb handle args bs :
  w_calls w !! p = Some (new_call obj desc cb handle args) -> w_objs w !! obj = Some o ->
  args_wire m desc args bs -> packet_size (call_wire o desc handle bs) < 2 ^ 32 ->
  frames OBUS_PKT_CALL (call_wire o desc handle bs) (fun b => obus_packet_call_encode b p) w m.
Proof.
  intros Hc Ho Ha Hs b m1 Hm Wb. unfold obus_packet_call_encode.
  apply wpw_bind. eapply wpw_lookup; [exact Hc|]. apply wpw_bind. eapply wpw_lookup; [exact Ho|].
  apply (frames_encode OBUS_PKT_CALL (call_wire o desc handle bs) _ w m); [unfold is_byte, OBUS_PKT_CALL; lia|done| |done|done].
  apply emits_call; [done|]. revert Hs. unfold packet_size, call_wire, OBUS_PKT_HDR_SIZE. rewrite !length_app. lia.
Qed.

(** *** Giving a call up *)

Lemma wp_drop_call p c w m :
  registry_wf w m -> w_calls w !! p = Some c -> p ∉ b_calls (w_bus w) ->
  wpw (drop_call p) (fun _ w' m' => registry_wf w' m' /\ w' = set_calls w (delete p (w_calls w))) w m.
Proof.
  intros R Hc Hp. unfold drop_call, detach_args. apply wpw_bind, wpw_bind. eapply wpw_lookup; [exact Hc|].
  apply wpw_modify, wpw_bind. eapply wp_call_destroy; [cbn; by rewrite lookup_insert_eq|done|].
  apply wpw_ret. split.
  - apply (registry_call_alter w m p); [done..|lia|]. intros q Hq. cbn. by rewrite delete_insert_eq, lookup_delete_ne.
  - unfold set_calls. cbn. by rewrite delete_insert_eq.
Qed.

Lemma wp_cancel_call p c w m :
  registry_wf w m -> w_calls w !! p = Some c -> p ∈ b_calls (w_bus w) ->
  wpw (cancel_call p) (fun _ w' m' => registry_wf w' m' /\
     reg (b_calls_hash (w_bus w')) = delete (cl_handle c) (reg (b_calls_hash (w_bus w))) /\
     b_calls (w_bus w') = filter (fun q => q <> p) (b_calls (w_bus w)) /\
     w_calls w' = delete p (w_calls w) /\ w_notes w' = w_notes w /\ w_objs w' = w_objs w) w m.
Proof.
  intros R Hc Hp. unfold cancel_call. apply wpw_bind.
  eapply wpw_mono; [apply wpw_keeps; [apply unregister_call_frame|by apply (wp_unregister_call p c); [done|done|left]]|].
  intros ret w1 m1 ((R1 & E1 & Hr & _ & Hw) & [F1 F2 F3 F4 F5]). destruct (Hw (Hr Hp)) as (h' & Hreg & Hbus).
  assert (p ∉ b_calls (w_bus w1)) as Hp1 by (rewrite Hbus; cbn; intros [Hn _]%list_elem_of_filter; done).
  apply wpw_bind. eapply wpw_lookup; [by rewrite E1|]. apply wpw_bind, wpw_modify.
  set (w2 := set_calls w1 _).
  assert (registry_wf w2 m1) as R2.
  { apply (registry_call_alter w1 m1 p); [done..|lia|]. intros q Hq. by rewrite lookup_insert_ne. }
  eapply wpw_mono; [eapply (wp_drop_call p); [exact R2|cbn; by rewrite lookup_insert_eq|done]|].
  intros [] w' m' [R' ->]. split; [done|]. cbn. rewrite Hbus, delete_insert_eq, E1, F1, F5. done.
Qed.
End Calls.

(** The new call [cl] is registered under [handle], nothing else changes. *)
Record call_added (p : positive) (handle : Z) (cl : obus_call) (w w' : world) : Prop := {
  ca_reg : reg (b_calls_hash (w_bus w')) = <[handle := p]> (reg (b_calls_hash (w_bus w)));
  ca_list : b_calls (w_bus w') = b_calls (w_bus w) ++ [p];
  ca_calls : w_calls w' = <[p := cl]> (w_calls w);
  ca_notes : w_notes w' = w_notes w;
  ca_objs : w_objs w' = w_objs w
}.

Section Call.
Context {AL : Allocator} {KE : Kernel} {CC : ClientCode} `{!BlockingKernel KE}.

Lemma added_then_cancelled p handle cl w w1 m1 :
  call_added p handle cl w w1 -> cl_handle cl = handle -> registry_wf w1 m1 ->
  reg (b_calls_hash (w_bus w)) !! handle = None -> w_calls w !! p = None -> p ∉ b_calls (w_bus w) ->
  wpw (cancel_call p) (fun _ w' m' => registry_wf w' m' /\ no_call w w') w1 m1.
Proof.
  intros [A1 A2 A3 A4 A5] Hh R Hfree Hp Hin.
  eapply wpw_mono; [apply (wp_cancel_call p cl); [done|by rewrite A3, lookup_insert_eq|]|].
  { rewrite A2. apply elem_of_app. right. by left. }
  intros [] w' m' (R' & E1 & E2 & E3 & E4 & E5). split; [done|]. split.
  - rewrite E1, A1, Hh, delete_insert_eq, delete_id; done.
  - rewrite E2, A2, filter_app, filter_cons_False, filter_nil, app_nil_r by (intros Hn; by apply Hn).
    apply filter_all. by intros q Hq ->.
  - by rewrite E3, A3, delete_insert_eq, delete_id.
  - by rewrite E4.
  - by rewrite E5.
Qed.

(** What [send_call] and [obus_client_call] leave behind. *)
Definition call_done (held : list positive) (p : positive) (cl : Z -> obus_call) (wire : Z -> list Z)
    (c : obus_client) (w : world) (r : Z * option Z) (c' : obus_client) (w' : world) (m' : mem) : Prop :=
  registry_wf w' m' /\ same_line c c' /\ (exists io', sender held c' io') /\
  match r with
  | (0, Some handle) =>
      handle <> OBUS_INVALID_HANDLE /\ reg (b_calls_hash (w_bus w)) !! handle = None /\
      call_added p handle (cl_with_args (cl handle) None) w w' /\
      client_out c' = client_out c ++ packet_wire OBUS_PKT_CALL (wire handle)
  | (code, None) => code < 0 /\ no_call w w'
  | _ => False
  end.

Lemma call_failed held p cl wire c w code c' w' m' io' :
  registry_wf w' m' -> same_line c c' -> sender held c' io' -> code < 0 -> no_call w w' ->
  call_done held p cl wire c w (code, None) c' w' m'.
Proof. intros. split_and!; [done..|by exists io'|]. by destruct code. Qed.

(** The call goes when it cannot be sent. *)
Lemma wps_call_cancelled held p handle cl wire (P Q R : Prop) c c' io' w w1 m1 m' code :
  call_added p handle (cl handle) w w1 -> cl_handle (cl handle) = handle -> registry_wf w1 m1 ->
  reg (b_calls_hash (w_bus w)) !! handle = None -> w_calls w !! p = None -> p ∉ b_calls (w_bus w) ->
  code < 0 -> same_line c c' -> sender held c' io' -> same_blocks m1 m' -> ~ (P /\ Q /\ R) ->
  wps (on_bus (cancel_call p);; mret (code, None)) (fun r c' w' m' =>
    call_done held p cl wire c w r c' w' m' /\ (P -> Q -> R -> fst r = 0)) c' w1 m'.
Proof.
  intros A Hh RW Hfree Hp Hin Hc Hl S' Hm HP. apply wps_bind, wps_bus.
  assert (registry_wf w1 m') by (eapply registry_later; [exact RW|apply Hm]).
  eapply wpw_mono; [by apply (added_then_cancelled p handle (cl handle) w)|].
  intros [] w' m2 [R' HN]. apply wps_ret. split; [by eapply call_failed|]. intros ? ? ?. by destruct HP.
Qed.

(** The call was sent: its arguments go back to the caller. *)
Lemma wps_call_sent held p handle obj desc cb args wire (P Q R : Prop) c c' io' w w1 m1 m' :
  let cl h := new_call obj desc cb h args in
  call_added p handle (cl handle) w w1 -> registry_wf w1 m1 -> handle <> OBUS_INVALID_HANDLE ->
  reg (b_calls_hash (w_bus w)) !! handle = None -> same_blocks m1 m' -> same_line c c' -> sender held c' io' ->
  client_out c' = client_out c ++ packet_wire OBUS_PKT_CALL (wire handle) ->
  wps (call ← on_bus (get_call p); on_bus (detach_args p);; mret (0, Some (cl_handle call)))
    (fun r c' w' m' => call_done held p cl wire c w r c' w' m' /\ (P -> Q -> R -> fst r = 0)) c' w1 m'.
Proof.
  intros cl A RW Hz Hfree Hm Hl S' Hout.
  assert (w_calls w1 !! p = Some (cl handle)) as Hcl by (rewrite (ca_calls _ _ _ _ _ A); by rewrite lookup_insert_eq).
  apply wps_bind, wps_bus. eapply wpw_lookup; [exact Hcl|].
  unfold detach_args. apply wps_bind, wps_bus, wpw_bind. eapply wpw_lookup; [exact Hcl|]. apply wpw_modify, wps_ret.
  split; [|done]. unfold call_done. cbn [cl_handle cl new_call]. split_and!; [|done|by exists io'|done..| |done].
  - apply (registry_set_args w1 m1 p (cl handle) None m'); [done..|apply Hm].
  - destruct A as [A1 A2 A3 A4 A5]. split; [done|done| |done|done]. cbn. by rewrite A3, insert_insert_eq.
Qed.

Lemma wps_send_call held io p obj o desc cb handle args bs c w w1 m1 :
  sender held c io -> registry_wf w1 m1 ->
  call_added p handle (new_call obj desc cb handle args) w w1 ->
  handle <> OBUS_INVALID_HANDLE -> reg (b_calls_hash (w_bus w)) !! handle = None ->
  w_calls w !! p = None -> p ∉ b_calls (w_bus w) -> w_objs w !! obj = Some o ->
  args_wire m1 desc args bs -> packet_size (call_wire o desc handle bs) < 2 ^ 32 ->
  wps (send_call p) (fun r c' w' m' =>
     call_done held p (fun h => new_call obj desc cb h args) (fun h => call_wire o desc h bs) c w r c' w' m' /\
     (soft (k_write (c_tick c)) -> AmpleMemory AL -> pl_buffsize (c_pool c) <= 2 ^ 32 -> fst r = 0)) c w1 m1.
Proof.
  intros S R A Hz Hfree Hp Hin Ho Ha Hs. set (cl := fun h => new_call obj desc cb h args).
  change (new_call obj desc cb handle args) with (cl handle) in A.
  set (wire := fun h => call_wire o desc h bs).
  set (P := soft (k_write (c_tick c))). set (Q := AmpleMemory AL). set (T := pl_buffsize (c_pool c) <= 2 ^ 32).
  pose proof (fun c' io' code m' => wps_call_cancelled held p handle cl wire
    P Q T c c' io' w w1 m1 m' code A eq_refl R Hfree Hp Hin) as Hcancel.
  pose proof (fun c' io' m' => wps_call_sent held p handle obj desc cb args wire
    P Q T c c' io' w w1 m1 m' A R Hz Hfree) as Hsent.
  unfold send_call. apply wps_bind. eapply wps_client_peek; [exact S| |].
  { intros m2 Hm Hf. apply (Hcancel c io (- ENOMEM) m2); try done.
    intros (_ & HA & Hb). revert Hf. unfold Q, T in *. apply ample_not_refused.
    unfold BUFFER_STRUCT_SIZE, PTRDIFF_MAX. lia. }
  intros buf pl m2 Hm2 S2 Hout2 Hr2 Hnh Hnq. set (c2 := set_cpool c pl) in *. apply wps_bind.
  assert (frames OBUS_PKT_CALL (call_wire o desc handle bs) (fun b => obus_packet_call_encode b p) w1 m2) as HF.
  { intros b m3 Hm3. apply (frames_call w1 m1 p obj o desc cb handle args bs); try done.
    - rewrite (ca_calls _ _ _ _ _ A). by rewrite lookup_insert_eq.
    - by rewrite (ca_objs _ _ _ _ _ A).
    - by transitivity m2. }
  eapply wps_client_encode; [exact S2|exact Hr2|exact Hnq|exact HF|].
  intros code pl3 m3 Hm3 S3 Hout3 Hcode. set (c3 := set_cpool c2 pl3) in *.
  assert (same_blocks m1 m3) as Hm13 by by transitivity m2.
  destruct Hcode as [[-> Hcont]|[-> Hf]].
  2:{ cbn [failed Z.ltb Z.compare Z.opp ENOMEM]. apply wps_bind.
      eapply wps_client_unref; [exact S3|done|done|]. intros pl4 S4 _.
      apply (Hcancel _ io (- ENOMEM) m3); try done.
      intros (_ & HA & _). revert Hf. unfold Q in *. apply ample_not_refused. unfold PTRDIFF_MAX. lia. }
  cbn [failed Z.ltb Z.compare]. apply wps_bind. eapply wps_client_write; [exact S3|done|done|].
  intros code c4 io4 m4 Hm4 Hle Hl4 S4 Hq4 Hout4 Hsoft.
  assert (same_blocks m1 m4) as Hm14 by by transitivity m3.
  assert (same_line c c4) as Hl by by transitivity c3.
  destruct (decide (code = 0 \/ code = - EAGAIN)) as [Hok|Hko].
  2:{ assert (code <> 0 /\ code <> - EAGAIN) as [H0 H1] by tauto.
      rewrite (proj2 (Z.eqb_neq _ _) H0), (proj2 (Z.eqb_neq _ _) H1). cbn [negb andb].
      rewrite decide_False in S4 by done. apply wps_bind.
      eapply wps_client_unref; [exact S4|done|by apply Hq4|]. intros pl5 S5 _.
      apply (Hcancel _ io4 code m4); try done; [lia|by destruct Hl|].
      intros (Hs1 & Hs2 & _). by apply Hko, Hsoft. }
  assert (negb (code =? 0) && negb (code =? - EAGAIN) = false) as -> by (destruct Hok as [->| ->]; done).
  assert (client_out c4 = client_out c ++ packet_wire OBUS_PKT_CALL (call_wire o desc handle bs)) as Hout.
  { rewrite (Hout4 Hok), Hout3, Hout2. f_equal. exact Hcont. }
  apply wps_bind. destruct Hok as [->| ->]; cbn [Z.eqb Z.opp EAGAIN].
  - rewrite decide_False in S4 by done. eapply wps_client_unref; [exact S4|done|by apply Hq4|].
    intros pl5 S5 Hout5. apply (Hsent _ io4); try done; [by destruct Hl|by rewrite Hout5].
  - rewrite decide_True in S4 by done. by apply wps_ret, (Hsent _ io4).
Qed.
End Call.

Section Theorems.
Context {AL : Allocator} {KE : Kernel} {CC : ClientCode} `{!BlockingKernel KE}.

Lemma args_wire_same m m' desc args bs : same_blocks m m' -> args_wire m desc args bs -> args_wire m' desc args bs.
Proof.
  intros Hm. unfold args_wire. destruct (md_args_desc desc) as [d|]; [|done]. destruct args as [st|]; [|done].
  intros (S & cs & [D1 D2 D3] & C & E). split; [done|]. exists cs. split_and!; [|done..]. constructor; [done..|].
  intros i f a Hf Ha. eapply field_denotes_same; [exact Hm|]. by eapply D3.
Qed.

Lemma wp_call_new obj desc cb args m bs (Q : option positive -> world -> mem -> Prop) w m0 :
  args_wire m0 desc args bs ->
  (forall m', same_blocks m m' -> ~ AmpleMemory AL -> Q None w m') ->
  (forall m', same_blocks m m' -> Q (Some (w_next w)) (set_calls (set_next_addr w (Pos.succ (w_next w)))
     (<[w_next w := new_call obj desc cb OBUS_INVALID_HANDLE args]> (w_calls w))) m') ->
  wpw (obus_call_new obj desc cb args) Q w m.
Proof.
  intros Ha H1 H2. unfold obus_call_new.
  assert ((match args, md_args_desc desc with None, Some d => sd_size d | _, _ => 0 end) = 0) as ->.
  { unfold args_wire in Ha. by destruct args, (md_args_desc desc). }
  apply wpw_bind, wpw_lift, wp_alloc; intros k m' Hm Hk.
  - apply wpw_bind, wp_ret. cbn [fst snd]. apply wpw_bind, wpw_modify, wpw_ret. by apply H2.
  - apply wpw_ret, H1; [done|]. intros HA. rewrite malloc_ample in Hk; [done|]. unfold CALL_SIZE, PTRDIFF_MAX. lia.
Qed.

(** C9: a call of a method.  When the client is connected, the object registered
    and the method enabled, the call either succeeds (code 0) with a handle that
    was free and is given back: the registry then holds the new call under it, the
    caller keeps its arguments, and the CALL packet follows, whole, what the
    client had sent; or the code is negative and the registry of calls, the calls
    and the objects are as before.  It succeeds when the memory is ample, the
    kernel has no write error and the random source gives a free handle.  In the
    other states it is refused with -EPERM and nothing changes. *)
Theorem client_call_sends held io obj o st desc args bs cb c w m :
  sender held c io -> registry_wf w m -> w_objs w !! obj = Some o ->
  obus_object_get_method_state o (md_uid desc) m = Some (st, m) ->
  args_wire m desc args bs -> packet_size (call_wire o desc 0 bs) < 2 ^ 32 ->
  w_calls w !! w_next w = None -> draws_end (b_calls_hash (w_bus w)) (k_rand (c_tick c)) ->
  wps (obus_client_call obj desc args cb) (fun r c' w' m' =>
    if bool_decide (c_state c = STATE_CONNECTED) && ob_is_registered o && (st =? OBUS_METHOD_ENABLED)
    then call_done held (w_next w) (fun h => new_call obj desc cb h args) (fun h => call_wire o desc h bs) c w r c' w' m' /\
      (AmpleMemory AL -> (forall n, soft (k_write n)) -> OBUS_INVALID_HANDLE ∉ k_rand (c_tick c) ->
         pl_buffsize (c_pool c) <= 2 ^ 32 -> fst r = 0)
    else r = (- EPERM, None) /\ c' = c /\ w' = w /\ m' = m) c w m.
Proof.
  intros S R Ho Hst Ha Hs Hp Hd. unfold obus_client_call, obus_client_is_connected.
  apply wps_bind, wps_bind, wps_gets, wps_ret.
  destruct (bool_decide (c_state c = STATE_CONNECTED)); cbn [negb andb]; [|by apply wps_ret].
  apply wps_bind, wps_bus. eapply wpw_lookup; [exact Ho|].
  destruct (ob_is_registered o); cbn [negb andb]; [|by apply wps_ret].
  apply wps_bind, wps_mem. exists st, m. split; [done|].
  destruct (st =? OBUS_METHOD_ENABLED); cbn [negb andb]; [|by apply wps_ret].
  assert (w_next w ∉ b_calls (w_bus w)) as Hin.
  { intros H. destruct (cw_list _ _ (rw_calls _ _ R) _ H) as (c0 & Hc0 & _). congruence. }
  assert (forall m1, same_blocks m m1 -> registry_wf w m1) as Rl by (intros m1 Hm; eapply registry_later; [exact R|apply Hm]).
  apply wps_bind, wps_bus. eapply wp_call_new; [exact Ha| |]; intros m1 Hm1.
  { intros HA. apply wps_ret. split; [|done]. apply (call_failed _ _ _ _ _ _ _ _ _ _ io); [by apply Rl|done|done|done|by split]. }
  set (cl := new_call obj desc cb OBUS_INVALID_HANDLE args). set (p := w_next w) in *. set (w1 := set_calls _ _).
  assert (registry_wf w1 m1) as R1 by (apply (registry_fresh_call w m); [done..|apply Hm1]).
  assert (w_calls w1 !! p = Some cl) as Hc1 by apply lookup_insert_eq.
  apply wps_bind, wps_ask. cbn [tick with_tick client_ticking]. set (c1 := set_ctick c _).
  assert (sender held c1 io) as S1 by (destruct S; by split).
  apply wps_bind, wps_bus.
  eapply wpw_mono; [apply wpw_keeps; [apply register_call_frame|by apply (wp_register_call _ p cl)]|].
  intros ret w2 m2 ((Hpost & R2 & Hm2) & [F1 F2 F3 F4 F5]).
  assert (same_blocks m m2) as Hm by by transitivity m1.
  destruct Hpost as [(Hf & E1 & E2 & Hwhy)|(-> & hdl & h' & Hz & _ & Hfree & Hreg & E1 & E2)].
  - rewrite Hf. apply wps_bind, wps_bus.
    eapply wpw_mono; [apply (wp_drop_call p cl); [done|by rewrite E1|by rewrite E2]|].
    intros [] w' m' [R' ->]. apply wps_ret. split.
    + apply (call_failed _ _ _ _ _ _ _ _ _ _ io); [done|done|done|by apply Z.ltb_lt|].
      split; cbn; [by rewrite E2..| |done|done]. rewrite E1. cbn. by rewrite delete_insert_eq, delete_id.
    + intros HA _ Hn _. exfalso. destruct Hwhy as [[_ ?]|[[_ [k Hk]]|[_ [q Hq]]]]; [done| |].
      * rewrite malloc_ample in Hk; [done|]. unfold PTRDIFF_MAX. lia.
      * by destruct (cw_reg _ _ (rw_calls _ _ R) _ _ Hq).
  - cbn [failed Z.ltb Z.compare].
    eapply wps_mono; [apply (wps_send_call held io p obj o desc cb hdl args bs c1 w w2 m2); try done|].
    + split; cbn; [by rewrite E2|by rewrite E2|by rewrite E1; cbn; rewrite insert_insert_eq|done|done].
    + by eapply args_wire_same.
    + intros r c' w' m' [(H1 & [? ? ? ?] & H3 & H4) Hok]. split; [split_and!; [done|by split|done|exact H4]|]. intros HA HS _ Hb. by apply Hok.
Qed.
End Theorems.

Section Witnesses.
#[local] Existing Instance ample_alloc.
#[local] Existing Instance wit_kernel.
#[local] Existing Instance wit_kernel_blocks.

Lemma ack_finishes_call_witness :
  wpw (obus_client_ack (Ack 4 OBUS_CALL_ACKED))
      (fun _ w' _ => b_calls (w_bus w') = [1%positive] /\ w_notes w' = [(3%positive, 4, OBUS_CALL_ACKED)] /\
         w_calls w' = {[1%positive := wit_call 1 9]}) wit_call_world wit_call_mem.
Proof.
  eapply wpw_mono; [apply (ack_finishes_call (Ack 4 OBUS_CALL_ACKED) wit_call_world wit_call_mem)|].
  - exact wit_call_world_wf.
  - intros p c _. apply wit_calls_detached.
  - assert (reg (b_calls_hash (w_bus wit_call_world)) !! ack_handle (Ack 4 OBUS_CALL_ACKED) = Some 2%positive) as ->
      by (vm_compute; reflexivity).
    intros [] w' m' [_ (c & Hc & _ & _ & -> & -> & -> & _)].
    change (Some (wit_call 3 4) = Some c) in Hc. injection Hc as <-. split_and!; vm_compute; reflexivity.
Defined.

#[local] Instance wit_quiet_client : ClientCode := {
  bus_event_cb _ _ _ := mret tt;
  prov_add _ _ _ _ := mret tt;
  prov_remove _ _ _ _ := mret tt;
  prov_event _ _ _ _ _ := mret tt
}.

(** An object with one method, which is enabled and takes a structure. *)
Definition wit_method_args : obus_method_desc := MethodDesc 22 1 (Some wit_desc).
Definition wit_method_info : obus_struct_desc :=
  StructDesc 3 8 0 [FieldDesc 1 4 OBUS_METHOD OBUS_FIELD_ENUM obus_method_state_driver 0].
Definition wit_callee : obus_object :=
  Object true false (ObjectDesc 13 1 wit_method_info [] [wit_method_args]) 9 true 0
    (Struct wit_method_info {[0 := CVal (VNum 1); 4 := CVal (VNum 1)]}) [0].
Definition wit_caller_world : world := set_objs wit_call_world {[1%positive := wit_callee]}.
Definition wit_caller_mem : mem := Mem (m_blocks wit_mem) (m_next wit_mem) 2.
Definition wit_caller : obus_client :=
  Client CEmpty CNull 5 0 true STATE_CONNECTED (Some wit_io) wit_io_pool wit_decoder (Some 1%positive)
    (BusEventDesc 41 1) (BusEventDesc 42 2) (BusEventDesc 43 3) 0.

Lemma wit_caller_wf : registry_wf wit_caller_world wit_caller_mem.
Proof.
  destruct wit_call_world_wf as [RO RC RP RL].
  constructor; [|by eapply calls_wf_frame|by eapply provs_wf_frame|].
  - constructor; [apply wit_none_wf|]. done.
  - split; [constructor|]. intros p Hp. by apply not_elem_of_nil in Hp.
Qed.

Lemma wit_caller_args : args_wire wit_caller_mem wit_method_args (Some wit_struct) (struct_wire wit_desc wit_contents).
Proof.
  split; [exact wit_struct_shape|]. exists wit_contents.
  split; [|split; [exact wit_contents_ok|reflexivity]].
  destruct wit_struct_denotes as [D1 D2 D3]. constructor; [done..|]. intros i f a Hf Ha.
  eapply field_denotes_impl; [|by eapply D3]. intros [x|s] [y|t]; done.
Qed.

Lemma client_call_sends_witness :
  wps (obus_client_call 1 wit_method_args (Some wit_struct) 5)
      (fun r c' w' _ => exists h, r = (0, Some h) /\ h <> 9 /\ h <> 4 /\ b_calls (w_bus w') = [1%positive; 2%positive; 3%positive] /\
         client_out c' = packet_wire OBUS_PKT_CALL (call_wire wit_callee wit_method_args h (struct_wire wit_desc wit_contents)))
      wit_caller wit_caller_world wit_caller_mem.
Proof.
  eapply wps_mono; [apply (client_call_sends [1%positive] wit_io 1 wit_callee OBUS_METHOD_ENABLED wit_method_args
    (Some wit_struct) (struct_wire wit_desc wit_contents) 5 wit_caller wit_caller_world wit_caller_mem)|].
  - split; [reflexivity|exact wit_io_wf].
  - exact wit_caller_wf.
  - reflexivity.
  - vm_compute. reflexivity.
  - exact wit_caller_args.
  - vm_compute. reflexivity.
  - reflexivity.
  - apply draws_end_free. vm_compute. reflexivity.
  - intros [code hdl] c' w' m' H. cbn [bool_decide andb] in H.
    destruct H as [(_ & _ & _ & HD) Hok].
    assert (code = 0) as ->.
    { apply Hok; [exact _|exact wit_kernel_soft| |vm_compute; congruence].
      intros Hin%list_elem_of_singleton. discriminate. }
    destruct hdl as [h|]; [|destruct HD; lia]. destruct HD as (_ & Hfree & [_ Hl _ _ _] & Hout).
    exists h. split; [reflexivity|]. split_and!; [| |exact Hl|exact Hout].
    + intros ->. vm_compute in Hfree. discriminate.
    + intros ->. vm_compute in Hfree. discriminate.
Defined.
End Witnesses.
