(* ===== verification/ClientRemove.v ===== *)
(** * The removal of an object, from the server to the client

    The REMOVE packet carries a handle; the client looks it up in its own
    registry.  The result is not compared with NULL. *)
From S2P Require Import Prelude Mem Cstring Buffer Pool Desc Field Struct Hash BusApi World Bus Object Event Call BusEvent Teardown Io Packet Handler ServerSend ClientState Client.

Section Remove.
Context {AL : Allocator}.

Lemma wp_read_remove uid handle d rb script rest fuel w m :
  0 <= uid < 2 ^ 16 -> 0 <= handle < 2 ^ 16 -> objects_wf w m -> buf_wf rb -> buf_pos rb = 0 ->
  buf_bytes rb = packet_wire OBUS_PKT_REMOVE (remove_wire uid handle) ++ rest -> d_hdr_valid d = false ->
  wpw (obus_packet_decoder_read (S fuel) d rb script)
      (fun x w' _ => let '(ret, info, d', rb', script') := x in
         ret = 0 /\ w' = w /\ script' = script /\ d_hdr_valid d' = false /\ buf_bytes rb' = rest /\
         info = Some (InfoRemove (reg (b_objects_hash (w_bus w)) !! handle))) w m.
Proof.
  intros Hu Hh RO Wr Hp Hrb Hd.
  eapply wpw_mono; [eapply (wp_decoder_read fuel d rb script OBUS_PKT_REMOVE (remove_wire uid handle) rest
    (fun info w' _ => w' = w /\ info = Some (InfoRemove (reg (b_objects_hash (w_bus w)) !! handle)))); try done|].
  2:{ intros [[[[ret' info] d'] rb'] script'] w' m2 (? & [? ?] & ? & ? & _ & _ & ?). by split_and!. }
  intros b1 W1 Hp1 Hr1. cbn [decode_payload_of Z.eqb OBUS_PKT_CONREQ OBUS_PKT_CONRESP OBUS_PKT_ADD OBUS_PKT_REMOVE Pos.eqb].
  apply wpw_bind, wpw_bind. eapply wp_object_remove_decode; [exact Hu|exact Hh|exact W1|exact Hr1|]. intros b2 E2 W2 _.
  apply wp_bus_object; [done|]. apply wpw_ret, wpw_ret. split; [done|]. split; [|done].
  exists (buf_pos b2). subst b2. split; [done|]. apply W2.
Qed.
End Remove.

Section Theorems.
Context {AL : Allocator} {KE : Kernel} {CC : ClientCode}.

(** C21: the removal of an object crosses the wire: the packet a server encodes
    for an object makes the decoder of a client return 0 with the object the
    client has under the same handle, or with none when it has none, and change
    nothing else on either side; what followed the packet stays. *)
Theorem object_remove_roundtrip `{!AmpleMemory AL} p o b w m :
  buf_wf b -> w_objs w !! p = Some o -> 0 <= od_uid (ob_desc o) < 2 ^ 16 -> 0 <= ob_handle o < 2 ^ 16 ->
  wpw (obus_packet_remove_encode b p)
      (fun r w' m' => fst r = 0 /\ w' = w /\
         forall dec rb script rest fuel wr,
           objects_wf wr m' -> buf_wf rb -> buf_pos rb = 0 -> buf_bytes rb = buf_bytes (snd r) ++ rest ->
           d_hdr_valid dec = false ->
           wpw (obus_packet_decoder_read (S fuel) dec rb script)
               (fun x w2 _ => let '(ret, info, dec', rb', script') := x in
                  ret = 0 /\ w2 = wr /\ script' = script /\ d_hdr_valid dec' = false /\ buf_bytes rb' = rest /\
                  info = Some (InfoRemove (reg (b_objects_hash (w_bus wr)) !! ob_handle o))) wr m') w m.
Proof.
  intros W Ho Hu Hh. unfold obus_packet_remove_encode. apply wpw_bind. eapply wpw_lookup; [exact Ho|]. apply wpw_lift.
  eapply wp_mono; [apply (wp_encode_packet OBUS_PKT_REMOVE _ (remove_wire (od_uid (ob_desc o)) (ob_handle o)));
    [apply emits_object_remove|done|done|]|].
  { unfold packet_size, remove_wire. rewrite length_app, !length_be_bytes. done. }
  intros [ret b'] m' (Hm & _ & _ & _ & [[Hr Hbytes]|[_ Hr]]); cbn [fst snd] in *.
  2:{ exfalso. eapply ample_not_refused; [|exact Hr]. unfold packet_size, remove_wire.
      rewrite length_app, !length_be_bytes. vm_compute. congruence. }
  split_and!; [done..|]. intros dec rb script rest fuel wr RO Wr Hp Hrb Hd. rewrite Hbytes in Hrb.
  by apply (wp_read_remove (od_uid (ob_desc o)) (ob_handle o)).
Qed.

(** A REMOVE packet with a handle the client does not know, from a server
    that is wrong or late, crashes the client, whatever its state: every pending
    call is aborted as if its object were gone, then the object is read through
    the NULL pointer the lookup has returned. *)
Theorem unknown_remove_crashes uid handle b buf rest fuel turns c w m :
  0 <= uid < 2 ^ 16 -> 0 <= handle < 2 ^ 16 -> objects_wf w m ->
  reg (b_objects_hash (w_bus w)) !! handle = None ->
  c_dbuf c = Some buf -> pl_bufs (c_pool c) !! buf = Some b -> buf_wf b -> buf_pos b = 0 ->
  d_hdr_valid (c_decoder c) = false ->
  buf_bytes b = packet_wire OBUS_PKT_REMOVE (remove_wire uid handle) ++ rest ->
  obus_client_io_read_event (S fuel) (S turns) false true c w m = None.
Proof.
  intros Hu Hh RO Hnone Hdb Hb Wb Hpos Hd Hbytes.
  pose proof (wp_read_remove uid handle (c_decoder c) b (k_read (c_tick c)) rest turns w m Hu Hh RO Wb Hpos Hbytes Hd) as H.
  apply wp_run in H as ([[[[[ret info] d'] b'] script'] w'] & m2 & Hrun & HQ). cbn [fst snd] in HQ.
  destruct HQ as (-> & -> & -> & _ & _ & ->).
  rewrite Hnone in Hrun. unfold obus_client_io_read_event. cbn [negb]. erewrite run_bind by done.
  cbn [client_read tick with_tick client_ticking].
  set (c1 := set_ctick c (S (c_tick c))). erewrite run_bind by done. erewrite run_bind by done.
  assert (on_mem (m_lift (c_dbuf c1)) c1 w m = Some ((buf, c1), w, m)) as H1.
  { apply run_mem. change (c_dbuf c1) with (c_dbuf c). by rewrite Hdb. }
  erewrite run_bind by exact H1.
  erewrite run_bind by done.
  erewrite run_bind by (apply (run_mem _ _ _ _ b); unfold get_buf, m_lift;
    change (c_pool c1) with (c_pool c); by rewrite Hb).
  erewrite run_bind by (apply run_bus; exact Hrun). cbv beta iota. erewrite run_bind by done.
  cbn [Z.eqb Z.opp EAGAIN failed Z.ltb Z.compare client_packet]. apply run_bind_none.
  unfold obus_client_remove_object.
  match goal with |- ?run = None => destruct run as [r|] eqn:E; [|done] end.
  by apply bind_inv in E as (a & c2 & w2 & m3 & _ & E).
Qed.
End Theorems.

Section Witnesses.
#[local] Existing Instance ample_alloc.
#[local] Existing Instance wit_kernel.

(** The receiver of [object_remove_roundtrip] has object 1 under handle 7. *)
Lemma object_remove_roundtrip_witness :
  wpw (obus_packet_remove_encode wit_buf 1)
      (fun r _ m' => fst r = 0 /\
         forall rb, buf_wf rb -> buf_pos rb = 0 -> buf_bytes rb = buf_bytes (snd r) ++ [] -> objects_wf wit_world m' ->
           wpw (obus_packet_decoder_read 1 wit_decoder rb [])
               (fun x _ _ => let '(ret, info, _, _, _) := x in
                  ret = 0 /\ info = Some (InfoRemove (Some 1%positive))) wit_world m') wit_world wit_world_mem.
Proof.
  eapply wpw_mono; [apply (object_remove_roundtrip 1 (wit_obj 7 true) wit_buf wit_world wit_world_mem)|].
  - exact wit_buf_wf.
  - reflexivity.
  - cbn. lia.
  - cbn. lia.
  - intros [ret b'] w' m' (Hr & _ & H). split; [exact Hr|]. intros rb Wr Hp Hb RO.
    eapply wpw_mono; [exact (H wit_decoder rb [] [] 0%nat wit_world RO Wr Hp Hb eq_refl)|].
    intros [[[[ret' info] d'] rb'] script'] w2 m2 (? & _ & _ & _ & _ & ->). split; [done|]. vm_compute. reflexivity.
Defined.

#[local] Instance wit_idle_client : ClientCode := {
  bus_event_cb _ _ _ := mret tt;
  prov_add _ _ _ _ := mret tt;
  prov_remove _ _ _ _ := mret tt;
  prov_event _ _ _ _ _ := mret tt
}.

(** Handle 9 is not one of the client's. *)
Definition wit_remove_bytes : list Z := packet_wire OBUS_PKT_REMOVE (remove_wire 11 9).
Definition wit_remove_buf : buffer :=
  Buffer (Z.of_nat (length wit_remove_bytes)) (Z.of_nat (length wit_remove_bytes)) 0 wit_remove_bytes 1.
Definition wit_remove_client : obus_client :=
  Client CEmpty CNull 5 0 true STATE_CONNECTED (Some wit_io) (set_buf wit_io_pool 1 wit_remove_buf) wit_decoder
    (Some 1%positive) (BusEventDesc 41 1) (BusEventDesc 42 2) (BusEventDesc 43 3) 0.

Lemma unknown_remove_crashes_witness :
  obus_client_io_read_event 1 1 false true wit_remove_client wit_world wit_world_mem = None.
Proof.
  apply (unknown_remove_crashes 11 9 wit_remove_buf 1 [] 0 0).
  - lia.
  - lia.
  - apply wit_world_wf.
  - vm_compute. reflexivity.
  - reflexivity.
  - reflexivity.
  - constructor; [vm_compute; split; congruence|vm_compute; split; congruence|vm_compute; congruence|reflexivity|].
    let l := eval vm_compute in wit_remove_bytes in change (Forall is_byte l).
    repeat (apply Forall_cons; split; [unfold is_byte; lia|]). by apply Forall_nil.
  - reflexivity.
  - reflexivity.
  - vm_compute. reflexivity.
Defined.
End Witnesses.
