(* ===== verification/CallWire.v ===== *)
(** * A method call, from the client to the server and back

    The CALL packet decoded by the server, the ACK packet decoded by the client, and
    the two put together with what each side does: a call of a method comes back to
    its caller with the answer of the server. *)
From S2P Require Import Prelude Mem Cstring Buffer Pool Desc Field Struct Hash BusApi World Bus Object Event EventWire Call BusEvent Teardown CallFacts Io Packet Handler ServerState Server ServerFacts ServerSend ServerRequest ClientState Client ClientFacts ClientCall.

(** ** The arguments on the wire *)

(** The bytes [bs] are an image of arguments of the method; [None]: it has none. *)
Definition args_image (desc : obus_method_desc) (ocs : option (list (option fval))) (bs : list Z) : Prop :=
  match md_args_desc desc, ocs with
  | None, None => bs = []
  | Some d, Some cs => desc_ok d /\ 0 <= sd_size d < 2 ^ 32 /\ length cs = length (sd_fields d) /\
      contents_ok d cs /\ kinds_ok d cs /\ bs = struct_wire d cs
  | _, _ => False
  end.

(** The structure a receiver has for arguments [ocs]. *)
Definition args_received (m : mem) (desc : obus_method_desc) (ocs : option (list (option fval)))
    (args : option obus_struct) : Prop :=
  match md_args_desc desc, ocs, args with
  | None, None, None => True
  | Some d, Some cs, Some st => struct_shape st /\ st_desc st = d /\ struct_denotes m st (struct_back d cs)
  | _, _, _ => False
  end.

Lemma args_wire_image m desc args bs :
  args_wire m desc args bs -> (forall d, md_args_desc desc = Some d -> 0 <= sd_size d < 2 ^ 32) ->
  exists ocs, args_image desc ocs bs.
Proof.
  unfold args_wire, args_image. destruct (md_args_desc desc) as [d|]; [|intros ->; by exists None].
  destruct args as [st|]; [|done]. intros (S & cs & D & C & ->) Hd. exists (Some cs).
  split_and!; [apply (ss_desc _ S)|by apply Hd|by apply Hd|apply (sn_length _ _ _ D)|done| |done].
  apply (denotes_kinds _ _ _ D).
Qed.

(** The call a receiver makes of a CALL packet. *)
Definition received_call (obj : positive) (desc : obus_method_desc) (handle : Z)
    (args : option obus_struct) : obus_call :=
  Call desc obj handle None OBUS_CALL_INVALID (md_args_desc desc) args 0.

Definition with_call (w : world) (c : obus_call) : world :=
  set_calls (set_next_addr w (Pos.succ (w_next w))) (<[w_next w := c]> (w_calls w)).

(** A receiver that has the object of a call, and the method. *)
Record knows_callee (d : obus_bus_desc) (o : obus_object) (desc : obus_method_desc) (q : positive)
    (o' : obus_object) (w : world) (m : mem) : Prop := {
  kc_object : knows_object d o q o' w m;
  kc_method : desc ∈ od_methods (ob_desc o)
}.

Section Receive.
Context {AL : Allocator} `{!AmpleMemory AL}.

(** The end of a payload that was read to its announced length. *)
Lemma wp_finish_read p b n (Q : option positive * buffer -> world -> mem -> Prop) w m :
  buf_wf b -> buf_wf (with_pos b (buf_pos b + n)) -> 0 <= n ->
  Q (Some p, with_pos b (buf_pos b + n)) w m ->
  wpw (finish_call p 0 (u64 (buf_pos b + n)) (with_pos b (buf_pos b + n))) Q w m.
Proof.
  intros W W' Hn HQ. unfold finish_call. cbn [failed Z.ltb Z.compare].
  unfold obus_buffer_get_read_position. cbn [buf_pos with_pos].
  rewrite (read_end b n) by done. rewrite Z.eqb_refl. by apply wpw_ret.
Qed.

Lemma wp_new_received desc obj (Q : option positive -> world -> mem -> Prop) w m :
  (forall d, md_args_desc desc = Some d -> 0 <= sd_size d < 2 ^ 32) ->
  (forall m', same_blocks m m' -> Q (Some (w_next w))
     (with_call w (Call desc obj OBUS_INVALID_HANDLE None OBUS_CALL_INVALID (md_args_desc desc)
        (calloc_struct <$> md_args_desc desc) 0)) m') ->
  wpw (obus_call_new obj desc 0 None) Q w m.
Proof.
  intros Hd HQ. unfold obus_call_new. apply wpw_bind, wpw_lift, wp_alloc; intros k m' Hm Hk.
  2:{ rewrite malloc_ample in Hk; [done|]. unfold CALL_SIZE, PTRDIFF_MAX.
      destruct (md_args_desc desc) as [d|]; [specialize (Hd d eq_refl)|]; lia. }
  apply wpw_bind, wp_ret. cbn [fst snd]. apply wpw_bind, wpw_modify, wpw_ret.
  specialize (HQ m' Hm). by destruct (md_args_desc desc).
Qed.

(** The arguments and the end of the payload. *)
Lemma wp_receive_args desc obj handle ocs bs rest b w m (Q : option positive * buffer -> world -> mem -> Prop) :
  args_image desc ocs bs -> mem_wf m -> buf_wf b -> buf_rest b = bs ++ rest ->
  let p := w_next w in let n := Z.of_nat (length bs) in
  let c := received_call obj desc handle (calloc_struct <$> md_args_desc desc) in
  (forall args m', grows m m' -> args_received m' desc ocs args ->
     Q (Some p, with_pos b (buf_pos b + n)) (with_call w (received_call obj desc handle args)) m') ->
  wpw (match cl_args c with
       | None => finish_call p 0 (u64 (buf_pos b + n)) b
       | Some st =>
         '(ret, st, buf) ← lift (obus_struct_decode st b);
         put_call p (cl_with_args c (Some st));;
         finish_call p ret (u64 (buf_pos b + n)) buf
       end) Q (with_call w c) m.
Proof.
  intros Ha Wm W Hr p n c HQ. destruct (after_read _ _ _ W Hr) as [W1 _]. fold n in W1.
  unfold args_image in Ha. unfold args_received in HQ.
  unfold c, received_call. cbn [cl_args]. destruct (md_args_desc desc) as [d|] eqn:Ed; cbn [fmap option_fmap option_map].
  - destruct ocs as [cs|]; [|done]. destruct Ha as (D & Hsz & Hl & CO & KO & ->).
    apply wpw_bind, wpw_lift. eapply (wp_decode_image d cs); [by apply calloc_shape|done..|exact Hr|].
    intros st m' G SS Hd SD. fold n. apply wpw_bind, wpw_modify. cbn [cl_with_args].
    apply wp_finish_read; [done..|lia|].
    replace (set_calls _ _) with (with_call w (received_call obj desc handle (Some st))).
    2:{ unfold with_call, received_call, set_calls. cbn. by rewrite insert_insert_eq, Ed. }
    by apply HQ.
  - destruct ocs; [done|]. subst bs. cbn in n. subst n.
    replace b with (with_pos b (buf_pos b + 0)) at 2 by (destruct b; unfold with_pos; cbn; f_equal; lia).
    apply wp_finish_read; [done..|].
    replace (Call desc obj handle None OBUS_CALL_INVALID None None 0) with (received_call obj desc handle None)
      by (unfold received_call; by rewrite Ed).
    apply HQ; [|done]. by apply grows_refl.
Qed.

Lemma wp_call_decode d o desc handle q o' ocs bs rest b w m (Q : option positive * buffer -> world -> mem -> Prop) :
  knows_callee d o desc q o' w m -> args_image desc ocs bs -> 0 <= handle < 2 ^ 16 ->
  Z.of_nat (length bs) < 2 ^ 32 -> mem_wf m -> buf_wf b ->
  buf_rest b = call_wire o desc handle bs ++ rest ->
  (forall args m', grows m m' -> args_received m' desc ocs args ->
     Q (Some (w_next w), with_pos b (buf_pos b + Z.of_nat (length (call_wire o desc handle bs))))
       (with_call w (received_call q desc handle args)) m') ->
  wpw (obus_call_decode b) Q w m.
Proof.
  intros [[[D [ma HA]] RO Hdi Hoh Hq Ho' Hsame] Hmt] Ha Hh Hl Wm W Hr HQ. unfold obus_call_decode.
  destruct (bo_obj _ D _ Hdi) as (Hu & _ & Hmu & _). rewrite Forall_forall in Hmu. specialize (Hmu _ Hmt).
  unfold uid_ok in Hu, Hmu. unfold call_wire in Hr. rewrite <- !app_assoc in Hr.
  eapply (wpw_read_u16 (od_uid (ob_desc o))); [lia|done|exact Hr|]. intros b1 E1 W1 Hr1.
  eapply (wpw_read_u16 (ob_handle o)); [lia|done|exact Hr1|]. intros b2 E2 W2 Hr2.
  eapply (wpw_read_u16 (md_uid desc)); [lia|done|exact Hr2|]. intros b3 E3 W3 Hr3.
  eapply (wpw_read_u16 handle); [lia|done|exact Hr3|]. intros b4 E4 W4 Hr4.
  eapply (wpw_read_u32 (Z.of_nat (length bs))); [lia|done|exact Hr4|]. intros b5 E5 W5 Hr5. cbn zeta.
  apply wpw_bind, wp_bus_object; [done|]. rewrite Hq.
  apply wpw_bind. eapply wpw_lookup; [exact Ho'|]. rewrite Hsame, Z.eqb_refl. cbn [negb].
  apply wpw_bind, wpw_gets, wpw_bind, wpw_lift.
  exists (Some desc), m. split; [by eapply api_method_found|].
  apply wpw_bind, wp_new_received.
  { intros d0 Ed. unfold args_image in Ha. rewrite Ed in Ha. destruct ocs; [|done]. apply Ha. }
  intros m1 Hm1. apply wpw_bind. eapply wpw_lookup; [cbn; apply lookup_insert_eq|].
  apply wpw_bind, wpw_modify.
  replace (set_calls _ _) with (with_call w (received_call q desc handle (calloc_struct <$> md_args_desc desc))).
  2:{ unfold with_call, received_call, set_calls. cbn. by rewrite insert_insert_eq. }
  eapply wp_receive_args; [exact Ha|by eapply same_blocks_wf|done|exact Hr5|].
  intros args m' G HR. replace (with_pos b5 _) with (with_pos b (buf_pos b + Z.of_nat (length (call_wire o desc handle bs))))
    by (unfold call_wire; same_position).
  apply HQ; [|done]. eapply grows_trans; [by apply same_blocks_grows|exact G].
Qed.

(** Reading a CALL packet. *)
Lemma wp_read_call d o desc handle q o' ocs bs dec rb script rest fuel w m :
  knows_callee d o desc q o' w m -> args_image desc ocs bs -> 0 <= handle < 2 ^ 16 ->
  packet_size (call_wire o desc handle bs) < 2 ^ 32 -> mem_wf m ->
  buf_wf rb -> buf_pos rb = 0 ->
  buf_bytes rb = packet_wire OBUS_PKT_CALL (call_wire o desc handle bs) ++ rest -> d_hdr_valid dec = false ->
  wpw (obus_packet_decoder_read (S fuel) dec rb script)
      (fun x w2 m2 => let '(ret, info, dec', rb', script') := x in
         ret = 0 /\ script' = script /\ d_hdr_valid dec' = false /\ buf_bytes rb' = rest /\
         info = Some (InfoCall (w_next w)) /\ grows m m2 /\
         (exists args, args_received m2 desc ocs args /\
           w2 = with_call w (received_call q desc handle args)) /\
         buf_wf rb' /\ buf_refcnt rb' = buf_refcnt rb) w m.
Proof.
  intros K Ha Hh Hs Wm Wr Hp Hrb Hd.
  eapply wpw_mono; [eapply (wp_decoder_read fuel dec rb script OBUS_PKT_CALL (call_wire o desc handle bs) rest
    (fun info w2 m2 => info = Some (InfoCall (w_next w)) /\ grows m m2 /\
       exists args, args_received m2 desc ocs args /\ w2 = with_call w (received_call q desc handle args))); try done|].
  2:{ intros [[[[ret' info] d'] rb'] script'] w' m2 (? & (? & ? & ?) & ? & ? & (? & ?) & _ & ?). by split_and!. }
  intros b1 W1 Hp1 Hr1. unfold decode_payload_of, map_info, obus_packet_call_decode, or_enoent.
  cbn [Z.eqb OBUS_PKT_CALL OBUS_PKT_CONREQ OBUS_PKT_CONRESP OBUS_PKT_ADD OBUS_PKT_REMOVE OBUS_PKT_EVENT OBUS_PKT_BUS_EVENT Pos.eqb].
  destruct (after_read _ _ _ W1 Hr1) as [W2 _].
  apply wpw_bind, wpw_bind. eapply wp_call_decode; [exact K|exact Ha|done| |done|done|exact Hr1|].
  { revert Hs. unfold packet_size, call_wire, OBUS_PKT_HDR_SIZE. rewrite !length_app. lia. }
  intros args m2 G HR. apply wpw_ret, wpw_ret. split; [done|]. split.
  - eexists. split; [reflexivity|]. apply W2.
  - split; [done|]. split; [done|]. by exists args.
Qed.
End Receive.

(** ** The packet of a call *)

(** The arguments given to a call and their contents; [None]: the method has none. *)
Definition args_given (m : mem) (desc : obus_method_desc) (args : option obus_struct)
    (ocs : option (list (option fval))) : Prop :=
  match md_args_desc desc, args, ocs with
  | None, _, None => True
  | Some d, Some st, Some cs => struct_shape (Struct d (st_mem st)) /\
      struct_denotes m (Struct d (st_mem st)) cs /\ contents_ok d cs /\ 0 <= sd_size d < 2 ^ 32
  | _, _, _ => False
  end.

Definition args_bytes (desc : obus_method_desc) (ocs : option (list (option fval))) : list Z :=
  match md_args_desc desc, ocs with Some d, Some cs => struct_wire d cs | _, _ => [] end.

Lemma args_given_wire m desc args ocs :
  args_given m desc args ocs ->
  args_wire m desc args (args_bytes desc ocs) /\ args_image desc ocs (args_bytes desc ocs).
Proof.
  unfold args_given, args_wire, args_image, args_bytes.
  destruct (md_args_desc desc) as [d|]; [|by destruct ocs].
  destruct args as [st|], ocs as [cs|]; try done. intros (S & D & C & Hd). split.
  - split; [done|]. by exists cs.
  - split_and!; [apply (ss_desc _ S)|lia|lia|apply (sn_length _ _ _ D)|done|apply (denotes_kinds _ _ _ D)|done].
Qed.

Definition holds_packet (rb : buffer) (type : Z) (bs rest : list Z) : Prop :=
  buf_wf rb /\ buf_pos rb = 0 /\ buf_bytes rb = packet_wire type bs ++ rest.

Section Roundtrip.
Context {AL : Allocator} `{!AmpleMemory AL}.

(** C17: a call crosses the wire, where no allocation is refused. The packet of a call makes the decoder of a
    receiver that has the object under the same handle, of the same description,
    return 0 and a new call of its own: same method, same handle, on its object,
    with arguments that hold what the caller gave (and none when the method has
    none). The strings are copies, nothing the receiver had changes, and what followed
    the packet stays. *)
Theorem call_roundtrip p obj o desc cb handle args ocs b w m :
  mem_wf m -> buf_wf b -> w_calls w !! p = Some (new_call obj desc cb handle args) ->
  w_objs w !! obj = Some o -> args_given m desc args ocs -> 0 <= handle < 2 ^ 16 ->
  packet_size (call_wire o desc handle (args_bytes desc ocs)) < 2 ^ 32 ->
  wpw (obus_packet_call_encode b p)
      (fun r w' m' => fst r = 0 /\ w' = w /\
         forall d q o' dec rb script rest fuel wr,
           knows_callee d o desc q o' wr m' -> buf_wf rb -> buf_pos rb = 0 ->
           buf_bytes rb = buf_bytes (snd r) ++ rest -> d_hdr_valid dec = false ->
           wpw (obus_packet_decoder_read (S fuel) dec rb script)
               (fun x w2 m2 => let '(ret, info, dec', rb', script') := x in
                  ret = 0 /\ script' = script /\ d_hdr_valid dec' = false /\ buf_bytes rb' = rest /\
                  info = Some (InfoCall (w_next wr)) /\ grows m' m2 /\
                  exists args', args_received m2 desc ocs args' /\
                    w2 = with_call wr (received_call q desc handle args')) wr m') w m.
Proof.
  intros Wm W Hc Ho Ha Hh Hs. destruct (args_given_wire _ _ _ _ Ha) as [Hw Hi].
  eapply wpw_mono; [by eapply (frames_call w m p)|].
  intros [ret b'] w' m' [-> (Hm & _ & _ & _ & [[Hr Hbytes]|[_ Hr]])]; cbn [fst snd] in *;
    [|exfalso; eapply ample_not_refused; [|exact Hr]; unfold PTRDIFF_MAX; lia].
  split_and!; [done..|]. intros d q o' dec rb script rest fuel wr K Wr Hp Hrb Hd. rewrite Hbytes in Hrb.
  eapply wpw_mono; [eapply wp_read_call; try done; by eapply same_blocks_wf|].
  intros [[[[ret2 info] dec2] rb2] script2] w2 m2 (? & ? & ? & ? & ? & ? & ? & _). by split_and!.
Qed.
End Roundtrip.

(** ** A call and its answer *)

(** The decoder of the peer [p], at the start of a packet, has [packet] first in its
    buffer. *)
Definition peer_received (s : obus_server) (p : positive) (type : Z) (bs : list Z) : Prop :=
  exists x b rest, sv_store s !! p = Some x /\ d_hdr_valid (pr_decoder x) = false /\
    pl_bufs (sv_pool s) !! pr_dbuf x = Some b /\ holds_packet b type bs rest.

Definition client_received (c : obus_client) (type : Z) (bs : list Z) : Prop :=
  exists buf b rest, c_dbuf c = Some buf /\ d_hdr_valid (c_decoder c) = false /\
    pl_bufs (c_pool c) !! buf = Some b /\ holds_packet b type bs rest.

Section Served.
Context {AL : Allocator} {KE : Kernel} {UC : UserCode} `{!AnsweringUser UC} `{!BlockingKernel KE} `{!Healthy AL KE}.

(** A turn of the decoder of a peer: its buffer and its decoder change. *)
Definition peer_turned (s : obus_server) (p : positive) (x : obus_peer) (b' : buffer) (d' : obus_packet_decoder) : obus_server :=
  let s1 := set_pool s (set_buf (sv_pool s) (pr_dbuf x) b') in
  set_store s1 (<[p := with_decoder x d']> (sv_store s1)).

Lemma peer_turned_wf s p x b b' d' :
  server_wf [] s -> sv_store s !! p = Some x -> pl_bufs (sv_pool s) !! pr_dbuf x = Some b ->
  buf_wf b' -> buf_refcnt b' = buf_refcnt b ->
  server_wf [] (peer_turned s p x b' d') /\ forall q, peer_out (peer_turned s p x b' d') q = peer_out s q.
Proof.
  intros W Hx Hb Wb Hc. set (pl := set_buf (sv_pool s) (pr_dbuf x) b').
  assert (refs (sv_pool s) (pr_dbuf x) = buf_refcnt b) as Hr by (unfold refs; by rewrite Hb).
  assert (0 < refs (sv_pool s) (pr_dbuf x)) as Hpos.
  { pose proof (peer_refs_le [] s (pr_dbuf x) p x W Hx) as Hle. rewrite decide_True in Hle by done.
    pose proof (occurrences_pos (pr_dbuf x) (io_write_buffers (pr_io x))). pose proof (occurrences_pos (pr_dbuf x) []). lia. }
  assert (pool_wf pl) as WP by (apply pool_wf_use; [apply W|done|done|by rewrite Hr]).
  assert (forall c, refs pl c = refs (sv_pool s) c) as Hrefs.
  { intros c. unfold pl. rewrite refs_set_buf. case_decide; subst; [by rewrite Hr|done]. }
  assert (queued_same s pl) as Hq.
  { intros q y c Hy Hin. unfold content, pl, set_buf. cbn. rewrite lookup_insert_ne; [done|]. intros <-.
    by destruct (sw_dec _ _ W p q x y Hx Hy). }
  assert (server_wf [] (set_pool s pl)) as W1.
  { eapply set_pool_wf; [exact W|done|done|intros c; rewrite Hrefs; apply W|]. intros c q y Hin. by apply elem_of_nil in Hin. }
  destruct (put_peer_wf [] (set_pool s pl) p x (with_decoder x d') (sv_n_peers_connected s) W1 Hx eq_refl eq_refl) as [W2 Ho].
  { cbn. lia. }
  assert (u64 (sv_n_peers_connected s) = sv_n_peers_connected s) as E.
  { rewrite (sw_count _ _ W). unfold u64. by rewrite Z.mod_mod. }
  rewrite E in W2, Ho. split; [exact W2|]. intros q. etransitivity; [exact (Ho q)|]. by apply set_pool_out.
Qed.

(** A server that is ready for a call of the peer [p]; [state] and [handler] are those
    of the method. *)
Record serves (d : obus_bus_desc) (o : obus_object) (desc : obus_method_desc) (q : positive)
    (o' : obus_object) (state handler : Z) (s : obus_server) (w : world) (m : mem) : Prop := {
  sc_callee : knows_callee d o desc q o' w m;
  sc_mem : mem_wf m;
  sc_wf : server_wf [] s;
  sc_small : small_buffers s;
  sc_method : forall m1, ob_is_registered o' = true ->
    obus_object_get_method_state o' (md_uid desc) m1 = Some (state, m1) /\
    obus_object_get_method_handler o' desc m1 = Some (handler, m1)
}.

Lemma run_get_call p c w m : w_calls w !! p = Some c -> get_call p w m = Some ((c, w), m).
Proof. intros H. unfold get_call, w_lookup, mbind, W_bind, mbind, M_bind. cbn. by rewrite H. Qed.

(** The read handler of the server takes the call, answers it, and goes on with
    what is left of it: to free the call, and to read the next packet. *)
Lemma run_serve d o desc p q o' state handler handle ocs bs fuel turns s w m :
  serves d o desc q o' state handler s w m -> args_image desc ocs bs -> 0 <= handle < 2 ^ 16 ->
  packet_size (call_wire o desc handle bs) < 2 ^ 32 ->
  peer_received s p OBUS_PKT_CALL (call_wire o desc handle bs) ->
  let result := call_result (ob_is_registered o') state handler q in
  exists s' w' m',
    obus_peer_io_read_event (S fuel) (S turns) false true p s w m =
      (_ ← on_bus (obus_call_destroy (w_next w)); read_packets fuel (S turns) p (k_read (sv_tick s))) s' w' m' /\
    sv_call s' = None /\ server_wf [] s' /\
    (exists c, w_calls w' !! w_next w = Some c /\ cl_status c = result) /\
    peer_out s' p = peer_out s p ++ packet_wire OBUS_PKT_ACK (ack_wire handle (call_status_num result)) /\
    forall p', p' <> p -> peer_out s' p' = peer_out s p'.
Proof.
  intros [K Wm W Hb Hmt] Hi Hh Hs (x & b & rest & Hx & Hv & Hbuf & Wb & Hp & Hbytes) result.
  pose proof (healthy_memory (AL := AL)) as HA. set (script := k_read (sv_tick s)).
  pose proof (wp_read_call d o desc handle q o' ocs bs (pr_decoder x) b script rest turns w m K Hi Hh Hs Wm Wb Hp Hbytes Hv) as H.
  apply wp_run in H as ([[[[[ret info] d'] b'] script'] w2] & m2 & Hrun & H). cbn [fst snd] in H.
  destruct H as (-> & -> & _ & _ & -> & _ & (args & _ & ->) & Wb' & Hc').
  set (s1 := set_tick s (S (sv_tick s))). assert (server_wf [] s1) as W1 by by destruct W.
  destruct (peer_turned_wf s1 p x b b' d' W1 Hx Hbuf Wb' Hc') as [W2 Ho]. set (s2 := peer_turned s1 p x b' d') in *.
  set (c := cl_with_peer (received_call q desc handle args) p).
  set (w3 := set_calls (with_call w (received_call q desc handle args)) (<[w_next w := c]> (w_calls (with_call w (received_call q desc handle args))))).
  assert (sv_store s2 !! p = Some (with_decoder x d')) as Hx2 by apply lookup_insert_eq.
  assert (w_calls w3 !! w_next w = Some c) as Hc by apply lookup_insert_eq.
  assert (w_objs w3 !! cl_obj c = Some o') as Ho' by apply (kc_object _ _ _ _ _ _ _ K).
  pose proof (wps_call_answered p _ (w_next w) c o' state handler s2 w3 m2 W2 Hb Hx2 Hc eq_refl eq_refl Ho' (Hmt m2)) as H.
  apply wp_run in H as ([[code s3] w4] & m4 & Hreq & H). cbn [fst snd] in H.
  destruct H as (-> & Hw4 & s4 & -> & HW & Hout).
  exists (set_call s4 None), w4, m4. split; [|split_and!].
  - unfold obus_peer_io_read_event. cbn [negb]. erewrite run_bind by done. cbn [read_packets]. cbn [tick with_tick server_ticking].
    fold s1. fold script. erewrite run_bind by (by apply run_get_peer). erewrite run_bind by done.
    erewrite run_bind by (apply (run_mem _ _ _ _ b); unfold get_buf, m_lift; change (sv_pool s1) with (sv_pool s); by rewrite Hbuf).
    erewrite run_bind by (apply run_bus; exact Hrun). cbv beta iota.
    erewrite run_bind by done. erewrite run_bind by done.
    change (0 =? - EAGAIN) with false. cbn [failed Z.ltb Z.compare handle_packet].
    rewrite run_assoc. erewrite run_bind by (apply run_bus, run_get_call, lookup_insert_eq).
    cbv beta. rewrite run_assoc. erewrite run_bind by done. rewrite run_assoc. erewrite run_bind by exact Hreq.
    rewrite run_assoc. unfold mbind, StW_bind, mbind, W_bind, mbind, M_bind. by destruct (on_bus _ _ _ _) as [[[[? ?] ?] ?]|].
  - done.
  - by destruct (wr_wf _ _ _ _ _ _ _ HW).
  - rewrite Hw4. cbn [w_calls set_calls]. exists (cl_with_status c result). by rewrite lookup_insert_eq.
  - etransitivity; [exact Hout|]. by rewrite Ho.
  - intros p' Hne. etransitivity; [apply (proj2 (wr_others _ _ _ _ _ _ _ HW p' Hne))|exact (Ho p')].
Qed.
End Served.

Section Answered.
Context {AL : Allocator} {KE : Kernel} {CC : ClientCode}.

(** The calls of a client have given up their arguments: they were sent. *)
Definition args_detached (w : world) : Prop :=
  forall p cl, p ∈ b_calls (w_bus w) -> w_calls w !! p = Some cl -> cl_args cl = None.

(** The read handler of the client takes the acknowledgment of its call, finishes the
    call, and goes on with the next packet. *)
Lemma run_acknowledged handle n fuel turns p cl c w m :
  registry_wf w m -> args_detached w -> 0 <= handle < 2 ^ 16 ->
  reg (b_calls_hash (w_bus w)) !! handle = Some p -> w_calls w !! p = Some cl ->
  client_received c OBUS_PKT_ACK (ack_wire handle n) ->
  exists c' w' m',
    obus_client_io_read_event (S fuel) (S turns) false true c w m = client_read fuel (S turns) (k_read (c_tick c)) c' w' m' /\
    registry_wf w' m' /\ call_finished p cl (call_status_of (u8 n)) w w'.
Proof.
  intros R Hdet Hh Hp Hcl (buf & b & rest & Hd & Hv & Hb & Wb & Hpos & Hbytes). set (script := k_read (c_tick c)).
  pose proof (wp_read_ack handle n (c_decoder c) b script rest turns w m Hh Wb Hpos Hbytes Hv) as H.
  apply wp_run in H as ([[[[[ret info] d'] b'] script'] w2] & m2 & Hrun & H). cbn [fst snd] in H.
  destruct H as (-> & -> & _ & -> & -> & ->).
  pose proof (ack_finishes_call (Ack handle (call_status_of (u8 n))) w m R Hdet) as H.
  apply wp_run in H as ([[] w3] & m3 & Hack & R3 & HF). cbn [fst snd ack_handle ack_status] in *.
  rewrite Hp in HF. destruct HF as (cl' & Hcl' & _ & HF). rewrite Hcl in Hcl'. injection Hcl' as <-.
  set (c1 := set_ctick c (S (c_tick c))).
  exists (set_decoder (set_cpool c1 (set_buf (c_pool c1) buf b')) d' (c_dbuf c1)), w3, m3. split; [|done].
  unfold obus_client_io_read_event. cbn [negb]. erewrite run_bind by done. cbn [client_read]. cbn [tick with_tick client_ticking].
  fold c1. fold script. do 2 (erewrite run_bind by done).
  erewrite run_bind by (apply (run_mem _ _ _ _ buf); unfold m_lift; change (c_dbuf c1) with (c_dbuf c); by rewrite Hd).
  erewrite run_bind by done.
  erewrite run_bind by (apply (run_mem _ _ _ _ b); unfold get_buf, m_lift; change (c_pool c1) with (c_pool c); by rewrite Hb).
  erewrite run_bind by (apply run_bus; exact Hrun). cbv beta iota.
  erewrite run_bind by done. change (0 =? - EAGAIN) with false. cbn [failed Z.ltb Z.compare client_packet].
  erewrite run_bind by (apply run_bus; exact Hack). done.
Qed.
End Answered.

Lemma call_size o desc h1 h2 bs : packet_size (call_wire o desc h1 bs) = packet_size (call_wire o desc h2 bs).
Proof. unfold packet_size, call_wire. by rewrite !length_app, !length_be_bytes. Qed.

Section EndToEnd.
Context {AL : Allocator} {KE : Kernel} {CC : ClientCode} {UC : UserCode}
  `{!AnsweringUser UC} `{!BlockingKernel KE} `{!Healthy AL KE}.

(** C13: a call comes back with the answer of the server.  Allocations are not refused
    and writes fail with EINTR and EAGAIN only ([Healthy]), and the handlers of the
    server answer the calls they are given or leave them, and do nothing else with
    the server ([AnsweringUser]).  A connected client calls an enabled method of a
    registered object; when the call is accepted, with a handle, the client has
    queued or written its packet, its registry has the call under the handle, without
    the arguments, and
    - when the decoder of a peer of a server that has the object has this packet first
      in its buffer, the read handler of the peer answers it: it writes one
      acknowledgment to that peer and nothing to the others, has no call under way
      any more, and goes on to free its copy of the call and to read the next packet;
    - in any later state of the client where the call is still registered and the
      arguments of the calls have been given up, as the client does when they are sent,
      when its decoder has this acknowledgment first in its buffer, its read handler
      finishes the call: it leaves the registry and its handler is told, once, the
      object, the handle and the status the server has decided by the state of the
      method and the answer of its handler; and it goes on with the next packet.
    Client and server have memories of their own, and may hold any other calls, peers
    and objects. *)
Theorem method_call_answered held io obj o desc args ocs cb c w m :
  sender held c io -> registry_wf w m -> w_objs w !! obj = Some o ->
  c_state c = STATE_CONNECTED -> ob_is_registered o = true ->
  obus_object_get_method_state o (md_uid desc) m = Some (OBUS_METHOD_ENABLED, m) ->
  args_given m desc args ocs -> packet_size (call_wire o desc 0 (args_bytes desc ocs)) < 2 ^ 32 ->
  w_calls w !! w_next w = None -> draws_end (b_calls_hash (w_bus w)) (k_rand (c_tick c)) ->
  wps (obus_client_call obj desc args cb) (fun r c1 w1 m1 =>
    forall handle, r = (0, Some handle) -> 0 <= handle < 2 ^ 16 ->
    let call_packet := call_wire o desc handle (args_bytes desc ocs) in
    registry_wf w1 m1 /\ (args_detached w -> args_detached w1) /\
    client_out c1 = client_out c ++ packet_wire OBUS_PKT_CALL call_packet /\
    exists cl, w_calls w1 !! w_next w = Some cl /\ reg (b_calls_hash (w_bus w1)) !! handle = Some (w_next w) /\
      cl_obj cl = obj /\ cl_handle cl = handle /\ cl_cb cl = cb /\ cl_args cl = None /\
    forall d q o' state handler,
      let result := call_result (ob_is_registered o') state handler q in
      let ack_packet := ack_wire handle (call_status_num result) in
      (forall s ws ms p fuel turns,
         serves d o desc q o' state handler s ws ms -> peer_received s p OBUS_PKT_CALL call_packet ->
         exists s' ws' ms',
           obus_peer_io_read_event (S fuel) (S turns) false true p s ws ms =
             (_ ← on_bus (obus_call_destroy (w_next ws)); read_packets fuel (S turns) p (k_read (sv_tick s))) s' ws' ms' /\
           sv_call s' = None /\ server_wf [] s' /\
           peer_out s' p = peer_out s p ++ packet_wire OBUS_PKT_ACK ack_packet /\
           forall p', p' <> p -> peer_out s' p' = peer_out s p') /\
      (forall c2 w2 m2 fuel turns,
         registry_wf w2 m2 -> args_detached w2 ->
         reg (b_calls_hash (w_bus w2)) !! handle = Some (w_next w) -> w_calls w2 !! w_next w = Some cl ->
         client_received c2 OBUS_PKT_ACK ack_packet ->
         exists c' w' m',
           obus_client_io_read_event (S fuel) (S turns) false true c2 w2 m2 =
             client_read fuel (S turns) (k_read (c_tick c2)) c' w' m' /\
           registry_wf w' m' /\ call_finished (w_next w) cl (call_status_of (u8 (call_status_num result))) w2 w')) c w m.
Proof.
  intros S R Ho Hst Hreg Hen Ha Hs Hn Hd. destruct (args_given_wire _ _ _ _ Ha) as [Hw Hi].
  eapply wps_mono; [by eapply (client_call_sends held io obj o OBUS_METHOD_ENABLED desc args)|].
  rewrite Hst, Hreg. cbn [bool_decide andb]. intros r c1 w1 m1 H handle -> Hh. cbv zeta.
  destruct H as ((R1 & _ & _ & Hz & Hfree & [A1 A2 A3 A4 A5] & Hout) & _). split; [exact R1|]. split; [|split; [exact Hout|]].
  { intros Hdet p cl Hin Hcl. rewrite A3 in Hcl. destruct (decide (p = w_next w)) as [->|Hne].
    - rewrite lookup_insert_eq in Hcl. by injection Hcl as <-.
    - rewrite lookup_insert_ne in Hcl by done. apply (Hdet p); [|done].
      rewrite A2 in Hin. apply elem_of_app in Hin as [?|Hin]; [done|]. by apply list_elem_of_singleton in Hin. }
  eexists. split; [rewrite A3; apply lookup_insert_eq|]. split; [by rewrite A1, lookup_insert_eq|].
  do 4 (split; [done|]). intros d q o' state handler. split.
  - intros s ws ms p fuel turns HS HP. rewrite (call_size o desc 0 handle) in Hs.
    destruct (run_serve d o desc p q o' state handler handle ocs _ fuel turns s ws ms HS Hi Hh Hs HP)
      as (s' & w' & m' & E & H1 & H2 & _ & H3 & H4). exists s', w', m'. by split_and!.
  - intros c2 w2 m2 fuel turns R2 Hdet Hp Hcl Hr. by apply (run_acknowledged handle).
Qed.
End EndToEnd.

(** ** Witnesses: a client and a server of one object *)

Section Witnesses.
#[local] Existing Instance ample_alloc.
#[local] Existing Instance wit_kernel.
#[local] Existing Instance wit_kernel_blocks.
#[local] Existing Instance wit_acker.
#[local] Existing Instance wit_acker_answers.
#[local] Existing Instance wit_healthy.
#[local] Existing Instance wit_quiet_client.

Definition wit_callee_bus : obus_bus_desc := BusDesc [ob_desc wit_callee] [BusEventDesc 41 1] 79.
Definition wit_served : obus_object :=
  Object true false (ob_desc wit_callee) 9 true 0 (ob_info wit_callee) [55].
Definition wit_served_w (api : obus_bus_api) : world :=
  World (Bus api wit_none [] wit_known_table [1%positive] wit_none []) {[1%positive := wit_served]} ∅ ∅ ∅ ∅ 2 [].

Lemma wit_served_loaded : exists api, bus_loaded wit_callee_bus (wit_served_w api).
Proof.
  assert (bus_desc_ok wit_callee_bus) as D.
  { constructor; [apply NoDup_singleton..|].
    intros o ->%list_elem_of_singleton. cbn.
    unfold uid_ok. cbn. split; [lia|]. split; [apply NoDup_singleton|]. split; [apply Forall_singleton; cbn; lia|]. split; [apply NoDup_nil_2|apply Forall_nil_2]. }
  destruct (wp_bus_api_init wit_callee_bus mem0
    (fun r m' => api_holds (snd r) (bd_objects wit_callee_bus) (bd_events wit_callee_bus) m') D)
    as ([ret api] & m' & _ & H); [done|].
  exists api. split; [exact D|]. by exists m'.
Qed.

Lemma wit_knows api n : bus_loaded wit_callee_bus (wit_served_w api) ->
  knows_callee wit_callee_bus wit_callee wit_method_args 1 wit_served (wit_served_w api) (Mem ∅ 1 (S n)).
Proof.
  intros H. constructor; [constructor|by left]; [exact H| |by left|cbn; lia|vm_compute; reflexivity|reflexivity|reflexivity].
  constructor; [apply wit_known_table_wf|]. intros hdl p (e & He & <- & <-)%(reg_lookup _ (Mem ∅ 1 1));
    [|apply (wit_known_table_wf 0)]. cbn in He. apply list_elem_of_singleton in He as ->.
  split; [done|]. by eexists.
Qed.

Lemma wit_serves api : bus_loaded wit_callee_bus (wit_served_w api) ->
  serves wit_callee_bus wit_callee wit_method_args 1 wit_served OBUS_METHOD_ENABLED 55
    wit_srv (wit_served_w api) (Mem ∅ 1 1).
Proof.
  intros H. constructor; [by apply wit_knows|by intros p [x Hx]|exact wit_srv_wf|unfold small_buffers; cbn; lia|].
  intros m1 _. split; reflexivity.
Qed.

Lemma wit_args_given m : (forall s o, cstr_chars wit_mem s = Some o -> cstr_chars m s = Some o) ->
  args_given m wit_method_args (Some wit_struct) (Some wit_contents).
Proof.
  intros H. split; [exact wit_struct_shape|]. split; [|split; [exact wit_contents_ok|cbn; lia]].
  destruct wit_struct_denotes as [D1 D2 D3]. constructor; [done..|]. intros i f a Hf Ha.
  eapply field_denotes_impl; [|by eapply D3]. intros [x|s] [y|t]; try done. apply H.
Qed.

(** A call with its arguments, in the world of its caller. *)
Definition wit_sent_w : world :=
  set_calls wit_caller_world {[7%positive := new_call 1 wit_method_args 5 300 (Some wit_struct)]}.

Lemma call_roundtrip_witness :
  exists api, bus_loaded wit_callee_bus (wit_served_w api) /\
  wpw (obus_packet_call_encode wit_buf 7)
      (fun r w' m' => fst r = 0 /\
         forall rb, objects_wf (wit_served_w api) m' -> buf_wf rb -> buf_pos rb = 0 ->
           buf_bytes rb = buf_bytes (snd r) ++ [] ->
           wpw (obus_packet_decoder_read 1 wit_decoder rb [])
               (fun x w2 m2 => let '(ret, info, _, _, _) := x in
                  ret = 0 /\ info = Some (InfoCall 2) /\
                  exists args', args_received m2 wit_method_args (Some wit_contents) args' /\
                    w_calls w2 = {[2%positive := received_call 1 wit_method_args 300 args']})
               (wit_served_w api) m') wit_sent_w wit_mem.
Proof.
  destruct wit_served_loaded as [api HL]. exists api. split; [exact HL|].
  eapply wpw_mono; [apply (call_roundtrip 7 1 wit_callee wit_method_args 5 300 (Some wit_struct) (Some wit_contents)
    wit_buf wit_sent_w wit_mem)|].
  - exact wit_mem_wf.
  - exact wit_buf_wf.
  - reflexivity.
  - reflexivity.
  - by apply wit_args_given.
  - lia.
  - vm_compute. reflexivity.
  - intros [ret b'] w' m' (Hr & _ & H). split; [exact Hr|]. intros rb RO Wr Hp Hb.
    eapply wpw_mono; [apply (H wit_callee_bus 1%positive wit_served wit_decoder rb [] [] 0%nat (wit_served_w api)); [|exact Wr|exact Hp|exact Hb|reflexivity]|].
    + destruct (wit_knows api 0 HL) as [[K1 _ K3 K4 K5 K6 K7] K8]. constructor; [by constructor|done].
    + intros [[[[ret' info] d'] rb'] sc'] w2 m2 (H1 & _ & _ & _ & H2 & _ & args & H3 & ->).
      split; [exact H1|]. split; [exact H2|]. exists args. split; [exact H3|reflexivity].
Defined.

(** A buffer that has received the bytes [l]. *)
Definition wit_received (l : list Z) : buffer := Buffer (Z.of_nat (length l)) (Z.of_nat (length l)) 0 l 1.

Lemma wit_received_wf l :
  0 <? Z.of_nat (length l) = true -> Z.of_nat (length l) <? 1000 = true -> forallb (fun x => (0 <=? x) && (x <? 256)) l = true ->
  buf_wf (wit_received l).
Proof.
  intros H1%Z.ltb_lt H2%Z.ltb_lt H3. constructor; unfold PTRDIFF_MAX; cbn [wit_received buf_size buf_length buf_pos buf_data buf_refcnt]; [lia|lia|lia|done|].
  apply Forall_forall. intros x Hx%list_elem_of_In. rewrite forallb_forall in H3.
  apply H3 in Hx as [?%Z.leb_le ?%Z.ltb_lt]%andb_true_iff. by split.
Qed.

(** The call is given the handle 7. *)
Definition wit_call_bytes : list Z := call_wire wit_callee wit_method_args 7 (args_bytes wit_method_args (Some wit_contents)).
Definition wit_call_buf : buffer := wit_received (packet_wire OBUS_PKT_CALL wit_call_bytes).
Definition wit_ack_buf : buffer := wit_received (packet_wire OBUS_PKT_ACK (ack_wire 7 1)).

Definition wit_called_srv : obus_server := peer_turned wit_srv 1 (wit_peer PEER_STATE_CONNECTED 1) wit_call_buf wit_decoder.
Definition wit_acked_client : obus_client := set_cpool wit_caller (set_buf wit_io_pool 1 wit_ack_buf).

Lemma wit_called_serves api : bus_loaded wit_callee_bus (wit_served_w api) ->
  serves wit_callee_bus wit_callee wit_method_args 1 wit_served OBUS_METHOD_ENABLED 55 wit_called_srv (wit_served_w api) (Mem ∅ 1 1).
Proof.
  intros H. destruct (wit_serves api H) as [K1 K2 K3 K4 K5]. constructor; [done|done| |exact K4|done].
  apply (peer_turned_wf wit_srv 1 _ wit_srv_buf); [done|reflexivity|reflexivity| |reflexivity].
  apply wit_received_wf; vm_compute; reflexivity.
Qed.

Lemma wit_call_received : peer_received wit_called_srv 1 OBUS_PKT_CALL wit_call_bytes.
Proof.
  exists (wit_peer PEER_STATE_CONNECTED 1), wit_call_buf, []. split_and!; [reflexivity..|].
  split; [apply wit_received_wf; vm_compute; reflexivity|]. split; vm_compute; reflexivity.
Qed.

Lemma wit_ack_received : client_received wit_acked_client OBUS_PKT_ACK (ack_wire 7 1).
Proof.
  exists 1%positive, wit_ack_buf, []. split_and!; [reflexivity..|].
  split; [apply wit_received_wf; vm_compute; reflexivity|]. split; vm_compute; reflexivity.
Qed.

(** The server answers 1 (ACKED); the handler of the caller, 5, is told. *)
Lemma method_call_answered_witness :
  exists api c1 w1 m1,
    obus_client_call 1 wit_method_args (Some wit_struct) 5 wit_caller wit_caller_world wit_caller_mem =
      Some (((0, Some 7), c1), w1, m1) /\
    client_out c1 = packet_wire OBUS_PKT_CALL wit_call_bytes /\
    (exists s' w' m', obus_peer_io_read_event 2 1 false true 1 wit_called_srv (wit_served_w api) (Mem ∅ 1 1) =
       (_ ← on_bus (obus_call_destroy 2); read_packets 1 1 1 (k_read 0)) s' w' m' /\
       peer_out s' 1%positive = packet_wire OBUS_PKT_ACK (ack_wire 7 1)) /\
    exists c' w' m', obus_client_io_read_event 2 1 false true wit_acked_client w1 m1 = client_read 1 1 (k_read 0) c' w' m' /\
      w_notes w' = w_notes w1 ++ [(1%positive, 7, OBUS_CALL_ACKED)].
Proof.
  destruct wit_served_loaded as [api HL]. exists api.
  eassert (wps (obus_client_call 1 wit_method_args (Some wit_struct) 5) _ wit_caller wit_caller_world wit_caller_mem) as HW.
  { apply (method_call_answered [1%positive] wit_io 1 wit_callee wit_method_args
      (Some wit_struct) (Some wit_contents) 5 wit_caller wit_caller_world wit_caller_mem).
    - split; [reflexivity|exact wit_io_wf].
    - exact wit_caller_wf.
    - reflexivity.
    - reflexivity.
    - reflexivity.
    - vm_compute. reflexivity.
    - by apply wit_args_given.
    - vm_compute. reflexivity.
    - reflexivity.
    - apply draws_end_free. vm_compute. reflexivity. }
  destruct HW as ([[r c1] w1] & m1 & E & H). cbn [fst snd] in H.
  assert (option_map (fun x => fst (fst (fst x))) (obus_client_call 1 wit_method_args (Some wit_struct) 5 wit_caller wit_caller_world wit_caller_mem)
    = Some (0, Some 7)) as Hr by (vm_compute; reflexivity).
  rewrite E in Hr. injection Hr as ->. exists c1, w1, m1. split; [exact E|].
  destruct (H 7 eq_refl ltac:(lia)) as (R1 & Hdet & Hout & cl & Hcl & Hreg & E1 & E2 & E3 & _ & HA).
  destruct (HA wit_callee_bus 1%positive wit_served OBUS_METHOD_ENABLED 55) as [HS HC].
  split; [exact Hout|]. split.
  - destruct (HS wit_called_srv (wit_served_w api) (Mem ∅ 1 1) 1%positive 1%nat 0%nat (wit_called_serves api HL) wit_call_received)
      as (s' & w' & m' & Hrun & _ & _ & Ho & _). exists s', w', m'. split; [exact Hrun|exact Ho].
  - destruct (HC wit_acked_client w1 m1 1%nat 0%nat R1 (Hdet ltac:(intros p cl0 _; apply wit_calls_detached)) Hreg Hcl wit_ack_received)
      as (c' & w' & m' & Hrun & _ & _ & _ & _ & Hn & _). exists c', w', m'. split; [exact Hrun|].
    rewrite Hn, E1, E2, E3. reflexivity.
Defined.
End Witnesses.
