(* ===== verification/Utils.v ===== *)
(** * obus_utils.c: descriptor flags, environment variables, random handles

    The kernel is a class of functions on an abstract state [K]; a system call
    answers with a value or an errno.  The environment is a function.  A loop
    that retries an interrupted call has as fuel the number of interruptions
    the kernel has left ([k_interrupts]). *)
From Stdlib Require Import String Ascii.
From S2P Require Import Prelude Mem Cstring.

Inductive sysret :=
| SysOk (v : Z)
| SysErr (errno : Z).

(** Computations on the kernel alone. *)
Definition KM (K A : Type) : Type := K -> A * K.
#[export] Instance KM_ret {K} : MRet (KM K) := fun A a k => (a, k).
#[export] Instance KM_bind {K} : MBind (KM K) := fun A B f c k => let '(a, k') := c k in f a k'.

Class FdKernel (K : Type) := {
  sys_fcntl : Z -> Z -> Z -> KM K sysret;     (* descriptor, command, argument *)
  sys_dup : Z -> KM K sysret;
  sys_close : Z -> KM K sysret;
  sys_open : list Z -> KM K sysret;           (* read only *)
  sys_read : Z -> Z -> KM K (list Z + Z);     (* the bytes read, or an errno *)
  k_interrupts : K -> nat;                        (* interruptions of calls to come *)
  read_interrupts : forall fd n k k',
    sys_read fd n k = (inr EINTR, k') -> (k_interrupts k' < k_interrupts k)%nat
}.

Definition F_GETFD : Z := 1.
Definition F_SETFD : Z := 2.
Definition F_GETFL : Z := 3.
Definition F_SETFL : Z := 4.
Definition FD_CLOEXEC : Z := 1.
Definition O_NONBLOCK : Z := 2048.

(** The [int] of a call that returns [-errno] on failure. *)
Definition sys_code (r : sysret) : Z :=
  match r with SysOk v => v | SysErr e => - e end.

Section Descriptors.
Context {K : Type} {FK : FdKernel K}.

Definition obus_fd_set_close_on_exec (fd : Z) : KM K Z :=
  old ← sys_fcntl fd F_GETFD 0;
  match old with
  | SysErr e => mret (- e)
  | SysOk old =>
    ret ← sys_fcntl fd F_SETFD (Z.lor FD_CLOEXEC old);
    match ret with
    | SysErr e => mret (- e)
    | SysOk _ => mret 0
    end
  end.

Definition obus_fd_has_close_on_exec (fd : Z) : KM K bool :=
  flags ← sys_fcntl fd F_GETFD 0;
  match flags with
  | SysErr _ => mret false
  | SysOk flags => mret (negb (Z.land flags FD_CLOEXEC =? 0))
  end.

Definition obus_fd_add_flags (fd flags : Z) : KM K Z :=
  old ← sys_fcntl fd F_GETFL 0;
  match old with
  | SysErr e => mret (- e)
  | SysOk old =>
    ret ← sys_fcntl fd F_SETFL (Z.lor old flags);
    match ret with
    | SysErr e => mret (- e)
    | SysOk _ => mret 0
    end
  end.

Definition obus_fd_dup (fd : Z) : KM K Z :=
  newfd ← sys_dup fd;
  match newfd with
  | SysErr e => mret (- e)
  | SysOk newfd =>
    cloexec ← obus_fd_has_close_on_exec fd;
    if cloexec : bool then
      ret ← obus_fd_set_close_on_exec newfd;
      if failed ret then _ ← sys_close newfd; mret ret else mret newfd
    else mret newfd
  end.
End Descriptors.

(** ** Environment *)

Definition chars (s : string) : list Z := map (fun c => Z.of_N (N_of_ascii c)) (list_ascii_of_string s).

(** [getenv]; a value is the characters before the terminator. *)
Class Environment := getenv : list Z -> option (list Z).

(** Byte [i] of a string, terminator included. *)
Definition char_at (v : list Z) (i : nat) : Z := default 0 (v !! i).

(** [isspace] and [strtoul (s, &endptr, 10)]: the value and whether [endptr]
    has moved. *)
Definition is_space (c : Z) : bool := (c =? 32) || ((9 <=? c) && (c <=? 13)).
Definition is_digit (c : Z) : bool := (48 <=? c) && (c <=? 57).

Fixpoint skip_spaces (s : list Z) : list Z :=
  match s with
  | c :: s' => if is_space c then skip_spaces s' else s
  | [] => []
  end.

Fixpoint digits (s : list Z) (acc : Z) : Z :=
  match s with
  | c :: s' => if is_digit c then digits s' (acc * 10 + (c - 48)) else acc
  | [] => acc
  end.

Definition ULONG_MAX : Z := 2 ^ 64 - 1.

Definition strtoul (s : list Z) : Z * bool :=
  let s := skip_spaces s in
  let '(neg, s) := match s with
    | c :: s' => if c =? 45 then (true, s') else if c =? 43 then (false, s') else (false, s)
    | [] => (false, s)
    end in
  if negb (is_digit (char_at s 0)) then (0, false) else
  let v := digits s 0 in
  if ULONG_MAX <? v then (ULONG_MAX, true) else (if neg then u64 (- v) else v, true).

(** [strstr]: the offset of the first occurrence. *)
Fixpoint strstr (hay needle : list Z) : option nat :=
  if bool_decide (needle `prefix_of` hay) then Some O else
  match hay with
  | [] => None
  | _ :: hay' => option_map S (strstr hay' needle)
  end.

Definition OBUS_LOG_BUS : Z := Z.shiftl 1 0.
Definition OBUS_LOG_IO : Z := Z.shiftl 1 1.
Definition OBUS_LOG_SOCKET : Z := Z.shiftl 1 2.
Definition OBUS_LOG_CONNECTION : Z := Z.shiftl 1 3.

Section Env.
Context {EN : Environment}.

Definition obus_get_env (key : option (list Z)) : option (list Z) :=
  match key with Some key => getenv key | None => None end.

(** The code, and the value stored when it is 0. *)
Definition obus_get_env_uint32 (key : option (list Z)) : Z * option Z :=
  match key with
  | None => (- ENOENT, None)
  | Some key =>
    match getenv key with
    | None => (- ENOENT, None)
    | Some env =>
      if char_at env 0 =? 0 then (- ENOENT, None) else
      let '(val, moved) := strtoul env in
      if negb moved then (- ENOENT, None) else (0, Some (u32 val))
    end
  end.

Definition obus_check_env (key : option (list Z)) (value : option (list Z)) : Z :=
  match obus_get_env key, value with
  | Some v, Some value => if decide (v = value) then 1 else 0
  | _, _ => 0
  end.

(** The search loop, [pos] the offset of the scan; [None]: out of fuel. *)
Fixpoint flag_scan (fuel : nat) (v bus_name : list Z) (pos : nat) : option bool :=
  match fuel with
  | O => None
  | S fuel' =>
    match strstr (drop pos v) bus_name with
    | None => Some false
    | Some off =>
      let start := (pos + off)%nat in
      let end_ := (start + length bus_name)%nat in
      if ((start =? 0)%nat || (char_at v (start - 1) =? 44)) &&
         ((char_at v end_ =? 0) || (char_at v end_ =? 44))
      then Some true
      else flag_scan fuel' v bus_name end_
    end
  end.

Definition obus_bus_has_flag (flag bus_name : list Z) : option bool :=
  match obus_get_env (Some flag) with
  | None => Some false
  | Some v =>
    if decide (v = chars "all") then Some true else
    if decide (v = chars "1") then Some true else
    flag_scan (S (length v)) v bus_name 0
  end.

(** [if (all || obus_bus_has_flag (flag, bus_name)) flags |= bit] *)
Definition add_log_flag (all : bool) (flag bus_name : list Z) (bit flags : Z) : option Z :=
  on ← (if all then Some true else obus_bus_has_flag flag bus_name);
  Some (if on : bool then Z.lor flags bit else flags).

Definition obus_get_log_flags_from_env (bus_name : list Z) : option Z :=
  all ← obus_bus_has_flag (chars "OBUS_LOG_ALL") bus_name;
  flags ← add_log_flag all (chars "OBUS_LOG_IO") bus_name OBUS_LOG_IO 0;
  flags ← add_log_flag all (chars "OBUS_LOG_BUS") bus_name OBUS_LOG_BUS flags;
  flags ← add_log_flag all (chars "OBUS_LOG_SOCKET") bus_name OBUS_LOG_SOCKET flags;
  add_log_flag all (chars "OBUS_LOG_CONNECTION") bus_name OBUS_LOG_CONNECTION flags.
End Env.

(** ** Random handles *)

Section Rand.
Context {K : Type} {FK : FdKernel K}.

Definition rand_files : list (list Z) := [chars "/dev/urandom"; chars "/system/dev/urandom"].

Fixpoint open_first (files : list (list Z)) : KM K Z :=
  match files with
  | [] => mret (-1)
  | f :: files' =>
    fd ← sys_open f;
    match fd with
    | SysOk fd => mret fd
    | SysErr _ => open_first files'
    end
  end.

(** [do { ret = read } while (ret == -1 && errno == EINTR)] *)
Fixpoint read_eintr (fuel : nat) (fd n : Z) : KM K (option (list Z + Z)) :=
  match fuel with
  | O => mret None
  | S fuel' =>
    r ← sys_read fd n;
    match r with
    | inr e => if e =? EINTR then read_eintr fuel' fd n else mret (Some r)
    | inl _ => mret (Some r)
    end
  end.

(** The two bytes of the union, in the order of the host (little endian);
    [None] is indeterminate. *)
Definition handle_bytes (bs : list Z) (old : list (option Z)) : list (option Z) :=
  map Some bs ++ drop (length bs) old.

Definition handle_value (buf : list (option Z)) : option Z :=
  match buf with
  | [Some b0; Some b1] => Some (b0 + 256 * b1)
  | _ => None
  end.

(** [None]: the handle read is indeterminate, or out of fuel.  One turn per
    handle drawn. *)
Fixpoint draw_loop (fuel : nat) (fd : Z) (buf : list (option Z)) : KM K (option Z) :=
  match fuel with
  | O => mret None
  | S fuel' => fun k =>
    (r ← read_eintr (S (k_interrupts k)) fd 2;
     match r with
     | None => mret None
     | Some (inr _) => _ ← sys_close fd; mret (Some 0)
     | Some (inl bs) =>
       let buf := handle_bytes (take 2 bs) buf in
       match handle_value buf with
       | None => mret None
       | Some h => if h =? 0 then draw_loop fuel' fd buf else _ ← sys_close fd; mret (Some h)
       end
     end) k
  end.

Definition obus_rand_handle (fuel : nat) : KM K (option Z) :=
  fd ← open_first rand_files;
  if fd =? -1 then mret (Some 0) else draw_loop fuel fd [None; None].
End Rand.

(** ** Comma-separated lists *)

(** The words of a list separated by commas. *)
Fixpoint words (v : list Z) : list (list Z) :=
  match v with
  | [] => [[]]
  | c :: v' =>
    if c =? 44 then [] :: words v' else
    match words v' with
    | w :: ws => (c :: w) :: ws
    | [] => [[c]]
    end
  end.

Lemma words_some v : words v <> [].
Proof. induction v as [|c v IH]; [done|]. cbn. destruct (c =? 44); [done|]. by destruct (words v). Qed.

Lemma words_comma a v : words (a ++ 44 :: v) = words a ++ words v.
Proof.
  induction a as [|c a IH]; [done|]. cbn. rewrite IH. destruct (c =? 44); [done|].
  pose proof (words_some a). by destruct (words a).
Qed.

Lemma words_one w : 44 ∉ w -> words w = [w].
Proof.
  induction w as [|c w IH]; [done|]. intros [Hc Hw]%not_elem_of_cons. cbn.
  destruct (Z.eqb_spec c 44); [done|]. by rewrite (IH Hw).
Qed.

(** A word, with what surrounds it. *)
Lemma words_occurrence v w :
  44 ∉ w ->
  w ∈ words v <->
  exists pre post, v = pre ++ w ++ post /\ (pre = [] \/ last pre = Some 44) /\
                   (post = [] \/ head post = Some 44).
Proof.
  intros Hw. split.
  - revert v. assert (forall n v, (length v <= n)%nat -> w ∈ words v ->
      exists pre post, v = pre ++ w ++ post /\ (pre = [] \/ last pre = Some 44) /\
                       (post = [] \/ head post = Some 44)) as H; [|intros v; by apply (H (length v))].
    induction n as [|n IH]; intros v Hn; (destruct (decide (44 ∈ v)) as [Hv|Hv];
      [|rewrite words_one by done; intros ->%list_elem_of_singleton; exists [], []; rewrite app_nil_r; auto]);
      [destruct v; [by apply not_elem_of_nil in Hv|cbn in Hn; lia]|].
    apply list_elem_of_split_l in Hv as (a & b & -> & Ha). rewrite words_comma, words_one by done.
    rewrite length_app in Hn. cbn in Hn. intros [->|H]%elem_of_cons.
    + exists [], (44 :: b). split_and!; [done|by left|by right].
    + destruct (IH b ltac:(lia) H) as (pre & post & -> & Hpre & Hpost).
      exists (a ++ 44 :: pre), post. split_and!; [by rewrite <- app_assoc| |done]. right.
      rewrite last_app. cbn. destruct Hpre as [->|Hl]; [done|]. destruct pre; [done|]. by rewrite last_cons_cons, Hl.
  - intros (pre & post & -> & Hpre & Hpost).
    assert (w ∈ words (w ++ post)) as H.
    { destruct Hpost as [->|Hh]; [rewrite app_nil_r, words_one by done; by left|].
      destruct post as [|c post]; [done|]. injection Hh as ->. rewrite words_comma, words_one by done. by left. }
    destruct Hpre as [->|Hl]; [done|]. apply last_Some in Hl as [a ->].
    rewrite <- app_assoc. cbn. rewrite words_comma. apply elem_of_app. by right.
Qed.

Lemma strstr_spec hay needle :
  match strstr hay needle with
  | Some off => needle `prefix_of` drop off hay /\ (off <= length hay)%nat /\
                forall i, (i < off)%nat -> ~ needle `prefix_of` drop i hay
  | None => forall i, ~ needle `prefix_of` drop i hay
  end.
Proof.
  induction hay as [|c hay IH]; cbn [strstr]; case_bool_decide as Hp.
  - split_and!; [done|done|lia].
  - intros i. by rewrite drop_nil.
  - split_and!; [done|lia|lia].
  - destruct (strstr hay needle) as [off|]; cbn [option_map].
    + destruct IH as (H1 & H2 & H3). split_and!; [done|cbn; lia|].
      intros [|i] Hi; [done|]. apply H3. lia.
    + intros [|i]; [done|]. apply IH.
Qed.

Section Flags.
Context (v name : list Z).
Hypothesis v_str : c_str v.
Hypothesis name_word : name <> [] /\ 44 ∉ name.

(** An occurrence of the name between separators. *)
Definition word_at (t : nat) : Prop :=
  (t = O \/ char_at v (t - 1) = 44) /\ name `prefix_of` drop t v /\
  (char_at v (t + length name) = 0 \/ char_at v (t + length name) = 44).

Lemma char_at_app a b : char_at (a ++ b) (length a) = default 0 (head b).
Proof. unfold char_at. rewrite lookup_app_r, Nat.sub_diag by lia. by destruct b. Qed.

Lemma char_at_end i : (i <= length v)%nat -> char_at v i = 0 -> i = length v.
Proof.
  intros Hi H0. destruct (decide (i = length v)) as [|Hne]; [done|exfalso].
  destruct (lookup_lt_is_Some_2 v i) as [c Hc]; [lia|]. unfold char_at in H0. rewrite Hc in H0. cbn in H0.
  unfold c_str in v_str. rewrite Forall_forall in v_str. specialize (v_str c (list_elem_of_lookup_2 _ _ _ Hc)). lia.
Qed.

Lemma word_at_words : (exists t, word_at t) <-> name ∈ words v.
Proof.
  destruct name_word as [_ Hc]. rewrite words_occurrence by done. split.
  - intros (t & Ht & [post Hp] & He). exists (take t v), post.
    assert (v = take t v ++ name ++ post) as Hv by (by rewrite <- Hp, take_drop).
    destruct (decide (t <= length v)%nat) as [Htl|Htl].
    2:{ rewrite drop_ge in Hp by lia. destruct name; [by destruct name_word|done]. }
    assert (length (take t v) = t) as Hl by (rewrite length_take; lia).
    split_and!; [done| |].
    + destruct Ht as [->|Ht]; [by left|]. destruct t as [|t]; [by left|]. right.
      rewrite last_lookup, Hl. cbn. rewrite lookup_take_lt by lia. unfold char_at in Ht.
      replace (S t - 1)%nat with t in Ht by lia. destruct (v !! t); cbn in Ht; congruence.
    + assert (char_at v (t + length name) = default 0 (head post)) as Hh.
      { rewrite Hv at 1. rewrite app_assoc, <- char_at_app with (a := take t v ++ name).
        by rewrite length_app, Hl. }
      rewrite Hh in He. destruct post as [|c post]; [by left|]. cbn in He. right. destruct He as [->| ->]; [|done].
      exfalso. assert (length v = t + length name + S (length post))%nat as HL
        by (rewrite Hv, !length_app, Hl; cbn; lia).
      apply char_at_end in Hh; cbn in *; lia.
  - intros (pre & post & Hv & Hpre & Hpost). exists (length pre). unfold word_at. rewrite Hv.
    split_and!.
    + destruct Hpre as [->|Hl]; [by left|]. right. apply last_Some in Hl as [a ->].
      rewrite length_app. cbn [length]. replace (length a + 1 - 1)%nat with (length a) by lia.
      rewrite <- app_assoc. by rewrite char_at_app.
    + rewrite drop_app_length. by exists post.
    + rewrite app_assoc, <- length_app, char_at_app. destruct Hpost as [->|H]; [by left|right].
      destruct post; [done|]. by injection H as ->.
Qed.

(** The scan finds such an occurrence at [pos] or later, if there is one. *)
Lemma flag_scan_spec fuel pos :
  (pos <= length v)%nat -> (length v - pos < fuel)%nat ->
  exists b, flag_scan fuel v name pos = Some b /\ (b = true <-> exists t, (pos <= t)%nat /\ word_at t).
Proof.
  destruct name_word as [Hn Hc]. revert pos. induction fuel as [|fuel IH]; intros pos Hp Hf; [lia|]. cbn [flag_scan].
  pose proof (strstr_spec (drop pos v) name) as HS. destruct (strstr (drop pos v) name) as [off|].
  2:{ exists false. split; [done|]. split; [done|]. intros (t & Ht & _ & Hpre & _). exfalso.
      apply (HS (t - pos)%nat). rewrite drop_drop. by replace (pos + (t - pos))%nat with t by lia. }
  destruct HS as (Hpre & Ho & Hfirst). rewrite drop_drop in Hpre. rewrite length_drop in Ho.
  assert (0 < length name)%nat as Hnl by (destruct name; [done|cbn; lia]).
  assert (pos + off + length name <= length v)%nat as Hle.
  { destruct Hpre as [r Hr]. apply (f_equal length) in Hr. rewrite length_drop, length_app in Hr. lia. }
  match goal with |- context [if ?b then _ else _] => destruct b eqn:Eb end.
  - exists true. split; [done|]. split; [intros _|done]. exists (pos + off)%nat. split; [lia|].
    apply andb_true_iff in Eb as [E1 E2]. apply orb_true_iff in E1, E2.
    rewrite Nat.eqb_eq, Z.eqb_eq in E1. rewrite !Z.eqb_eq in E2. done.
  - destruct (IH (pos + off + length name)%nat) as (b & Hb & Hiff); [lia|lia|].
    exists b. split; [done|]. rewrite Hiff. split; intros (t & Ht & Hw); exists t; (split; [|done]); [lia|].
    destruct (decide (pos + off + length name <= t)%nat) as [|Hlt]; [done|exfalso].
    destruct Hw as (Ht1 & Ht2 & Ht3).
    destruct (decide (t < pos + off)%nat).
    { apply (Hfirst (t - pos)%nat); [lia|]. rewrite drop_drop. by replace (pos + (t - pos))%nat with t by lia. }
    destruct (decide (t = pos + off)%nat) as [->|].
    + apply andb_false_iff in Eb as [E|E]; apply orb_false_iff in E.
      * rewrite Nat.eqb_neq, Z.eqb_neq in E. lia.
      * rewrite !Z.eqb_neq in E. lia.
    + apply Hc. destruct Ht1 as [->|Ht1]; [lia|]. destruct Hpre as [r Hr].
      assert (v !! (t - 1)%nat = name !! (t - 1 - (pos + off))%nat) as Hl.
      { transitivity (drop (pos + off) v !! (t - 1 - (pos + off))%nat).
        - rewrite lookup_drop. f_equal. lia.
        - rewrite Hr. apply lookup_app_l. lia. }
      unfold char_at in Ht1. rewrite Hl in Ht1. destruct (name !! _) as [c|] eqn:En; [|done].
      cbn in Ht1. subst c. by eapply list_elem_of_lookup_2.
Qed.
End Flags.

(** ** Log flags *)

Section LogFlags.
Context {EN : Environment}.

(** Variable [flag] turns a log on for the bus: it is "all", "1", or a list of
    words with the name of the bus among them. *)
Definition flagged (flag name : list Z) : Prop :=
  exists v, getenv flag = Some v /\ (v = chars "all" \/ v = chars "1" \/ name ∈ words v).

Context (name : list Z).
Hypothesis env_str : forall key v, getenv key = Some v -> c_str v.
Hypothesis name_word : name <> [] /\ 44 ∉ name.

Lemma has_flag_spec flag :
  exists b, obus_bus_has_flag flag name = Some b /\ (b = true <-> flagged flag name).
Proof.
  unfold obus_bus_has_flag, obus_get_env, flagged.
  destruct (getenv flag) as [v|] eqn:E; [|exists false; split; [done|]; split; [done|by intros (v & ? & _)]].
  case_decide as H1; [exists true; split; [done|]; split; [intros _; exists v; by auto|done]|].
  case_decide as H2; [exists true; split; [done|]; split; [intros _; exists v; by auto|done]|].
  destruct (flag_scan_spec v name name_word (S (length v)) 0) as (b & Hb & Hiff); [lia|lia|].
  exists b. split; [done|]. rewrite Hiff. pose proof (word_at_words v name (env_str _ _ E) name_word) as HW.
  split.
  - intros (t & _ & Ht). exists v. split; [done|]. do 2 right. apply HW. by exists t.
  - intros (v' & [= <-] & [?|[?|Hin]]); [done|done|]. apply HW in Hin as [t Ht]. exists t. split; [lia|done].
Qed.

(** For a bus whose name is not empty and holds no comma, the search of the
    environment ends, and each log is on exactly when its variable, or
    OBUS_LOG_ALL, is "all", "1", or a comma-separated list that has the name of
    the bus as one of its words. *)
Theorem log_flags_from_env :
  exists flags, obus_get_log_flags_from_env name = Some flags /\ 0 <= flags < 16 /\
    let on flag := flagged (chars "OBUS_LOG_ALL") name \/ flagged flag name in
    (Z.land flags OBUS_LOG_IO <> 0 <-> on (chars "OBUS_LOG_IO")) /\
    (Z.land flags OBUS_LOG_BUS <> 0 <-> on (chars "OBUS_LOG_BUS")) /\
    (Z.land flags OBUS_LOG_SOCKET <> 0 <-> on (chars "OBUS_LOG_SOCKET")) /\
    (Z.land flags OBUS_LOG_CONNECTION <> 0 <-> on (chars "OBUS_LOG_CONNECTION")).
Proof.
  cbv zeta. unfold obus_get_log_flags_from_env, add_log_flag.
  destruct (has_flag_spec (chars "OBUS_LOG_ALL")) as (a & -> & Ha).
  destruct (has_flag_spec (chars "OBUS_LOG_IO")) as (b1 & -> & H1).
  destruct (has_flag_spec (chars "OBUS_LOG_BUS")) as (b2 & -> & H2).
  destruct (has_flag_spec (chars "OBUS_LOG_SOCKET")) as (b3 & -> & H3).
  destruct (has_flag_spec (chars "OBUS_LOG_CONNECTION")) as (b4 & -> & H4).
  exists (if a then 15 else (if b1 then 2 else 0) + (if b2 then 1 else 0) + (if b3 then 4 else 0) + (if b4 then 8 else 0)).
  rewrite <- Ha, <- H1, <- H2, <- H3, <- H4. clear.
  destruct a, b1, b2, b3, b4; (split; [reflexivity|]); vm_compute; intuition congruence.
Qed.
End LogFlags.

(** An empty name matches everywhere without an advance: the loop never ends. *)
Theorem empty_name_scan_hangs fuel v :
  head v <> None -> head v <> Some 44 -> head v <> Some 0 -> flag_scan fuel v [] 0 = None.
Proof.
  intros H1 H2 H3. destruct v as [|c v]; [done|].
  assert (c <> 0 /\ c <> 44) as [Hc0%Z.eqb_neq Hc%Z.eqb_neq] by (cbn in *; split; congruence).
  induction fuel as [|fuel IH]; [done|]. cbn [flag_scan strstr drop].
  rewrite bool_decide_true by apply prefix_nil. unfold char_at at 2 3. cbn [lookup list_lookup length Nat.add default].
  unfold id. by rewrite Hc0, Hc, andb_false_r.
Qed.

Section Witness.
Definition wit_env : Environment := fun key =>
  if decide (key = chars "OBUS_LOG_IO") then Some (chars "pstree,ps") else None.

Lemma wit_env_str key v : wit_env key = Some v -> c_str v.
Proof.
  unfold wit_env. case_decide; [|done]. intros [= <-].
  assert (forall l, forallb (fun c => (0 <? c) && (c <? 256)) l = true -> c_str l) as H2.
  { intros l Hl. apply Forall_forall. intros c Hc%list_elem_of_In. rewrite forallb_forall in Hl.
    specialize (Hl c Hc). apply andb_true_iff in Hl as [A B]. apply Z.ltb_lt in A, B. lia. }
  apply H2. vm_compute. reflexivity.
Qed.

Lemma wit_name : chars "ps" <> [] /\ 44 ∉ chars "ps".
Proof. split; [done|]. apply (bool_decide_unpack _). vm_compute. exact I. Qed.

(** "ps" is a word of "pstree,ps", although it starts the first word too. *)
Lemma log_flags_from_env_witness :
  @obus_get_log_flags_from_env wit_env (chars "ps") = Some OBUS_LOG_IO /\
  exists flags, @obus_get_log_flags_from_env wit_env (chars "ps") = Some flags /\ 0 <= flags < 16.
Proof.
  split; [vm_compute; reflexivity|].
  destruct (@log_flags_from_env wit_env (chars "ps") wit_env_str wit_name) as (flags & H1 & H2 & _).
  exists flags. split; [exact H1|exact H2].
Defined.

Lemma empty_name_scan_hangs_witness : flag_scan 5 (chars "ps") [] 0 = None.
Proof. apply (empty_name_scan_hangs 5 (chars "ps")); vm_compute; congruence. Defined.
End Witness.

(** ** Random handles *)

Section RandFacts.
Context {K : Type} {FK : FdKernel K}.

(** A call that is interrupted finitely often returns. *)
Lemma read_eintr_total fuel fd n k :
  (k_interrupts k < fuel)%nat ->
  exists r k', read_eintr fuel fd n k = (Some r, k') /\ r <> inr EINTR.
Proof.
  revert k. induction fuel as [|fuel IH]; intros k Hf; [lia|]. cbn [read_eintr]. unfold mbind, KM_bind.
  destruct (sys_read fd n k) as [[bs|e] k'] eqn:E.
  - exists (inl bs), k'. done.
  - destruct (Z.eqb_spec e EINTR) as [->|Hne]; [|exists (inr e), k'; split; [done|congruence]].
    apply IH. apply read_interrupts in E. lia.
Qed.
End RandFacts.
