(* ===== verification/Loop.v ===== *)
(** * obus_loop.c, obus_loop.h: the event loop over epoll

    A loop has a list of registered descriptor objects and an array that
    [epoll_wait] fills; it calls back the objects that are ready.  The state of a
    computation is the kernel, the loop ([None] once freed), the live descriptor
    objects by address, and the data of the application.  Callbacks are arbitrary
    computations on that state and on the heap of the bus: they may add, remove
    and free objects, drop references of the loop or run it again.  A count of
    references is a number without bound. *)
From S2P Require Import Prelude Mem World Handler Utils.

Definition EFAULT : Z := 14.
Definition INT_MAX : Z := 2147483647.

(** ** epoll *)

Record epoll_event := EpollEvent {
  ep_events : Z;
  ep_ptr : positive      (* the member ptr of the union data *)
}.

Definition EPOLLIN : Z := 1.
Definition EPOLLPRI : Z := 2.
Definition EPOLLOUT : Z := 4.
Definition EPOLLERR : Z := 8.
Definition EPOLLHUP : Z := 16.
Definition EPOLLRDHUP : Z := 8192.

Definition EPOLL_CTL_ADD : Z := 1.
Definition EPOLL_CTL_DEL : Z := 2.
Definition EPOLL_CTL_MOD : Z := 3.

(** [sys_epoll_ctl epfd op fd event], [None] for a NULL event, and
    [sys_epoll_wait epfd maxevents timeout]. *)
Class EpollKernel (K : Type) := {
  ek_fd :: FdKernel K;
  sys_epoll_create : KM K sysret;
  sys_epoll_ctl : Z -> Z -> Z -> option epoll_event -> KM K sysret;
  sys_epoll_wait : Z -> Z -> Z -> KM K (list epoll_event + Z);
  wait_interrupts : forall epfd n t k k',
    sys_epoll_wait epfd n t k = (inr EINTR, k') -> (k_interrupts k' < k_interrupts k)%nat
}.

(** ** Descriptor objects *)

Definition OBUS_FD_IN : Z := Z.shiftl 1 0.
Definition OBUS_FD_OUT : Z := Z.shiftl 1 1.
Definition OBUS_FD_ERR : Z := Z.shiftl 1 2.
Definition OBUS_FD_HUP : Z := Z.shiftl 1 3.

(** The list node of the object is its place in the list of the loop. *)
Record obus_fd := Fd {
  fd_loop : bool;        (* the loop pointer is not NULL *)
  fd_dupfd : Z;
  fd_fd : Z;
  fd_events : Z;
  fd_cb : Z;             (* 0: NULL *)
  fd_data : Z
}.

Definition obus_fd_init (fd events cb data : Z) : obus_fd := Fd false (-1) fd events cb data.

Definition obus_fd_is_used (ofd : obus_fd) : Z := if fd_loop ofd then 1 else 0.

Definition obus_fd_reset (ofd : obus_fd) : Z * obus_fd :=
  if fd_loop ofd then (- EBUSY, ofd) else (0, obus_fd_init (-1) 0 0 0).

(** [events & flag] *)
Definition has (events flag : Z) : bool := negb (Z.land events flag =? 0).

Definition obus_fd_event_error (events : Z) : bool := has events OBUS_FD_ERR || has events OBUS_FD_HUP.
Definition obus_fd_event_read (events : Z) : bool := has events OBUS_FD_IN.
Definition obus_fd_event_write (events : Z) : bool := has events OBUS_FD_OUT.

Definition fd_to_epoll_events (events : Z) : Z :=
  let ret := if has events OBUS_FD_IN then Z.lor 0 EPOLLIN else 0 in
  let ret := if has events OBUS_FD_OUT then Z.lor ret EPOLLOUT else ret in
  let ret := if has events OBUS_FD_ERR then Z.lor ret EPOLLERR else ret in
  if has events OBUS_FD_HUP then Z.lor ret EPOLLHUP else ret.

Definition epoll_to_fd_events (events : Z) : Z :=
  let ret := if has events EPOLLIN || has events EPOLLPRI then Z.lor 0 OBUS_FD_IN else 0 in
  let ret := if has events EPOLLOUT then Z.lor ret OBUS_FD_OUT else ret in
  let ret := if has events EPOLLERR then Z.lor ret OBUS_FD_ERR else ret in
  let ret := if has events EPOLLHUP then Z.lor ret OBUS_FD_HUP else ret in
  if has events EPOLLRDHUP then Z.lor ret OBUS_FD_HUP else ret.

(** ** The loop and the state *)

Definition EXTRA_ALLOC_EVENT_NB : Z := 10.

(** [sizeof (struct obus_loop)], [sizeof (struct epoll_event)] *)
Definition LOOP_SIZE : Z := 56.
Definition EPOLL_EVENT_SIZE : Z := 12.

(** An entry of the array that has not been written yet is indeterminate. *)
Record obus_loop := Loop {
  lp_ofds : list positive;
  lp_events : list (option epoll_event);
  lp_nallocevents : Z;
  lp_nfds : Z;
  lp_ref : Z;
  lp_epfd : Z
}.

Record lstate (K U : Type) := LState {
  ls_kern : K;
  ls_loop : option obus_loop;
  ls_fds : gmap positive obus_fd;
  ls_user : U
}.
Arguments LState {K U}.
Arguments ls_kern {K U}.
Arguments ls_loop {K U}.
Arguments ls_fds {K U}.
Arguments ls_user {K U}.

Section State.
Context {K U : Type}.
Implicit Types (s : lstate K U) (lp : obus_loop).

Definition set_kern s k : lstate K U := LState k (ls_loop s) (ls_fds s) (ls_user s).
Definition set_loop s l : lstate K U := LState (ls_kern s) l (ls_fds s) (ls_user s).
Definition set_fds s fds : lstate K U := LState (ls_kern s) (ls_loop s) fds (ls_user s).
Definition set_user s u : lstate K U := LState (ls_kern s) (ls_loop s) (ls_fds s) u.

Definition set_ofds lp l : obus_loop :=
  Loop l (lp_events lp) (lp_nallocevents lp) (lp_nfds lp) (lp_ref lp) (lp_epfd lp).
Definition set_events lp l n : obus_loop := Loop (lp_ofds lp) l n (lp_nfds lp) (lp_ref lp) (lp_epfd lp).
Definition set_nfds lp n : obus_loop :=
  Loop (lp_ofds lp) (lp_events lp) (lp_nallocevents lp) n (lp_ref lp) (lp_epfd lp).
Definition set_ref lp n : obus_loop :=
  Loop (lp_ofds lp) (lp_events lp) (lp_nallocevents lp) (lp_nfds lp) n (lp_epfd lp).
End State.

Definition with_fd_loop (o : obus_fd) b : obus_fd := Fd b (fd_dupfd o) (fd_fd o) (fd_events o) (fd_cb o) (fd_data o).
Definition with_dupfd (o : obus_fd) d : obus_fd := Fd (fd_loop o) d (fd_fd o) (fd_events o) (fd_cb o) (fd_data o).

Notation LM K U := (StW (lstate K U)).

(** What the application's callbacks do, by address: [fd_callback cb ofd events
    data]. *)
Class LoopCode (K U : Type) := fd_callback : Z -> positive -> Z -> Z -> LM K U unit.

Section Ops.
Context {K U : Type} {EK : EpollKernel K} {AL : Allocator}.

(** System calls, and accesses to the loop and to a live object. *)
Definition kern {A} (c : KM K A) : LM K U A :=
  fun s => let r := c (ls_kern s) in mret (fst r, set_kern s (snd r)).

Definition get_loop : LM K U obus_loop := lp ← sv_gets ls_loop; on_mem (m_lift lp).
Definition put_loop (lp : obus_loop) : LM K U unit := sv_modify (fun s => set_loop s (Some lp)).
Definition get_fd (p : positive) : LM K U obus_fd :=
  fds ← sv_gets ls_fds; on_mem (m_lift (fds !! p)).
Definition put_fd (p : positive) (o : obus_fd) : LM K U unit :=
  sv_modify (fun s => set_fds s (<[p := o]> (ls_fds s))).

(** The result of an [int] operation that must not overflow. *)
Definition int_result (z : Z) : LM K U Z :=
  if (- INT_MAX - 1 <=? z) && (z <=? INT_MAX) then mret z else sv_undef.

(** The list of the loop; undefined when it links an object that has been
    freed. *)
Definition get_ofds : LM K U (list positive) :=
  lp ← get_loop;
  fds ← sv_gets ls_fds;
  if decide (Forall (fun p => is_Some (fds !! p)) (lp_ofds lp)) then mret (lp_ofds lp) else sv_undef.

(** The walk that looks for [ofd] in the list. *)
Definition is_listed (p : positive) : LM K U bool := l ← get_ofds; mret (bool_decide (p ∈ l)).

(** [epoll_create (1)] and the flags of its descriptor; [None] is NULL. *)
Definition loop_setup : KM K (option obus_loop) :=
  epfd ← sys_epoll_create;
  match epfd with
  | SysErr _ => mret None
  | SysOk epfd =>
    ret ← obus_fd_set_close_on_exec epfd;
    if failed ret then _ ← sys_close epfd; mret None else
    ret ← obus_fd_add_flags epfd O_NONBLOCK;
    if failed ret then _ ← sys_close epfd; mret None else
    mret (Some (Loop [] [] 0 0 1 epfd))
  end.

Definition obus_loop_new (k : K) : M (option obus_loop * K) :=
  a ← m_alloc LOOP_SIZE;
  match a with
  | None => mret (None, k)
  | Some _ => mret (loop_setup k)
  end.

Definition obus_loop_destroy : LM K U Z :=
  lp ← get_loop;
  _ ← get_ofds;
  _ ← kern (sys_close (lp_epfd lp));
  sv_modify (fun s => set_loop s None);;
  mret 0.

Definition obus_loop_ref : LM K U unit :=
  lp ← get_loop; put_loop (set_ref lp (lp_ref lp + 1)).

Definition obus_loop_unref : LM K U Z :=
  lp ← get_loop;
  let lp := set_ref lp (lp_ref lp - 1) in
  put_loop lp;;
  if lp_ref lp =? 0 then obus_loop_destroy else mret 0.

Definition obus_loop_fd : LM K U Z := lp ← get_loop; mret (lp_epfd lp).

(** [ofd->dupfd == -1 ? ofd->fd : ofd->dupfd] *)
Definition watched_fd (o : obus_fd) : Z := if fd_dupfd o =? -1 then fd_fd o else fd_dupfd o.

(** After [EPOLL_CTL_ADD] on the descriptor itself: the descriptor may be in the
    epoll set already, then a duplicate is added.  Code of the error, if any. *)
Definition add_dup (p : positive) (evt : epoll_event) : LM K U (option Z) :=
  ofd ← get_fd p;
  ret ← kern (obus_fd_dup (fd_fd ofd));
  if failed ret then mret (Some ret) else
  put_fd p (with_dupfd ofd ret);;
  lp ← get_loop;
  r ← kern (sys_epoll_ctl (lp_epfd lp) EPOLL_CTL_ADD ret (Some evt));
  match r with
  | SysOk _ => mret None
  | SysErr e =>
    (* the errno left by close, if it fails *)
    c ← kern (sys_close ret);
    put_fd p (with_dupfd ofd (-1));;
    mret (Some (match c with SysErr e' => - e' | SysOk _ => - e end))
  end.

(** [EPOLL_CTL_ADD], directly or through a duplicate. *)
Definition add_watch (p : positive) : LM K U (option Z) :=
  ofd ← get_fd p;
  lp ← get_loop;
  let evt := EpollEvent (fd_to_epoll_events (fd_events ofd)) p in
  ret ← kern (sys_epoll_ctl (lp_epfd lp) EPOLL_CTL_ADD (fd_fd ofd) (Some evt));
  match ret with
  | SysOk _ => mret None
  | SysErr e =>
    if e =? EEXIST then add_dup p evt else
    if fd_dupfd ofd =? -1 then mret (Some (- e)) else
    c ← kern (sys_close (fd_dupfd ofd));
    put_fd p (with_dupfd ofd (-1));;
    mret (Some (match c with SysErr e' => - e' | SysOk _ => - e end))
  end.

Definition obus_loop_add (p : positive) : LM K U Z :=
  ofd ← get_fd p;
  if (fd_fd ofd <? 0) || (fd_events ofd =? 0) || (fd_cb ofd =? 0) then mret (- EINVAL) else
  if fd_loop ofd then mret (- EEXIST) else
  listed ← is_listed p;
  if listed : bool then mret (- EEXIST) else
  err ← add_watch p;
  match err with
  | Some ret => mret ret
  | None =>
    l ← get_ofds;
    lp ← get_loop;
    ofd ← get_fd p;
    n ← int_result (lp_nfds lp + 1);
    put_fd p (with_fd_loop ofd true);;
    put_loop (set_nfds (set_ofds lp (l ++ [p])) n);;
    mret 0
  end.

(** [EPOLL_CTL_MOD] is asked with a NULL event: the event that has been set up is
    not given. *)
Definition obus_loop_update (p : positive) : LM K U Z :=
  listed ← is_listed p;
  if negb listed then mret (- ENOENT) else
  ofd ← get_fd p;
  lp ← get_loop;
  ret ← kern (sys_epoll_ctl (lp_epfd lp) EPOLL_CTL_MOD (watched_fd ofd) None);
  match ret with
  | SysErr e => mret (- e)
  | SysOk _ => mret 0
  end.

Definition obus_loop_remove (p : positive) : LM K U Z :=
  listed ← is_listed p;
  if negb listed then mret (- ENOENT) else
  ofd ← get_fd p;
  lp ← get_loop;
  ret ← kern (sys_epoll_ctl (lp_epfd lp) EPOLL_CTL_DEL (watched_fd ofd) None);
  match ret with
  | SysErr e => mret (- e)
  | SysOk _ =>
    (if fd_dupfd ofd =? -1 then mret tt else
     _ ← kern (sys_close (fd_dupfd ofd)); put_fd p (with_dupfd ofd (-1)));;
    ofd ← get_fd p;
    n ← int_result (lp_nfds lp - 1);
    put_fd p (with_fd_loop ofd false);;
    put_loop (set_nfds (set_ofds lp (filter (fun q => q <> p) (lp_ofds lp))) n);;
    mret 0
  end.

Definition obus_loop_posix_get_fd_count : Z := - ENOSYS.
Definition obus_loop_posix_get_fds : Z := - ENOSYS.
Definition obus_loop_posix_process_fd : Z := - ENOSYS.
End Ops.

(** ** Processing *)

Section Process.
Context {K U : Type} {EK : EpollKernel K} {AL : Allocator} {LC : LoopCode K U}.

(** [realloc] of the array keeps what it held. *)
Definition grow_events : LM K U Z :=
  lp ← get_loop;
  if lp_nallocevents lp <? lp_nfds lp then
    a ← on_mem (m_alloc (u64 ((EXTRA_ALLOC_EVENT_NB + lp_nfds lp) * EPOLL_EVENT_SIZE)));
    match a with
    | None => mret (- ENOMEM)
    | Some _ =>
      n ← int_result (EXTRA_ALLOC_EVENT_NB + lp_nfds lp);
      let old := lp_events lp in
      put_loop (set_events lp (old ++ replicate (Z.to_nat n - length old) None) n);;
      mret 0
    end
  else mret 0.

(** [epoll_wait] retried on [EINTR]. *)
Fixpoint wait_eintr (fuel : nat) (epfd n timeout : Z) : KM K (option (list epoll_event + Z)) :=
  match fuel with
  | O => mret None
  | S fuel' =>
    r ← sys_epoll_wait epfd n timeout;
    match r with
    | inr e => if e =? EINTR then wait_eintr fuel' epfd n timeout else mret (Some r)
    | inl _ => mret (Some r)
    end
  end.

(** The wait: the reported events go to the front of the array. *)
Definition wait_events (timeout : Z) : LM K U Z :=
  lp ← get_loop;
  r ← kern (fun k => wait_eintr (S (k_interrupts k)) (lp_epfd lp) (lp_nfds lp) timeout k);
  match r with
  | None => sv_undef
  | Some (inr e) => mret (- e)
  | Some (inl evs) =>
    if (length (lp_events lp) <? length evs)%nat then sv_undef else
    put_loop (set_events lp (map Some evs ++ drop (length evs) (lp_events lp)) (lp_nallocevents lp));;
    mret (Z.of_nat (length evs))
  end.

(** A reported event: the object is called back if it is still in the list. *)
Definition serve_event (e : epoll_event) : LM K U unit :=
  let events := epoll_to_fd_events (ep_events e) in
  if events =? 0 then mret tt else
  listed ← is_listed (ep_ptr e);
  if listed : bool then
    ofd ← get_fd (ep_ptr e);
    if fd_cb ofd =? 0 then sv_undef else
    fd_callback (fd_cb ofd) (ep_ptr e) events (fd_data ofd)
  else mret tt.

(** [for (i = 0; i < loop->nfds && j < ret; i++)] *)
Fixpoint dispatch (fuel : nat) (i j ret : Z) : LM K U unit :=
  match fuel with
  | O => sv_undef
  | S fuel' =>
    lp ← get_loop;
    if negb ((i <? lp_nfds lp) && (j <? ret)) then mret tt else
    e ← on_mem (m_lift (mjoin (lp_events lp !! Z.to_nat i)));
    if ep_events e =? 0 then dispatch fuel' (i + 1) j ret else
    serve_event e;;
    dispatch fuel' (i + 1) (j + 1) ret
  end.

(** One turn per entry of the array is enough: an entry out of it is not read. *)
Definition obus_loop_do_process (timeout : Z) : LM K U Z :=
  ret ← grow_events;
  if failed ret then mret ret else
  ret ← wait_events timeout;
  if failed ret then mret ret else
  if ret =? 0 then mret 0 else
  obus_loop_ref;;
  lp ← get_loop;
  dispatch (S (length (lp_events lp))) 0 0 ret;;
  _ ← obus_loop_unref;
  mret 0.

Definition obus_loop_process : LM K U Z := obus_loop_do_process 0.
Definition obus_loop_wait : LM K U Z := obus_loop_do_process (-1).
End Process.
