(* ===== verification/LoopFacts.v ===== *)
(** * The event loop: its invariant, and that processing events is safe

    [LawfulEpoll] is what epoll documents: the interest set of an epoll
    descriptor, and that a wait reports members of it.  [loop_inv] relates the
    list of the loop, the marks of the objects, the count, and that set.  The
    callbacks are arbitrary code that keeps the invariant ([LawfulLoop]). *)
From S2P Require Import Prelude Mem World Handler Utils Loop.

(** Descriptors are below the limit of Linux ([sysctl_nr_open_max]). *)
Definition FD_LIMIT : Z := 2147483584.

Class LawfulEpoll (K : Type) {EK : EpollKernel K} := {
  interest : K -> Z -> gmap Z epoll_event;   (* of an epoll descriptor *)
  opened : K -> gset Z;                      (* the descriptors of the process *)
  fcntl_frame : forall fd c a k e, interest (snd (sys_fcntl fd c a k)) e = interest k e;
  fcntl_opened : forall fd c a k, opened (snd (sys_fcntl fd c a k)) = opened k;
  fcntl_errno : forall fd c a k e k', sys_fcntl fd c a k = (SysErr e, k') -> 0 < e;
  dup_frame : forall fd k e, interest (snd (sys_dup fd k)) e = interest k e;
  dup_error : forall fd k e k', sys_dup fd k = (SysErr e, k') -> 0 < e /\ opened k' = opened k;
  dup_fresh : forall fd k v k', sys_dup fd k = (SysOk v, k') ->
    0 <= v /\ v ∉ opened k /\ opened k' = {[v]} ∪ opened k;
  close_frame : forall fd k e, interest k e !! fd = None -> interest (snd (sys_close fd k)) e = interest k e;
  close_opened : forall fd k, opened (snd (sys_close fd k)) = opened k ∖ {[fd]};
  close_errno : forall fd k e k', sys_close fd k = (SysErr e, k') -> 0 < e;
  create_empty : forall k v k', sys_epoll_create k = (SysOk v, k') -> interest k' v = ∅;
  ctl_opened : forall epfd op fd evt k, opened (snd (sys_epoll_ctl epfd op fd evt k)) = opened k;
  ctl_add : forall epfd fd evt k v k',
    sys_epoll_ctl epfd EPOLL_CTL_ADD fd (Some evt) k = (SysOk v, k') ->
    0 <= fd < FD_LIMIT /\ fd ∈ opened k /\ interest k epfd !! fd = None /\
    interest k' epfd = <[fd := evt]> (interest k epfd);
  ctl_exist : forall epfd fd evt k k',
    sys_epoll_ctl epfd EPOLL_CTL_ADD fd (Some evt) k = (SysErr EEXIST, k') -> is_Some (interest k epfd !! fd);
  ctl_del : forall epfd fd k v k',
    sys_epoll_ctl epfd EPOLL_CTL_DEL fd None k = (SysOk v, k') ->
    interest k' epfd = delete fd (interest k epfd);
  ctl_del_member : forall epfd fd k e k',
    sys_epoll_ctl epfd EPOLL_CTL_DEL fd None k = (SysErr e, k') -> interest k epfd !! fd = None;
  ctl_null : forall epfd fd k v k', sys_epoll_ctl epfd EPOLL_CTL_MOD fd None k <> (SysOk v, k');
  ctl_error : forall epfd op fd evt k e k',
    sys_epoll_ctl epfd op fd evt k = (SysErr e, k') ->
    0 < e /\ interest k' epfd = interest k epfd;
  wait_frame : forall epfd n t k e, interest (snd (sys_epoll_wait epfd n t k)) e = interest k e;
  wait_opened : forall epfd n t k, opened (snd (sys_epoll_wait epfd n t k)) = opened k;
  wait_errno : forall epfd n t k e k', sys_epoll_wait epfd n t k = (inr e, k') -> 0 < e;
  wait_reports : forall epfd n t k evs k',
    sys_epoll_wait epfd n t k = (inl evs, k') ->
    Z.of_nat (length evs) <= n /\
    Forall (fun e => ep_events e <> 0 /\
      exists fd e', interest k epfd !! fd = Some e' /\ ep_ptr e' = ep_ptr e) evs
}.

(** ** Invariant *)

Record lp_wf (n : Z) (ints : gmap Z epoll_event) (opn : gset Z) (fds : gmap positive obus_fd) (lp : obus_loop) : Prop := {
  lw_nodup : NoDup (lp_ofds lp);
  lw_nfds : lp_nfds lp = Z.of_nat (length (lp_ofds lp));
  lw_listed : forall p, p ∈ lp_ofds lp -> exists o e, fds !! p = Some o /\ fd_loop o = true /\
    fd_cb o <> 0 /\ ints !! watched_fd o = Some e /\ ep_ptr e = p;
  lw_used : forall p o, fds !! p = Some o -> fd_loop o = true -> p ∈ lp_ofds lp;
  lw_ints : forall fd e, ints !! fd = Some e -> 0 <= fd < FD_LIMIT /\ ep_ptr e ∈ lp_ofds lp /\
    exists o, fds !! ep_ptr e = Some o /\ watched_fd o = fd;
  lw_open : forall fd, is_Some (ints !! fd) -> fd ∈ opn;
  lw_idle : forall p o, fds !! p = Some o -> fd_loop o = false -> fd_dupfd o = -1;
  lw_array : Z.of_nat (length (lp_events lp)) = lp_nallocevents lp;
  lw_events : forall (i : nat) e, lp_events lp !! i = Some (Some e) -> ep_events e <> 0;
  lw_ref : n <= lp_ref lp
}.

Section Inv.
Context {K U : Type} {EK : EpollKernel K} {LE : LawfulEpoll K} {AL : Allocator}.
Implicit Types (s : lstate K U) (w : world) (m : mem) (p : positive) (o : obus_fd).

(** The loop is live, with [n] references at least. *)
Definition loop_inv (n : Z) s : Prop :=
  exists lp, ls_loop s = Some lp /\ lp_wf n (interest (ls_kern s) (lp_epfd lp)) (opened (ls_kern s)) (ls_fds s) lp.

(** Entry [i] of the array has been written. *)
Definition filled s (i : nat) : Prop :=
  exists lp e, ls_loop s = Some lp /\ lp_events lp !! i = Some (Some e).
Definition array_kept s s' : Prop := forall i, filled s i -> filled s' i.

#[export] Instance array_kept_preorder : PreOrder array_kept.
Proof. split; [by intros s i|]. intros s1 s2 s3 H1 H2 i Hi. by apply H2, H1. Qed.

(** ** Steps *)

Lemma wps_kern {A} (c : KM K A) (Q : A -> lstate K U -> world -> mem -> Prop) s w m :
  Q (fst (c (ls_kern s))) (set_kern s (snd (c (ls_kern s)))) w m -> wps (kern c) Q s w m.
Proof. intros H. by apply wpw_ret. Qed.

Lemma wps_get_loop lp (Q : obus_loop -> lstate K U -> world -> mem -> Prop) s w m :
  ls_loop s = Some lp -> Q lp s w m -> wps get_loop Q s w m.
Proof. intros E H. unfold get_loop. apply wps_bind, wps_gets, wps_mem. by eapply wp_lift. Qed.

Lemma wps_get_fd p o (Q : obus_fd -> lstate K U -> world -> mem -> Prop) s w m :
  ls_fds s !! p = Some o -> Q o s w m -> wps (get_fd p) Q s w m.
Proof. intros E H. unfold get_fd. apply wps_bind, wps_gets, wps_mem. by eapply wp_lift. Qed.

Lemma wps_int z (Q : Z -> lstate K U -> world -> mem -> Prop) s w m :
  - INT_MAX - 1 <= z <= INT_MAX -> Q z s w m -> wps (int_result z) Q s w m.
Proof.
  intros Hz H. unfold int_result. rewrite (proj2 (Z.leb_le _ _) (proj1 Hz)), (proj2 (Z.leb_le _ _) (proj2 Hz)).
  by apply wps_ret.
Qed.

Lemma wps_get_ofds n ints opn lp (Q : list positive -> lstate K U -> world -> mem -> Prop) s w m :
  ls_loop s = Some lp -> lp_wf n ints opn (ls_fds s) lp -> Q (lp_ofds lp) s w m -> wps get_ofds Q s w m.
Proof.
  intros E W H. unfold get_ofds. apply wps_bind. eapply wps_get_loop; [done|]. apply wps_bind, wps_gets.
  rewrite decide_True; [by apply wps_ret|]. apply Forall_forall. intros p Hp.
  destruct (lw_listed _ _ _ _ _ W p Hp) as (o & e & Ho & _). by eexists.
Qed.

Lemma wps_is_listed n ints opn lp p (Q : bool -> lstate K U -> world -> mem -> Prop) s w m :
  ls_loop s = Some lp -> lp_wf n ints opn (ls_fds s) lp -> Q (bool_decide (p ∈ lp_ofds lp)) s w m ->
  wps (is_listed p) Q s w m.
Proof. intros E W H. unfold is_listed. apply wps_bind. eapply wps_get_ofds; [done..|]. by apply wps_ret. Qed.

(** ** Descriptor calls, the interest set [e] and the open descriptors *)

Definition kept (e : Z) (k k' : K) : Prop := interest k' e = interest k e /\ opened k' = opened k.

#[export] Instance kept_preorder e : PreOrder (kept e).
Proof. split; [by intros k|]. intros k1 k2 k3 [A1 A2] [B1 B2]. split; congruence. Qed.

Lemma fcntl_kept fd c a k e : kept e k (snd (sys_fcntl fd c a k)).
Proof. split; [apply fcntl_frame|apply fcntl_opened]. Qed.

Lemma has_cloexec_kept fd k e : kept e k (snd (obus_fd_has_close_on_exec fd k)).
Proof.
  unfold obus_fd_has_close_on_exec, mbind, KM_bind. pose proof (fcntl_kept fd F_GETFD 0 k e) as H.
  by destruct (sys_fcntl fd F_GETFD 0 k) as [[]].
Qed.

Lemma set_cloexec_kept fd k e : kept e k (snd (obus_fd_set_close_on_exec fd k)).
Proof.
  unfold obus_fd_set_close_on_exec, mbind, KM_bind. pose proof (fcntl_kept fd F_GETFD 0 k e) as H.
  destruct (sys_fcntl fd F_GETFD 0 k) as [[v|] k1]; [|done]. cbn [snd] in *.
  pose proof (fcntl_kept fd F_SETFD (Z.lor FD_CLOEXEC v) k1 e) as H1.
  destruct (sys_fcntl fd F_SETFD (Z.lor FD_CLOEXEC v) k1) as [[] k2]; by etransitivity.
Qed.

Lemma add_flags_kept fd fl k e : kept e k (snd (obus_fd_add_flags fd fl k)).
Proof.
  unfold obus_fd_add_flags, mbind, KM_bind. pose proof (fcntl_kept fd F_GETFL 0 k e) as H.
  destruct (sys_fcntl fd F_GETFL 0 k) as [[v|] k1]; [|done]. cbn [snd] in *.
  pose proof (fcntl_kept fd F_SETFL (Z.lor v fl) k1 e) as H1.
  destruct (sys_fcntl fd F_SETFL (Z.lor v fl) k1) as [[] k2]; by etransitivity.
Qed.

Lemma ctl_error_kept e op fd evt k er k' :
  sys_epoll_ctl e op fd evt k = (SysErr er, k') -> 0 < er /\ kept e k k'.
Proof.
  intros E. destruct (ctl_error _ _ _ _ _ _ _ E) as [H1 H2]. split; [done|]. split; [done|].
  pose proof (ctl_opened e op fd evt k) as H. by rewrite E in H.
Qed.

(** The descriptors that are watched are open. *)
Definition watch_open (e : Z) (k : K) : Prop := forall fd, is_Some (interest k e !! fd) -> fd ∈ opened k.

Lemma watch_open_kept e k k' : kept e k k' -> watch_open e k -> watch_open e k'.
Proof. intros [H1 H2] H fd. rewrite H1, H2. apply H. Qed.

(** The opening of a descriptor. *)
Definition opens (e fd : Z) (k k' : K) : Prop :=
  0 <= fd /\ fd ∉ opened k /\ interest k' e = interest k e /\ opened k' = {[fd]} ∪ opened k.

Lemma opens_unwatched e fd k k' : opens e fd k k' -> watch_open e k -> interest k e !! fd = None.
Proof. intros (_ & Hn & _) H. destruct (interest k e !! fd) eqn:E; [|done]. destruct Hn. apply H. by eexists. Qed.

Lemma opens_kept e fd k k1 k2 : opens e fd k k1 -> kept e k1 k2 -> opens e fd k k2.
Proof. intros (H1 & H2 & H3 & H4) [H5 H6]. split_and!; [done|done|congruence|congruence]. Qed.

Lemma kept_opens e fd k k1 k2 : kept e k k1 -> opens e fd k1 k2 -> opens e fd k k2.
Proof. intros [H5 H6] (H1 & H2 & H3 & H4). split_and!; [done|congruence|congruence|congruence]. Qed.

(** A descriptor that is opened, not watched, and closed. *)
Lemma opens_close e fd k k1 :
  opens e fd k k1 -> watch_open e k -> kept e k (snd (sys_close fd k1)).
Proof.
  intros HO HW. pose proof (opens_unwatched _ _ _ _ HO HW) as Hn. destruct HO as (_ & Hf & Hi & Ho).
  split; [rewrite close_frame; congruence|]. rewrite close_opened, Ho. set_solver.
Qed.

Lemma dup_spec fd k e ret k' :
  watch_open e k -> obus_fd_dup fd k = (ret, k') ->
  failed ret = true /\ kept e k k' \/ failed ret = false /\ opens e ret k k'.
Proof.
  intros HW. unfold obus_fd_dup, mbind, KM_bind. pose proof (dup_frame fd k e) as Hf.
  destruct (sys_dup fd k) as [[v|er] k1] eqn:Ed; cbn in Hf; intros E.
  2:{ injection E as <- <-. left. apply dup_error in Ed as [? ?]. split; [apply failed_spec; lia|by split]. }
  apply dup_fresh in Ed as (Hv & Hn & Ho). assert (opens e v k k1) as HO by done.
  assert (failed v = false) as Hfv by (apply Z.ltb_ge; lia).
  pose proof (has_cloexec_kept fd k1 e) as H1.
  destruct (obus_fd_has_close_on_exec fd k1) as [[|] k2]; cbn in H1.
  2:{ injection E as <- <-. right. split; [done|by eapply opens_kept]. }
  pose proof (set_cloexec_kept v k2 e) as H2.
  destruct (obus_fd_set_close_on_exec v k2) as [ret2 k3]; cbn in H2.
  assert (opens e v k k3) as H3 by (eapply opens_kept; [by eapply opens_kept|done]).
  destruct (failed ret2) eqn:Hr; [|injection E as <- <-; by right].
  pose proof (opens_close _ _ _ _ H3 HW) as H4. destruct (sys_close v k3) as [r k4]; cbn in *.
  injection E as <- <-. by left.
Qed.

(** The count is below the descriptor limit: watched descriptors are distinct. *)
Lemma range_length (l : list Z) (b : nat) : NoDup l -> Forall (fun x => 0 <= x < Z.of_nat b) l -> (length l <= b)%nat.
Proof.
  intros HN HF. assert (length (map Z.of_nat (seq 0 b)) = b) as <- by (by rewrite length_map, length_seq).
  apply submseteq_length, NoDup_submseteq; [done|]. intros x Hx. rewrite Forall_forall in HF.
  specialize (HF x Hx). apply list_elem_of_fmap. exists (Z.to_nat x).
  split; [lia|]. apply elem_of_seq. lia.
Qed.

Lemma nfds_bound n ints opn fds lp : lp_wf n ints opn fds lp -> 0 <= lp_nfds lp <= FD_LIMIT.
Proof.
  intros W. rewrite (lw_nfds _ _ _ _ _ W). split; [lia|].
  assert (length (lp_ofds lp) <= Z.to_nat FD_LIMIT)%nat; [|unfold FD_LIMIT in *; lia].
  set (f p := match fds !! p with Some o => watched_fd o | None => 0 end).
  rewrite <- (length_map f). apply range_length.
  - apply NoDup_fmap_2_strong; [|apply W]. intros p q Hp Hq Hf.
    destruct (lw_listed _ _ _ _ _ W p Hp) as (o & e & Ho & _ & _ & He & <-).
    destruct (lw_listed _ _ _ _ _ W q Hq) as (o' & e' & Ho' & _ & _ & He' & <-).
    unfold f in Hf. rewrite Ho, Ho' in Hf. rewrite Hf in He. congruence.
  - apply Forall_forall. intros x (p & -> & Hp)%list_elem_of_fmap.
    destruct (lw_listed _ _ _ _ _ W p Hp) as (o & e & Ho & _ & _ & He & _). unfold f. rewrite Ho.
    destruct (lw_ints _ _ _ _ _ W _ _ He) as [Hr _]. unfold FD_LIMIT in *. lia.
Qed.

(** ** Registration *)

(** What an operation that fails leaves: the kernel may have moved on, but not
    what it watches for the loop nor the open descriptors. *)
Record untouched s s' : Prop := {
  un_loop : ls_loop s' = ls_loop s;
  un_fds : ls_fds s' = ls_fds s;
  un_user : ls_user s' = ls_user s;
  un_kern : forall lp, ls_loop s = Some lp -> kept (lp_epfd lp) (ls_kern s) (ls_kern s')
}.

Lemma untouched_refl s : untouched s s.
Proof. by split. Qed.

Lemma untouched_inv n s s' : untouched s s' -> loop_inv n s -> loop_inv n s'.
Proof.
  intros [E1 E2 E3 E4] (lp & El & W). exists lp. rewrite E1, E2. split; [done|].
  destruct (E4 lp El) as [-> ->]. done.
Qed.

Lemma untouched_array s s' : untouched s s' -> array_kept s s'.
Proof. intros [E1 _ _ _] i (lp & e & El & He). exists lp, e. by rewrite E1. Qed.

(** The kernel watches object [p] for its events, on its descriptor ([d] is -1)
    or, when that one is watched already, on the new duplicate [d]. *)
Record watches (e : Z) p o d (k k' : K) : Prop := {
  wt_range : 0 <= watched_fd (with_dupfd o d) < FD_LIMIT;
  wt_open : watched_fd (with_dupfd o d) ∈ opened k';
  wt_new : interest k e !! watched_fd (with_dupfd o d) = None;
  wt_interest : interest k' e
    = <[watched_fd (with_dupfd o d) := EpollEvent (fd_to_epoll_events (fd_events o)) p]> (interest k e);
  wt_dup : d = -1 /\ opened k' = opened k \/
    0 <= d /\ d ∉ opened k /\ opened k' = {[d]} ∪ opened k /\ is_Some (interest k e !! fd_fd o)
}.

Lemma watches_sub e p o d k k' : watches e p o d k k' -> opened k ⊆ opened k'.
Proof. intros [_ _ _ _ [[_ ->]|(_ & _ & -> & _)]]; set_solver. Qed.

(** Object [p] becomes the last of the list. *)
Record registered p o d s s' : Prop := {
  rg_fds : ls_fds s' = <[p := with_fd_loop (with_dupfd o d) true]> (ls_fds s);
  rg_user : ls_user s' = ls_user s;
  rg_loop : exists lp, ls_loop s = Some lp /\ p ∉ lp_ofds lp /\
    ls_loop s' = Some (set_nfds (set_ofds lp (lp_ofds lp ++ [p])) (lp_nfds lp + 1)) /\
    watches (lp_epfd lp) p o d (ls_kern s) (ls_kern s')
}.

Lemma registered_inv n p o d s s' :
  ls_fds s !! p = Some o -> fd_loop o = false -> fd_cb o <> 0 ->
  registered p o d s s' -> loop_inv n s -> loop_inv n s'.
Proof.
  intros Ho Hl Hc [F _ (lp & El & Hp & El' & HW)] (lp0 & El0 & W).
  rewrite El in El0. injection El0 as <-. eexists. split; [exact El'|]. cbn [lp_epfd set_nfds set_ofds].
  pose proof (watches_sub _ _ _ _ _ _ HW) as Hsub. destruct HW as [Hr Hop Hn Hi _].
  rewrite Hi, F. clear Hi F El'. set (o1 := with_fd_loop (with_dupfd o d) true).
  set (evt := EpollEvent _ p). change (watched_fd (with_dupfd o d)) with (watched_fd o1) in *.
  destruct W as [W1 W2 W3 W4 W5 WO W6 W7 W8 W9]. constructor; cbn; try done.
  - apply NoDup_app. split_and!; [done| |apply NoDup_singleton]. by intros x Hx ->%list_elem_of_singleton.
  - rewrite length_app, W2. cbn. lia.
  - intros q [Hq| ->%list_elem_of_singleton]%elem_of_app.
    + destruct (W3 q Hq) as (o2 & e & Ho2 & H1 & H2 & He & Hpe). exists o2, e.
      rewrite lookup_insert_ne by (intros ->; done). rewrite lookup_insert_ne by congruence. done.
    + exists o1, evt. by rewrite !lookup_insert_eq.
  - intros q o2. rewrite lookup_insert. case_decide; [subst; intros _ _; apply elem_of_app; right; by left|].
    intros Ho2 H2. apply elem_of_app. left. by eapply W4.
  - intros fd e. rewrite lookup_insert. case_decide as Hfd.
    + subst. intros [= <-]. split; [done|]. split; [apply elem_of_app; right; by left|].
      exists o1. by rewrite lookup_insert_eq.
    + intros He. destruct (W5 fd e He) as (H1 & H2 & o2 & Ho2 & H3). split; [done|].
      split; [apply elem_of_app; by left|]. exists o2. rewrite lookup_insert_ne by (intros E; by rewrite E in Hp). done.
  - intros fd. rewrite lookup_insert. case_decide; [by subst|]. intros Hfd. by apply Hsub, WO.
  - intros q o2. rewrite lookup_insert. case_decide; [by intros [= <-]|]. by apply W6.
Qed.

Lemma registered_array p o d s s' : registered p o d s s' -> array_kept s s'.
Proof.
  intros [_ _ (lp & El & _ & El' & _)] i (lp0 & e & El0 & He). rewrite El in El0. injection El0 as <-.
  eexists _, e. by rewrite El'.
Qed.

Lemma put_fd_same p o s : ls_fds s !! p = Some o -> set_fds s (<[p := o]> (ls_fds s)) = s.
Proof. intros E. destruct s. unfold set_fds. cbn in *. by rewrite insert_id. Qed.

Lemma with_dupfd_idle o : fd_dupfd o = -1 -> with_dupfd o (-1) = o.
Proof. destruct o. cbn. by intros ->. Qed.

Lemma set_fds_kern s k fds : set_fds (set_kern s k) fds = set_kern (set_fds s fds) k.
Proof. done. Qed.

(** The watch of an idle object: it is refused and nothing has changed, or the
    object is in the interest set. *)
Lemma wps_add_watch n p o lp (Q : option Z -> lstate K U -> world -> mem -> Prop) s w m :
  ls_loop s = Some lp -> loop_inv n s -> ls_fds s !! p = Some o -> fd_loop o = false ->
  (forall ret s', ret < 0 -> untouched s s' -> Q (Some ret) s' w m) ->
  (forall d s', watches (lp_epfd lp) p o d (ls_kern s) (ls_kern s') ->
     ls_loop s' = Some lp -> ls_fds s' = <[p := with_dupfd o d]> (ls_fds s) -> ls_user s' = ls_user s ->
     Q None s' w m) ->
  wps (add_watch p) Q s w m.
Proof.
  intros El (lp0 & El0 & W) Ho Hl Hf Hs. rewrite El in El0. injection El0 as <-.
  pose proof (lw_idle _ _ _ _ _ W p o Ho Hl) as Hd. pose proof (with_dupfd_idle o Hd) as Hidle.
  assert (watched_fd o = fd_fd o) as Hw by (unfold watched_fd; by rewrite Hd).
  pose proof (lw_open _ _ _ _ _ W) as HWO. change (watch_open (lp_epfd lp) (ls_kern s)) in HWO.
  assert (forall ret k' fds, ret < 0 -> kept (lp_epfd lp) (ls_kern s) k' -> fds = ls_fds s ->
    Q (Some ret) (LState k' (ls_loop s) fds (ls_user s)) w m) as Hfail.
  { intros ret k' fds Hr Hk ->. apply Hf; [done|]. split; [done..|]. intros lp1 El1. cbn. congruence. }
  unfold add_watch. apply wps_bind. eapply wps_get_fd; [done|]. apply wps_bind. eapply wps_get_loop; [done|].
  cbv zeta. apply wps_bind, wps_kern. set (evt := EpollEvent _ p).
  destruct (sys_epoll_ctl (lp_epfd lp) EPOLL_CTL_ADD (fd_fd o) (Some evt) (ls_kern s)) as [[v|e] k1] eqn:E1; cbn [fst snd].
  { apply wps_ret. pose proof (ctl_opened (lp_epfd lp) EPOLL_CTL_ADD (fd_fd o) (Some evt) (ls_kern s)) as Hop.
    rewrite E1 in Hop. cbn in Hop. destruct (ctl_add _ _ _ _ _ _ E1) as (H1 & H2 & H3 & H4).
    apply (Hs (-1)); cbn [ls_kern ls_loop ls_fds ls_user set_kern]; [|done| |done].
    - constructor; rewrite ?Hidle, ?Hw, ?Hop; [done..|by left].
    - rewrite Hidle. by rewrite insert_id. }
  destruct (ctl_error_kept _ _ _ _ _ _ _ E1) as [He1 K1].
  destruct (Z.eqb_spec e EEXIST) as [->|Hne].
  2:{ rewrite Hd. cbn. apply wps_ret, Hfail; [lia|done|done]. }
  apply ctl_exist in E1 as Hex. unfold add_dup. apply wps_bind. eapply wps_get_fd; [done|].
  apply wps_bind, wps_kern. cbn [ls_kern set_kern].
  destruct (obus_fd_dup (fd_fd o) k1) as [ret k2] eqn:E2. cbn [fst snd].
  apply (dup_spec _ _ (lp_epfd lp)) in E2 as [[Hr K2]|[Hr HO]]; [..|by eapply watch_open_kept]; rewrite Hr.
  { apply failed_spec in Hr. apply wps_ret, Hfail; [lia|by etransitivity|done]. }
  apply (kept_opens _ _ _ _ _ K1) in HO.
  apply wps_bind, wps_modify, wps_bind. eapply wps_get_loop; [done|]. apply wps_bind, wps_kern. cbn [ls_kern set_kern set_fds].
  destruct (sys_epoll_ctl (lp_epfd lp) EPOLL_CTL_ADD ret (Some evt) k2) as [[v|e2] k3] eqn:E3; cbn [fst snd].
  { apply wps_ret. pose proof (ctl_opened (lp_epfd lp) EPOLL_CTL_ADD ret (Some evt) k2) as Hop.
    rewrite E3 in Hop. cbn in Hop. destruct (ctl_add _ _ _ _ _ _ E3) as (H1 & H2 & H3 & H4).
    destruct HO as (HO1 & HO2 & HO3 & HO4).
    assert (watched_fd (with_dupfd o ret) = ret) as Hw'.
    { unfold watched_fd. cbn. destruct (Z.eqb_spec ret (-1)); [lia|done]. }
    apply (Hs ret); cbn [ls_kern ls_loop ls_fds ls_user set_kern set_fds]; [|done..]. constructor; rewrite ?Hw'.
    - done.
    - by rewrite Hop.
    - by rewrite <- HO3.
    - by rewrite H4, HO3.
    - right. split_and!; [done|done|by rewrite Hop|done]. }
  destruct (ctl_error_kept _ _ _ _ _ _ _ E3) as [He3 K3]. apply wps_bind, wps_kern. cbn [ls_kern set_kern].
  pose proof (opens_close _ _ _ _ (opens_kept _ _ _ _ _ HO K3) HWO) as K4.
  destruct (sys_close ret k3) as [c k4] eqn:E4. cbn [fst snd] in *.
  apply wps_bind, wps_modify, wps_ret, Hfail; [|done|].
  - destruct c as [v|e4]; [lia|]. apply close_errno in E4. lia.
  - cbn. rewrite Hidle, insert_insert_eq. by apply insert_id.
Qed.

(** Registration of [p]: refused with the code of the first test that fails, or
    by the kernel, and then nothing has changed; or done. *)
Definition add_post p o s (ret : Z) s' : Prop :=
  if (fd_fd o <? 0) || (fd_events o =? 0) || (fd_cb o =? 0) then ret = - EINVAL /\ s' = s
  else if fd_loop o then ret = - EEXIST /\ s' = s
  else ret < 0 /\ untouched s s' \/ ret = 0 /\ exists d, registered p o d s s'.

Lemma wps_loop_add n p o s w m :
  loop_inv n s -> ls_fds s !! p = Some o ->
  wps (obus_loop_add p) (fun ret s' w' m' => w' = w /\ m' = m /\ add_post p o s ret s') s w m.
Proof.
  intros I Ho. pose proof I as (lp & El & W). unfold obus_loop_add, add_post.
  apply wps_bind. eapply wps_get_fd; [done|].
  destruct ((fd_fd o <? 0) || (fd_events o =? 0) || (fd_cb o =? 0)) eqn:Eg; [by apply wps_ret|].
  destruct (fd_loop o) eqn:Hl; [by apply wps_ret|].
  apply wps_bind. eapply wps_is_listed; [done..|].
  assert (p ∉ lp_ofds lp) as Hp.
  { intros Hp. destruct (lw_listed _ _ _ _ _ W p Hp) as (o' & e & Ho' & Hl' & _). congruence. }
  rewrite bool_decide_false by done. apply wps_bind. eapply wps_add_watch; [done..| |].
  - intros ret s' Hr Hu. apply wps_ret. split_and!; [done..|]. by left.
  - intros d s' HW El' Ef' Eu'.
    assert (ls_fds s' !! p = Some (with_dupfd o d)) as Ho' by (rewrite Ef'; by rewrite lookup_insert_eq).
    assert (Forall (fun q => is_Some (ls_fds s' !! q)) (lp_ofds lp)) as Hall.
    { apply Forall_forall. intros q Hq. destruct (lw_listed _ _ _ _ _ W q Hq) as (o' & e & Hq' & _).
      rewrite Ef', lookup_insert. case_decide; by eexists. }
    apply wps_bind. unfold get_ofds. apply wps_bind. eapply wps_get_loop; [done|]. apply wps_bind, wps_gets.
    rewrite decide_True by done. apply wps_ret, wps_bind. eapply wps_get_loop; [done|].
    apply wps_bind. eapply wps_get_fd; [done|]. apply wps_bind, wps_int.
    { pose proof (nfds_bound _ _ _ _ _ W). unfold FD_LIMIT, INT_MAX in *. lia. }
    apply wps_bind, wps_modify, wps_bind, wps_modify, wps_ret. split_and!; [done..|]. right. split; [done|].
    exists d. split; cbn; [by rewrite Ef', insert_insert_eq|done|]. by exists lp.
Qed.

(** ** Removal *)

Record unregistered p o s s' : Prop := {
  ur_fds : ls_fds s' = <[p := with_fd_loop (with_dupfd o (-1)) false]> (ls_fds s);
  ur_user : ls_user s' = ls_user s;
  ur_loop : exists lp, ls_loop s = Some lp /\ p ∈ lp_ofds lp /\
    ls_loop s' = Some (set_nfds (set_ofds lp (filter (fun q => q <> p) (lp_ofds lp))) (lp_nfds lp - 1)) /\
    interest (ls_kern s') (lp_epfd lp) = delete (watched_fd o) (interest (ls_kern s) (lp_epfd lp));
  ur_opened : opened (ls_kern s')
    = if fd_dupfd o =? -1 then opened (ls_kern s) else opened (ls_kern s) ∖ {[fd_dupfd o]}
}.

Lemma filter_other (l : list positive) p :
  NoDup l -> p ∈ l -> Z.of_nat (length (filter (fun q => q <> p) l)) = Z.of_nat (length l) - 1.
Proof.
  intros HN Hp. apply list_elem_of_split in Hp as (a & b & ->).
  apply NoDup_app in HN as (_ & H1 & [H2 _]%NoDup_cons).
  rewrite filter_app, filter_cons_False by (intros H; by apply H).
  rewrite !filter_all, !length_app; [cbn; lia|..]; [by intros x Hx ->|].
  intros x Hx ->. apply (H1 p Hx). by left.
Qed.

Lemma unregistered_inv n p o s s' :
  ls_fds s !! p = Some o -> unregistered p o s s' -> loop_inv n s -> loop_inv n s'.
Proof.
  intros Ho [F _ (lp & El & Hp & El' & Hi) Hop] (lp0 & El0 & W). rewrite El in El0. injection El0 as <-.
  eexists. split; [exact El'|]. cbn [lp_epfd set_nfds set_ofds]. rewrite Hi, F, Hop. clear Hi F El' Hop.
  destruct W as [W1 W2 W3 W4 W5 WO W6 W7 W8 W9].
  destruct (W3 p Hp) as (o0 & e0 & Ho0 & Hl & _ & He0 & Hp0). rewrite Ho in Ho0. injection Ho0 as <-.
  constructor; cbn; try done.
  - by apply NoDup_filter.
  - by rewrite filter_other, W2.
  - intros q [Hne Hq]%list_elem_of_filter. destruct (W3 q Hq) as (o2 & e & Ho2 & H1 & H2 & He & Hpe).
    exists o2, e. rewrite lookup_insert_ne by congruence. rewrite lookup_delete_ne; [done|]. congruence.
  - intros q o2. rewrite lookup_insert. case_decide; [by intros [= <-]|]. intros Ho2 Hl2.
    apply list_elem_of_filter. split; [congruence|by eapply W4].
  - intros fd e. rewrite lookup_delete_Some. intros [Hne He]. destruct (W5 fd e He) as (H1 & H2 & o2 & Ho2 & H3).
    assert (ep_ptr e <> p) as Hep by (intros E; rewrite E in Ho2; congruence).
    split; [done|]. split; [by apply list_elem_of_filter|]. exists o2. by rewrite lookup_insert_ne by congruence.
  - intros fd. rewrite lookup_delete_is_Some. intros [Hne Hfd]. apply WO in Hfd. unfold watched_fd in Hne.
    destruct (Z.eqb_spec (fd_dupfd o) (-1)); [done|]. set_solver.
  - intros q o2. rewrite lookup_insert. case_decide; [by intros [= <-]|]. by apply W6.
Qed.

Lemma unregistered_array p o s s' : unregistered p o s s' -> array_kept s s'.
Proof.
  intros [_ _ (lp & El & _ & El' & _) _] i (lp0 & e & El0 & He). rewrite El in El0. injection El0 as <-.
  eexists _, e. by rewrite El'.
Qed.

Definition remove_post p o s (ret : Z) s' : Prop :=
  if fd_loop o then ret = 0 /\ unregistered p o s s' else ret = - ENOENT /\ s' = s.

Lemma wps_loop_remove n p o s w m :
  loop_inv n s -> ls_fds s !! p = Some o ->
  wps (obus_loop_remove p) (fun ret s' w' m' => w' = w /\ m' = m /\ remove_post p o s ret s') s w m.
Proof.
  intros I Ho. pose proof I as (lp & El & W). unfold obus_loop_remove, remove_post.
  apply wps_bind. eapply wps_is_listed; [done..|]. destruct (fd_loop o) eqn:Hl.
  2:{ rewrite bool_decide_false; [by apply wps_ret|]. intros Hp.
      destruct (lw_listed _ _ _ _ _ W p Hp) as (o' & e & Ho' & Hl' & _). congruence. }
  pose proof (lw_used _ _ _ _ _ W p o Ho Hl) as Hp. rewrite bool_decide_true by done. cbn [negb].
  apply wps_bind. eapply wps_get_fd; [done|]. apply wps_bind. eapply wps_get_loop; [done|].
  apply wps_bind, wps_kern.
  destruct (sys_epoll_ctl (lp_epfd lp) EPOLL_CTL_DEL (watched_fd o) None (ls_kern s)) as [[v|e] k1] eqn:E1; cbn [fst snd].
  2:{ apply ctl_del_member in E1. destruct (lw_listed _ _ _ _ _ W p Hp) as (o' & e' & Ho' & _ & _ & He' & _). congruence. }
  pose proof (ctl_opened (lp_epfd lp) EPOLL_CTL_DEL (watched_fd o) None (ls_kern s)) as Hop. rewrite E1 in Hop. cbn in Hop.
  apply ctl_del in E1.
  assert (wps (if fd_dupfd o =? -1 then mret tt else
     _ ← kern (sys_close (fd_dupfd o)); put_fd p (with_dupfd o (-1)))
     (fun _ s' w' m' => w' = w /\ m' = m /\ ls_fds s' = <[p := with_dupfd o (-1)]> (ls_fds s) /\
        ls_loop s' = Some lp /\ ls_user s' = ls_user s /\
        interest (ls_kern s') (lp_epfd lp) = interest k1 (lp_epfd lp) /\
        opened (ls_kern s') = if fd_dupfd o =? -1 then opened k1 else opened k1 ∖ {[fd_dupfd o]})
     (set_kern s k1) w m) as H.
  { destruct (Z.eqb_spec (fd_dupfd o) (-1)) as [Hd|Hd].
    - apply wps_ret. split_and!; try done. rewrite (with_dupfd_idle o Hd). by rewrite insert_id.
    - apply wps_bind, wps_kern, wps_modify. split_and!; try done; cbn; [|apply close_opened].
      apply close_frame. rewrite E1. unfold watched_fd.
      destruct (Z.eqb_spec (fd_dupfd o) (-1)); [done|]. by rewrite lookup_delete_eq. }
  apply wps_bind. eapply wps_mono; [exact H|]. clear H.
  intros [] s1 w1 m1 (-> & -> & Ef & El1 & Eu & Ei & Eo).
  apply wps_bind. eapply wps_get_fd; [by rewrite Ef, lookup_insert_eq|]. apply wps_bind, wps_int.
  { pose proof (nfds_bound _ _ _ _ _ W). unfold FD_LIMIT, INT_MAX in *. lia. }
  apply wps_bind, wps_modify, wps_bind, wps_modify, wps_ret. split_and!; [done..|].
  split; cbn; [by rewrite Ef, insert_insert_eq|done| |by rewrite Eo, Hop]. exists lp. split_and!; [done..|]. congruence.
Qed.

(** An update never succeeds: the kernel refuses the NULL event. *)
Lemma wps_loop_update n p o s w m :
  loop_inv n s -> ls_fds s !! p = Some o ->
  wps (obus_loop_update p) (fun ret s' w' m' => w' = w /\ m' = m /\ untouched s s' /\
    if fd_loop o then ret < 0 else ret = - ENOENT) s w m.
Proof.
  intros I Ho. pose proof I as (lp & El & W). unfold obus_loop_update.
  apply wps_bind. eapply wps_is_listed; [done..|]. destruct (fd_loop o) eqn:Hl.
  2:{ rewrite bool_decide_false; [by apply wps_ret|]. intros Hp.
      destruct (lw_listed _ _ _ _ _ W p Hp) as (o' & e & Ho' & Hl' & _). congruence. }
  pose proof (lw_used _ _ _ _ _ W p o Ho Hl) as Hp. rewrite bool_decide_true by done. cbn [negb].
  apply wps_bind. eapply wps_get_fd; [done|]. apply wps_bind. eapply wps_get_loop; [done|].
  apply wps_bind, wps_kern.
  destruct (sys_epoll_ctl (lp_epfd lp) EPOLL_CTL_MOD (watched_fd o) None (ls_kern s)) as [[v|e] k1] eqn:E1;
    [by apply ctl_null in E1|]. cbn [fst snd].
  destruct (ctl_error_kept _ _ _ _ _ _ _ E1) as [He1 K1]. apply wps_ret. split_and!; [done..| |lia].
  split; [done..|]. intros lp1 El1. cbn in *. congruence.
Qed.

(** ** References *)

Lemma lp_wf_ref n n' ints opn fds lp r : lp_wf n ints opn fds lp -> n' <= r -> lp_wf n' ints opn fds (set_ref lp r).
Proof. intros [] Hr. by constructor. Qed.

Lemma wps_loop_ref n s w m (Q : unit -> lstate K U -> world -> mem -> Prop) :
  loop_inv n s ->
  (forall lp, ls_loop s = Some lp ->
     let s' := set_loop s (Some (set_ref lp (lp_ref lp + 1))) in
     loop_inv (n + 1) s' -> array_kept s s' -> Q tt s' w m) ->
  wps obus_loop_ref Q s w m.
Proof.
  intros (lp & El & W) HQ. unfold obus_loop_ref. apply wps_bind. eapply wps_get_loop; [done|].
  apply wps_modify. apply HQ; [done| |].
  - eexists. split; [done|]. apply (lp_wf_ref n); [done|]. pose proof (lw_ref _ _ _ _ _ W). lia.
  - intros i (lp1 & e & El1 & He). rewrite El in El1. injection El1 as <-. by eexists _, e.
Qed.

(** The release of one of at least two references. *)
Lemma wps_loop_unref n s w m (Q : Z -> lstate K U -> world -> mem -> Prop) :
  loop_inv (n + 1) s -> 1 <= n ->
  (forall lp, ls_loop s = Some lp ->
     let s' := set_loop s (Some (set_ref lp (lp_ref lp - 1))) in
     loop_inv n s' -> array_kept s s' -> Q 0 s' w m) ->
  wps obus_loop_unref Q s w m.
Proof.
  intros (lp & El & W) Hn HQ. unfold obus_loop_unref. apply wps_bind. eapply wps_get_loop; [done|].
  pose proof (lw_ref _ _ _ _ _ W). cbv zeta. apply wps_bind, wps_modify. cbn [lp_ref set_ref].
  destruct (Z.eqb_spec (lp_ref lp - 1) 0); [lia|]. apply wps_ret, HQ; [done| |].
  - eexists. split; [done|]. apply (lp_wf_ref (n + 1)); [done|]. lia.
  - intros i (lp1 & e & El1 & He). rewrite El in El1. injection El1 as <-. by eexists _, e.
Qed.
End Inv.

(** ** Processing *)

(** Application code that keeps an invariant [I]: the loop is well formed, with
    [n] references that are not the application's, and what the application needs.
    The library moves the array, the kernel, by waiting, and the references of its
    own. *)
Definition waits {K : Type} {EK : EpollKernel K} (epfd : Z) (k k' : K) : Prop :=
  exists fuel n t, k' = snd (wait_eintr fuel epfd n t k).

Lemma waits_refl {K : Type} {EK : EpollKernel K} epfd (k : K) : waits epfd k k.
Proof. by exists O, 0, 0. Qed.

Class LawfulLoop {K U : Type} {EK : EpollKernel K} {LE : LawfulEpoll K} (LC : LoopCode K U)
    (I : Z -> lstate K U -> Prop) : Prop := {
  lawful_inv : forall n s, I n s -> loop_inv n s;
  lawful_step : forall n n' s k lp lp',
    I n s -> ls_loop s = Some lp -> loop_inv n' (set_loop (set_kern s k) (Some lp')) ->
    lp_epfd lp' = lp_epfd lp -> kept (lp_epfd lp) (ls_kern s) k -> waits (lp_epfd lp) (ls_kern s) k ->
    lp_ref lp' - n' = lp_ref lp - n -> I n' (set_loop (set_kern s k) (Some lp'));
  lawful_callback : forall n s w m p o events,
    1 <= n -> I n s -> ls_fds s !! p = Some o -> fd_loop o = true ->
    wps (fd_callback (fd_cb o) p events (fd_data o))
        (fun _ s' _ _ => I n s' /\ array_kept s s') s w m
}.

Section Process.
Context {K U : Type} {EK : EpollKernel K} {LE : LawfulEpoll K} {AL : Allocator} {LC : LoopCode K U}.
Context {I : Z -> lstate K U -> Prop} {LL : LawfulLoop LC I}.
Implicit Types (s : lstate K U) (w : world) (m : mem).

Lemma I_loop n n' s lp lp' :
  I n s -> ls_loop s = Some lp -> loop_inv n' (set_loop s (Some lp')) -> lp_epfd lp' = lp_epfd lp ->
  lp_ref lp' - n' = lp_ref lp - n -> I n' (set_loop s (Some lp')).
Proof.
  destruct s as [k l f u]. intros H1 H2 H3 H4 H5. apply (lawful_step n n' (LState k l f u) k lp lp'); try done. apply waits_refl.
Qed.

Lemma lp_wf_events n ints opn fds lp l nalloc :
  lp_wf n ints opn fds lp -> Z.of_nat (length l) = nalloc ->
  (forall (i : nat) e, l !! i = Some (Some e) -> ep_events e <> 0) ->
  lp_wf n ints opn fds (set_events lp l nalloc).
Proof. intros [] H1 H2. by constructor. Qed.

Lemma wps_grow n s w m :
  I n s ->
  wps grow_events (fun ret s' _ _ => I n s' /\ array_kept s s' /\
    (ret = - ENOMEM \/ ret = 0 /\ forall lp, ls_loop s' = Some lp -> lp_nfds lp <= lp_nallocevents lp)) s w m.
Proof.
  intros HI. pose proof (lawful_inv _ _ HI) as (lp & El & W). unfold grow_events. apply wps_bind. eapply wps_get_loop; [done|].
  destruct (Z.ltb_spec (lp_nallocevents lp) (lp_nfds lp)) as [Hlt|Hge].
  2:{ apply wps_ret. split_and!; [done..|]. right. split; [done|]. intros lp1 El1. congruence. }
  apply wps_bind, wps_mem, wp_alloc.
  2:{ intros k m' _ _. apply wps_ret. split_and!; [done..|by left]. }
  intros k m' _ _. pose proof (nfds_bound _ _ _ _ _ W) as Hb. apply wps_bind, wps_int.
  { unfold FD_LIMIT, INT_MAX, EXTRA_ALLOC_EVENT_NB in *. lia. }
  cbv zeta. apply wps_bind, wps_modify, wps_ret. set (z := EXTRA_ALLOC_EVENT_NB + lp_nfds lp).
  pose proof (lw_array _ _ _ _ _ W) as Ha. split_and!.
  - apply (I_loop n n s lp); [done|done| |done..]. eexists. split; [done|]. apply lp_wf_events; [done|..].
    + rewrite length_app, length_replicate. unfold z, EXTRA_ALLOC_EVENT_NB. lia.
    + intros i e [He|[_ [He _]%lookup_replicate_1]]%lookup_app_Some; [by eapply (lw_events _ _ _ _ _ W)|done].
  - intros i (lp1 & e & El1 & He). rewrite El in El1. injection El1 as <-. eexists _, e. split; [done|].
    cbn. by apply lookup_app_l_Some.
  - right. split; [done|]. intros lp1 [= <-]. cbn. unfold z, EXTRA_ALLOC_EVENT_NB. lia.
Qed.

Lemma wait_eintr_spec fuel epfd n t k :
  (k_interrupts k < fuel)%nat ->
  exists r k', wait_eintr fuel epfd n t k = (Some r, k') /\ kept epfd k k' /\
    match r with
    | inl evs => Z.of_nat (length evs) <= n /\ Forall (fun e => ep_events e <> 0 /\
        exists fd e', interest k epfd !! fd = Some e' /\ ep_ptr e' = ep_ptr e) evs
    | inr e => 0 < e
    end.
Proof.
  revert k. induction fuel as [|fuel IH]; intros k Hf; [lia|]. cbn [wait_eintr]. unfold mbind, KM_bind.
  assert (kept epfd k (snd (sys_epoll_wait epfd n t k))) as Hi by (split; [apply wait_frame|apply wait_opened]).
  destruct (sys_epoll_wait epfd n t k) as [[evs|e] k1] eqn:E; cbn [snd] in Hi.
  - exists (inl evs), k1. split; [done|]. split; [done|]. by eapply wait_reports.
  - destruct (Z.eqb_spec e EINTR) as [->|Hne].
    + apply wait_interrupts in E as Hlt. destruct (IH k1) as (r & k2 & H1 & H2 & H3); [lia|].
      exists r, k2. rewrite H1. split; [done|]. split; [by etransitivity|]. destruct Hi as [Hi _]. by rewrite Hi in H3.
    + exists (inr e), k1. split; [done|]. split; [done|]. by eapply wait_errno.
Qed.

(** The wait: an error, or events of the objects of the list at the front of the
    array. *)
Lemma wps_wait n t s w m :
  I n s -> (forall lp, ls_loop s = Some lp -> lp_nfds lp <= lp_nallocevents lp) ->
  wps (wait_events t) (fun ret s' _ _ => I n s' /\ array_kept s s' /\
    (ret < 0 \/ 0 <= ret /\ (forall i, Z.of_nat i < ret -> filled s' i) /\
       forall lp, ls_loop s' = Some lp -> ret <= Z.of_nat (length (lp_events lp)))) s w m.
Proof.
  intros HI Hroom. pose proof (lawful_inv _ _ HI) as (lp & El & W). unfold wait_events. apply wps_bind. eapply wps_get_loop; [done|].
  apply wps_bind, wps_kern.
  destruct (wait_eintr_spec (S (k_interrupts (ls_kern s))) (lp_epfd lp) (lp_nfds lp) t (ls_kern s))
    as (r & k1 & Er & Hi & Hr); [lia|]. rewrite Er. cbn [fst snd].
  assert (forall lp', lp_epfd lp' = lp_epfd lp -> lp_ref lp' = lp_ref lp ->
    lp_wf n (interest (ls_kern s) (lp_epfd lp)) (opened (ls_kern s)) (ls_fds s) lp' ->
    I n (set_loop (set_kern s k1) (Some lp'))) as Hinv.
  { intros lp' Ee Er' W'. apply (lawful_step n n s k1 lp); [done|done| |done|done|by eexists _, _, _; rewrite Er|by rewrite Er'].
    exists lp'. split; [done|]. cbn. destruct Hi as [Hi1 Hi2]. by rewrite Ee, Hi1, Hi2. }
  destruct r as [evs|e].
  2:{ apply wps_ret. split_and!; [|..|left; lia].
      - pose proof (Hinv lp eq_refl eq_refl W) as H. destruct s; cbn in *. by subst.
      - intros i (lp1 & e1 & H). by exists lp1, e1. }
  destruct Hr as [Hlen Hevs]. specialize (Hroom lp El). pose proof (lw_array _ _ _ _ _ W) as Ha.
  destruct (Nat.ltb_spec (length (lp_events lp)) (length evs)); [lia|].
  apply wps_bind, wps_modify, wps_ret.
  assert (length (map Some evs) = length evs) as Hm by apply length_map. split_and!.
  - apply Hinv; [done..|]. apply lp_wf_events; [done|..].
    + rewrite length_app, Hm, length_drop. lia.
    + intros i e [He|[_ He]]%lookup_app_Some.
      * rewrite list_lookup_fmap in He. destruct (evs !! i) as [e'|] eqn:Ee; [|done]. injection He as <-.
        rewrite Forall_forall in Hevs. apply (Hevs e'). by eapply list_elem_of_lookup_2.
      * rewrite lookup_drop in He. by eapply (lw_events _ _ _ _ _ W).
  - intros i (lp1 & e1 & El1 & He). rewrite El in El1. injection El1 as <-.
    destruct (decide (i < length evs)%nat) as [Hlt|Hge].
    + destruct (lookup_lt_is_Some_2 evs i Hlt) as [e Ee]. eexists _, e. split; [done|]. cbn.
      apply lookup_app_l_Some. by rewrite list_lookup_fmap, Ee.
    + eexists _, e1. split; [done|]. cbn. rewrite lookup_app_r by lia. rewrite Hm, lookup_drop.
      by replace (length evs + (i - length evs))%nat with i by lia.
  - right. split; [lia|]. split.
    + intros i Hlt. destruct (lookup_lt_is_Some_2 evs i ltac:(lia)) as [e Ee]. eexists _, e. split; [done|]. cbn.
      apply lookup_app_l_Some. by rewrite list_lookup_fmap, Ee.
    + intros lp1 [= <-]. cbn. rewrite length_app, Hm, length_drop. lia.
Qed.

Lemma wps_serve n e s w m :
  1 <= n -> I n s ->
  wps (serve_event e) (fun _ s' _ _ => I n s' /\ array_kept s s') s w m.
Proof.
  intros Hn HI. pose proof (lawful_inv _ _ HI) as (lp & El & W). unfold serve_event. cbv zeta.
  case_bool; [by apply wps_ret|]. apply wps_bind. eapply wps_is_listed; [done..|].
  case_bool_decide as Hp; [|by apply wps_ret].
  destruct (lw_listed _ _ _ _ _ W _ Hp) as (o & e' & Ho & Hl & Hc & _).
  apply wps_bind. eapply wps_get_fd; [done|]. destruct (Z.eqb_spec (fd_cb o) 0); [done|].
  by apply lawful_callback.
Qed.

Lemma wps_dispatch n fuel i ret s w m :
  1 <= n -> I n s -> 0 <= i <= ret -> ret - i < Z.of_nat fuel ->
  (forall k, Z.of_nat k < ret -> filled s k) ->
  wps (dispatch fuel i i ret) (fun _ s' _ _ => I n s' /\ array_kept s s') s w m.
Proof.
  intros Hn. revert i s w m. induction fuel as [|fuel IH]; intros i s w m HI Hi Hf Hfill; [lia|].
  - pose proof (lawful_inv _ _ HI) as (lp & El & W). cbn [dispatch]. apply wps_bind. eapply wps_get_loop; [done|].
    destruct (Z.ltb_spec i (lp_nfds lp)), (Z.ltb_spec i ret); cbn [andb negb]; try by apply wps_ret.
    destruct (Hfill (Z.to_nat i)) as (lp1 & e & El1 & He); [lia|]. rewrite El in El1. injection El1 as <-.
    apply wps_bind, wps_mem. rewrite He. eapply wp_lift; [done|].
    destruct (Z.eqb_spec (ep_events e) 0) as [Hz|Hz]; [by apply (lw_events _ _ _ _ _ W) in He|].
    apply wps_bind. eapply wps_mono; [by apply (wps_serve n)|]. intros [] s1 w1 m1 (I1 & K1).
    eapply wps_mono; [apply IH; [done|lia|lia|]|].
    + intros k Hk. by apply K1, Hfill.
    + intros [] s2 w2 m2 (I2 & K2). split_and!; [done..|]. by etransitivity.
Qed.

(** Processing is defined whatever the kernel reports and the callbacks do: no
    freed object is used, no entry out of the array or not written is read, the
    walk ends, and the loop is still there. *)
Lemma wps_do_process n t s w m :
  1 <= n -> I n s ->
  wps (obus_loop_do_process t) (fun ret s' _ _ => ret <= 0 /\ I n s' /\ array_kept s s') s w m.
Proof.
  intros Hn HI. unfold obus_loop_do_process. apply wps_bind. eapply wps_mono; [by apply (wps_grow n)|].
  intros ret s1 w1 m1 (I1 & K1 & Hret).
  destruct Hret as [->|[-> Hroom]]; [by apply wps_ret|]. cbn [failed Z.ltb Z.compare].
  apply wps_bind. eapply wps_mono; [by apply (wps_wait n)|].
  intros ret s2 w2 m2 (I2 & K2 & Hret). assert (array_kept s s2) as K02 by (by etransitivity).
  destruct (failed ret) eqn:Hf; [apply failed_spec in Hf; apply wps_ret; split_and!; [lia|done..]|].
  destruct Hret as [Hneg|(Hret & Hfill & Hlen)]; [apply failed_spec in Hneg; congruence|].
  case_bool; [by apply wps_ret|].
  apply wps_bind. eapply wps_loop_ref; [by apply lawful_inv|]. intros lp2 El2 s3 I3 K3.
  apply (I_loop n (n + 1) s2 lp2) in I3; [|done|done|done|cbn; lia].
  apply wps_bind. eapply wps_get_loop; [done|]. apply wps_bind.
  eapply wps_mono; [apply (wps_dispatch (n + 1)); [lia|done|lia| |]|].
  - specialize (Hlen _ El2). cbn. lia.
  - intros k Hk. by apply K3, Hfill.
  - intros [] s4 w4 m4 (I4 & K4). apply wps_bind. eapply wps_loop_unref; [by apply lawful_inv|done|].
    intros lp4 El4 s5 I5 K5. apply wps_ret. split_and!; [lia| |].
    + apply (I_loop (n + 1) n s4 lp4); [done|done|done|done|cbn; lia].
    + etransitivity; [exact K02|]. etransitivity; [exact K3|]. by etransitivity.
Qed.
End Process.

(** ** A new loop *)

Section New.
Context {K U : Type} {EK : EpollKernel K} {LE : LawfulEpoll K} {AL : Allocator}.

Lemma loop_new_inv k m lp k' m' (u : U) :
  obus_loop_new k m = Some ((Some lp, k'), m') -> loop_inv 1 (LState k' (Some lp) ∅ u).
Proof.
  unfold obus_loop_new, m_alloc, mbind, M_bind. destruct (malloc_ok (m_count m) LOOP_SIZE); [|done].
  unfold loop_setup, mret, M_ret, mbind, KM_bind. destruct (sys_epoll_create k) as [[v|e] k1] eqn:E1; [|done].
  pose proof (set_cloexec_kept v k1 v) as [H1 _]. destruct (obus_fd_set_close_on_exec v k1) as [r1 k2]. cbn in H1.
  destruct (failed r1); [by destruct (sys_close v k2)|].
  pose proof (add_flags_kept v O_NONBLOCK k2 v) as [H2 _]. destruct (obus_fd_add_flags v O_NONBLOCK k2) as [r2 k3]. cbn in H2.
  destruct (failed r2); [by destruct (sys_close v k3)|]. intros [= <- <- _]. apply create_empty in E1.
  eexists. split; [done|]. cbn. rewrite H2, H1, E1. constructor; cbn; try done.
  - apply NoDup_nil_2.
  - by intros p Hp%not_elem_of_nil.
  - by intros fd [? ?].
Qed.
End New.
