(* ===== verification/LoopRun.v ===== *)
(** * The event loop: reachable states, what is served, scripted applications

    The operations an application makes on a loop and on its objects, and the
    theorems on all their sequences; applications whose callbacks make such
    operations in turn are lawful.  A kernel small enough to be run shows that
    the laws of epoll can hold. *)
From stdpp Require Import infinite.
From S2P Require Import Prelude Mem World Bus Handler Utils Loop LoopFacts.

Inductive loop_op :=
| LoopInit (p : positive) (fd events cb data : Z)
| LoopReset (p : positive)
| LoopFree (p : positive)
| LoopAdd (p : positive)
| LoopUpdate (p : positive)
| LoopRemove (p : positive)
| LoopProcess
| LoopWait
| LoopHold.              (* obus_loop_ref *)

Section Run.
Context {K U : Type} {EK : EpollKernel K} {AL : Allocator}.

(** The object exists; and, for [idle], it is in no loop. *)
Definition on_live (p : positive) (c : LM K U unit) : LM K U unit :=
  fds ← sv_gets ls_fds;
  match fds !! p with Some _ => c | None => mret tt end.
Definition when_idle (p : positive) (c : LM K U unit) : LM K U unit :=
  fds ← sv_gets ls_fds;
  match fds !! p with
  | Some o => if obus_fd_is_used o =? 0 then c else mret tt
  | None => c
  end.

(** The application does not use an object it has freed, and neither frees nor
    initialises an object that is in the loop. *)
Definition run_loop_op {LC : LoopCode K U} (op : loop_op) : LM K U unit :=
  match op with
  | LoopInit p fd events cb data => when_idle p (put_fd p (obus_fd_init fd events cb data))
  | LoopReset p => on_live p (o ← get_fd p; put_fd p (snd (obus_fd_reset o)))
  | LoopFree p => when_idle p (sv_modify (fun s => set_fds s (delete p (ls_fds s))))
  | LoopAdd p => on_live p (_ ← obus_loop_add p; mret tt)
  | LoopUpdate p => on_live p (_ ← obus_loop_update p; mret tt)
  | LoopRemove p => on_live p (_ ← obus_loop_remove p; mret tt)
  | LoopProcess => _ ← obus_loop_process; mret tt
  | LoopWait => _ ← obus_loop_wait; mret tt
  | LoopHold => obus_loop_ref
  end.

Fixpoint run_loop_ops {LC : LoopCode K U} (l : list loop_op) : LM K U unit :=
  match l with
  | [] => mret tt
  | op :: l' => run_loop_op op;; run_loop_ops l'
  end.

(** A callback runs the script of its address and of its object; the callbacks
    made meanwhile run theirs, down to [n] inside each other. *)
Fixpoint scripted_loop (script : Z -> positive -> list loop_op) (n : nat) : LoopCode K U :=
  match n with
  | O => fun _ _ _ _ => mret tt
  | S n' => fun cb p _ _ => run_loop_ops (LC := scripted_loop script n') (script cb p)
  end.
End Run.

Section Safe.
Context {K U : Type} {EK : EpollKernel K} {LE : LawfulEpoll K} {AL : Allocator}.
Implicit Types (s : lstate K U) (w : world) (m : mem).

Definition plain (n : Z) s : Prop := loop_inv n s.

(** Objects that are not in the loop may change freely. *)
Lemma idle_inv n s p fds :
  loop_inv n s -> (forall o, ls_fds s !! p = Some o -> fd_loop o = false) ->
  (forall q, q <> p -> fds !! q = ls_fds s !! q) ->
  (forall o, fds !! p = Some o -> fd_loop o = false /\ fd_dupfd o = -1) ->
  loop_inv n (set_fds s fds) /\ array_kept s (set_fds s fds).
Proof.
  intros (lp & El & W) Hp Hq Hnew. split; [|intros i (lp1 & e & H); by exists lp1, e].
  exists lp. split; [done|]. cbn. destruct W as [W1 W2 W3 W4 W5 WO W6 W7 W8 W9].
  assert (forall q, q ∈ lp_ofds lp -> q <> p) as Hne.
  { intros q Hin ->. destruct (W3 p Hin) as (o & e & Ho & Hl & _). apply Hp in Ho. congruence. }
  constructor; cbn; try done.
  - intros q Hin. rewrite Hq by by apply Hne. by apply W3.
  - intros q o Ho Hl. destruct (decide (q = p)) as [->|Hn]; [apply Hnew in Ho; by destruct Ho; congruence|].
    rewrite Hq in Ho by done. by eapply W4.
  - intros fd e He. destruct (W5 fd e He) as (H1 & H2 & o & Ho & Hw). split_and!; [apply H1|apply H1|done|].
    exists o. by rewrite Hq by by apply Hne.
  - intros q o Ho Hl. destruct (decide (q = p)) as [->|Hn]; [by apply Hnew in Ho as [_ ?]|].
    rewrite Hq in Ho by done. by eapply W6.
Qed.

Lemma add_post_inv n p o s ret s' :
  ls_fds s !! p = Some o -> add_post p o s ret s' -> loop_inv n s -> loop_inv n s' /\ array_kept s s'.
Proof.
  unfold add_post. intros Ho H I. destruct (_ || (fd_cb o =? 0)) eqn:Eg; [by destruct H as [_ ->]|].
  destruct (fd_loop o) eqn:Hl; [by destruct H as [_ ->]|].
  destruct H as [[_ H]|[_ [d H]]].
  - split; [by eapply untouched_inv|by apply untouched_array].
  - split; [|by eapply registered_array]. eapply registered_inv; [done|done| |done|done].
    apply orb_false_iff in Eg as [_ Hc]. by apply Z.eqb_neq in Hc.
Qed.

Lemma remove_post_inv n p o s ret s' :
  ls_fds s !! p = Some o -> remove_post p o s ret s' -> loop_inv n s -> loop_inv n s' /\ array_kept s s'.
Proof.
  unfold remove_post. intros Ho H I. destruct (fd_loop o); [|by destruct H as [_ ->]].
  destruct H as [_ H]. split; [by eapply unregistered_inv|by eapply unregistered_array].
Qed.

Context {LC : LoopCode K U} {LL : LawfulLoop LC plain}.

Lemma wps_loop_op n op s w m :
  1 <= n -> loop_inv n s ->
  wps (run_loop_op op) (fun _ s' _ _ => loop_inv n s' /\ array_kept s s') s w m.
Proof.
  intros Hn I. destruct op as [p fd ev cb d|p|p|p|p|p| | |]; cbn [run_loop_op].
  - unfold when_idle. apply wps_bind, wps_gets. unfold obus_fd_is_used.
    destruct (ls_fds s !! p) as [o|] eqn:Ho; [destruct (fd_loop o) eqn:Hl; [by apply wps_ret|]|];
      apply wps_modify, (idle_inv n s p); try done; try (intros q Hq; by rewrite lookup_insert_ne);
      try (intros o'; rewrite lookup_insert_eq; by intros [= <-]); intros o'; congruence.
  - unfold on_live. apply wps_bind, wps_gets. destruct (ls_fds s !! p) as [o|] eqn:Ho; [|by apply wps_ret].
    apply wps_bind. eapply wps_get_fd; [done|]. unfold obus_fd_reset. destruct (fd_loop o) eqn:Hl; apply wps_modify.
    + cbn. by rewrite put_fd_same.
    + apply (idle_inv n s p); [done|congruence|intros q Hq; by rewrite lookup_insert_ne|].
      intros o'. rewrite lookup_insert_eq. by intros [= <-].
  - unfold when_idle. apply wps_bind, wps_gets. unfold obus_fd_is_used.
    destruct (ls_fds s !! p) as [o|] eqn:Ho; [destruct (fd_loop o) eqn:Hl; [by apply wps_ret|]|];
      apply wps_modify, (idle_inv n s p); try done; try (intros q Hq; by rewrite lookup_delete_ne);
      try (intros o'; by rewrite lookup_delete_eq); intros o'; congruence.
  - unfold on_live. apply wps_bind, wps_gets. destruct (ls_fds s !! p) as [o|] eqn:Ho; [|by apply wps_ret].
    apply wps_bind. eapply wps_mono; [by eapply wps_loop_add|]. intros ret s' w' m' (_ & _ & H).
    apply wps_ret. by eapply add_post_inv.
  - unfold on_live. apply wps_bind, wps_gets. destruct (ls_fds s !! p) as [o|] eqn:Ho; [|by apply wps_ret].
    apply wps_bind. eapply wps_mono; [by eapply wps_loop_update|]. intros ret s' w' m' (_ & _ & H & _).
    apply wps_ret. split; [by eapply untouched_inv|by apply untouched_array].
  - unfold on_live. apply wps_bind, wps_gets. destruct (ls_fds s !! p) as [o|] eqn:Ho; [|by apply wps_ret].
    apply wps_bind. eapply wps_mono; [by eapply wps_loop_remove|]. intros ret s' w' m' (_ & _ & H).
    apply wps_ret. by eapply remove_post_inv.
  - apply wps_bind. eapply wps_mono; [by apply (wps_do_process n)|]. intros ret s' w' m' (_ & I' & K').
    by apply wps_ret.
  - apply wps_bind. eapply wps_mono; [by apply (wps_do_process n)|]. intros ret s' w' m' (_ & I' & K').
    by apply wps_ret.
  - eapply wps_loop_ref; [done|]. intros lp El s' (lp' & El' & W') K'. split; [|done].
    exists lp'. split; [done|]. destruct W'. constructor; try done. lia.
Qed.

Lemma wps_loop_ops n ops s w m :
  1 <= n -> loop_inv n s ->
  wps (run_loop_ops ops) (fun _ s' _ _ => loop_inv n s' /\ array_kept s s') s w m.
Proof.
  intros Hn. revert s w m. induction ops as [|op ops IH]; intros s w m I; cbn [run_loop_ops]; [by apply wps_ret|].
  apply wps_bind. eapply wps_mono; [by apply (wps_loop_op n)|]. intros [] s1 w1 m1 [I1 K1].
  eapply wps_mono; [by apply IH|]. intros [] s2 w2 m2 [I2 K2]. split; [done|by etransitivity].
Qed.
End Safe.

#[export] Instance scripted_loop_lawful {K U} {EK : EpollKernel K} {LE : LawfulEpoll K} {AL : Allocator}
    script n : LawfulLoop (scripted_loop (K := K) (U := U) script n) plain.
Proof.
  induction n as [|n IH]; split; try done; intros r s w m p o ev Hr I Ho Hl; cbn.
  - by apply wps_ret.
  - eapply wps_mono; [by apply (wps_loop_ops r)|]. by intros [] s' w' m' [H1 H2].
Qed.

(** ** Reachable states *)

Section Reach.
Context {K U : Type} {EK : EpollKernel K} {LE : LawfulEpoll K} {AL : Allocator}.
Context {LC : LoopCode K U} {LL : LawfulLoop LC plain}.
Implicit Types (s : lstate K U).

(** A reference that has been taken is released, while another one is left. *)
Inductive loop_reachable : lstate K U -> Prop :=
| reach_new k m lp k' m' u :
    obus_loop_new k m = Some ((Some lp, k'), m') -> loop_reachable (LState k' (Some lp) ∅ u)
| reach_op op s w m s' w' m' :
    loop_reachable s -> run_loop_op op s w m = Some ((tt, s'), w', m') -> loop_reachable s'
| reach_unref lp s w m r s' w' m' :
    loop_reachable s -> ls_loop s = Some lp -> 2 <= lp_ref lp ->
    obus_loop_unref s w m = Some ((r, s'), w', m') -> loop_reachable s'.

Lemma reachable_inv s : loop_reachable s -> loop_inv 1 s.
Proof.
  induction 1 as [k m lp k' m' u H|op s w m s' w' m' _ IH E|lp s w m r s' w' m' _ IH El Hr E].
  - by eapply loop_new_inv.
  - destruct (wps_loop_op 1 op s w m ltac:(lia) IH) as ([[a s1] w1] & m1 & E1 & [I1 _]).
    rewrite E in E1. by injection E1 as <- <- <- <-.
  - assert (loop_inv (1 + 1) s) as I2.
    { destruct IH as (lp1 & El1 & W). rewrite El in El1. injection El1 as <-. exists lp. split; [done|].
      destruct W. by constructor. }
    destruct (wps_loop_unref 1 s w m (fun _ s' _ _ => loop_inv 1 s') I2 ltac:(lia)) as ([[a s1] w1] & m1 & E1 & I1);
      [by intros|]. rewrite E in E1. by injection E1 as <- <- <- <-.
Qed.

(** C30: whatever the application does, and whatever its callbacks do while events
    are processed, every operation on the loop is defined, and between two of
    them the four records of what is watched agree: an object is in the list of
    the loop when it is marked as used, the count is the length of the list, and
    the epoll set holds the descriptors of the objects of the list (or their
    duplicates) with the address of their object, and nothing else. *)
Theorem loop_reachable_invariant s :
  loop_reachable s ->
  (forall op w m, is_Some (run_loop_op op s w m)) /\
  exists lp, ls_loop s = Some lp /\ NoDup (lp_ofds lp) /\
    lp_nfds lp = Z.of_nat (length (lp_ofds lp)) /\
    (forall p, p ∈ lp_ofds lp <-> exists o, ls_fds s !! p = Some o /\ obus_fd_is_used o = 1) /\
    forall fd p, (exists ev, interest (ls_kern s) (lp_epfd lp) !! fd = Some (EpollEvent ev p)) <->
      p ∈ lp_ofds lp /\ exists o, ls_fds s !! p = Some o /\ watched_fd o = fd.
Proof.
  intros I%reachable_inv. split.
  { intros op w m. destruct (wps_loop_op 1 op s w m ltac:(lia) I) as (r & m1 & E & _). rewrite E. by eexists. }
  destruct I as (lp & El & [W1 W2 W3 W4 W5 WO W6 W7 W8 W9]). exists lp. split_and!; [done..| |].
  - intros p. unfold obus_fd_is_used. split.
    + intros Hp. destruct (W3 p Hp) as (o & e & Ho & Hl & _). exists o. by rewrite Hl.
    + intros (o & Ho & Hu). apply (W4 p o); [done|]. by destruct (fd_loop o).
  - intros fd p. split.
    + intros [ev He]. destruct (W5 fd _ He) as (_ & Hp & o & Ho & Hw). split; [done|by exists o].
    + intros (Hp & o & Ho & <-). destruct (W3 p Hp) as (o' & [ev q] & Ho' & _ & _ & He & Hq). cbn in Hq. subst q.
      rewrite Ho in Ho'. injection Ho' as <-. by exists ev.
Qed.

(** Nothing can be updated: [obus_loop_update] reports an error for an object
    of the loop too, and changes nothing. *)
Theorem loop_update_fails s p o w m :
  loop_reachable s -> ls_fds s !! p = Some o ->
  wps (obus_loop_update p) (fun ret s' w' m' => w' = w /\ m' = m /\ untouched s s' /\
    if fd_loop o then ret < 0 else ret = - ENOENT) s w m.
Proof. intros I%reachable_inv Ho. by apply (wps_loop_update 1). Qed.
End Reach.

(** ** What a turn serves *)

Section Serve.
Context {K U : Type} {EK : EpollKernel K} {LE : LawfulEpoll K} {AL : Allocator} {LC : LoopCode K U}.
Implicit Types (s : lstate K U).

(** The reference: every reported event, in order. *)
Fixpoint serve_all (evs : list epoll_event) : LM K U unit :=
  match evs with
  | [] => mret tt
  | e :: evs' => serve_event e;; serve_all evs'
  end.

(** The loop has as many objects and the same array. *)
Definition steady s s' : Prop :=
  forall lp, ls_loop s = Some lp -> exists lp', ls_loop s' = Some lp' /\
    lp_nfds lp' = lp_nfds lp /\ lp_events lp' = lp_events lp.

Class SteadyLoop : Prop := steady_callback : forall cb p ev d, keeps (fun _ => True) steady (fd_callback cb p ev d).

Context `{!SteadyLoop}.

Lemma steady_refl s : steady s s.
Proof. intros lp El. by exists lp. Qed.

#[local] Instance steady_preorder : PreOrder steady.
Proof.
  split; [exact steady_refl|]. intros s1 s2 s3 H1 H2 lp El. destruct (H1 lp El) as (lp2 & E2 & A & B).
  destruct (H2 lp2 E2) as (lp3 & E3 & C & D). exists lp3. by rewrite <- A, <- B.
Qed.

Lemma serve_steady e : keeps (fun _ => True) steady (serve_event e).
Proof.
  pose proof steady_callback. unfold serve_event, is_listed, get_ofds, get_loop, get_fd.
  repeat first [done|keeps_step].
Qed.

Lemma dispatch_serve_all evs rest fuel i lp s w m :
  ls_loop s = Some lp -> lp_events lp = map Some evs ++ rest ->
  Forall (fun e => ep_events e <> 0) evs -> Z.of_nat (length evs) <= lp_nfds lp ->
  (i <= length evs)%nat -> (length evs - i < fuel)%nat ->
  dispatch fuel (Z.of_nat i) (Z.of_nat i) (Z.of_nat (length evs)) s w m = serve_all (drop i evs) s w m.
Proof.
  intros El Ea He Hn. revert i lp s w m El Ea Hn. induction fuel as [|fuel IH]; intros i lp s w m El Ea Hn Hi Hf; [lia|].
  cbn [dispatch].
  assert (forall A (f : obus_loop -> LM K U A), (get_loop ≫= f) s w m = f lp s w m) as Hget.
  { intros A f. unfold get_loop, sv_gets, on_mem, on_bus, lift, m_lift, mbind, StW_bind, mbind, W_bind, mbind, M_bind. cbn. by rewrite El. }
  rewrite Hget. clear Hget. destruct (decide (i = length evs)) as [->|Hne].
  { rewrite drop_ge by done. rewrite Z.ltb_irrefl, andb_false_r. done. }
  destruct (lookup_lt_is_Some_2 evs i) as [e Hie]; [lia|].
  rewrite (drop_S _ _ _ Hie). rewrite (proj2 (Z.ltb_lt (Z.of_nat i) (lp_nfds lp))), (proj2 (Z.ltb_lt (Z.of_nat i) _)) by lia.
  cbn [andb negb]. rewrite Nat2Z.id, Ea.
  assert (mjoin ((map Some evs ++ rest) !! i) = Some e) as ->.
  { rewrite (lookup_app_l_Some _ _ _ (Some e)); [done|]. by rewrite list_lookup_fmap, Hie. }
  change ((on_mem (m_lift (Some e)) ≫= (fun e : epoll_event => if ep_events e =? 0 then _ else _)) s w m)
    with ((if ep_events e =? 0 then dispatch fuel (Z.of_nat i + 1) (Z.of_nat i) (Z.of_nat (length evs))
      else serve_event e;; dispatch fuel (Z.of_nat i + 1) (Z.of_nat i + 1) (Z.of_nat (length evs))) s w m).
  rewrite Forall_forall in He. rewrite (proj2 (Z.eqb_neq _ _) (He e (list_elem_of_lookup_2 _ _ _ Hie))).
  cbn [serve_all]. destruct (serve_event e s w m) as [[[[[] s1] w1] m1]|] eqn:E.
  2:{ by rewrite !run_bind_none. }
  rewrite !(run_bind _ _ _ _ _ _ _ _ _ E). destruct (serve_steady e _ _ _ _ _ _ _ E I) as [_ Hs].
  destruct (Hs lp El) as (lp1 & El1 & En1 & Ea1). replace (Z.of_nat i + 1) with (Z.of_nat (S i)) by lia.
  apply (IH (S i) lp1); [done|congruence|lia|lia|lia].
Qed.
(** When no callback changes the number of objects or runs the loop, a turn
    serves exactly what the kernel has reported, in its order: each event whose
    object is in the list when its turn comes goes to the callback of the object,
    between taking and dropping a reference of the loop.  (A callback that
    removes an object shortens the walk: the bound is read again.) *)
Theorem process_serves_reported s lp t w m evs k' :
  loop_inv 1 s -> ls_loop s = Some lp -> lp_nfds lp <= lp_nallocevents lp ->
  wait_eintr (S (k_interrupts (ls_kern s))) (lp_epfd lp) (lp_nfds lp) t (ls_kern s) = (Some (inl evs), k') ->
  evs <> [] ->
  let filled_lp := set_events lp (map Some evs ++ drop (length evs) (lp_events lp)) (lp_nallocevents lp) in
  obus_loop_do_process t s w m =
  (serve_all evs;; _ ← obus_loop_unref; mret 0)
    (set_loop (set_kern s k') (Some (set_ref filled_lp (lp_ref lp + 1)))) w m.
Proof.
  intros I El Hroom Ew Hne. cbv zeta. pose proof I as (lp0 & El0 & W). rewrite El in El0. injection El0 as <-.
  destruct (wait_eintr_spec (S (k_interrupts (ls_kern s))) (lp_epfd lp) (lp_nfds lp) t (ls_kern s)) as (r & k1 & E & _ & Hr); [lia|].
  rewrite Ew in E. injection E as <- <-. destruct Hr as [Hlen Hev]. pose proof (lw_array _ _ _ _ _ W) as Ha.
  set (l := map Some evs ++ drop (length evs) (lp_events lp)).
  set (s2 := set_loop (set_kern s k') (Some (set_events lp l (lp_nallocevents lp)))).
  set (lp3 := set_ref (set_events lp l (lp_nallocevents lp)) (lp_ref lp + 1)).
  set (s3 := set_loop (set_kern s k') (Some lp3)).
  assert (forall s lp, ls_loop s = Some lp -> get_loop (K := K) (U := U) s w m = Some ((lp, s), w, m)) as Hget.
  { intros s0 lp0 E. unfold get_loop, sv_gets, on_mem, on_bus, lift, m_lift, mbind, StW_bind, mbind, W_bind, mbind, M_bind. cbn. by rewrite E. }
  assert (grow_events (K := K) (U := U) s w m = Some ((0, s), w, m)) as H1.
  { unfold grow_events. rewrite (run_bind _ _ _ _ _ _ _ _ _ (Hget s lp El)).
    by rewrite (proj2 (Z.ltb_ge _ _)) by lia. }
  assert (wait_events (K := K) (U := U) t s w m = Some ((Z.of_nat (length evs), s2), w, m)) as H2.
  { unfold wait_events. rewrite (run_bind _ _ _ _ _ _ _ _ _ (Hget s lp El)).
    unfold kern. rewrite (run_bind _ _ s w m (Some (inl evs)) (set_kern s k') w m) by (cbv beta zeta; by rewrite Ew).
    cbv beta iota. by rewrite (proj2 (Nat.ltb_ge _ _)) by lia. }
  assert (obus_loop_ref (K := K) (U := U) s2 w m = Some ((tt, s3), w, m)) as H3.
  { unfold obus_loop_ref. rewrite (run_bind _ _ _ _ _ _ _ _ _ (Hget s2 _ eq_refl)). done. }
  assert (0 < length evs)%nat as Hpos by (destruct evs; [done|cbn; lia]).
  unfold obus_loop_do_process. rewrite (run_bind _ _ _ _ _ _ _ _ _ H1). cbn [failed Z.ltb Z.compare].
  rewrite (run_bind _ _ _ _ _ _ _ _ _ H2). unfold failed. rewrite (proj2 (Z.ltb_ge _ _)) by lia.
  rewrite (proj2 (Z.eqb_neq _ _)) by lia.
  rewrite (run_bind _ _ _ _ _ _ _ _ _ H3), (run_bind _ _ _ _ _ _ _ _ _ (Hget s3 lp3 eq_refl)).
  assert (dispatch (S (length (lp_events lp3))) 0 0 (Z.of_nat (length evs)) s3 w m = serve_all evs s3 w m) as Hd.
  { apply (dispatch_serve_all evs (drop (length evs) (lp_events lp)) _ 0 lp3); [done|done| |done|lia|].
    - eapply Forall_impl; [done|]. by intros e [? _].
    - cbn. unfold l. rewrite length_app, length_map, length_drop. lia. }
  destruct (serve_all evs s3 w m) as [[[[[] s4] w4] m4]|] eqn:E4.
  - by rewrite !(run_bind _ _ _ _ _ _ _ _ _ E4), (run_bind _ _ _ _ _ _ _ _ _ Hd).
  - by rewrite (run_bind_none _ _ _ _ _ E4), (run_bind_none _ _ _ _ _ Hd).
Qed.
End Serve.

(** ** A small kernel

    One epoll descriptor, 100; every other number may be watched; the script says
    which descriptors are ready at each wait, or that the wait fails. *)
Module Toy.

Record kernel := Kernel {
  tk_open : gset Z;
  tk_watch : gmap Z epoll_event;
  tk_script : list (list (Z * Z) + positive)
}.

Definition watched (k : kernel) (e : Z) : gmap Z epoll_event := if e =? 100 then tk_watch k else ∅.

(** A descriptor that is not open. *)
Definition unused_fd (k : kernel) : Z := Z.of_nat (base.fresh (set_map Z.to_nat (tk_open k) : gset nat)).

Definition toy_dup (fd : Z) (k : kernel) : sysret * kernel :=
  (SysOk (unused_fd k), Kernel ({[unused_fd k]} ∪ tk_open k) (tk_watch k) (tk_script k)).

Definition ctl (epfd op fd : Z) (evt : option epoll_event) (k : kernel) : sysret * kernel :=
  let watch l := Kernel (tk_open k) l (tk_script k) in
  if negb (epfd =? 100) then (SysErr 9, k) else
  match tk_watch k !! fd, evt with
  | None, Some evt =>
    if (op =? EPOLL_CTL_ADD) && (0 <=? fd) && (fd <? FD_LIMIT) && bool_decide (fd ∈ tk_open k)
    then (SysOk 0, watch (<[fd := evt]> (tk_watch k))) else (SysErr ENOENT, k)
  | Some _, Some _ => (SysErr (if op =? EPOLL_CTL_ADD then EEXIST else EINVAL), k)
  | Some _, None =>
    if op =? EPOLL_CTL_DEL then (SysOk 0, watch (delete fd (tk_watch k))) else (SysErr EFAULT, k)
  | None, None => (SysErr (if op =? EPOLL_CTL_DEL then ENOENT else EFAULT), k)
  end.

(** The events of a wait: of watched descriptors, at least one bit set. *)
Definition report (k : kernel) (ready : list (Z * Z)) : list epoll_event :=
  omap (fun r => match tk_watch k !! fst r with
                 | Some e => if snd r =? 0 then None else Some (EpollEvent (snd r) (ep_ptr e))
                 | None => None
                 end) ready.

Definition wait (epfd n t : Z) (k : kernel) : (list epoll_event + Z) * kernel :=
  if (n <=? 0) || negb (epfd =? 100) then (inr EINVAL, k) else
  match tk_script k with
  | [] => (inl [], k)
  | inr e :: script => (inr (Z.pos e), Kernel (tk_open k) (tk_watch k) script)
  | inl ready :: script => (inl (take (Z.to_nat n) (report k ready)), Kernel (tk_open k) (tk_watch k) script)
  end.

Definition toy_read (fd n : Z) (k : kernel) : (list Z + Z) * kernel := (inr EAGAIN, k).

Lemma toy_read_interrupts fd n k k' :
  toy_read fd n k = (inr EINTR, k') -> (length (tk_script k') < length (tk_script k))%nat.
Proof. done. Qed.

Lemma toy_wait_interrupts epfd n t k k' :
  wait epfd n t k = (inr EINTR, k') -> (length (tk_script k') < length (tk_script k))%nat.
Proof.
  unfold wait. destruct (_ || _); [done|]. destruct (tk_script k) as [|[ready|e] script]; [done..|].
  intros [= _ <-]. cbn. lia.
Qed.

#[export] Instance toy_fd : FdKernel kernel := {|
  sys_fcntl fd c a k := (SysOk 0, k);
  sys_dup := toy_dup;
  sys_close fd k := (SysOk 0, Kernel (tk_open k ∖ {[fd]}) (tk_watch k) (tk_script k));
  sys_open f k := (SysErr ENOENT, k);
  sys_read := toy_read;
  k_interrupts k := length (tk_script k);
  read_interrupts := toy_read_interrupts
|}.

#[export] Instance toy_epoll : EpollKernel kernel := {|
  sys_epoll_create k := (SysOk 100, Kernel ({[100]} ∪ tk_open k) ∅ (tk_script k));
  sys_epoll_ctl := ctl;
  sys_epoll_wait := wait;
  wait_interrupts := toy_wait_interrupts
|}.

Lemma watched_100 k : watched k 100 = tk_watch k.
Proof. done. Qed.

Lemma unused_fd_new k : 0 <= unused_fd k /\ unused_fd k ∉ tk_open k.
Proof.
  unfold unused_fd. split; [lia|]. intros Hin.
  eapply (is_fresh (set_map Z.to_nat (tk_open k) : gset nat)).
  apply elem_of_map. eexists. split; [|exact Hin]. by rewrite Nat2Z.id.
Qed.

#[export] Instance toy_lawful : LawfulEpoll kernel.
Proof.
  refine {| interest := watched; opened := tk_open |}; cbn; try done.
  - intros fd k v k' [= <- <-]. destruct (unused_fd_new k). by split_and!.
  - by intros k v k' [= <- <-].
  - intros epfd op fd evt k. unfold ctl. destruct (negb _); [done|].
    destruct (tk_watch k !! fd), evt; [done| | |done]; by destruct (_ =? _); cbn; try destruct (_ && _).
  - intros epfd fd evt k v k'. unfold ctl. destruct (Z.eqb_spec epfd 100) as [->|]; [|done]. cbn [negb].
    rewrite !watched_100. destruct (tk_watch k !! fd) eqn:E; [done|].
    destruct (_ && bool_decide (fd ∈ tk_open k)) eqn:Eb; [|done]. intros [= _ <-].
    apply andb_true_iff in Eb as [[[_ E1]%andb_true_iff E2]%andb_true_iff E3%bool_decide_eq_true].
    split_and!; [lia|lia|done|done|done].
  - intros epfd fd evt k k'. unfold ctl. destruct (Z.eqb_spec epfd 100) as [->|]; [|done]. cbn [negb].
    rewrite watched_100. destruct (tk_watch k !! fd) eqn:E; [by eexists|]. by destruct (_ && _).
  - intros epfd fd k v k'. unfold ctl. destruct (Z.eqb_spec epfd 100) as [->|]; [|done]. cbn [negb].
    rewrite !watched_100. by destruct (tk_watch k !! fd); [|done]; intros [= _ <-].
  - intros epfd fd k e k'. unfold ctl, watched. destruct (Z.eqb_spec epfd 100) as [->|]; [|done]. cbn [negb].
    by destruct (tk_watch k !! fd).
  - intros epfd fd k v k'. unfold ctl. destruct (Z.eqb_spec epfd 100) as [->|]; [|done]. cbn [negb].
    by destruct (tk_watch k !! fd).
  - intros epfd op fd evt k e k'. unfold ctl. destruct (Z.eqb_spec epfd 100) as [->|]; [|by intros [= <- <-]].
    cbn [negb]. destruct (tk_watch k !! fd), evt; [| | |].
    + intros [= <- <-]. split; [|done]. by case_bool.
    + case_bool; [done|]. by intros [= <- <-].
    + destruct (_ && bool_decide _); [done|]. by intros [= <- <-].
    + intros [= <- <-]. split; [|done]. by case_bool.
  - intros epfd n t k e. unfold wait. destruct (_ || _); [done|]. by destruct (tk_script k) as [|[] ?].
  - intros epfd n t k. unfold wait. destruct (_ || _); [done|]. by destruct (tk_script k) as [|[] ?].
  - intros epfd n t k e k'. unfold wait. destruct (_ || _); [by intros [= <- _]|].
    destruct (tk_script k) as [|[] ?]; [done..|]. by intros [= <- _].
  - intros epfd n t k evs k'. unfold wait. destruct (_ || _) eqn:Eb; [done|].
    apply orb_false_iff in Eb as [Hn He]. apply negb_false_iff, Z.eqb_eq in He as ->.
    destruct (tk_script k) as [|[ready|e] script]; intros [= <- _]; [split; [cbn; lia|done]|].
    split; [rewrite length_take; lia|]. apply Forall_take, Forall_forall. intros e He.
    unfold report in He. apply list_elem_of_omap in He as ([fd ev] & _ & He). cbn in He.
    destruct (tk_watch k !! fd) as [e0|] eqn:E; [|done]. destruct (Z.eqb_spec ev 0); [done|].
    injection He as <-. split; [done|]. by exists fd, e0.
Defined.
End Toy.

Section Witnesses.
#[local] Existing Instance ample_alloc.
#[local] Existing Instances Toy.toy_fd Toy.toy_epoll Toy.toy_lawful.

(** Two objects on descriptor 5, the second through a duplicate.  The callback of
    the first removes and frees it, and runs the loop again. *)
Definition wit_kernel : Toy.kernel := Toy.Kernel {[5]} ∅ [inr 4%positive; inl [(5, 1); (101, 1)]; inl [(101, 5)]; inl [(101, 5)]].
Definition wit_script (cb : Z) (p : positive) : list loop_op :=
  if decide (p = 1%positive) then [LoopRemove 1; LoopFree 1; LoopProcess] else [LoopUpdate 2].
#[local] Instance wit_code : LoopCode Toy.kernel (list (positive * Z)) := scripted_loop wit_script 2.
#[local] Instance wit_lawful : LawfulLoop wit_code plain := scripted_loop_lawful wit_script 2.

Definition wit_new : option (lstate Toy.kernel (list (positive * Z))) :=
  match obus_loop_new wit_kernel mem0 with
  | Some ((Some lp, k), _) => Some (LState k (Some lp) ∅ [])
  | _ => None
  end.
Definition wit_step (r : option (lstate Toy.kernel (list (positive * Z)))) (op : loop_op) : option (lstate Toy.kernel (list (positive * Z))) :=
  s ← r; match run_loop_op op s wit_world mem0 with Some ((_, s'), _, _) => Some s' | None => None end.

Definition wit_added : option (lstate Toy.kernel (list (positive * Z))) :=
  fold_left wit_step [LoopInit 1 5 OBUS_FD_IN 7 0; LoopAdd 1; LoopInit 2 5 OBUS_FD_IN 8 0; LoopAdd 2] wit_new.
Definition wit_processed : option (lstate Toy.kernel (list (positive * Z))) := wit_step wit_added LoopProcess.

Lemma wit_step_reachable r op s :
  (forall s, r = Some s -> loop_reachable s) -> wit_step r op = Some s -> loop_reachable s.
Proof.
  intros H. destruct r as [s0|]; [|done]. cbn.
  destruct (run_loop_op op s0 wit_world mem0) as [[[[[] s1] w1] m1]|] eqn:E; [|done]. intros [= <-].
  eapply reach_op; [by apply H|exact E].
Qed.

Lemma wit_processed_reachable s : wit_processed = Some s -> loop_reachable s.
Proof.
  unfold wit_processed, wit_added. cbn [fold_left]. do 5 (apply wit_step_reachable; intros ?).
  unfold wit_new. destruct (obus_loop_new wit_kernel mem0) as [[[[lp|] k] m]|] eqn:E; [|done..].
  intros [= <-]. by eapply reach_new.
Qed.

Lemma loop_reachable_invariant_witness :
  exists s lp, wit_processed = Some s /\ ls_loop s = Some lp /\ lp_ofds lp = [2%positive] /\
    exists ev, interest (ls_kern s) (lp_epfd lp) !! 101 = Some (EpollEvent ev 2).
Proof.
  destruct wit_processed as [s|] eqn:E; [|vm_compute in E; discriminate E].
  destruct (loop_reachable_invariant s (wit_processed_reachable s E)) as (_ & lp & El & _ & _ & _ & Hi).
  assert (option_map (fun lp => bool_decide (lp_ofds lp = [2%positive])) (ls_loop s) = Some true /\
    option_map watched_fd (ls_fds s !! 2%positive) = Some 101) as [H1 H2].
  { vm_compute in E. injection E as <-. split; vm_compute; reflexivity. }
  rewrite El in H1. injection H1 as H1. apply bool_decide_eq_true in H1.
  exists s, lp. split; [reflexivity|]. split; [exact El|]. split; [exact H1|].
  apply Hi. split; [rewrite H1; by left|]. destruct (ls_fds s !! 2%positive) as [o|]; [|discriminate H2].
  exists o. split; [reflexivity|]. by injection H2.
Defined.

Lemma loop_update_fails_witness :
  exists s o, wit_processed = Some s /\ ls_fds s !! 2%positive = Some o /\ fd_loop o = true /\
    wps (obus_loop_update 2) (fun ret s' _ _ => ret < 0) s wit_world mem0.
Proof.
  destruct wit_processed as [s|] eqn:E; [|vm_compute in E; discriminate E].
  assert (option_map fd_loop (ls_fds s !! 2%positive) = Some true) as H2.
  { vm_compute in E. injection E as <-. vm_compute. reflexivity. }
  destruct (ls_fds s !! 2%positive) as [o|] eqn:Eo; [|discriminate H2]. injection H2 as H2.
  exists s, o. split; [reflexivity|]. split; [exact Eo|]. split; [exact H2|].
  eapply wps_mono; [exact (loop_update_fails s 2 o wit_world mem0 (wit_processed_reachable s E) Eo)|].
  intros ret s' w' m' (_ & _ & _ & H). by rewrite H2 in H.
Defined.

(** A code that records the calls. *)
Definition recorder : LoopCode Toy.kernel (list (positive * Z)) :=
  fun _ p events _ => sv_modify (fun s => set_user s (ls_user s ++ [(p, events)])).

#[local] Instance recorder_steady : @SteadyLoop _ _ recorder.
Proof. intros cb p ev d s w m a s' w' m' [= _ <- _ _] _. split; [done|]. intros lp El. by exists lp. Qed.

Lemma process_serves_reported_witness :
  exists s lp k', wit_processed = Some s /\ ls_loop s = Some lp /\
    wait_eintr (S (k_interrupts (ls_kern s))) (lp_epfd lp) (lp_nfds lp) 0 (ls_kern s)
      = (Some (inl [EpollEvent 5 2]), k') /\
    obus_loop_do_process (LC := recorder) 0 s wit_world mem0
    = (serve_all (LC := recorder) [EpollEvent 5 2];; _ ← obus_loop_unref; mret 0)
        (set_loop (set_kern s k') (Some (set_ref (set_events lp
           (map Some [EpollEvent 5 2] ++ drop 1 (lp_events lp)) (lp_nallocevents lp)) (lp_ref lp + 1))))
        wit_world mem0 /\
    option_map (fun r => ls_user (snd (fst (fst r)))) (obus_loop_do_process (LC := recorder) 0 s wit_world mem0)
    = Some [(2%positive, 3)].
Proof.
  destruct wit_processed as [s|] eqn:E; [|vm_compute in E; discriminate E].
  pose proof (wit_processed_reachable s E) as Hr.
  assert (exists lp k', ls_loop s = Some lp /\ lp_nfds lp <= lp_nallocevents lp /\
    wait_eintr (S (k_interrupts (ls_kern s))) (lp_epfd lp) (lp_nfds lp) 0 (ls_kern s)
      = (Some (inl [EpollEvent 5 2]), k') /\
    option_map (fun r => ls_user (snd (fst (fst r)))) (obus_loop_do_process (LC := recorder) 0 s wit_world mem0)
    = Some [(2%positive, 3)]) as (lp & k' & El & Hn & Ew & Hu).
  { vm_compute in E. injection E as <-. do 2 eexists. split; [reflexivity|].
    split; [vm_compute; discriminate|]. split; vm_compute; reflexivity. }
  exists s, lp, k'. split; [reflexivity|]. split; [exact El|]. split; [exact Ew|]. split; [|exact Hu].
  apply (process_serves_reported s lp 0 wit_world mem0 [EpollEvent 5 2] k'
    (reachable_inv s Hr) El Hn Ew). discriminate.
Defined.
End Witnesses.
