(* ===== verification/Timer.v ===== *)
(** * obus_timer.c: timers over timerfd, on the event loop

    A timer is a block whose first member is its descriptor object, so both have
    the same address.  Its descriptor is watched by the loop with the callback
    [obus_timer_events], which reads the count of expirations and calls the
    callback of the timer; that code may create, set and destroy timers. *)
From stdpp Require Import infinite.
From S2P Require Import Prelude Mem World Handler Utils Loop.

Definition MSEC_PER_SEC : Z := 1000.
Definition NSEC_PER_MSEC : Z := 1000000.

Record timespec := Timespec { tv_sec : Z; tv_nsec : Z }.
Record itimerspec := Itimerspec { it_interval : timespec; it_value : timespec }.

(** A read of a timerfd gives the 8 bytes of a count, here the number. *)
Class TimerKernel (K : Type) := {
  tk_epoll :: EpollKernel K;
  sys_timerfd_create : KM K sysret;
  sys_timerfd_settime : Z -> itimerspec -> KM K sysret;
  sys_timerfd_read : Z -> KM K sysret;
  timer_interrupts : forall fd k k',
    sys_timerfd_read fd k = (SysErr EINTR, k') -> (k_interrupts k' < k_interrupts k)%nat
}.

Record obus_timer := Timer {
  tm_timeout : Z;
  tm_cb : Z;
  tm_data : Z
}.

(** The timers by address, and the rest of the application's data. *)
Record tstate (V : Type) := TState {
  ts_timers : gmap positive obus_timer;
  ts_user : V
}.
Arguments TState {V}.
Arguments ts_timers {V}.
Arguments ts_user {V}.

Notation TM K V := (LM K (tstate V)).

(** The callbacks of timers: [timer_callback cb timer nbexpired data]. *)
Class TimerCode (K V : Type) := timer_callback : Z -> positive -> Z -> Z -> TM K V unit.

(** The address of [obus_timer_events]. *)
Definition TIMER_EVENTS : Z := 1.
Definition TIMER_SIZE : Z := 88.

Section Ops.
Context {K V : Type} {TK : TimerKernel K} {AL : Allocator}.

Definition timers_of (s : lstate K (tstate V)) : gmap positive obus_timer := ts_timers (ls_user s).
Definition set_timers (s : lstate K (tstate V)) tms : lstate K (tstate V) :=
  set_user s (TState tms (ts_user (ls_user s))).

Definition get_timer (p : positive) : TM K V obus_timer :=
  tms ← sv_gets timers_of; on_mem (m_lift (tms !! p)).
Definition put_timer (p : positive) (t : obus_timer) : TM K V unit :=
  sv_modify (fun s => set_timers s (<[p := t]> (timers_of s))).

(** [free]: the block with its descriptor object. *)
Definition free_timer (p : positive) : TM K V unit :=
  sv_modify (fun s => set_fds (set_timers s (delete p (timers_of s))) (delete p (ls_fds s))).

(** An address that is not in use. *)
Definition new_address (s : lstate K (tstate V)) : positive :=
  base.fresh (dom (ls_fds s) ∪ dom (timers_of s)).

(** [read] retried on [EINTR]. *)
Fixpoint timer_read_eintr (fuel : nat) (fd : Z) : KM K (option sysret) :=
  match fuel with
  | O => mret None
  | S fuel' =>
    r ← sys_timerfd_read fd;
    match r with
    | SysErr e => if e =? EINTR then timer_read_eintr fuel' fd else mret (Some r)
    | SysOk _ => mret (Some r)
    end
  end.

(** The code, and the count when it is 0. *)
Definition obus_timer_read (p : positive) : TM K V (Z * Z) :=
  ofd ← get_fd p;
  r ← kern (fun k => timer_read_eintr (S (k_interrupts k)) (fd_fd ofd) k);
  match r with
  | None => sv_undef
  | Some (SysErr e) => mret (- e, 0)
  | Some (SysOk u) => mret (0, u)
  end.

Definition obus_timer_events {TC : TimerCode K V} (p : positive) (events data : Z) : TM K V unit :=
  let timer := Z.to_pos data in
  (if obus_fd_event_error events then _ ← get_timer timer; _ ← obus_loop_remove timer; mret tt
   else mret tt);;
  if negb (obus_fd_event_read events) then mret tt else
  '(ret, nbexpired) ← obus_timer_read timer;
  if failed ret then mret tt else
  t ← get_timer timer;
  if tm_cb t =? 0 then sv_undef else
  timer_callback (tm_cb t) timer nbexpired (tm_data t).

Definition obus_timer_new (cb data : Z) : TM K V (option positive) :=
  if cb =? 0 then mret None else
  a ← on_mem (m_alloc TIMER_SIZE);
  match a with
  | None => mret None
  | Some _ =>
    p ← sv_gets new_address;
    put_timer p (Timer 0 cb data);;
    obus_loop_ref;;
    tfd ← kern sys_timerfd_create;
    match tfd with
    | SysErr _ => _ ← obus_loop_unref; free_timer p;; mret None
    | SysOk tfd =>
      put_fd p (obus_fd_init tfd OBUS_FD_IN TIMER_EVENTS (Z.pos p));;
      ret ← obus_loop_add p;
      if failed ret then
        _ ← kern (sys_close tfd); _ ← obus_loop_unref; free_timer p;; mret None
      else mret (Some p)
    end
  end.

Definition obus_timer_destroy (p : positive) : TM K V Z :=
  _ ← obus_loop_remove p;
  ofd ← get_fd p;
  _ ← kern (sys_close (fd_fd ofd));
  _ ← obus_loop_unref;
  free_timer p;;
  mret 0.

(** The one-shot value given to the kernel; the division of [long]s. *)
Definition timer_value (timeout : Z) : itimerspec :=
  Itimerspec (Timespec 0 0)
    (if 0 <? timeout
     then Timespec (Z.quot timeout MSEC_PER_SEC) (Z.rem timeout MSEC_PER_SEC * NSEC_PER_MSEC)
     else Timespec 0 0).

Definition obus_timer_set (p : positive) (timeout : Z) : TM K V Z :=
  ofd ← get_fd p;
  ret ← kern (sys_timerfd_settime (fd_fd ofd) (timer_value timeout));
  match ret with
  | SysErr e => mret (- e)
  | SysOk _ =>
    t ← get_timer p;
    put_timer p (Timer timeout (tm_cb t) (tm_data t));;
    mret 0
  end.

Definition obus_timer_clear (p : positive) : TM K V Z := obus_timer_set p 0.
End Ops.

(** The callbacks of the loop: [obus_timer_events], and those of other objects. *)
Definition timer_loop {K V : Type} {TK : TimerKernel K} {AL : Allocator} (TC : TimerCode K V)
    (others : LoopCode K (tstate V)) : LoopCode K (tstate V) :=
  fun cb p events data =>
    if cb =? TIMER_EVENTS then obus_timer_events p events data else others cb p events data.
