(* ===== verification/TimerFacts.v ===== *)
(** * Timers: no timer is used after it is gone, and each keeps the loop alive

    The invariant of a loop with timers: each timer has its descriptor object,
    whose descriptor is open, its own, and watched for no other object; each
    holds a reference of the loop.  The callbacks of timers are arbitrary code
    that keeps the invariant. *)
From stdpp Require Import infinite.
From S2P Require Import Prelude Mem World Handler Utils Loop LoopFacts LoopRun Timer.

Class LawfulTimer (K : Type) {TK : TimerKernel K} {LE : LawfulEpoll K} := {
  tcreate_frame : forall k e, interest (snd (sys_timerfd_create k)) e = interest k e;
  tcreate_error : forall k e k', sys_timerfd_create k = (SysErr e, k') -> 0 < e /\ opened k' = opened k;
  tcreate_fresh : forall k v k', sys_timerfd_create k = (SysOk v, k') ->
    0 <= v /\ v ∉ opened k /\ opened k' = {[v]} ∪ opened k;
  tset_kept : forall fd v k e, kept e k (snd (sys_timerfd_settime fd v k));
  tset_errno : forall fd v k e k', sys_timerfd_settime fd v k = (SysErr e, k') -> 0 < e;
  tread_kept : forall fd k e, kept e k (snd (sys_timerfd_read fd k));
  tread_errno : forall fd k e k', sys_timerfd_read fd k = (SysErr e, k') -> 0 < e
}.

Section Inv.
Context {K V : Type} {TK : TimerKernel K} {LE : LawfulEpoll K} {LT : LawfulTimer K} {AL : Allocator}.
#[local] Notation ST := (lstate K (tstate V)).
Implicit Types (s : ST) (w : world) (m : mem) (p q : positive) (o : obus_fd) (t : obus_timer).

(** The descriptor object of timer [p]. *)
Record timer_fd (ints : gmap Z epoll_event) (opn : gset Z) p o : Prop := {
  tf_cb : fd_cb o = TIMER_EVENTS;
  tf_data : fd_data o = Z.pos p;
  tf_nodup : fd_dupfd o = -1;
  tf_open : fd_fd o ∈ opn;
  tf_own : forall e, ints !! fd_fd o = Some e -> ep_ptr e = p
}.

Record timers_ok (lp : obus_loop) s : Prop := {
  tk_fd : forall p t, timers_of s !! p = Some t -> tm_cb t <> 0 /\ exists o, ls_fds s !! p = Some o /\
    timer_fd (interest (ls_kern s) (lp_epfd lp)) (opened (ls_kern s)) p o;
  tk_distinct : forall p q o o', is_Some (timers_of s !! p) -> is_Some (timers_of s !! q) ->
    ls_fds s !! p = Some o -> ls_fds s !! q = Some o' -> fd_fd o = fd_fd o' -> p = q;
  tk_timer : forall p o, ls_fds s !! p = Some o -> fd_cb o = TIMER_EVENTS -> is_Some (timers_of s !! p)
}.

Definition n_timers s : Z := Z.of_nat (size (timers_of s)).

(** [n] references that are not the application's, and one for each timer. *)
Definition timer_inv (n : Z) s : Prop :=
  loop_inv (n + n_timers s) s /\ forall lp, ls_loop s = Some lp -> timers_ok lp s.

(** A change that concerns no timer. *)
Lemma timers_ok_frame lp lp' s s' :
  timers_ok lp s -> timers_of s' = timers_of s -> lp_epfd lp' = lp_epfd lp ->
  (forall q o, is_Some (timers_of s !! q) -> ls_fds s !! q = Some o ->
     timer_fd (interest (ls_kern s) (lp_epfd lp)) (opened (ls_kern s)) q o ->
     exists o', ls_fds s' !! q = Some o' /\ fd_cb o' = fd_cb o /\ fd_data o' = fd_data o /\ fd_fd o' = fd_fd o /\
       fd_dupfd o' = -1 /\ fd_fd o ∈ opened (ls_kern s') /\
       forall e, interest (ls_kern s') (lp_epfd lp) !! fd_fd o = Some e -> ep_ptr e = q) ->
  (forall q o', ls_fds s' !! q = Some o' -> fd_cb o' = TIMER_EVENTS -> is_Some (timers_of s !! q)) ->
  timers_ok lp' s'.
Proof.
  intros [H1 H2 H3] Et Ee Hf Hr. constructor; rewrite ?Et, ?Ee.
  - intros q t Ht. destruct (H1 q t Ht) as (Hc & o & Ho & HF). split; [done|].
    destruct (Hf q o (mk_is_Some _ _ Ht) Ho HF) as (o' & Ho' & E1 & E2 & E3 & E4 & E5 & E6).
    exists o'. split; [done|]. destruct HF as [F1 F2 F3 F4 F5]. by constructor; rewrite ?E1, ?E2, ?E3, ?E4.
  - intros p q o1 o2 [t1 T1] [t2 T2] Ho1 Ho2 He.
    destruct (H1 p t1 T1) as (_ & o & Ho & HF), (H1 q t2 T2) as (_ & o' & Ho' & HF').
    destruct (Hf p o (mk_is_Some _ _ T1) Ho HF) as (o3 & Ho3 & _ & _ & E3 & _).
    destruct (Hf q o' (mk_is_Some _ _ T2) Ho' HF') as (o4 & Ho4 & _ & _ & E4 & _).
    simplify_eq. apply (H2 p q o o'); [by eexists|by eexists|done|done|congruence].
  - exact Hr.
Qed.

Lemma timer_inv_loop n s : timer_inv n s -> loop_inv n s.
Proof.
  intros [(lp & El & W) _]. exists lp. split; [done|]. destruct W. constructor; try done. unfold n_timers in *. lia.
Qed.

Lemma timer_inv_step n n' s k lp lp' :
  timer_inv n s -> ls_loop s = Some lp -> loop_inv n' (set_loop (set_kern s k) (Some lp')) ->
  lp_epfd lp' = lp_epfd lp -> kept (lp_epfd lp) (ls_kern s) k ->
  lp_ref lp' - n' = lp_ref lp - n -> timer_inv n' (set_loop (set_kern s k) (Some lp')).
Proof.
  intros [(lp0 & El0 & W) Hok] El (lp1 & El1 & W1) Ee [K1 K2] Hr.
  rewrite El in El0. injection El0 as <-. cbn in El1. injection El1 as <-. split.
  - exists lp'. split; [done|]. pose proof (lw_ref _ _ _ _ _ W) as HR. destruct W1. constructor; try done.
    unfold n_timers in *. change (timers_of (set_loop (set_kern s k) (Some lp'))) with (timers_of s). lia.
  - intros lp2 [= <-]. apply (timers_ok_frame lp lp' s); [by apply Hok|done|done| |].
    + intros q o _ Ho [F1 F2 F3 F4 F5]. exists o. cbn. rewrite K1, K2. by split_and!.
    + intros q o'. cbn. by apply (tk_timer lp s (Hok lp El)).
Qed.

Lemma n_timers_same s s' : timers_of s' = timers_of s -> n_timers s' = n_timers s.
Proof. unfold n_timers. by intros ->. Qed.

Lemma timers_same s s' : ls_user s' = ls_user s -> timers_of s' = timers_of s.
Proof. unfold timers_of. by intros ->. Qed.

(** A watched descriptor belongs to a timer for its own object only. *)
Lemma timer_watch n s p o q t :
  timer_inv n s -> ls_fds s !! p = Some o -> fd_loop o = true -> timers_of s !! q = Some t ->
  forall o', ls_fds s !! q = Some o' -> fd_fd o' = watched_fd o -> p = q.
Proof.
  intros [(lp & El & W) Hok] Ho Hl Ht o' Ho' Hw. pose proof (Hok lp El) as [H1 _ _].
  destruct (H1 q t Ht) as (_ & o2 & Ho2 & [_ _ _ _ F5]). rewrite Ho' in Ho2. injection Ho2 as <-.
  destruct (lw_listed _ _ _ _ _ W p (lw_used _ _ _ _ _ W p o Ho Hl)) as (o3 & e & Ho3 & _ & _ & He & Hp).
  rewrite Ho in Ho3. injection Ho3 as <-. rewrite <- Hw in He. apply F5 in He. congruence.
Qed.

Lemma untouched_timer_inv n s s' : untouched s s' -> timer_inv n s -> timer_inv n s'.
Proof.
  intros U [I Hok]. pose proof U as [E1 E2 E3 E4]. pose proof (timers_same _ _ E3) as Et.
  split; [rewrite (n_timers_same _ _ Et); by eapply untouched_inv|]. intros lp. rewrite E1. intros El.
  destruct (E4 lp El) as [K1 K2]. apply (timers_ok_frame lp lp s); [by apply Hok|done|done|..]; rewrite E2.
  - intros q o _ Ho [F1 F2 F3 F4 F5]. exists o. rewrite K1, K2. by split_and!.
  - intros q o'. by apply (tk_timer lp s (Hok lp El)).
Qed.

Lemma remove_timer_inv n p o s s' :
  ls_fds s !! p = Some o -> fd_loop o = true -> unregistered p o s s' -> timer_inv n s -> timer_inv n s'.
Proof.
  intros Ho Hl UR HI. pose proof HI as [I Hok]. pose proof UR as [F Eu (lp & El & Hp & El' & Hi) Hop].
  pose proof (timers_same _ _ Eu) as Et.
  split; [rewrite (n_timers_same _ _ Et); by eapply unregistered_inv|]. intros lp1. rewrite El'. intros [= <-].
  apply (timers_ok_frame lp _ s); [by apply Hok|done|done|..].
  - intros q o2 [t Ht] Ho2 [F1 F2 F3 F4 F5]. assert (fd_fd o2 ∈ opened (ls_kern s')) as Hopen.
    { rewrite Hop. destruct (Z.eqb_spec (fd_dupfd o) (-1)) as [Hd|Hd]; [done|].
      apply elem_of_difference. split; [done|]. intros Hin%elem_of_singleton.
      assert (p = q) as ->.
      { eapply (timer_watch n s p o q t); [done..|]. unfold watched_fd. by destruct (Z.eqb_spec (fd_dupfd o) (-1)). }
      rewrite Ho in Ho2. injection Ho2 as <-. done. }
    assert (forall e, interest (ls_kern s') (lp_epfd lp) !! fd_fd o2 = Some e -> ep_ptr e = q) as Hown.
    { intros e. rewrite Hi, lookup_delete_Some. intros [_ He]. by apply F5. }
    rewrite F. destruct (decide (p = q)) as [<-|Hne].
    + rewrite Ho in Ho2. injection Ho2 as <-. eexists. split; [apply lookup_insert_eq|]. by split_and!.
    + exists o2. rewrite lookup_insert_ne by done. by split_and!.
  - intros q o'. rewrite F, lookup_insert. case_decide as Hpq; [subst|by apply (tk_timer lp s (Hok lp El))].
    intros [= <-] Hc. by apply (tk_timer lp s (Hok lp El) q o).
Qed.

Lemma add_timer_inv n p o d s s' :
  ls_fds s !! p = Some o -> fd_loop o = false -> fd_cb o <> 0 ->
  (forall q o', is_Some (timers_of s !! q) -> ls_fds s !! q = Some o' -> fd_fd o' = fd_fd o -> q = p) ->
  (is_Some (timers_of s !! p) -> d = -1) ->
  registered p o d s s' -> timer_inv n s -> timer_inv n s'.
Proof.
  intros Ho Hl Hc Hown Hd RG HI. pose proof HI as [I Hok]. pose proof RG as [F Eu (lp & El & Hp & El' & HW)].
  pose proof (timers_same _ _ Eu) as Et. pose proof (watches_sub _ _ _ _ _ _ HW) as Hsub.
  split; [rewrite (n_timers_same _ _ Et); by eapply registered_inv|]. intros lp1. rewrite El'. intros [= <-].
  destruct HW as [Hr Hop Hn Hi Hdup]. apply (timers_ok_frame lp _ s); [by apply Hok|done|done|..].
  - intros q o2 Hq Ho2 [F1 F2 F3 F4 F5].
    assert (forall e, interest (ls_kern s') (lp_epfd lp) !! fd_fd o2 = Some e -> ep_ptr e = q) as Hw.
    { intros e. rewrite Hi, lookup_insert. case_decide as Hfd; [|by apply F5]. intros [= <-]. cbn.
      symmetry. apply (Hown q o2); [done|done|]. rewrite <- Hfd. unfold watched_fd. cbn.
      destruct Hdup as [[-> _]|(Hd0 & Hdn & _)]; [done|]. unfold watched_fd in Hfd. cbn in Hfd.
      destruct (Z.eqb_spec d (-1)); [lia|]. congruence. }
    rewrite F. destruct (decide (p = q)) as [<-|Hne].
    + rewrite Ho in Ho2. injection Ho2 as <-. eexists. split; [apply lookup_insert_eq|].
      split_and!; try done; [by apply Hd|by apply Hsub].
    + exists o2. rewrite lookup_insert_ne by done. split_and!; try done. by apply Hsub.
  - intros q o'. rewrite F, lookup_insert. case_decide as Hpq; [subst|by apply (tk_timer lp s (Hok lp El))].
    intros [= <-] Hcb. by apply (tk_timer lp s (Hok lp El) q o).
Qed.

(** ** Operations *)

Definition same_timers s s' : Prop := ls_fds s' = ls_fds s /\ ls_user s' = ls_user s.

(** Back to the objects and timers of [s], another count of references, the
    kernel elsewhere. *)
Lemma timer_inv_restored n s s' lp r :
  timer_inv n s -> ls_loop s = Some lp -> ls_loop s' = Some (set_ref lp r) -> lp_ref lp <= r ->
  ls_fds s' = ls_fds s -> timers_of s' = timers_of s -> kept (lp_epfd lp) (ls_kern s) (ls_kern s') ->
  timer_inv n s'.
Proof.
  intros [(lp0 & El0 & W) Hok] El El' Hr Ef Et [K1 K2]. rewrite El in El0. injection El0 as <-. split.
  - exists (set_ref lp r). split; [done|]. cbn [lp_epfd set_ref]. rewrite (n_timers_same _ _ Et), K1, K2, Ef.
    apply (lp_wf_ref (n + n_timers s)); [done|]. pose proof (lw_ref _ _ _ _ _ W). lia.
  - intros lp2. rewrite El'. intros [= <-]. apply (timers_ok_frame lp _ s); [by apply Hok|done|done|..]; rewrite Ef.
    + intros q o _ Ho [F1 F2 F3 F4 F5]. exists o. rewrite K1, K2. by split_and!.
    + by apply (tk_timer lp s (Hok lp El)).
Qed.

Lemma new_address_fresh s : ls_fds s !! new_address s = None /\ timers_of s !! new_address s = None.
Proof.
  pose proof (is_fresh (dom (ls_fds s) ∪ dom (timers_of s))) as H. fold (new_address s) in H.
  apply not_elem_of_union in H as [H1 H2]. by rewrite <- !not_elem_of_dom.
Qed.

(** The creation of the timer, before its descriptor is given to the loop. *)
Lemma timer_inv_created n s p cb data tfd s' lp r :
  timer_inv n s -> ls_loop s = Some lp -> ls_fds s !! p = None -> timers_of s !! p = None -> cb <> 0 ->
  opens (lp_epfd lp) tfd (ls_kern s) (ls_kern s') ->
  ls_loop s' = Some (set_ref lp r) -> lp_ref lp + 1 <= r ->
  ls_fds s' = <[p := obus_fd_init tfd OBUS_FD_IN TIMER_EVENTS (Z.pos p)]> (ls_fds s) ->
  timers_of s' = <[p := Timer 0 cb data]> (timers_of s) -> timer_inv n s'.
Proof.
  intros [(lp0 & El0 & W) Hok] El Hp Ht Hcb HO El' Hr Ef Et. rewrite El in El0. injection El0 as <-.
  assert (watch_open (lp_epfd lp) (ls_kern s)) as HWO by exact (lw_open _ _ _ _ _ W).
  pose proof (opens_unwatched _ _ _ _ HO HWO) as Hn. destruct HO as (HO1 & HO2 & HO3 & HO4).
  assert (n_timers s' = n_timers s + 1) as En.
  { unfold n_timers. rewrite Et, map_size_insert_None by done. lia. }
  pose proof (lw_ref _ _ _ _ _ W) as HR. pose proof (Hok lp El) as [T1 T2 T3]. split.
  - exists (set_ref lp r). split; [done|]. cbn [lp_epfd set_ref]. rewrite HO3, HO4, Ef, En.
    destruct W as [W1 W2 W3 W4 W5 WO W6 W7 W8 W9]. constructor; cbn; try done; [..|lia].
    + intros q Hq. destruct (W3 q Hq) as (o & e & H). exists o, e. rewrite lookup_insert_ne; [done|].
      intros <-. destruct H as [H _]. congruence.
    + intros q o. rewrite lookup_insert. case_decide; [by intros [= <-]|]. by apply W4.
    + intros fd e He. destruct (W5 fd e He) as (H1 & H2 & o & H3 & H4). split_and!; [apply H1|apply H1|done|].
      exists o. rewrite lookup_insert_ne; [done|]. intros Heq. rewrite <- Heq in H3. congruence.
    + intros fd Hfd. apply elem_of_union. right. by apply WO.
    + intros q o. rewrite lookup_insert. case_decide; [by intros [= <-]|]. by apply W6.
  - intros lp2. rewrite El'. intros [= <-]. constructor; rewrite ?Et, ?Ef; cbn [lp_epfd set_ref]; rewrite ?HO3, ?HO4.
    + intros q t. rewrite lookup_insert. case_decide as Hq.
      * subst q. intros [= <-]. split; [done|]. eexists. rewrite lookup_insert_eq. split; [done|].
        constructor; cbn; [done|done|done|set_solver|]. rewrite Hn. done.
      * intros Hqt. destruct (T1 q t Hqt) as (Hc & o & Ho & [F1 F2 F3 F4 F5]). split; [done|]. exists o.
        rewrite lookup_insert_ne by done. split; [done|]. constructor; try done. set_solver.
    + assert (forall q o, is_Some (timers_of s !! q) -> ls_fds s !! q = Some o -> fd_fd o <> tfd) as Hne.
      { intros q o [t Hqt] Ho. destruct (T1 q t Hqt) as (_ & o' & Ho' & [_ _ _ F4 _]). intros <-. congruence. }
      intros q1 q2 o1 o2. rewrite !lookup_insert. repeat case_decide; subst; try done.
      * intros _ H2 [= <-] Ho2 Heq. cbn in Heq. by destruct (Hne q2 o2 H2 Ho2).
      * intros H1 _ Ho1 [= <-] Heq. cbn in Heq. by destruct (Hne q1 o1 H1 Ho1).
      * by apply T2.
    + intros q o. rewrite !lookup_insert. case_decide; [by eexists|]. by apply T3.
Qed.

Lemma loop_inv_moved n s s' lp r fds :
  loop_inv n s -> ls_loop s = Some lp -> ls_loop s' = Some (set_ref lp r) -> n <= r ->
  ls_fds s = fds -> ls_fds s' = fds -> interest (ls_kern s') (lp_epfd lp) = interest (ls_kern s) (lp_epfd lp) ->
  opened (ls_kern s) ⊆ opened (ls_kern s') -> loop_inv n s'.
Proof.
  intros (lp0 & El0 & W) El El' Hr <- Ef Hi Hs. rewrite El in El0. injection El0 as <-.
  exists (set_ref lp r). split; [done|]. cbn [lp_epfd set_ref]. rewrite Hi, Ef.
  destruct W as [W1 W2 W3 W4 W5 WO W6 W7 W8 W9]. constructor; try done. intros fd Hfd. by apply Hs, WO.
Qed.

Lemma array_same s s' lp r : ls_loop s = Some lp -> ls_loop s' = Some (set_ref lp r) -> array_kept s s'.
Proof. intros El El' i (lp1 & e & El1 & He). rewrite El in El1. injection El1 as <-. eexists _, e. by rewrite El'. Qed.

Lemma timers_set s tms : timers_of (set_timers s tms) = tms.
Proof. done. Qed.

Lemma set_ref_id lp : set_ref lp (lp_ref lp) = lp.
Proof. by destruct lp. Qed.

(** The end of a creation that fails: the reference is dropped, the block freed. *)
Lemma wps_new_undo n s s1 p lp w m :
  1 <= n -> timer_inv n s -> ls_loop s = Some lp -> ls_fds s !! p = None -> timers_of s !! p = None ->
  ls_loop s1 = Some (set_ref lp (lp_ref lp + 1)) -> kept (lp_epfd lp) (ls_kern s) (ls_kern s1) ->
  delete p (ls_fds s1) = ls_fds s -> delete p (timers_of s1) = timers_of s ->
  loop_inv (n + n_timers s + 1) s1 ->
  wps (_ ← obus_loop_unref; free_timer p;; mret None)
      (fun r s' _ _ => timer_inv n s' /\ array_kept s s' /\ @eq (option positive) r None /\
         ls_fds s' = ls_fds s /\ timers_of s' = timers_of s /\ ts_user (ls_user s') = ts_user (ls_user s1) /\
         ls_kern s' = ls_kern s1) s1 w m.
Proof.
  intros Hn HI El Hp Ht El1 HK Hf Htm I1. unfold n_timers in *. apply wps_bind.
  eapply wps_loop_unref; [exact I1|lia|]. intros lp1 E1 s2 _ _. rewrite El1 in E1. injection E1 as <-.
  apply wps_bind, wps_modify, wps_ret.
  assert (ls_loop (set_fds (set_timers s2 (delete p (timers_of s2))) (delete p (ls_fds s2)))
    = Some (set_ref lp (lp_ref lp + 1 - 1))) as El2 by done.
  split_and!; [|by eapply array_same|done..].
  eapply (timer_inv_restored n s _ lp); [done|done|exact El2|lia|..]; [exact Hf|exact Htm|exact HK].
Qed.

(** What a creation does besides: nothing when it fails; a new object on a new
    descriptor, which is then given to the loop. *)
Definition new_frame cb data s (r : option positive) s' : Prop :=
  ts_user (ls_user s') = ts_user (ls_user s) /\ opened (ls_kern s) ⊆ opened (ls_kern s') /\
  match r with
  | None => ls_fds s' = ls_fds s /\ timers_of s' = timers_of s
  | Some p =>
    ls_fds s !! p = None /\ timers_of s !! p = None /\
    timers_of s' = <[p := Timer 0 cb data]> (timers_of s) /\
    exists o, ls_fds s' = <[p := o]> (ls_fds s) /\ fd_cb o = TIMER_EVENTS /\ fd_dupfd o = -1 /\
      fd_fd o ∉ opened (ls_kern s) /\
      exists k0 s3 w3 m3 ret w4 m4, sys_timerfd_create k0 = (SysOk (fd_fd o), ls_kern s3) /\
        obus_loop_add p s3 w3 m3 = Some ((ret, s'), w4, m4)
  end.

Lemma new_frame_none cb data s s' :
  ls_fds s' = ls_fds s -> timers_of s' = timers_of s -> ts_user (ls_user s') = ts_user (ls_user s) ->
  opened (ls_kern s') = opened (ls_kern s) -> new_frame cb data s None s'.
Proof. intros H1 H2 H3 H4. unfold new_frame. by rewrite H3, H4. Qed.

(** The state of a creation when its object is about to be given to the loop. *)
Record creating cb data s lp p tfd s3 : Prop := {
  cr_loop : ls_loop s = Some lp;
  cr_fds : ls_fds s !! p = None;
  cr_timers : timers_of s !! p = None;
  cr_opens : opens (lp_epfd lp) tfd (ls_kern s) (ls_kern s3);
  cr_loop3 : ls_loop s3 = Some (set_ref lp (lp_ref lp + 1));
  cr_fds3 : ls_fds s3 = <[p := obus_fd_init tfd OBUS_FD_IN TIMER_EVENTS (Z.pos p)]> (ls_fds s);
  cr_timers3 : timers_of s3 = <[p := Timer 0 cb data]> (timers_of s);
  cr_user : ts_user (ls_user s3) = ts_user (ls_user s)
}.

(** The loop refuses the object: all is given back. *)
Lemma wps_new_unadded n cb data s lp p tfd s3 s4 w m :
  1 <= n -> timer_inv n s -> timer_inv n s3 -> creating cb data s lp p tfd s3 -> untouched s3 s4 ->
  wps (_ ← kern (sys_close tfd); _ ← obus_loop_unref; free_timer p;; mret None)
      (fun r s' _ _ => timer_inv n s' /\ array_kept s s' /\ new_frame cb data s r s') s4 w m.
Proof.
  intros Hn HI HI3 [El Hp Ht HO E3 F3 T3 U3] HU. pose proof HI as [(lp0 & El0 & W) _].
  rewrite El in El0. injection El0 as <-. pose proof HU as [U1 U2 U3' U4].
  assert (watch_open (lp_epfd lp) (ls_kern s)) as HWO by exact (lw_open _ _ _ _ _ W).
  assert (kept (lp_epfd lp) (ls_kern s3) (ls_kern s4)) as HK by (by apply (U4 (set_ref lp (lp_ref lp + 1)))).
  pose proof (opens_close _ _ _ _ (opens_kept _ _ _ _ _ HO HK) HWO) as HC.
  apply wps_bind, wps_kern.
  eapply wps_mono; [apply (wps_new_undo n s _ p lp); try done|].
  - cbn. by rewrite U1.
  - cbn. rewrite U2, F3. by apply delete_insert_id.
  - rewrite (timers_same s4 (set_kern s4 _)), (timers_same s3 s4), T3 by done. by apply delete_insert_id.
  - destruct (untouched_timer_inv _ _ _ HU HI3) as [I4 _].
    assert (n_timers s4 = n_timers s + 1) as En.
    { unfold n_timers. rewrite (timers_same s3 s4), T3 by done. rewrite map_size_insert_None by done. lia. }
    rewrite En in I4. destruct I4 as (lp4 & El4 & W4). rewrite U1, E3 in El4. injection El4 as <-.
    exists (set_ref lp (lp_ref lp + 1)). split; [cbn; by rewrite U1|]. cbn [ls_kern ls_fds set_kern lp_epfd set_ref].
    destruct HC as [HC1 HC2]. destruct HK as [HK1 HK2]. destruct HO as (_ & _ & Hi & _). cbn in W4.
    rewrite HC1, HC2. rewrite HK1, Hi in W4. rewrite Z.add_assoc in W4.
    destruct W4 as [X1 X2 X3 X4 X5 XO X6 X7 X8 X9]. by constructor.
  - intros r s' w' m2 (H1 & H2 & -> & G1 & G2 & G3 & G4). split_and!; [done..|]. apply new_frame_none; [done|done| |].
    + rewrite G3. cbn. by rewrite U3', U3.
    + rewrite G4. apply HC.
Qed.

(** The loop takes the object, on its own descriptor. *)
Lemma new_added n cb data s lp p tfd d k0 w3 m3 w4 m4 s3 s4 :
  timer_inv n s -> timer_inv n s3 -> creating cb data s lp p tfd s3 -> cb <> 0 ->
  registered p (obus_fd_init tfd OBUS_FD_IN TIMER_EVENTS (Z.pos p)) d s3 s4 ->
  sys_timerfd_create k0 = (SysOk tfd, ls_kern s3) ->
  obus_loop_add p s3 w3 m3 = Some ((0, s4), w4, m4) ->
  timer_inv n s4 /\ array_kept s s4 /\ new_frame cb data s (Some p) s4.
Proof.
  intros HI HI3 [El Hp Ht HO E3 F3 T3 U3] Hcb RG Ec Erun. pose proof HI as [(lp0 & El0 & W) _].
  rewrite El in El0. injection El0 as <-.
  assert (watch_open (lp_epfd lp) (ls_kern s)) as HWO by exact (lw_open _ _ _ _ _ W).
  pose proof (opens_unwatched _ _ _ _ HO HWO) as Hun. destruct HO as (Hv & Hnew & Hi & Hop).
  pose proof RG as [F4 U4 (lp4 & El4 & Hp4 & El4' & HW)]. rewrite E3 in El4. injection El4 as <-.
  assert (d = -1) as Hd.
  { destruct HW as [_ _ _ _ [[-> _]|(_ & _ & _ & Hex)]]; [done|]. exfalso. cbn in Hex. rewrite Hi in Hex.
    rewrite Hun in Hex. by destruct Hex. }
  assert (ls_fds s3 !! p = Some (obus_fd_init tfd OBUS_FD_IN TIMER_EVENTS (Z.pos p))) as Ho3
    by (rewrite F3; by rewrite lookup_insert_eq).
  split_and!.
  - eapply add_timer_inv; [done|done|done| |by intros _|exact RG|exact HI3].
    intros q o' Hq Ho' Heq. destruct HI3 as [_ Hok3]. destruct (Hok3 _ E3) as [_ T2 _].
    eapply (T2 q p o'); [exact Hq| |exact Ho'|exact Ho3|exact Heq]. rewrite T3, lookup_insert_eq. by eexists.
  - intros i (lp5 & e & El5 & He). rewrite El in El5. injection El5 as <-. eexists _, e. split; [exact El4'|done].
  - assert (ls_fds s4 = <[p := with_fd_loop (with_dupfd (obus_fd_init tfd OBUS_FD_IN TIMER_EVENTS (Z.pos p)) d) true]> (ls_fds s)) as Ef.
    { rewrite F4, F3. by rewrite insert_insert_eq. }
    unfold new_frame. split_and!; [by rewrite U4| |done|done|by rewrite (timers_same s3 s4)|].
    + etransitivity; [|by eapply watches_sub]. set_solver.
    + eexists. split; [exact Ef|]. cbn. rewrite Hd. split_and!; [done|done|done|].
      by exists k0, s3, w3, m3, 0, w4, m4.
Qed.

Lemma wps_timer_new n cb data s w m :
  1 <= n -> timer_inv n s ->
  wps (obus_timer_new cb data)
      (fun r s' _ _ => timer_inv n s' /\ array_kept s s' /\ new_frame cb data s r s') s w m.
Proof.
  intros Hn HI. pose proof HI as [(lp & El & W) Hok]. unfold obus_timer_new.
  destruct (Z.eqb_spec cb 0) as [|Hcb]; [apply wps_ret; split_and!; [done..|by apply new_frame_none]|].
  apply wps_bind, wps_mem, wp_alloc.
  2:{ intros k m' _ _. apply wps_ret. split_and!; [done..|by apply new_frame_none]. }
  intros _ m' _ _. apply wps_bind, wps_gets. set (p := new_address s).
  destruct (new_address_fresh s) as [Hp Ht]. fold p in Hp, Ht.
  apply wps_bind, wps_modify. set (s1 := set_timers s (<[p := Timer 0 cb data]> (timers_of s))).
  assert (loop_inv (n + n_timers s) s1) as I1 by (by exists lp).
  apply wps_bind. eapply wps_loop_ref; [exact I1|]. intros lp1 E1 s2 I2 _.
  change (ls_loop s = Some lp1) in E1. rewrite El in E1. injection E1 as <-.
  apply wps_bind, wps_kern. change (ls_kern s2) with (ls_kern s).
  pose proof (tcreate_frame (ls_kern s) (lp_epfd lp)) as Hi.
  destruct (sys_timerfd_create (ls_kern s)) as [[tfd|e] k1] eqn:Ec; cbn [fst snd] in *.
  2:{ apply tcreate_error in Ec as [_ Ho]. eapply wps_mono;
        [apply (wps_new_undo n s _ p lp); [done|done|done|done|done|done|by split|..]|].
      - by apply delete_id.
      - cbn. by apply delete_insert_id.
      - apply (loop_inv_moved _ s2 _ (set_ref lp (lp_ref lp + 1)) (lp_ref lp + 1) (ls_fds s)); try done.
        + pose proof (lw_ref _ _ _ _ _ W). lia.
        + cbn. by rewrite Ho.
      - intros r s' w' m2 (H1 & H2 & -> & F1 & F2 & F3 & F4). split_and!; [done..|].
        apply new_frame_none; [done|done|done|]. by rewrite F4. }
  pose proof (tcreate_fresh _ _ _ Ec) as (Hv & Hnew & Hop).
  apply wps_bind, wps_modify. set (o := obus_fd_init tfd OBUS_FD_IN TIMER_EVENTS (Z.pos p)).
  set (s3 := set_fds (set_kern s2 k1) (<[p := o]> (ls_fds s))).
  assert (creating cb data s lp p tfd s3) as CR by done.
  assert (timer_inv n s3) as HI3 by (by apply (timer_inv_created n s p cb data tfd s3 lp (lp_ref lp + 1))).
  apply wps_bind. eapply wps_mono; [apply wps_run, (wps_loop_add (n + n_timers s3) p o); [apply HI3|cbn; by rewrite lookup_insert_eq]|].
  rename m' into m0. intros ret s4 w4 m4 [(_ & _ & HA) Erun]. unfold add_post in HA.
  replace ((fd_fd o <? 0) || (fd_events o =? 0) || (fd_cb o =? 0)) with false in HA.
  2:{ cbn. rewrite orb_false_r. symmetry. apply orb_false_iff. split; [|done]. by apply Z.ltb_ge. }
  change (fd_loop o) with false in HA. destruct HA as [[Hr HU]|[-> [d RG]]].
  - apply failed_spec in Hr as Hf. rewrite Hf. by eapply wps_new_unadded.
  - cbn [failed Z.ltb Z.compare]. apply wps_ret. by eapply new_added.
Qed.

(** ** Setting, removal of the descriptor, destruction *)

Lemma wps_get_timer p t (Q : obus_timer -> ST -> world -> mem -> Prop) s w m :
  timers_of s !! p = Some t -> Q t s w m -> wps (get_timer p) Q s w m.
Proof. intros E H. unfold get_timer. apply wps_bind, wps_gets, wps_mem. by eapply wp_lift. Qed.

Lemma insert_live (tms : gmap positive obus_timer) p q t :
  is_Some (<[p := t]> tms !! q) -> is_Some (tms !! p) -> is_Some (tms !! q).
Proof. rewrite lookup_insert. by case_decide; subst. Qed.

(** A timer that changes what it holds, not its place. *)
Lemma timer_inv_put n s s' p t t' lp :
  timer_inv n s -> ls_loop s = Some lp -> ls_loop s' = Some lp -> ls_fds s' = ls_fds s ->
  kept (lp_epfd lp) (ls_kern s) (ls_kern s') ->
  timers_of s !! p = Some t -> tm_cb t' <> 0 -> timers_of s' = <[p := t']> (timers_of s) -> timer_inv n s'.
Proof.
  intros [(lp0 & El0 & W) Hok] El El' Ef [K1 K2] Ht Hc Et. rewrite El in El0. injection El0 as <-.
  pose proof (Hok lp El) as [T1 T2 T3]. split.
  - exists lp. split; [done|]. rewrite K1, K2, Ef. unfold n_timers in *.
    rewrite Et, map_size_insert_Some by by eexists. done.
  - intros lp1. rewrite El'. intros [= <-]. constructor; rewrite ?Et, ?Ef, ?K1, ?K2.
    + intros q t1. rewrite lookup_insert. case_decide; [subst; intros [= <-]|by apply T1].
      destruct (T1 q t Ht) as [_ H]. by split.
    + intros q1 q2 o1 o2 H1 H2. apply (insert_live _ p q1 t') in H1; [|by eexists].
      apply (insert_live _ p q2 t') in H2; [|by eexists]. by apply T2.
    + intros q o Ho Hcb. rewrite lookup_insert. case_decide; [by eexists|]. by eapply T3.
Qed.

(** What a setting does besides. *)
Record set_frame p timeout s (ret : Z) s' : Prop := {
  sf_loop : ls_loop s' = ls_loop s;
  sf_fds : ls_fds s' = ls_fds s;
  sf_user : ts_user (ls_user s') = ts_user (ls_user s);
  sf_kept : forall e, kept e (ls_kern s) (ls_kern s');
  sf_kern : forall o, ls_fds s !! p = Some o ->
    ls_kern s' = snd (sys_timerfd_settime (fd_fd o) (timer_value timeout) (ls_kern s)) /\
    (ret < 0 <-> exists e, fst (sys_timerfd_settime (fd_fd o) (timer_value timeout) (ls_kern s)) = SysErr e)
}.

Lemma wps_timer_set n p t timeout s w m :
  timer_inv n s -> timers_of s !! p = Some t ->
  wps (obus_timer_set p timeout)
      (fun ret s' w' m' => timer_inv n s' /\ array_kept s s' /\ w' = w /\ m' = m /\ set_frame p timeout s ret s' /\
         (ret < 0 /\ timers_of s' = timers_of s \/
          ret = 0 /\ timers_of s' = <[p := Timer timeout (tm_cb t) (tm_data t)]> (timers_of s))) s w m.
Proof.
  intros HI Ht. pose proof HI as [(lp & El & W) Hok]. pose proof (Hok lp El) as [T1 _ _].
  destruct (T1 p t Ht) as (Hc & o & Ho & HF). unfold obus_timer_set.
  apply wps_bind. eapply wps_get_fd; [done|]. apply wps_bind, wps_kern.
  pose proof (tset_kept (fd_fd o) (timer_value timeout) (ls_kern s) (lp_epfd lp)) as HK.
  destruct (sys_timerfd_settime (fd_fd o) (timer_value timeout) (ls_kern s)) as [[v|e] k1] eqn:E; cbn [fst snd] in *.
  2:{ apply tset_errno in E as He. apply wps_ret. split_and!; [| |done|done| |left; split; [lia|done]].
      3:{ split; [done|done|done|intros e2; pose proof (tset_kept (fd_fd o) (timer_value timeout) (ls_kern s) e2) as H; by rewrite E in H|]. intros o2 Ho2. rewrite Ho in Ho2. injection Ho2 as <-. rewrite E. split; [done|]. split; [by exists e|cbn; lia]. }
      - apply (timer_inv_restored n s _ lp (lp_ref lp)); rewrite ?set_ref_id; done.
      - apply (array_same s _ lp (lp_ref lp)); rewrite ?set_ref_id; done. }
  apply wps_bind. eapply wps_get_timer; [done|]. apply wps_bind, wps_modify, wps_ret.
  split_and!; [| |done|done| |by right].
  3:{ split; [done|done|done|intros e2; pose proof (tset_kept (fd_fd o) (timer_value timeout) (ls_kern s) e2) as H; by rewrite E in H|]. intros o2 Ho2. rewrite Ho in Ho2. injection Ho2 as <-. rewrite E. split; [done|]. split; [lia|]. by intros [e He]. }
  - by eapply (timer_inv_put n s _ p t (Timer timeout (tm_cb t) (tm_data t)) lp).
  - apply (array_same s _ lp (lp_ref lp)); rewrite ?set_ref_id; done.
Qed.

Lemma wps_timer_remove n p t s w m :
  timer_inv n s -> timers_of s !! p = Some t ->
  wps (obus_loop_remove p)
      (fun _ s' _ _ => timer_inv n s' /\ array_kept s s' /\ ls_user s' = ls_user s /\
         opened (ls_kern s') = opened (ls_kern s) /\
         (forall o, ls_fds s !! p = Some o -> ls_fds s' = <[p := with_fd_loop o false]> (ls_fds s)) /\
         forall lp, ls_loop s' = Some lp -> p ∉ lp_ofds lp) s w m.
Proof.
  intros HI Ht. pose proof HI as [(lp & El & W) Hok]. pose proof (Hok lp El) as [T1 _ _].
  destruct (T1 p t Ht) as (Hc & o & Ho & HF).
  eapply wps_mono; [by eapply wps_loop_remove; [apply HI|]|]. intros ret s' w' m' (_ & _ & HR).
  unfold remove_post in HR. destruct (fd_loop o) eqn:Hl.
  - destruct HR as [_ UR]. split_and!; [by eapply remove_timer_inv|by eapply unregistered_array|apply UR|..].
    + rewrite (ur_opened _ _ _ _ UR). by rewrite (tf_nodup _ _ _ _ HF).
    + intros o' Ho'. rewrite (ur_fds _ _ _ _ UR). rewrite Ho in Ho'. injection Ho' as <-.
      rewrite with_dupfd_idle; [done|by apply (tf_nodup _ _ _ _ HF)].
    + destruct (ur_loop _ _ _ _ UR) as (lp1 & El1 & _ & El' & _). intros lp2. rewrite El'. intros [= <-]. cbn.
      rewrite list_elem_of_filter. by intros [? _].
  - destruct HR as [_ ->]. split_and!; [done..| |].
    + intros o' Ho'. rewrite Ho in Ho'. injection Ho' as <-. rewrite insert_id; [done|]. rewrite Ho. destruct o. cbn in Hl. by subst.
    + intros lp1 El1 Hp. rewrite El in El1. injection El1 as <-.
      destruct (lw_listed _ _ _ _ _ W p Hp) as (o' & e & Ho' & Hl' & _). congruence.
Qed.

(** The end of a destruction: the timer, out of the loop, gives back its descriptor,
    its reference and its block. *)
Lemma timer_inv_destroyed n s s' p t o lp r :
  timer_inv n s -> timers_of s !! p = Some t -> ls_fds s !! p = Some o -> ls_loop s = Some lp ->
  p ∉ lp_ofds lp -> ls_loop s' = Some (set_ref lp r) -> lp_ref lp - 1 <= r ->
  ls_fds s' = delete p (ls_fds s) -> timers_of s' = delete p (timers_of s) ->
  interest (ls_kern s') (lp_epfd lp) = interest (ls_kern s) (lp_epfd lp) ->
  opened (ls_kern s') = opened (ls_kern s) ∖ {[fd_fd o]} -> timer_inv n s'.
Proof.
  intros [(lp0 & El0 & W) Hok] Ht Ho El Hp El' Hr Ef Et Hi Hop. rewrite El in El0. injection El0 as <-.
  pose proof (Hok lp El) as [T1 T2 T3].
  assert (n_timers s = n_timers s' + 1) as En.
  { unfold n_timers. rewrite Et, map_size_delete_Some by by eexists.
    assert (size (timers_of s) <> 0%nat); [|lia]. intros H0%map_size_empty_inv. rewrite H0 in Ht. done. }
  assert (forall q o', is_Some (timers_of s !! q) -> q <> p -> ls_fds s !! q = Some o' -> fd_fd o' <> fd_fd o) as Hne.
  { intros q o' Hq Hqp Ho' Heq. apply Hqp. apply (T2 q p o' o); [done|by eexists|done..]. }
  destruct (T1 p t Ht) as (_ & o1 & Ho1 & HF). rewrite Ho in Ho1. injection Ho1 as <-.
  assert (interest (ls_kern s) (lp_epfd lp) !! fd_fd o = None) as Hnone.
  { destruct (interest (ls_kern s) (lp_epfd lp) !! fd_fd o) as [e|] eqn:E; [|done]. exfalso.
    apply (tf_own _ _ _ _ HF) in E as Hpe. destruct (lw_ints _ _ _ _ _ W _ _ E) as (_ & Hin & _). congruence. }
  split.
  - exists (set_ref lp r). split; [done|]. cbn [lp_epfd set_ref]. rewrite Hi, Hop, Ef.
    pose proof (lw_ref _ _ _ _ _ W). destruct W as [W1 W2 W3 W4 W5 WO W6 W7 W8 W9]. constructor; cbn; try done; [..|lia].
    + intros q Hq. destruct (W3 q Hq) as (o' & e & H'). exists o', e. by rewrite lookup_delete_ne by congruence.
    + intros q o'. rewrite lookup_delete_Some. intros [_ H']. by apply W4.
    + intros fd e He. destruct (W5 fd e He) as (H1 & H2 & o' & H3 & H4). split_and!; [apply H1|apply H1|done|].
      exists o'. rewrite lookup_delete_ne by congruence. done.
    + intros fd Hfd. apply elem_of_difference. split; [by apply WO|]. intros ->%elem_of_singleton.
      rewrite Hnone in Hfd. by destruct Hfd.
    + intros q o'. rewrite lookup_delete_Some. intros [_ H']. by apply (W6 q o').
  - intros lp1. rewrite El'. intros [= <-]. constructor; rewrite ?Et, ?Ef; cbn [lp_epfd set_ref]; rewrite ?Hi, ?Hop.
    + intros q t'. rewrite lookup_delete_Some. intros [Hq Ht']. destruct (T1 q t' Ht') as (Hc & o' & Ho' & [F1 F2 F3 F4 F5]).
      split; [done|]. exists o'. rewrite lookup_delete_ne by done. split; [done|]. constructor; try done.
      apply elem_of_difference. split; [done|]. intros ?%elem_of_singleton.
      by apply (Hne q o' (mk_is_Some _ _ Ht')).
    + intros q1 q2 o1 o2 [t1 [_ H1]%lookup_delete_Some] [t2 [_ H2]%lookup_delete_Some] [_ Ho1]%lookup_delete_Some
        [_ Ho2]%lookup_delete_Some.
      by apply (T2 q1 q2 o1 o2); [eexists|eexists|..].
    + intros q o' [Hq Ho']%lookup_delete_Some Hcb. rewrite lookup_delete_ne by done. by apply (T3 q o').
Qed.

Lemma wps_timer_destroy n p t s w m :
  1 <= n -> timer_inv n s -> timers_of s !! p = Some t ->
  wps (obus_timer_destroy p)
      (fun ret s' _ _ => ret = 0 /\ timer_inv n s' /\ array_kept s s' /\
         timers_of s' = delete p (timers_of s) /\ ls_fds s' = delete p (ls_fds s) /\
         ts_user (ls_user s') = ts_user (ls_user s) /\
         forall o, ls_fds s !! p = Some o -> opened (ls_kern s') = opened (ls_kern s) ∖ {[fd_fd o]}) s w m.
Proof.
  intros Hn HI Ht. unfold obus_timer_destroy. apply wps_bind.
  eapply wps_mono; [by eapply wps_timer_remove|]. intros _ s1 w1 m1 (HI1 & K1 & Eu & Eo & Ef & Hp1).
  pose proof HI as [(lp0 & El0 & _) Hok0]. destruct (tk_fd _ _ (Hok0 lp0 El0) p t Ht) as (_ & o0 & Ho0 & _).
  specialize (Ef o0 Ho0). clear lp0 El0 Hok0. pose proof (timers_same _ _ Eu) as Et.
  rewrite <- Et in Ht |- *. pose proof HI1 as [(lp & El & W) Hok]. pose proof (Hok lp El) as [T1 _ _].
  destruct (T1 p t Ht) as (Hc & o & Ho & HF). specialize (Hp1 lp El).
  assert (interest (ls_kern s1) (lp_epfd lp) !! fd_fd o = None) as Hnone.
  { destruct (interest (ls_kern s1) (lp_epfd lp) !! fd_fd o) as [e|] eqn:E; [|done]. exfalso.
    apply (tf_own _ _ _ _ HF) in E as Hpe. destruct (lw_ints _ _ _ _ _ W _ _ E) as (_ & Hin & _). congruence. }
  apply wps_bind. eapply wps_get_fd; [done|]. apply wps_bind, wps_kern.
  pose proof (close_frame (fd_fd o) (ls_kern s1) (lp_epfd lp) Hnone) as Hi.
  pose proof (close_opened (fd_fd o) (ls_kern s1)) as Hop. set (k2 := snd (sys_close (fd_fd o) (ls_kern s1))) in *.
  assert (1 <= n_timers s1) as Hpos.
  { unfold n_timers. assert (size (timers_of s1) <> 0%nat); [|lia]. intros H0%map_size_empty_inv. rewrite H0 in Ht. done. }
  unfold obus_loop_unref. apply wps_bind, wps_bind. eapply wps_get_loop; [exact El|]. cbv zeta.
  apply wps_bind, wps_modify. cbn [lp_ref set_ref]. pose proof (lw_ref _ _ _ _ _ W).
  destruct (Z.eqb_spec (lp_ref lp - 1) 0); [lia|]. apply wps_ret, wps_bind, wps_modify, wps_ret.
  split_and!; [done| | |done| | |].
  - eapply (timer_inv_destroyed n s1 _ p t o lp (lp_ref lp - 1)); try done; lia.
  - etransitivity; [exact K1|]. by eapply (array_same s1 _ lp (lp_ref lp - 1)).
  - cbn. by rewrite Ef, delete_insert_eq.
  - cbn. by rewrite Eu.
  - intros o1 Ho1. rewrite Ho0 in Ho1. injection Ho1 as <-. transitivity (opened k2); [done|]. rewrite Hop, Eo. rewrite Ef, lookup_insert_eq in Ho. by injection Ho as <-.
Qed.
End Inv.
