(* ===== verification/TimerRun.v ===== *)
(** * Timers: events, sequences of operations, scripted applications

    The events of timers keep the invariant of TimerFacts whatever the callbacks
    do; so do all the operations of an application that leaves the objects of its
    timers alone. *)
From S2P Require Import Prelude Mem World Bus Handler Utils Loop LoopFacts LoopRun Timer TimerFacts.

Section Events.
Context {K V : Type} {TK : TimerKernel K} {LE : LawfulEpoll K} {LT : LawfulTimer K} {AL : Allocator}.
#[local] Notation ST := (lstate K (tstate V)).
Implicit Types (s : ST) (w : world) (m : mem) (p q : positive) (o : obus_fd) (t : obus_timer).

Lemma timer_read_spec fuel fd k e :
  (k_interrupts k < fuel)%nat ->
  exists r k', timer_read_eintr fuel fd k = (Some r, k') /\ kept e k k' /\
    forall er, r = SysErr er -> 0 < er.
Proof.
  revert k. induction fuel as [|fuel IH]; intros k Hf; [lia|]. cbn [timer_read_eintr]. unfold mbind, KM_bind.
  pose proof (tread_kept fd k e) as HK.
  destruct (sys_timerfd_read fd k) as [[v|er] k1] eqn:E; cbn [snd] in HK.
  - exists (SysOk v), k1. by split_and!.
  - destruct (Z.eqb_spec er EINTR) as [->|Hne].
    + apply timer_interrupts in E. destruct (IH k1) as (r & k2 & H1 & H2 & H3); [lia|].
      exists r, k2. split_and!; [done|by etransitivity|done].
    + exists (SysErr er), k1. split_and!; [done|done|]. intros e2 [= <-]. by eapply tread_errno.
Qed.

(** The application: the callbacks of timers, and those of its own objects. *)
Class LawfulTimers (TC : TimerCode K V) (others : LoopCode K (tstate V)) : Prop := {
  lawful_timer : forall n s w m p t nb, 1 <= n -> timer_inv n s -> timers_of s !! p = Some t ->
    wps (timer_callback (tm_cb t) p nb (tm_data t))
        (fun _ s' _ _ => timer_inv n s' /\ array_kept s s') s w m;
  lawful_other : forall n s w m p o events, 1 <= n -> timer_inv n s -> ls_fds s !! p = Some o ->
    fd_loop o = true -> fd_cb o <> TIMER_EVENTS ->
    wps (fd_callback (LoopCode := others) (fd_cb o) p events (fd_data o))
        (fun _ s' _ _ => timer_inv n s' /\ array_kept s s') s w m
}.

Context {TC : TimerCode K V} {others : LoopCode K (tstate V)} {LTS : LawfulTimers TC others}.

Lemma wps_timer_events n p t events s w m :
  1 <= n -> timer_inv n s -> timers_of s !! p = Some t ->
  wps (obus_timer_events p events (Z.pos p)) (fun _ s' _ _ => timer_inv n s' /\ array_kept s s') s w m.
Proof.
  intros Hn HI Ht. unfold obus_timer_events. cbv zeta. cbn [Z.to_pos].
  apply wps_bind. eapply (wps_mono _ (fun _ s' _ _ => timer_inv n s' /\ array_kept s s' /\ timers_of s' = timers_of s)).
  { destruct (obus_fd_event_error events); [|by apply wps_ret].
    apply wps_bind. eapply wps_get_timer; [done|]. apply wps_bind.
    eapply wps_mono; [by eapply wps_timer_remove|]. intros r s1 w1 m1 (H1 & H2 & H3 & _). apply wps_ret. split_and!; [done..|]. by apply timers_same. }
  intros [] s1 w1 m1 (HI1 & K1 & Et). rewrite <- Et in Ht.
  destruct (negb _); [by apply wps_ret|].
  pose proof HI1 as [(lp & El & W) Hok]. destruct (tk_fd _ _ (Hok lp El) p t Ht) as (Hc & o & Ho & HF).
  unfold obus_timer_read. apply wps_bind, wps_bind. eapply wps_get_fd; [done|]. apply wps_bind, wps_kern.
  destruct (timer_read_spec (S (k_interrupts (ls_kern s1))) (fd_fd o) (ls_kern s1) (lp_epfd lp))
    as (r & k2 & Er & HK & Hpos); [lia|]. rewrite Er. cbn [fst snd].
  assert (timer_inv n (set_kern s1 k2) /\ array_kept s (set_kern s1 k2)) as [HI2 K2].
  { split.
    - apply (timer_inv_restored n s1 _ lp (lp_ref lp)); rewrite ?set_ref_id; done.
    - etransitivity; [exact K1|]. apply (array_same s1 _ lp (lp_ref lp)); rewrite ?set_ref_id; done. }
  destruct r as [u|er]; apply wps_ret.
  2:{ specialize (Hpos er eq_refl). rewrite (proj2 (failed_spec (- er))) by lia. by apply wps_ret. }
  change (failed 0) with false. cbv beta iota.
  apply wps_bind. eapply wps_get_timer; [done|]. destruct (Z.eqb_spec (tm_cb t) 0); [done|].
  eapply wps_mono; [by apply (lawful_timer n)|]. intros [] s3 w3 m3 [H1 H2]. split; [done|by etransitivity].
Qed.

#[export] Instance timer_loop_lawful : LawfulLoop (timer_loop TC others) timer_inv.
Proof.
  split.
  - intros n s. apply timer_inv_loop.
  - intros n n' s k lp lp' H1 H2 H3 H4 H5 _ H6. by eapply timer_inv_step.
  - intros n s w m p o events Hn HI Ho Hl. unfold fd_callback at 1, timer_loop.
    destruct (Z.eqb_spec (fd_cb o) TIMER_EVENTS) as [Hcb|Hcb]; [|by apply (lawful_other n)].
    pose proof HI as [(lp & El & W) Hok]. destruct (tk_timer _ _ (Hok lp El) p o Ho Hcb) as [t Ht].
    destruct (tk_fd _ _ (Hok lp El) p t Ht) as (_ & o' & Ho' & HF). rewrite Ho in Ho'. injection Ho' as <-.
    rewrite (tf_data _ _ _ _ HF). by eapply wps_timer_events.
Qed.
End Events.

(** ** Operations *)

Inductive timer_op :=
| TimerNew (cb data : Z)
| TimerSet (p : positive) (timeout : Z)
| TimerClear (p : positive)
| TimerDestroy (p : positive)
| OwnOp (op : loop_op).

Section Ops.
Context {K V : Type} {TK : TimerKernel K} {AL : Allocator}.
#[local] Notation ST := (lstate K (tstate V)).

(** The descriptor of a timer. *)
Definition timer_owns (s : ST) (fd : Z) : bool :=
  existsb (fun q => match ls_fds s !! q with Some o => fd_fd o =? fd | None => false end)
    (map fst (map_to_list (timers_of s))).

Definition is_timer (s : ST) (p : positive) : bool := bool_decide (is_Some (timers_of s !! p)).

(** The application leaves alone the objects of its timers, their callback and
    their descriptors. *)
Definition own_op_ok (s : ST) (op : loop_op) : bool :=
  match op with
  | LoopInit p _ _ cb _ => negb (is_timer s p) && negb (cb =? TIMER_EVENTS)
  | LoopReset p | LoopFree p | LoopUpdate p | LoopRemove p => negb (is_timer s p)
  | LoopAdd p =>
    negb (is_timer s p) &&
    match ls_fds s !! p with Some o => negb (timer_owns s (fd_fd o)) | None => true end
  | LoopProcess | LoopWait | LoopHold => true
  end.

Definition when_timer (p : positive) (c : TM K V unit) : TM K V unit :=
  s ← sv_gets id; if is_timer s p : bool then c else mret tt.

Definition run_timer_op {LC : LoopCode K (tstate V)} (op : timer_op) : TM K V unit :=
  match op with
  | TimerNew cb data => _ ← obus_timer_new cb data; mret tt
  | TimerSet p t => when_timer p (_ ← obus_timer_set p t; mret tt)
  | TimerClear p => when_timer p (_ ← obus_timer_clear p; mret tt)
  | TimerDestroy p => when_timer p (_ ← obus_timer_destroy p; mret tt)
  | OwnOp op => s ← sv_gets id; if own_op_ok s op : bool then run_loop_op op else mret tt
  end.

Fixpoint run_timer_ops {LC : LoopCode K (tstate V)} (l : list timer_op) : TM K V unit :=
  match l with
  | [] => mret tt
  | op :: l' => run_timer_op op;; run_timer_ops l'
  end.

(** Each callback runs a script; [n] callbacks inside each other. *)
Fixpoint scripted_timers (script : Z -> positive -> list timer_op) (n : nat)
  : TimerCode K V * LoopCode K (tstate V) :=
  match n with
  | O => (fun _ _ _ _ => mret tt, fun _ _ _ _ => mret tt)
  | S n' =>
    let '(TC, others) := scripted_timers script n' in
    let run cb p := run_timer_ops (LC := timer_loop TC others) (script cb p) in
    (fun cb p _ _ => run cb p, fun cb p _ _ => run cb p)
  end.
End Ops.

Section Safe.
Context {K V : Type} {TK : TimerKernel K} {LE : LawfulEpoll K} {LT : LawfulTimer K} {AL : Allocator}.
#[local] Notation ST := (lstate K (tstate V)).
Implicit Types (s : ST) (w : world) (m : mem) (p q : positive) (o : obus_fd) (t : obus_timer).

Lemma is_timer_false s p : is_timer s p = false -> timers_of s !! p = None.
Proof. intros H%bool_decide_eq_false. by apply eq_None_not_Some. Qed.

Lemma timer_owns_false s fd q o :
  timer_owns s fd = false -> is_Some (timers_of s !! q) -> ls_fds s !! q = Some o -> fd_fd o <> fd.
Proof.
  unfold timer_owns. intros H [t Ht] Ho Hf.
  assert (existsb (fun q => match ls_fds s !! q with Some o => fd_fd o =? fd | None => false end)
    (map fst (map_to_list (timers_of s))) = true) as E; [|congruence].
  apply existsb_exists. exists q. split; [|rewrite Ho; by apply Z.eqb_eq].
  apply in_map_iff. exists (q, t). split; [done|]. by apply list_elem_of_In, elem_of_map_to_list.
Qed.

(** An object of the application that is in no loop may change freely. *)
Lemma idle_timer_inv n s p fds :
  timer_inv n s -> timers_of s !! p = None -> (forall o, ls_fds s !! p = Some o -> fd_loop o = false) ->
  (forall q, q <> p -> fds !! q = ls_fds s !! q) ->
  (forall o, fds !! p = Some o -> fd_loop o = false /\ fd_dupfd o = -1 /\ fd_cb o <> TIMER_EVENTS) ->
  timer_inv n (set_fds s fds) /\ array_kept s (set_fds s fds).
Proof.
  intros [I Hok] Hp Hl Hq Hnew.
  destruct (idle_inv (n + n_timers s) s p fds I Hl Hq) as [I' K'].
  { intros o Ho. destruct (Hnew o Ho) as (? & ? & _). done. }
  split; [|done]. split; [done|]. intros lp El. cbn in El.
  apply (timers_ok_frame lp lp s); [by apply Hok|done|done|..]; cbn.
  - intros q o [t Ht] Ho [F1 F2 F3 F4 F5]. exists o. rewrite Hq by congruence. by split_and!.
  - intros q o' Ho' Hcb. destruct (decide (q = p)) as [->|Hne]; [by apply Hnew in Ho' as (_ & _ & ?)|].
    rewrite Hq in Ho' by done. by apply (tk_timer _ _ (Hok lp El) q o').
Qed.

Context {TC : TimerCode K V} {others : LoopCode K (tstate V)} {LTS : LawfulTimers TC others}.
#[local] Instance LC : LoopCode K (tstate V) := timer_loop TC others.

Lemma wps_own_op n op s w m :
  1 <= n -> timer_inv n s -> own_op_ok s op = true ->
  wps (run_loop_op op) (fun _ s' _ _ => timer_inv n s' /\ array_kept s s') s w m.
Proof.
  intros Hn HI Hop. pose proof HI as [I Hok].
  destruct op as [p fd ev cb d|p|p|p|p|p| | |]; cbn [run_loop_op own_op_ok] in *.
  - apply andb_true_iff in Hop as [Ht%negb_true_iff%is_timer_false Hcb%negb_true_iff%Z.eqb_neq].
    unfold when_idle. apply wps_bind, wps_gets. unfold obus_fd_is_used.
    destruct (ls_fds s !! p) as [o|] eqn:Ho; [destruct (fd_loop o) eqn:Hl; [by apply wps_ret|]|];
      apply wps_modify, (idle_timer_inv n s p); try done; try (intros q Hq; by rewrite lookup_insert_ne);
      try (intros o'; rewrite lookup_insert_eq; by intros [= <-]); intros o'; congruence.
  - apply negb_true_iff, is_timer_false in Hop.
    unfold on_live. apply wps_bind, wps_gets. destruct (ls_fds s !! p) as [o|] eqn:Ho; [|by apply wps_ret].
    apply wps_bind. eapply wps_get_fd; [done|]. unfold obus_fd_reset. destruct (fd_loop o) eqn:Hl; apply wps_modify.
    + cbn. by rewrite put_fd_same.
    + apply (idle_timer_inv n s p); [done|done|congruence|intros q Hq; by rewrite lookup_insert_ne|].
      intros o'. rewrite lookup_insert_eq. by intros [= <-].
  - apply negb_true_iff, is_timer_false in Hop.
    unfold when_idle. apply wps_bind, wps_gets. unfold obus_fd_is_used.
    destruct (ls_fds s !! p) as [o|] eqn:Ho; [destruct (fd_loop o) eqn:Hl; [by apply wps_ret|]|];
      apply wps_modify, (idle_timer_inv n s p); try done; try (intros q Hq; by rewrite lookup_delete_ne);
      try (intros o'; by rewrite lookup_delete_eq); intros o'; congruence.
  - apply andb_true_iff in Hop as [Ht%negb_true_iff%is_timer_false Hfd].
    unfold on_live. apply wps_bind, wps_gets. destruct (ls_fds s !! p) as [o|] eqn:Ho; [|by apply wps_ret].
    apply negb_true_iff in Hfd.
    apply wps_bind. eapply wps_mono; [by eapply wps_loop_add|]. intros ret s' w' m' (_ & _ & H).
    apply wps_ret. destruct (add_post_inv (n + n_timers s) p o s ret s' Ho H I) as [_ K']. split; [|done].
    unfold add_post in H. destruct (_ || (fd_cb o =? 0)) eqn:Eg; [by destruct H as [_ ->]|].
    destruct (fd_loop o) eqn:Hl; [by destruct H as [_ ->]|].
    destruct H as [[_ H]|[_ [d H]]]; [by eapply untouched_timer_inv|].
    apply orb_false_iff in Eg as [_ Hc%Z.eqb_neq].
    eapply add_timer_inv; [done|done|done| | |exact H|done].
    + intros q o' Hq Ho' Heq. by destruct (timer_owns_false _ _ _ _ Hfd Hq Ho').
    + rewrite Ht. by intros [? ?].
  - unfold on_live. apply wps_bind, wps_gets. destruct (ls_fds s !! p) as [o|] eqn:Ho; [|by apply wps_ret].
    apply wps_bind. eapply wps_mono; [by eapply wps_loop_update|]. intros ret s' w' m' (_ & _ & H & _).
    apply wps_ret. split; [by eapply untouched_timer_inv|by apply untouched_array].
  - unfold on_live. apply wps_bind, wps_gets. destruct (ls_fds s !! p) as [o|] eqn:Ho; [|by apply wps_ret].
    apply wps_bind. eapply wps_mono; [by eapply wps_loop_remove|]. intros ret s' w' m' (_ & _ & H).
    apply wps_ret. destruct (remove_post_inv (n + n_timers s) p o s ret s' Ho H I) as [_ K']. split; [|done].
    unfold remove_post in H. destruct (fd_loop o) eqn:Hl; [|by destruct H as [_ ->]].
    destruct H as [_ H]. by eapply remove_timer_inv.
  - apply wps_bind. eapply wps_mono; [by apply (wps_do_process n)|]. intros ret s' w' m' (_ & I' & K').
    by apply wps_ret.
  - apply wps_bind. eapply wps_mono; [by apply (wps_do_process n)|]. intros ret s' w' m' (_ & I' & K').
    by apply wps_ret.
  - eapply wps_loop_ref; [exact I|]. intros lp El s' _ K'. split; [|done].
    apply (timer_inv_restored n s s' lp (lp_ref lp + 1)); try done. lia.
Qed.

Lemma wps_timer_op n op s w m :
  1 <= n -> timer_inv n s ->
  wps (run_timer_op op) (fun _ s' _ _ => timer_inv n s' /\ array_kept s s') s w m.
Proof.
  intros Hn HI. destruct op as [cb d|p t|p|p|op]; cbn [run_timer_op].
  - apply wps_bind. eapply wps_mono; [by apply (wps_timer_new n)|]. intros r s' w' m' (H1 & H2 & _). by apply wps_ret.
  - unfold when_timer, is_timer. apply wps_bind, wps_gets. case_bool_decide as Hp; [|by apply wps_ret].
    destruct Hp as [t0 Ht]. apply wps_bind. eapply wps_mono; [by eapply wps_timer_set|].
    intros r s' w' m' (H1 & H2 & _). by apply wps_ret.
  - unfold when_timer, is_timer. apply wps_bind, wps_gets. case_bool_decide as Hp; [|by apply wps_ret].
    destruct Hp as [t0 Ht]. apply wps_bind. eapply wps_mono; [by eapply wps_timer_set|].
    intros r s' w' m' (H1 & H2 & _). by apply wps_ret.
  - unfold when_timer, is_timer. apply wps_bind, wps_gets. case_bool_decide as Hp; [|by apply wps_ret].
    destruct Hp as [t0 Ht]. apply wps_bind. eapply wps_mono; [by eapply wps_timer_destroy|].
    intros r s' w' m' (_ & H1 & H2 & _). by apply wps_ret.
  - apply wps_bind, wps_gets. cbn [id]. destruct (own_op_ok s op) eqn:E; [|by apply wps_ret]. by apply wps_own_op.
Qed.

Lemma wps_timer_ops n ops s w m :
  1 <= n -> timer_inv n s ->
  wps (run_timer_ops ops) (fun _ s' _ _ => timer_inv n s' /\ array_kept s s') s w m.
Proof.
  intros Hn. revert s w m. induction ops as [|op ops IH]; intros s w m I; cbn [run_timer_ops]; [by apply wps_ret|].
  apply wps_bind. eapply wps_mono; [by apply (wps_timer_op n)|]. intros [] s1 w1 m1 [I1 K1].
  eapply wps_mono; [by apply IH|]. intros [] s2 w2 m2 [I2 K2]. split; [done|by etransitivity].
Qed.

(** ** Reachable states *)

Inductive timers_reachable : ST -> Prop :=
| timers_new k m lp k' m' v :
    obus_loop_new k m = Some ((Some lp, k'), m') -> timers_reachable (LState k' (Some lp) ∅ (TState ∅ v))
| timers_op op s w m s' w' m' :
    timers_reachable s -> run_timer_op op s w m = Some ((tt, s'), w', m') -> timers_reachable s'.

Lemma timers_reachable_inv s : timers_reachable s -> timer_inv 1 s.
Proof.
  induction 1 as [k m lp k' m' v H|op s w m s' w' m' _ IH E].
  - split; [by eapply loop_new_inv|]. intros lp0 _. constructor; unfold timers_of; cbn.
    + intros p t H'. by rewrite lookup_empty in H'.
    + intros p q o o' [t H']. by rewrite lookup_empty in H'.
    + intros p o H'. by rewrite lookup_empty in H'.
  - destruct (wps_timer_op 1 op s w m ltac:(lia) IH) as ([[a s1] w1] & m1 & E1 & [I1 _]).
    rewrite E in E1. by injection E1 as <- <- <- <-.
Qed.

(** C31: whatever an application does with its timers and whatever their callbacks
    do, destroying timers included, every operation is defined; and between two
    of them the loop is alive, with a reference for each timer and one more,
    every timer has its descriptor object, whose descriptor is open, shared with
    no other timer, and watched, if at all, for this timer. *)
Theorem timers_reachable_safe s :
  timers_reachable s ->
  (forall op w m, is_Some (run_timer_op op s w m)) /\
  exists lp, ls_loop s = Some lp /\ 1 + Z.of_nat (size (timers_of s)) <= lp_ref lp /\
    (forall p t, timers_of s !! p = Some t -> exists o, ls_fds s !! p = Some o /\
       fd_data o = Z.pos p /\ fd_cb o = TIMER_EVENTS /\ fd_fd o ∈ opened (ls_kern s) /\
       forall e, interest (ls_kern s) (lp_epfd lp) !! fd_fd o = Some e -> ep_ptr e = p) /\
    forall p q o o', is_Some (timers_of s !! p) -> is_Some (timers_of s !! q) ->
      ls_fds s !! p = Some o -> ls_fds s !! q = Some o' -> fd_fd o = fd_fd o' -> p = q.
Proof.
  intros I%timers_reachable_inv. split.
  { intros op w m. destruct (wps_timer_op 1 op s w m ltac:(lia) I) as (r & m1 & E & _). rewrite E. by eexists. }
  destruct I as [(lp & El & W) Hok]. destruct (Hok lp El) as [T1 T2 T3]. exists lp. split_and!; [done| | |exact T2].
  - apply (lw_ref _ _ _ _ _ W).
  - intros p t Ht. destruct (T1 p t Ht) as (_ & o & Ho & [F1 F2 F3 F4 F5]). exists o. by split_and!.
Qed.
End Safe.

#[export] Instance scripted_timers_lawful {K V} {TK : TimerKernel K} {LE : LawfulEpoll K} {LT : LawfulTimer K}
    {AL : Allocator} script n :
  LawfulTimers (fst (scripted_timers (K := K) (V := V) script n)) (snd (scripted_timers script n)).
Proof.
  induction n as [|n IH]; cbn.
  - split; intros; by apply wps_ret.
  - destruct (scripted_timers script n) as [TC others]. split; intros; by apply (wps_timer_ops (LTS := IH)).
Qed.

(** ** What is asked of the kernel *)

(** A timer of [timeout] milliseconds is armed, once, with the whole seconds
    and the nanoseconds of the rest, below a second; a timeout that is not
    positive disarms it, and no positive one does. *)
Theorem timer_value_exact timeout :
  - 2 ^ 31 <= timeout < 2 ^ 31 ->
  let v := timer_value timeout in
  it_interval v = Timespec 0 0 /\
  0 <= tv_sec (it_value v) < 2 ^ 31 /\ 0 <= tv_nsec (it_value v) < 1000000000 /\
  tv_sec (it_value v) * 1000000000 + tv_nsec (it_value v) = Z.max 0 timeout * 1000000 /\
  (it_value v = Timespec 0 0 <-> timeout <= 0).
Proof.
  intros Ht. cbv zeta. unfold timer_value, MSEC_PER_SEC, NSEC_PER_MSEC. cbn [it_interval it_value].
  split; [done|]. destruct (Z.ltb_spec 0 timeout) as [Hp|Hp]; cbn [tv_sec tv_nsec].
  - rewrite Z.quot_div_nonneg, Z.rem_mod_nonneg by lia.
    pose proof (Z.div_mod timeout 1000 ltac:(lia)). pose proof (Z.mod_pos_bound timeout 1000 ltac:(lia)).
    assert (0 <= timeout / 1000 <= timeout) by (split; [apply Z.div_pos; lia|apply Z.div_le_upper_bound; lia]).
    split_and!; try lia. split; [|lia]. intros [= E1 E2]. lia.
  - split_and!; try lia. done.
Qed.

Lemma timer_value_exact_witness :
  - 2 ^ 31 <= 2500 < 2 ^ 31 /\ timer_value 2500 = Itimerspec (Timespec 0 0) (Timespec 2 500000000) /\
  tv_sec (it_value (timer_value 2500)) * 1000000000 + tv_nsec (it_value (timer_value 2500)) = 2500 * 1000000.
Proof.
  assert (- 2 ^ 31 <= 2500 < 2 ^ 31) as H by lia. split; [exact H|]. split; [reflexivity|].
  exact (proj1 (proj2 (proj2 (proj2 (timer_value_exact 2500 H))))).
Defined.

Section Witnesses.
#[local] Existing Instance ample_alloc.
#[local] Existing Instances Toy.toy_fd Toy.toy_epoll Toy.toy_lawful.

(** The small kernel with timers: one expiration at each read. *)
Definition toy_timer_read (fd : Z) (k : Toy.kernel) : sysret * Toy.kernel := (SysOk 1, k).

Lemma toy_timer_interrupts fd k k' :
  toy_timer_read fd k = (SysErr EINTR, k') -> (k_interrupts k' < k_interrupts k)%nat.
Proof. done. Qed.

#[local] Instance toy_timer : TimerKernel Toy.kernel := {|
  tk_epoll := Toy.toy_epoll;
  sys_timerfd_create k := Toy.toy_dup 0 k;
  sys_timerfd_settime fd v k := (SysOk 0, k);
  sys_timerfd_read := toy_timer_read;
  timer_interrupts := toy_timer_interrupts
|}.

#[local] Instance toy_timer_lawful : LawfulTimer Toy.kernel.
Proof.
  split.
  - intros k e. reflexivity.
  - intros k e k' H. discriminate H.
  - intros k v k' [= <- <-]. destruct (Toy.unused_fd_new k). by split_and!.
  - intros fd v k e. split; reflexivity.
  - intros fd v k e k' H. discriminate H.
  - intros fd k e. split; reflexivity.
  - intros fd k e k' H. discriminate H.
Qed.

(** When the timer at address 1 fires, it is destroyed and two others are made; the
    second one is destroyed when it fires in its turn. *)
Definition wit_timer_script (cb : Z) (p : positive) : list timer_op :=
  if decide (cb = 9) then [TimerDestroy p; TimerNew 10 0; TimerSet 1 250; TimerNew 11 0] else [TimerDestroy p].
Definition wit_timers := scripted_timers (K := Toy.kernel) (V := unit) wit_timer_script 2.
#[local] Instance wit_timer_code : LoopCode Toy.kernel (tstate unit) := timer_loop (fst wit_timers) (snd wit_timers).
#[local] Instance wit_timers_lawful : LawfulTimers (fst wit_timers) (snd wit_timers) :=
  scripted_timers_lawful wit_timer_script 2.

Definition wit_timer_new : option (lstate Toy.kernel (tstate unit)) :=
  match obus_loop_new (Toy.Kernel ∅ ∅ [inl [(101, 1)]]) mem0 with
  | Some ((Some lp, k), _) => Some (LState k (Some lp) ∅ (TState ∅ tt))
  | _ => None
  end.
Definition wit_timer_step (r : option (lstate Toy.kernel (tstate unit))) (op : timer_op) :=
  s ← r; match run_timer_op op s wit_world mem0 with Some ((_, s'), _, _) => Some s' | None => None end.
Definition wit_fired := fold_left wit_timer_step
  [TimerNew 9 0; TimerSet 1 10; OwnOp LoopProcess] wit_timer_new.

Lemma wit_timer_step_reachable r op s :
  (forall s, r = Some s -> timers_reachable (TC := fst wit_timers) (others := snd wit_timers) s) ->
  wit_timer_step r op = Some s -> timers_reachable (TC := fst wit_timers) (others := snd wit_timers) s.
Proof.
  intros H. destruct r as [s0|]; [|done]. cbn.
  destruct (run_timer_op op s0 wit_world mem0) as [[[[[] s1] w1] m1]|] eqn:E; [|done]. intros [= <-].
  eapply timers_op; [by apply H|exact E].
Qed.

Lemma wit_fired_reachable s :
  wit_fired = Some s -> timers_reachable (TC := fst wit_timers) (others := snd wit_timers) s.
Proof.
  unfold wit_fired. cbn [fold_left]. do 3 (apply wit_timer_step_reachable; intros ?).
  unfold wit_timer_new. destruct (obus_loop_new _ mem0) as [[[[lp|] k] m]|] eqn:E; [|done..].
  intros [= <-]. by eapply timers_new.
Qed.

Lemma timers_reachable_safe_witness :
  exists s lp, wit_fired = Some s /\ ls_loop s = Some lp /\
    timers_of s !! 2%positive = Some (Timer 0 11 0) /\ 3 <= lp_ref lp /\
    exists o, ls_fds s !! 2%positive = Some o /\ fd_fd o ∈ opened (ls_kern s).
Proof.
  destruct wit_fired as [s|] eqn:E; [|vm_compute in E; discriminate E].
  pose proof (wit_fired_reachable s E) as Hs.
  destruct (timers_reachable_safe (LTS := wit_timers_lawful) s Hs) as (_ & lp & El & Hr & Hf & _).
  assert (timers_of s !! 2%positive = Some (Timer 0 11 0) /\ size (timers_of s) = 2%nat) as [H1 H2].
  { vm_compute in E. injection E as <-. split; vm_compute; reflexivity. }
  rewrite H2 in Hr. exists s, lp. split; [reflexivity|]. split; [exact El|]. split; [exact H1|]. split; [lia|].
  destruct (Hf _ _ H1) as (o & Ho & _ & _ & Hopen & _). exists o. split; [exact Ho|exact Hopen].
Defined.
End Witnesses.
