(* ===== verification/LoopPosix.v ===== *)
(** * obus_loop_posix.c: the event loop over poll

    The variant of the loop for systems without epoll.  The registered objects are
    in a hash table by descriptor, and each turn copies them to an array that
    [poll] fills.  The state is the kernel, the loop ([None] once freed), the live
    descriptor objects and the data of the application, as for the other loop; the
    helpers on descriptor objects are those of obus_loop.h (file Loop). *)
From S2P Require Import Prelude Mem World Handler Hash Utils Loop.

(** ** poll *)

Record pollfd := PollFd {
  pfd_fd : Z;
  pfd_events : Z;
  pfd_revents : Z
}.

Definition POLLIN : Z := 1.
Definition POLLPRI : Z := 2.
Definition POLLOUT : Z := 4.
Definition POLLERR : Z := 8.
Definition POLLHUP : Z := 16.
Definition POLLRDHUP : Z := 8192.

(** [sys_poll fds timeout]: the [revents] of each entry, or an errno. *)
Class PollKernel (K : Type) := {
  pk_fd :: FdKernel K;
  sys_poll : list pollfd -> Z -> KM K (list Z + Z);
  poll_interrupts : forall fds t k k',
    sys_poll fds t k = (inr EINTR, k') -> (k_interrupts k' < k_interrupts k)%nat
}.

Definition fd_to_poll_events (events : Z) : Z :=
  let ret := if has events OBUS_FD_IN then Z.lor 0 POLLIN else 0 in
  let ret := if has events OBUS_FD_OUT then Z.lor ret POLLOUT else ret in
  let ret := if has events OBUS_FD_ERR then Z.lor ret POLLERR else ret in
  if has events OBUS_FD_HUP then Z.lor ret POLLHUP else ret.

Definition poll_to_fd_events (events : Z) : Z :=
  let ret := if has events POLLIN || has events POLLPRI then Z.lor 0 OBUS_FD_IN else 0 in
  let ret := if has events POLLOUT then Z.lor ret OBUS_FD_OUT else ret in
  let ret := if has events POLLERR then Z.lor ret OBUS_FD_ERR else ret in
  let ret := if has events POLLHUP then Z.lor ret OBUS_FD_HUP else ret in
  if has events POLLRDHUP then Z.lor ret OBUS_FD_HUP else ret.

(** ** The loop and the state *)

Definition OBUS_LOOP_HASH_SIZE : Z := 31.
Definition EXTRA_ALLOC_EVENT_NB : Z := 10.

(** [sizeof (struct obus_loop)], [sizeof (struct pollfd)] *)
Definition LOOP_SIZE : Z := 56.
Definition POLLFD_SIZE : Z := 8.

(** The array is NULL at first; an entry that has not been written yet is
    indeterminate. *)
Record obus_loop := Loop {
  pl_ofds : obus_hash positive;
  pl_pfds : option (list (option pollfd));
  pl_nallocevents : Z;
  pl_nfds : Z;
  pl_ref : Z
}.

Record pstate (K U : Type) := PState {
  ps_kern : K;
  ps_loop : option obus_loop;
  ps_fds : gmap positive obus_fd;
  ps_user : U
}.
Arguments PState {K U}.
Arguments ps_kern {K U}.
Arguments ps_loop {K U}.
Arguments ps_fds {K U}.
Arguments ps_user {K U}.

Section State.
Context {K U : Type}.
Implicit Types (s : pstate K U) (lp : obus_loop).

Definition with_kern s k : pstate K U := PState k (ps_loop s) (ps_fds s) (ps_user s).
Definition with_loop s l : pstate K U := PState (ps_kern s) l (ps_fds s) (ps_user s).
Definition with_fds s fds : pstate K U := PState (ps_kern s) (ps_loop s) fds (ps_user s).
Definition with_user s u : pstate K U := PState (ps_kern s) (ps_loop s) (ps_fds s) u.

Definition with_table lp h n : obus_loop := Loop h (pl_pfds lp) (pl_nallocevents lp) n (pl_ref lp).
Definition with_array lp a n : obus_loop := Loop (pl_ofds lp) a n (pl_nfds lp) (pl_ref lp).
Definition with_ref lp n : obus_loop := Loop (pl_ofds lp) (pl_pfds lp) (pl_nallocevents lp) (pl_nfds lp) n.
End State.

Notation PM K U := (StW (pstate K U)).

(** What the application's callbacks do, by address. *)
Class PosixCode (K U : Type) := poll_callback : Z -> positive -> Z -> Z -> PM K U unit.

Section Ops.
Context {K U : Type} {PK : PollKernel K} {AL : Allocator}.

(** System calls, and accesses to the loop and to a live object. *)
Definition pcall {A} (c : KM K A) : PM K U A :=
  fun s => let r := c (ps_kern s) in mret (fst r, with_kern s (snd r)).

Definition the_loop : PM K U obus_loop := lp ← sv_gets ps_loop; on_mem (m_lift lp).
Definition put_loop (lp : obus_loop) : PM K U unit := sv_modify (fun s => with_loop s (Some lp)).
Definition the_fd (p : positive) : PM K U obus_fd := fds ← sv_gets ps_fds; on_mem (m_lift (fds !! p)).
Definition put_fd (p : positive) (o : obus_fd) : PM K U unit :=
  sv_modify (fun s => with_fds s (<[p := o]> (ps_fds s))).

(** The result of an [int] operation that must not overflow. *)
Definition int_of (z : Z) : PM K U Z :=
  if (- INT_MAX - 1 <=? z) && (z <=? INT_MAX) then mret z else sv_undef.

(** [obus_hash_init] always returns 0; when the buckets cannot be allocated it has
    freed the table, the first member of the loop, and the loop with it. *)
Definition obus_loop_new : M (option obus_loop) :=
  a ← m_alloc LOOP_SIZE;
  match a with
  | None => mret None
  | Some _ =>
    '(ret, h) ← obus_hash_init HomeMalloc OBUS_LOOP_HASH_SIZE;
    if failed ret then mret None else
    match h with
    | None => m_undef
    | Some h => mret (Some (Loop h None 0 0 1))
    end
  end.

Definition obus_loop_destroy : PM K U Z :=
  lp ← the_loop;
  put_loop (with_table lp (snd (obus_hash_destroy (pl_ofds lp))) (pl_nfds lp));;
  sv_modify (fun s => with_loop s None);;
  mret 0.

Definition obus_loop_ref : PM K U unit :=
  lp ← the_loop; put_loop (with_ref lp (pl_ref lp + 1)).

Definition obus_loop_unref : PM K U Z :=
  lp ← the_loop;
  let lp := with_ref lp (pl_ref lp - 1) in
  put_loop lp;;
  if pl_ref lp =? 0 then obus_loop_destroy else mret 0.

Definition obus_loop_fd : Z := - ENOSYS.

(** The table after an operation on it. *)
Definition put_table (h : obus_hash positive) : PM K U unit :=
  lp ← the_loop; put_loop (with_table lp h (pl_nfds lp)).

(** The registration in the table, under a duplicate when the descriptor is a key
    already; the code of the insertion. *)
Definition insert_ofd (p : positive) (ofd : obus_fd) : PM K U (Z + Z) :=
  lp ← the_loop;
  '(ret, _) ← on_mem (obus_hash_lookup (pl_ofds lp) (u32 (fd_fd ofd)));
  if ret =? 0 then
    ret ← pcall (obus_fd_dup (fd_fd ofd));
    if failed ret then mret (inr ret) else
    put_fd p (with_dupfd ofd ret);;
    '(ret, h) ← on_mem (obus_hash_insert (pl_ofds lp) (u32 ret) p);
    put_table h;;
    mret (inl ret)
  else
    '(ret, h) ← on_mem (obus_hash_insert (pl_ofds lp) (u32 (fd_fd ofd)) p);
    put_table h;;
    mret (inl ret).

Definition obus_loop_add (p : positive) : PM K U Z :=
  ofd ← the_fd p;
  if (fd_fd ofd <? 0) || (fd_events ofd =? 0) || (fd_cb ofd =? 0) then mret (- EINVAL) else
  if fd_loop ofd then mret (- EEXIST) else
  ret ← insert_ofd p ofd;
  match ret with
  | inr ret => mret ret
  | inl ret =>
    ofd ← the_fd p;
    if failed ret then
      (if fd_dupfd ofd =? -1 then mret tt else
       _ ← pcall (sys_close (fd_dupfd ofd)); put_fd p (with_dupfd ofd (-1)));;
      mret ret
    else
      put_fd p (with_fd_loop ofd true);;
      lp ← the_loop;
      n ← int_of (pl_nfds lp + 1);
      put_loop (with_table lp (pl_ofds lp) n);;
      mret 0
  end.

(** [ofd->dupfd != -1 ? ofd->dupfd : ofd->fd] is [watched_fd].  The result of the
    search is compared with EEXIST, which it never is. *)
Definition obus_loop_update (p : positive) : PM K U Z :=
  ofd ← the_fd p;
  lp ← the_loop;
  '(ret, check) ← on_mem (obus_hash_lookup (pl_ofds lp) (u32 (watched_fd ofd)));
  if negb (ret =? EEXIST) || negb (bool_decide (check = Some p)) then mret (- ENOENT) else mret 0.

Definition obus_loop_remove (p : positive) : PM K U Z :=
  ofd ← the_fd p;
  lp ← the_loop;
  '(ret, h) ← on_mem (obus_hash_remove (pl_ofds lp) (u32 (watched_fd ofd)));
  put_loop (with_table lp h (pl_nfds lp));;
  if failed ret then mret ret else
  (if fd_dupfd ofd =? -1 then mret tt else
   _ ← pcall (sys_close (fd_dupfd ofd)); put_fd p (with_dupfd ofd (-1)));;
  ofd ← the_fd p;
  put_fd p (with_fd_loop ofd false);;
  lp ← the_loop;
  n ← int_of (pl_nfds lp - 1);
  put_loop (with_table lp (pl_ofds lp) n);;
  mret 0.

Definition obus_loop_posix_get_fd_count : PM K U Z := lp ← the_loop; mret (pl_nfds lp).

(** The walk over the entries of the table, from the index [i] of the array. *)
Fixpoint fill_fds (entries : list (obus_hash_entry positive)) (size i : Z) (pfds : list (option pollfd))
  : PM K U (Z * list (option pollfd)) :=
  match entries with
  | [] => mret (i, pfds)
  | e :: entries' =>
    if i <? size then
      ofd ← the_fd (e_data e);
      if (Z.to_nat i <? length pfds)%nat then
        fill_fds entries' size (i + 1)
          (<[Z.to_nat i := Some (PollFd (i32 (e_key e)) (fd_to_poll_events (fd_events ofd)) 0)]> pfds)
      else sv_undef
    else fill_fds entries' size i pfds
  end.

(** The code, and the array of the caller after the call. *)
Definition obus_loop_posix_get_fds (pfds : option (list (option pollfd))) (size : Z)
  : PM K U (Z * option (list (option pollfd))) :=
  match pfds with
  | None => mret (- EINVAL, None)
  | Some a =>
    if size =? 0 then mret (- EINVAL, pfds) else
    lp ← the_loop;
    '(n, a) ← fill_fds (h_entries (pl_ofds lp)) size 0 a;
    mret (n, Some a)
  end.
End Ops.

(** ** Processing *)

(** A loop of at most [2 ^ n] turns. *)
Fixpoint turns {S A B : Type} (n : nat) (body : A -> StW S (A + B)) (a : A) : StW S (A + B) :=
  match n with
  | O => body a
  | Datatypes.S n' =>
    r ← turns n' body a;
    match r with
    | inl a' => turns n' body a'
    | inr b => mret (inr b)
    end
  end.

Section Process.
Context {K U : Type} {PK : PollKernel K} {AL : Allocator} {PC : PosixCode K U}.

Definition obus_loop_posix_process_fd (pfd : pollfd) : PM K U Z :=
  if pfd_revents pfd =? 0 then mret 0 else
  lp ← the_loop;
  '(ret, ofd) ← on_mem (obus_hash_lookup (pl_ofds lp) (u32 (pfd_fd pfd)));
  if failed ret then mret ret else
  p ← on_mem (m_lift ofd);
  ofd ← the_fd p;
  if fd_cb ofd =? 0 then sv_undef else
  poll_callback (fd_cb ofd) p (poll_to_fd_events (pfd_revents pfd)) (fd_data ofd);;
  mret 0.

(** [realloc] of the array keeps what it held. *)
Definition grow_array : PM K U Z :=
  lp ← the_loop;
  if pl_nallocevents lp <? pl_nfds lp then
    a ← on_mem (m_alloc (u64 (u64 (EXTRA_ALLOC_EVENT_NB + pl_nfds lp) * POLLFD_SIZE)));
    match a with
    | None => mret (- ENOMEM)
    | Some _ =>
      n ← int_of (EXTRA_ALLOC_EVENT_NB + pl_nfds lp);
      let old := default [] (pl_pfds lp) in
      put_loop (with_array lp (Some (old ++ replicate (Z.to_nat n - length old) None)) n);;
      mret 0
    end
  else mret 0.

Definition fill_array : PM K U Z :=
  lp ← the_loop;
  '(ret, a) ← obus_loop_posix_get_fds (pl_pfds lp) (pl_nfds lp);
  put_loop (with_array lp a (pl_nallocevents lp));;
  mret ret.

(** [poll] retried on [EINTR]. *)
Fixpoint poll_eintr (fuel : nat) (fds : list pollfd) (timeout : Z) : KM K (option (list Z + Z)) :=
  match fuel with
  | O => mret None
  | S fuel' =>
    r ← sys_poll fds timeout;
    match r with
    | inr e => if e =? EINTR then poll_eintr fuel' fds timeout else mret (Some r)
    | inl _ => mret (Some r)
    end
  end.

Definition with_revents (pfd : pollfd) (revents : Z) : pollfd := PollFd (pfd_fd pfd) (pfd_events pfd) revents.

(** The entries with events. *)
Definition n_ready (l : list pollfd) : Z :=
  Z.of_nat (length (filter (fun pfd => pfd_revents pfd <> 0) l)).

(** [poll] on the first [nfds] entries of the array: an error, or the number of
    entries that are ready, written in the array. *)
Definition poll_array (timeout : Z) : PM K U Z :=
  lp ← the_loop;
  let a := default [] (pl_pfds lp) in
  fds ← on_mem (m_lift (mapM id (take (Z.to_nat (pl_nfds lp)) a)));
  if negb (Z.of_nat (length fds) =? pl_nfds lp) then sv_undef else
  r ← pcall (fun k => poll_eintr (S (k_interrupts k)) fds timeout k);
  match r with
  | None => sv_undef
  | Some (inr e) => mret (- e)
  | Some (inl revents) =>
    if negb (length revents =? length fds)%nat then sv_undef else
    let polled := zip_with with_revents fds revents in
    put_loop (with_array lp (Some (map Some polled ++ drop (length fds) a)) (pl_nallocevents lp));;
    mret (n_ready polled)
  end.

(** A turn of [for (i = 0; i < loop->nfds && j < ret; i++)]: the next [i] and [j],
    or the end of the walk. *)
Definition serve_turn (ret : Z) (ij : Z * Z) : PM K U (Z * Z + unit) :=
  let '(i, j) := ij in
  lp ← the_loop;
  if negb ((i <? pl_nfds lp) && (j <? ret)) then mret (inr tt) else
  pfd ← on_mem (m_lift (mjoin (default [] (pl_pfds lp) !! Z.to_nat i)));
  if pfd_revents pfd =? 0 then mret (inl (i + 1, j)) else
  (if poll_to_fd_events (pfd_revents pfd) =? 0 then mret tt
   else _ ← obus_loop_posix_process_fd pfd; mret tt);;
  mret (inl (i + 1, j + 1)).

(** [i] is an [int] below another: [2 ^ 31] turns are enough. *)
Definition dispatch (ret : Z) : PM K U unit :=
  r ← turns 31 (serve_turn ret) (0, 0);
  match r with inl _ => sv_undef | inr _ => mret tt end.

Definition obus_loop_do_process (timeout : Z) : PM K U Z :=
  ret ← grow_array;
  if failed ret then mret ret else
  ret ← fill_array;
  if failed ret then mret ret else
  ret ← poll_array timeout;
  if failed ret then mret ret else
  if ret =? 0 then mret 0 else
  obus_loop_ref;;
  dispatch ret;;
  _ ← obus_loop_unref;
  mret 0.

Definition obus_loop_process : PM K U Z := obus_loop_do_process 0.
Definition obus_loop_wait : PM K U Z := obus_loop_do_process (-1).
End Process.
