(* ===== verification/LoopPosixFacts.v ===== *)
(** * The loop over poll: its invariant, and that processing events is safe

    [LawfulPoll] is what dup and poll document; [ploop_inv] relates the table of
    the loop, the marks of the objects and the count.  The callbacks are arbitrary
    code that keeps the invariant and leaves the array alone: a callback that runs
    the loop again changes the array under the walk (file LoopPosixRun). *)
From S2P Require Import Prelude Mem World Handler Hash Utils Loop LoopFacts LoopPosix.

Class LawfulPoll (K : Type) {PK : PollKernel K} := {
  dup_range : forall fd k v k', sys_dup fd k = (SysOk v, k') -> 0 <= v < FD_LIMIT;
  dup_errno : forall fd k e k', sys_dup fd k = (SysErr e, k') -> 0 < e;
  poll_length : forall fds t k l k', sys_poll fds t k = (inl l, k') -> length l = length fds;
  poll_errno : forall fds t k e k', sys_poll fds t k = (inr e, k') -> 0 < e
}.

(** ** Invariant *)

Record pl_wf (n : Z) (fds : gmap positive obus_fd) (m : mem) (lp : obus_loop) : Prop := {
  pw_table : plain_wf (pl_ofds lp) m;
  pw_nfds : pl_nfds lp = Z.of_nat (size (reg (pl_ofds lp)));
  pw_listed : forall k p, reg (pl_ofds lp) !! k = Some p -> 0 <= k < FD_LIMIT /\
    exists o, fds !! p = Some o /\ fd_loop o = true /\ fd_cb o <> 0 /\ watched_fd o = k;
  pw_used : forall p o, fds !! p = Some o -> fd_loop o = true -> reg (pl_ofds lp) !! watched_fd o = Some p;
  pw_idle : forall p o, fds !! p = Some o -> fd_loop o = false -> fd_dupfd o = -1;
  pw_array : Z.of_nat (length (default [] (pl_pfds lp))) = pl_nallocevents lp;
  pw_ref : n <= pl_ref lp
}.

Section Inv.
Context {K U : Type} {PK : PollKernel K} {LP : LawfulPoll K} {AL : Allocator}.
Implicit Types (s : pstate K U) (w : world) (m : mem) (p : positive) (o : obus_fd).

(** The loop is live, with [n] references at least. *)
Definition ploop_inv (n : Z) s m : Prop :=
  exists lp, ps_loop s = Some lp /\ pl_wf n (ps_fds s) m lp.

Definition array_of s : option (option (list (option pollfd))) := option_map pl_pfds (ps_loop s).

Lemma fd_key z : 0 <= z < FD_LIMIT -> u32 z = z.
Proof. intros H. apply u32_small. unfold FD_LIMIT in H. lia. Qed.

Lemma pl_wf_later n fds m m' lp : pl_wf n fds m lp -> (m_count m <= m_count m')%nat -> pl_wf n fds m' lp.
Proof. intros [] Hm. constructor; try done. by eapply plain_wf_later. Qed.

Lemma pfds_bound n fds m lp : pl_wf n fds m lp -> 0 <= pl_nfds lp <= FD_LIMIT.
Proof.
  intros W. rewrite (pw_nfds _ _ _ _ W). split; [lia|].
  rewrite <- length_map_to_list, <- (length_map fst).
  pose proof (range_length (map fst (map_to_list (reg (pl_ofds lp)))) (Z.to_nat FD_LIMIT)) as H.
  enough (length (map fst (map_to_list (reg (pl_ofds lp)))) <= Z.to_nat FD_LIMIT)%nat by (unfold FD_LIMIT in *; lia).
  apply H; [apply NoDup_fst_map_to_list|]. apply Forall_forall.
  intros k ([k' p] & -> & Hin)%list_elem_of_fmap. apply elem_of_map_to_list in Hin.
  cbn. destruct (pw_listed _ _ _ _ W _ _ Hin) as [Hk _]. unfold FD_LIMIT in *. lia.
Qed.

Lemma table_length (h : obus_hash positive) m : plain_wf h m -> length (h_entries h) = size (reg h).
Proof.
  intros [W _]. unfold reg. rewrite map_size_list_to_map, length_map; [done|].
  change (list_fmap _ _ fst) with (map (@fst Z positive)). rewrite map_map. apply W.
Qed.

(** ** Steps *)

Lemma wps_pcall {A} (c : KM K A) (Q : A -> pstate K U -> world -> mem -> Prop) s w m :
  Q (fst (c (ps_kern s))) (with_kern s (snd (c (ps_kern s)))) w m -> wps (pcall c) Q s w m.
Proof. intros H. by apply wpw_ret. Qed.

Lemma wps_the_loop lp (Q : obus_loop -> pstate K U -> world -> mem -> Prop) s w m :
  ps_loop s = Some lp -> Q lp s w m -> wps the_loop Q s w m.
Proof. intros E H. unfold the_loop. apply wps_bind, wps_gets, wps_mem. by eapply wp_lift. Qed.

Lemma wps_the_fd p o (Q : obus_fd -> pstate K U -> world -> mem -> Prop) s w m :
  ps_fds s !! p = Some o -> Q o s w m -> wps (the_fd p) Q s w m.
Proof. intros E H. unfold the_fd. apply wps_bind, wps_gets, wps_mem. by eapply wp_lift. Qed.

Lemma wps_int_of z (Q : Z -> pstate K U -> world -> mem -> Prop) s w m :
  - INT_MAX - 1 <= z <= INT_MAX -> Q z s w m -> wps (int_of z) Q s w m.
Proof.
  intros Hz H. unfold int_of. rewrite (proj2 (Z.leb_le _ _) (proj1 Hz)), (proj2 (Z.leb_le _ _) (proj2 Hz)).
  by apply wps_ret.
Qed.

Lemma poll_dup_spec fd k ret k' : obus_fd_dup fd k = (ret, k') -> failed ret = true \/ 0 <= ret < FD_LIMIT.
Proof.
  unfold obus_fd_dup, mbind, KM_bind. destruct (sys_dup fd k) as [[v|e] k1] eqn:Ed.
  2:{ intros [= <- <-]. left. apply dup_errno in Ed. apply failed_spec. lia. }
  apply dup_range in Ed. destruct (obus_fd_has_close_on_exec fd k1) as [[|] k2]; [|intros [= <- <-]; by right].
  destruct (obus_fd_set_close_on_exec v k2) as [r k3]. destruct (failed r) eqn:Hr.
  - destruct (sys_close v k3). intros [= <- <-]. by left.
  - intros [= <- <-]. by right.
Qed.

(** ** References *)

Lemma wps_pref n s w m (Q : unit -> pstate K U -> world -> mem -> Prop) :
  ploop_inv n s m ->
  (forall lp, ps_loop s = Some lp -> let s' := with_loop s (Some (with_ref lp (pl_ref lp + 1))) in
     ploop_inv (n + 1) s' m -> Q tt s' w m) ->
  wps obus_loop_ref Q s w m.
Proof.
  intros (lp & El & W) HQ. unfold obus_loop_ref. apply wps_bind. eapply wps_the_loop; [done|].
  apply wps_modify, HQ; [done|]. eexists. split; [done|]. destruct W. constructor; try done. cbn. lia.
Qed.

Lemma wps_punref n s w m (Q : Z -> pstate K U -> world -> mem -> Prop) :
  ploop_inv (n + 1) s m -> 1 <= n ->
  (forall lp, ps_loop s = Some lp -> let s' := with_loop s (Some (with_ref lp (pl_ref lp - 1))) in
     ploop_inv n s' m -> Q 0 s' w m) ->
  wps obus_loop_unref Q s w m.
Proof.
  intros (lp & El & W) Hn HQ. unfold obus_loop_unref. apply wps_bind. eapply wps_the_loop; [done|].
  cbv zeta. apply wps_bind, wps_modify. pose proof (pw_ref _ _ _ _ W). cbn [pl_ref with_ref].
  rewrite (proj2 (Z.eqb_neq _ _)) by lia. apply wps_ret, HQ; [done|].
  eexists. split; [done|]. destruct W. constructor; try done. cbn. lia.
Qed.

(** ** Registration *)

(** Only the kernel has changed. *)
Definition pkept s s' : Prop := ps_loop s' = ps_loop s /\ ps_fds s' = ps_fds s /\ ps_user s' = ps_user s.

Lemma pkept_kern s k : pkept s (with_kern s k).
Proof. done. Qed.

Lemma pkept_inv n s s' m m' : pkept s s' -> (m_count m <= m_count m')%nat -> ploop_inv n s m -> ploop_inv n s' m'.
Proof.
  intros (E1 & E2 & _) Hm (lp & El & W). exists lp. split; [congruence|]. rewrite E2. by eapply pl_wf_later.
Qed.

(** The object is in the table, under its descriptor or a duplicate [d] of it. *)
Definition pregistered p o d s s' : Prop :=
  let o' := with_fd_loop (with_dupfd o d) true in
  ps_fds s' = <[p := o']> (ps_fds s) /\ ps_user s' = ps_user s /\ 0 <= watched_fd o' < FD_LIMIT /\
  exists lp h, ps_loop s = Some lp /\ reg (pl_ofds lp) !! watched_fd o' = None /\
    reg h = <[watched_fd o' := p]> (reg (pl_ofds lp)) /\
    ps_loop s' = Some (with_table lp h (pl_nfds lp + 1)).

Definition padd_post p o s (ret : Z) s' : Prop :=
  if (fd_fd o <? 0) || (fd_events o =? 0) || (fd_cb o =? 0) then ret = - EINVAL /\ s' = s
  else if fd_loop o then ret = - EEXIST /\ s' = s
  else ret < 0 /\ pkept s s' \/ ret = 0 /\ exists d, pregistered p o d s s'.

Lemma loop_eta lp : with_table lp (pl_ofds lp) (pl_nfds lp) = lp.
Proof. by destruct lp. Qed.
Lemma state_eta s lp : ps_loop s = Some lp -> with_loop s (Some lp) = s.
Proof. destruct s. cbn. by intros ->. Qed.
Lemma fds_same s p o : ps_fds s !! p = Some o -> with_fds s (<[p := o]> (ps_fds s)) = s.
Proof. intros H. rewrite insert_id by done. by destruct s. Qed.

Lemma wps_insert_table lp key p s w m (Q : Z + Z -> pstate K U -> world -> mem -> Prop) :
  ps_loop s = Some lp -> plain_wf (pl_ofds lp) m ->
  (forall ret m', ret < 0 -> (m_count m <= m_count m')%nat -> Q (inl ret) s w m') ->
  (forall h m', plain_wf h m' -> (m_count m <= m_count m')%nat -> reg (pl_ofds lp) !! key = None ->
     reg h = <[key := p]> (reg (pl_ofds lp)) ->
     Q (inl 0) (with_loop s (Some (with_table lp h (pl_nfds lp)))) w m') ->
  wps ('(ret, h) ← on_mem (obus_hash_insert (pl_ofds lp) key p); put_table h;; mret (inl ret)) Q s w m.
Proof.
  intros El P H1 H2. apply wps_bind, wps_mem, wp_reg_insert; [done|..].
  - intros h m' ret _ _ Hm Hr%failed_spec -> _. unfold put_table. apply wps_bind, wps_bind.
    eapply wps_the_loop; [done|]. apply wps_modify, wps_ret. rewrite loop_eta, state_eta by done. by apply H1.
  - intros h m' P' _ Hm Hk Hr. unfold put_table. apply wps_bind, wps_bind. eapply wps_the_loop; [done|].
    apply wps_modify, wps_ret. by apply H2.
Qed.

(** An object out of the table is registered by [insert_ofd], or the table is kept
    and the duplicate is left in the object. *)
Lemma wps_insert_ofd n p o s w m (Q : Z + Z -> pstate K U -> world -> mem -> Prop) :
  ploop_inv n s m -> ps_fds s !! p = Some o -> fd_loop o = false -> 0 <= fd_fd o < FD_LIMIT ->
  (forall ret s' m', ret < 0 -> pkept s s' -> (m_count m <= m_count m')%nat -> Q (inr ret) s' w m') ->
  (forall ret d s' m' k, ret < 0 -> s' = with_fds (with_kern s k) (<[p := with_dupfd o d]> (ps_fds s)) ->
     (m_count m <= m_count m')%nat -> Q (inl ret) s' w m') ->
  (forall d s' m' k h lp, let key := watched_fd (with_dupfd o d) in
     0 <= key < FD_LIMIT -> ps_loop s = Some lp -> plain_wf h m' -> reg (pl_ofds lp) !! key = None ->
     reg h = <[key := p]> (reg (pl_ofds lp)) ->
     s' = PState k (Some (with_table lp h (pl_nfds lp))) (<[p := with_dupfd o d]> (ps_fds s)) (ps_user s) ->
     (m_count m <= m_count m')%nat -> Q (inl 0) s' w m') ->
  wps (insert_ofd p o) Q s w m.
Proof.
  intros (lp & El & W) Ho Hl Hf H1 H2 H3. pose proof (pw_idle _ _ _ _ W _ _ Ho Hl) as Hd.
  assert (with_dupfd o (-1) = o) as Ho1 by (rewrite <- Hd; by destruct o).
  unfold insert_ofd. apply wps_bind. eapply wps_the_loop; [done|]. apply wps_bind, wps_mem.
  apply wp_reg_lookup; [apply W| |].
  - intros q Hq. cbn [Z.eqb]. apply wps_bind, wps_pcall.
    destruct (obus_fd_dup (fd_fd o) (ps_kern s)) as [d k] eqn:Ed. apply poll_dup_spec in Ed. cbn [fst snd].
    destruct (failed d) eqn:Hfd; [apply failed_spec in Hfd; apply wps_ret, H1; [done|apply pkept_kern|done]|].
    destruct Ed as [?|Hr]; [done|]. apply wps_bind, wps_modify.
    apply (wps_insert_table lp); [done|apply W| |].
    + intros ret m' Hret Hm. by eapply (H2 ret d).
    + intros h m' P' Hm Hk Hreg. rewrite fd_key in Hk, Hreg by done.
      assert (watched_fd (with_dupfd o d) = d) as Hw.
      { unfold watched_fd. cbn. by rewrite (proj2 (Z.eqb_neq _ _)) by lia. }
      eapply (H3 d _ m' k h lp); try done; by rewrite ?Hw.
  - intros Hn. rewrite fd_key in Hn by done. cbn [Z.eqb Z.opp ENOENT].
    assert (watched_fd o = fd_fd o) as Hw by (unfold watched_fd; by rewrite Hd).
    apply (wps_insert_table lp); [done|apply W| |].
    + intros ret m' Hret Hm. eapply (H2 ret (-1) _ m' (ps_kern s)); [done| |done].
      rewrite Ho1. destruct s; cbn in *. by rewrite insert_id.
    + intros h m' P' Hm Hk Hreg. rewrite fd_key in Hk, Hreg by done.
      eapply (H3 (-1) _ m' (ps_kern s) h lp); try done; rewrite ?Ho1, ?Hw; try done.
      destruct s; cbn in *. by rewrite insert_id.
Qed.

Lemma pregistered_inv n p o d s s' m m' :
  ploop_inv n s m -> ps_fds s !! p = Some o -> fd_loop o = false -> fd_cb o <> 0 -> pregistered p o d s s' ->
  (forall lp, ps_loop s' = Some lp -> plain_wf (pl_ofds lp) m') -> ploop_inv n s' m'.
Proof.
  intros (lp0 & El0 & W) Ho Hl Hc (Ef & _ & Hw & lp & h & El & Hk & Hreg & El') P.
  rewrite El in El0. injection El0 as <-. eexists. split; [done|]. rewrite Ef. specialize (P _ El').
  set (o' := with_fd_loop (with_dupfd o d) true) in *. destruct W as [W1 W2 W3 W4 W5 W6 W7].
  assert (forall k q, reg (pl_ofds lp) !! k = Some q -> q <> p) as Hne.
  { intros k q Hq ->. destruct (W3 k p Hq) as (_ & o1 & Ho1 & Hl1 & _). congruence. }
  constructor; cbn [with_table pl_ofds pl_nfds pl_pfds pl_nallocevents pl_ref]; try done.
  - rewrite Hreg, map_size_insert_None by done. lia.
  - intros k q. rewrite Hreg, lookup_insert_Some. intros [[<- <-]|[_ Hq]].
    + split; [done|]. exists o'. by rewrite lookup_insert_eq.
    + destruct (W3 k q Hq) as (Hk' & o1 & Ho1 & H). split; [done|]. exists o1.
      rewrite lookup_insert_ne by (intros ->; by eapply Hne). done.
  - intros q o1. rewrite Hreg, lookup_insert_Some. intros [[<- <-]|[Hq Ho1]] Hl1; [by rewrite lookup_insert_eq|].
    rewrite lookup_insert_ne; [by apply W4|]. intros E. apply (W4 q) in Ho1; [|done]. congruence.
  - intros q o1. rewrite lookup_insert_Some. intros [[<- <-]|[_ Ho1]] Hl1; [done|by eapply W5].
Qed.

Lemma wps_padd n p o s w m :
  ploop_inv n s m -> ps_fds s !! p = Some o -> fd_fd o < FD_LIMIT ->
  wps (obus_loop_add p) (fun ret s' w' m' => w' = w /\ (m_count m <= m_count m')%nat /\ ploop_inv n s' m' /\
    array_of s' = array_of s /\ padd_post p o s ret s') s w m.
Proof.
  intros I Ho Hlim. unfold obus_loop_add, padd_post. apply wps_bind. eapply wps_the_fd; [done|].
  destruct ((fd_fd o <? 0) || (fd_events o =? 0) || (fd_cb o =? 0)) eqn:Eg; [by apply wps_ret|].
  destruct (fd_loop o) eqn:Hl; [by apply wps_ret|].
  apply orb_false_iff in Eg as [[E1 _]%orb_false_iff E3]. apply Z.ltb_ge in E1. apply Z.eqb_neq in E3.
  apply wps_bind. apply (wps_insert_ofd n); [done|done|done|done|..].
  - intros ret s' m' Hr Hk Hm. apply wps_ret. split_and!; [done|done|by eapply pkept_inv| |by left].
    unfold array_of. by rewrite (proj1 Hk).
  - intros ret d s' m' k Hr -> Hm. apply wps_bind. eapply wps_the_fd; [apply lookup_insert_eq|].
    rewrite (proj2 (failed_spec _) Hr). cbn [fd_dupfd with_dupfd].
    assert (forall k', pkept s (with_fds (with_kern s k') (<[p := with_dupfd o (-1)]> (<[p := with_dupfd o d]> (ps_fds s))))) as Hk.
    { intros k'. split_and!; [done| |done]. cbn. destruct I as (lp & _ & W).
      rewrite insert_insert_eq. apply insert_id. rewrite Ho. f_equal. rewrite <- (pw_idle _ _ _ _ W _ _ Ho Hl). by destruct o. }
    apply wps_bind. case_bool.
    + assert (d = -1) as -> by lia. apply wps_ret, wps_ret.
      rewrite insert_insert_eq in Hk. specialize (Hk k).
      split_and!; [done|done|by eapply pkept_inv|done|by left].
    + apply wps_bind, wps_pcall, wps_modify, wps_ret. specialize (Hk (snd (sys_close d k))).
      split_and!; [done|done|by eapply pkept_inv|done|by left].
  - intros d s' m' k h lp key Hkey El P Hn Hreg -> Hm. apply wps_bind. eapply wps_the_fd; [apply lookup_insert_eq|].
    cbn [failed Z.ltb Z.compare]. apply wps_bind, wps_modify, wps_bind. eapply wps_the_loop; [done|].
    destruct I as (lp0 & El0 & W). rewrite El in El0. injection El0 as <-.
    apply wps_bind, wps_int_of; [pose proof (pfds_bound _ _ _ _ W); cbn; unfold FD_LIMIT, INT_MAX in *; lia|].
    apply wps_bind, wps_modify, wps_ret.
    match goal with |- _ /\ _ /\ ploop_inv n ?s1 m' /\ _ => assert (pregistered p o d s s1) as HR end.
    { split_and!; [cbn; by rewrite insert_insert_eq|done|apply Hkey|apply Hkey|]. by exists lp, h. }
    split_and!; [done|done| |unfold array_of; cbn; by rewrite El|by right; split; [|exists d]].
    eapply pregistered_inv; [by exists lp|done|done|done|exact HR|]. by intros lp1 [= <-].
Qed.

Definition punregistered p o s s' : Prop :=
  ps_fds s' = <[p := with_fd_loop (with_dupfd o (-1)) false]> (ps_fds s) /\ ps_user s' = ps_user s /\
  exists lp h, ps_loop s = Some lp /\ reg (pl_ofds lp) !! watched_fd o = Some p /\
    reg h = delete (watched_fd o) (reg (pl_ofds lp)) /\
    ps_loop s' = Some (with_table lp h (pl_nfds lp - 1)).

Lemma punregistered_inv n p o s s' m :
  ploop_inv n s m -> ps_fds s !! p = Some o -> punregistered p o s s' ->
  (forall lp, ps_loop s' = Some lp -> plain_wf (pl_ofds lp) m) -> ploop_inv n s' m.
Proof.
  intros (lp0 & El0 & W) Ho (Ef & _ & lp & h & El & Hk & Hreg & El') P.
  rewrite El in El0. injection El0 as <-. eexists. split; [done|]. rewrite Ef. specialize (P _ El').
  destruct W as [W1 W2 W3 W4 W5 W6 W7].
  assert (forall k q, k <> watched_fd o -> reg (pl_ofds lp) !! k = Some q -> q <> p) as Hne.
  { intros k q Hkw Hq ->. destruct (W3 k p Hq) as (_ & o1 & Ho1 & _ & _ & H). congruence. }
  constructor; cbn [with_table pl_ofds pl_nfds pl_pfds pl_nallocevents pl_ref]; try done.
  - rewrite Hreg, map_size_delete_Some by by eexists.
    assert (size (reg (pl_ofds lp)) <> O) by (intros H0%map_size_empty_inv; by rewrite H0 in Hk). lia.
  - intros k q. rewrite Hreg, lookup_delete_Some. intros [Hkw Hq].
    destruct (W3 k q Hq) as (Hk' & o1 & Ho1 & H). split; [done|]. exists o1.
    rewrite lookup_insert_ne by (intros ->; by eapply Hne). done.
  - intros q o1. rewrite Hreg, lookup_insert_Some. intros [[<- <-]|[Hq Ho1]] Hl1; [done|].
    apply (W4 q) in Ho1; [|done]. apply lookup_delete_Some. split; [|done]. intros E. rewrite <- E, Hk in Ho1. congruence.
  - intros q o1. rewrite lookup_insert_Some. intros [[<- <-]|[_ Ho1]] Hl1; [done|by eapply W5].
Qed.

(** The object is registered, or its descriptor is not in the table. *)
Definition premove_ok p o s : Prop :=
  fd_loop o = true \/ forall lp, ps_loop s = Some lp -> reg (pl_ofds lp) !! u32 (watched_fd o) = None.

Definition premove_post p o s (ret : Z) s' : Prop :=
  if fd_loop o then ret = 0 /\ punregistered p o s s' else ret = - ENOENT /\ s' = s.

Lemma wps_premove n p o s w m :
  ploop_inv n s m -> ps_fds s !! p = Some o -> premove_ok p o s ->
  wps (obus_loop_remove p) (fun ret s' w' m' => w' = w /\ m' = m /\ ploop_inv n s' m' /\
    array_of s' = array_of s /\ premove_post p o s ret s') s w m.
Proof.
  intros I Ho Hok. pose proof I as (lp & El & W). unfold obus_loop_remove, premove_post. apply wps_bind.
  eapply wps_the_fd; [done|]. apply wps_bind. eapply wps_the_loop; [done|]. apply wps_bind, wps_mem.
  apply wp_reg_remove; [apply W|..].
  - intros Hn. apply wps_bind, wps_modify. rewrite loop_eta, state_eta by done. cbn [failed Z.ltb Z.compare Z.opp ENOENT].
    apply wps_ret. destruct (fd_loop o) eqn:Hl; [|done]. pose proof (pw_used _ _ _ _ W _ _ Ho Hl) as Hu.
    destruct (pw_listed _ _ _ _ W _ _ Hu) as [Hr _]. rewrite fd_key in Hn by done. congruence.
  - intros h P [q Hq] Hreg. assert (fd_loop o = true) as Hl.
    { destruct Hok as [?|Hok]; [done|]. rewrite Hok in Hq; done. }
    rewrite Hl. pose proof (pw_used _ _ _ _ W _ _ Ho Hl) as Hu. destruct (pw_listed _ _ _ _ W _ _ Hu) as [Hr _].
    rewrite fd_key in Hq, Hreg by done. rewrite Hu in Hq. injection Hq as <-.
    apply wps_bind, wps_modify. cbn [failed Z.ltb Z.compare].
    assert (forall k, wps (ofd ← the_fd p; put_fd p (with_fd_loop ofd false);;
      lp ← the_loop; n ← int_of (pl_nfds lp - 1); put_loop (with_table lp (pl_ofds lp) n);; mret 0)
      (fun ret s' w' m' => w' = w /\ m' = m /\ ploop_inv n s' m' /\ array_of s' = array_of s /\
        ret = 0 /\ punregistered p o s s')
      (PState k (Some (with_table lp h (pl_nfds lp))) (<[p := with_dupfd o (-1)]> (ps_fds s)) (ps_user s)) w m) as Hend.
    { intros k. apply wps_bind. eapply wps_the_fd; [apply lookup_insert_eq|]. apply wps_bind, wps_modify, wps_bind.
      eapply wps_the_loop; [done|].
      apply wps_bind, wps_int_of; [pose proof (pfds_bound _ _ _ _ W); cbn; unfold FD_LIMIT, INT_MAX in *; lia|].
      apply wps_bind, wps_modify, wps_ret.
      match goal with |- _ /\ _ /\ ploop_inv n ?s1 m /\ _ => assert (punregistered p o s s1) as HR end.
      { split_and!; [cbn; by rewrite insert_insert_eq|done|]. by exists lp, h. }
      split_and!; [done|done| |unfold array_of; cbn; by rewrite El|done|done].
      eapply punregistered_inv; [done|done|exact HR|]. by intros lp1 [= <-]. }
    apply wps_bind. case_bool.
    + assert (with_dupfd o (-1) = o) as Ho1 by (destruct o; cbn in *; by subst).
      apply wps_ret. specialize (Hend (ps_kern s)). rewrite Ho1, insert_id in Hend by done. exact Hend.
    + apply wps_bind, wps_pcall, wps_modify. apply Hend.
Qed.

Lemma wps_pupdate n p o s w m (Q : Z -> pstate K U -> world -> mem -> Prop) :
  ploop_inv n s m -> ps_fds s !! p = Some o -> Q (- ENOENT) s w m -> wps (obus_loop_update p) Q s w m.
Proof.
  intros (lp & El & W) Ho HQ. unfold obus_loop_update. apply wps_bind. eapply wps_the_fd; [done|].
  apply wps_bind. eapply wps_the_loop; [done|]. apply wps_bind, wps_mem.
  apply wp_reg_lookup; [apply W| |]; intros; cbn; by apply wps_ret.
Qed.

(** ** The array of [poll] *)

(** The entry of the array for an entry of the table. *)
Definition fd_entry (fds : gmap positive obus_fd) (e : obus_hash_entry positive) : pollfd :=
  PollFd (i32 (e_key e))
    (match fds !! e_data e with Some o => fd_to_poll_events (fd_events o) | None => 0 end) 0.

Lemma wps_fill_fds entries size i a s w m (Q : Z * list (option pollfd) -> pstate K U -> world -> mem -> Prop) :
  Forall (fun e => is_Some (ps_fds s !! e_data e)) entries -> 0 <= i <= size -> size <= Z.of_nat (length a) ->
  (let n := Z.min size (i + Z.of_nat (length entries)) in
   Q (n, take (Z.to_nat i) a ++ map Some (map (fd_entry (ps_fds s)) (take (Z.to_nat (size - i)) entries))
           ++ drop (Z.to_nat n) a) s w m) ->
  wps (fill_fds entries size i a) Q s w m.
Proof.
  intros HF. revert i a. induction HF as [|e entries [o Ho] HF IH]; intros i a Hi Ha HQ; cbn [fill_fds].
  - cbn [length] in HQ. replace (Z.min size (i + Z.of_nat 0)) with i in HQ by lia.
    rewrite take_nil in HQ. cbn [map app] in HQ. rewrite take_drop in HQ. by apply wps_ret.
  - destruct (Z.ltb_spec i size) as [Hlt|Hge].
    + apply wps_bind. eapply wps_the_fd; [done|].
      destruct (Nat.ltb_spec (Z.to_nat i) (length a)); [|lia].
      apply IH; [lia|by rewrite length_insert|]. cbv zeta in HQ |- *. cbn [length] in HQ.
      replace (Z.min size (i + 1 + Z.of_nat (length entries))) with (Z.min size (i + Z.of_nat (S (length entries)))) by lia.
      set (n := Z.min size (i + Z.of_nat (S (length entries)))) in *.
      replace (Z.to_nat (i + 1)) with (S (Z.to_nat i)) by lia. rewrite take_S_insert by done.
      rewrite drop_insert_lt by lia. rewrite <- app_assoc. cbn [app].
      replace (Z.to_nat (size - i)) with (S (Z.to_nat (size - (i + 1)))) in HQ by lia. cbn [take map app] in HQ.
      unfold fd_entry at 1 in HQ. by rewrite Ho in HQ.
    + assert (i = size) as -> by lia. apply IH; [lia|done|]. cbv zeta in HQ |- *.
      rewrite Z.min_l in HQ |- * by lia. rewrite Z.sub_diag in HQ |- *. exact HQ.
Qed.

(** The objects of the table, in its order; what is left of the array is kept. *)
Lemma wps_get_fds n a size s w m (Q : Z * option (list (option pollfd)) -> pstate K U -> world -> mem -> Prop) :
  ploop_inv n s m -> 0 <= size <= Z.of_nat (length (default [] a)) ->
  (a = None \/ size = 0 -> Q (- EINVAL, a) s w m) ->
  (forall lp l, ps_loop s = Some lp -> a = Some l -> 0 < size ->
     let entries := map (fd_entry (ps_fds s)) (take (Z.to_nat size) (h_entries (pl_ofds lp))) in
     Q (Z.of_nat (length entries), Some (map Some entries ++ drop (length entries) l)) s w m) ->
  wps (obus_loop_posix_get_fds a size) Q s w m.
Proof.
  intros (lp & El & W) Hs H1 H2. unfold obus_loop_posix_get_fds. destruct a as [l|]; [|apply wps_ret, H1; by left].
  destruct (Z.eqb_spec size 0) as [->|Hne]; [apply wps_ret, H1; by right|]. apply wps_bind. eapply wps_the_loop; [done|].
  apply wps_bind, wps_fill_fds; [|lia|cbn in Hs; lia|].
  - apply Forall_forall. intros e He. assert (reg (pl_ofds lp) !! e_key e = Some (e_data e)) as Hr.
    { eapply reg_lookup; [apply W|]. by exists e. }
    destruct (pw_listed _ _ _ _ W _ _ Hr) as (_ & o & Ho & _). by eexists.
  - cbv zeta. apply wps_ret. specialize (H2 lp l El eq_refl ltac:(lia)). cbv zeta in H2.
    rewrite length_map, length_take in H2. cbn [Z.to_nat take app]. rewrite Z.sub_0_r.
    replace (Z.min size (0 + Z.of_nat (length (h_entries (pl_ofds lp)))))
      with (Z.of_nat (Z.to_nat size `min` length (h_entries (pl_ofds lp)))) by lia.
    by rewrite Nat2Z.id.
Qed.
End Inv.

(** ** Processing *)

(** [I n s m] is what the application maintains, with [n] references of the loop of
    its own: it implies [ploop_inv], and it depends on the kernel, the array and the
    count of references through it only. *)
Class LawfulPosix {K U : Type} {PK : PollKernel K} (PC : PosixCode K U)
    (I : Z -> pstate K U -> mem -> Prop) : Prop := {
  plawful_inv : forall n s m, I n s m -> ploop_inv n s m;
  plawful_step : forall n n' s k m m' lp lp',
    I n s m -> ps_loop s = Some lp -> ploop_inv n' (with_loop (with_kern s k) (Some lp')) m' ->
    pl_ofds lp' = pl_ofds lp -> pl_ref lp' - n' = pl_ref lp - n -> (m_count m <= m_count m')%nat ->
    I n' (with_loop (with_kern s k) (Some lp')) m';
  plawful_callback : forall n s w m p o events,
    1 <= n -> I n s m -> ps_fds s !! p = Some o -> fd_loop o = true ->
    wps (poll_callback (fd_cb o) p events (fd_data o))
        (fun _ s' _ m' => I n s' m' /\ array_of s' = array_of s) s w m
}.

(** A walk that makes progress ends. *)
Lemma wps_turns {S A B : Type} n (body : A -> StW S (A + B)) (I : A -> S -> world -> mem -> Prop) (f : A -> Z)
    (Q : B -> S -> world -> mem -> Prop) a s w m :
  (forall a s w m, I a s w m ->
     wps (body a) (fun r s' w' m' => match r with inl a' => I a' s' w' m' /\ f a' < f a | inr b => Q b s' w' m' end) s w m) ->
  I a s w m ->
  wps (turns n body a) (fun r s' w' m' =>
    match r with inl a' => I a' s' w' m' /\ f a' <= f a - 2 ^ Z.of_nat n | inr b => Q b s' w' m' end) s w m.
Proof.
  intros Hb. revert a s w m. induction n as [|n IH]; intros a s w m HI.
  - eapply wps_mono; [by apply Hb|]. intros [a'|b] s' w' m'; [|done]. intros [? ?]. split; [done|]. cbn. lia.
  - cbn [turns]. apply wps_bind. eapply wps_mono; [by apply IH|]. intros [a1|b] s1 w1 m1; [|intros; by apply wps_ret].
    intros [I1 H1]. eapply wps_mono; [by apply IH|]. intros [a2|b] s2 w2 m2; [|done]. intros [I2 H2]. split; [done|].
    rewrite Nat2Z.inj_succ, Z.pow_succ_r by lia. lia.
Qed.

Lemma n_ready_app l l' : n_ready (l ++ l') = n_ready l + n_ready l'.
Proof. unfold n_ready. rewrite filter_app, length_app. lia. Qed.

Lemma n_ready_next l (i : nat) pfd :
  l !! i = Some pfd -> n_ready (take (S i) l) = n_ready (take i l) + if pfd_revents pfd =? 0 then 0 else 1.
Proof.
  intros H. rewrite (take_S_r _ _ _ H), n_ready_app. f_equal. unfold n_ready. cbn [filter list_filter].
  destruct (Z.eqb_spec (pfd_revents pfd) 0); case_decide; [done|done|done|lia].
Qed.

Section Process.
Context {K U : Type} {PK : PollKernel K} {LP : LawfulPoll K} {AL : Allocator} {PC : PosixCode K U}.
Context {I : Z -> pstate K U -> mem -> Prop} {LL : LawfulPosix PC I}.
Implicit Types (s : pstate K U) (w : world) (m : mem).

Lemma I_ploop n n' s m m' lp lp' :
  I n s m -> ps_loop s = Some lp -> ploop_inv n' (with_loop s (Some lp')) m' -> pl_ofds lp' = pl_ofds lp ->
  pl_ref lp' - n' = pl_ref lp - n -> (m_count m <= m_count m')%nat -> I n' (with_loop s (Some lp')) m'.
Proof. destruct s as [k l f u]. intros H1 H2 H3 H4 H5 H6. by apply (plawful_step n n' (PState k l f u) k m m' lp lp'). Qed.

Lemma pl_wf_array n fds m lp a k :
  pl_wf n fds m lp -> Z.of_nat (length (default [] a)) = k -> pl_wf n fds m (with_array lp a k).
Proof. intros [] H. by constructor. Qed.

Lemma wps_grow_array n s w m :
  I n s m ->
  wps grow_array (fun ret s' _ m' => I n s' m' /\ (m_count m <= m_count m')%nat /\
    (ret = - ENOMEM \/ ret = 0 /\ forall lp, ps_loop s' = Some lp -> pl_nfds lp <= pl_nallocevents lp)) s w m.
Proof.
  intros HI. pose proof (plawful_inv _ _ _ HI) as (lp & El & W). unfold grow_array. apply wps_bind.
  eapply wps_the_loop; [done|]. destruct (Z.ltb_spec (pl_nallocevents lp) (pl_nfds lp)) as [Hlt|Hge].
  2:{ apply wps_ret. split_and!; [done|done|right; split; [done|]]. intros lp1. rewrite El. by intros [= <-]. }
  apply wps_bind, wps_mem, wp_alloc.
  2:{ intros k m' (_ & _ & Hm) _. apply wps_ret. split_and!; [|done|by left].
      rewrite <- (state_eta s lp) by done. apply (I_ploop n n s m m' lp); try done.
      exists lp. split; [done|]. by eapply pl_wf_later. }
  intros k m' (_ & _ & Hm) _. pose proof (pfds_bound _ _ _ _ W) as Hb. pose proof (pw_array _ _ _ _ W) as Ha.
  unfold EXTRA_ALLOC_EVENT_NB. apply wps_bind, wps_int_of; [unfold FD_LIMIT, INT_MAX in *; lia|].
  cbv zeta. apply wps_bind, wps_modify, wps_ret. split_and!; [|done|right; split; [done|intros lp1 [= <-]; cbn; lia]].
  apply (I_ploop n n s m m' lp); [done|done| |done..]. eexists. split; [done|].
  apply pl_wf_array; [by eapply pl_wf_later|]. cbn [from_option id]. rewrite length_app, length_replicate. lia.
Qed.

(** The array holds the entries of the table, and is long enough. *)
Definition array_filled s : Prop :=
  exists lp fds rest, ps_loop s = Some lp /\ pl_pfds lp = Some (map Some fds ++ rest) /\
    Z.of_nat (length fds) = pl_nfds lp /\ fds = map (fd_entry (ps_fds s)) (h_entries (pl_ofds lp)).

Lemma wps_fill_array n s w m :
  I n s m -> (forall lp, ps_loop s = Some lp -> pl_nfds lp <= pl_nallocevents lp) ->
  wps fill_array (fun ret s' w' m' => w' = w /\ m' = m /\ I n s' m /\ (ret = - EINVAL \/ 0 < ret /\ array_filled s')) s w m.
Proof.
  intros HI Hroom. pose proof (plawful_inv _ _ _ HI) as HP. pose proof HP as (lp & El & W). specialize (Hroom lp El).
  pose proof (pw_array _ _ _ _ W) as Ha. pose proof (pfds_bound _ _ _ _ W) as Hb.
  assert (forall a, length (default [] a) = length (default [] (pl_pfds lp)) ->
    I n (with_loop s (Some (with_array lp a (pl_nallocevents lp)))) m) as Hstep.
  { intros a Hl. apply (I_ploop n n s m m lp); try done. eexists. split; [done|]. apply pl_wf_array; [done|lia]. }
  unfold fill_array. apply wps_bind. eapply wps_the_loop; [done|]. apply wps_bind.
  apply (wps_get_fds n); [done|lia|..].
  - intros _. apply wps_bind, wps_modify, wps_ret. split_and!; [done|done|by apply Hstep|by left].
  - intros lp1 l El1 Hl Hpos entries. rewrite El in El1. injection El1 as <-.
    pose proof (table_length _ _ (pw_table _ _ _ _ W)) as Ht. pose proof (pw_nfds _ _ _ _ W) as Hn.
    assert (entries = map (fd_entry (ps_fds s)) (h_entries (pl_ofds lp))) as He by (unfold entries; by rewrite take_ge by lia).
    assert (length entries = size (reg (pl_ofds lp))) as Hlen by (by rewrite He, length_map).
    apply wps_bind, wps_modify, wps_ret. rewrite Hl in Ha. cbn in Ha. split_and!; [done|done| |right; split; [lia|]].
    + apply Hstep. rewrite Hl. cbn. rewrite length_app, length_map, length_drop. lia.
    + eexists _, entries, _. split_and!; [done|done|cbn; lia|exact He].
Qed.

Lemma poll_eintr_spec fuel fds t k :
  (k_interrupts k < fuel)%nat ->
  exists r k', poll_eintr fuel fds t k = (Some r, k') /\
    match r with inl l => length l = length fds | inr e => 0 < e end.
Proof.
  revert k. induction fuel as [|fuel IH]; intros k Hf; [lia|]. cbn [poll_eintr]. unfold mbind, KM_bind.
  destruct (sys_poll fds t k) as [[l|e] k1] eqn:E.
  - exists (inl l), k1. split; [done|]. by eapply poll_length.
  - destruct (Z.eqb_spec e EINTR) as [->|Hne].
    + apply poll_interrupts in E. apply IH. lia.
    + exists (inr e), k1. split; [done|]. by eapply poll_errno.
Qed.

Lemma mapM_determinate {A} (l : list A) : mapM id (map Some l) = Some l.
Proof. apply mapM_Some. induction l; by constructor. Qed.

(** What [poll] reported is at the front of the array. *)
Definition array_polled s (ret : Z) : Prop :=
  exists polled rest, array_of s = Some (Some (map Some polled ++ rest)) /\ ret = n_ready polled.

Lemma wps_poll_array n t s w m :
  I n s m -> array_filled s ->
  wps (poll_array t) (fun ret s' w' m' => w' = w /\ m' = m /\ I n s' m /\ (ret < 0 \/ array_polled s' ret)) s w m.
Proof.
  intros HI (lp & fds & rest & El & Ea & Hn & _). pose proof (plawful_inv _ _ _ HI) as (lp1 & El1 & W).
  rewrite El in El1. injection El1 as <-. unfold poll_array. apply wps_bind. eapply wps_the_loop; [done|].
  cbv zeta. rewrite Ea. cbn [from_option id]. apply wps_bind, wps_mem. replace (Z.to_nat (pl_nfds lp)) with (length fds) by lia.
  rewrite take_app_length' by (by rewrite length_map). eapply wp_lift; [apply mapM_determinate|].
  rewrite Hn, Z.eqb_refl. cbn [negb]. apply wps_bind, wps_pcall.
  destruct (poll_eintr_spec (S (k_interrupts (ps_kern s))) fds t (ps_kern s)) as (r & k1 & Er & Hr); [lia|].
  rewrite Er. cbn [fst snd].
  assert (forall a, length a = length (map Some fds ++ rest) ->
    I n (with_loop (with_kern s k1) (Some (with_array lp (Some a) (pl_nallocevents lp)))) m) as Hstep.
  { intros a Hl. apply (plawful_step n n s k1 m m lp); try done. eexists. split; [done|]. apply pl_wf_array; [done|].
    pose proof (pw_array _ _ _ _ W) as Ha. rewrite Ea in Ha. cbn in *. congruence. }
  destruct r as [l|e].
  - rewrite Hr, Nat.eqb_refl. cbn [negb]. apply wps_bind, wps_modify, wps_ret. split_and!; [done|done| |right].
    + apply Hstep. rewrite !length_app, length_drop, length_app, !length_map, length_zip_with. lia.
    + unfold array_polled, array_of. cbn. by do 2 eexists.
  - apply wps_ret. split_and!; [done|done| |left; lia]. specialize (Hstep _ eq_refl).
    rewrite <- Ea in Hstep. replace (with_array lp (pl_pfds lp) (pl_nallocevents lp)) with lp in Hstep by (by destruct lp).
    by rewrite state_eta in Hstep.
Qed.

Lemma wps_process_fd n pfd s w m :
  1 <= n -> I n s m ->
  wps (obus_loop_posix_process_fd pfd) (fun _ s' _ m' => I n s' m' /\ array_of s' = array_of s) s w m.
Proof.
  intros Hn HI. pose proof (plawful_inv _ _ _ HI) as (lp & El & W). unfold obus_loop_posix_process_fd.
  case_bool; [by apply wps_ret|]. apply wps_bind. eapply wps_the_loop; [done|].
  apply wps_bind, wps_mem, wp_reg_lookup; [apply W| |].
  - intros p Hp. cbn [failed Z.ltb Z.compare]. apply wps_bind, wps_mem. eapply wp_lift; [done|].
    destruct (pw_listed _ _ _ _ W _ _ Hp) as (_ & o & Ho & Hl & Hc & _). apply wps_bind. eapply wps_the_fd; [done|].
    rewrite (proj2 (Z.eqb_neq _ _) Hc). apply wps_bind. eapply wps_mono; [by apply plawful_callback|].
    intros [] s1 w1 m1 H. by apply wps_ret.
  - intros _. cbn. by apply wps_ret.
Qed.

(** The walk reads the entries that have been polled only: when the ready ones have
    been counted, it stops. *)
Lemma wps_poll_dispatch n polled rest s w m :
  1 <= n -> I n s m -> array_of s = Some (Some (map Some polled ++ rest)) ->
  wps (dispatch (n_ready polled)) (fun _ s' _ m' => I n s' m' /\ array_of s' = array_of s) s w m.
Proof.
  intros Hn HI Ea. unfold dispatch. apply wps_bind.
  set (Inv := fun (ij : Z * Z) s1 (_ : world) m1 => I n s1 m1 /\ array_of s1 = array_of s /\ 0 <= ij.1 <= FD_LIMIT /\
    ij.2 = n_ready (take (Z.to_nat ij.1) polled)).
  eapply wps_mono; [apply (wps_turns 31 (serve_turn (n_ready polled)) Inv (fun ij => - ij.1)
    (fun _ s' _ m' => I n s' m' /\ array_of s' = array_of s))|].
  - intros [i j] s1 w1 m1 (I1 & A1 & Hi & Hj). cbn [fst snd] in *. unfold serve_turn.
    pose proof (plawful_inv _ _ _ I1) as (lp & El & W). apply wps_bind. eapply wps_the_loop; [done|].
    destruct (Z.ltb_spec i (pl_nfds lp)), (Z.ltb_spec j (n_ready polled)); cbn [andb negb]; try by apply wps_ret.
    assert (Z.to_nat i < length polled)%nat as Hlt.
    { destruct (decide (Z.to_nat i < length polled)%nat); [done|]. rewrite take_ge in Hj by lia. lia. }
    destruct (lookup_lt_is_Some_2 polled _ Hlt) as [pfd Hp].
    assert (pl_pfds lp = Some (map Some polled ++ rest)) as Ep.
    { rewrite Ea in A1. unfold array_of in A1. rewrite El in A1. by injection A1. }
    apply wps_bind, wps_mem. rewrite Ep. cbn [from_option id].
    rewrite (lookup_app_l_Some _ _ _ (Some pfd)) by (by rewrite list_lookup_fmap, Hp). eapply wp_lift; [done|].
    pose proof (n_ready_next _ _ _ Hp) as Hnext. replace (S (Z.to_nat i)) with (Z.to_nat (i + 1)) in Hnext by lia.
    pose proof (pfds_bound _ _ _ _ W) as Hb.
    destruct (Z.eqb_spec (pfd_revents pfd) 0) as [Hz|Hz].
    + apply wps_ret. split; [|cbn; lia]. split_and!; [done|done|cbn; lia|cbn; lia|cbn [fst snd]; lia].
    + apply wps_bind. assert (forall c : PM K U unit,
        wps c (fun _ s' _ m' => I n s' m' /\ array_of s' = array_of s1) s1 w1 m1 ->
        wps c (fun _ s' w' m' => wps (mret (inl (i + 1, j + 1) : (Z * Z) + unit)) (fun r s' w' m' =>
          match r with inl a' => Inv a' s' w' m' /\ - a'.1 < - i
          | inr _ => I n s' m' /\ array_of s' = array_of s end) s' w' m') s1 w1 m1) as Hc.
      { intros c H1. eapply wps_mono; [exact H1|]. intros [] s2 w2 m2 [I2 A2]. apply wps_ret. split; [|cbn; lia].
        split_and!; [done|congruence|cbn; lia|cbn; lia|cbn [fst snd]; lia]. }
      apply Hc. case_bool; [by apply wps_ret|]. apply wps_bind. eapply wps_mono; [by apply (wps_process_fd n)|].
      intros r s2 w2 m2 H2. by apply wps_ret.
  - split_and!; [done|done|cbn; unfold FD_LIMIT; lia|cbn; unfold FD_LIMIT; lia|done].
  - intros [[i j]|[]] s' w' m'; [|intros H; by apply wps_ret]. intros ((_ & _ & Hi & _) & Hf).
    cbn in Hi, Hf. unfold FD_LIMIT in Hi. lia.
Qed.

(** Processing is defined whatever [poll] reports and the callbacks do. *)
Lemma wps_poll_process n t s w m :
  1 <= n -> I n s m ->
  wps (obus_loop_do_process t) (fun ret s' _ m' => ret <= 0 /\ I n s' m') s w m.
Proof.
  intros Hn HI. unfold obus_loop_do_process. apply wps_bind. eapply wps_mono; [by apply (wps_grow_array n)|].
  intros ret s1 w1 m1 (I1 & _ & [->|[-> Hroom]]); [by apply wps_ret|]. cbn [failed Z.ltb Z.compare].
  apply wps_bind. eapply wps_mono; [by apply (wps_fill_array n)|].
  intros ret s2 w2 m2 (-> & -> & I2 & [->|[Hr Hfill]]); [by apply wps_ret|].
  unfold failed at 1. rewrite (proj2 (Z.ltb_ge _ _)) by lia.
  apply wps_bind. eapply wps_mono; [by apply (wps_poll_array n)|].
  intros ret3 s3 w3 m3 (-> & -> & I3 & H3). destruct (failed ret3) eqn:Hf.
  { apply failed_spec in Hf. apply wps_ret. split; [lia|done]. }
  destruct H3 as [Hneg|(polled & rest & Ea & ->)]; [apply failed_spec in Hneg; congruence|].
  case_bool; [by apply wps_ret|]. apply wps_bind. eapply wps_pref; [by apply plawful_inv|].
  intros lp El s4 I4. apply (I_ploop n (n + 1) s3 m1 m1 lp) in I4; [|done|done|done|cbn; lia|done].
  apply wps_bind. eapply wps_mono; [apply (wps_poll_dispatch (n + 1) polled rest); [lia|done|]|].
  { rewrite <- Ea. unfold array_of. cbn. by rewrite El. }
  intros [] s5 w5 m5 [I5 _]. apply wps_bind. eapply wps_punref; [by apply plawful_inv|done|].
  intros lp5 El5 s6 I6. apply wps_ret. split; [lia|]. apply (I_ploop (n + 1) n s5 m5 m5 lp5); try done. cbn. lia.
Qed.
End Process.

(** ** A new loop *)

Lemma ploop_new_inv {K U : Type} {AL : Allocator} m lp m' k (u : U) :
  obus_loop_new m = Some (Some lp, m') -> ploop_inv (K := K) 1 (PState k (Some lp) ∅ u) m'.
Proof.
  unfold obus_loop_new, m_alloc, mbind, M_bind. destruct (malloc_ok (m_count m) LOOP_SIZE); [|done].
  match goal with |- context [obus_hash_init _ _ ?m1] => set (m0 := m1) end.
  assert (wp (obus_hash_init (D := positive) HomeMalloc OBUS_LOOP_HASH_SIZE) (fun r m' => forall h, r.2 = Some h ->
    hash_wf h m' /\ h_entries h = []) m0) as (r & m1 & E & H).
  { apply wp_hash_init; [done|by intros h m1 _ _ W He _ h' [= <-]|done]. }
  rewrite E. destruct r as [ret [h|]]; [|by destruct (failed ret)]. destruct (failed ret); [done|].
  intros [= <- <-]. destruct (H h eq_refl) as [W He]. eexists. split; [done|].
  assert (reg h = ∅) as Hreg by (unfold reg; by rewrite He).
  constructor; cbn; rewrite ?Hreg; try done. split; [done|]. by rewrite He.
Qed.
