(* ===== verification/LoopPosixRun.v ===== *)
(** * The loop over poll: reachable states, and where it goes wrong

    The operations an application makes on a loop and on its objects, with their
    callbacks, and the theorems on all their sequences.  [poll_op_allowed] says
    which operations a state allows.  What it leaves out has no answer in the
    code: an object that does not exist, one that is freed or initialised again
    while it is registered, the removal of an object that is not registered while
    its descriptor is in the table ([remove_unused_takes_other]), and descriptors
    that leave an [int] no room for their count; and so does a turn of the loop in
    a callback ([nested_turn_reads_unwritten]). *)
From S2P Require Import Prelude Mem World Bus Handler Hash Utils Loop LoopFacts LoopPosix LoopPosixFacts.

Inductive poll_op :=
| PollInit (p : positive) (fd events cb data : Z)
| PollReset (p : positive)
| PollFree (p : positive)
| PollAdd (p : positive)
| PollUpdate (p : positive)
| PollRemove (p : positive)
| PollHold                                   (* obus_loop_ref *)
| PollFds (size : nat)                       (* obus_loop_posix_get_fds, on a new array *)
| PollServe (pfd : pollfd).                  (* obus_loop_posix_process_fd *)

Section Run.
Context {K U : Type} {PK : PollKernel K} {AL : Allocator}.

(** A registered object, or one whose descriptor is not in the table. *)
Definition may_remove (s : pstate K U) (o : obus_fd) : bool :=
  fd_loop o ||
  match ps_loop s with
  | Some lp => bool_decide (reg (pl_ofds lp) !! u32 (watched_fd o) = None)
  | None => false
  end.

Definition poll_op_allowed (s : pstate K U) (op : poll_op) : bool :=
  match op with
  | PollInit p _ _ _ _ => match ps_fds s !! p with Some o => obus_fd_is_used o =? 0 | None => true end
  | PollReset p | PollUpdate p => match ps_fds s !! p with Some _ => true | None => false end
  | PollFree p => match ps_fds s !! p with Some o => obus_fd_is_used o =? 0 | None => false end
  | PollAdd p => match ps_fds s !! p with Some o => fd_fd o <? FD_LIMIT | None => false end
  | PollRemove p => match ps_fds s !! p with Some o => may_remove s o | None => false end
  | PollHold | PollFds _ | PollServe _ => true
  end.

Definition run_poll_op {PC : PosixCode K U} (op : poll_op) : PM K U unit :=
  match op with
  | PollInit p fd events cb data => put_fd p (obus_fd_init fd events cb data)
  | PollReset p => o ← the_fd p; put_fd p (snd (obus_fd_reset o))
  | PollFree p => sv_modify (fun s => with_fds s (delete p (ps_fds s)))
  | PollAdd p => _ ← obus_loop_add p; mret tt
  | PollUpdate p => _ ← obus_loop_update p; mret tt
  | PollRemove p => _ ← obus_loop_remove p; mret tt
  | PollHold => obus_loop_ref
  | PollFds size => _ ← obus_loop_posix_get_fds (Some (replicate size None)) (Z.of_nat size); mret tt
  | PollServe pfd => _ ← obus_loop_posix_process_fd pfd; mret tt
  end.

(** An application that makes the operations the state allows. *)
Definition allowed_poll_op {PC : PosixCode K U} (op : poll_op) : PM K U unit :=
  s ← sv_gets id; if poll_op_allowed s op : bool then run_poll_op op else mret tt.

Fixpoint run_poll_ops {PC : PosixCode K U} (l : list poll_op) : PM K U unit :=
  match l with
  | [] => mret tt
  | op :: l' => allowed_poll_op op;; run_poll_ops l'
  end.

(** A callback runs the script of its address and of its object; the callbacks
    made meanwhile run theirs, down to [n] inside each other. *)
Fixpoint scripted_poll (script : Z -> positive -> list poll_op) (n : nat) : PosixCode K U :=
  match n with
  | O => fun _ _ _ _ => mret tt
  | S n' => fun cb p _ _ => run_poll_ops (PC := scripted_poll script n') (script cb p)
  end.
End Run.

Section Safe.
Context {K U : Type} {PK : PollKernel K} {LP : LawfulPoll K} {AL : Allocator}.
Implicit Types (s : pstate K U) (w : world) (m : mem).

(** Objects that are not in the loop may change freely. *)
Lemma unused_inv n s m p fds :
  ploop_inv n s m -> (forall o, ps_fds s !! p = Some o -> fd_loop o = false) ->
  (forall q, q <> p -> fds !! q = ps_fds s !! q) ->
  (forall o, fds !! p = Some o -> fd_loop o = false /\ fd_dupfd o = -1) ->
  ploop_inv n (with_fds s fds) m /\ array_of (with_fds s fds) = array_of s.
Proof.
  intros (lp & El & W) Hp Hq Hnew. split; [|done]. exists lp. split; [done|]. cbn.
  destruct W as [W1 W2 W3 W4 W5 W6 W7]. constructor; try done.
  - intros k q Hk. destruct (W3 k q Hk) as (Hr & o & Ho & Hl & H). split; [done|]. exists o. split; [|done].
    rewrite Hq; [done|]. intros ->. apply Hp in Ho. congruence.
  - intros q o Ho Hl. destruct (decide (q = p)) as [->|Hn]; [apply Hnew in Ho; by destruct Ho; congruence|].
    rewrite Hq in Ho by done. by eapply W4.
  - intros q o Ho Hl. destruct (decide (q = p)) as [->|Hn]; [by apply Hnew in Ho as [_ ?]|].
    rewrite Hq in Ho by done. by eapply W5.
Qed.

Lemma may_remove_ok p s o : may_remove s o = true -> premove_ok p o s.
Proof.
  unfold may_remove. intros [?|H]%orb_true_iff; [by left|right]. intros lp El. rewrite El in H.
  by apply bool_decide_eq_true in H.
Qed.

Context {PC : PosixCode K U} {LL : LawfulPosix PC ploop_inv}.

(** What an operation leaves: the invariant and the array. *)
Lemma wps_poll_op n op s w m :
  1 <= n -> ploop_inv n s m -> poll_op_allowed s op = true ->
  wps (run_poll_op op) (fun _ s' _ m' => ploop_inv n s' m' /\ array_of s' = array_of s) s w m.
Proof.
  intros Hn I. destruct op as [p fd ev cb d|p|p|p|p|p| |sz|pfd]; cbn [run_poll_op poll_op_allowed].
  - unfold obus_fd_is_used. intros Ha. apply wps_modify, (unused_inv n s m p); [done| | |].
    + intros o Ho. rewrite Ho in Ha. by destruct (fd_loop o).
    + intros q Hq. by rewrite lookup_insert_ne.
    + intros o'. rewrite lookup_insert_eq. by intros [= <-].
  - destruct (ps_fds s !! p) as [o|] eqn:Ho; [intros _|done]. apply wps_bind. eapply wps_the_fd; [done|].
    unfold obus_fd_reset. destruct (fd_loop o) eqn:Hl; apply wps_modify.
    + cbn [snd]. by rewrite fds_same.
    + apply (unused_inv n s m p); [done|congruence|intros q Hq; by rewrite lookup_insert_ne|].
      intros o'. rewrite lookup_insert_eq. by intros [= <-].
  - unfold obus_fd_is_used. destruct (ps_fds s !! p) as [o|] eqn:Ho; [|done]. intros Ha.
    apply wps_modify, (unused_inv n s m p); [done| | |].
    + intros o' Ho'. rewrite Ho in Ho'. injection Ho' as <-. by destruct (fd_loop o).
    + intros q Hq. by rewrite lookup_delete_ne.
    + intros o'. by rewrite lookup_delete_eq.
  - destruct (ps_fds s !! p) as [o|] eqn:Ho; [intros Hlt%Z.ltb_lt|done].
    apply wps_bind. eapply wps_mono; [by apply (wps_padd n p o)|]. intros ret s' w' m' (_ & _ & I' & A' & _).
    by apply wps_ret.
  - destruct (ps_fds s !! p) as [o|] eqn:Ho; [intros _|done].
    apply wps_bind. eapply wps_pupdate; [done..|]. by apply wps_ret.
  - destruct (ps_fds s !! p) as [o|] eqn:Ho; [intros Hm|done].
    apply wps_bind. eapply wps_mono; [apply (wps_premove n p o); [done|done|by apply may_remove_ok]|].
    intros ret s' w' m' (_ & -> & I' & A' & _). by apply wps_ret.
  - intros _. eapply wps_pref; [done|]. intros lp El s' (lp' & El' & W'). split; [|unfold array_of; cbn; by rewrite El].
    exists lp'. split; [done|]. destruct W'. constructor; try done. lia.
  - intros _. apply wps_bind. apply (wps_get_fds n); [done|cbn; rewrite length_replicate; lia|..]; intros; by apply wps_ret.
  - intros _. apply wps_bind. eapply wps_mono; [by apply (wps_process_fd n)|]. intros ret s' w' m' H. by apply wps_ret.
Qed.

Lemma wps_allowed_poll_op n op s w m :
  1 <= n -> ploop_inv n s m ->
  wps (allowed_poll_op op) (fun _ s' _ m' => ploop_inv n s' m' /\ array_of s' = array_of s) s w m.
Proof.
  intros Hn I. apply wps_bind, wps_gets. destruct (poll_op_allowed (id s) op) eqn:Ha; [by apply wps_poll_op|by apply wps_ret].
Qed.

Lemma wps_poll_ops n ops s w m :
  1 <= n -> ploop_inv n s m ->
  wps (run_poll_ops ops) (fun _ s' _ m' => ploop_inv n s' m' /\ array_of s' = array_of s) s w m.
Proof.
  intros Hn. revert s w m. induction ops as [|op ops IH]; intros s w m I; cbn [run_poll_ops]; [by apply wps_ret|].
  apply wps_bind. eapply wps_mono; [by apply (wps_allowed_poll_op n)|]. intros [] s1 w1 m1 [I1 K1].
  eapply wps_mono; [by apply IH|]. intros [] s2 w2 m2 [I2 K2]. split; [done|congruence].
Qed.
End Safe.

#[export] Instance scripted_poll_lawful {K U} {PK : PollKernel K} {LP : LawfulPoll K} {AL : Allocator}
    script n : LawfulPosix (scripted_poll (K := K) (U := U) script n) ploop_inv.
Proof.
  induction n as [|n IH]; split; try done; intros r s w m p o ev Hr I Ho Hl; cbn.
  - by apply wps_ret.
  - by apply wps_poll_ops.
Qed.

(** ** Reachable states *)

Section Reach.
Context {K U : Type} {PK : PollKernel K} {LP : LawfulPoll K} {AL : Allocator}.
Context {PC : PosixCode K U} {LL : LawfulPosix PC ploop_inv}.
Implicit Types (s : pstate K U).

(** Turns of the loop come between the operations; a reference that has been taken
    is released, while another one is left; others allocate too. *)
Inductive poll_reachable : pstate K U -> mem -> Prop :=
| poll_new m lp m' k u : obus_loop_new m = Some (Some lp, m') -> poll_reachable (PState k (Some lp) ∅ u) m'
| poll_run op s w m s' w' m' :
    poll_reachable s m -> poll_op_allowed s op = true ->
    run_poll_op op s w m = Some ((tt, s'), w', m') -> poll_reachable s' m'
| poll_turn t s w m ret s' w' m' :
    poll_reachable s m -> obus_loop_do_process t s w m = Some ((ret, s'), w', m') -> poll_reachable s' m'
| poll_unref lp s w m r s' w' m' :
    poll_reachable s m -> ps_loop s = Some lp -> 2 <= pl_ref lp ->
    obus_loop_unref s w m = Some ((r, s'), w', m') -> poll_reachable s' m'
| poll_later s m m' : poll_reachable s m -> (m_count m <= m_count m')%nat -> poll_reachable s m'.

Lemma poll_reachable_inv s m : poll_reachable s m -> ploop_inv 1 s m.
Proof.
  assert (forall A (c : PM K U A) s w m a s' w' m', c s w m = Some ((a, s'), w', m') ->
    wps c (fun _ s' _ m' => ploop_inv 1 s' m') s w m -> ploop_inv 1 s' m') as Hrun.
  { intros A c s0 w m0 a s' w' m' E ([[a1 s1] w1] & m1 & E1 & H). rewrite E in E1. by injection E1 as <- <- <- <-. }
  induction 1 as [m lp m' k u H|op s w m s' w' m' _ IH Ha E|t s w m ret s' w' m' _ IH E
    |lp s w m r s' w' m' _ IH El Hr E|s m m' _ IH Hm].
  - by eapply ploop_new_inv.
  - eapply Hrun; [exact E|]. eapply wps_mono; [by apply (wps_poll_op 1)|]. by intros [] ? ? ? [? _].
  - eapply Hrun; [exact E|]. eapply wps_mono; [by apply (wps_poll_process 1)|]. by intros ? ? ? ? [_ ?].
  - eapply Hrun; [exact E|]. eapply (wps_punref 1); [|done|done].
    destruct IH as (lp1 & El1 & W). rewrite El in El1. injection El1 as <-. exists lp. split; [done|].
    destruct W. by constructor.
  - destruct IH as (lp & El & W). exists lp. split; [done|]. by eapply pl_wf_later.
Qed.

(** C32: the loop over poll keeps its records in agreement.  An application creates
    a loop, makes allowed operations on it and on its objects
    ([poll_op_allowed]: the objects exist; one that is registered is not initialised
    again, nor freed; one that is removed is registered, or has a descriptor that
    is not in the table, since the code would take another object out; descriptors
    are below 2^31 - 64), and runs turns, in whose callbacks it makes allowed
    operations too, but does not run the loop again.  Then every allowed operation is
    defined and every turn ends, with a kernel that interrupts and fails as it
    likes; and between two of them the table holds an object, under its descriptor or
    a duplicate, exactly when the object is marked as used, and the count is the
    number of entries. *)
Theorem poll_reachable_invariant s m :
  poll_reachable s m ->
  (forall op w, poll_op_allowed s op = true -> is_Some (run_poll_op op s w m)) /\
  (forall t w, is_Some (obus_loop_do_process t s w m)) /\
  exists lp, ps_loop s = Some lp /\ pl_nfds lp = Z.of_nat (size (reg (pl_ofds lp))) /\
    forall fd p, reg (pl_ofds lp) !! fd = Some p <->
      exists o, ps_fds s !! p = Some o /\ obus_fd_is_used o = 1 /\ watched_fd o = fd.
Proof.
  intros I%poll_reachable_inv. split_and!.
  - intros op w Ha. destruct (wps_poll_op 1 op s w m ltac:(lia) I Ha) as (r & m1 & E & _). rewrite E. by eexists.
  - intros t w. destruct (wps_poll_process 1 t s w m ltac:(lia) I) as (r & m1 & E & _). rewrite E. by eexists.
  - destruct I as (lp & El & W). exists lp. split_and!; [done|apply W|]. intros fd p. unfold obus_fd_is_used. split.
    + intros Hp. destruct (pw_listed _ _ _ _ W _ _ Hp) as (_ & o & Ho & Hl & _ & Hw). exists o. by rewrite Hl.
    + intros (o & Ho & Hu & <-). apply (pw_used _ _ _ _ W); [done|]. by destruct (fd_loop o).
Qed.

(** An object that is not registered and has the descriptor of one that is: its
    removal succeeds, and takes the other one out of the table.  The other stays
    marked as used, so that it cannot be added again. *)
Theorem remove_unused_takes_other s m p o lp q w :
  poll_reachable s m -> ps_fds s !! p = Some o -> obus_fd_is_used o = 0 ->
  ps_loop s = Some lp -> reg (pl_ofds lp) !! u32 (watched_fd o) = Some q ->
  wps (obus_loop_remove p) (fun ret s' _ _ => ret = 0 /\ q <> p /\
    (exists oq, ps_fds s' !! q = Some oq /\ obus_fd_is_used oq = 1) /\
    exists lp', ps_loop s' = Some lp' /\ pl_nfds lp' = pl_nfds lp - 1 /\
      forall fd, reg (pl_ofds lp') !! fd <> Some q) s w m.
Proof.
  intros (lp1 & El1 & W)%poll_reachable_inv Ho Hu El Hq. rewrite El in El1. injection El1 as <-.
  assert (fd_loop o = false) as Hl by (unfold obus_fd_is_used in Hu; by destruct (fd_loop o)).
  pose proof (pw_idle _ _ _ _ W _ _ Ho Hl) as Hd.
  destruct (pw_listed _ _ _ _ W _ _ Hq) as (_ & oq & Hoq & Hlq & _ & Hwq).
  assert (q <> p) as Hne by (intros ->; congruence).
  unfold obus_loop_remove. apply wps_bind. eapply wps_the_fd; [done|]. apply wps_bind.
  eapply wps_the_loop; [done|]. apply wps_bind, wps_mem. apply wp_reg_remove; [apply W|intros H; congruence|].
  intros h P _ Hreg. apply wps_bind, wps_modify. cbn [failed Z.ltb Z.compare]. apply wps_bind. rewrite Hd.
  apply wps_ret, wps_bind. eapply wps_the_fd; [done|]. apply wps_bind, wps_modify, wps_bind.
  eapply wps_the_loop; [done|].
  apply wps_bind, wps_int_of; [pose proof (pfds_bound _ _ _ _ W); cbn; unfold FD_LIMIT, INT_MAX in *; lia|].
  apply wps_bind, wps_modify, wps_ret. split_and!; [done|done| |].
  - exists oq. cbn. rewrite lookup_insert_ne by done. split; [done|]. unfold obus_fd_is_used. by rewrite Hlq.
  - eexists. split_and!; [done|done|]. cbn. intros fd. rewrite Hreg. intros [Hf Hin]%lookup_delete_Some.
    destruct (pw_listed _ _ _ _ W _ _ Hin) as (_ & oq' & Hoq' & _ & _ & Hw'). congruence.
Qed.
End Reach.

(** ** A small kernel, and runs *)

Module ToyPoll.

(** The number of descriptors made by dup, and the results of the next polls. *)
Record kernel := Kernel {
  yk_dups : nat;
  yk_script : list (list Z + positive)
}.

Definition dup_fd (fd : Z) (k : kernel) : sysret * kernel :=
  if (yk_dups k <? 100)%nat then (SysOk (100 + Z.of_nat (yk_dups k)), Kernel (S (yk_dups k)) (yk_script k))
  else (SysErr ENOMEM, k).

Definition no_data (fd n : Z) (k : kernel) : (list Z + Z) * kernel := (inr EAGAIN, k).

(** The [revents] of the script, 0 where it is too short. *)
Definition poll_fds (fds : list pollfd) (t : Z) (k : kernel) : (list Z + Z) * kernel :=
  match yk_script k with
  | [] => (inl (map (fun _ => 0) fds), k)
  | inl l :: script => (inl (resize (length fds) 0 l), Kernel (yk_dups k) script)
  | inr e :: script => (inr (Z.pos e), Kernel (yk_dups k) script)
  end.

Lemma no_data_interrupts fd n k k' :
  no_data fd n k = (inr EINTR, k') -> (length (yk_script k') < length (yk_script k))%nat.
Proof. done. Qed.

Lemma poll_fds_interrupts fds t k k' :
  poll_fds fds t k = (inr EINTR, k') -> (length (yk_script k') < length (yk_script k))%nat.
Proof.
  unfold poll_fds. destruct (yk_script k) as [|[l|e] script]; [done..|]. intros [= _ <-]. cbn. lia.
Qed.

#[export] Instance toy_poll_fd : FdKernel kernel := {|
  sys_fcntl fd c a k := (SysOk 0, k);
  sys_dup := dup_fd;
  sys_close fd k := (SysOk 0, k);
  sys_open f k := (SysErr ENOENT, k);
  sys_read := no_data;
  k_interrupts k := length (yk_script k);
  read_interrupts := no_data_interrupts
|}.

#[export] Instance toy_poll : PollKernel kernel := {|
  sys_poll := poll_fds;
  poll_interrupts := poll_fds_interrupts
|}.

#[export] Instance toy_poll_lawful : LawfulPoll kernel.
Proof.
  split; cbn.
  - intros fd k v k'. unfold dup_fd. destruct (Nat.ltb_spec (yk_dups k) 100); intros [= <- _]. unfold FD_LIMIT. lia.
  - intros fd k e k'. unfold dup_fd. destruct (_ <? _)%nat; by intros [= <- _].
  - intros fds t k l k'. unfold poll_fds. destruct (yk_script k) as [|[]]; intros [= <- _]; [apply length_map|apply length_resize].
  - intros fds t k e k'. unfold poll_fds. destruct (yk_script k) as [|[]]; by intros [= <- _].
Defined.
End ToyPoll.

Section Witnesses.
#[local] Existing Instance ample_alloc.
#[local] Existing Instances ToyPoll.toy_poll_fd ToyPoll.toy_poll ToyPoll.toy_poll_lawful.
#[local] Notation ST := (pstate ToyPoll.kernel unit).

(** Two objects on descriptor 5, the second through a duplicate.  The callback of
    the first removes and frees it. *)
Definition poll_script (cb : Z) (p : positive) : list poll_op :=
  if decide (p = 1%positive) then [PollRemove 1; PollFree 1] else [PollFds 1; PollUpdate 2].
#[local] Instance poll_code : PosixCode ToyPoll.kernel unit := scripted_poll poll_script 1.
#[local] Instance poll_code_lawful : LawfulPosix poll_code ploop_inv := scripted_poll_lawful poll_script 1.

Definition poll_start : option (ST * mem) :=
  match obus_loop_new mem0 with
  | Some (Some lp, m) => Some (PState (ToyPoll.Kernel 0 [inr 4%positive; inl [1; 1]]) (Some lp) ∅ tt, m)
  | _ => None
  end.
Definition poll_step (r : option (ST * mem)) (op : poll_op) : option (ST * mem) :=
  '(s, m) ← r; match allowed_poll_op op s wit_world m with Some ((_, s'), _, m') => Some (s', m') | None => None end.

Definition poll_added : option (ST * mem) :=
  fold_left poll_step [PollInit 1 5 OBUS_FD_IN 7 0; PollAdd 1; PollInit 2 5 OBUS_FD_IN 8 0; PollAdd 2] poll_start.
Definition poll_processed : option (ST * mem) :=
  '(s, m) ← poll_added;
  match obus_loop_do_process 0 s wit_world m with Some ((_, s'), _, m') => Some (s', m') | None => None end.

Lemma poll_step_reachable r op x :
  (forall x, r = Some x -> poll_reachable x.1 x.2) -> poll_step r op = Some x -> poll_reachable x.1 x.2.
Proof.
  intros H. destruct r as [[s m]|]; [|done]. cbn.
  destruct (allowed_poll_op op s wit_world m) as [[[[[] s1] w1] m1]|] eqn:E; [|done]. intros [= <-].
  pose proof (H (s, m) eq_refl) as Hr. cbn in Hr |- *. unfold allowed_poll_op in E.
  erewrite run_bind in E by reflexivity. cbn [id] in E. destruct (poll_op_allowed s op) eqn:Ha.
  - by eapply poll_run.
  - by injection E as <- <- <-.
Qed.

Lemma poll_added_reachable x : poll_added = Some x -> poll_reachable x.1 x.2.
Proof.
  unfold poll_added. cbn [fold_left]. do 4 (apply poll_step_reachable; intros ?).
  unfold poll_start. destruct (obus_loop_new mem0) as [[[lp|] m]|] eqn:E; [|done..].
  intros [= <-]. by eapply poll_new.
Qed.

Lemma poll_processed_reachable x : poll_processed = Some x -> poll_reachable x.1 x.2.
Proof.
  unfold poll_processed. destruct poll_added as [[s m]|] eqn:E; [|done]. cbn.
  destruct (obus_loop_do_process 0 s wit_world m) as [[[[ret s1] w1] m1]|] eqn:E1; [|done]. intros [= <-].
  eapply poll_turn; [apply (poll_added_reachable (s, m) E)|exact E1].
Qed.

Lemma poll_reachable_invariant_witness :
  exists x lp, poll_processed = Some x /\ ps_loop x.1 = Some lp /\ pl_nfds lp = 1 /\
    reg (pl_ofds lp) !! 100 = Some 2%positive /\ is_Some (obus_loop_do_process 0 x.1 wit_world x.2).
Proof.
  destruct poll_processed as [x|] eqn:E; [|vm_compute in E; discriminate E].
  destruct (poll_reachable_invariant x.1 x.2 (poll_processed_reachable x E)) as (_ & Ht & lp & El & _ & Hr).
  assert (option_map pl_nfds (ps_loop x.1) = Some 1 /\
    option_map (fun o => (obus_fd_is_used o, watched_fd o)) (ps_fds x.1 !! 2%positive) = Some (1, 100)) as [H1 H2].
  { vm_compute in E. injection E as <-. split; vm_compute; reflexivity. }
  rewrite El in H1. injection H1 as H1. exists x, lp. split; [reflexivity|]. split; [exact El|]. split; [exact H1|].
  split; [|apply Ht]. apply Hr. destruct (ps_fds x.1 !! 2%positive) as [o|]; [|discriminate H2].
  injection H2 as Hu Hw. exists o. split; [reflexivity|]. split; [exact Hu|exact Hw].
Defined.

(** Three objects on descriptor 5, the last one not added. *)
Definition poll_third : option (ST * mem) := poll_step poll_added (PollInit 3 5 OBUS_FD_IN 8 0).

Lemma remove_unused_takes_other_witness :
  exists x, poll_third = Some x /\
    wps (obus_loop_remove 3) (fun ret s' _ _ => ret = 0 /\
      exists oq, ps_fds s' !! 1%positive = Some oq /\ obus_fd_is_used oq = 1) x.1 wit_world x.2.
Proof.
  destruct poll_third as [x|] eqn:E; [|vm_compute in E; discriminate E].
  assert (option_map (fun o => (obus_fd_is_used o, u32 (watched_fd o))) (ps_fds x.1 !! 3%positive) = Some (0, 5) /\
    option_map (fun lp => reg (pl_ofds lp) !! 5) (ps_loop x.1) = Some (Some 1%positive)) as [H1 H2].
  { vm_compute in E. injection E as <-. split; vm_compute; reflexivity. }
  assert (poll_reachable x.1 x.2) as Hr.
  { eapply poll_step_reachable; [|exact E]. apply poll_added_reachable. }
  destruct (ps_fds x.1 !! 3%positive) as [o|] eqn:Eo; [|discriminate H1]. injection H1 as Hu Hw.
  destruct (ps_loop x.1) as [lp|] eqn:El; [|discriminate H2]. injection H2 as Hq.
  exists x. split; [reflexivity|].
  eapply wps_mono; [apply (remove_unused_takes_other x.1 x.2 3 o lp 1 wit_world Hr Eo Hu El); rewrite Hw; exact Hq|].
  intros ret s' w' m' (H3 & _ & H4 & _). split; [exact H3|exact H4].
Defined.

(** The callback of the first object adds twenty objects, and before, if [again], runs
    the loop: the array that the walk is reading then says that nothing is ready, so
    that it goes on to the new count, over entries that have never been written. *)
Definition nesting_code (again : bool) : PosixCode ToyPoll.kernel unit := fun cb p _ _ =>
  if decide (p = 1%positive) then
    (if again then _ ← obus_loop_process; mret tt else mret tt);;
    run_poll_ops (concat (map (fun i =>
      [PollInit (Pos.of_nat i) (Z.of_nat i) OBUS_FD_IN 8 0; PollAdd (Pos.of_nat i)]) (seq 10 20)))
  else mret tt.

Theorem nested_turn_reads_unwritten :
  match poll_added with
  | Some (s, m) =>
    obus_loop_do_process (PC := nesting_code true) 0 s wit_world m = None /\
    is_Some (obus_loop_do_process (PC := nesting_code false) 0 s wit_world m)
  | None => False
  end.
Proof. vm_compute. split; [reflexivity|by eexists]. Qed.
End Witnesses.
