(* ===== verification/TimerPosix.v ===== *)
(** * obus_timer_posix.c: timers over signals and pipes, on the loop over poll

    The variant of the timers for systems without timerfd.  A timer of the system
    raises a signal whose handler writes a byte in the pipe of the timer; the loop
    watches the other end.  The timer is a block whose first member is its
    descriptor object, so both have the same address, and the address is the
    value of the signal.  The value given to the system is that of the other timers
    (file Timer). *)
From stdpp Require Import infinite.
From S2P Require Import Prelude Mem World Handler Hash Utils Loop Timer LoopPosix.

(** [sys_timer_create value] gives the identifier of a timer whose signals carry
    [value]; [sys_pipe] the two ends, for reading and for writing. *)
Class SignalKernel (K : Type) := {
  sk_poll :: PollKernel K;
  sys_timer_create : positive -> KM K sysret;
  sys_timer_delete : Z -> KM K sysret;
  sys_timer_settime : Z -> itimerspec -> KM K sysret;
  sys_sigaction : KM K sysret;
  sys_pipe : KM K ((Z * Z) + Z);
  sys_write : Z -> list Z -> KM K sysret;
  write_interrupts : forall fd l k k',
    sys_write fd l k = (SysErr EINTR, k') -> (k_interrupts k' < k_interrupts k)%nat
}.

Record obus_timer := Timer {
  tm_timeout : Z;
  tm_cb : Z;
  tm_data : Z;
  tm_pipefd : Z * Z;
  tm_timerid : Z
}.

(** The timers by address, and the rest of the application's data. *)
Record ptstate (V : Type) := PTState {
  pt_timers : gmap positive obus_timer;
  pt_user : V
}.
Arguments PTState {V}.
Arguments pt_timers {V}.
Arguments pt_user {V}.

Notation PTM K V := (PM K (ptstate V)).

(** The callbacks of timers. *)
Class TimerCode (K V : Type) := timer_callback : Z -> positive -> Z -> Z -> PTM K V unit.

(** The address of [obus_timer_events]. *)
Definition TIMER_EVENTS : Z := 1.
Definition TIMER_SIZE : Z := 104.

Section Ops.
Context {K V : Type} {SK : SignalKernel K} {AL : Allocator}.
#[local] Notation ST := (pstate K (ptstate V)).

Definition timers_of (s : ST) : gmap positive obus_timer := pt_timers (ps_user s).
Definition set_timers (s : ST) tms : ST := with_user s (PTState tms (pt_user (ps_user s))).

Definition get_timer (p : positive) : PTM K V obus_timer :=
  tms ← sv_gets timers_of; on_mem (m_lift (tms !! p)).
Definition put_timer (p : positive) (t : obus_timer) : PTM K V unit :=
  sv_modify (fun s => set_timers s (<[p := t]> (timers_of s))).

(** [free]: the block with its descriptor object. *)
Definition free_timer (p : positive) : PTM K V unit :=
  sv_modify (fun s => with_fds (set_timers s (delete p (timers_of s))) (delete p (ps_fds s))).

(** An address that is not in use. *)
Definition new_address (s : ST) : positive := base.fresh (dom (ps_fds s) ∪ dom (timers_of s)).

(** [write] retried on [EINTR]; its result is not looked at. *)
Fixpoint write_eintr (fuel : nat) (fd : Z) (l : list Z) : KM K (option sysret) :=
  match fuel with
  | O => mret None
  | S fuel' =>
    r ← sys_write fd l;
    match r with
    | SysErr e => if e =? EINTR then write_eintr fuel' fd l else mret (Some r)
    | SysOk _ => mret (Some r)
    end
  end.

(** The handler of the signal, with the value it carries ([None]: NULL). *)
Definition obus_timer_sighandler (sival_ptr : option positive) : PTM K V unit :=
  match sival_ptr with
  | None => mret tt
  | Some p =>
    t ← get_timer p;
    r ← pcall (fun k => write_eintr (S (k_interrupts k)) (snd (tm_pipefd t)) [0] k);
    match r with None => sv_undef | Some _ => mret tt end
  end.

Definition obus_timer_read (p : positive) : PTM K V Z :=
  t ← get_timer p;
  r ← pcall (fun k => read_eintr (S (k_interrupts k)) (fst (tm_pipefd t)) 1 k);
  match r with
  | None => sv_undef
  | Some (inr e) => mret (- e)
  | Some (inl _) => mret 0
  end.

(** The count of expirations is always 1. *)
Definition obus_timer_events {TC : TimerCode K V} (p : positive) (events data : Z) : PTM K V unit :=
  let timer := Z.to_pos data in
  (if obus_fd_event_error events then _ ← get_timer timer; _ ← obus_loop_remove timer; mret tt
   else mret tt);;
  if negb (obus_fd_event_read events) then mret tt else
  ret ← obus_timer_read timer;
  if failed ret then mret tt else
  t ← get_timer timer;
  if tm_cb t =? 0 then sv_undef else
  timer_callback (tm_cb t) timer 1 (tm_data t).

(** The flags of the ends of a pipe. *)
Definition pipe_setup (pipefd : Z * Z) : KM K Z :=
  ret ← obus_fd_set_close_on_exec (fst pipefd);
  if failed ret then mret ret else
  ret ← obus_fd_set_close_on_exec (snd pipefd);
  if failed ret then mret ret else
  ret ← obus_fd_add_flags (fst pipefd) O_NONBLOCK;
  if failed ret then mret ret else
  obus_fd_add_flags (snd pipefd) O_NONBLOCK.

(** [unref_loop:], [close_timer:] and [close_pipe:]. *)
Definition abandon (p : positive) : PTM K V (option positive) :=
  _ ← obus_loop_unref; free_timer p;; mret None.
Definition close_timer (p : positive) : PTM K V (option positive) :=
  t ← get_timer p; _ ← pcall (sys_timer_delete (tm_timerid t)); abandon p.
Definition close_pipe (p : positive) : PTM K V (option positive) :=
  t ← get_timer p;
  _ ← pcall (sys_close (fst (tm_pipefd t)));
  _ ← pcall (sys_close (snd (tm_pipefd t)));
  close_timer p.

Definition obus_timer_new (cb data : Z) : PTM K V (option positive) :=
  if cb =? 0 then mret None else
  a ← on_mem (m_alloc TIMER_SIZE);
  match a with
  | None => mret None
  | Some _ =>
    p ← sv_gets new_address;
    put_timer p (Timer 0 cb data (0, 0) 0);;
    obus_loop_ref;;
    id ← pcall (sys_timer_create p);
    match id with
    | SysErr _ => abandon p
    | SysOk id =>
      put_timer p (Timer 0 cb data (0, 0) id);;
      sa ← pcall sys_sigaction;
      match sa with
      | SysErr _ => close_timer p
      | SysOk _ =>
        pipefd ← pcall sys_pipe;
        match pipefd with
        | inr _ => close_timer p
        | inl pipefd =>
          put_timer p (Timer 0 cb data pipefd id);;
          ret ← pcall (pipe_setup pipefd);
          if failed ret then close_pipe p else
          put_fd p (obus_fd_init (fst pipefd) OBUS_FD_IN TIMER_EVENTS (Z.pos p));;
          ret ← obus_loop_add p;
          if failed ret then close_pipe p else mret (Some p)
        end
      end
    end
  end.

Definition obus_timer_destroy (p : positive) : PTM K V Z :=
  _ ← obus_loop_remove p;
  t ← get_timer p;
  _ ← pcall (sys_close (fst (tm_pipefd t)));
  _ ← pcall (sys_close (snd (tm_pipefd t)));
  _ ← pcall (sys_timer_delete (tm_timerid t));
  _ ← obus_loop_unref;
  free_timer p;;
  mret 0.

Definition obus_timer_set (p : positive) (timeout : Z) : PTM K V Z :=
  t ← get_timer p;
  ret ← pcall (sys_timer_settime (tm_timerid t) (timer_value timeout));
  match ret with
  | SysErr e => mret (- e)
  | SysOk _ =>
    put_timer p (Timer timeout (tm_cb t) (tm_data t) (tm_pipefd t) (tm_timerid t));;
    mret 0
  end.

Definition obus_timer_clear (p : positive) : PTM K V Z := obus_timer_set p 0.
End Ops.

(** The callbacks of the loop: [obus_timer_events], and those of other objects. *)
Definition timer_loop {K V : Type} {SK : SignalKernel K} {AL : Allocator} (TC : TimerCode K V)
    (others : PosixCode K (ptstate V)) : PosixCode K (ptstate V) :=
  fun cb p events data =>
    if cb =? TIMER_EVENTS then obus_timer_events p events data else others cb p events data.
