(* ===== verification/TimerPosixFacts.v ===== *)
(** * Timers over signals: creation, destruction, expiration

    What each operation does to the loop, to the timers and to their objects, on
    success and on every error path. *)
From stdpp Require Import infinite.
From S2P Require Import Prelude Mem World Bus Handler Hash Utils Loop LoopFacts Timer LoopPosix LoopPosixFacts LoopPosixRun TimerPosix.

Class LawfulSignal (K : Type) {SK : SignalKernel K} := {
  pipe_range : forall k r w k', sys_pipe k = (inl (r, w), k') -> 0 <= r < FD_LIMIT;
  pipe_settime_errno : forall id v k e k', sys_timer_settime id v k = (SysErr e, k') -> 0 < e
}.

Section Facts.
Context {K V : Type} {SK : SignalKernel K} {LP : LawfulPoll K} {LS : LawfulSignal K} {AL : Allocator}.
#[local] Notation ST := (pstate K (ptstate V)).
Implicit Types (s : ST) (w : world) (m : mem) (p q : positive) (o : obus_fd) (t : obus_timer).

Lemma wps_the_timer p t (Q : obus_timer -> ST -> world -> mem -> Prop) s w m :
  timers_of s !! p = Some t -> Q t s w m -> wps (get_timer p) Q s w m.
Proof. intros E H. unfold get_timer. apply wps_bind, wps_gets, wps_mem. by eapply wp_lift. Qed.

(** The invariant does not look at the timers. *)
Lemma ploop_inv_user n s m u : ploop_inv n s m -> ploop_inv n (with_user s u) m.
Proof. done. Qed.

Lemma ploop_inv_kern n s m k : ploop_inv n s m -> ploop_inv n (with_kern s k) m.
Proof. done. Qed.

Lemma new_address_unused s : ps_fds s !! new_address s = None /\ timers_of s !! new_address s = None.
Proof.
  unfold new_address. pose proof (is_fresh (dom (ps_fds s) ∪ dom (timers_of s))) as H.
  apply not_elem_of_union in H as [H1 H2]. by split; apply not_elem_of_dom.
Qed.

(** The state in which the error paths start: the block of the timer and a reference
    of the loop more than in [s]. *)
Definition half_made p s s' : Prop :=
  exists lp t k, ps_loop s = Some lp /\ timers_of s !! p = None /\ ps_fds s !! p = None /\
    s' = PState k (Some (with_ref lp (pl_ref lp + 1))) (ps_fds s) (PTState (<[p := t]> (timers_of s)) (pt_user (ps_user s))).

(** The object of the timer has been initialised too. *)
Definition half_made_fd p s s' : Prop :=
  exists s1 o, half_made p s s1 /\ fd_loop o = false /\ fd_dupfd o = -1 /\ s' = with_fds s1 (<[p := o]> (ps_fds s1)).

Definition undone s s' : Prop := exists k, s' = with_kern s k.

Lemma half_made_timer p s s' : half_made p s s' -> is_Some (timers_of s' !! p).
Proof. intros (lp & t & k & _ & _ & _ & ->). unfold timers_of. cbn. rewrite lookup_insert_eq. by eexists. Qed.

Lemma half_made_kern p s s' k : half_made p s s' -> half_made p s (with_kern s' k).
Proof. intros (lp & t & k0 & H1 & H2 & H3 & ->). by exists lp, t, k. Qed.

Lemma half_made_put p t s s' : half_made p s s' -> half_made p s (set_timers s' (<[p := t]> (timers_of s'))).
Proof.
  intros (lp & t0 & k0 & H1 & H2 & H3 & ->). exists lp, t, k0. split_and!; [done..|].
  unfold set_timers, with_user, timers_of. cbn. by rewrite insert_insert_eq.
Qed.

Lemma half_made_inv n p s s' m m' :
  half_made p s s' -> (m_count m <= m_count m')%nat -> ploop_inv n s m -> ploop_inv (n + 1) s' m'.
Proof.
  intros (lp & t & k & El & _ & _ & ->) Hm (lp0 & El0 & W). rewrite El in El0. injection El0 as <-.
  eexists. split; [done|]. apply (pl_wf_later _ _ _ m') in W; [|done]. destruct W. constructor; try done. cbn. lia.
Qed.

(** Either way to the error paths. *)
Definition unfinished p s s' : Prop := half_made p s s' \/ half_made_fd p s s'.

Lemma unfinished_timer p s s' : unfinished p s s' -> is_Some (timers_of s' !! p).
Proof. intros [H|(s1 & o & H & _ & _ & ->)]; by apply half_made_timer in H. Qed.

Lemma unfinished_kern p s s' k : unfinished p s s' -> unfinished p s (with_kern s' k).
Proof.
  intros [H|(s1 & o & H & Hl & Hd & ->)]; [left; by apply half_made_kern|right].
  exists (with_kern s1 k), o. split_and!; [by apply half_made_kern|done..].
Qed.

(** The reference is dropped and the block freed: nothing is left. *)
Lemma wps_abandon_timer n p s s' w m m' :
  1 <= n -> ploop_inv n s m -> (m_count m <= m_count m')%nat -> unfinished p s s' ->
  wps (abandon p) (fun r s2 w2 m2 => r = None /\ w2 = w /\ m2 = m' /\ undone s s2) s' w m'.
Proof.
  intros Hn I Hm H. unfold abandon. apply wps_bind. unfold obus_loop_unref.
  assert (exists lp t k fds, ps_loop s = Some lp /\ timers_of s !! p = None /\ delete p fds = ps_fds s /\
    s' = PState k (Some (with_ref lp (pl_ref lp + 1))) fds (PTState (<[p := t]> (timers_of s)) (pt_user (ps_user s))))
    as (lp & t & k & fds & El & Ht & Hf & ->).
  { destruct H as [(lp & t & k & El & Ht & Hf & ->)|(s1 & o & (lp & t & k & El & Ht & Hf & ->) & _ & _ & ->)].
    - exists lp, t, k, (ps_fds s). by rewrite delete_id.
    - exists lp, t, k, (<[p := o]> (ps_fds s)). by rewrite delete_insert_id. }
  destruct I as (lp0 & El0 & W). rewrite El in El0. injection El0 as <-. pose proof (pw_ref _ _ _ _ W).
  apply wps_bind. eapply wps_the_loop; [done|]. cbv zeta. apply wps_bind, wps_modify. cbn [pl_ref with_ref].
  rewrite (proj2 (Z.eqb_neq _ _)) by lia. apply wps_ret. apply wps_bind, wps_modify, wps_ret.
  split_and!; [done..|]. exists k. destruct s as [k0 l f [tm u]]. cbn in El. subst l.
  unfold with_fds, set_timers, with_user, with_loop, with_kern, timers_of in *. cbn in *.
  rewrite delete_insert_id by done. rewrite Hf. f_equal. destruct lp. unfold with_ref. cbn. do 2 f_equal. lia.
Qed.

Lemma wps_close_timer n p s s' w m m' :
  1 <= n -> ploop_inv n s m -> (m_count m <= m_count m')%nat -> unfinished p s s' ->
  wps (close_timer p) (fun r s2 w2 m2 => r = None /\ w2 = w /\ m2 = m' /\ undone s s2) s' w m'.
Proof.
  intros Hn I Hm H. destruct (unfinished_timer _ _ _ H) as [t Ht]. unfold close_timer. apply wps_bind.
  eapply wps_the_timer; [done|]. apply wps_bind, wps_pcall. eapply wps_abandon_timer; [done|done|done|by apply unfinished_kern].
Qed.

Lemma wps_close_pipe n p s s' w m m' :
  1 <= n -> ploop_inv n s m -> (m_count m <= m_count m')%nat -> unfinished p s s' ->
  wps (close_pipe p) (fun r s2 w2 m2 => r = None /\ w2 = w /\ m2 = m' /\ undone s s2) s' w m'.
Proof.
  intros Hn I Hm H. destruct (unfinished_timer _ _ _ H) as [t Ht]. unfold close_pipe. apply wps_bind.
  eapply wps_the_timer; [done|]. do 2 apply wps_bind, wps_pcall.
  eapply wps_close_timer; [done|done|done|by repeat apply unfinished_kern].
Qed.

Lemma pkept_state s s' : pkept s s' -> exists k, s' = with_kern s k.
Proof. destruct s, s'. intros (E1 & E2 & E3). cbn in *. subst. by eexists. Qed.

(** A timer has been made at [p], with its object in the loop. *)
Record timer_made p (cb data : Z) s s' : Prop := {
  mk_fresh : ps_fds s !! p = None /\ timers_of s !! p = None;
  mk_timer : exists t, timers_of s' = <[p := t]> (timers_of s) /\ tm_timeout t = 0 /\ tm_cb t = cb /\ tm_data t = data /\
    exists o, ps_fds s' = <[p := o]> (ps_fds s) /\ obus_fd_is_used o = 1 /\ fd_fd o = fst (tm_pipefd t) /\
      fd_cb o = TIMER_EVENTS /\ fd_data o = Z.pos p
}.

(** The object is initialised on the pipe and added. *)
Lemma wps_watch_pipe n p t cb data s s' w m m' :
  1 <= n -> ploop_inv n s m -> (m_count m <= m_count m')%nat -> half_made p s s' ->
  timers_of s' !! p = Some t -> tm_timeout t = 0 -> tm_cb t = cb -> tm_data t = data -> 0 <= fst (tm_pipefd t) < FD_LIMIT ->
  wps (put_fd p (obus_fd_init (fst (tm_pipefd t)) OBUS_FD_IN TIMER_EVENTS (Z.pos p));;
       ret ← obus_loop_add p; if failed ret then close_pipe p else mret (Some p))
    (fun r s2 w2 m2 => w2 = w /\ (m_count m <= m_count m2)%nat /\
      match r with None => undone s s2 | Some q => q = p /\ ploop_inv (n + 1) s2 m2 /\ timer_made p cb data s s2 end) s' w m'.
Proof.
  intros Hn I Hm H Ht H1 H2 H3 Hr. pose proof H as (lp & t1 & k & El & Hnt & Hnf & E).
  assert (timers_of s' = <[p := t]> (timers_of s)) as Ets.
  { rewrite E in Ht |- *. unfold timers_of in *. cbn in *. rewrite lookup_insert_eq in Ht. by simplify_eq. }
  assert (ps_fds s' = ps_fds s) as Efs by by rewrite E.
  pose proof (half_made_inv _ _ _ _ _ _ H Hm I) as I'. apply wps_bind, wps_modify.
  set (o := obus_fd_init (fst (tm_pipefd t)) OBUS_FD_IN TIMER_EVENTS (Z.pos p)).
  destruct (unused_inv (n + 1) s' m' p (<[p := o]> (ps_fds s')) I') as [I3 _].
  { rewrite Efs. congruence. }
  { intros q Hq. by rewrite lookup_insert_ne. }
  { intros o'. rewrite lookup_insert_eq. by intros [= <-]. }
  apply wps_bind. eapply wps_mono; [apply (wps_padd (n + 1) p o); [exact I3|apply lookup_insert_eq|apply Hr]|].
  intros ret s4 w4 m4 (-> & Hm4 & I4 & _ & H4). unfold padd_post in H4. cbn [fd_fd fd_events fd_cb fd_loop o obus_fd_init] in H4.
  rewrite (proj2 (Z.ltb_ge _ _)) in H4 by lia. cbn [orb Z.eqb OBUS_FD_IN TIMER_EVENTS] in H4.
  change (Z.shiftl 1 0 =? 0) with false in H4. cbn [orb] in H4.
  destruct H4 as [[Hret HK]|[-> [d (Ef & Eu & _ & _)]]].
  - rewrite (proj2 (failed_spec _) Hret). destruct (pkept_state _ _ HK) as [k4 ->].
    eapply wps_mono; [eapply (wps_close_pipe n p s); [done|done| |]|].
    + etransitivity; [exact Hm|exact Hm4].
    + right. exists (with_kern s' k4), o. by split_and!; [by apply half_made_kern|..].
    + intros r s5 w5 m5 (-> & -> & -> & HU). split_and!; [done|lia|done].
  - cbn [failed Z.ltb Z.compare]. apply wps_ret. split_and!; [done|lia|done|done|]. constructor; [done|].
    exists t. split_and!; [unfold timers_of in *; rewrite Eu; exact Ets|done..|].
    exists (with_fd_loop (with_dupfd o d) true). split_and!; [|done..].
    rewrite Ef. cbn. by rewrite insert_insert_eq, Efs.
Qed.

(** C39: creating a timer over signals leaves, when it succeeds, a new timer whose
    object is in the loop and watches the pipe of the timer, and one reference of
    the loop more; when any of its steps fails, whichever it is, no block, no
    object and no reference is left: only the kernel has changed. *)
Theorem timer_creation_all_or_nothing n cb data s w m :
  1 <= n -> ploop_inv n s m ->
  wps (obus_timer_new cb data) (fun r s' w' m' => w' = w /\ (m_count m <= m_count m')%nat /\
    match r with
    | None => undone s s'
    | Some p => ploop_inv (n + 1) s' m' /\ timer_made p cb data s s'
    end) s w m.
Proof.
  intros Hn I. assert (undone s s) as HU by (exists (ps_kern s); by destruct s).
  unfold obus_timer_new. case_bool; [by apply wps_ret|].
  apply wps_bind, wps_mem, wp_alloc; [|intros k m' (_ & _ & Hm) _; by apply wps_ret].
  intros k0 m' (_ & _ & Hm) _. apply wps_bind, wps_gets. set (p := new_address s).
  destruct (new_address_unused s) as [Hf Ht]. fold p in Hf, Ht.
  apply wps_bind, wps_modify, wps_bind. destruct I as (lp & El & W).
  eapply (wps_pref n); [exists lp; split; [done|by eapply pl_wf_later]|]. intros lp1 El1 s1 _.
  cbn in El1. rewrite El in El1. injection El1 as <-.
  assert (half_made p s s1) as H1 by (by exists lp, (Timer 0 cb data (0, 0) 0), (ps_kern s)).
  assert (ploop_inv n s m) as I by by exists lp.
  assert (forall c s2, unfinished p s s2 ->
    wps c (fun r s3 w3 m3 => r = None /\ w3 = w /\ m3 = m' /\ undone s s3) s2 w m' ->
    wps c (fun r s3 w3 m3 => w3 = w /\ (m_count m <= m_count m3)%nat /\
      match r with None => undone s s3 | Some p => ploop_inv (n + 1) s3 m3 /\ timer_made p cb data s s3 end) s2 w m') as Hend.
  { intros c s2 _ Hc. eapply wps_mono; [exact Hc|]. by intros r s3 w3 m3 (-> & -> & -> & ?). }
  apply wps_bind, wps_pcall. apply (half_made_kern _ _ _ (snd (sys_timer_create p (ps_kern s1)))) in H1.
  destruct (fst (sys_timer_create p (ps_kern s1))) as [id|e].
  2:{ eapply Hend; [by left|]. eapply wps_abandon_timer; [done|done|done|by left]. }
  apply wps_bind, wps_modify. apply (half_made_put _ (Timer 0 cb data (0, 0) id)) in H1.
  match type of H1 with half_made _ _ ?x => generalize dependent x end. clear s1. intros s1 H1.
  apply wps_bind, wps_pcall. apply (half_made_kern _ _ _ (snd (sys_sigaction (ps_kern s1)))) in H1.
  destruct (fst (sys_sigaction (ps_kern s1))) as [v|e].
  2:{ eapply Hend; [by left|]. eapply wps_close_timer; [done|done|done|by left]. }
  match type of H1 with half_made _ _ ?x => generalize dependent x end. clear s1. intros s1 H1.
  apply wps_bind, wps_pcall. destruct (sys_pipe (ps_kern s1)) as [r k1] eqn:Ep. cbn [fst snd].
  apply (half_made_kern _ _ _ k1) in H1. destruct r as [[rd wr]|e].
  2:{ eapply Hend; [by left|]. eapply wps_close_timer; [done|done|done|by left]. }
  apply pipe_range in Ep. apply wps_bind, wps_modify. apply (half_made_put _ (Timer 0 cb data (rd, wr) id)) in H1.
  apply wps_bind, wps_pcall.
  match type of H1 with half_made _ _ ?x => assert (timers_of x !! p = Some (Timer 0 cb data (rd, wr) id)) as Htp
    by apply lookup_insert_eq; generalize dependent x end.
  clear s1. intros s1 H1 Htp. destruct (pipe_setup (rd, wr) (ps_kern s1)) as [ret k2]. cbn [fst snd].
  apply (half_made_kern _ _ _ k2) in H1. destruct (failed ret).
  { eapply Hend; [by left|]. eapply wps_close_pipe; [done|done|done|by left]. }
  eapply wps_mono; [eapply (wps_watch_pipe n p (Timer 0 cb data (rd, wr) id)); [done|exact I|exact Hm|exact H1|exact Htp|done..]|].
  intros [q|] s2 w2 m2 (-> & Hm2 & H); [|done]. by destruct H as [-> H].
Qed.

(** Destruction gives all back: the object leaves the loop, the block is freed and
    the reference dropped. *)
Lemma wps_ptimer_destroy n p t o s w m :
  1 <= n -> ploop_inv (n + 1) s m -> timers_of s !! p = Some t -> ps_fds s !! p = Some o -> premove_ok p o s ->
  wps (obus_timer_destroy p) (fun ret s' w' m' => ret = 0 /\ w' = w /\ m' = m /\ ploop_inv n s' m /\
    timers_of s' = delete p (timers_of s) /\ ps_fds s' = delete p (ps_fds s)) s w m.
Proof.
  intros Hn I Ht Ho Hok. unfold obus_timer_destroy. apply wps_bind.
  eapply wps_mono; [by apply (wps_premove (n + 1) p o)|]. intros ret s1 w1 m1 (-> & -> & I1 & _ & H1).
  assert (timers_of s1 = timers_of s /\ delete p (ps_fds s1) = delete p (ps_fds s) /\
    forall o', ps_fds s1 !! p = Some o' -> fd_loop o' = false) as (Et & Ed & Hl).
  { unfold premove_post in H1. destruct (fd_loop o) eqn:Hl.
    - destruct H1 as [_ (Ef & Eu & _)]. split_and!; [unfold timers_of; by rewrite Eu|by rewrite Ef, delete_insert_eq|].
      rewrite Ef. intros o'. rewrite lookup_insert_eq. by intros [= <-].
    - destruct H1 as [_ ->]. split_and!; [done|done|]. intros o'. rewrite Ho. by intros [= <-]. }
  rewrite <- Et in Ht. apply wps_bind. eapply wps_the_timer; [done|]. do 3 apply wps_bind, wps_pcall.
  match goal with |- wps _ _ ?x _ _ => set (s2 := x) end. assert (ploop_inv (n + 1) s2 m) as I2 by exact I1.
  apply wps_bind. eapply wps_punref; [exact I2|done|]. intros lp El s3 I3.
  apply wps_bind, wps_modify, wps_ret.
  destruct (unused_inv n s3 m p (delete p (ps_fds s3)) I3) as [I4 _].
  { exact Hl. }
  { intros q Hq. by rewrite lookup_delete_ne. }
  { intros o'. by rewrite lookup_delete_eq. }
  split_and!; [done|done|done|exact I4| |exact Ed].
  change (delete p (timers_of s1) = delete p (timers_of s)). by rewrite Et.
Qed.

(** Setting a timer: the kernel has it, or nothing is remembered. *)
Lemma wps_ptimer_set p t timeout s w m :
  timers_of s !! p = Some t ->
  wps (obus_timer_set p timeout) (fun ret s' w' m' => w' = w /\ m' = m /\ ps_fds s' = ps_fds s /\ ps_loop s' = ps_loop s /\
    (ret < 0 /\ timers_of s' = timers_of s \/
     ret = 0 /\ exists t', timers_of s' = <[p := t']> (timers_of s) /\ tm_timeout t' = timeout /\
       tm_cb t' = tm_cb t /\ tm_data t' = tm_data t)) s w m.
Proof.
  intros Ht. unfold obus_timer_set. apply wps_bind. eapply wps_the_timer; [done|]. apply wps_bind, wps_pcall.
  destruct (sys_timer_settime (tm_timerid t) (timer_value timeout) (ps_kern s)) as [[v|e] k] eqn:E; cbn [fst snd].
  - apply wps_bind, wps_modify, wps_ret. split_and!; [done..|right; split; [done|]].
    by exists (Timer timeout (tm_cb t) (tm_data t) (tm_pipefd t) (tm_timerid t)).
  - apply pipe_settime_errno in E. apply wps_ret. split_and!; [done..|left; split; [lia|done]].
Qed.

(** The signal writes one byte in the pipe of its timer. *)
Lemma write_eintr_total fuel fd l (k : K) :
  (k_interrupts k < fuel)%nat -> exists r k', write_eintr fuel fd l k = (Some r, k').
Proof.
  revert k. induction fuel as [|fuel IH]; intros k Hf; [lia|]. cbn [write_eintr]. unfold mbind, KM_bind.
  destruct (sys_write fd l k) as [[v|e] k'] eqn:E; [by do 2 eexists|].
  destruct (Z.eqb_spec e EINTR) as [->|Hne]; [|by do 2 eexists]. apply IH. apply write_interrupts in E. lia.
Qed.

Lemma wps_sighandler p t s w m :
  timers_of s !! p = Some t ->
  wps (obus_timer_sighandler (Some p)) (fun _ s' w' m' => w' = w /\ m' = m /\ exists r k,
    write_eintr (S (k_interrupts (ps_kern s))) (snd (tm_pipefd t)) [0] (ps_kern s) = (Some r, k) /\ s' = with_kern s k) s w m.
Proof.
  intros Ht. cbn [obus_timer_sighandler]. apply wps_bind. eapply wps_the_timer; [done|]. apply wps_bind, wps_pcall.
  destruct (write_eintr_total (S (k_interrupts (ps_kern s))) (snd (tm_pipefd t)) [0] (ps_kern s)) as (r & k & E); [lia|].
  rewrite E. apply wps_ret. split_and!; [done..|]. by exists r, k.
Qed.

(** A byte that can be read: the callback is called once, with the count 1. *)
Lemma wps_expiration {TC : TimerCode K V} p t events bytes k (Q : unit -> ST -> world -> mem -> Prop) s w m :
  timers_of s !! p = Some t -> tm_cb t <> 0 ->
  obus_fd_event_error events = false -> obus_fd_event_read events = true ->
  read_eintr (S (k_interrupts (ps_kern s))) (fst (tm_pipefd t)) 1 (ps_kern s) = (Some (inl bytes), k) ->
  wps (timer_callback (tm_cb t) p 1 (tm_data t)) Q (with_kern s k) w m ->
  wps (obus_timer_events p events (Z.pos p)) Q s w m.
Proof.
  intros Ht Hc He Hr Ek H. unfold obus_timer_events. cbv zeta. rewrite He, Hr. cbn [Z.to_pos negb].
  apply wps_bind, wps_ret, wps_bind. unfold obus_timer_read. apply wps_bind. eapply wps_the_timer; [done|].
  apply wps_bind, wps_pcall. rewrite Ek. cbn [fst snd]. apply wps_ret. cbn [failed Z.ltb Z.compare].
  apply wps_bind. eapply wps_the_timer; [done|]. by rewrite (proj2 (Z.eqb_neq _ _) Hc).
Qed.

(** A signal that is still pending when its timer has been freed: the handler reads
    the freed block. *)
Lemma late_signal_undefined p s w m : timers_of s !! p = None -> obus_timer_sighandler (Some p) s w m = None.
Proof.
  intros Ht. cbn [obus_timer_sighandler]. apply run_bind_none. unfold get_timer.
  rewrite (run_bind _ _ s w m (timers_of s) s w m) by done. by rewrite Ht.
Qed.
End Facts.

(** ** A small kernel *)

#[local] Existing Instances ToyPoll.toy_poll_fd ToyPoll.toy_poll ToyPoll.toy_poll_lawful.

Module ToySignal.
Lemma byte_written (fd : Z) (l : list Z) (k k' : ToyPoll.kernel) :
  (SysOk (Z.of_nat (length l)), k) = (SysErr EINTR, k') -> (k_interrupts k' < k_interrupts k)%nat.
Proof. done. Qed.

#[export] Instance toy_signal : SignalKernel ToyPoll.kernel := {|
  sys_timer_create p k := (SysOk 7, k);
  sys_timer_delete id k := (SysOk 0, k);
  sys_timer_settime id v k := (SysOk 0, k);
  sys_sigaction k := (SysOk 0, k);
  sys_pipe k := (inl (50, 51), k);
  sys_write fd l k := (SysOk (Z.of_nat (length l)), k);
  write_interrupts := byte_written
|}.

#[export] Instance toy_signal_lawful : LawfulSignal ToyPoll.kernel.
Proof. split; [|done]. intros k r w k' [= <- _ _]. unfold FD_LIMIT. lia. Defined.
End ToySignal.

Section Witnesses.
#[local] Existing Instance ample_alloc.
#[local] Existing Instances ToySignal.toy_signal ToySignal.toy_signal_lawful.

Definition timer_start : option (pstate ToyPoll.kernel (ptstate unit) * mem) :=
  match obus_loop_new mem0 with
  | Some (Some lp, m) => Some (PState (ToyPoll.Kernel 0 []) (Some lp) ∅ (PTState ∅ tt), m)
  | _ => None
  end.

Lemma timer_creation_all_or_nothing_witness :
  exists s m, timer_start = Some (s, m) /\
    wps (obus_timer_new 9 4) (fun r s' _ m' =>
      match r with Some p => ploop_inv 2 s' m' /\ timer_made p 9 4 s s' | None => undone s s' end) s wit_world m /\
    option_map (fun r => fst (fst (fst r))) (obus_timer_new 9 4 s wit_world m) = Some (Some 1%positive).
Proof.
  destruct timer_start as [[s m]|] eqn:E; [|vm_compute in E; discriminate E]. exists s, m. split; [reflexivity|].
  assert (ploop_inv 1 s m) as I.
  { unfold timer_start in E. destruct (obus_loop_new mem0) as [[[lp|] m1]|] eqn:En; [|discriminate E..].
    injection E as <- <-. eapply ploop_new_inv. exact En. }
  split.
  - eapply wps_mono; [apply (timer_creation_all_or_nothing 1 9 4 s wit_world m); [lia|exact I]|].
    intros [p|] s' w' m' (_ & _ & H); exact H.
  - vm_compute in E. injection E as <- <-. vm_compute. reflexivity.
Defined.
End Witnesses.
