(* ===== verification/Addr.v ===== *)
(** * obus_socket.c: the addresses of sockets

    An address is the bytes of a [struct sockaddr_storage], read through the
    structure of its family, and the text it was made from.  [inet_pton] and
    [inet_ntop] are parameters; the text of an address is a value, and its block
    one of the allocations that may be refused. *)
From Stdlib Require Import Ascii String.
From S2P Require Import Prelude Mem Cstring Utils.

Definition AF_UNIX : Z := 1.
Definition AF_INET : Z := 2.
Definition AF_INET6 : Z := 10.

(** [inet_pton family text], the bytes of the address, [None] when the text is not
    one; [inet_ntop family bytes]. *)
Class InetText := {
  inet_pton : Z -> list Z -> option (list Z);
  inet_ntop : Z -> list Z -> option (list Z)
}.

(** ** [struct sockaddr_storage] and its views *)

Definition STORAGE_SIZE : nat := 128.
Definition SUN_PATH_SIZE : nat := 108.

Record obus_socket_addr := SockAddr {
  sa_name : option (list Z);
  sa_st : list Z
}.

Definition st_field (st : list Z) (off n : nat) : list Z := take n (drop off st).
Definition st_write (st : list Z) (off : nat) (bs : list Z) : list Z :=
  take off st ++ bs ++ drop (off + length bs) st.

(** [sa_family] in the order of the host (little endian), [ntohs (sin_port)], the
    address of each family, [sun_path]. *)
Definition st_family (st : list Z) : Z := char_at st 0 + 256 * char_at st 1.
Definition st_port (st : list Z) : Z := be_val (st_field st 2 2).
Definition PORT_OFFSET : nat := 2.
Definition SIN_ADDR_OFFSET : nat := 4.
Definition SIN6_ADDR_OFFSET : nat := 8.
Definition SUN_PATH_OFFSET : nat := 2.

(** The [sun_path] of an address as a C string; the storage goes on after it. *)
Definition st_path (st : list Z) : option (list Z) := until_nul (drop SUN_PATH_OFFSET st).

Definition addr_family (addr : obus_socket_addr) : Z := st_family (sa_st addr).

Definition obus_socket_addr_length (addr : obus_socket_addr) : Z :=
  if addr_family addr =? AF_INET then 16
  else if addr_family addr =? AF_INET6 then 28
  else if addr_family addr =? AF_UNIX then 110
  else 0.

Definition obus_socket_addr_init (family : Z) : obus_socket_addr :=
  SockAddr None (st_write (replicate STORAGE_SIZE 0) 0 [u8 family; u8 (family / 256)]).

(** ** The C library on strings *)

Fixpoint strrchr (s : list Z) (c : Z) : option nat :=
  match s with
  | [] => None
  | x :: s' =>
    match strrchr s' c with
    | Some i => Some (S i)
    | None => if x =? c then Some O else None
    end
  end.

(** [atoi]: [strtol] clamps to a [long], of which the low half is kept. *)
Definition LONG_MAX : Z := 2 ^ 63 - 1.
Definition atoi (s : list Z) : Z :=
  let s := skip_spaces s in
  let '(neg, s) := match s with
    | c :: s' => if c =? 45 then (true, s') else if c =? 43 then (false, s') else (false, s)
    | [] => (false, s)
    end in
  let v := digits s 0 in
  i32 (if neg : bool then - Z.min v (LONG_MAX + 1) else Z.min v LONG_MAX).

(** [%d]; the fuel is more digits than an [int] has. *)
Fixpoint decimal (fuel : nat) (n : Z) (acc : list Z) : list Z :=
  match fuel with
  | O => acc
  | S fuel' =>
    let acc := 48 + n mod 10 :: acc in
    if n / 10 =? 0 then acc else decimal fuel' (n / 10) acc
  end.
Definition print_int (z : Z) : list Z :=
  if z <? 0 then 45 :: decimal 12 (- z) [] else decimal 12 z [].

(** [snprintf] in [n] bytes: the characters kept. *)
Definition snprintf (n : nat) (s : list Z) : list Z := take (n - 1) s.

Section Strings.
Context {AL : Allocator}.

Definition strdup_value (s : list Z) : M (option (list Z)) :=
  a ← m_alloc (Z.of_nat (length s) + 1);
  mret (match a with Some _ => Some s | None => None end).
End Strings.

(** ** Parsing *)

Definition families : list (list Z * Z) :=
  [(chars "inet:", AF_INET); (chars "inet6:", AF_INET6); (chars "unix:", AF_UNIX)].

(** The first family whose prefix the name has, and the rest of the name. *)
Fixpoint find_family (l : list (list Z * Z)) (name : list Z) : option (Z * list Z) :=
  match l with
  | [] => None
  | (prefix, family) :: l' =>
    if bool_decide (prefix `prefix_of` name) then Some (family, drop (length prefix) name)
    else find_family l' name
  end.

Section Addr.
Context {AL : Allocator} {IT : InetText}.

(** The branch of a family with a port: the code it computes, and the address. *)
Definition set_inet (family : Z) (off : nat) (addr : obus_socket_addr) (host port : list Z)
  : Z * obus_socket_addr :=
  let sin_port := u16 (atoi port) in
  let st := st_write (sa_st addr) PORT_OFFSET (be_bytes 2 sin_port) in
  if sin_port =? 0 then (- EINVAL, SockAddr (sa_name addr) st) else
  match inet_pton family host with
  | None => (- EINVAL, SockAddr (sa_name addr) st)
  | Some bytes => (0, SockAddr (sa_name addr) (st_write st off bytes))
  end.

(** The copy of the path, and the mark of abstract addresses. *)
Definition set_unix (addr : obus_socket_addr) (remain : list Z) : obus_socket_addr :=
  let st := st_write (sa_st addr) SUN_PATH_OFFSET (snprintf SUN_PATH_SIZE remain ++ [0]) in
  SockAddr (sa_name addr)
    (if char_at st SUN_PATH_OFFSET =? 64 then st_write st SUN_PATH_OFFSET [0] else st).

(** The code of [set_inet] is not looked at. *)
Definition obus_socket_addr_init_from_string (addr : obus_socket_addr) (name : list Z)
  : M (Z * obus_socket_addr) :=
  match find_family families name with
  | None => mret (- EINVAL, addr)
  | Some (family, remain) =>
    let addr := obus_socket_addr_init family in
    let finish addr :=
      n ← strdup_value name;
      mret (0, SockAddr n (sa_st addr)) in
    if (family =? AF_INET) || (family =? AF_INET6) then
      str_addr ← strdup_value remain;
      match str_addr with
      | None => mret (- EINVAL, addr)
      | Some str_addr =>
        match strrchr str_addr 58 with
        | None => mret (- EINVAL, addr)
        | Some i =>
          let off := if family =? AF_INET then SIN_ADDR_OFFSET else SIN6_ADDR_OFFSET in
          let '(_, addr) := set_inet family off addr (take i str_addr) (drop (S i) str_addr) in
          finish addr
        end
      end
    else finish (set_unix addr remain)
  end.

(** ** Printing *)

(** An address of family inet or inet6; both take the port at the same offset. *)
Definition print_inet (prefix : list Z) (family : Z) (bytes st : list Z) : list Z :=
  prefix ++ default (chars "???") (inet_ntop family bytes) ++ 58 :: print_int (st_port st).

(** [None]: a path that is not terminated. *)
Definition addr_text (addr : obus_socket_addr) : option (list Z) :=
  let st := sa_st addr in
  if addr_family addr =? AF_INET then
    Some (print_inet (chars "inet:") AF_INET (st_field st SIN_ADDR_OFFSET 4) st)
  else if addr_family addr =? AF_INET6 then
    Some (print_inet (chars "inet6:") AF_INET6 (st_field st SIN6_ADDR_OFFSET 16) st)
  else if addr_family addr =? AF_UNIX then
    if char_at st SUN_PATH_OFFSET =? 0
    then (fun path => chars "unix:@" ++ path) <$> until_nul (drop (S SUN_PATH_OFFSET) st)
    else (fun path => chars "unix:" ++ path) <$> st_path st
  else Some [].

Definition NAME_SIZE : nat := 255.

Definition obus_socket_addr_to_string (addr : obus_socket_addr) : M (option (list Z)) :=
  text ← m_lift (addr_text addr);
  strdup_value (snprintf NAME_SIZE text).
End Addr.

(** ** The directories of a socket file *)

Class DirKernel (K : Type) := sys_mkdir : list Z -> Z -> KM K sysret.

Definition S_IRWXU : Z := 448.

Section Dir.
Context {K : Type} {DK : DirKernel K}.

(** [mkdir (path, S_IRWXU)], the code when it is an error other than EEXIST. *)
Definition mkdir_unless_exists (path : list Z) : KM K (option Z) :=
  r ← sys_mkdir path S_IRWXU;
  match r with
  | SysOk _ => mret None
  | SysErr e => mret (if e =? EEXIST then None else Some (- e))
  end.

(** The walk over the path: [done] is before the position, [rest] from it. *)
Fixpoint mkdir_walk (done rest : list Z) : KM K (option Z) :=
  match rest with
  | [] => mret None
  | c :: rest' =>
    if c =? 47 then
      err ← mkdir_unless_exists done;
      match err with
      | Some ret => mret (Some ret)
      | None => mkdir_walk (done ++ [c]) rest'
      end
    else mkdir_walk (done ++ [c]) rest'
  end.

(** The last [mkdir] may leave -1, when the directory exists. *)
Definition create_unix_socket_dir (path : list Z) : KM K Z :=
  if negb (char_at path 0 =? 47) then mret 0 else
  let tmp := snprintf 256 path in
  let tmp := match strrchr tmp 47 with Some i => take i tmp | None => tmp end in
  match tmp with
  | [] => mret 0
  | c :: rest =>
    err ← mkdir_walk [c] rest;
    match err with
    | Some ret => mret ret
    | None =>
      r ← sys_mkdir tmp S_IRWXU;
      match r with
      | SysOk _ => mret 0
      | SysErr e => mret (if e =? EEXIST then -1 else - e)
      end
    end
  end.
End Dir.
