(* ===== verification/AddrFacts.v ===== *)
(** * Addresses: parsing and printing are inverse, what invalid text denotes

    Facts on the printing and reading of decimal numbers and on the bytes of an
    address, then the theorems on [obus_socket_addr_init_from_string] and
    [obus_socket_addr_to_string]. *)
From Stdlib Require Import Ascii String.
From S2P Require Import Prelude Mem Cstring Utils Addr.

(** ** Decimal numbers *)

Lemma decimal_acc fuel n acc : decimal fuel n acc = decimal fuel n [] ++ acc.
Proof.
  revert n acc. induction fuel as [|fuel IH]; intros n acc; [done|]. cbn [decimal]. cbv zeta.
  destruct (n / 10 =? 0); [done|]. rewrite IH, (IH _ [_]). by rewrite <- app_assoc.
Qed.

Lemma digit_range n : 48 <= 48 + n mod 10 <= 57.
Proof. pose proof (Z.mod_pos_bound n 10 ltac:(lia)). lia. Qed.

Lemma decimal_digits fuel n : Forall (fun c => is_digit c = true) (decimal fuel n []).
Proof.
  assert (is_digit (48 + n mod 10) = true) as Hd.
  { pose proof (digit_range n). unfold is_digit. apply andb_true_iff. split; apply Z.leb_le; lia. }
  revert n Hd. induction fuel as [|fuel IH]; intros n Hd; [done|]. cbn [decimal]. cbv zeta.
  destruct (n / 10 =? 0); [by constructor|]. rewrite decimal_acc. apply Forall_app. split; [|by constructor].
  apply IH. pose proof (digit_range (n / 10)). unfold is_digit. apply andb_true_iff. split; apply Z.leb_le; lia.
Qed.

Lemma digits_app a b acc :
  Forall (fun c => is_digit c = true) a -> digits (a ++ b) acc = digits b (digits a acc).
Proof. intros H. revert acc. induction H as [|c a Hc _ IH]; intros acc; [done|]. cbn. rewrite Hc. apply IH. Qed.

Lemma decimal_value fuel n :
  0 <= n < 10 ^ Z.of_nat fuel -> digits (decimal fuel n []) 0 = n.
Proof.
  revert n. induction fuel as [|fuel IH]; intros n Hn; [cbn in *; lia|]. cbn [decimal]. cbv zeta.
  assert (forall acc, digits [48 + n mod 10] acc = acc * 10 + n mod 10) as Hlast.
  { intros acc. cbn. pose proof (digit_range n). unfold is_digit.
    rewrite (proj2 (Z.leb_le 48 _)), (proj2 (Z.leb_le _ 57)) by lia. cbn [andb]. lia. }
  pose proof (Z.div_mod n 10 ltac:(lia)). destruct (Z.eqb_spec (n / 10) 0) as [Hz|Hz].
  - rewrite Hlast. lia.
  - rewrite decimal_acc, digits_app by apply decimal_digits. rewrite Hlast, IH; [lia|].
    rewrite Nat2Z.inj_succ, Z.pow_succ_r in Hn by lia. split; [apply Z.div_pos; lia|].
    apply Z.div_lt_upper_bound; lia.
Qed.

Lemma decimal_head fuel n : exists c ds, decimal (S fuel) n [] = c :: ds.
Proof.
  cbn [decimal]. cbv zeta. destruct (n / 10 =? 0); [by eexists _, _|]. rewrite decimal_acc.
  destruct (decimal fuel (n / 10) []); by eexists _, _.
Qed.

Lemma decimal_length fuel n : (length (decimal fuel n []) <= fuel)%nat.
Proof.
  revert n. induction fuel as [|fuel IH]; intros n; [done|]. cbn [decimal]. cbv zeta.
  destruct (n / 10 =? 0); [cbn; lia|]. rewrite decimal_acc, length_app. specialize (IH (n / 10)). cbn. lia.
Qed.

Lemma print_int_digits n : 0 <= n -> Forall (fun c => is_digit c = true) (print_int n).
Proof. intros Hn. unfold print_int. rewrite (proj2 (Z.ltb_ge _ _) Hn). apply decimal_digits. Qed.

(** What is printed is read back. *)
Lemma atoi_print n : 0 <= n < 2 ^ 31 -> atoi (print_int n) = n.
Proof.
  intros Hn. unfold print_int. rewrite (proj2 (Z.ltb_ge _ _)) by lia. unfold atoi.
  destruct (decimal_head 11 n) as (c & ds & E). pose proof (decimal_digits 12 n) as Hd. rewrite E in Hd.
  inversion Hd as [|? ? Hc _]; subst. rewrite E. unfold is_digit in Hc.
  apply andb_true_iff in Hc as [H1%Z.leb_le H2%Z.leb_le].
  assert (is_space c = false) as Hs.
  { unfold is_space. apply orb_false_iff. split; [apply Z.eqb_neq; lia|]. apply andb_false_iff. right. apply Z.leb_gt. lia. }
  cbn [skip_spaces]. rewrite Hs, (proj2 (Z.eqb_neq c 45)), (proj2 (Z.eqb_neq c 43)) by lia. cbv beta iota zeta.
  rewrite <- E, decimal_value by (change (10 ^ Z.of_nat 12) with 1000000000000; lia).
  unfold LONG_MAX. rewrite Z.min_l by lia. apply i32_small. lia.
Qed.

(** ** Search *)

Lemma strrchr_none s c : c ∉ s -> strrchr s c = None.
Proof.
  induction s as [|x s IH]; [done|]. intros [Hx Hs]%not_elem_of_cons. cbn. rewrite IH by done.
  by rewrite (proj2 (Z.eqb_neq x c)) by congruence.
Qed.

Lemma strrchr_last a c b : c ∉ b -> strrchr (a ++ c :: b) c = Some (length a).
Proof.
  intros Hb. induction a as [|x a IH]; cbn; [by rewrite strrchr_none, Z.eqb_refl|]. by rewrite IH.
Qed.

Lemma colon_not_digit l : Forall (fun c => is_digit c = true) l -> 58 ∉ l.
Proof. intros H Hin. rewrite Forall_forall in H. by specialize (H 58 Hin). Qed.

(** ** Bytes of an address *)

Definition full (st : list Z) : Prop := length st = STORAGE_SIZE.

Lemma st_write_length st off bs : full st -> (off + length bs <= STORAGE_SIZE)%nat -> full (st_write st off bs).
Proof. unfold full, st_write. intros H Hl. rewrite !length_app, length_take, length_drop. lia. Qed.

Lemma st_field_same st off bs :
  full st -> (off + length bs <= STORAGE_SIZE)%nat -> st_field (st_write st off bs) off (length bs) = bs.
Proof.
  unfold full, st_field, st_write. intros H Hl. rewrite drop_app_length' by (rewrite length_take; lia).
  by rewrite take_app_length.
Qed.

Lemma st_field_before st off bs o n :
  full st -> (off <= STORAGE_SIZE)%nat -> (o + n <= off)%nat -> st_field (st_write st off bs) o n = st_field st o n.
Proof.
  unfold full, st_field, st_write. intros H Hl Ho. rewrite drop_app_le by (rewrite length_take; lia).
  rewrite take_app_le by (rewrite length_drop, length_take; lia). rewrite !take_drop_commute, take_take.
  by rewrite Nat.min_l by lia.
Qed.

Lemma char_at_field st i : default 0 (head (st_field st i 1)) = char_at st i.
Proof.
  unfold st_field, char_at. destruct (drop i st) as [|x r] eqn:E; cbn.
  - rewrite lookup_ge_None_2; [done|]. apply (f_equal length) in E. rewrite length_drop in E. cbn in E. lia.
  - assert (st !! i = Some x) as ->; [|done]. rewrite <- (Nat.add_0_r i), <- lookup_drop, E. done.
Qed.

Lemma char_at_before st off bs i :
  full st -> (off <= STORAGE_SIZE)%nat -> (i < off)%nat -> char_at (st_write st off bs) i = char_at st i.
Proof. intros H Ho Hi. rewrite <- !char_at_field. by rewrite st_field_before by (done || lia). Qed.

Lemma family_before st off bs :
  full st -> (2 <= off <= STORAGE_SIZE)%nat -> st_family (st_write st off bs) = st_family st.
Proof. intros H Ho. unfold st_family. by rewrite !char_at_before by (done || lia). Qed.

(** The initial bytes of a family. *)
Definition blank (family : Z) : list Z := sa_st (obus_socket_addr_init family).

Lemma blank_full family : full (blank family).
Proof. apply st_write_length; [apply length_replicate|cbn; unfold STORAGE_SIZE; lia]. Qed.

Lemma blank_family family : 0 <= family < 65536 -> st_family (blank family) = family.
Proof.
  intros Hf. change (st_family (blank family)) with (u8 family + 256 * u8 (family / 256)). wrap_lia.
Qed.

(** ** Families *)

Lemma find_inet r : find_family families (chars "inet:" ++ r) = Some (AF_INET, r).
Proof. cbn [find_family families]. rewrite bool_decide_true by apply prefix_app_r, reflexivity. done. Qed.

Lemma not_prefix_at (p l : list Z) i x y :
  p !! i = Some x -> l !! i = Some y -> x <> y -> ~ p `prefix_of` l.
Proof. intros Hx Hy Hne [k ->]. rewrite (lookup_app_l_Some _ _ _ _ Hx) in Hy. congruence. Qed.

Lemma find_inet6 r : find_family families (chars "inet6:" ++ r) = Some (AF_INET6, r).
Proof.
  cbn [find_family families]. rewrite bool_decide_false by (by apply (not_prefix_at _ _ 4 58 54)).
  rewrite bool_decide_true by apply prefix_app_r, reflexivity. done.
Qed.

Lemma find_unix r : find_family families (chars "unix:" ++ r) = Some (AF_UNIX, r).
Proof.
  cbn [find_family families]. rewrite bool_decide_false by (by apply (not_prefix_at _ _ 0 105 117)).
  rewrite bool_decide_false by (by apply (not_prefix_at _ _ 0 105 117)).
  rewrite bool_decide_true by apply prefix_app_r, reflexivity. done.
Qed.

Section Parse.
Context {AL : Allocator} `{!AmpleMemory AL} {IT : InetText}.

Lemma wp_strdup_value s Q m :
  Z.of_nat (length s) < PTRDIFF_MAX -> (forall m', Q (Some s) m') -> wp (strdup_value s) Q m.
Proof.
  intros Hs HQ. unfold strdup_value. apply wp_bind, wp_alloc.
  - intros k m' _ _. by apply wp_ret.
  - intros k m' _ H. rewrite malloc_ample in H by lia. done.
Qed.

(** The bytes of an address of family inet or inet6. *)
Definition inet_bytes (family : Z) (off : nat) (port : Z) (bytes : list Z) : list Z :=
  st_write (st_write (blank family) PORT_OFFSET (be_bytes 2 port)) off bytes.

Lemma inet_bytes_spec family off port bytes :
  0 <= family < 65536 -> 0 <= port < 65536 -> (4 <= off)%nat -> (off + length bytes <= STORAGE_SIZE)%nat ->
  st_family (inet_bytes family off port bytes) = family /\
  st_port (inet_bytes family off port bytes) = port /\
  st_field (inet_bytes family off port bytes) off (length bytes) = bytes.
Proof.
  intros Hf Hp Ho Hl. unfold inet_bytes. pose proof (blank_full family) as HF.
  assert (full (st_write (blank family) PORT_OFFSET (be_bytes 2 port))) as HF'.
  { apply st_write_length; [done|]. rewrite length_be_bytes. unfold STORAGE_SIZE, PORT_OFFSET in *. lia. }
  split_and!.
  - rewrite !family_before by (done || unfold STORAGE_SIZE, PORT_OFFSET in *; lia). by apply blank_family.
  - unfold st_port. rewrite st_field_before by (done || unfold PORT_OFFSET; lia).
    pose proof (st_field_same (blank family) PORT_OFFSET (be_bytes 2 port) HF) as H. rewrite length_be_bytes in H.
    change (st_field ?s PORT_OFFSET 2) with (st_field s 2 2) in H.
    rewrite H by (unfold STORAGE_SIZE, PORT_OFFSET; lia). rewrite be_val_be_bytes. apply Z.mod_small.
    change (256 ^ Z.of_nat 2) with 65536. lia.
  - by apply st_field_same.
Qed.

(** Parsing a name whose port is not 0: the address and the port, or, when the text
    of the address is not one, the port alone. *)
Lemma wp_parse_inet prefix family off host port a m :
  find_family families (prefix ++ host ++ 58 :: print_int port) = Some (family, host ++ 58 :: print_int port) ->
  (family = AF_INET /\ off = SIN_ADDR_OFFSET \/ family = AF_INET6 /\ off = SIN6_ADDR_OFFSET) ->
  1 <= port < 65536 -> Z.of_nat (length (prefix ++ host ++ 58 :: print_int port)) < PTRDIFF_MAX ->
  wp (obus_socket_addr_init_from_string a (prefix ++ host ++ 58 :: print_int port))
     (fun r _ => r = (0, SockAddr (Some (prefix ++ host ++ 58 :: print_int port))
        match inet_pton family host with
        | Some bytes => inet_bytes family off port bytes
        | None => st_write (blank family) PORT_OFFSET (be_bytes 2 port)
        end)) m.
Proof.
  intros Hfind Hfam Hp Hl. unfold obus_socket_addr_init_from_string. rewrite Hfind. cbv zeta.
  assert ((family =? AF_INET) || (family =? AF_INET6) = true) as ->.
  { destruct Hfam as [[-> _]|[-> _]]; done. }
  apply wp_bind, wp_strdup_value. { rewrite length_app in Hl. lia. }
  intros m1. rewrite strrchr_last by (apply colon_not_digit, print_int_digits; lia).
  assert ((if family =? AF_INET then SIN_ADDR_OFFSET else SIN6_ADDR_OFFSET) = off) as ->.
  { destruct Hfam as [[-> ->]|[-> ->]]; done. }
  rewrite take_app_length. replace (drop (S (length host)) (host ++ 58 :: print_int port)) with (print_int port).
  2:{ rewrite drop_app_ge by lia. by replace (S (length host) - length host)%nat with 1%nat by lia. }
  unfold set_inet. rewrite atoi_print by lia. cbv zeta. rewrite u16_small by lia.
  rewrite (proj2 (Z.eqb_neq port 0)) by lia. cbn [sa_st sa_name obus_socket_addr_init].
  destruct (inet_pton family host) as [bytes|]; cbn [sa_st]; apply wp_bind, wp_strdup_value; try done; intros m2;
    by apply wp_ret.
Qed.
End Parse.

(** ** Round trip *)

(** The names in the form in which addresses are printed. *)
Inductive canonical {IT : InetText} : list Z -> Z -> Prop :=
| canonical_inet host bytes port :
    inet_pton AF_INET host = Some bytes -> inet_ntop AF_INET bytes = Some host -> length bytes = 4%nat ->
    1 <= port < 65536 -> canonical (chars "inet:" ++ host ++ 58 :: print_int port) AF_INET
| canonical_inet6 host bytes port :
    inet_pton AF_INET6 host = Some bytes -> inet_ntop AF_INET6 bytes = Some host -> length bytes = 16%nat ->
    1 <= port < 65536 -> canonical (chars "inet6:" ++ host ++ 58 :: print_int port) AF_INET6
| canonical_unix path :
    path <> [] -> (length path < SUN_PATH_SIZE)%nat -> c_str path -> canonical (chars "unix:" ++ path) AF_UNIX.

Section Roundtrip.
Context {AL : Allocator} `{!AmpleMemory AL} {IT : InetText}.

Lemma print_inet_bytes prefix family off port bytes host :
  0 <= family < 65536 -> 0 <= port < 65536 -> (4 <= off)%nat -> (off + length bytes <= STORAGE_SIZE)%nat ->
  inet_ntop family bytes = Some host ->
  print_inet prefix family (st_field (inet_bytes family off port bytes) off (length bytes))
    (inet_bytes family off port bytes) = prefix ++ host ++ 58 :: print_int port.
Proof.
  intros Hf Hp Ho Hl Hn. destruct (inet_bytes_spec family off port bytes Hf Hp Ho Hl) as (_ & H2 & H3).
  unfold print_inet. by rewrite H3, Hn, H2.
Qed.

(** The bytes of a unix address: printing gives the path back. *)
Lemma unix_text path n :
  path <> [] -> (length path < SUN_PATH_SIZE)%nat -> c_str path ->
  let addr := set_unix (obus_socket_addr_init AF_UNIX) path in
  addr_family addr = AF_UNIX /\ addr_text (SockAddr n (sa_st addr)) = Some (chars "unix:" ++ path).
Proof.
  intros Hne Hl Hc. destruct path as [|c path]; [done|]. inversion Hc as [|? ? Hc0 Hc']; subst.
  unfold set_unix. cbn [sa_st sa_name obus_socket_addr_init]. unfold snprintf.
  change (st_write (replicate STORAGE_SIZE 0) 0 [u8 AF_UNIX; u8 (AF_UNIX / 256)]) with (blank AF_UNIX).
  rewrite take_ge by (unfold SUN_PATH_SIZE in *; lia).
  pose proof (blank_full AF_UNIX) as HF. set (st := st_write (blank AF_UNIX) SUN_PATH_OFFSET ((c :: path) ++ [0])).
  assert (st = take 2 (blank AF_UNIX) ++ c :: path ++ 0 :: drop (2 + length ((c :: path) ++ [0])) (blank AF_UNIX)) as Est.
  { unfold st, st_write, SUN_PATH_OFFSET. by rewrite <- !app_assoc. }
  set (rest := drop _ (blank AF_UNIX)) in Est.
  assert (length (take 2 (blank AF_UNIX)) = 2%nat) as H2 by (rewrite length_take, HF; unfold STORAGE_SIZE; lia).
  assert (char_at st SUN_PATH_OFFSET = c) as Hhead.
  { unfold char_at, SUN_PATH_OFFSET. rewrite Est, lookup_app_r by lia. by rewrite H2. }
  assert (full st) as Hst.
  { apply st_write_length; [done|]. rewrite length_app. cbn in *. unfold SUN_PATH_OFFSET, SUN_PATH_SIZE, STORAGE_SIZE in *. lia. }
  assert (st_family st = AF_UNIX) as Hfam.
  { unfold st. rewrite family_before by (done || unfold SUN_PATH_OFFSET, STORAGE_SIZE; lia). by apply blank_family. }
  rewrite Hhead. destruct (Z.eqb_spec c 64) as [->|Hat].
  - set (st' := st_write st SUN_PATH_OFFSET [0]).
    assert (st_family st' = AF_UNIX) as Hfam'.
    { unfold st'. rewrite family_before by (done || unfold SUN_PATH_OFFSET, STORAGE_SIZE; lia). done. }
    assert (st' = take 2 (blank AF_UNIX) ++ 0 :: path ++ 0 :: rest) as Est'.
    { unfold st', st_write, SUN_PATH_OFFSET. rewrite Est. reflexivity. }
    split; [done|]. unfold addr_text, addr_family. cbn [sa_st]. rewrite Hfam'. cbn [Z.eqb AF_UNIX AF_INET AF_INET6 Pos.eqb].
    assert (char_at st' SUN_PATH_OFFSET = 0) as ->.
    { unfold char_at. rewrite Est', lookup_app_r by (unfold SUN_PATH_OFFSET; lia). by rewrite H2. }
    assert (drop (S SUN_PATH_OFFSET) st' = path ++ 0 :: rest) as ->.
    { rewrite Est', drop_app_ge by (unfold SUN_PATH_OFFSET; lia). by rewrite H2. }
    by rewrite until_nul_app.
  - split; [done|]. unfold addr_text, addr_family. cbn [sa_st]. rewrite Hfam. cbn [Z.eqb AF_UNIX AF_INET AF_INET6 Pos.eqb].
    rewrite Hhead, (proj2 (Z.eqb_neq c 0)) by lia.
    unfold st_path. assert (drop SUN_PATH_OFFSET st = (c :: path) ++ 0 :: rest) as ->.
    { rewrite Est, drop_app_ge by (unfold SUN_PATH_OFFSET; lia). by rewrite H2. }
    by rewrite until_nul_app.
Qed.

Lemma wp_to_string addr text m :
  addr_text addr = Some text -> (length text < NAME_SIZE)%nat ->
  wp (obus_socket_addr_to_string addr) (fun r _ => r = Some text) m.
Proof.
  intros Ht Hl. unfold obus_socket_addr_to_string. apply wp_bind. eapply wp_lift; [done|]. unfold snprintf.
  unfold NAME_SIZE in *. rewrite take_ge by lia. apply wp_strdup_value; [unfold PTRDIFF_MAX; lia|done].
Qed.

(** C35: where no allocation is refused, the name of an address in canonical form is parsed without error, and the
    address prints as that name: its family, its address, its port, or its path,
    abstract (with an at sign) or not. *)
Theorem addr_roundtrip a name family m :
  canonical name family -> (length name < NAME_SIZE)%nat ->
  wp (obus_socket_addr_init_from_string a name)
     (fun r m' => fst r = 0 /\ sa_name (snd r) = Some name /\ addr_family (snd r) = family /\
        wp (obus_socket_addr_to_string (snd r)) (fun t _ => t = Some name) m') m.
Proof.
  intros Hc Hl. assert (Z.of_nat (length name) < PTRDIFF_MAX) as Hl' by (unfold NAME_SIZE, PTRDIFF_MAX in *; lia).
  destruct Hc as [host bytes port H1 H2 H3 Hp|host bytes port H1 H2 H3 Hp|path Hne Hs Hc].
  - eapply wp_mono; [apply (wp_parse_inet _ AF_INET SIN_ADDR_OFFSET); [apply find_inet|by left|done|done]|].
    intros r m' ->. rewrite H1. cbn [fst snd sa_name].
    destruct (inet_bytes_spec AF_INET SIN_ADDR_OFFSET port bytes) as (F & _);
      [done|lia|unfold SIN_ADDR_OFFSET; lia|rewrite H3; unfold SIN_ADDR_OFFSET, STORAGE_SIZE; lia|].
    split_and!; [done..|]. apply wp_to_string; [|done]. unfold addr_text, addr_family. cbn [sa_st]. rewrite F.
    cbn [Z.eqb AF_INET Pos.eqb]. f_equal. rewrite <- H3.
    apply print_inet_bytes; [done|lia|unfold SIN_ADDR_OFFSET; lia|rewrite H3; unfold SIN_ADDR_OFFSET, STORAGE_SIZE; lia|done].
  - eapply wp_mono; [apply (wp_parse_inet _ AF_INET6 SIN6_ADDR_OFFSET); [apply find_inet6|by right|done|done]|].
    intros r m' ->. rewrite H1. cbn [fst snd sa_name].
    destruct (inet_bytes_spec AF_INET6 SIN6_ADDR_OFFSET port bytes) as (F & _);
      [done|lia|unfold SIN6_ADDR_OFFSET; lia|rewrite H3; unfold SIN6_ADDR_OFFSET, STORAGE_SIZE; lia|].
    split_and!; [done..|]. apply wp_to_string; [|done]. unfold addr_text, addr_family. cbn [sa_st]. rewrite F.
    cbn [Z.eqb AF_INET AF_INET6 Pos.eqb]. f_equal. rewrite <- H3.
    apply print_inet_bytes; [done|lia|unfold SIN6_ADDR_OFFSET; lia|rewrite H3; unfold SIN6_ADDR_OFFSET, STORAGE_SIZE; lia|done].
  - unfold obus_socket_addr_init_from_string. rewrite find_unix. cbn [Z.eqb AF_INET AF_INET6 AF_UNIX Pos.eqb orb]. cbv zeta.
    destruct (unix_text path (Some (chars "unix:" ++ path)) Hne Hs Hc) as [F T].
    apply wp_bind, wp_strdup_value; [done|]. intros m1. apply wp_ret. cbn [fst snd sa_name].
    split_and!; [done|done|exact F|]. by apply wp_to_string.
Qed.

(** Text that is no internet address is accepted: the name
    "inet:HOST:PORT" is parsed without error when HOST is not an address, and
    denotes the wildcard address (all interfaces) on that port. *)
Theorem bad_host_is_wildcard a host port m :
  inet_pton AF_INET host = None -> 1 <= port < 65536 -> Z.of_nat (length host) < 2 ^ 32 ->
  wp (obus_socket_addr_init_from_string a (chars "inet:" ++ host ++ 58 :: print_int port))
     (fun r _ => fst r = 0 /\ addr_family (snd r) = AF_INET /\ st_port (sa_st (snd r)) = port /\
        st_field (sa_st (snd r)) SIN_ADDR_OFFSET 4 = [0; 0; 0; 0]) m.
Proof.
  intros Hh Hp Hl.
  eapply wp_mono; [apply (wp_parse_inet _ AF_INET SIN_ADDR_OFFSET); [apply find_inet|by left|done|]|].
  { rewrite !length_app. cbn [length]. assert (length (print_int port) <= 12)%nat.
    { unfold print_int. rewrite (proj2 (Z.ltb_ge _ _)) by lia. apply decimal_length. }
    change (length (chars "inet:")) with 5%nat. unfold PTRDIFF_MAX. lia. }
  intros r m' ->. rewrite Hh. cbn [fst snd sa_st sa_name addr_family].
  set (bs := be_bytes 2 port). assert (length bs = 2%nat) as Hb by apply length_be_bytes.
  pose proof (blank_full AF_INET) as HF. split_and!; [done| | |].
  - unfold addr_family. cbn [sa_st]. rewrite family_before by (done || unfold PORT_OFFSET, STORAGE_SIZE; lia). done.
  - unfold st_port. pose proof (st_field_same (blank AF_INET) PORT_OFFSET bs HF) as H. rewrite Hb in H.
    change (st_field ?s PORT_OFFSET 2) with (st_field s 2 2) in H.
    rewrite H by (unfold STORAGE_SIZE, PORT_OFFSET; lia). unfold bs. rewrite be_val_be_bytes. apply Z.mod_small.
    change (256 ^ Z.of_nat 2) with 65536. lia.
  - destruct bs as [|b0 [|b1 [|? ?]]]; [done..| |done]. reflexivity.
Qed.
End Roundtrip.

(** ** Directories *)

Section Dirs.
Context {K : Type} {DK : DirKernel K}.

(** The directories above a file, the outermost first. *)
Definition ancestors (path : list Z) : list (list Z) :=
  omap (fun i => if char_at path i =? 47 then Some (take i path) else None) (seq 1 (length path - 1)).

(** All of them are made; one that is there already is no error, but for the last. *)
Fixpoint make_all (dirs : list (list Z)) : KM K Z :=
  match dirs with
  | [] => mret 0
  | [dir] => r ← sys_mkdir dir S_IRWXU;
    mret (match r with SysOk _ => 0 | SysErr e => if e =? EEXIST then -1 else - e end)
  | dir :: dirs' =>
    err ← mkdir_unless_exists dir;
    match err with Some ret => mret ret | None => make_all dirs' end
  end.

Fixpoint walk_all (dirs : list (list Z)) : KM K (option Z) :=
  match dirs with
  | [] => mret None
  | dir :: dirs' =>
    err ← mkdir_unless_exists dir;
    match err with Some ret => mret (Some ret) | None => walk_all dirs' end
  end.

Definition slashes (path : list Z) (from n : nat) : list (list Z) :=
  omap (fun i => if char_at path i =? 47 then Some (take i path) else None) (seq from n).

Lemma mkdir_walk_all pre rest k :
  mkdir_walk pre rest k = walk_all (slashes (pre ++ rest) (length pre) (length rest)) k.
Proof.
  revert pre k. induction rest as [|c rest IH]; intros pre k; [done|].
  assert (char_at (pre ++ c :: rest) (length pre) = c) as Hc.
  { unfold char_at. rewrite lookup_app_r by lia. by rewrite Nat.sub_diag. }
  assert (slashes ((pre ++ [c]) ++ rest) (length (pre ++ [c])) (length rest)
    = slashes (pre ++ c :: rest) (S (length pre)) (length rest)) as E.
  { rewrite length_app, <- app_assoc. cbn. by rewrite Nat.add_1_r. }
  cbn [mkdir_walk length]. unfold slashes at 1. cbn [seq omap list_omap]. rewrite Hc, take_app_length.
  fold (slashes (pre ++ c :: rest) (S (length pre)) (length rest)). rewrite <- E.
  destruct (c =? 47); [|apply IH]. cbn [walk_all]. unfold mbind, KM_bind.
  destruct (mkdir_unless_exists pre k) as [[ret|] k1]; [done|apply IH].
Qed.

Lemma make_all_app dirs dir k :
  make_all (dirs ++ [dir]) k =
  (err ← walk_all dirs;
   match err with Some ret => mret ret | None => make_all [dir] end) k.
Proof.
  revert k. induction dirs as [|d dirs IH]; intros k; [done|].
  cbn [app walk_all]. replace (make_all (d :: dirs ++ [dir])) with
    (err ← mkdir_unless_exists d; match err with Some ret => mret ret | None => make_all (dirs ++ [dir]) end)
    by (by destruct dirs).
  unfold mbind, KM_bind. destruct (mkdir_unless_exists d k) as [[ret|] k1]; [done|]. apply IH.
Qed.

Lemma slashes_none path from n :
  (forall i, (from <= i < from + n)%nat -> char_at path i <> 47) -> slashes path from n = [].
Proof.
  revert from. induction n as [|n IH]; intros from H; [done|]. unfold slashes. cbn [seq omap list_omap].
  rewrite (proj2 (Z.eqb_neq _ 47)) by (apply H; lia). apply IH. intros i Hi. apply H. lia.
Qed.

Lemma slashes_prefix a b from n :
  (from + n <= length a)%nat -> slashes (a ++ b) from n = slashes a from n.
Proof.
  revert from. induction n as [|n IH]; intros from H; [done|]. unfold slashes. cbn [seq omap list_omap].
  assert (char_at (a ++ b) from = char_at a from) as ->.
  { unfold char_at. by rewrite lookup_app_l by lia. }
  rewrite take_app_le by lia. unfold slashes in IH. by rewrite IH by lia.
Qed.

Lemma strrchr_split s c i : strrchr s c = Some i -> s = take i s ++ c :: drop (S i) s /\ c ∉ drop (S i) s.
Proof.
  revert i. induction s as [|x s IH]; intros i; [done|]. cbn.
  destruct (strrchr s c) as [j|] eqn:E.
  - intros [= <-]. destruct (IH j eq_refl) as [H1 H2]. cbn [take drop]. split; [cbn; by f_equal|done].
  - destruct (Z.eqb_spec x c) as [->|]; [|done]. intros [= <-]. cbn. rewrite drop_0. split; [done|].
    clear IH. induction s as [|y s IH]; [by intros ?%not_elem_of_nil|]. cbn in E.
    destruct (strrchr s c) eqn:E'; [done|]. destruct (Z.eqb_spec y c); [done|].
    apply not_elem_of_cons. split; [congruence|by apply IH].
Qed.

Lemma ancestors_split tmp base :
  tmp <> [] -> 47 ∉ base -> ancestors (tmp ++ 47 :: base) = slashes tmp 1 (length tmp - 1) ++ [tmp].
Proof.
  intros Ht Hb. destruct tmp as [|c tmp]; [done|].
  unfold ancestors. set (path := (c :: tmp) ++ 47 :: base). fold (slashes path 1 (length path - 1)).
  replace (length path - 1)%nat with (length tmp + S (length base))%nat
    by (unfold path; rewrite length_app; cbn; lia).
  unfold slashes at 1. rewrite seq_app, omap_app. f_equal.
  - fold (slashes path 1 (length tmp)). unfold path. rewrite slashes_prefix by (cbn; lia).
    cbn [length]. by rewrite Nat.sub_succ, Nat.sub_0_r.
  - replace (1 + length tmp)%nat with (length (c :: tmp)) by done. cbn [seq omap list_omap].
    assert (char_at path (length (c :: tmp)) = 47) as ->.
    { unfold char_at, path. rewrite lookup_app_r by lia. by rewrite Nat.sub_diag. }
    unfold path at 1. rewrite take_app_length. cbn [Z.eqb Pos.eqb]. f_equal.
    fold (slashes path (S (length (c :: tmp))) (length base)). apply slashes_none.
    intros i Hi. unfold char_at, path. rewrite lookup_app_r by (cbn in *; lia).
    replace (i - length (c :: tmp))%nat with (S (i - length (c :: tmp) - 1)) by (cbn in *; lia). cbn [lookup list_lookup].
    destruct (base !! _) as [x|] eqn:E; cbn; [|done]. intros ->. by apply list_elem_of_lookup_2 in E.
Qed.

(** The directories made for the file of a unix socket are those above it,
    the outermost first, until one cannot be made. *)
Theorem create_dir_makes_ancestors path k :
  (length path < 256)%nat -> head path = Some 47 ->
  create_unix_socket_dir path k = make_all (ancestors path) k.
Proof.
  intros Hl Hh. unfold create_unix_socket_dir.
  assert (char_at path 0 = 47) as -> by (destruct path; [done|cbn in *; congruence]). cbn [Z.eqb Pos.eqb negb].
  unfold snprintf. rewrite take_ge by lia. cbv zeta.
  destruct (strrchr path 47) as [i|] eqn:E.
  2:{ destruct path as [|c path]; [done|]. injection Hh as ->. cbn in E. by destruct (strrchr path 47). }
  apply strrchr_split in E as [E Hb]. revert E Hb. generalize (take i path) (drop (S i) path).
  intros tmp base -> Hb. destruct tmp as [|c tmp].
  - cbn [app]. unfold ancestors. set (path := 47 :: base).
    fold (slashes path 1 (length path - 1)). rewrite slashes_none; [done|].
    intros j Hj. unfold char_at, path. replace j with (S (j - 1)) by lia. cbn [lookup list_lookup].
    destruct (base !! _) as [x|] eqn:E; cbn; [|done]. intros ->. by apply list_elem_of_lookup_2 in E.
  - rewrite (ancestors_split (c :: tmp) base ltac:(discriminate) Hb), make_all_app. cbn [make_all]. unfold mbind, KM_bind.
    rewrite mkdir_walk_all. cbn [app length]. rewrite Nat.sub_succ, Nat.sub_0_r.
    destruct (walk_all _ k) as [[ret|] k1]; [done|].
    by destruct (sys_mkdir _ _ k1) as [[] k2].
Qed.
End Dirs.

(** ** Dotted quads *)

Module Dotted.
Fixpoint split_on (c : Z) (s : list Z) : list (list Z) :=
  match s with
  | [] => [[]]
  | x :: s' =>
    if x =? c then [] :: split_on c s' else
    match split_on c s' with
    | w :: ws => (x :: w) :: ws
    | [] => [[x]]
    end
  end.

Definition part (w : list Z) : option Z :=
  if bool_decide (w = []) || negb (forallb is_digit w) || (255 <? digits w 0) then None else Some (digits w 0).

Definition pton (family : Z) (s : list Z) : option (list Z) :=
  if negb (family =? AF_INET) then None else
  bytes ← mapM part (split_on 46 s);
  if (length bytes =? 4)%nat then Some bytes else None.

Definition ntop (family : Z) (bytes : list Z) : option (list Z) :=
  match bytes with
  | [a; b; c; d] =>
    if negb (family =? AF_INET) then None else
    Some (print_int a ++ 46 :: print_int b ++ 46 :: print_int c ++ 46 :: print_int d)
  | _ => None
  end.

#[export] Instance dotted : InetText := {| inet_pton := pton; inet_ntop := ntop |}.
End Dotted.

Section Witnesses.
#[local] Existing Instances ample_alloc Dotted.dotted.

Lemma addr_roundtrip_witness :
  wp (obus_socket_addr_init_from_string (obus_socket_addr_init 0) (chars "inet:127.0.0.1:8080"))
     (fun r m' => fst r = 0 /\ addr_family (snd r) = AF_INET /\
        wp (obus_socket_addr_to_string (snd r)) (fun t _ => t = Some (chars "inet:127.0.0.1:8080")) m') mem0.
Proof.
  assert (canonical (chars "inet:" ++ chars "127.0.0.1" ++ 58 :: print_int 8080) AF_INET) as H.
  { apply (canonical_inet (chars "127.0.0.1") [127; 0; 0; 1] 8080); [reflexivity..|lia]. }
  assert (length (chars "inet:127.0.0.1:8080") < NAME_SIZE)%nat as Hl.
  { apply Nat.ltb_lt. vm_compute. reflexivity. }
  eapply wp_mono; [exact (addr_roundtrip (obus_socket_addr_init 0) _ AF_INET mem0 H Hl)|].
  intros r m' (H1 & _ & H2 & H3). split; [exact H1|]. split; [exact H2|exact H3].
Defined.

Lemma bad_host_is_wildcard_witness :
  inet_pton AF_INET (chars "localhost") = None /\
  wp (obus_socket_addr_init_from_string (obus_socket_addr_init 0) (chars "inet:localhost:80"))
     (fun r _ => fst r = 0 /\ st_field (sa_st (snd r)) SIN_ADDR_OFFSET 4 = [0; 0; 0; 0]) mem0.
Proof.
  assert (inet_pton AF_INET (chars "localhost") = None) as H by reflexivity. split; [exact H|].
  assert (1 <= 80 < 65536) as Hp by lia. assert (Z.of_nat (length (chars "localhost")) < 2 ^ 32) as Hl by (vm_compute; reflexivity).
  eapply wp_mono; [exact (bad_host_is_wildcard (obus_socket_addr_init 0) (chars "localhost") 80 mem0 H Hp Hl)|].
  intros r m' (H1 & _ & _ & H2). split; [exact H1|exact H2].
Defined.

(** A kernel that records the directories. *)
#[local] Instance dirs_made : DirKernel (list (list Z)) := fun path _ k => (SysOk 0, k ++ [path]).

Lemma create_dir_makes_ancestors_witness :
  create_unix_socket_dir (chars "/run/obus/ps.sock") [] = (0, [chars "/run"; chars "/run/obus"]) /\
  create_unix_socket_dir (chars "/run/obus/ps.sock") [] = make_all (ancestors (chars "/run/obus/ps.sock")) [].
Proof.
  split; [reflexivity|]. apply create_dir_makes_ancestors; [|reflexivity].
  apply Nat.ltb_lt. vm_compute. reflexivity.
Defined.
End Witnesses.
