(* ===== verification/Printf.v ===== *)
(** * printf of the C library, and buffers of characters on the stack

    A buffer on the stack is a list of bytes, [None] where nothing was written.
    Reading such a byte, or one outside the buffer, is undefined ([None]).  A
    formatted text is a list of characters without terminator; the arguments carry
    the values of their C types.  The conversions are those the library uses:
    [%s], [%d], [%i], [%u], [%c], [%f], with width, precision, [-], [0], and the
    modifiers [l] and [z]. *)
From Stdlib Require Import Ascii String.
From S2P Require Import Prelude Mem Cstring Utils Addr AddrFacts.

(** ** Numbers *)

(** Decimal digits of any size; a number has no more digits than bits. *)
Definition print_dec (z : Z) : list Z :=
  let fuel n := S (Z.to_nat (Z.log2 n)) in
  if z <? 0 then 45 :: decimal (fuel (- z)) (- z) [] else decimal (fuel z) z [].

(** The bits of a signed integer of [w] bits. *)
Definition to_signed (w n : Z) : Z := if n <? 2 ^ (w - 1) then n else n - 2 ^ w.

(** [n / d] rounded to the nearest integer, ties to even. *)
Definition round_div (n d : Z) : Z :=
  let q := n / d in
  match 2 * (n mod d) ?= d with
  | Lt => q
  | Gt => q + 1
  | Eq => if Z.even q then q else q + 1
  end.

(** [%f] of [(-1)^neg * m * 2^e]: six digits after the point. *)
Definition print_fixed (neg : bool) (m e : Z) : list Z :=
  let q := round_div (m * 1000000 * 2 ^ Z.max e 0) (2 ^ Z.max (- e) 0) in
  let frac := print_dec (1000000 + q mod 1000000) in
  (if neg then [45] else []) ++ print_dec (q / 1000000) ++ 46 :: tl frac.

(** [%f] of the bits of an IEEE number with [eb] bits of exponent and [mb] of
    mantissa. *)
Definition print_ieee (eb mb bits : Z) : list Z :=
  let neg := Z.testbit bits (eb + mb) in
  let ex := (bits / 2 ^ mb) mod 2 ^ eb in
  let m := bits mod 2 ^ mb in
  let bias := 2 ^ (eb - 1) - 1 in
  let sign := if neg then [45] else [] in
  if ex =? 2 ^ eb - 1 then sign ++ (if m =? 0 then chars "inf" else chars "nan")
  else if ex =? 0 then print_fixed neg m (1 - bias - mb)
  else print_fixed neg (m + 2 ^ mb) (ex - bias - mb).

Definition print_f32 (bits : Z) : list Z := print_ieee 8 23 bits.
Definition print_f64 (bits : Z) : list Z := print_ieee 11 52 bits.

(** ** Formats *)

(** An argument: an integer, a string, or a [double] by the text of its value. *)
Inductive carg :=
| CInt (z : Z)
| CText (s : list Z)
| CFloat (text : list Z).

#[export] Instance carg_eq_dec : EqDecision carg.
Proof. solve_decision. Defined.

Record conversion := Conversion {
  cv_left : bool;
  cv_zero : bool;
  cv_long : bool;
  cv_width : nat;
  cv_prec : option nat
}.
Definition plain_conversion : conversion := Conversion false false false 0 None.

Definition pad (cv : conversion) (fill : Z) (s : list Z) : list Z :=
  let n := (cv_width cv - length s)%nat in
  if cv_left cv then s ++ replicate n 32 else replicate n fill ++ s.

(** An integer with its sign before the zeros that pad it. *)
Definition pad_int (cv : conversion) (z : Z) : list Z :=
  if cv_zero cv && negb (cv_left cv) && (z <? 0) then
    45 :: pad (Conversion false true false (cv_width cv - 1) None) 48 (print_dec (- z))
  else pad cv (if cv_zero cv then 48 else 32) (print_dec z).

Definition convert (cv : conversion) (c : Z) (a : carg) : option (list Z) :=
  match a with
  | CText s =>
    if c =? 115 then Some (pad cv 32 (match cv_prec cv with Some p => take p s | None => s end))
    else None
  | CInt z =>
    if (c =? 100) || (c =? 105) then
      Some (pad_int cv (to_signed (if cv_long cv then 64 else 32) (if cv_long cv then u64 z else u32 z)))
    else if c =? 117 then Some (pad_int cv (if cv_long cv then u64 z else u32 z))
    else if c =? 99 then Some (pad cv 32 [u8 z])
    else None
  | CFloat t => if c =? 102 then Some (pad cv 32 t) else None
  end.

(** One character of a conversion: more of it, or its end. *)
Definition spec_char (cv : conversion) (c : Z) : option conversion :=
  let '(Conversion l z g w p) := cv in
  if c =? 45 then Some (Conversion true z g w p)
  else if c =? 46 then Some (Conversion l z g w (Some 0%nat))
  else if (c =? 108) || (c =? 122) then Some (Conversion l z true w p)
  else if is_digit c then
    let d := Z.to_nat (c - 48) in
    match p with
    | Some p => Some (Conversion l z g w (Some (10 * p + d)%nat))
    | None =>
      if (c =? 48) && (w =? 0)%nat then Some (Conversion l true g w None)
      else Some (Conversion l z g (10 * w + d)%nat None)
    end
  else None.

(** The text of a format, [st] the conversion being read; [None]: an argument is
    missing or of another type, or the conversion is not one of the above. *)
Fixpoint vformat (fmt : list Z) (st : option conversion) (args : list carg)
  : option (list Z) :=
  match fmt, st with
  | [], None => Some []
  | [], Some _ => None
  | c :: fmt', None =>
    if c =? 37 then vformat fmt' (Some plain_conversion) args
    else option_map (cons c) (vformat fmt' None args)
  | c :: fmt', Some cv =>
    match spec_char cv c with
    | Some cv' => vformat fmt' (Some cv') args
    | None =>
      match args with
      | [] => None
      | a :: args' =>
        t ← convert cv c a;
        rest ← vformat fmt' None args';
        Some (t ++ rest)
      end
    end
  end.

Definition c_format (fmt : list Z) (args : list carg) : option (list Z) := vformat fmt None args.

(** ** Buffers *)

Notation cbuf := (list (option Z)).

Definition cb_new (size : nat) : cbuf := replicate size None.

(** [buf[i] = c] *)
Definition cb_set (buf : cbuf) (i : nat) (c : Z) : option cbuf :=
  if (i <? length buf)%nat then Some (<[i := Some c]> buf) else None.

(** [buf[i]] *)
Definition cb_get (buf : cbuf) (i : nat) : option Z :=
  match buf !! i with Some (Some c) => Some c | _ => None end.

(** The C string at the start of the bytes; [None]: a byte before its end was
    never written, or it has no end. *)
Fixpoint cb_text (buf : cbuf) : option (list Z) :=
  match buf with
  | [] => None
  | o :: buf' => c ← o; if c =? 0 then Some [] else option_map (cons c) (cb_text buf')
  end.

Definition cb_strlen (buf : cbuf) : option nat := option_map length (cb_text buf).

(** [snprintf (buf + off, size, ...)] of the text [s]. *)
Definition cb_snprintf (buf : cbuf) (off size : nat) (s : list Z) : option cbuf :=
  if (size =? 0)%nat then Some buf else
  let out := map Some (snprintf size s) ++ [Some 0] in
  if (off + length out <=? length buf)%nat
  then Some (take off buf ++ out ++ drop (off + length out) buf) else None.

(** ** Facts *)

(** Text is what a C string holds. *)
Definition no_nul (s : list Z) : Prop := Forall (fun c => c <> 0) s.

Lemma cb_text_app s buf : no_nul s -> cb_text (map Some s ++ buf) = option_map (app s) (cb_text buf).
Proof.
  induction 1 as [|c s Hc _ IH]; cbn; [by destruct (cb_text buf)|].
  rewrite (proj2 (Z.eqb_neq c 0) Hc), IH. by destruct (cb_text buf).
Qed.

Lemma cb_text_nul s buf : no_nul s -> cb_text (map Some s ++ Some 0 :: buf) = Some s.
Proof. intros H. rewrite cb_text_app by done. cbn. by rewrite app_nil_r. Qed.

Lemma no_nul_app a b : no_nul a -> no_nul b -> no_nul (a ++ b).
Proof. intros. by apply Forall_app. Qed.

Lemma no_nul_take n a : no_nul a -> no_nul (take n a).
Proof. apply Forall_take. Qed.

Lemma no_nul_digits s : Forall (fun c => is_digit c = true) s -> no_nul s.
Proof.
  intros H. eapply Forall_impl; [exact H|]. by intros c Hc ->.
Qed.

Lemma no_nul_dec z : no_nul (print_dec z).
Proof.
  unfold print_dec. destruct (z <? 0); [constructor; [done|]|];
    apply no_nul_digits, decimal_digits.
Qed.

(** Printing in decimal loses nothing. *)
Lemma log2_digits n : 0 <= n -> n < 10 ^ Z.of_nat (S (Z.to_nat (Z.log2 n))).
Proof.
  intros Hn. rewrite Nat2Z.inj_succ, Z2Nat.id by apply Z.log2_nonneg.
  destruct (Z.eq_dec n 0) as [->|Hz]; [done|].
  pose proof (Z.log2_spec n ltac:(lia)) as [_ H].
  pose proof (Z.pow_le_mono_l 2 10 (Z.succ (Z.log2 n)) ltac:(lia)). lia.
Qed.

Lemma print_dec_value n : 0 <= n -> digits (print_dec n) 0 = n.
Proof.
  intros Hn. unfold print_dec. rewrite (proj2 (Z.ltb_ge _ _) Hn).
  apply decimal_value. split; [done|by apply log2_digits].
Qed.

Lemma print_dec_inj a b : print_dec a = print_dec b -> a = b.
Proof.
  assert (forall n, 0 <= n -> hd 0 (print_dec n) <> 45) as Hd.
  { intros n Hn. unfold print_dec. rewrite (proj2 (Z.ltb_ge _ _) Hn).
    destruct (decimal_head (Z.to_nat (Z.log2 n)) n) as (c & ds & E).
    pose proof (decimal_digits (S (Z.to_nat (Z.log2 n))) n) as Hf. rewrite E in *. cbn.
    apply Forall_cons in Hf as [Hf _]. by intros ->. }
  assert (forall n, n < 0 -> print_dec n = 45 :: print_dec (- n)) as Hneg.
  { intros n Hn. unfold print_dec. rewrite (proj2 (Z.ltb_lt _ _) Hn), (proj2 (Z.ltb_ge _ _)) by lia. done. }
  intros H. destruct (Z.lt_ge_cases a 0) as [Ha|Ha], (Z.lt_ge_cases b 0) as [Hb|Hb].
  - rewrite (Hneg a Ha), (Hneg b Hb) in H. injection H as H.
    pose proof (print_dec_value (- a) ltac:(lia)). rewrite H, print_dec_value in * by lia. lia.
  - rewrite (Hneg a Ha) in H. destruct (Hd b Hb). by rewrite <- H.
  - rewrite (Hneg b Hb) in H. destruct (Hd a Ha). by rewrite H.
  - rewrite <- (print_dec_value a Ha), <- (print_dec_value b Hb). by rewrite H.
Qed.

(** Writes at the end of the bytes that are written. *)
Lemma cb_set_app s o rest c :
  cb_set (map Some s ++ o :: rest) (length s) c = Some (map Some (s ++ [c]) ++ rest).
Proof.
  unfold cb_set. rewrite length_app, length_map. cbn [length].
  rewrite (proj2 (Nat.ltb_lt _ _)) by lia. f_equal.
  rewrite insert_app_r_alt by by rewrite length_map.
  rewrite length_map, Nat.sub_diag. cbn. by rewrite map_app, <- app_assoc.
Qed.

Lemma cb_snprintf_app s rest size t :
  (0 < size)%nat -> (size <= length rest)%nat ->
  cb_snprintf (map Some s ++ rest) (length s) size t =
    Some (map Some (s ++ snprintf size t) ++ Some 0 ::
          drop (length (snprintf size t) + 1) rest).
Proof.
  intros Hs Hr. unfold cb_snprintf. rewrite (proj2 (Nat.eqb_neq _ _)) by lia.
  assert (length (snprintf size t) < size)%nat by (unfold snprintf; rewrite length_take; lia).
  rewrite !length_app, !length_map. cbn [length]. rewrite (proj2 (Nat.leb_le _ _)) by lia.
  rewrite take_app_length' by by rewrite length_map.
  rewrite <- drop_drop, drop_app_length' by by rewrite length_map.
  by rewrite map_app, <- !app_assoc.
Qed.

(** [snprintf] on the whole buffer: the text, cut to fit. *)
Lemma cb_snprintf_text size t :
  (0 < size)%nat -> no_nul t ->
  exists buf, cb_snprintf (cb_new size) 0 size t = Some buf /\ length buf = size /\
    cb_text buf = Some (take (size - 1) t).
Proof.
  intros Hs Ht. pose proof (cb_snprintf_app [] (cb_new size) size t Hs) as E.
  cbn [map app length] in E. rewrite E by (unfold cb_new; by rewrite length_replicate).
  eexists. split; [done|]. unfold snprintf.
  rewrite cb_text_nul by by apply no_nul_take. split; [|done].
  rewrite length_app, length_map. cbn [length]. unfold cb_new. rewrite length_drop, length_replicate, length_take. lia.
Qed.

(** ** Examples *)

Example print_f64_pi : print_f64 4614256656552045848 = chars "3.141593".
Proof. vm_compute. reflexivity. Qed.

Example print_f32_tenth : print_f32 3184315597 = chars "-0.100000".
Proof. vm_compute. reflexivity. Qed.

Example c_format_columns :
  c_format (chars "|-%c:%-6.6s = %03d %zu") [CInt 80; CText (chars "position"); CInt 7; CInt 12]
  = Some (chars "|-P:positi = 007 12").
Proof. vm_compute. reflexivity. Qed.
