(* ===== verification/Log.v ===== *)
(** * obus_log.c: the log callback, messages on stderr, dumps of packets

    The state of the module is its two static variables and what left the process:
    the text on stderr, and the calls of an application's callback, recorded with
    their arguments.  Such a callback does not log, nor change the callback. *)
From Stdlib Require Import Ascii String.
From S2P Require Import Prelude Mem Cstring Utils Addr Printf.

Definition OBUS_LOG_CRITICAL : Z := 0.
Definition OBUS_LOG_ERROR : Z := 1.
Definition OBUS_LOG_WARNING : Z := 2.
Definition OBUS_LOG_NOTICE : Z := 3.
Definition OBUS_LOG_INFO : Z := 4.
Definition OBUS_LOG_DEBUG : Z := 5.

Inductive obus_log_cb :=
| LogStderr              (* obus_log_stderr *)
| LogUser (id : Z).      (* a function of the application *)

Record log_call := LogCall {
  lc_cb : Z;
  lc_level : Z;
  lc_fmt : list Z;
  lc_args : list carg
}.

Record log_state := LogState {
  g_cb : option obus_log_cb;
  use_colors : Z;
  ls_stderr : list Z;
  ls_calls : list log_call
}.

Definition log_state_init : log_state := LogState (Some LogStderr) (-1) [] [].

(** ** Messages on stderr *)

Definition LOG_BUFFER : nat := 512.
Definition MAX_INT : Z := 2 ^ 31 - 1.

Definition levels : list Z := chars "CEWNID".
Definition colors : list (list Z) :=
  map (cons 27) [chars "[31m"; chars "[31m"; chars "[33m"; chars "[34m"; chars "[32m"; chars "[36m"].

(** ["%s[%c]: %s\033[m"] *)
Definition color_format : list Z := Eval cbv in chars "%s[%c]: %s" ++ 27 :: chars "[m".

(** The newline at the end of a message of [len] characters in the buffer. *)
Definition append_newline (buffer : cbuf) (len : nat) : option cbuf :=
  if (0 <? len)%nat && (len + 1 <? LOG_BUFFER)%nat then
    last ← cb_get buffer (len - 1);
    if last =? 10 then Some buffer
    else buffer ← cb_set buffer len 10; cb_set buffer (len + 1) 0
  else Some buffer.

Section Stderr.
Context {EN : Environment}.

(** The enumeration of levels is an unsigned integer.  A message longer than an
    [int] counts makes [vsnprintf] fail, the buffer unspecified. *)
Definition obus_log_stderr (level : Z) (fmt : list Z) (args : list carg) (s : log_state)
  : option log_state :=
  let level := if OBUS_LOG_DEBUG <=? u32 level then OBUS_LOG_DEBUG else u32 level in
  let colored := if use_colors s =? -1
    then obus_check_env (Some (chars "OBUS_LOG_COLOR")) (Some (chars "1")) else use_colors s in
  text ← c_format fmt args;
  if MAX_INT <? Z.of_nat (length text) then None else
  buffer ← cb_snprintf (cb_new LOG_BUFFER) 0 LOG_BUFFER text;
  let len := if (LOG_BUFFER <=? length text)%nat then (LOG_BUFFER - 1)%nat else length text in
  buffer ← append_newline buffer len;
  message ← cb_text buffer;
  letter ← levels !! Z.to_nat level;
  color ← colors !! Z.to_nat level;
  out ← (if colored =? 0 then c_format (chars "[%c]: %s") [CInt letter; CText message]
         else c_format color_format [CText color; CInt letter; CText message]);
  Some (LogState (g_cb s) colored (ls_stderr s ++ out) (ls_calls s)).

Definition obus_log_set_cb (cb : option obus_log_cb) (s : log_state) : Z * log_state :=
  (0, LogState cb (use_colors s) (ls_stderr s) (ls_calls s)).

(** [( *g_cb ) (level, fmt, args)] *)
Definition call_log_cb (cb : obus_log_cb) (level : Z) (fmt : list Z) (args : list carg)
    (s : log_state) : option log_state :=
  match cb with
  | LogStderr => obus_log_stderr level fmt args s
  | LogUser id => Some (LogState (g_cb s) (use_colors s) (ls_stderr s)
                          (ls_calls s ++ [LogCall id level fmt args]))
  end.

Definition obus_log (level : Z) (fmt : option (list Z)) (args : list carg) (s : log_state)
  : option log_state :=
  match fmt, g_cb s with
  | Some fmt, Some cb => call_log_cb cb level fmt args s
  | _, _ => Some s
  end.

(** ** Dumps of buffers *)

Definition LINE_BUFFER : nat := 68.
Definition hexdigits : list Z := chars "0123456789ABCDEF".

(** [isprint] in the C locale. *)
Definition isprint (c : Z) : bool := (32 <=? c) && (c <=? 126).

(** The four characters of column [j]. *)
Definition raw_column (str : cbuf) (j : nat) (hi lo c : Z) : option cbuf :=
  str ← cb_set str (j * 3) hi;
  str ← cb_set str (j * 3 + 1) lo;
  str ← cb_set str (j * 3 + 2) 32;
  cb_set str (j + 51) c.

(** The separator and the end of a line, and its message. *)
Definition raw_separator (str : cbuf) : option cbuf :=
  str ← cb_set str 48 32;
  str ← cb_set str 49 124;
  str ← cb_set str 50 32;
  cb_set str 67 0.

Definition raw_line (level : Z) (str : cbuf) (s : log_state) : option (cbuf * log_state) :=
  str ← raw_separator str;
  text ← cb_text str;
  s ← obus_log level (Some (chars "%s")) [CText text] s;
  Some (str, s).

(** One turn of the loop over the bytes. *)
Definition raw_byte (level : Z) (byte : Z) (st : cbuf * nat * log_state)
  : option (cbuf * nat * log_state) :=
  let '(str, n, s) := st in
  hi ← hexdigits !! Z.to_nat (Z.shiftr byte 4);
  lo ← hexdigits !! Z.to_nat (Z.land byte 15);
  str ← raw_column str (n mod 16) hi lo (if isprint byte then byte else 46);
  '(str, s) ← (if ((n + 1) mod 16 =? 0)%nat then raw_line level str s else Some (str, s));
  Some (str, (n + 1)%nat, s).

Fixpoint raw_bytes (level : Z) (bytes : list Z) (st : cbuf * nat * log_state)
  : option (cbuf * nat * log_state) :=
  match bytes with
  | [] => Some st
  | byte :: bytes' => st ← raw_byte level byte st; raw_bytes level bytes' st
  end.

(** Blank columns from [p] on, [k] of them. *)
Fixpoint raw_pad (k p : nat) (str : cbuf) : option cbuf :=
  match k with
  | O => Some str
  | S k' => str ← raw_column str (p mod 16) 32 32 32; raw_pad k' (S p) str
  end.

(** The last line, when it is not complete. *)
Definition raw_rest (level : Z) (st : cbuf * nat * log_state) : option log_state :=
  let '(str, n, s) := st in
  if (0 <? n mod 16)%nat then
    str ← raw_pad (16 - n mod 16) (n mod 16) str;
    '(_, s) ← raw_line level str s;
    Some s
  else Some s.

Definition obus_log_raw (level : Z) (buffer : option (list Z)) (length_ : nat)
    (fmt : option (list Z)) (args : list carg) (s : log_state) : option log_state :=
  match buffer, fmt, g_cb s with
  | Some buffer, Some fmt, Some cb =>
    s ← call_log_cb cb level fmt args s;
    if (length_ <=? length buffer)%nat then
      st ← raw_bytes level (take length_ buffer) (cb_new LINE_BUFFER, 0%nat, s);
      raw_rest level st
    else None
  | _, _, _ => Some s
  end.
End Stderr.

Example raw_dump :
  let user := LogState (Some (LogUser 7)) 0 [] [] in
  option_map (fun s => map lc_args (ls_calls s))
    (@obus_log_raw (fun _ => None) 5 (Some (chars "OBUS packet: 17 bytes" ++ [0; 255])) 23 (Some (chars "read")) [] user)
  = Some [[]; [CText (chars "4F 42 55 53 20 70 61 63 6B 65 74 3A 20 31 37 20  | OBUS packet: 17 ")];
              [CText (chars "62 79 74 65 73 00 FF                             | bytes..         ")]].
Proof. vm_compute. reflexivity. Qed.
