(* ===== verification/LogFacts.v ===== *)
(** * The dump of a buffer and the line on stderr

    A reference definition of the hexadecimal dump, one line of 16 bytes at a time,
    the equivalence of [obus_log_raw] with it, and the reading of a dump. *)
From Stdlib Require Import Ascii String.
From S2P Require Import Prelude Mem Cstring Utils Addr AddrFacts Printf Log.

(** ** The dump, as a function of the bytes *)

Definition hex_digit (d : Z) : Z := if d <? 10 then 48 + d else 55 + d.

(** A column holds a byte, or is blank after the last one. *)
Definition col_hi (c : option Z) : Z := match c with Some b => hex_digit (b / 16) | None => 32 end.
Definition col_lo (c : option Z) : Z := match c with Some b => hex_digit (b mod 16) | None => 32 end.
Definition col_char (c : option Z) : Z :=
  match c with Some b => if isprint b then b else 46 | None => 32 end.

Definition render (cols : list (option Z)) : list Z :=
  flat_map (fun c => [col_hi c; col_lo c; 32]) cols ++ [32; 124; 32] ++ map col_char cols.

Definition dump_line (chunk : list Z) : list Z :=
  render (map Some chunk ++ replicate (16 - length chunk) None).

Fixpoint dump_lines (fuel : nat) (bs : list Z) : list (list Z) :=
  match fuel, bs with
  | S fuel', _ :: _ => dump_line (take 16 bs) :: dump_lines fuel' (drop 16 bs)
  | _, _ => []
  end.

Definition hexdump (bs : list Z) : list (list Z) := dump_lines (length bs) bs.

Section Messages.
Context {EN : Environment}.

(** Messages one after the other, a format and its arguments each. *)
Fixpoint log_all (level : Z) (msgs : list (list Z * list carg)) (s : log_state) : option log_state :=
  match msgs with
  | [] => Some s
  | (fmt, args) :: msgs' => s ← obus_log level (Some fmt) args s; log_all level msgs' s
  end.

Lemma log_all_app level a b s : log_all level (a ++ b) s = (s ← log_all level a s; log_all level b s).
Proof.
  revert s. induction a as [|[fmt args] a IH]; intros s; [done|]. cbn [app log_all].
  destruct (obus_log level (Some fmt) args s) as [s'|]; [apply IH|done].
Qed.

Lemma log_all_none level msgs s : g_cb s = None -> log_all level msgs s = Some s.
Proof.
  intros H. induction msgs as [|[fmt args] msgs IH]; [done|]. cbn. unfold obus_log. by rewrite H.
Qed.

(** The calls a callback of the application gets. *)
Definition add_calls (s : log_state) (l : list log_call) : log_state :=
  LogState (g_cb s) (use_colors s) (ls_stderr s) (ls_calls s ++ l).

Lemma log_all_user id level msgs s :
  g_cb s = Some (LogUser id) ->
  log_all level msgs s = Some (add_calls s (map (fun '(fmt, args) => LogCall id level fmt args) msgs)).
Proof.
  intros H. revert s H. induction msgs as [|[fmt args] msgs IH]; intros s H.
  - unfold add_calls. cbn. rewrite app_nil_r. by destruct s.
  - cbn [log_all]. unfold obus_log. rewrite H. cbn [call_log_cb mbind option_bind].
    rewrite IH by done. unfold add_calls. cbn. by rewrite H, <- app_assoc.
Qed.
End Messages.

Definition line_message (line : list Z) : list Z * list carg := (chars "%s", [CText line]).
Notation log_lines level lines := (log_all level (map line_message lines)).

(** ** Reading a dump *)

Definition hex_value (c : Z) : option Z :=
  if is_digit c then Some (c - 48)
  else if (65 <=? c) && (c <=? 70) then Some (c - 55) else None.

(** The bytes of the first columns of a line, up to a blank one. *)
Fixpoint undump_columns (k : nat) (line : list Z) : list Z :=
  match k, line with
  | S k', hi :: lo :: _ :: line' =>
    match hex_value hi, hex_value lo with
    | Some h, Some l => 16 * h + l :: undump_columns k' line'
    | _, _ => []
    end
  | _, _ => []
  end.

Definition undump (lines : list (list Z)) : list Z := flat_map (undump_columns 16) lines.

(** ** Chunks of 16 bytes *)

Lemma dump_lines_fuel f g bs :
  (length bs <= f)%nat -> (length bs <= g)%nat -> dump_lines f bs = dump_lines g bs.
Proof.
  revert g bs. induction f as [|f IH]; intros [|g] [|b bs] Hf Hg; cbn in Hf, Hg; try done; try lia.
  cbn [dump_lines]. f_equal. apply IH; rewrite length_drop; cbn; lia.
Qed.

Lemma hexdump_step bs :
  bs <> [] -> hexdump bs = dump_line (take 16 bs) :: hexdump (drop 16 bs).
Proof.
  intros Hb. destruct bs as [|b bs]; [done|]. unfold hexdump at 1. cbn [length].
  transitivity (dump_line (take 16 (b :: bs)) :: dump_lines (length bs) (drop 16 (b :: bs))); [done|].
  f_equal. apply dump_lines_fuel; rewrite length_drop; cbn; lia.
Qed.

Lemma hexdump_app cs rest :
  length cs = 16%nat -> hexdump (cs ++ rest) = dump_line cs :: hexdump rest.
Proof.
  intros Hl. rewrite hexdump_step by by destruct cs.
  by rewrite take_app_length', drop_app_length'.
Qed.

Lemma hexdump_short cs : (0 < length cs <= 16)%nat -> hexdump cs = [dump_line cs].
Proof.
  intros H. rewrite hexdump_step by (destruct cs; [cbn in H; lia|done]).
  by rewrite take_ge, drop_ge by lia.
Qed.

(** ** One line of the code *)

(** The columns [cols] are written in the buffer. *)
Definition has_columns (str : cbuf) (cols : list (option Z)) : Prop :=
  length str = LINE_BUFFER /\
  forall j c, cols !! j = Some c ->
    str !! (j * 3)%nat = Some (Some (col_hi c)) /\ str !! (j * 3 + 1)%nat = Some (Some (col_lo c)) /\
    str !! (j * 3 + 2)%nat = Some (Some 32) /\ str !! (j + 51)%nat = Some (Some (col_char c)).

Lemma cb_set_in buf i c : (i < length buf)%nat -> cb_set buf i c = Some (<[i := Some c]> buf).
Proof. intros H. unfold cb_set. by rewrite (proj2 (Nat.ltb_lt _ _) H). Qed.

(** Lookups in a list of a known length after some insertions. *)
Ltac col_lookup :=
  repeat first
    [ rewrite list_lookup_insert_eq by (rewrite ?length_insert; lia)
    | rewrite list_lookup_insert_ne by lia ].

Lemma raw_column_adds str cols c :
  has_columns str cols -> (length cols < 16)%nat ->
  exists str', raw_column str (length cols) (col_hi c) (col_lo c) (col_char c) = Some str' /\
    has_columns str' (cols ++ [c]).
Proof.
  intros [Hl H] Hc. unfold raw_column, LINE_BUFFER in *.
  do 4 (rewrite cb_set_in by (rewrite ?length_insert; lia); cbn [mbind option_bind]).
  eexists. split; [done|]. split; [by rewrite !length_insert|].
  intros j c' [Hj|[Hj E]]%lookup_app_Some.
  - pose proof (lookup_lt_Some _ _ _ Hj). specialize (H _ _ Hj) as (H1 & H2 & H3 & H4).
    split_and!; col_lookup; done.
  - apply list_lookup_singleton_Some in E as [E <-].
    assert (j = length cols) as -> by lia. split_and!; col_lookup; done.
Qed.

Lemma has_columns_new : has_columns (cb_new LINE_BUFFER) [].
Proof. by split. Qed.

Lemma has_columns_restart str cols : has_columns str cols -> has_columns str [].
Proof. intros [H _]. by split. Qed.

(** Nothing but NUL-free characters is printed. *)
Lemma hex_digit_pos d : 0 <= d < 16 -> 48 <= hex_digit d <= 70.
Proof. intros H. unfold hex_digit. destruct (Z.ltb_spec d 10); lia. Qed.

Lemma col_no_nul c : (forall b, c = Some b -> 0 <= b < 256) ->
  col_hi c <> 0 /\ col_lo c <> 0 /\ col_char c <> 0.
Proof.
  intros H. destruct c as [b|]; [|done]. specialize (H b eq_refl). cbn.
  pose proof (hex_digit_pos (b / 16) ltac:(split; [apply Z.div_pos|apply Z.div_lt_upper_bound]; lia)).
  pose proof (hex_digit_pos (b mod 16) ltac:(apply Z.mod_pos_bound; lia)).
  split_and!; [lia..|]. unfold isprint. destruct (Z.leb_spec 32 b), (b <=? 126); cbn; lia.
Qed.

Lemma render_no_nul cols : Forall (fun c => forall b, c = Some b -> 0 <= b < 256) cols ->
  no_nul (render cols).
Proof.
  intros H. unfold render. apply no_nul_app; [|apply no_nul_app; [by repeat constructor|]].
  - induction H as [|c cols Hc _ IH]; [constructor|]. cbn. apply col_no_nul in Hc as (? & ? & _).
    by repeat constructor.
  - unfold no_nul. apply Forall_map. eapply Forall_impl; [exact H|].
    intros c Hc. by apply col_no_nul in Hc as (_ & _ & ?).
Qed.

(** After its columns and its separator, a line is the rendering of the columns. *)
Lemma raw_separator_renders str cols :
  has_columns str cols -> length cols = 16%nat ->
  raw_separator str = Some (map Some (render cols) ++ [Some 0]).
Proof.
  intros [Hl H] Hc. unfold raw_separator, LINE_BUFFER in *.
  do 4 (rewrite cb_set_in by (rewrite ?length_insert; lia); cbn [mbind option_bind]).
  f_equal.
  do 16 (destruct cols as [|? cols]; [discriminate Hc|]). destruct cols; [|discriminate Hc].
  apply list_eq. intros i. unfold render.
  pose proof (H 0%nat _ eq_refl). pose proof (H 1%nat _ eq_refl). pose proof (H 2%nat _ eq_refl).
  pose proof (H 3%nat _ eq_refl). pose proof (H 4%nat _ eq_refl). pose proof (H 5%nat _ eq_refl).
  pose proof (H 6%nat _ eq_refl). pose proof (H 7%nat _ eq_refl). pose proof (H 8%nat _ eq_refl).
  pose proof (H 9%nat _ eq_refl). pose proof (H 10%nat _ eq_refl). pose proof (H 11%nat _ eq_refl).
  pose proof (H 12%nat _ eq_refl). pose proof (H 13%nat _ eq_refl). pose proof (H 14%nat _ eq_refl).
  pose proof (H 15%nat _ eq_refl). clear H. destruct_and!. cbn [Nat.mul Nat.add] in *.
  destruct (decide (i < 68)%nat) as [Hi|Hi].
  - do 68 (destruct i as [|i]; [cbn; col_lookup; done|]). lia.
  - rewrite !lookup_ge_None_2; [done|cbn; lia|rewrite !length_insert; lia].
Qed.

(** ** The loop *)

Section Loop.
Context {EN : Environment}.

Lemma raw_line_logs level str cols s :
  has_columns str cols -> length cols = 16%nat ->
  Forall (fun c => forall b, c = Some b -> 0 <= b < 256) cols ->
  exists str', has_columns str' [] /\
    raw_line level str s =
      (s ← obus_log level (Some (chars "%s")) [CText (render cols)] s; Some (str', s)).
Proof.
  intros H Hc Hb. exists (map Some (render cols) ++ [Some 0]). split.
  - apply (has_columns_restart _ []). split; [|done]. unfold LINE_BUFFER, render.
    rewrite !length_app, !length_map, !length_app, length_map.
    enough (length (flat_map (fun c => [col_hi c; col_lo c; 32]) cols) = (3 * length cols)%nat) as ->
      by (rewrite Hc; done).
    clear. induction cols as [|c cols IH]; [done|]. cbn in *. lia.
  - unfold raw_line. rewrite (raw_separator_renders _ _ H Hc). cbn [mbind option_bind].
    rewrite cb_text_nul by by apply render_no_nul. done.
Qed.

Lemma hexdigits_lookup d : 0 <= d < 16 -> hexdigits !! Z.to_nat d = Some (hex_digit d).
Proof.
  intros H. assert (exists n, (n < 16)%nat /\ d = Z.of_nat n) as (n & Hn & ->) by (exists (Z.to_nat d); lia).
  rewrite Nat2Z.id. clear H. do 16 (destruct n as [|n]; [done|]). lia.
Qed.

Lemma byte_digits b : 0 <= b < 256 ->
  hexdigits !! Z.to_nat (Z.shiftr b 4) = Some (col_hi (Some b)) /\
  hexdigits !! Z.to_nat (Z.land b 15) = Some (col_lo (Some b)).
Proof.
  intros H. rewrite Z.shiftr_div_pow2 by done. change 15 with (Z.ones 4). rewrite Z.land_ones by done.
  change (2 ^ 4) with 16. split; apply hexdigits_lookup.
  - split; [apply Z.div_pos|apply Z.div_lt_upper_bound]; lia.
  - apply Z.mod_pos_bound. lia.
Qed.

Lemma succ_mod n k : (n mod 16 = k)%nat ->
  ((n + 1) mod 16 = if decide (k = 15) then 0 else k + 1)%nat.
Proof.
  intros <-. pose proof (Nat.div_mod_eq n 16). pose proof (Nat.mod_upper_bound n 16 ltac:(lia)).
  pose proof (Nat.div_mod_eq (n + 1) 16). pose proof (Nat.mod_upper_bound (n + 1) 16 ltac:(lia)).
  case_decide; lia.
Qed.

(** Padding completes the columns. *)
Lemma raw_pad_blanks k str cols :
  has_columns str cols -> (length cols + k = 16)%nat ->
  exists str', raw_pad k (length cols) str = Some str' /\ has_columns str' (cols ++ replicate k None).
Proof.
  revert str cols. induction k as [|k IH]; intros str cols H Hk.
  - exists str. by rewrite app_nil_r.
  - cbn [raw_pad]. rewrite Nat.mod_small by lia.
    destruct (raw_column_adds str cols None H ltac:(lia)) as (str1 & E & H1). cbn in E. rewrite E.
    cbn [mbind option_bind]. destruct (IH str1 (cols ++ [None]) H1) as (str2 & E2 & H2).
    { rewrite length_app. cbn. lia. }
    rewrite length_app in E2. cbn [length] in E2. rewrite Nat.add_1_r in E2. exists str2.
    split; [done|]. rewrite <- app_assoc in H2. done.
Qed.

Lemma raw_rest_logs level str n s cs :
  has_columns str (map Some cs) -> length cs = (n mod 16)%nat -> Forall is_byte cs ->
  raw_rest level (str, n, s) = log_lines level (hexdump cs) s.
Proof.
  intros H Hn Hb. unfold raw_rest. rewrite <- Hn. pose proof (Nat.mod_upper_bound n 16 ltac:(lia)).
  destruct (Nat.ltb_spec 0 (length cs)) as [Hp|Hp]; [|by destruct cs; [|cbn in Hp; lia]].
  rewrite hexdump_short by lia. cbn [map log_all line_message].
  destruct (raw_pad_blanks (16 - length cs) str (map Some cs) H) as (str1 & E & H1).
  { rewrite length_map. lia. }
  rewrite length_map in E. rewrite E. cbn [mbind option_bind].
  destruct (raw_line_logs level str1 _ s H1) as (str2 & _ & E2).
  { rewrite length_app, length_map, length_replicate. lia. }
  { apply Forall_app. split; [apply Forall_map; eapply Forall_impl; [exact Hb|]; by intros ? ? ? [= <-]|].
    by apply Forall_replicate. }
  rewrite E2. unfold dump_line. cbn [mbind option_bind].
  by destruct (obus_log level (Some (chars "%s")) _ s).
Qed.

Lemma raw_bytes_logs level bs str n s cs :
  has_columns str (map Some cs) -> length cs = (n mod 16)%nat -> Forall is_byte (cs ++ bs) ->
  (st ← raw_bytes level bs (str, n, s); raw_rest level st) = log_lines level (hexdump (cs ++ bs)) s.
Proof.
  revert str n s cs. induction bs as [|b bs IH]; intros str n s cs H Hn Hb.
  - rewrite app_nil_r in *. cbn. by apply raw_rest_logs.
  - pose proof (Nat.mod_upper_bound n 16 ltac:(lia)) as Hlt. rewrite <- Hn in Hlt.
    assert (0 <= b < 256) as Hr by (apply Forall_app in Hb as [_ Hb]; by apply Forall_cons in Hb as [? _]).
    destruct (byte_digits b Hr) as [Hhi Hlo].
    destruct (raw_column_adds str (map Some cs) (Some b) H) as (str1 & E & H1); [by rewrite length_map|].
    rewrite length_map in E. change [Some b] with (map Some [b]) in H1. rewrite <- map_app in H1.
    cbn [raw_bytes]. unfold raw_byte. rewrite Hhi, Hlo. cbn [mbind option_bind].
    rewrite <- Hn. cbn [col_char] in E. rewrite E. cbn [mbind option_bind].
    rewrite cons_middle, app_assoc in Hb |- *. rewrite (succ_mod _ _ (eq_sym Hn)).
    case_decide as Hd.
    + destruct (raw_line_logs level str1 _ s H1) as (str2 & H2 & ->).
      { rewrite length_map, length_app. cbn. lia. }
      { apply Forall_map. apply Forall_app in Hb as [Hb _]. eapply Forall_impl; [exact Hb|].
        by intros ? ? ? [= <-]. }
      rewrite hexdump_app by (rewrite length_app; cbn; lia). cbn [Nat.eqb map log_all line_message].
      unfold dump_line. rewrite length_app. replace (16 - _)%nat with 0%nat by (cbn; lia).
      cbn [replicate]. rewrite app_nil_r.
      destruct (obus_log level (Some (chars "%s")) _ s) as [s'|]; [|done]. cbn [mbind option_bind].
      apply (IH _ _ _ []); [done| |by apply Forall_app in Hb as [_ Hb]].
      rewrite (succ_mod _ _ (eq_sym Hn)). by rewrite decide_True.
    + destruct (Nat.eqb_spec (length cs + 1) 0) as [?|_]; [lia|]. cbn [mbind option_bind].
      apply IH; [done| |done].
      rewrite (succ_mod _ _ (eq_sym Hn)), decide_False by done. by rewrite length_app.
Qed.
End Loop.

(** ** A dump is read back *)

Lemma hex_value_digit d : 0 <= d < 16 -> hex_value (hex_digit d) = Some d.
Proof.
  intros H. unfold hex_digit, hex_value, is_digit.
  destruct (Z.ltb_spec d 10).
  - rewrite (proj2 (Z.leb_le _ _)), (proj2 (Z.leb_le _ 57)) by lia. cbn [andb]. f_equal. lia.
  - rewrite (proj2 (Z.leb_gt _ 57)) by lia. rewrite andb_false_r.
    rewrite (proj2 (Z.leb_le 65 _)), (proj2 (Z.leb_le _ 70)) by lia. cbn [andb]. f_equal. lia.
Qed.

Lemma undump_columns_dump k cs rest :
  Forall is_byte cs -> (length cs <= k)%nat ->
  undump_columns k
    (flat_map (fun c => [col_hi c; col_lo c; 32]) (map Some cs ++ replicate (k - length cs) None) ++ rest) = cs.
Proof.
  revert k. induction cs as [|c cs IH]; intros k Hb Hk; cbn [length] in *.
  - rewrite Nat.sub_0_r. by destruct k.
  - destruct k as [|k]; [lia|]. apply Forall_cons in Hb as [Hc Hb]. unfold is_byte in Hc.
    cbn [map app flat_map undump_columns Nat.sub col_hi col_lo].
    pose proof (Z.div_mod c 16 ltac:(lia)) as Hd. pose proof (Z.mod_pos_bound c 16 ltac:(lia)) as Hm.
    rewrite !hex_value_digit by lia. rewrite IH by (done || lia). f_equal. lia.
Qed.

Lemma undump_line chunk : Forall is_byte chunk -> (length chunk <= 16)%nat ->
  undump_columns 16 (dump_line chunk) = chunk.
Proof. intros. by apply undump_columns_dump. Qed.

Lemma undump_hexdump bs : Forall is_byte bs -> undump (hexdump bs) = bs.
Proof.
  remember (length bs) as n eqn:En. revert bs En.
  induction (lt_wf n) as [n _ IH]. intros bs -> Hb.
  destruct (decide (length bs = 0%nat)) as [Hz|Hz]; [by destruct bs|].
  rewrite hexdump_step by by destruct bs. unfold undump in *. cbn [flat_map].
  rewrite undump_line; [|by apply Forall_take|rewrite length_take; lia].
  rewrite (IH (length (drop 16 bs))); [apply take_drop|rewrite length_drop; lia|done|by apply Forall_drop].
Qed.

Section Facts.
Context {EN : Environment}.

(** ** The theorems *)

(** C37: a dump is a function of the bytes. [obus_log_raw] is the message of its
    prefix followed by one message per 16 bytes, the lines of [hexdump], whatever
    the callback is: the line buffer, written in place and used again for each
    line, is never read where it was not written nor accessed outside.  The
    lines lose nothing: their hexadecimal columns read back as the bytes. *)
Theorem log_raw_is_dump level buffer n fmt args s :
  (n <= length buffer)%nat -> Forall is_byte (take n buffer) ->
  obus_log_raw level (Some buffer) n (Some fmt) args s =
    (s ← obus_log level (Some fmt) args s; log_lines level (hexdump (take n buffer)) s) /\
  undump (hexdump (take n buffer)) = take n buffer.
Proof.
  intros Hn Hb. split; [|by apply undump_hexdump]. unfold obus_log_raw, obus_log.
  destruct (g_cb s) as [cb|] eqn:Hg; [|cbn; by rewrite log_all_none].
  destruct (call_log_cb cb level fmt args s) as [s'|]; [|done]. cbn [mbind option_bind].
  rewrite (proj2 (Nat.leb_le _ _) Hn). by apply (raw_bytes_logs level _ _ 0 s' []).
Qed.

(** What a message is on stderr: cut to 511 characters, ended by a newline when
    it has none and there is room for one. *)
Definition stderr_text (text : list Z) : list Z :=
  if (length text <? 511)%nat then
    match last text with
    | None => []
    | Some c => if c =? 10 then text else text ++ [10]
    end
  else take 511 text.

Definition stderr_level (level : Z) : Z := Z.min (u32 level) OBUS_LOG_DEBUG.

Lemma append_newline_cons t c rest :
  (length t < 510)%nat -> length rest = (510 - length t)%nat ->
  append_newline (map Some (t ++ [c]) ++ Some 0 :: rest) (length (t ++ [c])) =
    if c =? 10 then Some (map Some (t ++ [c]) ++ Some 0 :: rest)
    else Some (map Some (t ++ [c; 10]) ++ Some 0 :: tl rest).
Proof.
  intros Ht Hr. unfold append_newline, LOG_BUFFER. rewrite length_app. cbn [length].
  rewrite (proj2 (Nat.ltb_lt 0 _)), (proj2 (Nat.ltb_lt _ 512)) by lia. cbn [andb].
  unfold cb_get. rewrite Nat.add_sub, map_app, <- app_assoc. cbn [map app].
  rewrite list_lookup_middle by by rewrite length_map.
  cbn [mbind option_bind]. destruct (c =? 10); [done|].
  replace (map Some t ++ Some c :: Some 0 :: rest) with (map Some (t ++ [c]) ++ Some 0 :: rest)
    by by rewrite map_app, <- app_assoc.
  replace (length t + 1)%nat with (length (t ++ [c])) by by rewrite length_app.
  rewrite cb_set_app. cbn [mbind option_bind]. destruct rest as [|o rest]; [cbn in Hr; lia|].
  replace (length (t ++ [c]) + 1)%nat with (length ((t ++ [c]) ++ [10])) by by rewrite length_app.
  rewrite cb_set_app. cbn [tl]. by rewrite !map_app, <- !app_assoc.
Qed.

Lemma append_newline_text text :
  no_nul text ->
  exists buffer buffer',
    cb_snprintf (cb_new LOG_BUFFER) 0 LOG_BUFFER text = Some buffer /\
    append_newline buffer
      (if (LOG_BUFFER <=? length text)%nat then LOG_BUFFER - 1 else length text)%nat = Some buffer' /\
    cb_text buffer' = Some (stderr_text text).
Proof.
  intros Ht. pose proof (cb_snprintf_app [] (cb_new LOG_BUFFER) LOG_BUFFER text ltac:(unfold LOG_BUFFER; lia)) as E.
  cbn [map app length] in E. rewrite E by (unfold cb_new; by rewrite length_replicate). clear E.
  exists (map Some (take 511 text) ++ Some 0 :: drop (length (take 511 text) + 1) (cb_new 512)).
  unfold snprintf, stderr_text, LOG_BUFFER. change (512 - 1)%nat with 511%nat.
  destruct (Nat.ltb_spec (length text) 511) as [Hl|Hl].
  - rewrite take_ge by lia. rewrite (proj2 (Nat.leb_gt _ _)) by lia.
    destruct text as [|c t _] using rev_ind; [eexists; split; [done|]; split; reflexivity|]. rewrite last_snoc.
    rewrite length_app in Hl. cbn [length] in Hl.
    assert (length (drop (length (t ++ [c]) + 1) (cb_new 512)) = (510 - length t)%nat) as Hr.
    { unfold cb_new. rewrite length_drop, length_replicate, length_app. cbn. lia. }
    pose proof (append_newline_cons t c _ ltac:(lia) Hr) as E.
    destruct (Z.eqb_spec c 10) as [->|Hc]; rewrite E; eexists; (split; [done|]; split; [done|]).
    + by apply cb_text_nul.
    + rewrite <- app_assoc. apply cb_text_nul. apply Forall_app in Ht as [H1 H2].
      apply no_nul_app; [done|]. apply Forall_cons in H2 as [H2 _]. by repeat constructor.
  - exists (map Some (take 511 text) ++ Some 0 :: drop (length (take 511 text) + 1) (cb_new 512)).
    split; [done|]. split; [|by apply cb_text_nul, no_nul_take].
    unfold append_newline, LOG_BUFFER. destruct (Nat.leb_spec 512 (length text)); [done|].
    by replace (length text) with 511%nat by lia.
Qed.

Lemma stderr_level_cases level :
  stderr_level level = (if OBUS_LOG_DEBUG <=? u32 level then OBUS_LOG_DEBUG else u32 level) /\
  0 <= stderr_level level <= 5.
Proof.
  unfold stderr_level, OBUS_LOG_DEBUG. pose proof (Z.mod_pos_bound level (2 ^ 32) ltac:(lia)) as H.
  change (level mod 2 ^ 32) with (u32 level) in H. destruct (Z.leb_spec 5 (u32 level)); lia.
Qed.

(** What the default callback appends to stderr: the color when they are on, the
    letter of the level, the message. *)
Definition stderr_line (colored level : Z) (text : list Z) : list Z :=
  let lv := Z.to_nat (stderr_level level) in
  let body := 91 :: default 0 (levels !! lv) :: chars "]: " ++ stderr_text text in
  if colored =? 0 then body else default [] (colors !! lv) ++ body ++ 27 :: chars "[m".

Lemma level_lookups level :
  exists letter color, levels !! Z.to_nat (stderr_level level) = Some letter /\ 0 < letter < 256 /\
    colors !! Z.to_nat (stderr_level level) = Some color.
Proof.
  destruct (stderr_level_cases level) as [_ H].
  assert (stderr_level level ∈ [0; 1; 2; 3; 4; 5]) as Hin by (rewrite !elem_of_cons; lia).
  rewrite !elem_of_cons in Hin.
  destruct Hin as [->|[->|[->|[->|[->|[->|Hn]]]]]]; [by eexists _, _..|]. by apply elem_of_nil in Hn.
Qed.

Lemma stderr_text_length text : (length (stderr_text text) <= 511)%nat.
Proof.
  unfold stderr_text. destruct (Nat.ltb_spec (length text) 511); [|rewrite length_take; lia].
  destruct (last text) as [c|]; [|cbn; lia]. destruct (c =? 10); [lia|]. rewrite length_app. cbn. lia.
Qed.

Lemma format_plain letter message :
  c_format (chars "[%c]: %s") [CInt letter; CText message] =
    Some (91 :: u8 letter :: chars "]: " ++ message).
Proof. cbv -[u8 app]. cbn [app]. by rewrite app_nil_r. Qed.

Lemma format_colored color letter message :
  c_format color_format [CText color; CInt letter; CText message] =
    Some (color ++ (91 :: u8 letter :: chars "]: " ++ message) ++ 27 :: chars "[m").
Proof. cbv -[u8 app]. cbn [app]. done. Qed.

(** The default callback writes one line. Whatever the level and the message,
    the call is defined, stays inside its buffer of 512 bytes, and appends to
    stderr the letter of the level and the message, cut to 511 characters and ended
    by a newline when there is room for one; levels above the last one are the
    last one; the environment is looked up at the first message only. *)
Theorem stderr_writes_line level fmt args s text :
  c_format fmt args = Some text -> no_nul text -> Z.of_nat (length text) <= MAX_INT ->
  let colored := if use_colors s =? -1
    then obus_check_env (Some (chars "OBUS_LOG_COLOR")) (Some (chars "1")) else use_colors s in
  obus_log_stderr level fmt args s =
    Some (LogState (g_cb s) colored (ls_stderr s ++ stderr_line colored level text) (ls_calls s)) /\
  (length (stderr_text text) <= 511)%nat.
Proof.
  intros Hf Ht Hl colored. split; [|apply stderr_text_length].
  unfold obus_log_stderr. fold colored. rewrite <- (proj1 (stderr_level_cases level)), Hf.
  cbn [mbind option_bind]. rewrite (proj2 (Z.ltb_ge _ _) Hl).
  destruct (append_newline_text text Ht) as (b1 & b2 & E1 & E2 & E3).
  rewrite E1. cbn [mbind option_bind]. rewrite E2. cbn [mbind option_bind]. rewrite E3.
  destruct (level_lookups level) as (letter & color & H1 & Hr & H2).
  unfold stderr_line. rewrite H1, H2. cbn [mbind option_bind default].
  assert (u8 letter = letter) as Hu by (apply Z.mod_small; lia).
  destruct (colored =? 0).
  - rewrite format_plain. by rewrite Hu.
  - rewrite format_colored. by rewrite Hu.
Qed.
End Facts.

(** ** Witnesses *)

Definition no_env : Environment := fun _ => None.

Lemma log_raw_is_dump_witness :
  let buffer := chars "OBUS" ++ [0; 1; 254; 255] ++ chars "a packet of 26 byte" in
  (26 <= length buffer)%nat /\ Forall is_byte (take 26 buffer) /\
  @obus_log_raw no_env OBUS_LOG_DEBUG (Some buffer) 26 (Some (chars "read")) [] log_state_init =
    (s ← @obus_log no_env OBUS_LOG_DEBUG (Some (chars "read")) [] log_state_init;
     @log_all no_env OBUS_LOG_DEBUG (map line_message (hexdump (take 26 buffer))) s).
Proof.
  set (buffer := chars "OBUS" ++ [0; 1; 254; 255] ++ chars "a packet of 26 byte").
  assert (26 <= length buffer)%nat as Hn by (vm_compute; lia).
  assert (Forall is_byte (take 26 buffer)) as Hb by (repeat constructor; vm_compute; congruence).
  split; [exact Hn|]. split; [exact Hb|].
  exact (proj1 (@log_raw_is_dump no_env OBUS_LOG_DEBUG buffer 26 (chars "read") [] log_state_init Hn Hb)).
Defined.

Lemma stderr_writes_line_witness :
  @obus_log_stderr (fun _ => Some (chars "1")) 9 (chars "read %d bytes") [CInt 12] log_state_init =
    Some (LogState (Some LogStderr) 1 (27 :: chars "[36m[D]: read 12 bytes" ++ 10 :: 27 :: chars "[m") []).
Proof.
  refine (eq_trans (proj1 (@stderr_writes_line (fun _ => Some (chars "1")) 9 (chars "read %d bytes") [CInt 12]
    log_state_init (chars "read 12 bytes") _ _ _)) _).
  - reflexivity.
  - repeat constructor; discriminate.
  - vm_compute. discriminate.
  - vm_compute. reflexivity.
Defined.
