(* ===== verification/Format.v ===== *)
(** * obus_field.c, obus_struct.c: the text of fields

    [obus_field_format] writes the text of a field in a buffer on the stack,
    [obus_struct_log] logs the fields of a structure that are present.  The names
    of descriptions, and the formatters of enumerations, are generated code. *)
From Stdlib Require Import Ascii String.
From S2P Require Import Prelude Mem Cstring Utils Addr Buffer Desc Field Struct Printf Log.

(** The [format] callback of a driver, on the raw bits of a value: the buffer, the
    offset in it and the size it is given. *)
Class EnumFormat := ed_format : obus_enum_driver -> Z -> cbuf -> nat -> nat -> option cbuf.

(** The [name] of a field, by its structure and its index. *)
Class FieldNames := field_name : obus_struct_desc -> nat -> list Z.

(** [a - b] on [size_t]. *)
Definition size_sub (a b : nat) : nat := Z.to_nat (u64 (Z.of_nat a - Z.of_nat b)).

Section Format.
Context {EF : EnumFormat}.

(** The value is written at [buf + off], [size] bytes at most. *)
Definition obus_format_value (desc : obus_field_desc) (v : value) (buf : cbuf) (off size : nat)
  : M cbuf :=
  let print s := m_lift (cb_snprintf buf off size s) in
  match field_type (fd_type desc) with
  | T_U8 | T_U16 | T_U32 | T_U64 => n ← as_num v; print (print_dec n)
  | T_I8 => n ← as_num v; print (print_dec (to_signed 8 n))
  | T_I16 => n ← as_num v; print (print_dec (to_signed 16 n))
  | T_I32 => n ← as_num v; print (print_dec (to_signed 32 n))
  | T_I64 => n ← as_num v; print (print_dec (to_signed 64 n))
  | T_ENUM => n ← as_num v; m_lift (ed_format (fd_enum_drv desc) n buf off size)
  | T_BOOL => n ← as_num v; print (if n =? 0 then chars "FALSE" else chars "TRUE")
  | T_STRING =>
    s ← as_str v;
    cs ← (if bool_decide (s = CNull) then mret [] else m_chars s);
    print (39 :: cs ++ [39])
  | T_F32 => n ← as_num v; print (print_f32 n)
  | T_F64 => n ← as_num v; print (print_f64 n)
  | T_UNKNOWN => mret buf
  end.

(** The value at the address of an item; the address of an item of an unknown type
    is NULL, which [obus_format_value] does not read. *)
Definition item_value (desc : obus_field_desc) (array : option (list value)) (i : Z) : M value :=
  match obus_field_array_item desc array i, field_type (fd_type desc) with
  | ItemAt i, _ => item_get desc (default [] array) i
  | _, T_UNKNOWN => mret (VNum 0)
  | _, _ => m_undef
  end.

(** Two or three stores in a row at [buf[length++]]. *)
Definition put_chars (buf : cbuf) (length : nat) (cs : list Z) : M (cbuf * nat) :=
  for_all cs (fun c '(buf, length) => buf ← m_lift (cb_set buf length c); mret (buf, S length))
    (buf, length).

(** The loop of [obus_format_array_value], over the indices that remain. *)
Fixpoint format_items (desc : obus_field_desc) (array : option (list value)) (n_items : Z)
    (todo : list Z) (buf : cbuf) (length size : nat) : M (cbuf * nat) :=
  match todo with
  | [] => mret (buf, length)
  | i :: todo' =>
    v ← item_value desc array i;
    buf ← obus_format_value desc v buf length (size_sub size length);
    length ← m_lift (cb_strlen buf);
    if (size <=? length + 6)%nat then
      put_chars buf (size_sub size 6) (chars "...")
    else
      '(buf, length) ← (if u32 (i + 1) <? n_items then put_chars buf length (chars ", ")
                        else mret (buf, length));
      format_items desc array n_items todo' buf length size
  end.

Definition obus_format_array_value (st : obus_struct) (desc : obus_field_desc) (buf : cbuf)
    (size : nat) : M cbuf :=
  array ← get_arr st (obus_field_address desc);
  n_items ← get_num st (obus_field_array_nb_address desc);
  text ← m_lift (c_format (chars "[%d]:{") [CInt n_items]);
  buf ← m_lift (cb_snprintf buf 0 size text);
  length ← m_lift (cb_strlen buf);
  '(buf, length) ← format_items desc array n_items (indices n_items) buf length size;
  '(buf, _) ← put_chars buf length [125; 0];
  mret buf.

Definition obus_field_format (st : obus_struct) (desc : obus_field_desc) (buf : cbuf)
    (size : nat) : M cbuf :=
  if is_array (fd_type desc) then obus_format_array_value st desc buf size
  else
    v ← get_val st (obus_field_address desc);
    obus_format_value desc v buf 0 size.

(** ** obus_struct.c *)

Definition obus_field_role_char (desc : obus_field_desc) : Z :=
  match fd_role desc with
  | OBUS_PROPERTY => 80
  | OBUS_METHOD => 77
  | OBUS_ARGUMENT => 65
  end.

Context {EN : Environment} {FN : FieldNames}.

Definition FIELD_BUFFER : nat := 256.

Definition obus_struct_log (st : obus_struct) (level : Z) (s : log_state) : M log_state :=
  '(_, s) ← for_all (fields_of (st_desc st))
    (fun '(i, desc) '(buf, s) =>
       b ← obus_struct_has_field st i;
       if negb b then mret (buf, s) else
       buf ← m_lift (cb_set buf 0 0);
       buf ← obus_field_format st desc buf FIELD_BUFFER;
       text ← m_lift (cb_text buf);
       s ← m_lift (obus_log level (Some (chars "|-%c:%-20.20s = %s"))
                     [CInt (obus_field_role_char desc); CText (field_name (st_desc st) i); CText text] s);
       mret (buf, s)) (cb_new FIELD_BUFFER, s);
  mret s.
End Format.

(** ** The enumeration of obus_object.c *)

(** [obus_method_state_str] and the formatter of its driver. *)
Definition obus_method_state_str (state : Z) : list Z :=
  if state =? 0 then chars "NOT_SUPPORTED" else if state =? 1 then chars "ENABLED"
  else if state =? 2 then chars "DISABLED" else chars "???".

Definition obus_method_state_format (n : Z) (buf : cbuf) (off size : nat) : option cbuf :=
  cb_snprintf buf off size (obus_method_state_str n).
