(* ===== verification/FormatFacts.v ===== *)
(** * The text of fields and structures

    What [obus_field_format] leaves in its buffer, as a function of the contents of
    the field, and the messages of [obus_struct_log]. *)
From Stdlib Require Import Ascii String.
From S2P Require Import Prelude Mem Cstring Utils Addr AddrFacts Buffer Desc Field Struct Printf Log LogFacts Format.

(** What the formatter of an enumeration promises: it prints a text with
    [snprintf], as [obus_method_state_format] does. *)
Class LawfulFormat `{EF : EnumFormat} := {
  enum_text : obus_enum_driver -> Z -> list Z;
  enum_text_no_nul drv n : no_nul (enum_text drv n);
  ed_format_prints drv n buf off size : ed_format drv n buf off size = cb_snprintf buf off size (enum_text drv n)
}.

(** ** The reference texts *)

Section Texts.
Context `{LF : LawfulFormat}.

Definition value_text (f : obus_field_desc) (a : aval) : list Z :=
  match field_type (fd_type f), a with
  | (T_U8 | T_U16 | T_U32 | T_U64), ANum n => print_dec n
  | (T_I8 | T_I16 | T_I32 | T_I64) as t, ANum n => print_dec (to_signed (type_width t) n)
  | T_ENUM, ANum n => enum_text (fd_enum_drv f) n
  | T_BOOL, ANum n => if n =? 0 then chars "FALSE" else chars "TRUE"
  | T_STRING, AStr o => 39 :: default [] o ++ [39]
  | T_F32, ANum n => print_f32 n
  | T_F64, ANum n => print_f64 n
  | _, _ => []
  end.

(** The items, separated by commas. *)
Fixpoint join (ts : list (list Z)) : list Z :=
  match ts with
  | [] => []
  | [t] => t
  | t :: ts' => t ++ chars ", " ++ join ts'
  end.

Definition array_head (n : Z) : list Z := 91 :: print_dec (to_signed 32 n) ++ chars "]:{".

(** A text that does not leave room for its end in [size] bytes is cut. *)
Definition cut_text (size : nat) (body : list Z) : list Z :=
  if (length body + 6 <? size)%nat then body else take (size - 6) body ++ chars "...".

Definition field_text (size : nat) (f : obus_field_desc) (c : fval) : list Z :=
  match c with
  | FScalar a => snprintf size (value_text f a)
  | FArray l =>
    cut_text size (array_head (Z.of_nat (length l)) ++ join (map (value_text f) l)) ++ chars "}"
  end.
End Texts.

(** ** Texts hold no terminator *)

(** The texts of the code, by evaluation. *)
Lemma no_nul_eval s : forallb (fun c => negb (c =? 0)) s = true -> no_nul s.
Proof.
  intros H. apply Forall_forall. intros c Hc ->. apply list_elem_of_In in Hc.
  rewrite forallb_forall in H. by specialize (H 0 Hc).
Qed.

Lemma no_nul_cons c s : c <> 0 -> no_nul s -> no_nul (c :: s).
Proof. by constructor. Qed.

Lemma no_nul_tl s : no_nul s -> no_nul (tl s).
Proof. destruct 1; [constructor|done]. Qed.

Create HintDb nonul discriminated.
#[export] Hint Resolve no_nul_app no_nul_cons no_nul_take no_nul_tl no_nul_dec : nonul.
#[export] Hint Extern 0 (no_nul _) => apply no_nul_eval; reflexivity : nonul.
#[export] Hint Extern 0 (_ <> 0) => discriminate : nonul.

Lemma no_nul_ieee eb mb n : no_nul (print_ieee eb mb n).
Proof.
  unfold print_ieee, print_fixed. cbv zeta.
  repeat match goal with |- context [if ?b then _ else _] => destruct b end; auto 8 with nonul.
Qed.

Lemma cstr_no_nul m s o : cstr_chars m s = Some o -> no_nul (default [] o).
Proof.
  destruct s as [| |p]; cbn; [by intros [= <-]; apply no_nul_eval..|].
  destruct (m_blocks m !! p) as [bs|]; [|done]. cbn.
  destruct (until_nul bs) as [cs|] eqn:E; [|done]. cbn. intros [= <-]. by eapply until_nul_nonzero.
Qed.

Lemma value_text_no_nul `{LF : LawfulFormat} f m v a : denotes m v a -> no_nul (value_text f a).
Proof.
  intros H. unfold value_text. destruct v as [n|s], a as [n'|o]; try done;
    destruct (field_type (fd_type f)); try by constructor.
  all: try apply no_nul_dec; try apply enum_text_no_nul; try apply no_nul_ieee.
  - destruct (n' =? 0); auto with nonul.
  - apply cstr_no_nul in H. auto with nonul.
Qed.

(** ** One value *)

Section Values.
Context `{LF : LawfulFormat}.

Lemma wp_snprintf s rest size t m (Q : cbuf -> mem -> Prop) :
  (0 < size <= length rest)%nat ->
  Q (map Some (s ++ snprintf size t) ++ Some 0 :: drop (length (snprintf size t) + 1) rest) m ->
  wp (m_lift (cb_snprintf (map Some s ++ rest) (length s) size t)) Q m.
Proof. intros H HQ. eapply wp_lift; [|exact HQ]. apply cb_snprintf_app; lia. Qed.

Lemma wp_format_value f v a s rest size m (Q : cbuf -> mem -> Prop) :
  field_type (fd_type f) <> T_UNKNOWN -> value_shape (field_type (fd_type f)) v -> denotes m v a ->
  (0 < size <= length rest)%nat ->
  Q (map Some (s ++ snprintf size (value_text f a)) ++
     Some 0 :: drop (length (snprintf size (value_text f a)) + 1) rest) m ->
  wp (obus_format_value f v (map Some s ++ rest) (length s) size) Q m.
Proof.
  intros Hk Hs Hd Hr. unfold obus_format_value, value_text.
  destruct v as [n|p], a as [n'|o]; cbn in Hd; try done; subst;
    destruct (field_type (fd_type f)); try done; intros HQ; apply wp_bind, wp_ret;
    rewrite ?ed_format_prints.
  all: try by apply wp_snprintf.
  case_bool_decide as Hn.
  - subst p. cbn in Hd. injection Hd as <-. by apply wp_bind, wp_ret, wp_snprintf.
  - destruct o as [cs|].
    + apply wp_bind. eapply wp_m_chars; [exact Hd|]. by apply wp_snprintf.
    + destruct p as [| |p]; cbn in Hd; [done..|].
      destruct (m_blocks m !! p) as [bs|]; [|done]. cbn in Hd. by destruct (until_nul bs).
Qed.
End Values.

(** ** Arrays *)

Lemma size_sub_small a b : (b <= a)%nat -> Z.of_nat a < 2 ^ 64 -> size_sub a b = (a - b)%nat.
Proof. intros H Ha. unfold size_sub, u64. rewrite Z.mod_small by lia. lia. Qed.

Lemma wp_put_chars s rest cs m (Q : cbuf * nat -> mem -> Prop) :
  (length cs <= length rest)%nat ->
  Q (map Some (s ++ cs) ++ drop (length cs) rest, length (s ++ cs)) m ->
  wp (put_chars (map Some s ++ rest) (length s) cs) Q m.
Proof.
  unfold put_chars. revert s rest. induction cs as [|c cs IH]; intros s rest H HQ; cbn [for_all].
  - apply wp_ret. rewrite app_nil_r in HQ. by rewrite drop_0 in HQ.
  - destruct rest as [|o rest]; cbn in H; [lia|]. apply wp_bind, wp_bind.
    eapply wp_lift; [apply cb_set_app|]. apply wp_ret.
    replace (S (length s)) with (length (s ++ [c])) by (rewrite length_app; cbn; lia).
    apply IH; [lia|]. by rewrite <- app_assoc.
Qed.

(** What [snprintf] leaves after a text [s] in [size] bytes. *)
Lemma snprintf_after s t size : (length s < size)%nat ->
  s ++ snprintf (size - length s) t = take (size - 1) (s ++ t).
Proof.
  intros H. unfold snprintf. rewrite take_app, (take_ge s) by lia. do 2 f_equal. lia.
Qed.

Section Arrays.
Context `{LF : LawfulFormat}.

Lemma wp_item_value f vs k v m (Q : value -> mem -> Prop) :
  field_desc_ok f -> vs !! k = Some v -> Q v m -> wp (item_value f (Some vs) (Z.of_nat k)) Q m.
Proof.
  intros F Hv HQ. unfold item_value. rewrite array_item_some by done.
  destruct (field_type (fd_type f)); apply (wp_item_get _ _ _ v); by rewrite ?Nat2Z.id; try lia.
Qed.

(** One value in the array, then the length of the text. *)
Lemma wp_format_item f v a s rest size m (K : cbuf -> nat -> M (cbuf * nat)) R :
  field_type (fd_type f) <> T_UNKNOWN -> value_shape (field_type (fd_type f)) v -> denotes m v a ->
  no_nul s -> (length s < size)%nat -> (length s + length rest = size)%nat -> Z.of_nat size < 2 ^ 64 ->
  (forall s1 rest1, s1 = take (size - 1) (s ++ value_text f a) -> no_nul s1 ->
     (length s1 + S (length rest1) = size)%nat ->
     wp (K (map Some s1 ++ Some 0 :: rest1) (length s1)) R m) ->
  wp (buf ← obus_format_value f v (map Some s ++ rest) (length s) (size_sub size (length s));
      length ← m_lift (cb_strlen buf); K buf length) R m.
Proof.
  intros Hk Hv Hd Hn Hl Hr Hz HK. rewrite size_sub_small by lia. apply wp_bind.
  eapply wp_format_value; [done..|lia|]. rewrite snprintf_after by lia.
  set (s1 := take (size - 1) (s ++ value_text f a)).
  assert (no_nul s1) as Hs1 by (apply no_nul_take, no_nul_app; [done|by eapply value_text_no_nul]).
  apply wp_bind. eapply wp_lift; [unfold cb_strlen; by rewrite cb_text_nul|].
  apply HK; [done|done|]. pose proof (f_equal length (snprintf_after s (value_text f a) size Hl)) as E.
  fold s1 in E. rewrite <- E, length_app, length_drop. unfold snprintf. rewrite length_take. lia.
Qed.

(** A buffer that starts with the text [s], of which [length] is the length. *)
Definition starts (size : nat) (s : list Z) (r : cbuf * nat) : Prop :=
  exists rest, r = (map Some s ++ rest, length s) /\ (length s + length rest)%nat = size.

Lemma cut_text_cut s1 size text0 w :
  s1 = take (size - 1) text0 -> (size <= length s1 + 6)%nat ->
  cut_text size (text0 ++ w) = take (size - 6) s1 ++ chars "...".
Proof.
  intros -> H. rewrite length_take in H. unfold cut_text. rewrite length_app.
  rewrite (proj2 (Nat.ltb_ge _ _)) by lia. f_equal.
  rewrite take_app_le by lia. rewrite take_take. f_equal. lia.
Qed.

Lemma wp_cut s1 rest1 size text0 w m :
  s1 = take (size - 1) text0 -> (size <= length s1 + 6)%nat -> (6 <= size)%nat ->
  (length s1 + S (length rest1) = size)%nat -> Z.of_nat size < 2 ^ 64 ->
  wp (put_chars (map Some s1 ++ Some 0 :: rest1) (size_sub size 6) (chars "..."))
     (fun r m' => m' = m /\ starts size (cut_text size (text0 ++ w)) r) m.
Proof.
  intros E Hc Hz Hl Hb. rewrite size_sub_small by lia.
  rewrite (cut_text_cut s1) by done. set (n := (size - 6)%nat).
  assert (length (take n s1) = n) as Ht by (rewrite length_take; lia).
  replace (map Some s1 ++ Some 0 :: rest1)
    with (map Some (take n s1) ++ map Some (drop n s1) ++ Some 0 :: rest1)
    by by rewrite app_assoc, <- map_app, take_drop.
  assert (forall b cs, put_chars b n cs = put_chars b (length (take n s1)) cs) as -> by by rewrite Ht.
  apply wp_put_chars.
  { rewrite length_app, length_map, length_drop. cbn [length]. change (length (chars "...")) with 3%nat. lia. }
  split; [done|]. eexists. split; [done|].
  rewrite length_drop, !length_app, length_map, length_drop, Ht. cbn [length].
  change (length (chars "...")) with 3%nat. lia.
Qed.

Lemma join_cons t ts : exists w, join (t :: ts) = t ++ w.
Proof. destruct ts; [exists []; by rewrite app_nil_r|by eexists]. Qed.

Lemma whole_text (s1 text0 : list Z) size :
  s1 = take (size - 1) text0 -> (length s1 + 6 < size)%nat -> s1 = text0.
Proof. intros -> H. rewrite length_take in H. rewrite take_ge; [done|lia]. Qed.

Lemma wp_format_items f vs l ts k s rest size m :
  field_desc_ok f -> Forall (value_shape (field_type (fd_type f))) vs -> Forall2 (denotes m) vs l ->
  Z.of_nat (length l) < 2 ^ 32 -> drop k l = ts ->
  no_nul s -> (length s + length rest = size)%nat -> Z.of_nat size < 2 ^ 64 ->
  (length s + 4 < size)%nat -> (6 <= size)%nat -> (ts = [] -> (length s + 6 < size)%nat) ->
  wp (format_items f (Some vs) (Z.of_nat (length l)) (map Z.of_nat (seq k (length l - k)))
        (map Some s ++ rest) (length s) size)
     (fun r m' => m' = m /\ starts size (cut_text size (s ++ join (map (value_text f) ts))) r) m.
Proof.
  intros F Hsh Hd Hn. revert k s rest. induction ts as [|a ts IH]; intros k s rest Hts Hs Hr Hz H4 H6 He.
  - assert (length l <= k)%nat as Hk.
    { apply (f_equal length) in Hts. rewrite length_drop in Hts. cbn in Hts. lia. }
    replace (length l - k)%nat with 0%nat by lia. apply wp_ret. split; [done|].
    cbn. rewrite app_nil_r. unfold cut_text. rewrite (proj2 (Nat.ltb_lt _ _)) by auto.
    by exists rest.
  - assert (l !! k = Some a) as Ha by (rewrite <- (Nat.add_0_r k), <- lookup_drop, Hts; done).
    pose proof (lookup_lt_Some _ _ _ Ha) as Hk.
    destruct (Forall2_lookup_r _ _ _ _ _ Hd Ha) as (v & Hv & Hva).
    replace (length l - k)%nat with (S (length l - S k)) by lia. cbn [seq map format_items].
    apply wp_bind, (wp_item_value _ _ _ v); [done..|].
    assert (value_shape (field_type (fd_type f)) v) as Hvs by by eapply Forall_lookup_1.
    eapply wp_format_item; [by apply fo_known|exact Hvs|exact Hva|done|lia|done|done|].
    intros s1 rest1 E1 Hs1 Hl1. destruct (Nat.leb_spec size (length s1 + 6)) as [Hc|Hc].
    + destruct (join_cons (value_text f a) (map (value_text f) ts)) as [w Hw].
      cbn [map]. rewrite Hw, app_assoc. by eapply wp_cut.
    + apply (whole_text _ _ _ E1) in Hc as Es. clear E1. subst s1. rewrite u32_small by lia.
      assert (drop (S k) l = ts) as Hts' by by rewrite <- Nat.add_1_r, <- drop_drop, Hts.
      apply (f_equal length) in Hts' as Hlen. rewrite length_drop in Hlen.
      destruct ts as [|b ts].
      * cbn in Hlen. rewrite (proj2 (Z.ltb_ge _ _)) by lia. apply wp_bind, wp_ret.
        eapply wp_mono; [apply IH; try done; cbn [length]; lia|].
        intros r m' H. change (join (map (value_text f) [])) with (@nil Z) in H.
        rewrite app_nil_r in H. exact H.
      * cbn in Hlen. rewrite (proj2 (Z.ltb_lt _ _)) by lia. apply wp_bind, wp_put_chars.
        { change (length (chars ", ")) with 2%nat. cbn [length]. lia. }
        eapply wp_mono; [apply IH; try done|].
        all: try (rewrite ?length_drop, !length_app in *; change (length (chars ", ")) with 2%nat; cbn [length] in *; lia).
        { auto with nonul. }
        intros r m' H. cbn [map join] in *. rewrite <- !app_assoc in H. exact H.
Qed.

Lemma array_head_length n : 0 <= n < 2 ^ 32 -> (length (array_head n) <= 40)%nat.
Proof.
  intros H. assert (- 2 ^ 31 <= to_signed 32 n <= 2 ^ 31) as Hs.
  { unfold to_signed. destruct (Z.ltb_spec n (2 ^ (32 - 1))); cbn in *; lia. }
  assert (forall z, 0 <= z <= 2 ^ 31 -> (length (decimal (S (Z.to_nat (Z.log2 z))) z []) <= 33)%nat) as Hd.
  { intros z Hz. etransitivity; [apply decimal_length|]. pose proof (Z.log2_le_mono z (2 ^ 31) ltac:(lia)) as Hl.
    change (Z.log2 (2 ^ 31)) with 31 in Hl. lia. }
  unfold array_head, print_dec. cbn [length]. rewrite length_app. change (length (chars "]:{")) with 3%nat.
  destruct (Z.ltb_spec (to_signed 32 n) 0); cbn [length].
  - specialize (Hd (- to_signed 32 n) ltac:(lia)). lia.
  - specialize (Hd (to_signed 32 n) ltac:(lia)). lia.
Qed.

Lemma array_head_format n : 0 <= n < 2 ^ 32 ->
  c_format (chars "[%d]:{") [CInt n] = Some (array_head n).
Proof.
  intros H. transitivity (Some (91 :: print_dec (to_signed 32 (u32 n)) ++ chars "]:{")).
  - cbv -[u32 to_signed print_dec app]. done.
  - unfold array_head. by rewrite u32_small.
Qed.

Lemma array_head_no_nul n : no_nul (array_head n).
Proof. unfold array_head. auto with nonul. Qed.

Lemma indices_seq (l : list aval) : indices (Z.of_nat (length l)) = map Z.of_nat (seq 0 (length l - 0)).
Proof. unfold indices. by rewrite Nat2Z.id, Nat.sub_0_r. Qed.

(** The end of the text of an array. *)
Lemma cut_text_length size body : (6 <= size)%nat -> (length (cut_text size body) + 3 <= size)%nat.
Proof.
  intros H. unfold cut_text. destruct (Nat.ltb_spec (length body + 6) size); [lia|].
  rewrite length_app, length_take. change (length (chars "...")) with 3%nat. lia.
Qed.

Lemma cut_text_no_nul size body : no_nul body -> no_nul (cut_text size body).
Proof.
  intros H. unfold cut_text. destruct (_ <? _)%nat; auto with nonul.
Qed.

Lemma join_no_nul ts : Forall no_nul ts -> no_nul (join ts).
Proof.
  induction 1 as [|t ts Ht H IH]; [constructor|]. destruct ts; [done|].
  cbn [join]. auto with nonul.
Qed.

Definition text_of (size : nat) (t : list Z) (m : mem) (buf : cbuf) (m' : mem) : Prop :=
  m' = m /\ length buf = size /\ cb_text buf = Some t.

Lemma wp_format_array st f l buf size m :
  field_desc_ok f -> field_shape (st_mem st) f -> field_denotes m (st_mem st) f (FArray l) ->
  length buf = size -> (64 <= size)%nat -> Z.of_nat size < 2 ^ 64 ->
  wp (obus_format_array_value st f buf size) (text_of size (field_text size f (FArray l)) m) m.
Proof.
  intros F Hsh (Ha & Hn & arr & Harr & Hl) Hb Hs Hz. unfold field_shape in Hsh. rewrite Ha in Hsh.
  destruct Hsh as [(arr' & Harr' & Hvs) (n & Hn' & Hr)].
  rewrite Hn in Hn'. injection Hn' as <-. rewrite Harr in Harr'. injection Harr' as <-.
  unfold obus_format_array_value, get_arr, get_num, get_val, obus_field_address, obus_field_array_nb_address.
  rewrite Harr, Hn. apply wp_bind, wp_ret, wp_bind, wp_bind, wp_ret, wp_ret.
  apply wp_bind. eapply wp_lift; [by apply array_head_format|].
  set (h := array_head _). pose proof (array_head_length _ Hr) as Hh. fold h in Hh.
  assert (no_nul h) as Hnh by apply array_head_no_nul.
  apply wp_bind. change buf with (map Some [] ++ buf). change 0%nat with (length (@nil Z)) at 1.
  apply wp_snprintf; [lia|]. cbn [app]. unfold snprintf. rewrite (take_ge h) by lia.
  apply wp_bind. eapply wp_lift; [unfold cb_strlen; by rewrite cb_text_nul|].
  set (rest := Some 0 :: _). assert (length h + length rest = size)%nat as Hrest.
  { unfold rest. cbn [length]. rewrite length_drop. lia. }
  assert (no_nul (h ++ join (map (value_text f) l))) as Hbody.
  { apply no_nul_app; [done|]. apply join_no_nul. destruct Hl as [->|(vs & _ & Hd)]; [constructor|].
    apply Forall_map. clear -Hd LF. induction Hd as [|v a vs l Hva _ IH]; constructor; [by eapply value_text_no_nul|done]. }
  apply wp_bind. eapply wp_mono with (Q1 := fun r m' => m' = m /\
    starts size (cut_text size (h ++ join (map (value_text f) l))) r).
  { rewrite indices_seq. destruct Hl as [->|(vs & -> & Hd)].
    - cbn [length Nat.sub seq map format_items join]. rewrite app_nil_r. apply wp_ret. split; [done|]. unfold cut_text.
      rewrite (proj2 (Nat.ltb_lt _ _)) by (clearbody h; lia). by exists rest.
    - apply wp_format_items; try done; [by apply Hvs|lia..]. }
  intros r m' (-> & rest' & -> & Hl'). set (body := cut_text _ _) in *.
  pose proof (cut_text_length size (h ++ join (map (value_text f) l)) ltac:(lia)) as Hc. fold body in Hc.
  apply wp_bind, wp_put_chars; [cbn; lia|]. apply wp_ret. cbn [field_text]. fold h body.
  split; [done|]. split.
  - rewrite length_app, length_map, length_drop, length_app. cbn [length]. lia.
  - change [125; 0] with ([125] ++ [0]). rewrite app_assoc, map_app, <- app_assoc. cbn [map app].
    apply cb_text_nul, no_nul_app; [by apply cut_text_no_nul|by apply no_nul_eval].
Qed.

Lemma wp_field_format st f c buf size m :
  field_desc_ok f -> field_shape (st_mem st) f -> field_denotes m (st_mem st) f c ->
  length buf = size -> (64 <= size)%nat -> Z.of_nat size < 2 ^ 64 ->
  wp (obus_field_format st f buf size) (text_of size (field_text size f c) m) m.
Proof.
  intros F Hsh Hd Hb Hs Hz. unfold obus_field_format. destruct c as [a|l].
  - destruct Hd as (Ha & v & Hv & Hd). unfold field_shape in Hsh. rewrite Ha in *.
    destruct Hsh as (v' & Hv' & Hvs). rewrite Hv in Hv'. injection Hv' as <-.
    unfold get_val, obus_field_address. rewrite Hv. apply wp_bind, wp_ret.
    change buf with (map Some [] ++ buf). change 0%nat with (length (@nil Z)).
    eapply wp_format_value; [by apply fo_known|exact Hvs|exact Hd|cbn; lia|].
    cbn [app field_text]. split; [done|]. split.
    + rewrite length_app, length_map. unfold snprintf. cbn [length]. rewrite length_drop, length_take. lia.
    + apply cb_text_nul, no_nul_take. by eapply value_text_no_nul.
  - rewrite (proj1 Hd). by apply wp_format_array.
Qed.
End Arrays.

(** ** The log of a structure *)

Section StructLog.
Context `{LF : LawfulFormat} {EN : Environment} {FN : FieldNames}.

(** One message for each field that is present. *)
Definition field_message (d : obus_struct_desc) (x : nat * obus_field_desc * fval)
  : list Z * list carg :=
  let '(i, f, c) := x in
  (chars "|-%c:%-20.20s = %s",
   [CInt (obus_field_role_char f); CText (field_name d i); CText (field_text FIELD_BUFFER f c)]).

Definition struct_messages (d : obus_struct_desc) (cs : list (option fval)) : list (list Z * list carg) :=
  map (field_message d) (present 0 (sd_fields d) cs).

(** The body of the loop of [obus_struct_log]. *)
Notation log_body st level := (fun '(i, desc) '(buf, s) =>
   b ← obus_struct_has_field st i;
   if negb b then mret (buf, s) else
   buf ← m_lift (cb_set buf 0 0);
   buf ← obus_field_format st desc buf FIELD_BUFFER;
   text ← m_lift (cb_text buf);
   s ← m_lift (obus_log level (Some (chars "|-%c:%-20.20s = %s"))
                 [CInt (obus_field_role_char desc); CText (field_name (st_desc st) i); CText text] s);
   mret (buf, s)).

Lemma wp_log_fields m st cs fs k level buf s s' :
  struct_shape st ->
  (forall i f o, fs !! i = Some f -> cs !! i = Some o ->
     (k + i < length (sd_fields (st_desc st)))%nat /\ field_desc_ok f /\ field_shape (st_mem st) f /\
     has st (k + i)%nat = bool_decide (is_Some o) /\
     forall c, o = Some c -> field_denotes m (st_mem st) f c) ->
  length cs = length fs -> length buf = FIELD_BUFFER ->
  log_all level (map (field_message (st_desc st)) (present k fs cs)) s = Some s' ->
  wp (for_all (imap (fun i f => ((k + i)%nat, f)) fs) (log_body st level) (buf, s))
     (fun r m' => m' = m /\ snd r = s') m.
Proof.
  intros SS. revert cs k buf s.
  induction fs as [|f fs IH]; intros [|o cs] k buf s H Hl Hb Hlog; try done; cbn [imap].
  { injection Hlog as <-. by apply wp_ret. }
  destruct (H 0%nat f o eq_refl eq_refl) as (Hk & F & Hsh & Hh & Hc). rewrite Nat.add_0_r in Hk, Hh.
  replace (imap ((fun i f => ((k + i)%nat, f)) ∘ S) fs)
    with (imap (fun i f => ((S k + i)%nat, f)) fs)
    by (apply imap_ext; intros i x _; cbn; f_equal; lia).
  assert (forall i f' o', fs !! i = Some f' -> cs !! i = Some o' ->
     (S k + i < length (sd_fields (st_desc st)))%nat /\ field_desc_ok f' /\ field_shape (st_mem st) f' /\
     has st (S k + i)%nat = bool_decide (is_Some o') /\
     forall c, o' = Some c -> field_denotes m (st_mem st) f' c) as H'.
  { intros i f' o' Hi Ho. destruct (H (S i) f' o' Hi Ho) as (? & ? & ? & ? & ?).
    rewrite <- (Nat.add_succ_comm k i) in *. done. }
  cbn [for_all]. rewrite Nat.add_0_r. apply wp_bind, wp_bind, wp_has_field; [done|done|]. rewrite Hh.
  destruct o as [c|]; cbn [present map] in Hlog.
  - rewrite bool_decide_true by by eexists. cbn [negb].
    destruct buf as [|b0 buf]; [done|]. apply wp_bind.
    eapply wp_lift; [apply (cb_set_app [] b0 buf 0)|]. apply wp_bind.
    eapply wp_mono; [apply (wp_field_format st f c _ FIELD_BUFFER); auto; unfold FIELD_BUFFER in *; cbn in *; lia|].
    intros buf' m' (-> & Hb' & Ht). apply wp_bind. eapply wp_lift; [exact Ht|].
    cbn [field_message log_all] in Hlog.
    destruct (obus_log level _ _ s) as [s1|]; [|done]. cbn [mbind option_bind] in Hlog.
    apply wp_bind. eapply wp_lift; [reflexivity|]. apply wp_ret. injection Hl as Hl. by eapply IH.
  - rewrite bool_decide_false by by intros []. cbn [negb]. apply wp_ret. injection Hl as Hl. by eapply IH.
Qed.

Lemma wp_struct_log st cs level s s' m :
  struct_shape st -> struct_denotes m st cs ->
  log_all level (struct_messages (st_desc st) cs) s = Some s' ->
  wp (obus_struct_log st level s) (fun r m' => m' = m /\ r = s') m.
Proof.
  intros SS SD Hlog. unfold obus_struct_log. apply wp_bind.
  eapply wp_mono; [apply (wp_log_fields m st cs (sd_fields (st_desc st)) 0 level _ s s' SS)|].
  - intros i f o Hf Ho. split; [by eapply lookup_lt_Some|].
    split; [by eapply Forall_lookup_1; [apply (do_fields _ (ss_desc _ SS))|]|].
    split; [by eapply Forall_lookup_1; [apply (ss_fields _ SS)|]|].
    split; [by apply (sn_has _ _ _ SD)|]. intros c ->. by eapply (sn_fields _ _ _ SD).
  - by apply (sn_length _ _ _ SD).
  - done.
  - done.
  - intros [buf r] m' [-> Hr]. by apply wp_ret.
Qed.
End StructLog.

Section Theorems.
Context `{LF : LawfulFormat} {EN : Environment} {FN : FieldNames}.

Lemma field_text_fits size f c : (6 <= size)%nat -> (length (field_text size f c) < size)%nat.
Proof.
  intros H. destruct c as [a|l]; cbn [field_text].
  - unfold snprintf. rewrite length_take. lia.
  - rewrite length_app. pose proof (cut_text_length size
      (array_head (Z.of_nat (length l)) ++ join (map (value_text f) l)) H). cbn [length]. change (length (chars "}")) with 1%nat. lia.
Qed.

(** C38: the log of a structure shows its contents. Whatever the structure holds,
    with items of any number and strings of any length, and whatever the log
    callback is, [obus_struct_log] never reads a byte of its buffer that was not
    written nor one outside of it, leaves the heap as it was, and is the messages
    of [struct_messages]: one for each field that is present, in the order of the
    description, with the role, the name and the text of the field: numbers in
    decimal with their sign, quoted strings, arrays with their length and their items,
    cut with an ellipsis when they do not fit.  Each text fits the 256 bytes. *)
Theorem struct_log_shows_contents st cs level s s' m :
  struct_shape st -> struct_denotes m st cs ->
  log_all level (struct_messages (st_desc st) cs) s = Some s' ->
  wp (obus_struct_log st level s) (fun r m' => m' = m /\ r = s') m /\
  (forall f c, (length (field_text FIELD_BUFFER f c) < FIELD_BUFFER)%nat).
Proof.
  intros SS SD H. split; [by eapply wp_struct_log|].
  intros f c. apply field_text_fits. unfold FIELD_BUFFER. lia.
Qed.
End Theorems.

(** ** Witness *)

(** The formatter of obus_object.c, for every driver. *)
Definition state_format : EnumFormat := fun _ => obus_method_state_format.

Lemma method_state_str_no_nul n : no_nul (obus_method_state_str n).
Proof.
  unfold obus_method_state_str.
  repeat match goal with |- context [if ?b then _ else _] => destruct b end; auto with nonul.
Qed.

Definition state_lawful : @LawfulFormat state_format :=
  {| enum_text _ := obus_method_state_str;
     enum_text_no_nul _ := method_state_str_no_nul;
     ed_format_prints _ _ _ _ _ := eq_refl |}.

Definition wit_names : FieldNames := fun _ i => nth i [chars "age"; chars "name"; chars "marks"; chars "tags"] [].

Lemma struct_log_shows_contents_witness :
  wp (@obus_struct_log state_format (fun _ => None) wit_names wit_struct OBUS_LOG_INFO log_state_init)
     (fun r m' => m' = wit_mem /\ r = LogState (Some LogStderr) 0
        (chars "[I]: |-P:age                  = 5" ++ 10 ::
         chars "[I]: |-P:name                 = 'hi'" ++ 10 ::
         chars "[I]: |-P:marks                = [2]:{1, 2}" ++ [10]) []) wit_mem.
Proof.
  refine (proj1 (@struct_log_shows_contents state_format state_lawful (fun _ => None) wit_names
    wit_struct wit_contents OBUS_LOG_INFO log_state_init _ wit_mem wit_struct_shape wit_struct_denotes _)).
  vm_compute. reflexivity.
Defined.
