(* ===== verification/Logs.v ===== *)
(** * The log functions of objects, events, calls, bus events, packets and apis

    obus_object.c, obus_event.c, obus_call.c, obus_bus_event.c, obus_bus_api.c,
    obus_packet.c, obus_server.c and obus_client.c: their [*_log] and [*_str]
    functions.  The handlers of the other files leave out their calls; the theorem
    of this file shows what they would add: they are defined, and change nothing
    but the log. *)
From Stdlib Require Import Ascii String.
From S2P Require Import Prelude Mem Cstring Utils Buffer Desc Field Struct Hash BusApi World Packet Printf Log LogFacts Format FormatFacts.

(** The [name] of each kind of description. *)
Class DescNames := {
  object_name : obus_object_desc -> list Z;
  event_name : obus_event_desc -> list Z;
  method_name : obus_method_desc -> list Z;
  bus_event_name : obus_bus_event_desc -> list Z;
  bus_name : obus_bus_desc -> list Z
}.

(** ** Names of the values of enumerations *)

Definition obus_call_status_str (status : obus_call_status) : list Z :=
  match status with
  | OBUS_CALL_INVALID => chars "INVALID"
  | OBUS_CALL_ACKED => chars "ACKED"
  | OBUS_CALL_REFUSED => chars "REFUSED"
  | OBUS_CALL_ABORTED => chars "ABORTED"
  | OBUS_CALL_METHOD_DISABLED => chars "METHOD_DISABLED"
  | OBUS_CALL_METHOD_NOT_SUPPORTED => chars "METHOD_NOT_SUPPORTED"
  | OBUS_CALL_INVALID_ARGUMENTS => chars "INVALID_ARGUMENTS"
  | OBUS_CALL_STATUS _ => chars "INVALID"
  end.

(** The tables of strings; an index out of the table is an access out of bounds. *)
Definition obus_pkt_types : list (list Z) :=
  [chars "CONREQ"; chars "CONRESP"; chars "ADD"; chars "REMOVE"; chars "BUS_EVENT";
   chars "EVENT"; chars "CALL"; chars "ACK"].

Definition conresp_status : list (list Z) := [chars "ACCEPTED"; chars "REFUSED"].

Definition obus_conresp_status_str (status : Z) : option (list Z) :=
  if OBUS_CONRESP_STATUS_COUNT <=? status then Some (chars "<INVALID>")
  else conresp_status !! Z.to_nat status.

Definition obus_peer_event_str (event : Z) : list Z :=
  if event =? 0 then chars "CONNECTING" else if event =? 1 then chars "CONNECTED"
  else if event =? 2 then chars "DISCONNECTED" else chars "INVALID".

Definition states : list (list Z) :=
  [chars "IDLE"; chars "CONNECTING"; chars "CONNECTED"; chars "DISCONNECTING";
   chars "DISCONNECTED"; chars "REFUSED"].

Definition obus_client_state_str (state : Z) : option (list Z) :=
  if Z.of_nat (length states) <=? state then Some (chars "<INVALID>") else states !! Z.to_nat state.

(** ** Logs *)

Section Logs.
Context {EF : EnumFormat} {EN : Environment} {FN : FieldNames} {DN : DescNames}.

Definition w_log (level : Z) (fmt : list Z) (args : list carg) (s : log_state) : W log_state :=
  lift (m_lift (obus_log level (Some fmt) args s)).

Definition obus_object_log (obj : option positive) (level : Z) (s : log_state) : W log_state :=
  match obj with
  | None => mret s
  | Some obj =>
    o ← get_obj obj;
    s ← w_log level (chars "OBJECT:%-17.17s = %d")
          [CText (object_name (ob_desc o)); CInt (ob_handle o)] s;
    lift (obus_struct_log (ob_info o) level s)
  end.

(** The line of the object a member belongs to. *)
Definition log_owner (obj : positive) (level : Z) (s : log_state) : W log_state :=
  o ← get_obj obj;
  w_log level (chars "|-O:%-20.20s = %d") [CText (object_name (ob_desc o)); CInt (ob_handle o)] s.

Definition obus_event_log (event : option positive) (level : Z) (s : log_state) : W log_state :=
  match event with
  | None => mret s
  | Some event =>
    e ← get_evt event;
    s ← w_log level (chars "EVENT:%-17.17s") [CText (event_name (ev_desc e))] s;
    s ← log_owner (ev_obj e) level s;
    lift (obus_struct_log (ev_info e) level s)
  end.

(** The arguments of a call, when it has a structure for them. *)
Definition log_args (args : option obus_struct) (level : Z) (s : log_state) : W log_state :=
  match args with
  | Some st => lift (obus_struct_log st level s)
  | None => mret s
  end.

Definition obus_call_log (call : positive) (level : Z) (s : log_state) : W log_state :=
  c ← get_call call;
  s ← w_log level (chars "CALL:%-19.19s = %d") [CText (method_name (cl_desc c)); CInt (cl_handle c)] s;
  s ← log_owner (cl_obj c) level s;
  match cl_args_desc c with
  | Some _ => log_args (cl_args c) level s
  | None => mret s
  end.

Definition obus_ack_log (ack : obus_ack) (call : option positive) (level : Z) (s : log_state)
  : W log_state :=
  match call with
  | Some call =>
    c ← get_call call;
    s ← w_log level (chars "ACK:%s") [CText (obus_call_status_str (ack_status ack))] s;
    s ← w_log level (chars "|-C:%-20.20s = %d")
          [CText (method_name (cl_desc c)); CInt (ack_handle ack)] s;
    s ← log_owner (cl_obj c) level s;
    log_args (cl_args c) level s
  | None =>
    s ← w_log level (chars "ACK:%s") [CText (obus_call_status_str (ack_status ack))] s;
    w_log level (chars "|-C:%-20.20s = %d") [CText (chars "???"); CInt (ack_handle ack)] s
  end.

Definition list_size (l : list positive) : carg := CInt (Z.of_nat (length l)).

Definition obus_bus_event_log (event : option positive) (level : Z) (only_header : bool)
    (s : log_state) : W log_state :=
  match event with
  | None => mret s
  | Some event =>
    b ← get_bev event;
    s ← w_log level (chars "BUS EVENT:%-15.15s") [CText (bus_event_name (be_desc b))] s;
    s ← w_log level (chars "|-%zu objects registered") [list_size (be_add_objs b)] s;
    s ← w_log level (chars "|-%zu objects unregistered") [list_size (be_remove_objs b)] s;
    s ← w_log level (chars "|-%zu objects events") [list_size (be_obj_events b)] s;
    if only_header then mret s else
    s ← w_fold (be_add_objs b) (fun obj s =>
          s ← w_log level (chars "object registered:") [] s;
          obus_object_log (Some obj) level s) s;
    s ← w_fold (be_remove_objs b) (fun obj s =>
          s ← w_log level (chars "object unregistered:") [] s;
          obus_object_log (Some obj) level s) s;
    w_fold (be_obj_events b) (fun evt s =>
      s ← w_log level (chars "event sent:") [] s;
      obus_event_log (Some evt) level s) s
  end.

(** ** The description of a bus *)

(** A line of a description, at the level [OBUS_LOG_INFO]. *)
Definition log_desc (fmt : list Z) (uid : Z) (name : list Z) (s : log_state) : option log_state :=
  obus_log OBUS_LOG_INFO (Some fmt) [CInt uid; CText name] s.

Fixpoint log_descs {D} (fmt : list Z) (uid : D -> Z) (name : D -> list Z) (l : list D)
    (s : log_state) : option log_state :=
  match l with
  | [] => Some s
  | d :: l' => s ← log_desc fmt (uid d) (name d) s; log_descs fmt uid name l' s
  end.

Definition obus_bus_api_log_object (obj : obus_object_desc) (s : log_state) : option log_state :=
  s ← log_desc (chars "OD[%03d]:'%s'") (od_uid obj) (object_name obj) s;
  s ← log_descs (chars "|--MD[%03d]:'%s'") md_uid method_name (od_methods obj) s;
  log_descs (chars "|--ED[%03d]:'%s'") evd_uid event_name (od_events obj) s.

Fixpoint log_objects (l : list obus_object_desc) (s : log_state) : option log_state :=
  match l with
  | [] => Some s
  | obj :: l' => s ← obus_bus_api_log_object obj s; log_objects l' s
  end.

Definition obus_bus_api_log (api : obus_bus_api) (s : log_state) : option (Z * log_state) :=
  s ← obus_log OBUS_LOG_INFO (Some (chars "'%s' bus description:")) [CText (bus_name (api_desc api))] s;
  s ← log_objects (bd_objects (api_desc api)) s;
  s ← log_descs (chars "BED[%03d]:'%s'") bed_uid bus_event_name (bd_events (api_desc api)) s;
  Some (0, s).

Definition obus_packet_log_header (hdr : obus_packet_header) (s : log_state) : option log_state :=
  type ← obus_pkt_types !! Z.to_nat (hdr_type hdr);
  obus_log OBUS_LOG_DEBUG (Some (chars "PACKET[%s]: %d bytes")) [CText type; CInt (hdr_size hdr)] s.
End Logs.

(** ** What is logged *)

Section Messages.
Context `{LF : LawfulFormat} {EN : Environment} {FN : FieldNames} {DN : DescNames}.

(** The computation logs the messages [msgs], and changes nothing else. *)
Definition logs (level : Z) (w : world) (m : mem) (c : log_state -> W log_state)
    (msgs : list (list Z * list carg)) : Prop :=
  forall s s', log_all level msgs s = Some s' ->
    wpw (c s) (fun r w' m' => r = s' /\ w' = w /\ m' = m) w m.

Lemma logs_nil level w m : logs level w m (fun s => mret s) [].
Proof. intros s s' [= <-]. by apply wpw_ret. Qed.

Lemma logs_seq level w m c1 c2 a b :
  logs level w m c1 a -> logs level w m c2 b -> logs level w m (fun s => s ← c1 s; c2 s) (a ++ b).
Proof.
  intros H1 H2 s s' H. rewrite log_all_app in H. destruct (log_all level a s) as [s1|] eqn:E; [|done].
  apply wpw_bind. eapply wpw_mono; [by apply H1|]. intros r w' m' (-> & -> & ->). by apply H2.
Qed.

Lemma logs_last level w m fmt args : logs level w m (w_log level fmt args) [(fmt, args)].
Proof.
  intros s s' H. cbn [log_all] in H. destruct (obus_log level (Some fmt) args s) as [s1|] eqn:E; [|done].
  injection H as <-. apply wpw_lift. by eapply wp_lift.
Qed.

Lemma logs_one level w m fmt args c b :
  logs level w m c b -> logs level w m (fun s => s ← w_log level fmt args s; c s) ((fmt, args) :: b).
Proof. intros H. exact (logs_seq level w m _ _ [_] b (logs_last _ _ _ _ _) H). Qed.

Lemma logs_get {A} level w m (f : world -> gmap positive A) p x (k : A -> log_state -> W log_state) msgs :
  f w !! p = Some x -> logs level w m (k x) msgs ->
  logs level w m (fun s => y ← w_lookup f p; k y s) msgs.
Proof.
  intros Hp H s s' Hs. apply wpw_bind. eapply wpw_lookup; [exact Hp|]. by apply H.
Qed.

Lemma logs_struct level w m st cs :
  struct_shape st -> struct_denotes m st cs ->
  logs level w m (fun s => lift (obus_struct_log st level s)) (struct_messages (st_desc st) cs).
Proof.
  intros SS SD s s' H. apply wpw_lift. eapply wp_mono; [by eapply wp_struct_log|]. by intros r m' [-> ->].
Qed.

Lemma logs_fold {A} level w m (body : A -> log_state -> W log_state) l mss :
  Forall2 (fun x ms => logs level w m (body x) ms) l mss ->
  logs level w m (w_fold l body) (concat mss).
Proof.
  induction 1 as [|x ms l mss Hx _ IH]; cbn [w_fold concat]; [apply logs_nil|]. by apply logs_seq.
Qed.

(** ** Objects and events as values *)

(** An object of the world with the contents of its structure. *)
Definition logged_object (w : world) (m : mem) (p : positive) (x : obus_object * list (option fval)) : Prop :=
  let '(o, cs) := x in
  w_objs w !! p = Some o /\ struct_shape (ob_info o) /\ struct_denotes m (ob_info o) cs.

Definition object_message (o : obus_object) : list Z * list carg :=
  (chars "OBJECT:%-17.17s = %d", [CText (object_name (ob_desc o)); CInt (ob_handle o)]).
Definition owner_message (o : obus_object) : list Z * list carg :=
  (chars "|-O:%-20.20s = %d", [CText (object_name (ob_desc o)); CInt (ob_handle o)]).

Definition object_messages (x : obus_object * list (option fval)) : list (list Z * list carg) :=
  let '(o, cs) := x in object_message o :: struct_messages (st_desc (ob_info o)) cs.

Definition logged_event (w : world) (m : mem) (p : positive)
    (x : obus_event * obus_object * list (option fval)) : Prop :=
  let '(e, o, cs) := x in
  w_evts w !! p = Some e /\ w_objs w !! ev_obj e = Some o /\
  struct_shape (ev_info e) /\ struct_denotes m (ev_info e) cs.

Definition event_messages (x : obus_event * obus_object * list (option fval)) : list (list Z * list carg) :=
  let '(e, o, cs) := x in
  (chars "EVENT:%-17.17s", [CText (event_name (ev_desc e))]) :: owner_message o ::
  struct_messages (st_desc (ev_info e)) cs.

Lemma logs_object level w m p x :
  logged_object w m p x -> logs level w m (obus_object_log (Some p) level) (object_messages x).
Proof.
  destruct x as [o cs]. intros (Hp & SS & SD). apply (logs_get _ _ _ w_objs _ o); [done|].
  by apply logs_one, logs_struct.
Qed.

Lemma logs_owner level w m p o :
  w_objs w !! p = Some o -> logs level w m (log_owner p level) [owner_message o].
Proof. intros H. apply (logs_get _ _ _ w_objs _ o); [done|]. apply logs_last. Qed.

Lemma logs_event level w m p x :
  logged_event w m p x -> logs level w m (obus_event_log (Some p) level) (event_messages x).
Proof.
  destruct x as [[e o] cs]. intros (Hp & Ho & SS & SD). apply (logs_get _ _ _ w_evts _ e); [done|].
  apply logs_one. apply (logs_seq _ _ _ _ _ [_]); [by apply logs_owner|by apply logs_struct].
Qed.

(** The messages of the members of a bus event, each after its heading. *)
Lemma logs_members {A} level w m (log : positive -> log_state -> W log_state) heading l
    (xs : list A) (msgs : A -> list (list Z * list carg)) (P : positive -> A -> Prop) :
  (forall p x, P p x -> logs level w m (log p) (msgs x)) -> Forall2 P l xs ->
  logs level w m (w_fold l (fun p s => s ← w_log level heading [] s; log p s))
    (flat_map (fun x => (heading, []) :: msgs x) xs).
Proof.
  intros H HP. rewrite flat_map_concat_map. apply logs_fold. apply Forall2_fmap_r.
  eapply Forall2_impl; [exact HP|]. intros p x Hx. apply logs_one. by apply H.
Qed.

Definition bus_event_header (b : obus_bus_event) : list (list Z * list carg) :=
  [(chars "BUS EVENT:%-15.15s", [CText (bus_event_name (be_desc b))]);
   (chars "|-%zu objects registered", [list_size (be_add_objs b)]);
   (chars "|-%zu objects unregistered", [list_size (be_remove_objs b)]);
   (chars "|-%zu objects events", [list_size (be_obj_events b)])].

Definition bus_event_messages (b : obus_bus_event) (adds removes : list (obus_object * list (option fval)))
    (evts : list (obus_event * obus_object * list (option fval))) (only_header : bool)
  : list (list Z * list carg) :=
  bus_event_header b ++
  if only_header then [] else
    flat_map (fun x => (chars "object registered:", []) :: object_messages x) adds ++
    flat_map (fun x => (chars "object unregistered:", []) :: object_messages x) removes ++
    flat_map (fun x => (chars "event sent:", []) :: event_messages x) evts.

Record logged_bus_event (w : world) (m : mem) (b : obus_bus_event)
    (adds removes : list (obus_object * list (option fval)))
    (evts : list (obus_event * obus_object * list (option fval))) : Prop := {
  lb_adds : Forall2 (logged_object w m) (be_add_objs b) adds;
  lb_removes : Forall2 (logged_object w m) (be_remove_objs b) removes;
  lb_events : Forall2 (logged_event w m) (be_obj_events b) evts
}.

(** C36: logging a bus event shows all of it and disturbs nothing. When the objects
    and the events of its lists are live and their structures hold the contents
    [adds], [removes] and [evts], [obus_bus_event_log] is defined, whatever the log
    callback is, leaves the stores of the bus and the heap as they were, and logs
    the numbers of members, then, unless only the header is wanted, each member
    with the contents of its structure, objects registered first, then objects
    unregistered, then events. *)
Theorem bus_event_log_shows_members p b adds removes evts level only_header s s' w m :
  w_bevs w !! p = Some b -> logged_bus_event w m b adds removes evts ->
  log_all level (bus_event_messages b adds removes evts only_header) s = Some s' ->
  wpw (obus_bus_event_log (Some p) level only_header s) (fun r w' m' => r = s' /\ w' = w /\ m' = m) w m.
Proof.
  intros Hp [Ha Hr He]. revert s s'. change (logs level w m (obus_bus_event_log (Some p) level only_header)
    (bus_event_messages b adds removes evts only_header)).
  apply (logs_get _ _ _ w_bevs _ b); [done|]. unfold bus_event_messages, bus_event_header. cbn [app].
  do 4 apply logs_one. destruct only_header; [apply logs_nil|].
  apply logs_seq; [|apply logs_seq]; eapply logs_members; try done; intros q x Hx;
    [by apply logs_object|by apply logs_object|by apply logs_event].
Qed.

(** A call and an acknowledgment, with the contents of the arguments. *)
Definition logged_args (m : mem) (args : option obus_struct) (cs : list (option fval)) : Prop :=
  match args with Some st => struct_shape st /\ struct_denotes m st cs | None => True end.

Definition args_messages (args : option obus_struct) (cs : list (option fval)) : list (list Z * list carg) :=
  match args with Some st => struct_messages (st_desc st) cs | None => [] end.

Lemma logs_args level w m args cs :
  logged_args m args cs -> logs level w m (log_args args level) (args_messages args cs).
Proof. destruct args as [st|]; [|intros _; apply logs_nil]. intros [SS SD]. by apply logs_struct. Qed.

Lemma logs_call level w m p c o cs :
  w_calls w !! p = Some c -> w_objs w !! cl_obj c = Some o -> logged_args m (cl_args c) cs ->
  logs level w m (obus_call_log p level)
    ((chars "CALL:%-19.19s = %d", [CText (method_name (cl_desc c)); CInt (cl_handle c)]) ::
     owner_message o :: match cl_args_desc c with Some _ => args_messages (cl_args c) cs | None => [] end).
Proof.
  intros Hp Ho Hc. apply (logs_get _ _ _ w_calls _ c); [done|]. apply logs_one.
  apply (logs_seq _ _ _ _ _ [_]); [by apply logs_owner|].
  destruct (cl_args_desc c); [by apply logs_args|apply logs_nil].
Qed.

Lemma logs_ack level w m ack p c o cs :
  w_calls w !! p = Some c -> w_objs w !! cl_obj c = Some o -> logged_args m (cl_args c) cs ->
  logs level w m (obus_ack_log ack (Some p) level)
    ((chars "ACK:%s", [CText (obus_call_status_str (ack_status ack))]) ::
     (chars "|-C:%-20.20s = %d", [CText (method_name (cl_desc c)); CInt (ack_handle ack)]) ::
     owner_message o :: args_messages (cl_args c) cs).
Proof.
  intros Hp Ho Hc. apply (logs_get _ _ _ w_calls _ c); [done|]. do 2 apply logs_one.
  apply (logs_seq _ _ _ _ _ [_]); [by apply logs_owner|by apply logs_args].
Qed.
End Messages.

(** ** Witness: a bus event that registers an object and sends an event of it *)

Definition wit_desc_names : DescNames :=
  {| object_name _ := chars "person"; event_name _ := chars "updated"; method_name _ := chars "set";
     bus_event_name _ := chars "arrival"; bus_name _ := chars "people" |}.

Definition wit_logged_evt : obus_event := Event true wit_event 1 true false wit_struct.
Definition wit_logged_bev : obus_bus_event :=
  BusEvent (BusEventDesc 41 1) [1%positive] [] [1%positive] false true.
Definition wit_logged_w : world :=
  set_bevs (set_evts wit_rich_w {[1%positive := wit_logged_evt]}) {[1%positive := wit_logged_bev]}.

Lemma wit_logged : logged_bus_event wit_logged_w wit_mem wit_logged_bev
  [(wit_rich_obj, wit_contents)] [] [(wit_logged_evt, wit_rich_obj, wit_contents)].
Proof.
  repeat (exact wit_struct_shape || exact wit_struct_denotes || reflexivity || constructor).
Qed.

Lemma bus_event_log_shows_members_witness :
  exists s',
    wpw (@obus_bus_event_log state_format (fun _ => None) wit_names wit_desc_names (Some 1%positive)
           OBUS_LOG_INFO false (LogState (Some (LogUser 5)) 0 [] []))
        (fun r w' m' => r = s' /\ w' = wit_logged_w /\ m' = wit_mem) wit_logged_w wit_mem /\
    length (ls_calls s') = 15%nat.
Proof.
  eexists. split.
  - apply (@bus_event_log_shows_members state_format state_lawful (fun _ => None) wit_names wit_desc_names
      1%positive wit_logged_bev _ _ _ _ _ _ _ wit_logged_w wit_mem eq_refl wit_logged).
    rewrite (log_all_user 5) by reflexivity. reflexivity.
  - vm_compute. reflexivity.
Defined.
