(* ===== verification/Socket.v ===== *)
(** * obus_socket.c: socket clients, servers and their peers

    A socket is a block that holds a descriptor object, so the block and the
    object have the same address here.  A client connects, again and again until it
    succeeds, on the expirations of a timer; a server binds likewise, and makes a
    peer for each connection it accepts.  The user is told by callbacks, which may
    create, reconnect and destroy sockets.  A listening or connecting socket is
    watched by the loop. *)
From Stdlib Require Import Ascii String.
From stdpp Require Import infinite.
From S2P Require Import Prelude Mem Cstring World Handler Utils Loop Timer Addr.

(** ** System calls *)

(** Addresses are given and returned as the bytes of a [struct sockaddr];
    [sys_socket_error] is [getsockopt] of [SO_ERROR], [sys_peer_cred] that of
    [SO_PEERCRED], the process. *)
Class SocketKernel (K : Type) := {
  sk_timer :: TimerKernel K;
  sk_dir :: DirKernel K;
  sys_socket : Z -> KM K sysret;
  sys_setsockopt : Z -> Z -> Z -> Z -> KM K sysret;
  sys_shutdown : Z -> KM K sysret;
  sys_unlink : list Z -> KM K sysret;
  sys_bind : Z -> list Z -> KM K sysret;
  sys_listen : Z -> Z -> KM K sysret;
  sys_connect : Z -> list Z -> KM K sysret;
  sys_accept : Z -> KM K (Z * list Z + Z);
  sys_getsockname : Z -> KM K (list Z + Z);
  sys_socket_error : Z -> KM K (Z + Z);
  sys_peer_cred : Z -> KM K (Z + Z)
}.

Definition EADDRNOTAVAIL : Z := 99.
Definition EINPROGRESS : Z := 115.

Definition SOL_SOCKET : Z := 1.
Definition SOL_TCP : Z := 6.
Definition SO_REUSEADDR : Z := 2.
Definition SO_KEEPALIVE : Z := 9.
Definition TCP_KEEPIDLE : Z := 4.
Definition TCP_KEEPINTVL : Z := 5.
Definition TCP_KEEPCNT : Z := 6.

(** ** Sockets *)

(** The interval between two attempts, in milliseconds. *)
Definition OBUS_SOCKET_CONN_INTVL : Z := 500.

Inductive obus_socket_role := OBUS_SOCKET_CLIENT | OBUS_SOCKET_SERVER | OBUS_SOCKET_PEER.

(** The loop is the loop of the state. *)
Record obus_socket_base := Sock {
  sb_fd : Z;
  sb_type : Z;
  sb_role : obus_socket_role
}.

Record obus_socket_client := SockClient {
  kc_sock : obus_socket_base;
  kc_local_addr : obus_socket_addr;
  kc_peer_addr : obus_socket_addr;
  kc_timer : option positive;
  kc_cb : Z;
  kc_user_data : Z;
  kc_log : Z
}.

Record obus_socket_peer := SockPeer {
  kp_sock : obus_socket_base;
  kp_local_addr : obus_socket_addr;
  kp_peer_addr : obus_socket_addr;
  kp_peer_pid : Z;
  kp_srv : positive
}.

Record obus_socket_server := SockServer {
  ks_sock : obus_socket_base;
  ks_timer : option positive;
  ks_addr : obus_socket_addr;
  ks_peers : list positive;
  ks_cb : Z;
  ks_user_data : Z;
  ks_log : Z
}.

(** [sizeof] of the three. *)
Definition SOCKET_CLIENT_SIZE : Z := 416.
Definition SOCKET_SERVER_SIZE : Z := 280.
Definition SOCKET_PEER_SIZE : Z := 416.

Record sstate (X : Type) := SState {
  so_clients : gmap positive obus_socket_client;
  so_servers : gmap positive obus_socket_server;
  so_peers : gmap positive obus_socket_peer;
  so_user : X
}.
Arguments SState {X}.
Arguments so_clients {X}.
Arguments so_servers {X}.
Arguments so_peers {X}.
Arguments so_user {X}.

Notation SM K X := (TM K (sstate X)).

(** The callbacks of the user: [connected_callback cb client user_data] and
    [accept_callback cb server peer user_data]. *)
Class SocketCode (K X : Type) := {
  connected_callback : Z -> positive -> Z -> SM K X unit;
  accept_callback : Z -> positive -> positive -> Z -> SM K X unit
}.

(** The addresses of the functions given to the loop and to the timers. *)
Definition SERVER_EVENTS : Z := 2.
Definition CLIENT_EVENTS : Z := 3.
Definition BIND_TIMER : Z := 1.
Definition CONNECT_TIMER : Z := 2.

Definition with_sock_fd (b : obus_socket_base) fd : obus_socket_base := Sock fd (sb_type b) (sb_role b).
Definition kc_with_sock (c : obus_socket_client) b : obus_socket_client :=
  SockClient b (kc_local_addr c) (kc_peer_addr c) (kc_timer c) (kc_cb c) (kc_user_data c) (kc_log c).
Definition kc_with_local (c : obus_socket_client) a : obus_socket_client :=
  SockClient (kc_sock c) a (kc_peer_addr c) (kc_timer c) (kc_cb c) (kc_user_data c) (kc_log c).
Definition kc_with_timer (c : obus_socket_client) t : obus_socket_client :=
  SockClient (kc_sock c) (kc_local_addr c) (kc_peer_addr c) t (kc_cb c) (kc_user_data c) (kc_log c).
Definition kp_with_sock (c : obus_socket_peer) b : obus_socket_peer :=
  SockPeer b (kp_local_addr c) (kp_peer_addr c) (kp_peer_pid c) (kp_srv c).
Definition ks_with_sock (c : obus_socket_server) b : obus_socket_server :=
  SockServer b (ks_timer c) (ks_addr c) (ks_peers c) (ks_cb c) (ks_user_data c) (ks_log c).
Definition ks_with_timer (c : obus_socket_server) t : obus_socket_server :=
  SockServer (ks_sock c) t (ks_addr c) (ks_peers c) (ks_cb c) (ks_user_data c) (ks_log c).
Definition ks_with_peers (c : obus_socket_server) l : obus_socket_server :=
  SockServer (ks_sock c) (ks_timer c) (ks_addr c) l (ks_cb c) (ks_user_data c) (ks_log c).

Section State.
Context {K X : Type}.
#[local] Notation ST := (lstate K (tstate (sstate X))).

Definition clients_of (s : ST) : gmap positive obus_socket_client := so_clients (ts_user (ls_user s)).
Definition servers_of (s : ST) : gmap positive obus_socket_server := so_servers (ts_user (ls_user s)).
Definition peers_of (s : ST) : gmap positive obus_socket_peer := so_peers (ts_user (ls_user s)).

Definition set_socks (s : ST) (x : sstate X) : ST := set_user s (TState (timers_of s) x).
Definition set_clients (s : ST) m : ST :=
  set_socks s (SState m (servers_of s) (peers_of s) (so_user (ts_user (ls_user s)))).
Definition set_servers (s : ST) m : ST :=
  set_socks s (SState (clients_of s) m (peers_of s) (so_user (ts_user (ls_user s)))).
Definition set_sock_peers (s : ST) m : ST :=
  set_socks s (SState (clients_of s) (servers_of s) m (so_user (ts_user (ls_user s)))).

Definition get_client (p : positive) : SM K X obus_socket_client :=
  m ← sv_gets clients_of; on_mem (m_lift (m !! p)).
Definition put_client (p : positive) (c : obus_socket_client) : SM K X unit :=
  sv_modify (fun s => set_clients s (<[p := c]> (clients_of s))).
Definition get_server (p : positive) : SM K X obus_socket_server :=
  m ← sv_gets servers_of; on_mem (m_lift (m !! p)).
Definition put_server (p : positive) (c : obus_socket_server) : SM K X unit :=
  sv_modify (fun s => set_servers s (<[p := c]> (servers_of s))).
Definition get_sock_peer (p : positive) : SM K X obus_socket_peer :=
  m ← sv_gets peers_of; on_mem (m_lift (m !! p)).
Definition put_sock_peer (p : positive) (c : obus_socket_peer) : SM K X unit :=
  sv_modify (fun s => set_sock_peers s (<[p := c]> (peers_of s))).

(** The base of the socket at an address, whatever its kind. *)
Definition sock_of (s : ST) (p : positive) : option obus_socket_base :=
  match clients_of s !! p, servers_of s !! p, peers_of s !! p with
  | Some c, _, _ => Some (kc_sock c)
  | _, Some c, _ => Some (ks_sock c)
  | _, _, Some c => Some (kp_sock c)
  | _, _, _ => None
  end.
Definition set_sock_of (s : ST) (p : positive) (b : obus_socket_base) : ST :=
  match clients_of s !! p, servers_of s !! p, peers_of s !! p with
  | Some c, _, _ => set_clients s (<[p := kc_with_sock c b]> (clients_of s))
  | _, Some c, _ => set_servers s (<[p := ks_with_sock c b]> (servers_of s))
  | _, _, Some c => set_sock_peers s (<[p := kp_with_sock c b]> (peers_of s))
  | _, _, _ => s
  end.
Definition get_sock (p : positive) : SM K X obus_socket_base :=
  s ← sv_gets id; on_mem (m_lift (sock_of s p)).
Definition set_fd_of (p : positive) (fd : Z) : SM K X unit :=
  b ← get_sock p; sv_modify (fun s => set_sock_of s p (with_sock_fd b fd)).

(** An address that is not in use; and [free] of a socket. *)
Definition socket_address (s : ST) : positive :=
  base.fresh (dom (ls_fds s) ∪ dom (timers_of s) ∪ dom (clients_of s) ∪ dom (servers_of s) ∪ dom (peers_of s)).
Definition free_socket (p : positive) : SM K X unit :=
  sv_modify (fun s => set_fds (set_socks s (SState (delete p (clients_of s)) (delete p (servers_of s))
    (delete p (peers_of s)) (so_user (ts_user (ls_user s))))) (delete p (ls_fds s))).
End State.

(** What [calloc] leaves in a descriptor object and in an address. *)
Definition zero_fd : obus_fd := Fd false 0 0 0 0 0.
Definition zero_addr : obus_socket_addr := SockAddr None (replicate STORAGE_SIZE 0).

Section Base.
Context {K X : Type} {SK : SocketKernel K} {AL : Allocator}.
#[local] Notation ST := (lstate K (tstate (sstate X))).

Definition obus_socket_peer_get_pid (fd : Z) : KM K Z :=
  r ← sys_peer_cred fd; mret (match r with inl pid => pid | inr _ => 0 end).

Definition obus_socket_activate_keepalive (fd keepidle keepintvl keepcnt : Z) : KM K Z :=
  r ← sys_setsockopt fd SOL_SOCKET SO_KEEPALIVE 1;
  match r with SysErr _ => mret (-1) | SysOk _ =>
  r ← sys_setsockopt fd SOL_TCP TCP_KEEPIDLE keepidle;
  match r with SysErr _ => mret (-1) | SysOk _ =>
  r ← sys_setsockopt fd SOL_TCP TCP_KEEPINTVL keepintvl;
  match r with SysErr _ => mret (-1) | SysOk _ =>
  r ← sys_setsockopt fd SOL_TCP TCP_KEEPCNT keepcnt;
  match r with SysErr _ => mret (-1) | SysOk v => mret v end end end end.

(** The part on the descriptor object and the references; the socket enters the
    state with the base returned. *)
Definition obus_socket_base_init (p : positive) (role : obus_socket_role) (type : Z)
  : SM K X obus_socket_base :=
  obus_loop_ref;;
  put_fd p (snd (obus_fd_reset zero_fd));;
  mret (Sock (-1) type role).

Definition obus_socket_base_close (p : positive) : SM K X unit :=
  ofd ← get_fd p;
  (if obus_fd_is_used ofd =? 0 then mret tt else _ ← obus_loop_remove p; mret tt);;
  sock ← get_sock p;
  (if sb_fd sock =? -1 then mret tt else
   _ ← kern (sys_shutdown (sb_fd sock));
   _ ← kern (sys_close (sb_fd sock));
   set_fd_of p (-1));;
  ofd ← get_fd p;
  put_fd p (snd (obus_fd_reset ofd)).

Definition obus_socket_base_destroy (p : positive) : SM K X Z :=
  obus_socket_base_close p;;
  _ ← obus_loop_unref;
  mret 0.

(** [socket] and its options: the descriptor, or the code of an error. *)
Definition socket_setup (type : Z) : KM K (Z + Z) :=
  r ← sys_socket type;
  match r with
  | SysErr e => mret (inr (- e))
  | SysOk sockfd =>
    ret ← obus_fd_set_close_on_exec sockfd;
    if failed ret then _ ← sys_close sockfd; mret (inr ret) else
    ret ← obus_fd_add_flags sockfd O_NONBLOCK;
    if failed ret then _ ← sys_close sockfd; mret (inr ret) else
    r ← sys_setsockopt sockfd SOL_SOCKET SO_REUSEADDR 1;
    match r with
    | SysErr e => _ ← sys_close sockfd; mret (inr (- e))
    | SysOk _ => mret (inl sockfd)
    end
  end.

Definition obus_socket_base_open (p : positive) : SM K X Z :=
  sock ← get_sock p;
  r ← kern (socket_setup (sb_type sock));
  match r with
  | inr ret => mret ret
  | inl sockfd => set_fd_of p sockfd;; mret 0
  end.

(** [close (sock->fd); sock->fd = -1] *)
Definition drop_fd (p : positive) : SM K X unit :=
  sock ← get_sock p;
  _ ← kern (sys_close (sb_fd sock));
  set_fd_of p (-1).

(** The address as it is given to the kernel. *)
Definition addr_bytes (addr : obus_socket_addr) : list Z :=
  take (Z.to_nat (obus_socket_addr_length addr)) (sa_st addr).

(** The kernel writes at most [len] bytes of an address. *)
Definition fill_addr (addr : obus_socket_addr) (len : Z) (bytes : list Z) : obus_socket_addr :=
  SockAddr (sa_name addr) (st_write (sa_st addr) 0 (take (Z.to_nat len) bytes)).

Definition is_inet (family : Z) : bool := (family =? AF_INET) || (family =? AF_INET6).

(** [memcpy] of the [sun_path] of an address to another. *)
Definition copy_path (addr from : obus_socket_addr) : obus_socket_addr :=
  SockAddr (sa_name addr)
    (st_write (sa_st addr) SUN_PATH_OFFSET (st_field (sa_st from) SUN_PATH_OFFSET SUN_PATH_SIZE)).

(** A unix address with a file. *)
Definition has_file (addr : obus_socket_addr) : bool :=
  (addr_family addr =? AF_UNIX) && negb (char_at (sa_st addr) SUN_PATH_OFFSET =? 0).
End Base.

(** ** Servers *)

Section Server.
Context {K X : Type} {SK : SocketKernel K} {AL : Allocator} {IT : InetText}.
#[local] Notation ST := (lstate K (tstate (sstate X))).

(** The flags of an accepted descriptor. *)
Definition accept_setup (sockfd : Z) : KM K Z :=
  ret ← obus_fd_set_close_on_exec sockfd;
  if failed ret then mret ret else obus_fd_add_flags sockfd O_NONBLOCK.

(** The address and the process of the other side; [len] is what [accept] reported. *)
Definition name_peer (srv_addr peer_addr : obus_socket_addr) (sockfd len : Z) : SM K X (obus_socket_addr * Z) :=
  if addr_family peer_addr =? AF_UNIX then
    let peer_addr := copy_path peer_addr srv_addr in
    pid ← kern (obus_socket_peer_get_pid sockfd);
    srv_name ← on_mem (m_lift (sa_name srv_addr));
    if len <=? 0 then sv_undef else      (* nothing would be written *)
    a ← on_mem (m_alloc (Z.of_nat (length srv_name) + 20));
    let name := match a with
      | None => None
      | Some _ => Some (snprintf (Z.to_nat len) (srv_name ++ chars " (pid=" ++ print_int pid ++ chars ")"))
      end in
    mret (SockAddr name (sa_st peer_addr), pid)
  else
    name ← on_mem (obus_socket_addr_to_string peer_addr);
    mret (SockAddr name (sa_st peer_addr), 0).

(** The accepted connection, a new peer or [None] when it had to be closed. *)
Definition make_peer (srv : positive) (sockfd : Z) (peer_addr : obus_socket_addr) (len : Z)
  : SM K X (option positive) :=
  s ← get_server srv;
  let close_peer := _ ← kern (sys_close sockfd); mret None in
  ret ← kern (accept_setup sockfd);
  if failed ret then close_peer else
  '(peer_addr, peer_pid) ← name_peer (ks_addr s) peer_addr sockfd len;
  (if is_inet (addr_family (ks_addr s))
   then _ ← kern (obus_socket_activate_keepalive sockfd 5 1 2); mret tt else mret tt);;
  let local_addr := obus_socket_addr_init (addr_family (ks_addr s)) in
  r ← kern (sys_getsockname sockfd);
  match r with
  | inr _ => close_peer
  | inl bytes =>
    let local_addr := fill_addr local_addr (obus_socket_addr_length local_addr) bytes in
    name ← on_mem (obus_socket_addr_to_string local_addr);
    let local_addr := SockAddr name (sa_st local_addr) in
    a ← on_mem (m_alloc SOCKET_PEER_SIZE);
    match a with
    | None => close_peer
    | Some _ =>
      p ← sv_gets socket_address;
      base ← obus_socket_base_init p OBUS_SOCKET_PEER (addr_family (ks_addr s));
      put_sock_peer p (SockPeer (with_sock_fd base sockfd) local_addr peer_addr peer_pid srv);;
      s ← get_server srv;
      put_server srv (ks_with_peers s (ks_peers s ++ [p]));;
      mret (Some p)
    end
  end.

Definition obus_socket_server_events {SC : SocketCode K X} (srv : positive) (events : Z) : SM K X unit :=
  s ← get_server srv;
  if obus_fd_event_error events then _ ← obus_loop_remove srv; mret tt else
  if negb (obus_fd_event_read events) then mret tt else
  let peer_addr := obus_socket_addr_init (addr_family (ks_addr s)) in
  let len := obus_socket_addr_length peer_addr in
  r ← kern (sys_accept (sb_fd (ks_sock s)));
  match r with
  | inr _ => mret tt
  | inl (sockfd, bytes) =>
    peer ← make_peer srv sockfd (fill_addr peer_addr len bytes) (Z.of_nat (length bytes));
    match peer with
    | None => mret tt
    | Some peer =>
      s ← get_server srv;
      if ks_cb s =? 0 then sv_undef else accept_callback (ks_cb s) srv peer (ks_user_data s)
    end
  end.

Definition server_timer (srv : positive) : SM K X positive :=
  s ← get_server srv; on_mem (m_lift (ks_timer s)).

(** After [bind]: [listen] and the registration in the loop. *)
Definition server_listen (srv : positive) : SM K X Z :=
  sock ← get_sock srv;
  r ← kern (sys_listen (sb_fd sock) 10);
  match r with
  | SysErr e => drop_fd srv;; mret (- e)
  | SysOk _ =>
    put_fd srv (obus_fd_init (sb_fd sock) OBUS_FD_IN SERVER_EVENTS (Z.pos srv));;
    ret ← obus_loop_add srv;
    if failed ret then drop_fd srv;; mret ret else mret 0
  end.

Definition obus_socket_server_bind (srv : positive) : SM K X Z :=
  ret ← obus_socket_base_open srv;
  if failed ret then mret ret else
  s ← get_server srv;
  (if has_file (ks_addr s) then
     path ← on_mem (m_lift (st_path (sa_st (ks_addr s))));
     _ ← kern (sys_unlink path);
     _ ← kern (create_unix_socket_dir path); mret tt
   else mret tt);;
  r ← kern (sys_bind (sb_fd (ks_sock s)) (addr_bytes (ks_addr s)));
  match r with
  | SysOk _ => server_listen srv
  | SysErr e =>
    drop_fd srv;;
    if is_inet (addr_family (ks_addr s)) && (e =? EADDRNOTAVAIL) then
      t ← server_timer srv;
      _ ← obus_timer_set t OBUS_SOCKET_CONN_INTVL;
      mret 0
    else mret (- e)
  end.

Definition obus_socket_bind_timer_cb (srv : positive) : SM K X unit :=
  t ← server_timer srv;
  _ ← obus_timer_clear t;
  _ ← obus_socket_server_bind srv;
  mret tt.

(** The code and the server. *)
Definition obus_socket_server_new (addr : list Z) (cb user_data log : Z) : SM K X (Z * option positive) :=
  if cb =? 0 then mret (- EINVAL, None) else
  a ← on_mem (m_alloc SOCKET_SERVER_SIZE);
  match a with
  | None => mret (- ENOMEM, None)
  | Some _ =>
    '(ret, address) ← on_mem (obus_socket_addr_init_from_string zero_addr addr);
    if failed ret then mret (ret, None) else
    p ← sv_gets socket_address;
    base ← obus_socket_base_init p OBUS_SOCKET_SERVER (addr_family address);
    put_server p (SockServer base None address [] cb user_data (if log =? 0 then 0 else 1));;
    timer ← obus_timer_new BIND_TIMER (Z.pos p);
    match timer with
    | None => _ ← obus_socket_base_destroy p; free_socket p;; mret (0, None)
    | Some t =>
      s ← get_server p;
      put_server p (ks_with_timer s (Some t));;
      ret ← obus_socket_server_bind p;
      if failed ret then
        t ← server_timer p;
        _ ← obus_timer_destroy t;
        _ ← obus_socket_base_destroy p;
        free_socket p;;
        mret (ret, None)
      else mret (0, Some p)
    end
  end.

Definition obus_socket_server_destroy (srv : positive) : SM K X Z :=
  s ← get_server srv;
  if negb (bool_decide (ks_peers s = [])) then mret (- EPERM) else
  t ← server_timer srv;
  _ ← obus_timer_destroy t;
  _ ← obus_socket_base_destroy srv;
  s ← get_server srv;
  (if has_file (ks_addr s) then
     path ← on_mem (m_lift (st_path (sa_st (ks_addr s))));
     _ ← kern (sys_unlink path); mret tt
   else mret tt);;
  free_socket srv;;
  mret 0.

(** ** Peers *)

Definition obus_socket_peer_disconnect (peer : positive) : SM K X Z :=
  c ← get_sock_peer peer;
  s ← get_server (kp_srv c);
  (if bool_decide (peer ∈ ks_peers s)
   then put_server (kp_srv c) (ks_with_peers s (filter (fun q => q <> peer) (ks_peers s))) else sv_undef);;
  _ ← obus_socket_base_destroy peer;
  _ ← get_server (kp_srv c);
  free_socket peer;;
  mret 0.

Definition obus_socket_peer_name (peer : positive) : SM K X (option (list Z)) :=
  c ← get_sock_peer peer; mret (sa_name (kp_peer_addr c)).
Definition obus_socket_peer_fd (peer : positive) : SM K X Z :=
  c ← get_sock_peer peer; mret (sb_fd (kp_sock c)).
Definition obus_socket_peer_pid (peer : positive) : SM K X Z :=
  c ← get_sock_peer peer; mret (kp_peer_pid c).
End Server.

(** ** Clients *)

Section Client.
Context {K X : Type} {SK : SocketKernel K} {AL : Allocator} {IT : InetText}.
#[local] Notation ST := (lstate K (tstate (sstate X))).

(** The local address of a connected descriptor, as far as the kernel gives it. *)
Definition local_address (client : positive) : SM K X obus_socket_addr :=
  c ← get_client client;
  let addr := obus_socket_addr_init (addr_family (kc_peer_addr c)) in
  r ← kern (sys_getsockname (sb_fd (kc_sock c)));
  let addr := match r with inl bytes => fill_addr addr (obus_socket_addr_length addr) bytes | inr _ => addr end in
  let addr := if addr_family addr =? AF_UNIX then copy_path addr (kc_peer_addr c) else addr in
  name ← on_mem (obus_socket_addr_to_string addr);
  mret (SockAddr name (sa_st addr)).

Definition obus_socket_client_connected {SC : SocketCode K X} (client : positive) : SM K X unit :=
  addr ← local_address client;
  c ← get_client client;
  put_client client (kc_with_local c addr);;
  (if is_inet (addr_family addr)
   then _ ← kern (obus_socket_activate_keepalive (sb_fd (kc_sock c)) 5 1 2); mret tt else mret tt);;
  if kc_cb c =? 0 then sv_undef else connected_callback (kc_cb c) client (kc_user_data c).

Definition client_timer (client : positive) : SM K X positive :=
  c ← get_client client; on_mem (m_lift (kc_timer c)).

(** The descriptor is closed, and another attempt made later. *)
Definition retry_later (client : positive) : SM K X unit :=
  drop_fd client;;
  t ← client_timer client;
  _ ← obus_timer_set t OBUS_SOCKET_CONN_INTVL;
  mret tt.

Definition obus_socket_client_events {SC : SocketCode K X} (client : positive) (events : Z) : SM K X unit :=
  c ← get_client client;
  _ ← obus_loop_remove client;
  err ← (if obus_fd_event_error events then mret (-1) else
         r ← kern (sys_socket_error (sb_fd (kc_sock c)));
         mret (match r with inl err => err | inr _ => -1 end));
  if err =? 0 then obus_socket_client_connected client else retry_later client.

Definition obus_socket_client_do_connect {SC : SocketCode K X} (client : positive) : SM K X unit :=
  ret ← obus_socket_base_open client;
  if failed ret then mret tt else
  c ← get_client client;
  let fd := sb_fd (kc_sock c) in
  put_fd client (obus_fd_init fd OBUS_FD_OUT CLIENT_EVENTS (Z.pos client));;
  r ← kern (sys_connect fd (addr_bytes (kc_peer_addr c)));
  match r with
  | SysOk _ => obus_socket_client_connected client
  | SysErr e =>
    if e =? EINPROGRESS then _ ← obus_loop_add client; mret tt else retry_later client
  end.

Definition obus_socket_connect_timer_cb {SC : SocketCode K X} (client : positive) : SM K X unit :=
  t ← client_timer client;
  _ ← obus_timer_clear t;
  obus_socket_client_do_connect client.

Definition obus_socket_client_destroy (client : positive) : SM K X Z :=
  t ← client_timer client;
  _ ← obus_timer_destroy t;
  _ ← obus_socket_base_destroy client;
  free_socket client;;
  mret 0.

(** The code and the client. *)
Definition obus_socket_client_new (addr : list Z) (cb user_data log : Z) : SM K X (Z * option positive) :=
  if cb =? 0 then mret (- EINVAL, None) else
  a ← on_mem (m_alloc SOCKET_CLIENT_SIZE);
  match a with
  | None => mret (- ENOMEM, None)
  | Some _ =>
    '(ret, address) ← on_mem (obus_socket_addr_init_from_string zero_addr addr);
    if failed ret then mret (ret, None) else
    p ← sv_gets socket_address;
    base ← obus_socket_base_init p OBUS_SOCKET_CLIENT (addr_family address);
    put_client p (SockClient base zero_addr address None cb user_data (if log =? 0 then 0 else 1));;
    timer ← obus_timer_new CONNECT_TIMER (Z.pos p);
    match timer with
    | None => _ ← obus_socket_base_destroy p; free_socket p;; mret (0, None)
    | Some t =>
      c ← get_client p;
      put_client p (kc_with_timer c (Some t));;
      ret ← obus_timer_set t 10;
      if failed ret then
        _ ← obus_timer_destroy t;
        _ ← obus_socket_base_destroy p;
        free_socket p;;
        mret (ret, None)
      else mret (0, Some p)
    end
  end.

Definition obus_socket_client_reconnect (client : positive) : SM K X Z :=
  t ← client_timer client;
  _ ← obus_timer_clear t;
  obus_socket_base_close client;;
  ret ← obus_socket_base_open client;
  if failed ret then mret ret else
  c ← get_client client;
  put_fd client (obus_fd_init (sb_fd (kc_sock c)) OBUS_FD_OUT CLIENT_EVENTS (Z.pos client));;
  _ ← obus_timer_set t OBUS_SOCKET_CONN_INTVL;
  mret 0.

Definition obus_socket_client_fd (client : positive) : SM K X Z :=
  c ← get_client client; mret (sb_fd (kc_sock c)).
Definition obus_socket_client_name (client : positive) : SM K X (option (list Z)) :=
  c ← get_client client; mret (sa_name (kc_peer_addr c)).
End Client.

(** ** The callbacks of timers and of the loop *)

Definition socket_timers {K X : Type} {SK : SocketKernel K} {AL : Allocator} {IT : InetText}
    (SC : SocketCode K X) (others : TimerCode K (sstate X)) : TimerCode K (sstate X) :=
  fun cb timer nbexpired data =>
    if cb =? BIND_TIMER then obus_socket_bind_timer_cb (Z.to_pos data)
    else if cb =? CONNECT_TIMER then obus_socket_connect_timer_cb (Z.to_pos data)
    else others cb timer nbexpired data.

Definition socket_loop {K X : Type} {SK : SocketKernel K} {AL : Allocator} {IT : InetText}
    (SC : SocketCode K X) (others : LoopCode K (tstate (sstate X))) : LoopCode K (tstate (sstate X)) :=
  fun cb ofd events data =>
    if cb =? SERVER_EVENTS then obus_socket_server_events (Z.to_pos data) events
    else if cb =? CLIENT_EVENTS then obus_socket_client_events (Z.to_pos data) events
    else others cb ofd events data.
