(* ===== verification/SocketLaws.v ===== *)
(** * Sockets: what the theorems rely on in the kernel

    To the laws of epoll and of timers these add which timers may still expire
    ([armed]): a timer that is not armed does not fire, and only setting a timer
    arms it.  They give what each group of system calls of obus_socket.c does to
    the interest sets, to the open descriptors and to the armed timers. *)
From S2P Require Import Prelude Mem World Handler Utils Loop LoopFacts Timer TimerFacts Addr Socket.

(** [f] grows in no run of [c]. *)
Definition shrinks {K A : Type} (f : K -> gset Z) (c : KM K A) : Prop := forall k, f (snd (c k)) ⊆ f k.

Class LawfulArm (K : Type) {TK : TimerKernel K} := {
  armed : K -> gset Z;
  arm_fcntl : forall fd c a, shrinks armed (sys_fcntl fd c a);
  arm_dup : forall fd, shrinks armed (sys_dup fd);
  arm_close : forall fd, shrinks armed (sys_close fd);
  arm_ctl : forall e op fd evt, shrinks armed (sys_epoll_ctl e op fd evt);
  arm_wait : forall e n t, shrinks armed (sys_epoll_wait e n t);
  arm_create : shrinks armed sys_timerfd_create;
  arm_new : forall k v k', sys_timerfd_create k = (SysOk v, k') -> v ∉ armed k';
  arm_set : forall fd v k, armed (snd (sys_timerfd_settime fd v k)) ⊆ {[fd]} ∪ armed k;
  arm_clear : forall fd, shrinks armed (sys_timerfd_settime fd (timer_value 0));
  arm_read : forall fd, shrinks armed (sys_timerfd_read fd);
  arm_fire : forall fd k v k', sys_timerfd_read fd k = (SysOk v, k') -> fd ∈ armed k /\ fd ∉ armed k'
}.

(** A call that opens, closes, watches and arms nothing. *)
Definition quiet {K A : Type} {TK : TimerKernel K} {LE : LawfulEpoll K} {LA : LawfulArm K} (c : KM K A) : Prop :=
  (forall k e, kept e k (snd (c k))) /\ shrinks armed c.

(** A call that may open a descriptor; [get] is the one in its result. *)
Definition opening_call {K A : Type} {TK : TimerKernel K} {LE : LawfulEpoll K} {LA : LawfulArm K}
    (c : KM K A) (get : A -> option Z) : Prop :=
  forall k e, armed (snd (c k)) ⊆ armed k /\
    match get (fst (c k)) with
    | Some fd => opens e fd k (snd (c k))
    | None => kept e k (snd (c k))
    end.

Definition sysret_fd (r : sysret) : option Z := match r with SysOk v => Some v | SysErr _ => None end.
Definition inl_fd {B : Type} (r : Z + B) : option Z := match r with inl v => Some v | inr _ => None end.

Class LawfulSocket (K : Type) {SK : SocketKernel K} {LE : LawfulEpoll K} {LA : LawfulArm K} := {
  sock_socket : forall t, opening_call (sys_socket t) sysret_fd;
  sock_accept : forall fd, opening_call (sys_accept fd) (fun r => inl_fd (match r with inl (v, _) => inl v | inr e => inr e end));
  sock_accept_family : forall fd k v bs k', sys_accept fd k = (inl (v, bs), k') -> bs <> [];
  sock_setsockopt : forall fd l o v, quiet (sys_setsockopt fd l o v);
  sock_shutdown : forall fd, quiet (sys_shutdown fd);
  sock_unlink : forall path, quiet (sys_unlink path);
  sock_mkdir : forall path mode, quiet (sys_mkdir path mode);
  sock_bind : forall fd a, quiet (sys_bind fd a);
  sock_listen : forall fd n, quiet (sys_listen fd n);
  sock_connect : forall fd a, quiet (sys_connect fd a);
  sock_getsockname : forall fd, quiet (sys_getsockname fd);
  sock_error : forall fd, quiet (sys_socket_error fd);
  sock_cred : forall fd, quiet (sys_peer_cred fd);
  sock_socket_errno : forall t k e k', sys_socket t k = (SysErr e, k') -> 0 < e;
  sock_setsockopt_errno : forall fd l o v k e k', sys_setsockopt fd l o v k = (SysErr e, k') -> 0 < e;
  sock_bind_errno : forall fd a k e k', sys_bind fd a k = (SysErr e, k') -> 0 < e;
  sock_listen_errno : forall fd n k e k', sys_listen fd n k = (SysErr e, k') -> 0 < e
}.

(** ** Calls *)

Section Calls.
Context {K : Type} {TK : TimerKernel K} {LE : LawfulEpoll K} {LA : LawfulArm K}.

Lemma shrinks_ret {A} (a : A) : shrinks armed (mret a : KM K A).
Proof. by intros k. Qed.
Lemma shrinks_bind {A B} (c : KM K A) (f : A -> KM K B) :
  shrinks armed c -> (forall a, shrinks armed (f a)) -> shrinks armed (c ≫= f).
Proof.
  intros H1 H2 k. unfold mbind, KM_bind. specialize (H1 k). destruct (c k) as [a k1].
  etransitivity; [apply H2|exact H1].
Qed.

Lemma quiet_ret {A} (a : A) : quiet (mret a : KM K A).
Proof. split; [by intros k e|by intros k]. Qed.
Lemma quiet_bind {A B} (c : KM K A) (f : A -> KM K B) :
  quiet c -> (forall a, quiet (f a)) -> quiet (c ≫= f).
Proof.
  intros [H1 H1'] H2. split; [|apply shrinks_bind; [done|intros a; apply H2]]. intros k e. unfold mbind, KM_bind.
  specialize (H1 k e). destruct (c k) as [a k1]. etransitivity; [exact H1|apply H2].
Qed.

Lemma quiet_cloexec fd : quiet (obus_fd_set_close_on_exec fd).
Proof.
  split; [intros k e; apply set_cloexec_kept|]. apply shrinks_bind; [apply arm_fcntl|]. intros [v|e]; [|apply shrinks_ret].
  apply shrinks_bind; [apply arm_fcntl|]. intros [v'|e']; apply shrinks_ret.
Qed.
Lemma quiet_flags fd fl : quiet (obus_fd_add_flags fd fl).
Proof.
  split; [intros k e; apply add_flags_kept|]. apply shrinks_bind; [apply arm_fcntl|]. intros [v|e]; [|apply shrinks_ret].
  apply shrinks_bind; [apply arm_fcntl|]. intros [v'|e']; apply shrinks_ret.
Qed.

Lemma shrinks_dup fd : shrinks armed (obus_fd_dup fd).
Proof.
  apply shrinks_bind; [apply arm_dup|]. intros [v|e]; [|apply shrinks_ret].
  apply shrinks_bind.
  - apply shrinks_bind; [apply arm_fcntl|]. intros [v'|e']; apply shrinks_ret.
  - intros [|]; [|apply shrinks_ret]. apply shrinks_bind; [apply quiet_cloexec|]. intros r. cbv zeta.
    destruct (failed r); [|apply shrinks_ret]. apply shrinks_bind; [apply arm_close|]. intros _. apply shrinks_ret.
Qed.

Lemma shrinks_wait_eintr fuel e n t : shrinks armed (wait_eintr fuel e n t).
Proof.
  induction fuel as [|fuel IH]; [apply shrinks_ret|]. cbn [wait_eintr]. apply shrinks_bind; [apply arm_wait|].
  intros [evs|er]; [apply shrinks_ret|]. destruct (er =? EINTR); [exact IH|apply shrinks_ret].
Qed.

(** ** Runs on the loop *)

Context {U : Type} {AL : Allocator}.

Definition armed_le (s s' : lstate K U) : Prop := armed (ls_kern s') ⊆ armed (ls_kern s).

#[export] Instance armed_le_preorder : PreOrder armed_le.
Proof. split; [intros s x Hx; exact Hx|]. intros s1 s2 s3 H1 H2 x Hx. by apply H1, H2. Qed.

Lemma keeps_kern_armed {A} (c : KM K A) : shrinks armed c -> keeps (fun _ => True) armed_le (kern c).
Proof. intros H s w m a s' w' m' [= <- <- <- <-] _. split; [done|]. apply H. Qed.

Lemma keeps_modify_armed (f : lstate K U -> lstate K U) :
  (forall s, ls_kern (f s) = ls_kern s) -> keeps (fun _ => True) armed_le (sv_modify f).
Proof. intros H s w m a s' w' m' [= <- <- <- <-] _. split; [done|]. unfold armed_le. by rewrite H. Qed.
End Calls.

Create HintDb armed discriminated.
#[export] Hint Resolve arm_fcntl arm_dup arm_close arm_ctl arm_wait arm_create arm_read arm_clear shrinks_dup : armed.

(** Runs that arm no timer. *)
Ltac armed_step :=
  match goal with
  | |- keeps _ armed_le (kern _) => apply keeps_kern_armed; solve [eauto 2 with armed]
  | |- keeps _ armed_le (sv_modify _) => apply keeps_modify_armed; intros []; reflexivity
  | |- keeps _ armed_le _ => keeps_step
  end.
Ltac arms_nothing := repeat first [progress cbv zeta|armed_step].

Section Arming.
Context {K U : Type} {TK : TimerKernel K} {LE : LawfulEpoll K} {LA : LawfulArm K} {AL : Allocator}.

Lemma loop_add_armed p : keeps (fun _ => True) armed_le (obus_loop_add (K := K) (U := U) p).
Proof.
  unfold obus_loop_add, is_listed, get_ofds, add_watch, add_dup, get_fd, get_loop, put_fd, put_loop, int_result.
  arms_nothing.
Qed.
Lemma loop_remove_armed p : keeps (fun _ => True) armed_le (obus_loop_remove (K := K) (U := U) p).
Proof.
  unfold obus_loop_remove, is_listed, get_ofds, get_fd, get_loop, put_fd, put_loop, int_result. arms_nothing.
Qed.
Lemma loop_update_armed p : keeps (fun _ => True) armed_le (obus_loop_update (K := K) (U := U) p).
Proof. unfold obus_loop_update, is_listed, get_ofds, get_fd, get_loop. arms_nothing. Qed.
Lemma loop_ref_armed : keeps (fun _ => True) armed_le (obus_loop_ref (K := K) (U := U)).
Proof. unfold obus_loop_ref, get_loop, put_loop. arms_nothing. Qed.
Lemma loop_unref_armed : keeps (fun _ => True) armed_le (obus_loop_unref (K := K) (U := U)).
Proof. unfold obus_loop_unref, obus_loop_destroy, get_ofds, get_loop, put_loop. arms_nothing. Qed.
End Arming.
#[export] Hint Resolve loop_add_armed loop_remove_armed loop_update_armed loop_ref_armed loop_unref_armed : keeps.

Section TimerArming.
Context {K V : Type} {TK : TimerKernel K} {LE : LawfulEpoll K} {LA : LawfulArm K} {AL : Allocator}.

Lemma timer_new_armed cb data : keeps (fun _ => True) armed_le (obus_timer_new (K := K) (V := V) cb data).
Proof. unfold obus_timer_new, put_timer, put_fd, free_timer. arms_nothing. Qed.
Lemma timer_destroy_armed p : keeps (fun _ => True) armed_le (obus_timer_destroy (K := K) (V := V) p).
Proof. unfold obus_timer_destroy, get_fd, free_timer. arms_nothing. Qed.
Lemma timer_clear_armed p : keeps (fun _ => True) armed_le (obus_timer_clear (K := K) (V := V) p).
Proof. unfold obus_timer_clear, obus_timer_set, get_fd, get_timer, put_timer. arms_nothing. Qed.
End TimerArming.
