(* ===== verification/SocketInv.v ===== *)
(** * Sockets: their invariant

    [socks_ok] relates the sockets, the descriptor objects, the timers, the open
    descriptors and the armed timers.  It is stated on a view common to the three
    kinds of sockets; one socket may be exempt of the clauses on its timer, while
    it is built or torn down.  Each lemma is one change of the state. *)
From S2P Require Import Prelude Mem World Handler Utils Loop LoopFacts Timer TimerFacts Addr Socket SocketLaws.

(** A socket, whatever its kind: its descriptor, what it gives to the loop, its
    timer, what it gives to that timer. *)
Record sock_view := SockView {
  v_fd : Z;
  v_events : Z;
  v_timer : option positive;
  v_tcb : Z
}.

Section View.
Context {X : Type}.

Definition view (x : sstate X) (p : positive) : option sock_view :=
  match so_clients x !! p, so_servers x !! p, so_peers x !! p with
  | Some c, _, _ => Some (SockView (sb_fd (kc_sock c)) CLIENT_EVENTS (kc_timer c) CONNECT_TIMER)
  | _, Some c, _ => Some (SockView (sb_fd (ks_sock c)) SERVER_EVENTS (ks_timer c) BIND_TIMER)
  | _, _, Some c => Some (SockView (sb_fd (kp_sock c)) 0 None 0)
  | _, _, _ => None
  end.

Definition with_view_fd (v : sock_view) fd : sock_view := SockView fd (v_events v) (v_timer v) (v_tcb v).
Definition with_view_timer (v : sock_view) t : sock_view := SockView (v_fd v) (v_events v) t (v_tcb v).
End View.

(** The object of socket [p] is not in the loop, or watches the descriptor of the
    socket while the timer is not armed. *)
Definition object_ok (fds : gmap positive obus_fd) (tms : gmap positive obus_timer) (arm : gset Z) (p : positive) (v : sock_view) (o : obus_fd) : Prop :=
  (fd_cb o = 0 \/ fd_cb o = v_events v /\ fd_data o = Z.pos p) /\
  (fd_loop o = true -> fd_dupfd o = -1 /\ fd_fd o = v_fd v /\ v_fd v <> -1 /\
     forall t ot, v_timer v = Some t -> is_Some (tms !! t) -> fds !! t = Some ot -> fd_fd ot ∉ arm).

Record socks_ok {X : Type} (E : option positive) (fds : gmap positive obus_fd) (tms : gmap positive obus_timer)
    (x : sstate X) (opn arm : gset Z) : Prop := {
  so_object : forall p v, view x p = Some v -> tms !! p = None /\
    exists o, fds !! p = Some o /\ object_ok fds tms arm p v o;
  so_open : forall p v, view x p = Some v -> v_fd v <> -1 -> v_fd v ∈ opn;
  so_distinct : forall p q v v', view x p = Some v -> view x q = Some v' -> v_fd v = v_fd v' -> v_fd v <> -1 -> p = q;
  so_not_timer : forall p v t o, view x p = Some v -> v_fd v <> -1 -> is_Some (tms !! t) -> fds !! t = Some o ->
    fd_fd o <> v_fd v;
  so_not_dup : forall p v q o, view x p = Some v -> v_fd v <> -1 -> fds !! q = Some o -> fd_dupfd o <> v_fd v;
  so_timer : forall p v t, view x p = Some v -> E <> Some p -> v_timer v = Some t ->
    exists tm, tms !! t = Some tm /\ tm_cb tm = v_tcb v /\ tm_data tm = Z.pos p;
  so_events : forall p o, fds !! p = Some o -> fd_cb o = SERVER_EVENTS \/ fd_cb o = CLIENT_EVENTS ->
    exists v, view x p = Some v /\ v_events v = fd_cb o;
  so_timer_cb : forall t tm, tms !! t = Some tm -> tm_cb tm = BIND_TIMER \/ tm_cb tm = CONNECT_TIMER ->
    exists p, tm_data tm = Z.pos p /\
      (E = Some p \/ exists v, view x p = Some v /\ v_timer v = Some t /\ v_tcb v = tm_cb tm)
}.

Section Changes.
Context {X : Type}.
Implicit Types (x : sstate X) (fds : gmap positive obus_fd) (tms : gmap positive obus_timer) (opn arm : gset Z)
  (p q t : positive) (o : obus_fd) (v : sock_view) (E : option positive).

(** Objects change, no socket nor timer does. *)
Lemma socks_frame E fds fds' tms x opn opn' arm arm' :
  socks_ok E fds tms x opn arm ->
  (forall q v o, view x q = Some v -> fds !! q = Some o -> object_ok fds tms arm q v o ->
     exists o', fds' !! q = Some o' /\ object_ok fds' tms arm' q v o') ->
  (forall t o', is_Some (tms !! t) -> fds' !! t = Some o' -> exists o, fds !! t = Some o /\ fd_fd o' = fd_fd o) ->
  (forall q o', fds' !! q = Some o' -> fd_cb o' = SERVER_EVENTS \/ fd_cb o' = CLIENT_EVENTS ->
     exists v, view x q = Some v /\ v_events v = fd_cb o') ->
  (forall p v q o', view x p = Some v -> v_fd v <> -1 -> fds' !! q = Some o' -> fd_dupfd o' <> v_fd v) ->
  (forall p v, view x p = Some v -> v_fd v <> -1 -> v_fd v ∈ opn') ->
  socks_ok E fds' tms x opn' arm'.
Proof.
  intros [S1 S2 S3 S4 S5 S6 S7 S8] HA HB HC HD Hopn. constructor; try done.
  - intros p v Hv. destruct (S1 p v Hv) as (Ht & o & Ho & Hok). split; [done|]. by eapply HA.
  - intros p v t o' Hv Hn Ht Ho'. destruct (HB t o' Ht Ho') as (o & Ho & ->). by apply (S4 p v t o).
Qed.

Lemma object_ok_arm fds fds' tms tms' arm arm' p v o :
  object_ok fds tms arm p v o -> arm' ⊆ arm ->
  (forall t ot, v_timer v = Some t -> is_Some (tms' !! t) -> fds' !! t = Some ot ->
     is_Some (tms !! t) /\ exists ot', fds !! t = Some ot' /\ fd_fd ot = fd_fd ot') ->
  object_ok fds' tms' arm' p v o.
Proof.
  intros [H1 H2] Ha Ht. split; [done|]. intros Hl. destruct (H2 Hl) as (A & B & C & D). split_and!; try done.
  intros t ot E1 E0 E2. destruct (Ht t ot E1 E0 E2) as (E4 & ot' & E3 & ->). intros Hin. by apply (D t ot' E1 E4 E3), Ha.
Qed.

(** A socket has a timer of its own among the timers, but for the exempt one. *)
Lemma socks_timer_object E fds tms x opn arm p v t :
  socks_ok E fds tms x opn arm -> view x p = Some v -> E <> Some p -> v_timer v = Some t ->
  is_Some (tms !! t).
Proof. intros S H1 H2 H3. destruct (so_timer _ _ _ _ _ _ S p v t H1 H2 H3) as (tm & Ht & _). by eexists. Qed.

(** Nothing is opened, closed or armed that matters. *)
Lemma socks_mono E fds tms x opn opn' arm arm' :
  socks_ok E fds tms x opn arm -> opn ⊆ opn' -> arm' ⊆ arm -> socks_ok E fds tms x opn' arm'.
Proof.
  intros S Ho Ha. apply (socks_frame E fds fds tms x opn opn' arm arm'); [done|..|].
  - intros q v o _ Hq Hok. exists o. split; [done|]. eapply object_ok_arm; [done|done|]. intros t ot _ Hs Ht. split; [done|by exists ot].
  - intros t o' _ Ht. by exists o'.
  - intros q o'. by apply (so_events _ _ _ _ _ _ S).
  - intros p v q o'. by apply (so_not_dup _ _ _ _ _ _ S).
  - intros p v Hv Hn. by apply Ho, (so_open _ _ _ _ _ _ S p v).
Qed.

(** Object [p] changes, which is no timer and keeps its descriptor if it is. *)
Lemma socks_object E fds tms x opn opn' arm arm' p o o' :
  socks_ok E fds tms x opn arm -> fds !! p = Some o ->
  (forall v, view x p = Some v -> object_ok fds tms arm' p v o') ->
  (is_Some (tms !! p) -> fd_fd o' = fd_fd o) ->
  (fd_cb o' = SERVER_EVENTS \/ fd_cb o' = CLIENT_EVENTS -> exists v, view x p = Some v /\ v_events v = fd_cb o') ->
  (forall q v, view x q = Some v -> v_fd v <> -1 -> fd_dupfd o' <> v_fd v) ->
  (forall q v, view x q = Some v -> v_fd v <> -1 -> v_fd v ∈ opn') -> arm' ⊆ arm ->
  socks_ok E (<[p := o']> fds) tms x opn' arm'.
Proof.
  intros S Hp Hobj Hfd Hev Hdup Hopn Ha. apply (socks_frame E fds _ tms x opn opn' arm arm'); [done|..|done].
  - assert (forall q v o1, view x q = Some v -> object_ok fds tms arm' q v o1 -> object_ok (<[p := o']> fds) tms arm' q v o1) as Hup.
    { intros q v o1 Hv Hok. eapply object_ok_arm; [done|done|]. intros t ot Ht Hs. rewrite lookup_insert. split; [done|].
      case_decide as Hpt; [|by exists ot]. subst t. exists o. split; [done|]. simplify_eq. by apply Hfd. }
    intros q v o1 Hv Hq Hok. rewrite lookup_insert. case_decide as Hpq.
    + subst q. exists o'. split; [done|]. apply Hup; [done|by apply Hobj].
    + exists o1. split; [done|]. apply Hup; [done|]. eapply object_ok_arm; [done|done|]. intros t ot _ Hs Ht. split; [done|by exists ot].
  - intros t o1 Ht. rewrite lookup_insert. case_decide as Hpt; [|by exists o1]. subst t. intros [= <-].
    exists o. split; [done|]. by apply Hfd.
  - intros q o1. rewrite lookup_insert. case_decide as Hpq; [subst q; by intros [= <-]|].
    by apply (so_events _ _ _ _ _ _ S).
  - intros q v r o1 Hv Hn. rewrite lookup_insert. case_decide; [intros [= <-]; by eapply Hdup|].
    by apply (so_not_dup _ _ _ _ _ _ S q v r).
Qed.

(** The set of timers seen through the sockets does not change when the sockets
    keep their views. *)
Lemma socks_view E fds tms x x' opn arm :
  (forall q, view x' q = view x q) -> socks_ok E fds tms x opn arm -> socks_ok E fds tms x' opn arm.
Proof.
  intros Hv [S1 S2 S3 S4 S5 S6 S7 S8]. constructor; intros *; rewrite ?Hv; try by eauto.
  - intros H1 H2. destruct (S8 _ _ H1 H2) as (p & H3 & [H4|(v & H4 & H5)]); exists p; (split; [done|]); [by left|].
    right. exists v. by rewrite Hv.
Qed.

(** *** Changes of one socket *)

(** The view of [p] becomes [v'], the others stay. *)
Definition reviewed (p : positive) (v' : option sock_view) x x' : Prop :=
  forall q, view x' q = if decide (q = p) then v' else view x q.

(** A descriptor that is no socket's, no timer's and no duplicate of the loop. *)
Record free_fd fds tms x (fd : Z) : Prop := {
  ff_sock : forall q v, view x q = Some v -> v_fd v <> fd;
  ff_timer : forall t o, is_Some (tms !! t) -> fds !! t = Some o -> fd_fd o <> fd;
  ff_dup : forall q o, fds !! q = Some o -> fd_dupfd o <> fd
}.

(** The descriptor of a socket that is not in the loop is given up, or a free one
    takes its place. *)
Lemma socks_refd E fds tms x x' opn opn' arm p v o fd :
  socks_ok E fds tms x opn arm -> view x p = Some v -> fds !! p = Some o -> fd_loop o = false ->
  reviewed p (Some (with_view_fd v fd)) x x' ->
  (forall q v', q <> p -> view x q = Some v' -> v_fd v' <> -1 -> v_fd v' ∈ opn') ->
  (fd <> -1 -> free_fd fds tms x fd /\ fd ∈ opn') ->
  socks_ok E fds tms x' opn' arm.
Proof.
  intros S Hv Ho Hl Hx Hopn Hfd. pose proof S as [S1 S2 S3 S4 S5 S6 S7 S8].
  assert (forall q v', view x' q = Some v' -> q = p /\ v' = with_view_fd v fd \/ q <> p /\ view x q = Some v') as Hcase.
  { intros q v'. rewrite (Hx q). destruct (decide (q = p)) as [->|]; [intros [= <-]; by left|by right]. }
  constructor.
  - intros q v' [[-> ->]|[Hq Hv']]%Hcase; [|by apply S1]. destruct (S1 p v Hv) as (Ht & o' & Ho' & Hok).
    split; [done|]. exists o'. split; [done|]. rewrite Ho in Ho'. injection Ho' as <-.
    split; [apply Hok|]. by rewrite Hl.
  - intros q v' [[-> ->]|[Hq Hv']]%Hcase Hn; [by apply Hfd|by apply (Hopn q)].
  - intros q r v1 v2 [[-> ->]|[Hq Hv1]]%Hcase [[-> ->]|[Hr Hv2]]%Hcase He Hn; [done|..|by apply (S3 q r v1 v2)]; cbn in *.
    + destruct (Hfd Hn) as [Hno _]. by destruct (ff_sock _ _ _ _ Hno r v2 Hv2).
    + destruct (Hfd ltac:(congruence)) as [Hno _]. by destruct (ff_sock _ _ _ _ Hno q v1 Hv1).
  - intros q v' t o' [[-> ->]|[Hq Hv']]%Hcase Hn Ht Ho'; [|by apply (S4 q v' t)]. cbn in *.
    destruct (Hfd Hn) as [Hno _]. by apply (ff_timer _ _ _ _ Hno t).
  - intros q v' r o' [[-> ->]|[Hq Hv']]%Hcase Hn Ho'; [|by apply (S5 q v' r)]. cbn in *.
    destruct (Hfd Hn) as [Hno _]. by apply (ff_dup _ _ _ _ Hno r).
  - intros q v' t [[-> ->]|[Hq Hv']]%Hcase HE Ht; [by apply (S6 p v t)|by apply (S6 q v' t)].
  - intros q o' Ho' Hcb. destruct (S7 q o' Ho' Hcb) as (v1 & Hv1 & He). rewrite (Hx q).
    destruct (decide (q = p)) as [->|]; [|by exists v1]. rewrite Hv in Hv1. injection Hv1 as <-.
    exists (with_view_fd v fd). by split.
  - intros t tm Htm' Hcb. destruct (S8 t tm Htm' Hcb) as (q & Hd & [HE|(v1 & Hv1 & H1 & H2)]); exists q; (split; [done|]); [by left|].
    right. rewrite (Hx q). destruct (decide (q = p)) as [->|]; [|by exists v1]. rewrite Hv in Hv1. injection Hv1 as <-.
    exists (with_view_fd v fd). by split_and!.
Qed.

(** A new socket, whose object is idle, on no descriptor or on a free one. *)
Lemma socks_new fds tms x x' opn arm p v o :
  socks_ok None fds tms x opn arm -> view x p = None -> fds !! p = None -> tms !! p = None ->
  reviewed p (Some v) x x' -> v_timer v = None ->
  fd_loop o = false -> fd_cb o = 0 -> fd_dupfd o = -1 ->
  (v_fd v <> -1 -> free_fd fds tms x (v_fd v) /\ v_fd v ∈ opn) ->
  socks_ok (Some p) (<[p := o]> fds) tms x' opn arm.
Proof.
  intros S Hv Hp Ht Hx Hvt Hl Hcb Hd Hfd. pose proof S as [S1 S2 S3 S4 S5 S6 S7 S8].
  assert (forall q v', view x' q = Some v' -> q = p /\ v' = v \/ q <> p /\ view x q = Some v') as Hcase.
  { intros q v'. rewrite (Hx q). destruct (decide (q = p)) as [->|]; [intros [= <-]; by left|by right]. }
  assert (forall q v', view x q = Some v' -> view x' q = Some v') as Hold.
  { intros q v' Hq. rewrite (Hx q), decide_False; [done|]. intros ->. congruence. }
  constructor.
  - intros q v' [[-> ->]|[Hq Hv']]%Hcase.
    + split; [done|]. exists o. rewrite lookup_insert_eq. split; [done|]. split; [by left|]. by rewrite Hl.
    + destruct (S1 q v' Hv') as (Hqt & o' & Ho' & Hok). split; [done|]. exists o'. rewrite lookup_insert_ne by done.
      split; [done|]. eapply object_ok_arm; [done|done|]. intros t ot Hvt' Hs. rewrite lookup_insert.
      case_decide as Hpt; [|by split; [|exists ot]]. subst t. destruct Hs. congruence.
  - intros q v' [[-> ->]|[Hq Hv']]%Hcase Hn; [by apply Hfd|by apply (S2 q)].
  - intros q r v1 v2 [[-> ->]|[Hq Hv1]]%Hcase [[-> ->]|[Hr Hv2]]%Hcase He Hn; [done|..|by apply (S3 q r v1 v2)]; cbn in *.
    + destruct (Hfd Hn) as [Hno _]. by destruct (ff_sock _ _ _ _ Hno r v2 Hv2).
    + destruct (Hfd ltac:(congruence)) as [Hno _]. by destruct (ff_sock _ _ _ _ Hno q v1 Hv1).
  - intros q v' t o' Hv' Hn Hts. rewrite lookup_insert. case_decide as Hpt; [subst t; destruct Hts; congruence|].
    intros Ho'. apply Hcase in Hv' as [[-> ->]|[Hq Hv']]; [|by apply (S4 q v' t)].
    destruct (Hfd Hn) as [Hno _]. by apply (ff_timer _ _ _ _ Hno t).
  - intros q v' r o' Hv' Hn. rewrite lookup_insert. case_decide; [intros [= <-]; congruence|].
    intros Ho'. apply Hcase in Hv' as [[-> ->]|[Hq Hv']]; [|by apply (S5 q v' r)].
    destruct (Hfd Hn) as [Hno _]. by apply (ff_dup _ _ _ _ Hno r).
  - intros q v' t [[-> ->]|[Hq Hv']]%Hcase HE Ht'; [done|by apply (S6 q v' t)].
  - intros q o'. rewrite lookup_insert. case_decide; [intros [= <-]; rewrite Hcb; by intros [|]|].
    intros Ho' Hc. destruct (S7 q o' Ho' Hc) as (v1 & Hv1 & He). exists v1. split; [by apply Hold|done].
  - intros t tm Htm' Hc. destruct (S8 t tm Htm' Hc) as (q & Hdt & [HE|(v1 & Hv1 & H1 & H2)]); [done|].
    exists q. split; [done|]. right. exists v1. split; [by apply Hold|done].
Qed.

(** Any socket may be exempt. *)
Lemma socks_exempt p fds tms x opn arm : socks_ok None fds tms x opn arm -> socks_ok (Some p) fds tms x opn arm.
Proof.
  intros [S1 S2 S3 S4 S5 S6 S7 S8]. constructor; try done.
  - intros q v t Hv _. by apply (S6 q v t).
  - intros t tm Ht Hc. destruct (S8 t tm Ht Hc) as (q & Hd & [|H]); [done|]. exists q. split; [done|by right].
Qed.

(** A socket that has no timer needs no exemption. *)
Lemma socks_whole p v E fds tms x opn arm :
  socks_ok E fds tms x opn arm -> view x p = Some v -> v_timer v = None ->
  (forall t tm, tms !! t = Some tm -> tm_cb tm = BIND_TIMER \/ tm_cb tm = CONNECT_TIMER -> tm_data tm <> Z.pos p) ->
  E = Some p -> socks_ok None fds tms x opn arm.
Proof.
  intros [S1 S2 S3 S4 S5 S6 S7 S8] Hv Hvt Hnone ->. constructor; try done.
  - intros q v' t Hv' _ Ht. apply (S6 q v' t); [done| |done]. intros [= <-]. congruence.
  - intros t tm Ht Hc. destruct (S8 t tm Ht Hc) as (q & Hd & [HE|H]); [|exists q; by split; [|right]].
    injection HE as <-. by destruct (Hnone t tm Ht Hc).
Qed.

(** The timer that has been made for socket [p] is recorded in it. *)
Lemma socks_attach fds tms x x' opn arm p v t tm :
  socks_ok (Some p) fds tms x opn arm -> view x p = Some v -> v_timer v = None ->
  reviewed p (Some (with_view_timer v (Some t))) x x' ->
  tms !! t = Some tm -> tm_cb tm = v_tcb v -> tm_data tm = Z.pos p ->
  (forall o, fds !! p = Some o -> fd_loop o = false) ->
  (forall t' tm', tms !! t' = Some tm' -> tm_cb tm' = BIND_TIMER \/ tm_cb tm' = CONNECT_TIMER ->
     tm_data tm' = Z.pos p -> t' = t) ->
  socks_ok None fds tms x' opn arm.
Proof.
  intros S Hv Hvt Hx Ht Hc Hd Hl Hone. pose proof S as [S1 S2 S3 S4 S5 S6 S7 S8].
  set (v1 := with_view_timer v (Some t)) in *.
  assert (forall q v', view x' q = Some v' -> q = p /\ v' = v1 \/ q <> p /\ view x q = Some v') as Hcase.
  { intros q v'. rewrite (Hx q). destruct (decide (q = p)) as [->|]; [intros [= <-]; by left|by right]. }
  assert (forall q v', view x' q = Some v' -> exists v0, view x q = Some v0 /\ v_fd v0 = v_fd v' /\ v_events v0 = v_events v') as Hback.
  { intros q v' [[-> ->]|[Hq Hv']]%Hcase; [by exists v|by exists v']. }
  constructor.
  - intros q v' [[-> ->]|[Hq Hv']]%Hcase; [|by apply S1]. destruct (S1 p v Hv) as (Htp & o & Ho & Hok).
    split; [done|]. exists o. split; [done|]. split; [apply Hok|]. by rewrite (Hl o Ho).
  - intros q v' (v0 & Hv0 & <- & _)%Hback. by apply (S2 q).
  - intros q r v' v'' (v0 & Hv0 & <- & _)%Hback (v2 & Hv2 & <- & _)%Hback. by apply S3.
  - intros q v' t' o (v0 & Hv0 & <- & _)%Hback. by apply (S4 q v0).
  - intros q v' r o (v0 & Hv0 & <- & _)%Hback. by apply (S5 q v0).
  - intros q v' t' [[-> ->]|[Hq Hv']]%Hcase _; [intros [= <-]; by exists tm|]. apply S6; [done|congruence].
  - intros q o Ho Hcb. destruct (S7 q o Ho Hcb) as (v0 & Hv0 & He). rewrite (Hx q).
    destruct (decide (q = p)) as [->|]; [|by exists v0]. rewrite Hv in Hv0. injection Hv0 as <-. by exists v1.
  - intros t' tm' Ht' Hc'. destruct (S8 t' tm' Ht' Hc') as (q & Hdq & [HE|(v0 & Hv0 & H1 & H2)]).
    + injection HE as <-. exists p. split; [done|]. right. exists v1. rewrite (Hx p), decide_True by done. split; [done|].
      assert (t' = t) as -> by by eapply Hone. split; [done|]. cbn. congruence.
    + exists q. split; [done|]. right. rewrite (Hx q). destruct (decide (q = p)) as [->|]; [congruence|]. by exists v0.
Qed.

(** *** Timers and their objects *)

(** A timer is made; if it is for a socket, that one is exempt. *)
Lemma socks_timer_new E fds tms x opn opn' arm arm' t tm o :
  socks_ok E fds tms x opn arm -> fds !! t = None -> tms !! t = None ->
  fd_cb o = TIMER_EVENTS -> fd_dupfd o = -1 -> fd_fd o ∉ opn -> opn ⊆ opn' -> arm' ⊆ arm ->
  (tm_cb tm = BIND_TIMER \/ tm_cb tm = CONNECT_TIMER -> exists p, E = Some p /\ tm_data tm = Z.pos p) ->
  (forall p v, E = Some p -> view x p = Some v -> v_timer v = None) ->
  socks_ok E (<[t := o]> fds) (<[t := tm]> tms) x opn' arm'.
Proof.
  intros S Hf Ht Hcb Hd Hnew Hopn Harm Hsp HE. pose proof S as [S1 S2 S3 S4 S5 S6 S7 S8].
  assert (forall q v, view x q = Some v -> q <> t) as Hne.
  { intros q v Hv ->. destruct (S1 t v Hv) as (_ & o' & Ho' & _). congruence. }
  assert (forall q v, view x q = Some v -> v_timer v <> Some t) as Htne.
  { intros q v Hv Hvt. destruct (decide (E = Some q)) as [Heq|Hn]; [by rewrite (HE q v Heq Hv) in Hvt|].
    destruct (socks_timer_object _ _ _ _ _ _ _ _ _ S Hv Hn Hvt) as [? ?]. congruence. }
  constructor.
  - intros q v Hv. pose proof (Hne q v Hv) as Hq. destruct (S1 q v Hv) as (Hqt & o' & Ho' & Hok).
    rewrite !lookup_insert_ne by done. split; [done|]. exists o'. split; [done|]. eapply object_ok_arm; [done|done|].
    intros t' ot Hvt'. rewrite !lookup_insert_ne by (intros <-; by apply (Htne q v)). intros Hs Hot.
    split; [done|by exists ot].
  - intros q v Hv Hn. by apply Hopn, (S2 q).
  - done.
  - intros q v t' o' Hv Hn. rewrite !lookup_insert. case_decide; [|by apply (S4 q)].
    intros _ [= <-] He. apply Hnew. rewrite He. by apply (S2 q).
  - intros q v r o' Hv Hn. rewrite lookup_insert. case_decide; [intros [= <-]; congruence|by apply (S5 q)].
  - intros q v t' Hv Hn Hvt. rewrite lookup_insert_ne; [by apply (S6 q v)|]. intros <-. by apply (Htne q v).
  - intros q o'. rewrite lookup_insert. case_decide; [intros [= <-]; rewrite Hcb; by intros [|]|by apply S7].
  - intros t' tm'. rewrite lookup_insert. case_decide; [|by apply S8]. intros [= <-] Hc.
    destruct (Hsp Hc) as (p & Hp & Hdp). exists p. split; [done|by left].
Qed.

(** A timer is set. *)
Lemma socks_timer_set E fds tms x opn arm t tm tm' :
  socks_ok E fds tms x opn arm -> tms !! t = Some tm -> tm_cb tm' = tm_cb tm -> tm_data tm' = tm_data tm ->
  socks_ok E fds (<[t := tm']> tms) x opn arm.
Proof.
  intros [S1 S2 S3 S4 S5 S6 S7 S8] Ht Hc Hd.
  assert (forall q, is_Some (<[t := tm']> tms !! q) -> is_Some (tms !! q)) as Hs.
  { intros q. rewrite lookup_insert. case_decide; [subst; by eexists|done]. }
  constructor; try done.
  - intros p v Hv. destruct (S1 p v Hv) as (Hp & o & Ho & Hok). rewrite lookup_insert_ne by congruence. split; [done|].
    exists o. split; [done|]. eapply object_ok_arm; [done|done|]. intros r ot _ Hr Hot. split; [by apply Hs|by exists ot].
  - intros p v r o Hv Hn Hr. by apply (S4 p v r), Hs.
  - intros p v r Hv HE Hr. destruct (S6 p v r Hv HE Hr) as (tm0 & H1 & H2 & H3). rewrite lookup_insert.
    case_decide; [|by exists tm0]. subst r. exists tm'. rewrite Ht in H1. injection H1 as <-. by rewrite Hc, Hd.
  - intros r tm0. rewrite lookup_insert. case_decide; [|by apply S8]. subst r. intros [= <-]. rewrite Hc, Hd. by apply S8.
Qed.

(** A timer is destroyed; if it was that of a socket, this one is exempt now. *)
Lemma socks_timer_gone E E' fds tms x opn opn' arm arm' t :
  socks_ok E fds tms x opn arm -> is_Some (tms !! t) -> (E = None \/ E = E') ->
  (forall q v, view x q = Some v -> v_timer v = Some t -> E' = Some q) ->
  (forall p v, view x p = Some v -> v_fd v <> -1 -> v_fd v ∈ opn') -> arm' ⊆ arm ->
  socks_ok E' (delete t fds) (delete t tms) x opn' arm'.
Proof.
  intros S [tm0 Ht] HE Hvt0 Hopn Harm. pose proof S as [S1 S2 S3 S4 S5 S6 S7 S8].
  assert (forall q v, view x q = Some v -> q <> t) as Hne.
  { intros q v Hv ->. destruct (S1 t v Hv) as (H & _). congruence. }
  constructor; try done.
  - intros q v Hv. pose proof (Hne q v Hv) as Hq. destruct (S1 q v Hv) as (Hqt & o' & Ho' & Hok).
    rewrite !lookup_delete_ne by done. split; [done|]. exists o'. split; [done|]. eapply object_ok_arm; [done|done|].
    intros t' ot _ [tm' [_ Ht']%lookup_delete_Some] [_ Hot]%lookup_delete_Some. split; [by eexists|by exists ot].
  - intros q v t' o' Hv Hn [tm' [_ Ht']%lookup_delete_Some] [_ Ho']%lookup_delete_Some. by apply (S4 q v t'); [..|eexists|].
  - intros q v r o' Hv Hn [_ Ho']%lookup_delete_Some. by apply (S5 q v r).
  - intros q v t' Hv Hn Hvt. destruct (decide (t = t')) as [<-|Htt]; [by destruct Hn; eapply Hvt0|].
    rewrite lookup_delete_ne by done. apply (S6 q v t'); [done| |done]. destruct HE as [->| ->]; done.
  - intros q o' [_ Ho']%lookup_delete_Some. by apply S7.
  - intros t' tm' [_ Ht']%lookup_delete_Some Hc. destruct (S8 t' tm' Ht' Hc) as (q & Hd & [Hq|H]); exists q; (split; [done|]).
    + left. destruct HE as [->| ->]; [done|done].
    + by right.
Qed.

(** A socket, out of the loop, is freed with its object. *)
Lemma socks_free E fds tms x x' opn arm p :
  socks_ok E fds tms x opn arm -> reviewed p None x x' -> (E = None \/ E = Some p) ->
  tms !! p = None ->
  (forall t tm, tms !! t = Some tm -> tm_cb tm = BIND_TIMER \/ tm_cb tm = CONNECT_TIMER -> tm_data tm <> Z.pos p) ->
  socks_ok None (delete p fds) tms x' opn arm.
Proof.
  intros S Hx HE Hpt Hnone. pose proof S as [S1 S2 S3 S4 S5 S6 S7 S8].
  assert (forall q v, view x' q = Some v -> q <> p /\ view x q = Some v) as Hback.
  { intros q v. rewrite (Hx q). by destruct (decide (q = p)). }
  constructor.
  - intros q v [Hq Hv]%Hback. destruct (S1 q v Hv) as (Hqt & o' & Ho' & Hok). split; [done|].
    exists o'. rewrite lookup_delete_ne by done. split; [done|]. eapply object_ok_arm; [done|done|].
    intros t' ot _ Hs [_ Hot]%lookup_delete_Some. split; [done|by exists ot].
  - intros q v [Hq Hv]%Hback. by apply (S2 q).
  - intros q r v1 v2 [Hq Hv]%Hback [Hr Hv2]%Hback. by apply S3.
  - intros q v t' o' [Hq Hv]%Hback Hn Ht [_ Ho']%lookup_delete_Some. by apply (S4 q v t').
  - intros q v r o' [Hq Hv]%Hback Hn [_ Ho']%lookup_delete_Some. by apply (S5 q v r).
  - intros q v t' [Hq Hv]%Hback _ Hvt. apply (S6 q v t'); [done| |done]. destruct HE as [->| ->]; congruence.
  - intros q o' [Hq Ho']%lookup_delete_Some Hc. destruct (S7 q o' Ho' Hc) as (v & Hv & He). exists v.
    by rewrite (Hx q), decide_False.
  - intros t' tm' Ht' Hc. destruct (S8 t' tm' Ht' Hc) as (q & Hd & [Hq|(v & Hv & H)]).
    + destruct HE as [->| ->]; [done|]. injection Hq as <-. by destruct (Hnone t' tm' Ht' Hc).
    + exists q. split; [done|]. right. exists v. rewrite (Hx q), decide_False; [done|]. intros ->.
      by destruct (Hnone t' tm' Ht' Hc).
Qed.
End Changes.

(** ** What a socket holds *)

(** The bytes of an address end in a zero, so a path is terminated. *)
Definition st_ok (st : list Z) : Prop := length st = STORAGE_SIZE /\ last st = Some 0.

Definition address_ok (addr : obus_socket_addr) : Prop := st_ok (sa_st addr).

(** A socket that is exempt has no timer yet, or no place in its server's list. *)
Record contents_ok {X : Type} (E : option positive) (x : sstate X) : Prop := {
  xo_client : forall p c, so_clients x !! p = Some c ->
    so_servers x !! p = None /\ so_peers x !! p = None /\
    kc_cb c <> 0 /\ (E = Some p \/ is_Some (kc_timer c)) /\ address_ok (kc_peer_addr c);
  xo_server : forall p c, so_servers x !! p = Some c ->
    so_clients x !! p = None /\ so_peers x !! p = None /\
    ks_cb c <> 0 /\ (E = Some p \/ is_Some (ks_timer c)) /\ address_ok (ks_addr c) /\
    is_Some (sa_name (ks_addr c)) /\ NoDup (ks_peers c) /\
    forall q, q ∈ ks_peers c <-> E <> Some q /\ exists d, so_peers x !! q = Some d /\ kp_srv d = p;
  xo_peer : forall p c, so_peers x !! p = Some c ->
    so_clients x !! p = None /\ so_servers x !! p = None /\ is_Some (so_servers x !! kp_srv c)
}.

Section Contents.
Context {X : Type}.
Implicit Types (x : sstate X) (p q : positive).

Lemma contents_exempt p x : contents_ok None x -> so_peers x !! p = None -> contents_ok (Some p) x.
Proof.
  intros [C1 C2 C3] Hp. constructor; [| |done].
  - intros q c Hc. destruct (C1 q c Hc) as (H1 & H2 & H3 & [?|H4] & H5); [done|]. split_and!; try done. by right.
  - intros q c Hc. destruct (C2 q c Hc) as (H1 & H2 & H3 & [?|H4] & H5 & H6 & H7 & H8); [done|]. split_and!; try done; [by right|].
    intros r. rewrite H8. split; intros [_ (d & Hd & Hs)]; (split; [|by exists d]); [|done]. intros [= <-]. congruence.
Qed.

(** The descriptor of the socket at [p] becomes [fd]. *)
Definition refd p (fd : Z) x : sstate X :=
  match so_clients x !! p, so_servers x !! p, so_peers x !! p with
  | Some c, _, _ => SState (<[p := kc_with_sock c (with_sock_fd (kc_sock c) fd)]> (so_clients x))
      (so_servers x) (so_peers x) (so_user x)
  | _, Some c, _ => SState (so_clients x) (<[p := ks_with_sock c (with_sock_fd (ks_sock c) fd)]> (so_servers x))
      (so_peers x) (so_user x)
  | _, _, Some c => SState (so_clients x) (so_servers x)
      (<[p := kp_with_sock c (with_sock_fd (kp_sock c) fd)]> (so_peers x)) (so_user x)
  | _, _, _ => x
  end.

Definition n_socks x : Z := Z.of_nat (size (so_clients x) + size (so_servers x) + size (so_peers x)).

Lemma refd_view p fd x v : view x p = Some v -> reviewed p (Some (with_view_fd v fd)) x (refd p fd x).
Proof.
  unfold view, refd. intros Hv q.
  destruct (so_clients x !! p) as [c|] eqn:Ec; [|destruct (so_servers x !! p) as [c|] eqn:Es;
    [|destruct (so_peers x !! p) as [c|] eqn:Ep; [|done]]]; injection Hv as <-; unfold view; cbn;
    destruct (decide (q = p)) as [->|Hq]; rewrite ?lookup_insert_eq, ?lookup_insert_ne by done;
    rewrite ?Ec, ?Es, ?Ep; done.
Qed.

Lemma refd_size p fd x : n_socks (refd p fd x) = n_socks x.
Proof.
  unfold n_socks, refd.
  destruct (so_clients x !! p) as [c|] eqn:Ec; [|destruct (so_servers x !! p) as [c|] eqn:Es;
    [|destruct (so_peers x !! p) as [c|] eqn:Ep; [|done]]]; cbn; by rewrite map_size_insert_Some by by eexists.
Qed.

Lemma insert_none {A} (m : gmap positive A) p (c c' : A) q :
  m !! p = Some c -> m !! q = None -> <[p := c']> m !! q = None.
Proof. intros Hc Hq. rewrite lookup_insert_ne; congruence. Qed.
Lemma insert_some {A} (m : gmap positive A) p (c' : A) q :
  is_Some (m !! q) -> is_Some (<[p := c']> m !! q).
Proof. rewrite lookup_insert. case_decide; [by eexists|done]. Qed.

(** A client, a server, a peer that keeps its place. *)
Lemma contents_client E x p c c' :
  contents_ok E x -> so_clients x !! p = Some c -> kc_cb c' <> 0 -> (E = Some p \/ is_Some (kc_timer c')) ->
  address_ok (kc_peer_addr c') ->
  contents_ok E (SState (<[p := c']> (so_clients x)) (so_servers x) (so_peers x) (so_user x)).
Proof.
  intros [C1 C2 C3] Hc H1 H2 H3. constructor; cbn.
  - intros q d. rewrite lookup_insert. case_decide; [subst; intros [= <-]|by apply C1].
    destruct (C1 q c Hc) as (? & ? & _). done.
  - intros q d Hd. destruct (C2 q d Hd) as (? & ?). split; [by eapply insert_none|done].
  - intros q d Hd. destruct (C3 q d Hd) as (? & ?). split; [by eapply insert_none|done].
Qed.

Lemma contents_server E x p c c' :
  contents_ok E x -> so_servers x !! p = Some c -> ks_cb c' <> 0 -> (E = Some p \/ is_Some (ks_timer c')) ->
  ks_addr c' = ks_addr c -> ks_peers c' = ks_peers c ->
  contents_ok E (SState (so_clients x) (<[p := c']> (so_servers x)) (so_peers x) (so_user x)).
Proof.
  intros [C1 C2 C3] Hc H1 H2 H3 H4. constructor; cbn.
  - intros q d Hd. destruct (C1 q d Hd) as (? & ?). split; [by eapply insert_none|done].
  - intros q d. rewrite lookup_insert. case_decide; [subst; intros [= <-]|by apply C2].
    destruct (C2 q c Hc) as (? & ? & _ & _ & ?). rewrite H3, H4. done.
  - intros q d Hd. destruct (C3 q d Hd) as (? & ? & ?). split_and!; [done|by eapply insert_none|by apply insert_some].
Qed.

Lemma contents_peer E x p c c' :
  contents_ok E x -> so_peers x !! p = Some c -> kp_srv c' = kp_srv c ->
  contents_ok E (SState (so_clients x) (so_servers x) (<[p := c']> (so_peers x)) (so_user x)).
Proof.
  intros [C1 C2 C3] Hc H1. constructor; cbn.
  - intros q d Hd. destruct (C1 q d Hd) as (? & ? & ?). split; [done|]. split; [by eapply insert_none|done].
  - intros q d Hd. destruct (C2 q d Hd) as (? & ? & ? & ? & ? & ? & ? & H8). split_and!; [done|by eapply insert_none|done..|].
    intros r. rewrite H8. apply and_iff_compat_l. split; intros (e & He & Hs).
    + destruct (decide (r = p)) as [->|Hr]; [exists c'; rewrite lookup_insert_eq; split; [done|congruence]|].
      exists e. by rewrite lookup_insert_ne.
    + rewrite lookup_insert in He. case_decide; [|by exists e]. subst. injection He as <-. exists c. split; [done|congruence].
  - intros q d. rewrite lookup_insert. case_decide; [subst; intros [= <-]; rewrite H1|]; by apply C3.
Qed.

Lemma contents_refd E p fd x : contents_ok E x -> contents_ok E (refd p fd x).
Proof.
  intros C. unfold refd. destruct (so_clients x !! p) as [c|] eqn:Ec; [|destruct (so_servers x !! p) as [c|] eqn:Es;
    [|destruct (so_peers x !! p) as [c|] eqn:Ep; [|done]]].
  - destruct (xo_client _ _ C p c Ec) as (? & ? & ? & ? & ?). by eapply contents_client.
  - destruct (xo_server _ _ C p c Es) as (? & ? & ? & ? & _). by eapply contents_server.
  - by eapply contents_peer.
Qed.
End Contents.
