(* ===== verification/SocketFacts.v ===== *)
(** * Sockets: what their operations do and keep

    The invariant of a state with sockets ([sock_inv]) adds to that of the timers
    the relations of SocketInv, and a reference of the loop for each socket.  Each
    operation of obus_socket.c keeps it, whatever the kernel answers. *)
From stdpp Require Import infinite.
From S2P Require Import Prelude Mem Cstring World Handler Utils Loop LoopFacts LoopRun Timer TimerFacts TimerRun Addr Socket SocketLaws SocketInv.

Section Inv.
Context {K X : Type} {SK : SocketKernel K} {LE : LawfulEpoll K} {LT : LawfulTimer K} {LA : LawfulArm K}.
#[local] Notation ST := (lstate K (tstate (sstate X))).
Implicit Types (s : ST) (w : world) (m : mem) (p q t : positive) (o : obus_fd) (v : sock_view) (E : option positive).

Definition socks_of s : sstate X := ts_user (ls_user s).

(** No object but [p] watches descriptor [fd]. *)
Definition alone (fd : Z) p s : Prop :=
  forall q o, q <> p -> ls_fds s !! q = Some o -> fd_loop o = true -> watched_fd o <> fd.

(** A socket that is listening or connecting, or that waits for its timer. *)
Definition busy s p v : Prop :=
  (exists o, ls_fds s !! p = Some o /\ fd_loop o = true) \/
  exists t o, v_timer v = Some t /\ is_Some (timers_of s !! t) /\ ls_fds s !! t = Some o /\
    fd_fd o ∈ armed (ls_kern s).

(** Then only the library watches its descriptor. *)
Definition busy_alone s : Prop :=
  forall p v, view (socks_of s) p = Some v -> busy s p v -> alone (v_fd v) p s.

Record sock_inv E (n : Z) s : Prop := {
  si_timers : timer_inv (n + n_socks (socks_of s)) s;
  si_socks : socks_ok E (ls_fds s) (timers_of s) (socks_of s) (opened (ls_kern s)) (armed (ls_kern s));
  si_contents : contents_ok E (socks_of s);
  si_alone : busy_alone s
}.

Lemma alone_frame s s' :
  busy_alone s ->
  (forall p v, view (socks_of s') p = Some v -> busy s' p v -> alone (v_fd v) p s' \/
     exists v0, view (socks_of s) p = Some v0 /\ v_fd v0 = v_fd v /\ busy s p v0) ->
  (forall q o', ls_fds s' !! q = Some o' -> fd_loop o' = true ->
     exists o, ls_fds s !! q = Some o /\ fd_loop o = true /\ watched_fd o = watched_fd o') ->
  busy_alone s'.
Proof.
  intros HA Hv Hl p v Hp Hb. destruct (Hv p v Hp Hb) as [|(v0 & Hv0 & <- & Hb0)]; [done|].
  intros q o' Hq Ho' Hl'. destruct (Hl q o' Ho' Hl') as (o & Ho & Hlo & <-). by apply (HA p v0 Hv0 Hb0 q).
Qed.

(** Only the kernel moves, and arms nothing. *)
Lemma alone_kern s k' : busy_alone s -> armed k' ⊆ armed (ls_kern s) -> busy_alone (set_kern s k').
Proof.
  intros HA Ha. apply (alone_frame s); [done|..].
  - intros p v Hv Hb. right. exists v. split_and!; [done..|]. destruct Hb as [Hb|(t & o & H1 & H2 & H3 & H4)]; [by left|].
    right. exists t, o. split_and!; [done..|]. by apply Ha.
  - intros q o Ho Hl. by exists o.
Qed.

(** The object at [p] changes; when it is in the loop afterwards, then with reason. *)
Lemma alone_object s s' p o o' :
  busy_alone s -> ls_fds s !! p = Some o -> ls_fds s' = <[p := o']> (ls_fds s) -> socks_of s' = socks_of s ->
  timers_of s' = timers_of s -> armed (ls_kern s') ⊆ armed (ls_kern s) ->
  (is_Some (timers_of s !! p) -> fd_fd o' = fd_fd o) ->
  (fd_loop o' = true ->
     (forall q v, q <> p -> view (socks_of s) q = Some v -> busy s q v -> watched_fd o' <> v_fd v) /\
     forall v, view (socks_of s) p = Some v -> alone (v_fd v) p s) ->
  busy_alone s'.
Proof.
  intros HA Ho Ef Ex Et Ha Hfd Hin q v. rewrite Ex. intros Hq Hb.
  assert (q <> p -> busy s q v) as Hbusy.
  { intros Hne. unfold busy in Hb. rewrite Ef, Et in Hb. destruct Hb as [(oq & Hoq & Hl)|(t & ot & H1 & H2 & H3 & H4)].
    - left. exists oq. by rewrite lookup_insert_ne in Hoq by done.
    - right. rewrite lookup_insert in H3. case_decide as Hpt; [subst t; injection H3 as <-|].
      + exists p, o. split_and!; [done..|]. rewrite <- Hfd by done. by apply Ha.
      + exists t, ot. split_and!; [done..|]. by apply Ha. }
  assert (busy s q v \/ q = p /\ fd_loop o' = true) as [Hb0|[-> Hl']].
  { destruct (decide (q = p)) as [->|Hne]; [|left; by apply Hbusy].
    unfold busy in Hb. rewrite Ef, Et in Hb. destruct Hb as [(oq & Hoq & Hl)|(t & ot & H1 & H2 & H3 & H4)].
    - rewrite lookup_insert_eq in Hoq. injection Hoq as <-. by right.
    - left. right. rewrite lookup_insert in H3. case_decide as Hpt; [subst t; injection H3 as <-|].
      + exists p, o. split_and!; [done..|]. rewrite <- Hfd by done. by apply Ha.
      + exists t, ot. split_and!; [done..|]. by apply Ha. }
  - intros r o1 Hr. rewrite Ef, lookup_insert. case_decide as Hpr; [subst r; intros [= <-] Hl|by apply (HA q v Hq Hb0 r)].
    by apply (proj1 (Hin Hl) q v).
  - intros r o1 Hr. rewrite Ef, lookup_insert_ne by done. by apply (proj2 (Hin Hl') v Hq r).
Qed.

(** Sockets keep their descriptors and their timers. *)
Lemma alone_views s x :
  busy_alone s -> (forall q, view x q = view (socks_of s) q) -> busy_alone (set_socks s x).
Proof.
  intros HA Hv. apply (alone_frame s); [done|..].
  - intros p v Hp Hb. right. exists v. split_and!; [by rewrite <- Hv|done|exact Hb].
  - intros q o Ho Hl. by exists o.
Qed.

(** The kernel watches nothing on a descriptor. *)
Definition unwatched (fd : Z) s : Prop :=
  forall lp, ls_loop s = Some lp -> interest (ls_kern s) (lp_epfd lp) !! fd = None.

(** An open descriptor that belongs to nobody. *)
Record spare (fd : Z) s : Prop := {
  sp_free : free_fd (ls_fds s) (timers_of s) (socks_of s) fd;
  sp_some : fd <> -1;
  sp_open : fd ∈ opened (ls_kern s);
  sp_unwatched : unwatched fd s
}.

Lemma array_same_loop s s' : ls_loop s' = ls_loop s -> array_kept s s'.
Proof. intros E i (lp & e & El & He). exists lp, e. by rewrite E. Qed.

Lemma timer_open n s t o :
  timer_inv n s -> is_Some (timers_of s !! t) -> ls_fds s !! t = Some o -> fd_fd o ∈ opened (ls_kern s).
Proof.
  intros [(lp & El & W) Hok] [tm Ht] Ho. destruct (tk_fd _ _ (Hok lp El) t tm Ht) as (_ & o' & Ho' & HF).
  rewrite Ho in Ho'. injection Ho' as <-. apply HF.
Qed.

Lemma dup_watched n s q o lp :
  timer_inv n s -> ls_loop s = Some lp -> ls_fds s !! q = Some o -> fd_dupfd o <> -1 ->
  is_Some (interest (ls_kern s) (lp_epfd lp) !! fd_dupfd o) /\ fd_dupfd o ∈ opened (ls_kern s).
Proof.
  intros HI El Ho Hd. pose proof (timer_inv_loop _ _ HI) as (lp0 & El0 & W). rewrite El in El0. injection El0 as <-.
  destruct (fd_loop o) eqn:Hl; [|by destruct Hd; apply (lw_idle _ _ _ _ _ W q)].
  destruct (lw_listed _ _ _ _ _ W q (lw_used _ _ _ _ _ W q o Ho Hl)) as (o' & e & Ho' & _ & _ & He & _).
  rewrite Ho in Ho'. injection Ho' as <-. unfold watched_fd in He. rewrite (proj2 (Z.eqb_neq _ _) Hd) in He.
  split; [by eexists|]. apply (lw_open _ _ _ _ _ W). by eexists.
Qed.

Lemma sock_loop E n s : sock_inv E n s -> exists lp, ls_loop s = Some lp.
Proof. intros [[(lp & El & _) _] _ _ _]. by exists lp. Qed.

(** A descriptor that is not open is nobody's. *)
Lemma closed_free E n s fd :
  sock_inv E n s -> fd <> -1 -> fd ∉ opened (ls_kern s) ->
  free_fd (ls_fds s) (timers_of s) (socks_of s) fd.
Proof.
  intros HI Hfd Hn. destruct (sock_loop _ _ _ HI) as [lp El]. destruct HI as [HI HS _ _]. constructor.
  - intros q v Hv <-. by apply Hn, (so_open _ _ _ _ _ _ HS q).
  - intros t o Ht Ho <-. by apply Hn, (timer_open _ _ t o HI).
  - intros q o Ho <-. by apply Hn, (dup_watched _ _ _ _ _ HI El Ho).
Qed.

(** The kernel moves on, what is watched does not change, nothing that matters is
    closed or armed. *)
Lemma timer_inv_kern n s k' lp :
  timer_inv n s -> ls_loop s = Some lp ->
  interest k' (lp_epfd lp) = interest (ls_kern s) (lp_epfd lp) ->
  (forall fd, is_Some (interest (ls_kern s) (lp_epfd lp) !! fd) -> fd ∈ opened k') ->
  (forall t o, is_Some (timers_of s !! t) -> ls_fds s !! t = Some o -> fd_fd o ∈ opened k') ->
  timer_inv n (set_kern s k').
Proof.
  intros [(lp0 & El0 & W) Hok] El Hi Ho Ht. rewrite El in El0. injection El0 as <-. split.
  - exists lp. split; [done|]. cbn. rewrite Hi. destruct W. by constructor.
  - intros lp1 El1. cbn in El1. rewrite El in El1. injection El1 as <-.
    apply (timers_ok_frame lp lp s); [by apply Hok|done|done|..]; cbn.
    + intros q o Hq Hqo [F1 F2 F3 F4 F5]. exists o. rewrite Hi. split_and!; try done. by apply (Ht q).
    + by apply (tk_timer lp s (Hok lp El)).
Qed.

(** Calls of the kernel in the middle of an operation. *)
Record moved s k' : Prop := {
  mv_interest : forall lp, ls_loop s = Some lp -> interest k' (lp_epfd lp) = interest (ls_kern s) (lp_epfd lp);
  mv_opened : opened (ls_kern s) ⊆ opened k';
  mv_armed : armed k' ⊆ armed (ls_kern s)
}.

Lemma moved_inv E n s k' : sock_inv E n s -> moved s k' -> sock_inv E n (set_kern s k').
Proof.
  intros HI [M1 M2 M3]. destruct (sock_loop _ _ _ HI) as [lp El]. destruct HI as [HI HS HC HA]. split; [|by eapply socks_mono|done|by apply alone_kern].
  apply (timer_inv_kern _ s k' lp); [done|done|by apply M1| |].
  - intros fd Hfd. apply M2. destruct (timer_inv_loop _ _ HI) as (lp0 & El0 & W). rewrite El in El0. injection El0 as <-.
    by apply (lw_open _ _ _ _ _ W).
  - intros t o Ht Ho. by apply M2, (timer_open _ _ t o HI).
Qed.

Lemma moved_spare s k' fd : spare fd s -> moved s k' -> spare fd (set_kern s k').
Proof.
  intros [F1 F2 F3 F4] [M1 M2 M3]. split; [done|done|by apply M2|]. intros lp El. cbn in *. rewrite M1 by done. by apply F4.
Qed.
Lemma moved_unwatched s k' fd : unwatched fd s -> moved s k' -> unwatched fd (set_kern s k').
Proof. intros HU [M1 _ _] lp El. cbn in *. rewrite M1 by done. by apply HU. Qed.

Lemma wps_quiet {A} (c : KM K A) (Q : A -> ST -> world -> mem -> Prop) s w m :
  quiet c -> (forall a k', c (ls_kern s) = (a, k') -> moved s k' -> opened k' = opened (ls_kern s) -> Q a (set_kern s k') w m) ->
  wps (kern c) Q s w m.
Proof.
  intros [H1 H2] HQ. apply wps_kern. destruct (c (ls_kern s)) as [a k'] eqn:Ec. cbn.
  assert (forall e, kept e (ls_kern s) k') as Hk by (intros e; specialize (H1 (ls_kern s) e); by rewrite Ec in H1).
  apply HQ; [done| |apply (Hk 0)]. split; [intros lp _; apply Hk|by rewrite (proj2 (Hk 0))|].
  specialize (H2 (ls_kern s)). by rewrite Ec in H2.
Qed.

Lemma wps_opening {A} (c : KM K A) get (Q : A -> ST -> world -> mem -> Prop) E n s w m :
  opening_call c get -> sock_inv E n s ->
  (forall a k', c (ls_kern s) = (a, k') -> moved s k' ->
     match get a with Some fd => spare fd (set_kern s k') /\ 0 <= fd | None => True end -> Q a (set_kern s k') w m) ->
  wps (kern c) Q s w m.
Proof.
  intros H HI HQ. apply wps_kern. destruct (c (ls_kern s)) as [a k'] eqn:Ec. cbn.
  assert (forall e, armed k' ⊆ armed (ls_kern s) /\ match get a with Some fd => opens e fd (ls_kern s) k' | None => kept e (ls_kern s) k' end) as Hc.
  { intros e. specialize (H (ls_kern s) e). by rewrite Ec in H. }
  apply HQ; [done|..].
  - split; [| |apply (Hc 0)].
    + intros lp _. destruct (Hc (lp_epfd lp)) as [_ Hk]. destruct (get a); [by destruct Hk as (_ & _ & ? & _)|by apply Hk].
    + destruct (Hc 0) as [_ Hk]. destruct (get a); [destruct Hk as (_ & _ & _ & ->); set_solver|by rewrite (proj2 Hk)].
  - destruct (get a) as [fd|]; [|done]. destruct (Hc 0) as [_ (H0 & Hn & _ & Ho)]. split; [|done].
    split; [apply (closed_free E n s); [done|lia|done]|lia|cbn; rewrite Ho; set_solver|].
    intros lp El. cbn in *. destruct (Hc (lp_epfd lp)) as [_ HO]. pose proof HO as (_ & _ & -> & _).
    apply (opens_unwatched _ _ _ _ HO). destruct HI as [HI _ _ _]. destruct (timer_inv_loop _ _ HI) as (lp0 & El0 & W).
    rewrite El in El0. injection El0 as <-. exact (lw_open _ _ _ _ _ W).
Qed.

(** Only the kernel moves, arming nothing and watching the same. *)
Definition still s s' : Prop := exists k', s' = set_kern s k' /\ armed k' ⊆ armed (ls_kern s) /\
  forall lp, ls_loop s = Some lp -> interest k' (lp_epfd lp) = interest (ls_kern s) (lp_epfd lp).

#[export] Instance still_preorder : PreOrder still.
Proof.
  split; [intros s; exists (ls_kern s); by destruct s|]. intros s1 s2 s3 (k2 & -> & A1 & I1) (k3 & -> & A2 & I2).
  exists k3. split_and!; [done|by etransitivity|]. intros lp El. cbn in *. rewrite I2 by done. by apply I1.
Qed.

Lemma moved_still s k' : moved s k' -> still s (set_kern s k').
Proof. intros [M1 M2 M3]. by exists k'. Qed.

Lemma still_unwatched s s' fd : still s s' -> unwatched fd s -> unwatched fd s'.
Proof. intros (k' & -> & _ & Hi) HU lp El. cbn in *. rewrite Hi by done. by apply HU. Qed.

Lemma still_array s s' : still s s' -> array_kept s s'.
Proof. intros (k' & -> & _ & _). by apply array_same_loop. Qed.

Lemma wps_kern_bind {A B} (c : KM K A) (f : A -> KM K B) (Q : B -> ST -> world -> mem -> Prop) s w m :
  wps (kern c) (fun a s' w' m' => wps (kern (f a)) Q s' w' m') s w m -> wps (kern (c ≫= f)) Q s w m.
Proof.
  assert (forall C (d : KM K C) R (s1 : ST) w1 m1, wps (kern d) R s1 w1 m1 ->
    R (fst (d (ls_kern s1))) (set_kern s1 (snd (d (ls_kern s1)))) w1 m1) as Hinv.
  { intros C d R s1 w1 m1 (r & m2 & [= <- <-] & H). exact H. }
  intros H. apply Hinv, Hinv in H. apply wps_kern. unfold mbind, KM_bind. cbn [ls_kern set_kern] in H.
  by destruct (c (ls_kern s)) as [a k1].
Qed.

Lemma wps_kern_ret {A} (a : A) (Q : A -> ST -> world -> mem -> Prop) s w m : Q a s w m -> wps (kern (mret a)) Q s w m.
Proof. intros H. apply wps_kern. by destruct s. Qed.

(** The closing of a descriptor that belongs to nobody. *)
Lemma wps_close_spare fd E n (Q : sysret -> ST -> world -> mem -> Prop) s w m :
  sock_inv E n s -> spare fd s ->
  (forall r s', sock_inv E n s' -> still s s' -> Q r s' w m) ->
  wps (kern (sys_close fd)) Q s w m.
Proof.
  intros HI [F1 F2 F3 F4] HQ. destruct (sock_loop _ _ _ HI) as [lp El]. apply wps_kern.
  pose proof (close_frame fd (ls_kern s) (lp_epfd lp) (F4 lp El)) as Hi.
  pose proof (close_opened fd (ls_kern s)) as Ho. pose proof (arm_close fd (ls_kern s)) as Ha.
  destruct (sys_close fd (ls_kern s)) as [r k']. cbn in *.
  apply HQ; [|exists k'; split_and!; [done..|]; intros lp' El'; rewrite El in El'; by injection El' as <-]. pose proof HI as [HT HS HC HA].
  assert (forall z, z <> fd -> z ∈ opened (ls_kern s) -> z ∈ opened k') as Hkeep by (intros z; rewrite Ho; set_solver).
  split; [| |done|by apply alone_kern].
  - apply (timer_inv_kern _ s k' lp); [done..| |].
    + intros z Hz. apply Hkeep; [intros ->; rewrite (F4 lp El) in Hz; by destruct Hz|].
      destruct (timer_inv_loop _ _ HT) as (lp0 & El0 & W). rewrite El in El0. injection El0 as <-. by apply (lw_open _ _ _ _ _ W).
    + intros t o Ht Hto. apply Hkeep; [by apply (ff_timer _ _ _ _ F1 t)|by apply (timer_open _ _ t o HT)].
  - apply (socks_frame E (ls_fds s) _ _ _ (opened (ls_kern s)) _ (armed (ls_kern s)) _ HS); cbn.
    + intros q v o _ Hq Hok. exists o. split; [done|]. eapply object_ok_arm; [done|done|]. intros t ot _ Hs Ht. split; [done|by exists ot].
    + intros t o' _ Ht. by exists o'.
    + intros q o'. by apply (so_events _ _ _ _ _ _ HS).
    + intros p v q o'. by apply (so_not_dup _ _ _ _ _ _ HS).
    + intros p v Hv Hn. apply Hkeep; [by apply (ff_sock _ _ _ _ F1 p)|by apply (so_open _ _ _ _ _ _ HS p)].
Qed.

(** ** Steps on the state *)

(** Another part of the application's data. *)
Lemma timer_inv_socks n s x : timer_inv n s -> timer_inv n (set_socks s x).
Proof.
  intros [HL Hok]. split; [exact HL|]. intros lp El. apply (timers_ok_frame lp lp s); [by apply Hok|done|done|..]; cbn.
  - intros q o _ Ho [F1 F2 F3 F4 F5]. exists o. by split_and!.
  - intros q o. by apply (tk_timer lp s (Hok lp El)).
Qed.

Lemma sock_inv_socks E n s x :
  sock_inv E n s -> n_socks x = n_socks (socks_of s) -> contents_ok E x ->
  (forall q, view x q = view (socks_of s) q) -> sock_inv E n (set_socks s x).
Proof.
  intros [HT HS HC HA] Hn Hx Hv. split; [|by eapply socks_view|done|by apply alone_views].
  change (socks_of (set_socks s x)) with x. rewrite Hn. by apply timer_inv_socks.
Qed.

(** The base of a socket. *)
Lemma view_sock s p v :
  view (socks_of s) p = Some v -> exists b, sock_of s p = Some b /\ sb_fd b = v_fd v /\
    forall fd, set_sock_of s p (with_sock_fd b fd) = set_socks s (refd p fd (socks_of s)).
Proof.
  unfold view, sock_of, set_sock_of, refd, clients_of, servers_of, peers_of, socks_of.
  destruct (so_clients _ !! p) as [c|]; [intros [= <-]; by eexists|].
  destruct (so_servers _ !! p) as [c|]; [intros [= <-]; by eexists|].
  destruct (so_peers _ !! p) as [c|]; [intros [= <-]; by eexists|done].
Qed.

Lemma wps_get_sock p v (Q : obus_socket_base -> ST -> world -> mem -> Prop) s w m :
  view (socks_of s) p = Some v -> (forall b, sb_fd b = v_fd v -> Q b s w m) -> wps (get_sock p) Q s w m.
Proof.
  intros Hv HQ. destruct (view_sock s p v Hv) as (b & Hb & Hfd & _). unfold get_sock.
  apply wps_bind, wps_gets, wps_mem. eapply wp_lift; [exact Hb|]. by apply HQ.
Qed.

Lemma wps_set_fd p v fd (Q : unit -> ST -> world -> mem -> Prop) s w m :
  view (socks_of s) p = Some v -> Q tt (set_socks s (refd p fd (socks_of s))) w m -> wps (set_fd_of p fd) Q s w m.
Proof.
  intros Hv HQ. destruct (view_sock s p v Hv) as (b & Hb & Hfd & Hset). unfold set_fd_of, get_sock.
  apply wps_bind, wps_bind, wps_gets, wps_mem. eapply wp_lift; [exact Hb|]. apply wps_modify. cbn [id]. by rewrite Hset.
Qed.

Lemma alone_refd s p v fd :
  busy_alone s -> view (socks_of s) p = Some v -> alone fd p s -> busy_alone (set_socks s (refd p fd (socks_of s))).
Proof.
  intros HA Hv Hf q vq Hq Hb. change (view (refd p fd (socks_of s)) q = Some vq) in Hq.
  rewrite (refd_view p fd _ v Hv q) in Hq. destruct (decide (q = p)) as [->|Hne].
  - injection Hq as <-. exact Hf.
  - exact (HA q vq Hq Hb).
Qed.

(** What is watched in the kernel and in the list. *)
Lemma listed_watch n s q o :
  loop_inv n s -> ls_fds s !! q = Some o -> fd_loop o = true ->
  exists lp e, ls_loop s = Some lp /\ interest (ls_kern s) (lp_epfd lp) !! watched_fd o = Some e /\ ep_ptr e = q /\
    0 <= watched_fd o.
Proof.
  intros (lp & El & W) Ho Hl. destruct (lw_listed _ _ _ _ _ W q (lw_used _ _ _ _ _ W q o Ho Hl)) as (o' & e & Ho' & _ & _ & He & Hp).
  rewrite Ho in Ho'. injection Ho' as <-. exists lp, e. split_and!; [done..|]. by apply (lw_ints _ _ _ _ _ W) in He as [? _]; lia.
Qed.

Lemma unwatched_alone n s fd p : loop_inv n s -> unwatched fd s -> alone fd p s.
Proof.
  intros HL HU q o _ Ho Hl <-. destruct (listed_watch _ _ _ _ HL Ho Hl) as (lp & e & El & He & _).
  by rewrite (HU lp El) in He.
Qed.

Lemma nothing_alone n s p : loop_inv n s -> alone (-1) p s.
Proof. intros HL q o _ Ho Hl He. destruct (listed_watch _ _ _ _ HL Ho Hl) as (_ & _ & _ & _ & _ & H). lia. Qed.

(** A socket out of the loop, alone on its descriptor. *)
Lemma alone_unwatched n s fd p :
  loop_inv n s -> (forall o, ls_fds s !! p = Some o -> fd_loop o = false) -> alone fd p s -> unwatched fd s.
Proof.
  intros (lp0 & El0 & W) Hl HA lp El. rewrite El in El0. injection El0 as <-.
  destruct (interest (ls_kern s) (lp_epfd lp) !! fd) as [e|] eqn:He; [exfalso|done].
  destruct (lw_ints _ _ _ _ _ W _ _ He) as (_ & Hin & o & Ho & Hw).
  destruct (lw_listed _ _ _ _ _ W _ Hin) as (o' & _ & Ho' & Hlo & _). rewrite Ho in Ho'. injection Ho' as <-.
  apply (HA (ep_ptr e) o); [|done|done|done]. intros Hp. rewrite Hp in Ho. apply Hl in Ho. congruence.
Qed.

(** The socket at [p] takes a descriptor that belongs to nobody. *)
Lemma sock_inv_take E n s p v o fd :
  sock_inv E n s -> view (socks_of s) p = Some v -> ls_fds s !! p = Some o -> fd_loop o = false ->
  spare fd s -> sock_inv E n (set_socks s (refd p fd (socks_of s))).
Proof.
  intros [HT HS HC HA] Hv Ho Hl [F1 F2 F3 F4]. split; cbn.
  - change (socks_of (set_socks s _)) with (refd p fd (socks_of s)). rewrite refd_size. by apply timer_inv_socks.
  - eapply socks_refd; [exact HS|exact Hv|exact Ho|exact Hl|by apply refd_view| |done].
    intros q v' _ Hq Hn. by apply (so_open _ _ _ _ _ _ HS q).
  - by apply contents_refd.
  - apply (alone_refd s p v); [done..|]. eapply unwatched_alone; [apply HT|done].
Qed.

(** It gives up its descriptor, which is closed. *)
Lemma sock_inv_drop E n s p v o k' :
  sock_inv E n s -> view (socks_of s) p = Some v -> ls_fds s !! p = Some o -> fd_loop o = false ->
  v_fd v <> -1 -> unwatched (v_fd v) s -> k' = snd (sys_close (v_fd v) (ls_kern s)) ->
  sock_inv E n (set_socks (set_kern s k') (refd p (-1) (socks_of s))).
Proof.
  intros HI Hv Ho Hl Hn HU ->. destruct (sock_loop _ _ _ HI) as [lp El]. pose proof HI as [HT HS HC HA].
  pose proof (close_frame (v_fd v) (ls_kern s) (lp_epfd lp) (HU lp El)) as Hi.
  pose proof (close_opened (v_fd v) (ls_kern s)) as Hop. pose proof (arm_close (v_fd v) (ls_kern s)) as Ha.
  set (k' := snd (sys_close (v_fd v) (ls_kern s))) in *.
  assert (forall z, z <> v_fd v -> z ∈ opened (ls_kern s) -> z ∈ opened k') as Hkeep by (intros z; rewrite Hop; set_solver).
  assert (timer_inv (n + n_socks (socks_of s)) (set_kern s k')) as HK.
  { apply (timer_inv_kern _ s k' lp); [done..| |].
    + intros z Hz. apply Hkeep; [intros ->; rewrite (HU lp El) in Hz; by destruct Hz|].
      destruct (timer_inv_loop _ _ HT) as (lp0 & El0 & W). rewrite El in El0. injection El0 as <-. by apply (lw_open _ _ _ _ _ W).
    + intros t ot Ht Hto. apply Hkeep; [by apply (so_not_timer _ _ _ _ _ _ HS p v t ot)|by apply (timer_open _ _ t ot HT)]. }
  split; cbn.
  - change (socks_of (set_socks _ _)) with (refd p (-1) (socks_of s)). rewrite refd_size. apply timer_inv_socks.
    exact HK.
  - apply (socks_mono E _ _ _ (opened k') _ (armed (ls_kern s))); [|done|exact Ha].
    eapply socks_refd; [exact HS|exact Hv|exact Ho|exact Hl|by apply refd_view| |done].
    intros q v' Hq Hv' Hn'. apply Hkeep; [|by apply (so_open _ _ _ _ _ _ HS q)].
    intros He. by apply Hq, (so_distinct _ _ _ _ _ _ HS q p v' v).
  - by apply contents_refd.
  - apply (alone_refd (set_kern s k') p v); [by apply alone_kern|done|].
    eapply (nothing_alone _ (set_kern s k')), HK.
Qed.

(** The object of a socket, out of the loop, is set up again. *)
Lemma sock_inv_put E n s p v o o' :
  sock_inv E n s -> view (socks_of s) p = Some v -> ls_fds s !! p = Some o -> fd_loop o = false ->
  fd_loop o' = false -> fd_dupfd o' = -1 ->
  (fd_cb o' = 0 \/ fd_cb o' = v_events v /\ fd_data o' = Z.pos p) -> v_events v <> TIMER_EVENTS ->
  sock_inv E n (set_fds s (<[p := o']> (ls_fds s))).
Proof.
  intros [HT HS HC HA] Hv Ho Hl Hl' Hd Hcb Hev. destruct (so_object _ _ _ _ _ _ HS p v Hv) as (Hpt & _).
  split; [| |done|].
  - apply (idle_timer_inv _ s p); [done|done|congruence|intros q Hq; by rewrite lookup_insert_ne|].
    intros o2. rewrite lookup_insert_eq. intros [= <-]. split_and!; [done|done|].
    destruct Hcb as [->|[-> _]]; [done|exact Hev].
  - cbn. eapply (socks_object E _ _ _ (opened (ls_kern s)) _ (armed (ls_kern s)) _ p o o'); [exact HS|exact Ho|..].
    + intros v' Hv'. change (view (socks_of s) p = Some v') in Hv'. rewrite Hv in Hv'. injection Hv' as <-. split; [done|]. by rewrite Hl'.
    + intros [tm Ht]. change (timers_of s !! p = Some tm) in Ht. congruence.
    + intros Hc. exists v. split; [done|]. destruct Hcb as [Hz|[Hz _]]; [rewrite Hz in Hc; by destruct Hc|done].
    + intros q v' Hq Hn He. rewrite Hd in He. congruence.
    + intros q v' Hq Hn. by apply (so_open _ _ _ _ _ _ HS q).
    + done.
  - apply (alone_object s _ p o o'); [done..| |].
    + intros [tm H2]. change (timers_of s !! p = Some tm) in H2. congruence.
    + by rewrite Hl'.
Qed.

(** ** The loop *)

Lemma unwatched_kept fd s s' :
  unwatched fd s -> (forall lp', ls_loop s' = Some lp' -> exists lp, ls_loop s = Some lp /\ lp_epfd lp' = lp_epfd lp /\
    forall z, interest (ls_kern s) (lp_epfd lp) !! z = None -> interest (ls_kern s') (lp_epfd lp) !! z = None) ->
  unwatched fd s'.
Proof. intros HU H lp' El'. destruct (H lp' El') as (lp & El & -> & Hz). by apply Hz, HU. Qed.

(** The removal of any object. *)
Lemma wps_remove {AL : Allocator} E n s p o w m :
  sock_inv E n s -> ls_fds s !! p = Some o ->
  wps (obus_loop_remove p)
      (fun _ s' w' m' => sock_inv E n s' /\ array_kept s s' /\ ls_user s' = ls_user s /\
         armed (ls_kern s') ⊆ armed (ls_kern s) /\
         ls_fds s' = <[p := with_fd_loop (with_dupfd o (-1)) false]> (ls_fds s) /\
         (forall z, unwatched z s -> unwatched z s') /\
         (fd_loop o = true -> unwatched (watched_fd o) s')) s w m.
Proof.
  intros HI Ho. pose proof HI as [HT HS HC HA].
  eapply wps_mono; [apply (wps_keeps (fun _ => True) armed_le); [apply loop_remove_armed|done|]; eapply wps_loop_remove; [apply HT|exact Ho]|].
  intros ret s' w' m' [(_ & _ & HR) [_ Ha]]. unfold armed_le in Ha. unfold remove_post in HR. destruct (fd_loop o) eqn:Hl.
  2:{ destruct HR as [_ ->]. split_and!; [done..| |done|done].
      destruct (timer_inv_loop _ _ HT) as (lp & El & W). rewrite with_dupfd_idle by by apply (lw_idle _ _ _ _ _ W p).
      rewrite insert_id; [done|]. rewrite Ho. destruct o. cbn in Hl. by subst. }
  destruct HR as [_ UR]. pose proof UR as [F Eu (lp & El & Hp & El' & Hi) Hop].
  assert (timers_of s' = timers_of s) as Et by by apply timers_same.
  assert (socks_of s' = socks_of s) as Ex by (unfold socks_of; by rewrite Eu).
  split_and!; [| |done|done|done| |].
  - split.
    + rewrite Ex. by eapply remove_timer_inv.
    + rewrite F, Et, Ex. eapply (socks_object E _ _ _ (opened (ls_kern s)) _ (armed (ls_kern s)) _ p o); [exact HS|exact Ho|..|done].
      * intros v Hv. destruct (so_object _ _ _ _ _ _ HS p v Hv) as (_ & o2 & Ho2 & Hcb & _). rewrite Ho in Ho2. injection Ho2 as <-.
        by split.
      * done.
      * intros Hc. by apply (so_events _ _ _ _ _ _ HS p o).
      * intros q v Hq Hn He. cbn in He. congruence.
      * intros q v Hq Hn. rewrite Hop. pose proof (so_open _ _ _ _ _ _ HS q v Hq Hn) as Hin.
        destruct (Z.eqb_spec (fd_dupfd o) (-1)); [done|]. apply elem_of_difference. split; [done|].
        intros He%elem_of_singleton. by apply (so_not_dup _ _ _ _ _ _ HS q v p o).
    + by rewrite Ex.
    + by eapply alone_object.
  - by eapply unregistered_array.
  - intros z HU. eapply unwatched_kept; [exact HU|]. rewrite El'. intros lp' [= <-]. exists lp. split_and!; [done..|].
    intros z' Hz. by rewrite Hi, lookup_delete_None; right.
  - intros _ lp'. rewrite El'. intros [= <-]. cbn. rewrite Hi. apply lookup_delete_eq.
Qed.

(** What fails changes nothing. *)
Lemma sock_inv_untouched E n s s' :
  sock_inv E n s -> untouched s s' -> armed (ls_kern s') ⊆ armed (ls_kern s) -> sock_inv E n s'.
Proof.
  intros HI HU Ha. destruct (sock_loop _ _ _ HI) as [lp El]. destruct HI as [HT HS HC HL].
  pose proof HU as [U1 U2 U3 U4]. destruct (U4 lp El) as [_ Hop].
  assert (socks_of s' = socks_of s) as Ex by (unfold socks_of; by rewrite U3).
  pose proof (timers_same _ _ U3) as Et. split; rewrite ?Ex; [by eapply untouched_timer_inv| |done|].
  - rewrite U2, Et, Hop. by eapply socks_mono.
  - apply (alone_frame s); [done|..]; rewrite ?Ex, ?U2; [|intros q o Ho Hl; by exists o].
    intros p v Hv Hb. right. exists v. split_and!; [done..|]. unfold busy in *. rewrite U2, Et in Hb.
    destruct Hb as [Hb|(t & o & H1 & H2 & H3 & H4)]; [by left|right]. exists t, o. split_and!; [done..|]. by apply Ha.
Qed.

(** The registration of a socket on its descriptor, which nothing watches. *)
Lemma wps_sock_add {AL : Allocator} E n s p v o w m :
  sock_inv E n s -> view (socks_of s) p = Some v -> ls_fds s !! p = Some o -> fd_loop o = false ->
  fd_cb o = v_events v -> fd_data o = Z.pos p -> fd_fd o = v_fd v -> v_fd v <> -1 -> unwatched (v_fd v) s ->
  (forall t ot, v_timer v = Some t -> ls_fds s !! t = Some ot -> fd_fd ot ∉ armed (ls_kern s)) ->
  wps (obus_loop_add p)
      (fun ret s' w' m' => sock_inv E n s' /\ array_kept s s' /\ ls_user s' = ls_user s /\
         (ret < 0 /\ untouched s s' \/ ret = 0)) s w m.
Proof.
  intros HI Hv Ho Hl Hcb Hdt Hfd Hn HU Harm. pose proof HI as [HT HS HC HL].
  eapply wps_mono; [apply (wps_keeps (fun _ => True) armed_le); [apply loop_add_armed|done|]; eapply wps_loop_add; [apply HT|exact Ho]|].
  intros ret s' w' m' [(_ & _ & HA) [_ Ha]]. unfold armed_le in Ha. unfold add_post in HA.
  destruct (_ || (fd_cb o =? 0)) eqn:Eg.
  { destruct HA as [-> ->]. split_and!; [done..|]. left. split; [done|apply untouched_refl]. }
  rewrite Hl in HA. apply orb_false_iff in Eg as [_ Hc0%Z.eqb_neq].
  destruct HA as [[Hr HU']|[-> [d RG]]].
  - split_and!; [by eapply sock_inv_untouched|by apply untouched_array|apply HU'|by left].
  - pose proof RG as [F Eu (lp & El & Hp & El' & HW)].
    assert (d = -1) as ->.
    { destruct HW as [_ _ _ _ [[-> _]|(_ & _ & _ & Hex)]]; [done|]. rewrite Hfd, (HU lp El) in Hex. by destruct Hex. }
    assert (timers_of s' = timers_of s) as Et by by apply timers_same.
    assert (socks_of s' = socks_of s) as Ex by (unfold socks_of; by rewrite Eu).
    destruct (so_object _ _ _ _ _ _ HS p v Hv) as (Hpt & _).
    split_and!; [|by eapply registered_array|done|by right].
    split; rewrite ?Ex; [| |done|].
    + eapply add_timer_inv; [done|done|done| |done|exact RG|done].
      intros q o' Hq Ho' He. exfalso. apply (so_not_timer _ _ _ _ _ _ HS p v q o'); [done..|congruence].
    + rewrite F, Et. eapply (socks_object E _ _ _ (opened (ls_kern s)) _ (armed (ls_kern s)) _ p o); [exact HS|exact Ho|..|done].
      * intros v' Hv'. rewrite Hv in Hv'. injection Hv' as <-. split; [by right|]. intros _. split_and!; [done..|].
        intros t ot Ht _ Hot Hin. by apply (Harm t ot Ht Hot), Ha.
      * done.
      * intros Hc. exists v. split; [done|]. by rewrite <- Hcb.
      * intros q v' Hq Hn' He. cbn in He. congruence.
      * intros q v' Hq Hn'. apply (watches_sub _ _ _ _ _ _ HW). by apply (so_open _ _ _ _ _ _ HS q).
    + eapply alone_object; [exact HL|exact Ho|exact F|done|done|done|done|]. intros _. split.
      * intros q v' Hne Hq _ He. change (fd_fd o = v_fd v') in He. apply Hne.
        apply (so_distinct _ _ _ _ _ _ HS q p v' v); [done|done|congruence|congruence].
      * intros v' Hv'. rewrite Hv in Hv'. injection Hv' as <-. eapply unwatched_alone; [apply HT|done].
Qed.

(** ** Timers of sockets *)

(** What is asked of the kernel when a timer is set, and what the timer is then. *)
Definition timer_asked t timeout (tm : obus_timer) s s' : Prop := exists o, ls_fds s !! t = Some o /\
  let '(r, k') := sys_timerfd_settime (fd_fd o) (timer_value timeout) (ls_kern s) in
  ls_kern s' = k' /\
  timers_of s' = match r with
                 | SysErr _ => timers_of s
                 | SysOk _ => <[t := Timer timeout (tm_cb tm) (tm_data tm)]> (timers_of s)
                 end.

(** What a setting leaves. *)
Record timer_set_post n t tm timeout s (ret : Z) s' : Prop := {
  ts_inv : sock_inv None n s';
  ts_array : array_kept s s';
  ts_fds : ls_fds s' = ls_fds s;
  ts_socks : socks_of s' = socks_of s;
  ts_clear : timeout = 0 -> armed (ls_kern s') ⊆ armed (ls_kern s);
  ts_opened : opened (ls_kern s') = opened (ls_kern s);
  ts_value : timer_asked t timeout tm s s'
}.

Lemma wps_sock_timer_set {AL : Allocator} n s t tm timeout w m :
  sock_inv None n s -> timers_of s !! t = Some tm ->
  (timeout = 0 \/ forall p v o, view (socks_of s) p = Some v -> v_timer v = Some t -> ls_fds s !! p = Some o ->
     fd_loop o = false /\ unwatched (v_fd v) s) ->
  wps (obus_timer_set t timeout) (fun ret s' _ _ => timer_set_post n t tm timeout s ret s') s w m.
Proof.
  intros HI Ht Hidle. pose proof HI as [HT HS HC HL].
  eapply wps_mono; [by eapply wps_timer_set|]. intros ret s' w' m' (HT' & HK & -> & -> & [F1 F2 F3 F4 F5] & Htm).
  assert (socks_of s' = socks_of s) as Ex by done.
  destruct HT as [(lp & El & W) Hok]. destruct (tk_fd _ _ (Hok lp El) t tm Ht) as (_ & ot & Hot & _).
  destruct (F5 ot Hot) as [F6 F7]. clear F5. rename F6 into F5.
  assert (timeout = 0 -> armed (ls_kern s') ⊆ armed (ls_kern s)) as Hclear.
  { intros ->. rewrite F5. apply arm_clear. }
  assert (socks_ok None (ls_fds s) (timers_of s) (socks_of s) (opened (ls_kern s')) (armed (ls_kern s'))) as HS'.
  { rewrite (proj2 (F4 0)). destruct Hidle as [Hz|Hidle]; [by eapply socks_mono; [done|done|apply Hclear]|].
    apply (socks_frame None (ls_fds s) _ _ _ (opened (ls_kern s)) _ (armed (ls_kern s)) _ HS).
    - intros q v o Hv Ho Hobj. exists o. split; [done|]. split; [apply Hobj|]. intros Hl.
      destruct (proj2 Hobj Hl) as (A & B & C & D). split_and!; [done..|]. intros r o' Hr Hs Ho' Hin.
      rewrite F5 in Hin. apply arm_set, elem_of_union in Hin as [He%elem_of_singleton|Hin]; [|by apply (D r o')].
      assert (r = t) as ->; [|by rewrite (proj1 (Hidle q v o Hv Hr Ho)) in Hl].
      by apply (tk_distinct _ _ (Hok lp El) r t o' ot); [done|eexists|..].
    - intros r o' _ Hr. by exists o'.
    - intros q o'. by apply (so_events _ _ _ _ _ _ HS).
    - intros p v q o'. by apply (so_not_dup _ _ _ _ _ _ HS).
    - intros p v Hv Hn. by apply (so_open _ _ _ _ _ _ HS p v). }
  assert (timer_asked t timeout tm s s') as HA.
  { exists ot. split; [done|]. destruct (sys_timerfd_settime _ _ _) as [r k'] eqn:E. cbn in F5, F7. split; [done|].
    destruct r as [u|e]; destruct Htm as [[Hr ->]|[Hr ->]]; try done; [by apply F7 in Hr as [e He]|].
    assert (ret < 0) by (apply F7; by exists e). lia. }
  constructor; [|done|done|done|done|apply (F4 0)|done].
  - split; rewrite ?Ex; [done| |done|]; rewrite ?F2.
    + destruct Htm as [[_ ->]|[_ ->]]; [done|]. by eapply socks_timer_set.
    + intros p v Hv Hb. rewrite Ex in Hv. assert (busy s p v \/ v_timer v = Some t /\ timeout <> 0) as [Hb0|[Hvt Hne]].
      { destruct Hb as [(o & Hoo & Hl)|(r & o' & H1 & H2 & H3 & H4)]; [left; left; rewrite F2 in Hoo; by exists o|].
        assert (is_Some (timers_of s !! r)) as H2'.
        { destruct Htm as [[_ E]|[_ E]]; rewrite E in H2; [done|]. apply (insert_live _ t r _ H2). by eexists. }
        rewrite F2 in H3. destruct (decide (r = t)) as [->|Hrt].
        - destruct (decide (timeout = 0)) as [Hz|Hz]; [|by right]. left. right. exists t, o'. split_and!; [done..|].
          by apply Hclear.
        - left. right. exists r, o'. split_and!; [done..|]. rewrite F5 in H4.
          apply arm_set, elem_of_union in H4 as [He%elem_of_singleton|Hin]; [|done]. destruct Hrt.
          by apply (tk_distinct _ _ (Hok lp El) r t o' ot); [done|eexists|..]. }
      * intros q o Hq. rewrite F2. by apply (HL p v Hv Hb0).
      * destruct Hidle as [|Hidle]; [done|]. destruct (so_object _ _ _ _ _ _ HS p v Hv) as (_ & o & Ho & _).
        destruct (Hidle p v o Hv Hvt Ho) as [_ HU]. intros q oq Hq. rewrite F2.
        by apply (unwatched_alone _ s (v_fd v) p (timer_inv_loop _ _ (si_timers _ _ _ HI)) HU q).
Qed.
End Inv.
