(* ===== verification/SocketOps.v ===== *)
(** * Sockets: opening, closing and freeing

    The operations on the base of a socket, on its timer and on its block keep the
    invariant of SocketFacts; [E] is the socket that is built or torn down. *)
From stdpp Require Import infinite.
From S2P Require Import Prelude Mem Cstring World Handler Utils Loop LoopFacts LoopRun Timer TimerFacts TimerRun Addr Socket SocketLaws SocketInv SocketFacts.

Section Base.
Context {K X : Type} {SK : SocketKernel K} {LE : LawfulEpoll K} {LT : LawfulTimer K} {LA : LawfulArm K}
  {LS : LawfulSocket K} {AL : Allocator}.
#[local] Notation ST := (lstate K (tstate (sstate X))).
Implicit Types (s : ST) (w : world) (m : mem) (p q t : positive) (o : obus_fd) (v : sock_view) (E : option positive).

(** A call that opens and arms nothing. *)
Lemma wps_still {A} (c : KM K A) (Q : A -> ST -> world -> mem -> Prop) E n s w m :
  quiet c -> sock_inv E n s ->
  (forall a s', fst (c (ls_kern s)) = a -> sock_inv E n s' -> still s s' ->
     (forall fd, spare fd s -> spare fd s') -> Q a s' w m) ->
  wps (kern c) Q s w m.
Proof.
  intros Hc HI HQ. apply wps_quiet; [done|]. intros a k' Ec HM _.
  apply HQ; [by rewrite Ec|by apply moved_inv|by apply moved_still|]. intros fd Hfd. by apply moved_spare.
Qed.

(** The end of a setting that fails: the new descriptor is closed. *)
Lemma wps_abandon fd {B} (b : B) E n (Q : B -> ST -> world -> mem -> Prop) s w m :
  sock_inv E n s -> spare fd s -> (forall s', sock_inv E n s' -> still s s' -> Q b s' w m) ->
  wps (kern (_ ← sys_close fd; mret b)) Q s w m.
Proof.
  intros HI HS HQ. apply wps_kern_bind. eapply wps_close_spare; [done..|]. intros r s' HI' HT.
  apply wps_kern_ret. by apply HQ.
Qed.

(** A new descriptor, or an error and nothing new. *)
Lemma wps_socket_setup type E n (Q : Z + Z -> ST -> world -> mem -> Prop) s w m :
  sock_inv E n s ->
  (forall fd s', sock_inv E n s' -> still s s' -> spare fd s' -> 0 <= fd -> Q (inl fd) s' w m) ->
  (forall ret s', sock_inv E n s' -> still s s' -> ret < 0 -> Q (inr ret) s' w m) ->
  wps (kern (socket_setup type)) Q s w m.
Proof.
  intros HI HQ HE. unfold socket_setup. apply wps_kern_bind.
  eapply wps_opening; [apply sock_socket|done|]. intros r k1 Er M1 Hfd.
  pose proof (moved_inv _ _ _ _ HI M1) as I1. pose proof (moved_still _ _ M1) as S1.
  destruct r as [sockfd|e].
  2:{ apply wps_kern_ret, HE; [done|done|]. apply sock_socket_errno in Er. lia. }
  destruct Hfd as [F1 H0]. apply wps_kern_bind.
  eapply wps_still; [apply quiet_cloexec|done|]. intros ret s2 _ I2 S2 F2. specialize (F2 _ F1).
  destruct (failed ret) eqn:Er2.
  { apply failed_spec in Er2. eapply wps_abandon; [done..|]. intros s3 I3 S3. apply HE; [done| |done]. by do 2 (etransitivity; [done|]). }
  apply wps_kern_bind. eapply wps_still; [apply quiet_flags|done|]. intros ret3 s3 _ I3 S3 F3. specialize (F3 _ F2).
  destruct (failed ret3) eqn:Er3.
  { apply failed_spec in Er3. eapply wps_abandon; [done..|]. intros s4 I4 S4. apply HE; [done| |done]. by do 3 (etransitivity; [done|]). }
  apply wps_kern_bind. eapply wps_still; [apply sock_setsockopt|done|]. intros r4 s4 E4 I4 S4 F4. specialize (F4 _ F3).
  destruct r4 as [v4|e].
  - apply wps_kern_ret, HQ; [done| |done|done]. by do 3 (etransitivity; [done|]).
  - eapply wps_abandon; [done..|]. intros s5 I5 S5. apply HE; [done|by do 4 (etransitivity; [done|])|].
    destruct (sys_setsockopt sockfd SOL_SOCKET SO_REUSEADDR 1 (ls_kern s3)) as [r' k'] eqn:Es. cbn in E4. subst r'.
    apply sock_setsockopt_errno in Es. lia.
Qed.

(** The object of [p] is in no loop; its timer is not armed. *)
Definition resting p s : Prop := exists o, ls_fds s !! p = Some o /\ fd_loop o = false.
Definition unarmed p s : Prop := forall v t o, view (socks_of s) p = Some v -> v_timer v = Some t ->
  ls_fds s !! t = Some o -> fd_fd o ∉ armed (ls_kern s).

Lemma still_resting s s' p : still s s' -> resting p s -> resting p s'.
Proof. by intros (k' & -> & _). Qed.
Lemma still_unarmed s s' p : still s s' -> unarmed p s -> unarmed p s'.
Proof. intros (k' & -> & Ha & _) HU v t o Hv Ht Ho Hin. by apply (HU v t o Hv Ht Ho), Ha. Qed.
Lemma still_socks s s' : still s s' -> socks_of s' = socks_of s.
Proof. by intros (k' & -> & _). Qed.
Lemma still_fds s s' : still s s' -> ls_fds s' = ls_fds s.
Proof. by intros (k' & -> & _). Qed.

(** The socket at [p] has changed its descriptor, and only the kernel besides. *)
Definition moved_fd p fd s s' : Prop := exists s1, still s s1 /\ s' = set_socks s1 (refd p fd (socks_of s)).

Lemma wps_base_open E n p v s w m :
  sock_inv E n s -> view (socks_of s) p = Some v -> resting p s ->
  wps (obus_socket_base_open p) (fun ret s' w' m' => sock_inv E n s' /\
     (ret < 0 /\ still s s' \/ ret = 0 /\ exists fd, fd <> -1 /\ unwatched fd s' /\ moved_fd p fd s s' /\
        (v_fd v <> -1 -> v_fd v ∈ opened (ls_kern s') /\ v_fd v <> fd))) s w m.
Proof.
  intros HI Hv (o & Ho & Hl). unfold obus_socket_base_open. apply wps_bind. eapply wps_get_sock; [done|]. intros b _.
  apply wps_bind. apply (wps_socket_setup _ E n); [done|..].
  - intros fd s1 I1 S1 F1 Hfd. pose proof (still_socks _ _ S1) as Ex. rewrite <- Ex in Hv. apply wps_bind.
    eapply wps_set_fd; [done|]. apply wps_ret. split.
    + eapply sock_inv_take; [done|done|by rewrite (still_fds _ _ S1)|done|done].
    + right. split; [done|]. exists fd. split_and!; [lia| | |].
      * apply F1.
      * exists s1. by rewrite Ex.
      * intros Hn. split; [|by apply (ff_sock _ _ _ _ (sp_free _ _ F1) p)].
        by apply (so_open _ _ _ _ _ _ (si_socks _ _ _ I1) p).
  - intros ret s1 I1 S1 Hr. apply wps_ret. split; [done|by left].
Qed.

Lemma wps_drop_fd E n p v s w m :
  sock_inv E n s -> view (socks_of s) p = Some v -> resting p s -> v_fd v <> -1 -> unwatched (v_fd v) s ->
  wps (drop_fd p) (fun _ s' w' m' => sock_inv E n s' /\ moved_fd p (-1) s s' /\ timers_of s' = timers_of s /\
     opened (ls_kern s') = opened (ls_kern s) ∖ {[v_fd v]} /\
     s' = set_socks (set_kern s (snd (sys_close (v_fd v) (ls_kern s)))) (refd p (-1) (socks_of s))) s w m.
Proof.
  intros HI Hv (o & Ho & Hl) Hn HU. unfold drop_fd. apply wps_bind. eapply wps_get_sock; [done|]. intros b Hb.
  apply wps_bind, wps_kern. rewrite Hb. destruct (sock_loop _ _ _ HI) as [lp El].
  pose proof (sock_inv_drop E n s p v o _ HI Hv Ho Hl Hn HU eq_refl) as HI'.
  set (k' := snd (sys_close (v_fd v) (ls_kern s))) in *. eapply wps_set_fd; [exact Hv|].
  split_and!; [exact HI'| |done|apply close_opened|done].
  exists (set_kern s k'). split; [|done]. exists k'. split_and!; [done|apply arm_close|].
  intros lp' El'. apply close_frame. by apply HU.
Qed.

(** ** Closing *)

(** What is left of the state when the socket at [p] has been closed. *)
Record closed_at p s s' : Prop := {
  ca_socks : socks_of s' = refd p (-1) (socks_of s);
  ca_timers : timers_of s' = timers_of s;
  ca_fds : exists o', ls_fds s' = <[p := o']> (ls_fds s) /\ fd_loop o' = false;
  ca_armed : armed (ls_kern s') ⊆ armed (ls_kern s);
  ca_array : array_kept s s'
}.

Lemma refd_same p v fd (x : sstate X) : view x p = Some v -> v_fd v = fd -> refd p fd x = x.
Proof.
  unfold view, refd. destruct x as [cl sv pe u]. cbn. intros Hv <-.
  destruct (cl !! p) as [[[] ? ? ? ? ? ?]|] eqn:Ec; [|destruct (sv !! p) as [[[] ? ? ? ? ? ?]|] eqn:Es;
    [|destruct (pe !! p) as [[[] ? ? ? ?]|] eqn:Ep; [|done]]]; injection Hv as <-; cbn; f_equal; by apply insert_id.
Qed.

Lemma view_events (x : sstate X) p v : view x p = Some v -> v_events v <> TIMER_EVENTS.
Proof.
  unfold view. destruct (so_clients x !! p); [by intros [= <-]|]. destruct (so_servers x !! p); [by intros [= <-]|].
  destruct (so_peers x !! p); [by intros [= <-]|done].
Qed.

Lemma view_counted (x : sstate X) p v : view x p = Some v -> 1 <= n_socks x.
Proof.
  assert (forall A (m : gmap positive A) c, m !! p = Some c -> (1 <= size m)%nat) as Hs.
  { intros A m c Hc. destruct (size m) eqn:Em; [|lia]. apply map_size_empty_inv in Em. by rewrite Em in Hc. }
  unfold view, n_socks. destruct (so_clients x !! p) eqn:E1; [apply Hs in E1; lia|].
  destruct (so_servers x !! p) eqn:E2; [apply Hs in E2; lia|].
  destruct (so_peers x !! p) eqn:E3; [apply Hs in E3; lia|done].
Qed.

Lemma view_object E n s p v : sock_inv E n s -> view (socks_of s) p = Some v ->
  timers_of s !! p = None /\ exists o, ls_fds s !! p = Some o /\ object_ok (ls_fds s) (timers_of s) (armed (ls_kern s)) p v o.
Proof. intros HI. by apply (so_object _ _ _ _ _ _ (si_socks _ _ _ HI)). Qed.

(** The object is reset, whatever it held. *)
Lemma wps_reset E n p v (Q : unit -> ST -> world -> mem -> Prop) s w m :
  sock_inv E n s -> view (socks_of s) p = Some v -> resting p s ->
  (forall s', sock_inv E n s' -> s' = set_fds s (<[p := obus_fd_init (-1) 0 0 0]> (ls_fds s)) -> Q tt s' w m) ->
  wps (ofd ← get_fd p; put_fd p (snd (obus_fd_reset ofd))) Q s w m.
Proof.
  intros HI Hv (o & Ho & Hl) HQ. apply wps_bind. eapply wps_get_fd; [done|]. apply wps_modify.
  unfold obus_fd_reset. rewrite Hl. cbn [snd]. apply HQ; [|done].
  eapply sock_inv_put; [done|done|done|done|done|done|by left|by eapply view_events].
Qed.

Lemma wps_base_close E n p v s w m :
  sock_inv E n s -> view (socks_of s) p = Some v -> alone (v_fd v) p s ->
  wps (obus_socket_base_close p) (fun _ s' w' m' => sock_inv E n s' /\ closed_at p s s') s w m.
Proof.
  intros HI Hv HA. destruct (view_object _ _ _ _ _ HI Hv) as (Hpt & o & Ho & Hobj).
  unfold obus_socket_base_close. apply wps_bind. eapply wps_get_fd; [done|].
  set (o1 := with_fd_loop (with_dupfd o (-1)) false).
  apply wps_bind. eapply (wps_mono _ (fun _ s1 w1 m1 => sock_inv E n s1 /\ array_kept s s1 /\ ls_user s1 = ls_user s /\
    armed (ls_kern s1) ⊆ armed (ls_kern s) /\ ls_fds s1 = <[p := o1]> (ls_fds s) /\ unwatched (v_fd v) s1)).
  { unfold obus_fd_is_used. destruct (fd_loop o) eqn:Hl; cbn [Z.eqb].
    - apply wps_bind. eapply wps_mono; [by apply wps_remove|]. intros r s1 w1 m1 (H1 & H2 & H3 & H4 & H5 & H6 & H7).
      apply wps_ret. split_and!; [done..|]. destruct (proj2 Hobj Hl) as (A & B & _).
      specialize (H7 Hl). unfold watched_fd in H7. by rewrite A, B in H7.
    - apply wps_ret. split_and!; [done..| |].
      + destruct (timer_inv_loop _ _ (si_timers _ _ _ HI)) as (lp & El & W). unfold o1.
        rewrite with_dupfd_idle by by apply (lw_idle _ _ _ _ _ W p).
        rewrite insert_id; [done|]. rewrite Ho. destruct o. cbn in Hl. by subst.
      + eapply alone_unwatched; [apply timer_inv_loop, HI| |done]. intros o2 Ho2. congruence. }
  intros [] s1 w1 m1 (I1 & K1 & Eu & Ha & Ef & HU).
  assert (socks_of s1 = socks_of s) as Ex by (unfold socks_of; by rewrite Eu). rewrite <- Ex in Hv.
  assert (resting p s1) as R1 by (exists o1; by rewrite Ef, lookup_insert_eq).
  apply wps_bind. eapply wps_get_sock; [exact Hv|]. intros b Hb. rewrite Hb.
  apply wps_bind. apply (wps_mono _ (fun _ s2 w2 m2 => sock_inv E n s2 /\ moved_fd p (-1) s1 s2)).
  { destruct (Z.eqb_spec (v_fd v) (-1)) as [Hn|Hn].
    - apply wps_ret. split; [done|]. exists s1. split; [done|]. rewrite (refd_same p v) by done. by destruct s1 as [? ? ? []].
    - apply wps_bind. eapply wps_still; [apply sock_shutdown|done|]. intros r2 s2 _ I2 S2 _.
      rewrite <- (still_socks _ _ S2) in Hv. apply wps_bind, wps_kern. destruct R1 as (o2 & Ho2 & Hl2).
      rewrite <- (still_fds _ _ S2) in Ho2. pose proof (still_unwatched _ _ _ S2 HU) as HU2.
      pose proof (sock_inv_drop E n s2 p v o2 _ I2 Hv Ho2 Hl2 Hn HU2 eq_refl) as HI'.
      set (k' := snd (sys_close (v_fd v) (ls_kern s2))) in *. eapply wps_set_fd; [exact Hv|]. split; [exact HI'|].
      exists (set_kern s2 k'). split; [|by rewrite <- (still_socks _ _ S2)]. etransitivity; [exact S2|].
      exists k'. split_and!; [done|apply arm_close|]. intros lp' El'. apply close_frame. by apply HU2. }
  intros [] s2 w2 m2 (I2 & s2' & S2 & ->).
  set (x2 := refd p (-1) (socks_of s1)) in *.
  assert (view x2 p = Some (with_view_fd v (-1))) as Hv2 by (unfold x2; rewrite (refd_view p (-1) _ v Hv p); by rewrite decide_True).
  eapply (wps_reset E n p (with_view_fd v (-1))); [exact I2|exact Hv2| |].
  - destruct R1 as (o2 & Ho2 & Hl2). exists o2. change (ls_fds s2' !! p = Some o2 /\ fd_loop o2 = false).
    by rewrite (still_fds _ _ S2).
  - intros s3 I3 ->. split; [exact I3|]. destruct S2 as (k2 & -> & Ha2 & _). constructor.
    + unfold socks_of. cbn. unfold x2. by rewrite Ex.
    + change (timers_of s1 = timers_of s). by apply timers_same.
    + exists (obus_fd_init (-1) 0 0 0). cbn. by rewrite Ef, insert_insert_eq.
    + cbn. by etransitivity.
    + intros i Hi. exact (K1 i Hi).
Qed.

(** The base gives back its reference too: the socket is no longer counted. *)
Lemma wps_base_destroy E n p v s w m :
  1 <= n -> sock_inv E n s -> view (socks_of s) p = Some v -> alone (v_fd v) p s ->
  wps (obus_socket_base_destroy p) (fun ret s' w' m' => ret = 0 /\ sock_inv E (n - 1) s' /\ closed_at p s s') s w m.
Proof.
  intros Hn HI Hv HA. unfold obus_socket_base_destroy. apply wps_bind.
  eapply wps_mono; [by eapply wps_base_close|]. intros [] s1 w1 m1 (I1 & [C1 C2 C3 C4 C5]).
  destruct I1 as [[HL Hok] HS HC HL1]. unfold socks_of in *.
  assert (1 <= n_socks (ts_user (ls_user s1))) as Hpos.
  { rewrite C1, refd_size. eapply view_counted; exact Hv. }
  apply wps_bind. eapply (wps_loop_unref (n - 1 + n_socks (ts_user (ls_user s1)) + n_timers s1)); [|unfold n_timers; lia|].
  { by replace (n - 1 + n_socks (ts_user (ls_user s1)) + n_timers s1 + 1) with (n + n_socks (ts_user (ls_user s1)) + n_timers s1) by lia. }
  intros lp El s2 I2 K2. apply wps_ret. split; [done|]. split.
  - split; [|done|done|done]. split; [exact I2|]. intros lp2 [= <-]. destruct (Hok lp El). by constructor.
  - constructor; try done. by etransitivity.
Qed.
End Base.
