(* ===== verification/SocketLife.v ===== *)
(** * Sockets: their blocks and their timers

    The creation of a socket and of its timer, its destruction: the steps between
    which the socket is exempt of a part of the invariant. *)
From stdpp Require Import infinite.
From S2P Require Import Prelude Mem Cstring World Handler Utils Loop LoopFacts LoopRun Timer TimerFacts TimerRun Addr Socket SocketLaws SocketInv SocketFacts SocketOps.

Section Life.
Context {K X : Type} {SK : SocketKernel K} {LE : LawfulEpoll K} {LT : LawfulTimer K} {LA : LawfulArm K}
  {LS : LawfulSocket K} {AL : Allocator}.
#[local] Notation ST := (lstate K (tstate (sstate X))).
Implicit Types (s : ST) (w : world) (m : mem) (p q t : positive) (o : obus_fd) (v : sock_view) (E : option positive).

(** ** Timers *)

Lemma sock_timer_open E n s t o :
  sock_inv E n s -> is_Some (timers_of s !! t) -> ls_fds s !! t = Some o -> fd_fd o ∈ opened (ls_kern s).
Proof. intros HI. eapply timer_open, HI. Qed.

(** A new timer; that of a socket is made while the socket is exempt. *)
Lemma wps_sock_timer_new E n cb data s w m :
  1 <= n -> sock_inv E n s ->
  (cb = BIND_TIMER \/ cb = CONNECT_TIMER -> exists p, E = Some p /\ data = Z.pos p) ->
  (forall p v, E = Some p -> view (socks_of s) p = Some v -> v_timer v = None) ->
  wps (obus_timer_new cb data)
      (fun r s' _ _ => sock_inv E n s' /\ array_kept s s' /\ socks_of s' = socks_of s /\
         match r with
         | None => ls_fds s' = ls_fds s /\ timers_of s' = timers_of s
         | Some t => ls_fds s !! t = None /\ timers_of s !! t = None /\
             timers_of s' = <[t := Timer 0 cb data]> (timers_of s) /\
             exists o, ls_fds s' = <[t := o]> (ls_fds s) /\ fd_fd o ∉ armed (ls_kern s')
         end) s w m.
Proof.
  intros Hn HI Hsp HE. pose proof HI as [HT HS HC HL].
  assert (1 <= n + n_socks (socks_of s)) as Hn' by (unfold n_socks; lia).
  eapply wps_mono; [apply (wps_keeps (fun _ => True) armed_le); [apply timer_new_armed|done|]; by eapply wps_timer_new|].
  intros r s' w' m' [(HT' & HK & (Eu & Hop & Hr)) [_ Ha]]. unfold armed_le in Ha.
  assert (socks_of s' = socks_of s) as Ex by exact Eu.
  destruct r as [t|].
  2:{ destruct Hr as [Ef Et]. split_and!; [|done..]. split; rewrite ?Ex; [done| |done|].
      - rewrite Ef, Et. by eapply socks_mono.
      - apply (alone_frame s); [done|..]; rewrite ?Ex, ?Ef.
        + intros q v Hv Hb. right. exists v. split_and!; [done..|]. unfold busy in *. rewrite Ef, Et in Hb.
          destruct Hb as [Hb|(r & o & H1 & H2 & H3 & H4)]; [by left|right]. exists r, o. split_and!; [done..|]. by apply Ha.
        + intros q o Ho Hl. by exists o. }
  destruct Hr as (Hf & Ht & Et & o & Ef & Hcb & Hd & Hnew & k0 & s3 & w3 & m3 & ret & w4 & m4 & Ec & Erun).
  assert (fd_fd o ∉ armed (ls_kern s')) as Hna.
  { pose proof (arm_new _ _ _ Ec) as H3. destruct (loop_add_armed t _ _ _ _ _ _ _ Erun I) as [_ H]. unfold armed_le in H.
    intros Hin. by apply H3, H. }
  assert (forall q v, view (socks_of s) q = Some v -> v_timer v <> Some t) as Htne.
  { intros q v Hv Hvt. destruct (decide (E = Some q)) as [Heq|Hq]; [by rewrite (HE q v Heq Hv) in Hvt|].
    destruct (socks_timer_object _ _ _ _ _ _ _ _ _ HS Hv Hq Hvt) as [? ?]. congruence. }
  split_and!; [|done|done|done|done|done|by exists o]. split; rewrite ?Ex; [done| |done|].
  - rewrite Ef, Et. by eapply socks_timer_new.
  - assert (forall q v, view (socks_of s) q = Some v -> busy s' q v -> busy s q v) as Hback.
    { intros q v Hv [(oq & Hoq & Hlq)|(r & ot & H1 & H2 & H3 & H4)].
      - left. exists oq. rewrite Ef, lookup_insert_ne in Hoq; [done|]. intros <-.
        destruct (view_object _ _ _ _ _ HI Hv) as (_ & o2 & Ho2 & _). congruence.
      - right. exists r, ot. assert (t <> r) as Hne by (intros <-; by apply (Htne q v)).
        rewrite Et, lookup_insert_ne in H2 by done. rewrite Ef, lookup_insert_ne in H3 by done.
        split_and!; [done..|]. by apply Ha. }
    intros q v. rewrite Ex. intros Hv Hb r o' Hr. rewrite Ef, lookup_insert. case_decide as Htr.
    + subst r. intros [= <-] Hlo He.
      destruct (listed_watch _ s' t o (timer_inv_loop _ _ HT')) as (_ & _ & _ & _ & _ & H0);
        [by rewrite Ef, lookup_insert_eq|done|].
      unfold watched_fd in He, H0. rewrite Hd in He, H0. cbn in He, H0.
      apply Hnew. rewrite He. apply (so_open _ _ _ _ _ _ HS q v Hv). lia.
    + by apply (HL q v Hv (Hback q v Hv Hb)).
Qed.

(** A timer is destroyed; that of a socket leaves it exempt. *)
Lemma wps_sock_timer_destroy E E' n t tm s w m :
  1 <= n -> sock_inv E n s -> timers_of s !! t = Some tm -> (E = None \/ E = E') ->
  (forall q v, view (socks_of s) q = Some v -> v_timer v = Some t -> E' = Some q) ->
  contents_ok E' (socks_of s) ->
  wps (obus_timer_destroy t)
      (fun ret s' _ _ => ret = 0 /\ sock_inv E' n s' /\ array_kept s s' /\ socks_of s' = socks_of s /\
         timers_of s' = delete t (timers_of s) /\ ls_fds s' = delete t (ls_fds s) /\
         armed (ls_kern s') ⊆ armed (ls_kern s)) s w m.
Proof.
  intros Hn HI Ht HE Hvt HC'. pose proof HI as [HT HS HC HL].
  assert (1 <= n + n_socks (socks_of s)) as Hn' by (unfold n_socks; lia).
  eapply wps_mono; [apply (wps_keeps (fun _ => True) armed_le); [apply timer_destroy_armed|done|]; by eapply wps_timer_destroy|].
  intros r s' w' m' [(-> & HT' & HK & Et & Ef & Eu & Ho) [_ Ha]]. unfold armed_le in Ha.
  assert (socks_of s' = socks_of s) as Ex by exact Eu.
  destruct HT as [(lp & El & W) Hok]. destruct (tk_fd _ _ (Hok lp El) t tm Ht) as (_ & ot & Hot & _). specialize (Ho ot Hot).
  split_and!; [done| |done..]. split; rewrite ?Ex; [done| |done|].
  - rewrite Ef, Et. eapply socks_timer_gone; [exact HS|by eexists|done|done| |done].
    intros p v Hv Hne. rewrite Ho. apply elem_of_difference. split; [by apply (so_open _ _ _ _ _ _ HS p v)|].
    intros He%elem_of_singleton. by apply (so_not_timer _ _ _ _ _ _ HS p v t ot Hv Hne).
  - apply (alone_frame s); [done|..]; rewrite ?Ex, ?Ef.
    + intros q v Hv Hb. right. exists v. split_and!; [done..|]. unfold busy in *. rewrite Ef, Et in Hb.
      destruct Hb as [(o & [_ Ho1]%lookup_delete_Some & Hl)|(r & o & H1 & [? [_ H2]%lookup_delete_Some] & [_ H3]%lookup_delete_Some & H4)];
        [left; by exists o|right]. exists r, o. split_and!; [done|by eexists|done|by apply Ha].
    + intros q o [_ Hoq]%lookup_delete_Some Hl. by exists o.
Qed.

(** ** Blocks *)

Lemma socket_address_fresh s p : p = socket_address s ->
  ls_fds s !! p = None /\ timers_of s !! p = None /\ clients_of s !! p = None /\ servers_of s !! p = None /\ peers_of s !! p = None.
Proof.
  intros ->. unfold socket_address.
  pose proof (is_fresh (dom (ls_fds s) ∪ dom (timers_of s) ∪ dom (clients_of s) ∪ dom (servers_of s) ∪ dom (peers_of s))) as H.
  rewrite !not_elem_of_union, !not_elem_of_dom in H. by destruct H as [[[[? ?] ?] ?] ?].
Qed.

Lemma fresh_view s p : p = socket_address s -> view (socks_of s) p = None.
Proof.
  intros (_ & _ & H1 & H2 & H3)%socket_address_fresh. unfold clients_of, servers_of, peers_of in *.
  unfold view, socks_of. by rewrite H1, H2, H3.
Qed.

(** No timer is for the socket at [p]. *)
Definition untimed p s : Prop := forall t tm, timers_of s !! t = Some tm ->
  tm_cb tm = BIND_TIMER \/ tm_cb tm = CONNECT_TIMER -> tm_data tm <> Z.pos p.

Lemma unseen_untimed n s p : sock_inv None n s -> view (socks_of s) p = None -> untimed p s.
Proof.
  intros HI Hp t tm Ht Hc He. destruct (so_timer_cb _ _ _ _ _ _ (si_socks _ _ _ HI) t tm Ht Hc) as (q & Hd & [?|(v & Hv & _)]); [done|].
  rewrite He in Hd. injection Hd as <-. congruence.
Qed.

(** A socket enters the state, with a reference of the loop and an idle object. *)
Lemma sock_inv_new n s p v x lp :
  sock_inv None n s -> p = socket_address s -> ls_loop s = Some lp ->
  reviewed p (Some v) (socks_of s) x -> v_timer v = None -> (v_fd v <> -1 -> spare (v_fd v) s) ->
  n_socks x = n_socks (socks_of s) + 1 -> contents_ok (Some p) x ->
  sock_inv (Some p) n (set_socks (set_fds (set_loop s (Some (set_ref lp (lp_ref lp + 1))))
    (<[p := obus_fd_init (-1) 0 0 0]> (ls_fds s))) x).
Proof.
  intros HI Hp El Hx Hvt Hfd Hn HC'. pose proof HI as [HT HS HC HL].
  destruct (socket_address_fresh s p Hp) as (Hf & Ht & _). pose proof (fresh_view s p Hp) as Hv0.
  set (o := obus_fd_init (-1) 0 0 0).
  assert (timer_inv (n + n_socks (socks_of s)) s) as [HLI Hok] by done.
  assert (loop_inv (n + n_socks (socks_of s) + n_timers s) (set_fds s (<[p := o]> (ls_fds s)))) as HLI'.
  { apply (idle_inv _ s p); [done|intros o2 Ho2; congruence|intros q Hq; by rewrite lookup_insert_ne|].
    intros o2. rewrite lookup_insert_eq. by intros [= <-]. }
  split; [| |exact HC'|].
  - change (socks_of (set_socks _ _)) with x. rewrite Hn, Z.add_assoc. split.
    + destruct HLI' as (lp' & El' & W'). cbn in El'. rewrite El in El'. injection El' as <-.
      exists (set_ref lp (lp_ref lp + 1)). split; [done|]. destruct W'. constructor; try done.
      cbn. unfold n_timers in *. change (timers_of (set_socks _ _)) with (timers_of s). lia.
    + intros lp2 [= <-]. apply (timers_ok_frame lp _ s); [by apply Hok|done|done|..]; cbn.
      * intros q oq [tm Hq] Hoq [F1 F2 F3 F4 F5]. exists oq. rewrite lookup_insert_ne by congruence. by split_and!.
      * intros q oq. rewrite lookup_insert. case_decide; [by intros [= <-]|]. by apply (tk_timer lp s (Hok lp El)).
  - cbn. eapply socks_new; [exact HS|done|done|done|done|done|done|done|done|].
    intros Hne. destruct (Hfd Hne) as [F1 F2 F3 F4]. by split.
  - assert (forall q oq, <[p := o]> (ls_fds s) !! q = Some oq -> fd_loop oq = true -> ls_fds s !! q = Some oq) as Hback.
    { intros q oq. rewrite lookup_insert. case_decide; [by intros [= <-]|done]. }
    intros q vq Hq Hb. change (view x q = Some vq) in Hq. rewrite (Hx q) in Hq. destruct (decide (q = p)) as [->|Hqp].
    + injection Hq as <-. destruct (decide (v_fd v = -1)) as [Hm|Hm].
      * rewrite Hm. intros r o1 _ H1 Hl He. apply Hback in H1; [|done].
        destruct (listed_watch _ s r o1 (timer_inv_loop _ _ HT) H1 Hl) as (_ & _ & _ & _ & _ & H0). lia.
      * intros r o1 Hr H1 Hl. apply Hback in H1; [|done].
        by apply (unwatched_alone _ s _ p (timer_inv_loop _ _ HT) (sp_unwatched _ _ (Hfd Hm)) r o1).
    + assert (busy s q vq) as Hb0.
      { destruct Hb as [(oq & Hoq & Hlq)|(t & ot & H1 & H2 & H3 & H4)].
        - left. exists oq. split; [by apply Hback|done].
        - right. exists t, ot. split_and!; [done..| |done]. cbn in H3. rewrite lookup_insert_ne in H3; [done|].
          intros <-. destruct H2 as [tm H2]. change (timers_of s !! p = Some tm) in H2. congruence. }
      intros r o1 Hr H1 Hl. apply Hback in H1; [|done]. by apply (HL q vq Hq Hb0 r).
Qed.

(** The timer of the socket is recorded. *)
Lemma sock_inv_attach n s p v t tm x :
  sock_inv (Some p) n s -> view (socks_of s) p = Some v -> v_timer v = None -> v_fd v = -1 -> resting p s ->
  reviewed p (Some (with_view_timer v (Some t))) (socks_of s) x ->
  timers_of s !! t = Some tm -> tm_cb tm = v_tcb v -> tm_data tm = Z.pos p ->
  (forall t' tm', timers_of s !! t' = Some tm' -> tm_cb tm' = BIND_TIMER \/ tm_cb tm' = CONNECT_TIMER ->
     tm_data tm' = Z.pos p -> t' = t) ->
  n_socks x = n_socks (socks_of s) -> contents_ok None x -> sock_inv None n (set_socks s x).
Proof.
  intros [HT HS HC HL] Hv Hvt Hfd (o & Ho & Hl) Hx Ht Hcb Hd Hone Hn HC'. split; [| |done|].
  - change (socks_of (set_socks s x)) with x. rewrite Hn. by apply timer_inv_socks.
  - eapply socks_attach; [exact HS|done|done|done|done|done|done| |done].
    intros o2 Ho2. change (ls_fds s !! p = Some o2) in Ho2. congruence.
  - intros q vq Hq Hb. change (view x q = Some vq) in Hq. rewrite (Hx q) in Hq. destruct (decide (q = p)) as [->|Hqp].
    + injection Hq as <-. cbn. rewrite Hfd. eapply (nothing_alone _ s). by apply timer_inv_loop.
    + exact (HL q vq Hq Hb).
Qed.

(** The block is freed. *)
Lemma contents_free (x : sstate X) p :
  contents_ok (Some p) x -> (forall c, so_servers x !! p = Some c -> ks_peers c = []) ->
  contents_ok None (SState (delete p (so_clients x)) (delete p (so_servers x)) (delete p (so_peers x)) (so_user x)).
Proof.
  intros [C1 C2 C3] Hp.
  assert (forall q d, so_peers x !! q = Some d -> q <> p -> kp_srv d <> p) as Hsrv.
  { intros q d Hd Hq He. destruct (C3 q d Hd) as (_ & _ & c & Hc). rewrite He in Hc.
    destruct (C2 p c Hc) as (_ & _ & _ & _ & _ & _ & _ & H). rewrite (Hp c Hc) in H.
    apply (not_elem_of_nil q), H. split; [congruence|by exists d]. }
  constructor; cbn.
  - intros q c [Hq Hc]%lookup_delete_Some. destruct (C1 q c Hc) as (H1 & H2 & H3 & [?|H4] & H5); [congruence|].
    rewrite !lookup_delete_ne by done. split_and!; try done. by right.
  - intros q c [Hq Hc]%lookup_delete_Some. destruct (C2 q c Hc) as (H1 & H2 & H3 & [?|H4] & H5 & H6 & H7 & H8); [congruence|].
    rewrite !lookup_delete_ne by done. split_and!; try done; [by right|]. intros r. rewrite H8. split.
    + intros [Hr (d & Hd & Hs)]. split; [done|]. exists d. rewrite lookup_delete_ne; [done|congruence].
    + intros [_ (d & [Hr Hd]%lookup_delete_Some & Hs)]. split; [congruence|by exists d].
  - intros q d [Hq Hd]%lookup_delete_Some. destruct (C3 q d Hd) as (H1 & H2 & H3).
    rewrite !lookup_delete_ne by done. rewrite lookup_delete_ne; [done|]. by apply not_eq_sym, (Hsrv q d).
Qed.

Lemma size_minus_one {A} (mp : gmap positive A) p c :
  mp !! p = Some c -> Z.of_nat (size (delete p mp)) = Z.of_nat (size mp) - 1.
Proof.
  intros Hc. rewrite map_size_delete_Some by by eexists. destruct (size mp) eqn:Em; [|lia].
  apply map_size_empty_inv in Em. by rewrite Em in Hc.
Qed.

Lemma view_delete (x : sstate X) p :
  reviewed p None x (SState (delete p (so_clients x)) (delete p (so_servers x)) (delete p (so_peers x)) (so_user x)).
Proof.
  intros q. unfold view. cbn. destruct (decide (q = p)) as [->|Hq]; [by rewrite !lookup_delete_eq|].
  by rewrite !lookup_delete_ne by done.
Qed.

Lemma delete_counted E (x : sstate X) p v :
  contents_ok E x -> view x p = Some v ->
  n_socks (SState (delete p (so_clients x)) (delete p (so_servers x)) (delete p (so_peers x)) (so_user x)) = n_socks x - 1.
Proof.
  intros [C1 C2 C3] Hv. unfold view, n_socks in *. cbn.
  destruct (so_clients x !! p) as [c|] eqn:E1.
  { destruct (C1 p c E1) as (E2 & E3 & _). rewrite (delete_id (so_servers x)), (delete_id (so_peers x)) by done.
    pose proof (size_minus_one _ _ _ E1). lia. }
  destruct (so_servers x !! p) as [c|] eqn:E2.
  { destruct (C2 p c E2) as (_ & E3 & _). rewrite (delete_id (so_clients x)), (delete_id (so_peers x)) by done.
    pose proof (size_minus_one _ _ _ E2). lia. }
  destruct (so_peers x !! p) as [c|] eqn:E3; [|done].
  rewrite (delete_id (so_clients x)), (delete_id (so_servers x)) by done. pose proof (size_minus_one _ _ _ E3). lia.
Qed.

Lemma wps_free_socket n p v (Q : unit -> ST -> world -> mem -> Prop) s w m :
  sock_inv (Some p) (n - 1) s -> view (socks_of s) p = Some v -> resting p s -> untimed p s ->
  (forall c, servers_of s !! p = Some c -> ks_peers c = []) ->
  (forall s', sock_inv None n s' -> array_kept s s' -> so_user (socks_of s') = so_user (socks_of s) -> Q tt s' w m) ->
  wps (free_socket p) Q s w m.
Proof.
  intros HI Hv (o & Ho & Hl) Hun Hsv HQ. pose proof HI as [HT HS HC HL]. unfold free_socket. apply wps_modify.
  destruct (view_object _ _ _ _ _ HI Hv) as (Hpt & _).
  pose proof (delete_counted _ _ _ _ HC Hv) as Hn. set (x := SState _ _ _ _) in *.
  change (SState _ _ _ _) with x. apply HQ; [|by apply array_same_loop|done].
  destruct (idle_timer_inv _ s p (delete p (ls_fds s)) HT) as [HT' _]; [done|intros o2 Ho2; congruence|
    intros q Hq; by rewrite lookup_delete_ne|intros o2; by rewrite lookup_delete_eq|].
  split; [| |by apply contents_free|].
  - change (socks_of _) with x at 1. replace (n + n_socks x) with (n - 1 + n_socks (socks_of s)) by lia.
    exact (timer_inv_socks _ _ x HT').
  - cbn. eapply socks_free; [exact HS|apply view_delete|by right|done|exact Hun].
  - apply (alone_frame s); [done|..]; cbn.
    + intros q vq Hq Hb. change (view x q = Some vq) in Hq. right. exists vq.
      pose proof (view_delete (socks_of s) p q) as Hvd. fold x in Hvd. rewrite Hq in Hvd.
      destruct (decide (q = p)) as [->|Hqp]; [done|]. split_and!; [done..|].
      destruct Hb as [(oq & Hoq & Hlq)|(t & ot & H1 & H2 & H3 & H4)].
      * left. exists oq. cbn in Hoq. by apply lookup_delete_Some in Hoq as [_ Hoq].
      * right. exists t, ot. cbn in H3. by apply lookup_delete_Some in H3 as [_ H3].
    + intros q oq [_ Hoq]%lookup_delete_Some Hlq. by exists oq.
Qed.

(** ** Tearing down *)

(** The timer of a socket is destroyed: the socket is exempt. *)
Lemma wps_own_timer_destroy n s p v t tm w m :
  1 <= n -> sock_inv None n s -> view (socks_of s) p = Some v -> v_timer v = Some t -> timers_of s !! t = Some tm ->
  tm_data tm = Z.pos p -> so_peers (socks_of s) !! p = None ->
  wps (obus_timer_destroy t)
      (fun _ s' _ _ => sock_inv (Some p) n s' /\ array_kept s s' /\ socks_of s' = socks_of s /\
         ls_fds s' = delete t (ls_fds s) /\ untimed p s') s w m.
Proof.
  intros Hn HI Hv Hvt Ht Hd Hp. pose proof (si_socks _ _ _ HI) as HS. eapply wps_mono.
  - eapply (wps_sock_timer_destroy None (Some p)); [done|done|done|by left| |by apply contents_exempt, Hp; apply HI].
    intros q vq Hq Hqt. destruct (so_timer _ _ _ _ _ _ HS q vq t Hq) as (tm' & H1 & _ & H3); [done|done|]. congruence.
  - intros r s' w' m' (_ & I' & K' & Ex & Et & Ef & _). split_and!; [done..|].
    intros t' tm' Ht' Hc He. rewrite Et in Ht'. apply lookup_delete_Some in Ht' as [Hne Ht'].
    destruct (so_timer_cb _ _ _ _ _ _ HS t' tm' Ht' Hc) as (q & Hq & [?|(vq & Hvq & H1 & _)]); [done|].
    rewrite He in Hq. injection Hq as <-. rewrite Hv in Hvq. injection Hvq as <-. congruence.
Qed.

Lemma closed_view p v s s' : closed_at p s s' -> view (socks_of s) p = Some v ->
  view (socks_of s') p = Some (with_view_fd v (-1)).
Proof. intros [C _ _ _ _] Hv. by rewrite C, (refd_view p (-1) _ v Hv p), decide_True. Qed.

Lemma closed_resting p s s' : closed_at p s s' -> resting p s'.
Proof. intros [_ _ (o' & Ef & Hl) _ _]. exists o'. by rewrite Ef, lookup_insert_eq. Qed.

Lemma closed_untimed p s s' : closed_at p s s' -> untimed p s -> untimed p s'.
Proof. intros [_ C _ _ _] H t tm. rewrite C. apply H. Qed.

Lemma refd_servers p fd (x : sstate X) c :
  so_servers (refd p fd x) !! p = Some c -> exists c0, so_servers x !! p = Some c0 /\ ks_peers c = ks_peers c0.
Proof.
  unfold refd. destruct (so_clients x !! p); [cbn; intros H; by exists c|].
  destruct (so_servers x !! p) as [c0|] eqn:E; cbn; [rewrite lookup_insert_eq; intros [= <-]; by exists c0|].
  destruct (so_peers x !! p); cbn; congruence.
Qed.

(** A socket without a timer is closed and freed. *)
Lemma wps_dispose {A} (a : A) n p v s w m :
  1 <= n -> sock_inv (Some p) n s -> view (socks_of s) p = Some v -> alone (v_fd v) p s -> untimed p s ->
  (forall c, servers_of s !! p = Some c -> ks_peers c = []) ->
  wps (_ ← obus_socket_base_destroy p; free_socket p;; mret a)
      (fun r s' _ _ => r = a /\ sock_inv None n s' /\ array_kept s s') s w m.
Proof.
  intros Hn HI Hv HA HU Hp. apply wps_bind. eapply wps_mono; [by eapply wps_base_destroy|].
  intros r s1 w1 m1 (_ & I1 & C1). apply wps_bind.
  eapply (wps_free_socket n p); [done|by eapply closed_view|by eapply closed_resting|by eapply closed_untimed| |].
  - intros c Hc. change (so_servers (socks_of s1) !! p = Some c) in Hc. rewrite (ca_socks _ _ _ C1) in Hc.
    apply refd_servers in Hc as (c0 & Hc0 & ->). by apply Hp.
  - intros s2 I2 K2 _. apply wps_ret. split_and!; [done|done|]. etransitivity; [apply C1|done].
Qed.

Lemma alone_shrunk fd p s s' :
  alone fd p s -> (forall q o, ls_fds s' !! q = Some o -> ls_fds s !! q = Some o) -> alone fd p s'.
Proof. intros HA H q o Hq Ho. by apply (HA q o Hq), H. Qed.

(** A socket with a timer is torn down. *)
Lemma wps_tear_down {A} (a : A) n p v t tm s w m :
  1 <= n -> sock_inv None n s -> view (socks_of s) p = Some v -> v_timer v = Some t -> timers_of s !! t = Some tm ->
  tm_data tm = Z.pos p -> so_peers (socks_of s) !! p = None -> alone (v_fd v) p s ->
  (forall c, servers_of s !! p = Some c -> ks_peers c = []) ->
  wps (_ ← obus_timer_destroy t; _ ← obus_socket_base_destroy p; free_socket p;; mret a)
      (fun r s' _ _ => r = a /\ sock_inv None n s' /\ array_kept s s') s w m.
Proof.
  intros Hn HI Hv Hvt Ht Hd Hp HA Hs. apply wps_bind.
  eapply wps_mono; [by eapply (wps_own_timer_destroy n s p v t tm)|].
  intros r s1 w1 m1 (I1 & K1 & Ex & Ef & HU). eapply wps_mono; [apply (wps_dispose a n p v); [done|done| | |done|]|].
  - by rewrite Ex.
  - eapply alone_shrunk; [exact HA|]. intros q o. rewrite Ef. by intros [_ ?]%lookup_delete_Some.
  - intros c1 Hc1. change (so_servers (socks_of s1) !! p = Some c1) in Hc1. rewrite Ex in Hc1. by apply Hs.
  - intros r2 s2 w2 m2 (-> & I2 & K2). split_and!; [done..|by etransitivity].
Qed.

(** The base of a new socket, up to its entry in the state. *)
Lemma wps_base_init n role type (Q : obus_socket_base -> ST -> world -> mem -> Prop) s w m :
  sock_inv None n s -> let p := socket_address s in
  (forall lp, ls_loop s = Some lp -> Q (Sock (-1) type role) (set_fds (set_loop s (Some (set_ref lp (lp_ref lp + 1))))
     (<[p := obus_fd_init (-1) 0 0 0]> (ls_fds s))) w m) ->
  wps (obus_socket_base_init p role type) Q s w m.
Proof.
  intros HI p HQ. destruct (sock_loop _ _ _ HI) as [lp El]. unfold obus_socket_base_init, obus_loop_ref.
  apply wps_bind, wps_bind. eapply wps_get_loop; [done|]. apply wps_modify, wps_bind, wps_modify, wps_ret. by apply HQ.
Qed.

(** A socket that has just been made: on no descriptor, without a timer. *)
Record newborn (p : positive) (v : sock_view) s : Prop := {
  nb_view : view (socks_of s) p = Some v;
  nb_fd : v_fd v = -1;
  nb_timer : v_timer v = None;
  nb_untimed : untimed p s;
  nb_resting : resting p s;
  nb_peers : forall c, servers_of s !! p = Some c -> ks_peers c = []
}.

(** Its timer is made, or it is disposed of. *)
Lemma wps_newborn_timer {A} (a : A) n p v (k : positive -> StW ST A) (Q : A -> ST -> world -> mem -> Prop) s w m :
  1 <= n -> sock_inv (Some p) n s -> newborn p v s -> (v_tcb v = BIND_TIMER \/ v_tcb v = CONNECT_TIMER) ->
  (forall s' w' m', sock_inv None n s' -> array_kept s s' -> Q a s' w' m') ->
  (forall t s' w' m', sock_inv (Some p) n s' -> array_kept s s' -> socks_of s' = socks_of s -> resting p s' ->
     timers_of s' !! t = Some (Timer 0 (v_tcb v) (Z.pos p)) ->
     (forall t' tm', timers_of s' !! t' = Some tm' -> tm_cb tm' = BIND_TIMER \/ tm_cb tm' = CONNECT_TIMER ->
        tm_data tm' = Z.pos p -> t' = t) ->
     (forall o, ls_fds s' !! t = Some o -> fd_fd o ∉ armed (ls_kern s')) -> wps (k t) Q s' w' m') ->
  wps (timer ← obus_timer_new (v_tcb v) (Z.pos p);
       match timer with
       | None => _ ← obus_socket_base_destroy p; free_socket p;; mret a
       | Some t => k t
       end) Q s w m.
Proof.
  intros Hn HI [Hv Hfd Hvt HU (o & Ho & Hl) Hs] Hcb HQ Hk. apply wps_bind.
  eapply wps_mono; [apply (wps_sock_timer_new (Some p) n); [done|done|intros _; by exists p|]|].
  { intros p' v' [= <-] Hv'. rewrite Hv in Hv'. by injection Hv' as <-. }
  intros [t|] s1 w1 m1 (I1 & K1 & Ex & Hr).
  - destruct Hr as (Hft & Htt & Et & ot & Ef & Hna). apply Hk; [done|done|done| |by rewrite Et, lookup_insert_eq| |].
    3:{ intros o'. rewrite Ef, lookup_insert_eq. by intros [= <-]. }
    + exists o. rewrite Ef, lookup_insert_ne by congruence. done.
    + intros t' tm'. rewrite Et, lookup_insert. case_decide; [done|]. intros H1 H2 H3. by destruct (HU t' tm' H1 H2).
  - destruct Hr as [Ef Et]. eapply wps_mono; [apply (wps_dispose a n p v); [done|done|by rewrite Ex| | |]|].
    + rewrite Hfd. eapply nothing_alone, timer_inv_loop, I1.
    + intros t tm. rewrite Et. apply HU.
    + intros c Hc. change (so_servers (socks_of s1) !! p = Some c) in Hc. rewrite Ex in Hc. by apply Hs.
    + intros r s2 w2 m2 (-> & I2 & K2). apply HQ; [done|by etransitivity].
Qed.
End Life.
