(* ===== verification/SocketAddr.v ===== *)
(** * Sockets: the addresses they hold

    The last byte of an address stays zero, so its path is terminated and printing
    it is defined, whatever the kernel writes into it. *)
From S2P Require Import Prelude Mem Cstring Utils Addr AddrFacts Socket SocketInv.

(** Addresses in binary are of 4 or 16 bytes. *)
Class LawfulInet (IT : InetText) : Prop :=
  inet_pton_length : forall family text bytes, inet_pton family text = Some bytes -> (length bytes <= 16)%nat.

Lemma st_ok_write st off bs : st_ok st -> (off + length bs < STORAGE_SIZE)%nat -> st_ok (st_write st off bs).
Proof.
  intros [Hl Hz] Hb. split; [apply st_write_length; [done|lia]|].
  assert (st !! 127%nat = Some 0) as H.
  { rewrite last_lookup, Hl in Hz. exact Hz. }
  pose proof (st_write_length st off bs Hl ltac:(lia)) as Hl'. rewrite last_lookup. unfold full in Hl'. rewrite Hl'.
  change (pred STORAGE_SIZE) with 127%nat. unfold st_write. unfold STORAGE_SIZE in *.
  rewrite lookup_app_r by (rewrite length_take; lia). rewrite lookup_app_r by (rewrite length_take; lia).
  rewrite lookup_drop, length_take. by replace (off + length bs + (127 - off `min` length st - length bs))%nat with 127%nat by lia.
Qed.

Lemma st_ok_zero : st_ok (replicate STORAGE_SIZE 0).
Proof. by split. Qed.

Lemma init_ok family : address_ok (obus_socket_addr_init family).
Proof. apply st_ok_write; [apply st_ok_zero|cbn; unfold STORAGE_SIZE; lia]. Qed.

Lemma length_small addr : obus_socket_addr_length addr <= 110.
Proof. unfold obus_socket_addr_length. repeat case_match; lia. Qed.

Lemma fill_ok addr len bytes : address_ok addr -> len <= 110 -> address_ok (fill_addr addr len bytes).
Proof. intros H Hl. apply st_ok_write; [done|]. rewrite length_take. unfold STORAGE_SIZE. lia. Qed.

Lemma copy_path_ok addr from : address_ok addr -> address_ok (copy_path addr from).
Proof.
  intros H. apply st_ok_write; [done|]. unfold st_field. rewrite length_take.
  unfold STORAGE_SIZE, SUN_PATH_OFFSET, SUN_PATH_SIZE. lia.
Qed.

(** A tail of the bytes is terminated. *)
Lemma until_nul_last l : last l = Some 0 -> is_Some (until_nul l).
Proof.
  induction l as [|x l IH]; [done|]. cbn [until_nul]. intros H. destruct (Z.eqb_spec x 0); [by eexists|].
  destruct l as [|y l]; [cbn in H; congruence|]. destruct (IH H) as [t ->]. by eexists.
Qed.

Lemma tail_ok st off : st_ok st -> (off < STORAGE_SIZE)%nat -> is_Some (until_nul (drop off st)).
Proof.
  intros [Hl Hz] Ho. apply until_nul_last. rewrite last_lookup, length_drop, lookup_drop, Hl.
  rewrite last_lookup, Hl in Hz. by replace (off + pred (STORAGE_SIZE - off))%nat with (pred STORAGE_SIZE) by lia.
Qed.

Lemma path_ok addr : address_ok addr -> is_Some (st_path (sa_st addr)).
Proof. intros H. apply tail_ok; [done|]. unfold SUN_PATH_OFFSET, STORAGE_SIZE. lia. Qed.

Section Text.
Context {AL : Allocator} {IT : InetText}.

Lemma text_ok addr : address_ok addr -> is_Some (addr_text addr).
Proof.
  intros H. unfold addr_text. case_bool; [by eexists|]. case_bool; [by eexists|]. case_bool; [|by eexists].
  case_bool; apply fmap_is_Some; [apply tail_ok; [done|unfold SUN_PATH_OFFSET, STORAGE_SIZE; lia]|by apply path_ok].
Qed.

Lemma wp_strdup_any s (Q : option (list Z) -> mem -> Prop) m : (forall r m', Q r m') -> wp (strdup_value s) Q m.
Proof. intros HQ. apply wp_bind, wp_alloc; intros k m' _ _; by apply wp_ret. Qed.

Lemma wp_text addr (Q : option (list Z) -> mem -> Prop) m :
  address_ok addr -> (forall r m', Q r m') -> wp (obus_socket_addr_to_string addr) Q m.
Proof. intros [t Ht]%text_ok HQ. apply wp_bind. eapply wp_lift; [done|]. by apply wp_strdup_any. Qed.

Context {LI : LawfulInet IT}.

Lemma set_inet_ok family off addr host port :
  address_ok addr -> (off <= 8)%nat -> address_ok (snd (set_inet family off addr host port)).
Proof.
  intros H Ho. unfold set_inet. cbv zeta.
  assert (st_ok (st_write (sa_st addr) PORT_OFFSET (be_bytes 2 (u16 (atoi port))))) as H1.
  { apply st_ok_write; [done|]. rewrite length_be_bytes. apply Nat.ltb_lt. reflexivity. }
  case_bool; [done|]. destruct (inet_pton family host) as [bytes|] eqn:E; [|done].
  apply inet_pton_length in E. apply st_ok_write; [done|]. unfold STORAGE_SIZE. lia.
Qed.

Lemma set_unix_ok addr remain : address_ok addr -> address_ok (set_unix addr remain).
Proof.
  intros H. unfold set_unix. cbv zeta.
  assert (st_ok (st_write (sa_st addr) SUN_PATH_OFFSET (snprintf SUN_PATH_SIZE remain ++ [0]))) as H1.
  { apply st_ok_write; [done|]. unfold snprintf. rewrite length_app, length_take.
    change (length [0]) with 1%nat. unfold SUN_PATH_OFFSET, SUN_PATH_SIZE, STORAGE_SIZE. lia. }
  case_bool; [|done]. apply st_ok_write; [done|]. apply Nat.ltb_lt. reflexivity.
Qed.

(** What parsing gives, whatever is allocated. *)
Lemma wp_parse addr name m :
  wp (obus_socket_addr_init_from_string addr name)
     (fun r _ => fst r < 0 \/ fst r = 0 /\ address_ok (snd r) /\
        (AmpleMemory AL -> Z.of_nat (length name) < PTRDIFF_MAX -> is_Some (sa_name (snd r)))) m.
Proof.
  unfold obus_socket_addr_init_from_string. destruct (find_family families name) as [[family remain]|]; [|by apply wp_ret; left].
  cbv zeta.
  assert (forall a m1, address_ok a -> wp (n ← strdup_value name; mret (0, SockAddr n (sa_st a)))
    (fun r _ => fst r < 0 \/ fst r = 0 /\ address_ok (snd r) /\
       (AmpleMemory AL -> Z.of_nat (length name) < PTRDIFF_MAX -> is_Some (sa_name (snd r)))) m1) as Hfin.
  { intros a m1 Ha. apply wp_bind. unfold strdup_value. apply wp_bind, wp_alloc.
    - intros k m' _ _. apply wp_ret, wp_ret. right. split_and!; [done|done|]. intros _ _. by eexists.
    - intros k m' _ H. apply wp_ret, wp_ret. right. split_and!; [done|done|]. intros HAM Hl.
      rewrite malloc_ample in H by lia. done. }
  destruct ((family =? AF_INET) || (family =? AF_INET6)); [|by apply Hfin, set_unix_ok, init_ok].
  apply wp_bind, wp_strdup_any. intros [str|] m1; [|by apply wp_ret; left].
  destruct (strrchr str 58) as [i|]; [|by apply wp_ret; left].
  destruct (set_inet _ _ _ _ _) as [ret a] eqn:E. apply Hfin.
  match type of E with ?c = _ => assert (address_ok (snd c)) as H by (apply set_inet_ok; [apply init_ok|case_bool; unfold SIN_ADDR_OFFSET, SIN6_ADDR_OFFSET; lia]) end.
  by rewrite E in H.
Qed.
End Text.
