(* ===== verification/SocketClient.v ===== *)
(** * Socket clients: connection, retries, destruction

    Each operation of a client keeps the invariant, whatever the kernel answers and
    the callback of the user does.  A client whose timer fires is in no loop; one
    whose object is served does not wait for its timer. *)
From S2P Require Import Prelude Mem Cstring World Handler Utils Loop LoopFacts LoopRun Timer TimerFacts TimerRun Addr AddrFacts Socket SocketLaws SocketInv SocketFacts SocketOps SocketLife SocketAddr.

(** The callbacks of the user, arbitrary code that keeps the invariant. *)
Class LawfulSockets {K X : Type} {SK : SocketKernel K} {LE : LawfulEpoll K} {LT : LawfulTimer K} {LA : LawfulArm K}
    (SC : SocketCode K X) : Prop := {
  lawful_connected : forall n s w m p c, 1 <= n -> sock_inv None n s -> clients_of s !! p = Some c ->
    wps (connected_callback (kc_cb c) p (kc_user_data c)) (fun _ s' _ _ => sock_inv None n s' /\ array_kept s s') s w m;
  lawful_accept : forall n s w m p c q, 1 <= n -> sock_inv None n s -> servers_of s !! p = Some c -> q ∈ ks_peers c ->
    wps (accept_callback (ks_cb c) p q (ks_user_data c)) (fun _ s' _ _ => sock_inv None n s' /\ array_kept s s') s w m
}.

Section Client.
Context {K X : Type} {SK : SocketKernel K} {LE : LawfulEpoll K} {LT : LawfulTimer K} {LA : LawfulArm K}
  {LS : LawfulSocket K} {AL : Allocator} {IT : InetText} {LI : LawfulInet IT}.
#[local] Notation ST := (lstate K (tstate (sstate X))).
Implicit Types (s : ST) (w : world) (m : mem) (p q t : positive) (o : obus_fd) (v : sock_view) (E : option positive).

Definition client_view (c : obus_socket_client) : sock_view :=
  SockView (sb_fd (kc_sock c)) CLIENT_EVENTS (kc_timer c) CONNECT_TIMER.

Lemma view_client s p c : clients_of s !! p = Some c -> view (socks_of s) p = Some (client_view c).
Proof. unfold clients_of, view, socks_of. by intros ->. Qed.

Lemma wps_get_client p c (Q : obus_socket_client -> ST -> world -> mem -> Prop) s w m :
  clients_of s !! p = Some c -> Q c s w m -> wps (get_client p) Q s w m.
Proof. intros Hc HQ. unfold get_client. apply wps_bind, wps_gets, wps_mem. by eapply wp_lift. Qed.

Definition with_client_fd (c : obus_socket_client) fd := kc_with_sock c (with_sock_fd (kc_sock c) fd).

Lemma still_client s s' p c : still s s' -> clients_of s !! p = Some c -> clients_of s' !! p = Some c.
Proof. by intros (k' & -> & _). Qed.

Lemma moved_client p fd s s' c :
  clients_of s !! p = Some c -> moved_fd p fd s s' -> clients_of s' !! p = Some (with_client_fd c fd).
Proof.
  intros Hc (s1 & S1 & ->). unfold clients_of, set_socks, socks_of, refd in *. cbn. rewrite Hc. cbn. apply lookup_insert_eq.
Qed.

Lemma moved_fd_array p fd s s' : moved_fd p fd s s' -> array_kept s s'.
Proof. intros (s1 & S1 & ->) i Hi. exact (still_array _ _ S1 i Hi). Qed.
Lemma moved_fd_fds p fd s s' : moved_fd p fd s s' -> ls_fds s' = ls_fds s.
Proof. intros (s1 & S1 & ->). exact (still_fds _ _ S1). Qed.
Lemma moved_fd_resting p q fd s s' : moved_fd p fd s s' -> resting q s -> resting q s'.
Proof. intros M (o & Ho & Hl). exists o. by rewrite (moved_fd_fds _ _ _ _ M). Qed.
Lemma moved_fd_unarmed p v fd s s' :
  moved_fd p fd s s' -> view (socks_of s) p = Some v -> unarmed p s -> unarmed p s'.
Proof.
  intros (s1 & S1 & ->) Hv HU v1 t o Hv1 Ht Ho Hin.
  change (view (refd p fd (socks_of s)) p = Some v1) in Hv1.
  rewrite (refd_view p fd _ v Hv p), decide_True in Hv1 by done. injection Hv1 as <-.
  by apply (still_unarmed _ _ p S1 HU v t o); [rewrite (still_socks _ _ S1)|..].
Qed.

(** The timer of a client. *)
Lemma client_timer_of n s p c :
  sock_inv None n s -> clients_of s !! p = Some c ->
  exists t tm, kc_timer c = Some t /\ timers_of s !! t = Some tm /\ tm_cb tm = CONNECT_TIMER /\ tm_data tm = Z.pos p.
Proof.
  intros HI Hc. destruct (xo_client _ _ (si_contents _ _ _ HI) p c Hc) as (_ & _ & _ & [?|[t Ht]] & _); [done|].
  destruct (so_timer _ _ _ _ _ _ (si_socks _ _ _ HI) p (client_view c) t (view_client _ _ _ Hc)) as (tm & H1 & H2 & H3); [done|done|].
  by exists t, tm.
Qed.

Lemma wps_client_timer p c t (Q : positive -> ST -> world -> mem -> Prop) s w m :
  clients_of s !! p = Some c -> kc_timer c = Some t -> Q t s w m -> wps (client_timer p) Q s w m.
Proof. intros Hc Ht HQ. unfold client_timer. apply wps_bind. eapply wps_get_client; [done|]. apply wps_mem. by eapply wp_lift. Qed.

(** The timer of a socket at rest, whose descriptor nobody watches, is set. *)
Lemma wps_own_timer_set n s p v t tm timeout w m :
  sock_inv None n s -> view (socks_of s) p = Some v -> v_timer v = Some t ->
  timers_of s !! t = Some tm -> tm_data tm = Z.pos p -> resting p s -> unwatched (v_fd v) s ->
  wps (obus_timer_set t timeout) (fun ret s' _ _ => timer_set_post n t tm timeout s ret s') s w m.
Proof.
  intros HI Hv Hvt Ht Hd (o & Ho & Hl) HU. eapply wps_sock_timer_set; [done|done|]. right.
  intros q vq oq Hq Hqt Hoq. pose proof (si_socks _ _ _ HI) as HS.
  destruct (so_timer _ _ _ _ _ _ HS q vq t Hq) as (tm' & H1 & _ & H3); [done|done|].
  rewrite Ht in H1. injection H1 as <-. rewrite Hd in H3. injection H3 as <-.
  rewrite Hv in Hq. injection Hq as <-. rewrite Ho in Hoq. by injection Hoq as <-.
Qed.

Lemma nothing_unwatched n s : loop_inv n s -> unwatched (-1) s.
Proof.
  intros (lp & El & W) lp' El'. rewrite El in El'. injection El' as <-.
  destruct (interest (ls_kern s) (lp_epfd lp) !! (-1)) eqn:E; [|done]. apply (lw_ints _ _ _ _ _ W) in E as [? _]. lia.
Qed.

(** A client whose attempt has failed: on no descriptor, and on its timer unless the
    kernel has refused that. *)
Record retry_post n p c s s' : Prop := {
  rt_inv : sock_inv None n s';
  rt_array : array_kept s s';
  rt_client : clients_of s' !! p = Some (with_client_fd c (-1));
  rt_resting : resting p s';
  rt_closed : opened (ls_kern s') = opened (ls_kern s) ∖ {[sb_fd (kc_sock c)]};
  rt_timer : exists t tm, kc_timer c = Some t /\ timers_of s !! t = Some tm /\
    timer_asked t OBUS_SOCKET_CONN_INTVL tm (set_kern s (snd (sys_close (sb_fd (kc_sock c)) (ls_kern s)))) s'
}.

Lemma wps_retry_later n p c s w m :
  sock_inv None n s -> clients_of s !! p = Some c -> resting p s -> sb_fd (kc_sock c) <> -1 ->
  unwatched (sb_fd (kc_sock c)) s ->
  wps (retry_later p) (fun _ s' _ _ => retry_post n p c s s') s w m.
Proof.
  intros HI Hc HR Hn HU. unfold retry_later. apply wps_bind.
  eapply wps_mono; [eapply wps_drop_fd; [done|by apply view_client|done|done|done]|].
  intros [] s1 w1 m1 (I1 & M1 & Et & Hop & Es1). pose proof (moved_client _ _ _ _ _ Hc M1) as Hc1.
  destruct (client_timer_of _ _ _ _ I1 Hc1) as (t & tm & Ht & Htm & _ & Hd).
  apply wps_bind. eapply wps_client_timer; [done|done|]. apply wps_bind. eapply wps_mono.
  - eapply wps_own_timer_set; [exact I1|by apply view_client|exact Ht|done|done|by eapply moved_fd_resting|].
    cbn. by eapply nothing_unwatched, timer_inv_loop, si_timers.
  - intros r s2 w2 m2 [I2 K2 Ef Ex _ Ho Hval]. apply wps_ret. split.
    + done.
    + etransitivity; [by eapply moved_fd_array|done].
    + change (so_clients (socks_of s2) !! p = Some (with_client_fd c (-1))). by rewrite Ex.
    + destruct (moved_fd_resting _ p _ _ _ M1 HR) as (o & Ho1 & Hl). exists o. by rewrite Ef.
    + by rewrite Ho, Hop.
    + exists t, tm. rewrite <- Et. split_and!; [done|done|]. by rewrite Es1 in Hval.
Qed.

(** ** Connected *)

Lemma wps_local_address n p c (Q : obus_socket_addr -> ST -> world -> mem -> Prop) s w m :
  sock_inv None n s -> clients_of s !! p = Some c ->
  (forall a s' m', sock_inv None n s' -> still s s' -> Q a s' w m') -> wps (local_address p) Q s w m.
Proof.
  intros HI Hc HQ. destruct (xo_client _ _ (si_contents _ _ _ HI) p c Hc) as (_ & _ & _ & _ & Hpa).
  unfold local_address. apply wps_bind. eapply wps_get_client; [done|]. cbv zeta.
  apply wps_bind. eapply wps_still; [apply sock_getsockname|done|]. intros r s1 _ I1 S1 _.
  set (a0 := obus_socket_addr_init (addr_family (kc_peer_addr c))).
  set (a1 := match r with inl bytes => fill_addr a0 (obus_socket_addr_length a0) bytes | inr _ => a0 end).
  assert (address_ok a1) as H1.
  { unfold a1. destruct r; [apply fill_ok; [apply init_ok|apply length_small]|apply init_ok]. }
  apply wps_bind, wps_mem, wp_text; [by case_bool; [apply copy_path_ok|]|].
  intros name m'. apply wps_ret. by apply HQ.
Qed.

Lemma quiet_keepalive fd a b c : quiet (obus_socket_activate_keepalive fd a b c).
Proof.
  unfold obus_socket_activate_keepalive.
  do 4 (apply quiet_bind; [apply sock_setsockopt|intros [?|?]; [|apply quiet_ret]]). apply quiet_ret.
Qed.

(** A client changes nothing that others see. *)
Lemma sock_inv_client n s p c c' :
  sock_inv None n s -> clients_of s !! p = Some c -> client_view c' = client_view c ->
  kc_cb c' <> 0 -> address_ok (kc_peer_addr c') ->
  sock_inv None n (set_clients s (<[p := c']> (clients_of s))).
Proof.
  intros HI Hc Hv Hcb Ha. unfold set_clients. apply sock_inv_socks; [done| | |].
  - unfold n_socks, socks_of, clients_of in *. cbn. by rewrite map_size_insert_Some by by eexists.
  - eapply contents_client; [apply HI|exact Hc|done| |done]. right.
    destruct (xo_client _ _ (si_contents _ _ _ HI) p c Hc) as (_ & _ & _ & [?|Ht] & _); [done|].
    injection Hv as _ Hv. by rewrite Hv.
  - intros q. unfold view, socks_of, clients_of, servers_of, peers_of in *. cbn. rewrite lookup_insert.
    case_decide; [subst|done]. rewrite Hc. f_equal. exact Hv.
Qed.

(** ** Creation and destruction *)

Lemma client_only n s p c : sock_inv None n s -> clients_of s !! p = Some c ->
  servers_of s !! p = None /\ peers_of s !! p = None.
Proof. intros HI Hc. by destruct (xo_client _ _ (si_contents _ _ _ HI) p c Hc) as (? & ? & _). Qed.

Lemma wps_client_tear {A} (a : A) n p c t s w m :
  1 <= n -> sock_inv None n s -> clients_of s !! p = Some c -> kc_timer c = Some t -> alone (sb_fd (kc_sock c)) p s ->
  wps (_ ← obus_timer_destroy t; _ ← obus_socket_base_destroy p; free_socket p;; mret a)
      (fun r s' _ _ => r = a /\ sock_inv None n s' /\ array_kept s s') s w m.
Proof.
  intros Hn HI Hc Ht HA. destruct (client_timer_of _ _ _ _ HI Hc) as (t' & tm & Ht' & Htm & _ & Hd).
  rewrite Ht in Ht'. injection Ht' as <-. destruct (client_only _ _ _ _ HI Hc) as [Hs Hp].
  eapply (wps_tear_down a n p (client_view c) t tm); [done|done|by apply view_client|done|done|done|exact Hp|done|].
  intros c1 Hc1. congruence.
Qed.

Lemma wps_client_destroy n p c s w m :
  1 <= n -> sock_inv None n s -> clients_of s !! p = Some c -> alone (sb_fd (kc_sock c)) p s ->
  wps (obus_socket_client_destroy p) (fun ret s' _ _ => ret = 0 /\ sock_inv None n s' /\ array_kept s s') s w m.
Proof.
  intros Hn HI Hc HA. unfold obus_socket_client_destroy.
  destruct (client_timer_of _ _ _ _ HI Hc) as (t & tm & Ht & _).
  apply wps_bind. eapply wps_client_timer; [done|done|]. by eapply wps_client_tear.
Qed.

Lemma contents_new_client (x : sstate X) p c :
  contents_ok None x -> so_clients x !! p = None -> so_servers x !! p = None -> so_peers x !! p = None ->
  kc_cb c <> 0 -> address_ok (kc_peer_addr c) ->
  contents_ok (Some p) (SState (<[p := c]> (so_clients x)) (so_servers x) (so_peers x) (so_user x)).
Proof.
  intros C H1 H2 H3 Hcb Ha. apply (contents_exempt p) in C as [C1 C2 C3]; [|done]. constructor; cbn.
  - intros q d. rewrite lookup_insert. case_decide; [subst; intros [= <-]|by apply C1]. split_and!; try done. by left.
  - intros q d Hd. destruct (C2 q d Hd) as (? & ?). rewrite lookup_insert_ne by congruence. done.
  - intros q d Hd. destruct (C3 q d Hd) as (? & ?). rewrite lookup_insert_ne by congruence. done.
Qed.

Lemma contents_timed_client (x : sstate X) p c t :
  contents_ok (Some p) x -> so_clients x !! p = Some c ->
  contents_ok None (SState (<[p := kc_with_timer c (Some t)]> (so_clients x)) (so_servers x) (so_peers x) (so_user x)).
Proof.
  intros C Hc. destruct (xo_client _ _ C p c Hc) as (H1 & H2 & H3 & _ & H5). destruct C as [C1 C2 C3]. constructor; cbn.
  - intros q d. rewrite lookup_insert. case_decide; [subst; intros [= <-]; split_and!; try done; right; by eexists|].
    intros Hd. destruct (C1 q d Hd) as (? & ? & ? & [?|?] & ?); [congruence|]. split_and!; try done. by right.
  - intros q d Hd. assert (q <> p) by congruence. rewrite lookup_insert_ne by done.
    destruct (C2 q d Hd) as (? & ? & ? & [?|?] & ? & ? & ? & H8); [congruence|]. split_and!; try done; [by right|].
    intros r. rewrite H8. split; intros [_ (d' & Hd' & Hs')]; (split; [|by exists d']); [done|]. intros [= <-]. congruence.
  - intros q d Hd. destruct (C3 q d Hd) as (? & ?). rewrite lookup_insert_ne by congruence. done.
Qed.

Lemma reviewed_client (x : sstate X) p c :
  reviewed p (Some (client_view c)) x (SState (<[p := c]> (so_clients x)) (so_servers x) (so_peers x) (so_user x)).
Proof.
  intros q. unfold view. cbn. rewrite lookup_insert. destruct (decide (q = p)) as [->|Hq]; [by rewrite decide_True|].
  by rewrite decide_False by congruence.
Qed.

(** The new client enters the state. *)
Lemma client_newborn n s lp c :
  sock_inv None n s -> ls_loop s = Some lp -> kc_cb c <> 0 -> address_ok (kc_peer_addr c) ->
  sb_fd (kc_sock c) = -1 -> kc_timer c = None -> let p := socket_address s in
  let s0 := set_fds (set_loop s (Some (set_ref lp (lp_ref lp + 1)))) (<[p := obus_fd_init (-1) 0 0 0]> (ls_fds s)) in
  let s' := set_clients s0 (<[p := c]> (clients_of s0)) in
  sock_inv (Some p) n s' /\ newborn p (client_view c) s' /\ array_kept s s' /\ clients_of s' !! p = Some c.
Proof.
  intros HI El Hcb Ha Hfd Hct p s0 s'. destruct (socket_address_fresh s p eq_refl) as (Hf & Ht & F1 & F2 & F3).
  set (x := SState (<[p := c]> (so_clients (socks_of s))) (so_servers (socks_of s)) (so_peers (socks_of s)) (so_user (socks_of s))).
  change s' with (set_socks s0 x). pose proof (reviewed_client (socks_of s) p c) as Hx. change (SState _ _ _ _) with x in Hx.
  assert (clients_of (set_socks s0 x) !! p = Some c) as Hc by apply lookup_insert_eq.
  split_and!; [| | |done].
  - apply (sock_inv_new n s p (client_view c) x lp); [done|done|done|done|done|by intros []| |].
    + unfold n_socks, x. cbn. rewrite map_size_insert_None by done. lia.
    + apply (contents_new_client (socks_of s) p c); [apply HI|done..].
  - constructor; [|done|done|exact (unseen_untimed n s p HI (fresh_view s p eq_refl))| |].
    + by apply view_client.
    + exists (obus_fd_init (-1) 0 0 0). split; [apply lookup_insert_eq|done].
    + intros d Hd. change (servers_of s !! p = Some d) in Hd. congruence.
  - intros i (lp1 & e & El1 & He). rewrite El in El1. injection El1 as <-. by eexists _, e.
Qed.

(** The creation, whatever is refused on the way: a client on its timer, or none and
    nothing left behind. *)
Lemma wps_client_new n addr cb data log s w m :
  1 <= n -> sock_inv None n s ->
  wps (obus_socket_client_new addr cb data log) (fun _ s' _ _ => sock_inv None n s' /\ array_kept s s') s w m.
Proof.
  intros Hn HI. unfold obus_socket_client_new. destruct (Z.eqb_spec cb 0) as [|Hcb]; [by apply wps_ret|].
  apply wps_bind, wps_mem, wp_alloc; [|intros k m1 _ _; by apply wps_ret]. intros k m1 _ _.
  apply wps_bind, wps_mem. eapply wp_mono; [apply wp_parse|]. intros [ret a] m2 Hp. cbn [fst snd] in Hp.
  destruct (failed ret) eqn:Er; [by apply wps_ret|].
  destruct Hp as [Hp%failed_spec|(-> & Ha & _)]; [congruence|].
  apply wps_bind, wps_gets. set (p := socket_address s).
  apply wps_bind. eapply (wps_base_init n); [done|]. fold p. intros lp El. apply wps_bind, wps_modify.
  set (c := SockClient _ zero_addr a None cb data _).
  destruct (client_newborn n s lp c HI El Hcb Ha eq_refl eq_refl) as (I1 & N1 & K1 & Hc1). fold p in I1, N1, K1, Hc1.
  set (s1 := set_clients _ _) in *.
  apply (wps_newborn_timer _ n p (client_view c)); [done|done|done|by right| |].
  { intros s2 w2 m3 I2 K2. split; [done|by etransitivity]. }
  intros t s2 w2 m3 I2 K2 Ex2 R2 Ht2 Hone _. assert (clients_of s2 !! p = Some c) as Hc2.
  { change (so_clients (socks_of s2) !! p = Some c). by rewrite Ex2. }
  apply wps_bind. eapply wps_get_client; [done|]. apply wps_bind, wps_modify. set (s3 := set_clients s2 _).
  assert (sock_inv None n s3) as I3.
  { eapply (sock_inv_attach n s2 p (client_view c) t); [done|by apply view_client|done|done|done| |exact Ht2|done|done|done| |].
    - apply (reviewed_client (socks_of s2) p (kc_with_timer c (Some t))).
    - unfold n_socks. cbn. by rewrite map_size_insert_Some by by eexists.
    - by apply contents_timed_client; [apply I2|]. }
  assert (clients_of s3 !! p = Some (kc_with_timer c (Some t))) as Hc3 by apply lookup_insert_eq.
  assert (array_kept s s3) as K3 by (etransitivity; [exact K1|exact K2]).
  apply wps_bind. eapply wps_mono.
  { eapply (wps_own_timer_set n s3 p _ t _ 10); [done|by apply view_client|done|exact Ht2|done|exact R2|].
    eapply nothing_unwatched, timer_inv_loop, I3. }
  intros ret s4 w4 m4 [I4 K4 Ef4 Ex4 _ _ _]. assert (array_kept s s4) as K04 by by etransitivity.
  destruct (failed ret); [|by apply wps_ret].
  assert (clients_of s4 !! p = Some (kc_with_timer c (Some t))) as Hc4.
  { change (so_clients (socks_of s4) !! p = Some (kc_with_timer c (Some t))). by rewrite Ex4. }
  eapply wps_mono; [eapply (wps_client_tear _ n p _ t s4); [done|done|exact Hc4|done|]|].
  - eapply nothing_alone, timer_inv_loop, I4.
  - intros r s5 w5 m5 (_ & I5 & K5). split; [done|by etransitivity].
Qed.

(** ** Reconnection *)

(** The object of a socket that has just been opened. *)
Lemma wps_put_events n p v o fd ev (Q : unit -> ST -> world -> mem -> Prop) s w m :
  sock_inv None n s -> view (socks_of s) p = Some v -> ls_fds s !! p = Some o -> fd_loop o = false ->
  (let s' := set_fds s (<[p := obus_fd_init fd ev (v_events v) (Z.pos p)]> (ls_fds s)) in
   sock_inv None n s' -> array_kept s s' -> Q tt s' w m) ->
  wps (put_fd p (obus_fd_init fd ev (v_events v) (Z.pos p))) Q s w m.
Proof.
  intros HI Hv Ho Hl HQ. apply wps_modify, HQ; [|by apply array_same_loop].
  eapply sock_inv_put; [done|done|done|done|done|done|by right|by eapply view_events].
Qed.

Lemma closed_client p s s' c : clients_of s !! p = Some c -> closed_at p s s' ->
  clients_of s' !! p = Some (with_client_fd c (-1)).
Proof.
  intros Hc [C _ _ _ _]. change (so_clients (socks_of s') !! p = Some (with_client_fd c (-1))). rewrite C.
  unfold refd. change (so_clients (socks_of s) !! p = Some c) in Hc. rewrite Hc. apply lookup_insert_eq.
Qed.

Lemma wps_reconnect n p c s w m :
  1 <= n -> sock_inv None n s -> clients_of s !! p = Some c -> alone (sb_fd (kc_sock c)) p s ->
  wps (obus_socket_client_reconnect p) (fun _ s' _ _ => sock_inv None n s' /\ array_kept s s') s w m.
Proof.
  intros Hn HI Hc HA. unfold obus_socket_client_reconnect.
  destruct (client_timer_of _ _ _ _ HI Hc) as (t & tm & Ht & Htm & _ & _).
  apply wps_bind. eapply wps_client_timer; [done|done|]. apply wps_bind.
  eapply wps_mono; [eapply (wps_sock_timer_set n s t tm 0); [done|done|by left]|].
  intros r0 s1 w1 m1 [I1 K1 Ef1 Ex1 _ _ _].
  assert (clients_of s1 !! p = Some c) as Hc1 by (change (so_clients (socks_of s1) !! p = Some c); by rewrite Ex1).
  apply wps_bind. eapply wps_mono; [apply (wps_base_close None n p (client_view c)); [done|by apply view_client|]|].
  { eapply alone_shrunk; [exact HA|]. intros q o. by rewrite Ef1. }
  intros [] s2 w2 m2 (I2 & C2). pose proof (closed_client _ _ _ _ Hc1 C2) as Hc2.
  assert (array_kept s s2) as K2 by (etransitivity; [exact K1|apply C2]).
  apply wps_bind. eapply wps_mono; [by eapply wps_base_open; [|apply view_client|eapply closed_resting]|].
  intros ret s3 w3 m3 (I3 & [[Hr S3]|(-> & fd & Hfd & HU & M3 & _)]).
  { apply failed_spec in Hr. rewrite Hr. apply wps_ret. split; [done|]. etransitivity; [done|by apply still_array]. }
  cbn [failed Z.ltb Z.compare]. pose proof (moved_client _ _ _ _ _ Hc2 M3) as Hc3. set (c3 := with_client_fd _ fd) in *.
  destruct (moved_fd_resting _ p _ _ _ M3 (closed_resting _ _ _ C2)) as (o & Ho & Hl).
  assert (array_kept s s3) as K3 by (etransitivity; [exact K2|by eapply moved_fd_array]).
  apply wps_bind. eapply wps_get_client; [done|].
  apply wps_bind, (wps_put_events n p (client_view c3) o fd OBUS_FD_OUT); [done|by apply view_client|done|done|].
  cbv zeta. intros I4 K4. set (s4 := set_fds s3 _) in *.
  assert (clients_of s4 !! p = Some c3) as Hc4 by exact Hc3.
  destruct (client_timer_of _ _ _ _ I4 Hc4) as (t' & tm' & Ht' & Htm' & _ & Hd').
  change (kc_timer c = Some t') in Ht'. rewrite Ht in Ht'. injection Ht' as <-.
  apply wps_bind. eapply wps_mono.
  - eapply (wps_own_timer_set n s4 p (client_view c3) t tm'); [done|by apply view_client|done|done|done| |exact HU].
    eexists. split; [apply lookup_insert_eq|done].
  - intros r5 s5 w5 m5 [I5 K5 _ _ _ _ _]. apply wps_ret. split; [done|]. etransitivity; [exact K3|]. by etransitivity.
Qed.

Context {SC : SocketCode K X} {LSC : LawfulSockets SC}.

Lemma wps_connected n p c s w m :
  1 <= n -> sock_inv None n s -> clients_of s !! p = Some c ->
  wps (obus_socket_client_connected p) (fun _ s' _ _ => sock_inv None n s' /\ array_kept s s') s w m.
Proof.
  intros Hn HI Hc. unfold obus_socket_client_connected. apply wps_bind. eapply wps_local_address; [done|done|].
  intros a s1 m1 I1 S1. pose proof (still_client _ _ _ _ S1 Hc) as Hc1.
  destruct (xo_client _ _ (si_contents _ _ _ I1) p c Hc1) as (_ & _ & Hcb & _ & Hpa).
  apply wps_bind. eapply wps_get_client; [done|]. apply wps_bind, wps_modify.
  pose proof (sock_inv_client n s1 p c (kc_with_local c a) I1 Hc1 eq_refl Hcb Hpa) as I2.
  set (s2 := set_clients s1 _) in *.
  assert (clients_of s2 !! p = Some (kc_with_local c a)) as Hc2 by apply lookup_insert_eq.
  assert (array_kept s s2) as K2 by exact (still_array _ _ S1).
  apply wps_bind. apply (wps_mono _ (fun _ s3 _ _ => sock_inv None n s3 /\ still s2 s3)).
  { destruct (is_inet _); [|by apply wps_ret]. apply wps_bind. eapply wps_still; [apply quiet_keepalive|done|].
    intros r s3 _ I3 S3 _. by apply wps_ret. }
  intros [] s3 w3 m3 [I3 S3]. destruct (Z.eqb_spec (kc_cb c) 0); [done|].
  eapply wps_mono; [apply (lawful_connected n s3 w3 m3 p _ Hn I3 (still_client _ _ _ _ S3 Hc2))|].
  intros [] s4 w4 m4 [I4 K4]. split; [done|]. etransitivity; [exact K2|].
  etransitivity; [exact (still_array _ _ S3)|exact K4].
Qed.

(** ** Events and attempts *)

Lemma wps_client_events n p c o events s w m :
  1 <= n -> sock_inv None n s -> clients_of s !! p = Some c -> ls_fds s !! p = Some o -> fd_loop o = true ->
  wps (obus_socket_client_events p events) (fun _ s' _ _ => sock_inv None n s' /\ array_kept s s') s w m.
Proof.
  intros Hn HI Hc Ho Hl. unfold obus_socket_client_events.
  destruct (view_object _ _ _ _ _ HI (view_client _ _ _ Hc)) as (_ & o' & Ho' & Hobj).
  rewrite Ho in Ho'. injection Ho' as <-. destruct (proj2 Hobj Hl) as (Hd & Hfd & Hn1 & _). cbn in Hfd, Hn1.
  apply wps_bind. eapply wps_get_client; [done|]. apply wps_bind. eapply wps_mono; [by apply wps_remove|].
  intros r s1 w1 m1 (I1 & K1 & Eu & _ & Ef & _ & HU). specialize (HU Hl).
  unfold watched_fd in HU. rewrite Hd, Hfd in HU. change (unwatched (sb_fd (kc_sock c)) s1) in HU.
  assert (clients_of s1 !! p = Some c) as Hc1 by (unfold clients_of; by rewrite Eu).
  assert (resting p s1) as R1 by (eexists; by rewrite Ef, lookup_insert_eq).
  apply wps_bind. apply (wps_mono _ (fun _ s2 _ _ => sock_inv None n s2 /\ still s1 s2)).
  { destruct (obus_fd_event_error events); [by apply wps_ret|]. apply wps_bind. eapply wps_still; [apply sock_error|done|].
    intros r2 s2 _ I2 S2 _. by apply wps_ret. }
  intros err s2 w2 m2 [I2 S2]. pose proof (still_client _ _ _ _ S2 Hc1) as Hc2.
  assert (array_kept s s2) as K2 by (etransitivity; [exact K1|exact (still_array _ _ S2)]).
  case_bool.
  - eapply wps_mono; [by apply (wps_connected n p c)|]. intros [] s3 w3 m3 [I3 K3]. split; [done|by etransitivity].
  - eapply wps_mono; [apply (wps_retry_later n p c); [done|done|by eapply still_resting|done|by eapply still_unwatched]|].
    intros [] s3 w3 m3 [I3 K3 _ _ _ _]. split; [done|by etransitivity].
Qed.

Lemma wps_do_connect n p c s w m :
  1 <= n -> sock_inv None n s -> clients_of s !! p = Some c -> resting p s -> unarmed p s ->
  wps (obus_socket_client_do_connect p) (fun _ s' _ _ => sock_inv None n s' /\ array_kept s s') s w m.
Proof.
  intros Hn HI Hc HR Harm. pose proof (view_client _ _ _ Hc) as Hv. unfold obus_socket_client_do_connect. apply wps_bind.
  eapply wps_mono; [by eapply wps_base_open|]. intros ret s1 w1 m1 (I1 & [[Hr S1]|(-> & fd & Hfd & HU & M1 & _)]).
  { apply failed_spec in Hr. rewrite Hr. apply wps_ret. split; [done|by apply still_array]. }
  cbn [failed Z.ltb Z.compare]. pose proof (moved_client _ _ _ _ _ Hc M1) as Hc1. set (c1 := with_client_fd c fd) in *.
  pose proof (moved_fd_array _ _ _ _ M1) as K1. destruct (moved_fd_resting _ p _ _ _ M1 HR) as (o & Ho & Hl).
  pose proof (moved_fd_unarmed _ _ _ _ _ M1 Hv Harm) as Harm1.
  apply wps_bind. eapply wps_get_client; [done|]. cbv zeta.
  apply wps_bind, (wps_put_events n p (client_view c1) o fd OBUS_FD_OUT); [done|by apply view_client|done|done|].
  cbv zeta. intros I2 K2. set (o2 := obus_fd_init fd OBUS_FD_OUT _ _) in *. set (s2 := set_fds s1 _) in *.
  assert (ls_fds s2 !! p = Some o2) as Ho2 by apply lookup_insert_eq.
  assert (unarmed p s2) as Harm2.
  { intros v t ot Hv2 Ht Hot. destruct (view_object _ _ _ _ _ I2 Hv2) as (Hpt & _).
    change (<[p := o2]> (ls_fds s1) !! t = Some ot) in Hot. rewrite lookup_insert_ne in Hot; [by apply (Harm1 v t ot)|].
    intros <-. destruct (so_timer _ _ _ _ _ _ (si_socks _ _ _ I2) p v p Hv2) as (tm & H & _); [done|done|congruence]. }
  apply wps_bind. eapply wps_still; [apply sock_connect|done|]. intros r s3 _ I3 S3 _.
  assert (clients_of s3 !! p = Some c1) as Hc3 by by apply (still_client _ _ _ _ S3).
  assert (ls_fds s3 !! p = Some o2) as Ho3 by by rewrite (still_fds _ _ S3).
  assert (unwatched fd s3) as HU3 by by apply (still_unwatched _ _ _ S3).
  assert (array_kept s s3) as K3.
  { etransitivity; [exact K1|]. etransitivity; [exact K2|exact (still_array _ _ S3)]. }
  destruct r as [u|e].
  - eapply wps_mono; [by apply (wps_connected n p c1)|]. intros [] s4 w4 m4 [I4 K4]. split; [done|by etransitivity].
  - case_bool.
    + apply wps_bind. eapply wps_mono.
      * eapply (wps_sock_add None n s3 p (client_view c1) o2); [done|by apply view_client|done..|].
        intros t ot Ht Hot. by apply (still_unarmed _ _ p S3 Harm2 (client_view c1) t ot); [apply view_client|..].
      * intros r s4 w4 m4 (I4 & K4 & _). apply wps_ret. split; [done|by etransitivity].
    + eapply wps_mono; [apply (wps_retry_later n p c1); [done|done|by exists o2|done|done]|].
      intros [] s4 w4 m4 [I4 K4 _ _ _ _]. split; [done|by etransitivity].
Qed.

(** The timer fires: it was armed, so the client is in no loop. *)
Lemma wps_connect_timer n p c s w m :
  1 <= n -> sock_inv None n s -> clients_of s !! p = Some c -> resting p s -> unarmed p s ->
  wps (obus_socket_connect_timer_cb p) (fun _ s' _ _ => sock_inv None n s' /\ array_kept s s') s w m.
Proof.
  intros Hn HI Hc HR Harm. unfold obus_socket_connect_timer_cb.
  destruct (client_timer_of _ _ _ _ HI Hc) as (t & tm & Ht & Htm & _ & Hd).
  apply wps_bind. eapply wps_client_timer; [done|done|]. apply wps_bind.
  eapply wps_mono; [eapply (wps_sock_timer_set n s t tm 0); [done|done|by left]|].
  intros r s1 w1 m1 [I1 K1 Ef Ex Ha _ _].
  eapply wps_mono; [eapply (wps_do_connect n p c); [done|done| | |]|].
  - unfold clients_of in *. unfold socks_of in Ex. by rewrite Ex.
  - destruct HR as (o & Ho & Hl). exists o. by rewrite Ef.
  - intros v t' o Hv Hvt Ho Hin. rewrite Ex in Hv. rewrite Ef in Ho. by apply (Harm v t' o Hv Hvt Ho), Ha.
  - intros [] s2 w2 m2 [I2 K2]. split; [done|by etransitivity].
Qed.
End Client.
