(* ===== verification/SocketServer.v ===== *)
(** * Socket servers: binding, accepting, peers, destruction

    Each operation of a server and of a peer keeps the invariant, whatever the
    kernel answers and the callback of the user does. *)
From S2P Require Import Prelude Mem Cstring World Handler Utils Loop LoopFacts LoopRun Timer TimerFacts TimerRun Addr AddrFacts Socket SocketLaws SocketInv SocketFacts SocketOps SocketLife SocketAddr SocketClient.

Section Server.
Context {K X : Type} {SK : SocketKernel K} {LE : LawfulEpoll K} {LT : LawfulTimer K} {LA : LawfulArm K}
  {LS : LawfulSocket K} {AL : Allocator} {IT : InetText} {LI : LawfulInet IT}.
#[local] Notation ST := (lstate K (tstate (sstate X))).
Implicit Types (s : ST) (w : world) (m : mem) (p q t : positive) (o : obus_fd) (v : sock_view) (E : option positive).

Definition server_view (c : obus_socket_server) : sock_view :=
  SockView (sb_fd (ks_sock c)) SERVER_EVENTS (ks_timer c) BIND_TIMER.

Lemma view_server E n s p c :
  sock_inv E n s -> servers_of s !! p = Some c -> view (socks_of s) p = Some (server_view c).
Proof.
  intros HI Hc. destruct (xo_server _ _ (si_contents _ _ _ HI) p c Hc) as (H & _).
  unfold view. rewrite H. change (so_servers (socks_of s) !! p = Some c) in Hc. by rewrite Hc.
Qed.

Lemma wps_get_server p c (Q : obus_socket_server -> ST -> world -> mem -> Prop) s w m :
  servers_of s !! p = Some c -> Q c s w m -> wps (get_server p) Q s w m.
Proof. intros Hc HQ. unfold get_server. apply wps_bind, wps_gets, wps_mem. by eapply wp_lift. Qed.

Definition with_server_fd (c : obus_socket_server) fd := ks_with_sock c (with_sock_fd (ks_sock c) fd).

Lemma still_server s s' p c : still s s' -> servers_of s !! p = Some c -> servers_of s' !! p = Some c.
Proof. by intros (k' & -> & _). Qed.

Lemma refd_server (x : sstate X) p fd c :
  so_clients x !! p = None -> so_servers x !! p = Some c -> so_servers (refd p fd x) !! p = Some (with_server_fd c fd).
Proof. intros H1 H2. unfold refd. rewrite H1, H2. apply lookup_insert_eq. Qed.

Lemma moved_server E n p fd s s' c :
  sock_inv E n s -> servers_of s !! p = Some c -> moved_fd p fd s s' -> servers_of s' !! p = Some (with_server_fd c fd).
Proof.
  intros HI Hc (s1 & S1 & ->). destruct (xo_server _ _ (si_contents _ _ _ HI) p c Hc) as (H & _).
  by apply (refd_server (socks_of s)).
Qed.

Lemma server_timer_of n s p c :
  sock_inv None n s -> servers_of s !! p = Some c ->
  exists t tm, ks_timer c = Some t /\ timers_of s !! t = Some tm /\ tm_cb tm = BIND_TIMER /\ tm_data tm = Z.pos p.
Proof.
  intros HI Hc. destruct (xo_server _ _ (si_contents _ _ _ HI) p c Hc) as (_ & _ & _ & [?|[t Ht]] & _); [done|].
  destruct (so_timer _ _ _ _ _ _ (si_socks _ _ _ HI) p (server_view c) t (view_server _ _ _ _ _ HI Hc)) as (tm & H1 & H2 & H3); [done|done|].
  by exists t, tm.
Qed.

Lemma wps_server_timer p c t (Q : positive -> ST -> world -> mem -> Prop) s w m :
  servers_of s !! p = Some c -> ks_timer c = Some t -> Q t s w m -> wps (server_timer p) Q s w m.
Proof. intros Hc Ht HQ. unfold server_timer. apply wps_bind. eapply wps_get_server; [done|]. apply wps_mem. by eapply wp_lift. Qed.

(** ** Binding *)

(** After an attempt that fails the server is on no descriptor, or on the one it
    had. *)
Definition bind_post n p c (ret : Z) s s' : Prop :=
  sock_inv None n s' /\ array_kept s s' /\
  (ret < 0 -> exists c', servers_of s' !! p = Some c' /\ ks_peers c' = ks_peers c /\
     (sb_fd (ks_sock c') = -1 \/ sb_fd (ks_sock c') = sb_fd (ks_sock c) /\ ls_fds s' = ls_fds s)).

(** The descriptor is dropped. *)
Lemma wps_server_drop n p c (Q : unit -> ST -> world -> mem -> Prop) s w m :
  sock_inv None n s -> servers_of s !! p = Some c -> resting p s -> sb_fd (ks_sock c) <> -1 ->
  unwatched (sb_fd (ks_sock c)) s ->
  (forall s' w' m', sock_inv None n s' -> array_kept s s' -> resting p s' ->
     servers_of s' !! p = Some (with_server_fd c (-1)) -> Q tt s' w' m') ->
  wps (drop_fd p) Q s w m.
Proof.
  intros HI Hc HR Hn HU HQ. pose proof (view_server _ _ _ _ _ HI Hc) as Hv.
  eapply wps_mono; [eapply wps_drop_fd; [done|exact Hv|done|done|done]|].
  intros [] s1 w1 m1 (I1 & M1 & _). apply HQ; [done|by eapply moved_fd_array|by eapply moved_fd_resting|].
  exact (moved_server _ _ _ _ _ _ _ HI Hc M1).
Qed.

Lemma wps_server_listen n p c s w m :
  sock_inv None n s -> servers_of s !! p = Some c -> resting p s -> unarmed p s -> sb_fd (ks_sock c) <> -1 ->
  unwatched (sb_fd (ks_sock c)) s ->
  wps (server_listen p) (fun ret s' _ _ => sock_inv None n s' /\ array_kept s s' /\
     (ret < 0 -> servers_of s' !! p = Some (with_server_fd c (-1)))) s w m.
Proof.
  intros HI Hc HR Harm Hn HU. pose proof (view_server _ _ _ _ _ HI Hc) as Hv. unfold server_listen.
  apply wps_bind. eapply wps_get_sock; [exact Hv|]. intros b Hb. cbn in Hb.
  apply wps_bind. eapply wps_still; [apply sock_listen|done|]. intros r s1 Er I1 S1 _.
  pose proof (still_server _ _ _ _ S1 Hc) as Hc1. pose proof (still_resting _ _ _ S1 HR) as R1.
  pose proof (still_unwatched _ _ _ S1 HU) as U1. pose proof (still_array _ _ S1) as K1.
  destruct r as [u|e].
  2:{ apply wps_bind. eapply wps_server_drop; [done|done|done|done|done|]. intros s2 w2 m2 I2 K2 R2 Hc2. apply wps_ret.
      split_and!; [done|by etransitivity|done]. }
  destruct R1 as (o & Ho & Hl). rewrite Hb.
  apply wps_bind, (wps_put_events n p (server_view c) o); [done|by eapply view_server|done|done|].
  cbv zeta. intros I2 K2. set (o2 := obus_fd_init _ OBUS_FD_IN _ _) in *. set (s2 := set_fds s1 _) in *.
  assert (servers_of s2 !! p = Some c) as Hc2 by exact Hc1.
  assert (ls_fds s2 !! p = Some o2) as Ho2 by apply lookup_insert_eq.
  assert (forall t ot, v_timer (server_view c) = Some t -> ls_fds s2 !! t = Some ot -> fd_fd ot ∉ armed (ls_kern s2)) as Harm2.
  { intros t ot Ht Hot. destruct (server_timer_of _ _ _ _ I1 Hc1) as (t' & tm & Ht' & Htm & _). cbn in Ht.
    rewrite Ht in Ht'. injection Ht' as <-. destruct (view_object _ _ _ _ _ I1 (view_server _ _ _ _ _ I1 Hc1)) as (Hpt & _).
    change (<[p := o2]> (ls_fds s1) !! t = Some ot) in Hot. rewrite lookup_insert_ne in Hot by congruence.
    by apply (still_unarmed _ _ p S1 Harm (server_view c) t ot); [by eapply view_server|..]. }
  apply wps_bind. eapply wps_mono.
  { apply (wps_sock_add None n s2 p (server_view c) o2); [done|by eapply view_server|done|done|done|done|done|done|exact U1|done]. }
  intros ret s3 w3 m3 (I3 & K3 & Eu3 & Hret). assert (servers_of s3 !! p = Some c) as Hc3 by (unfold servers_of; by rewrite Eu3).
  assert (array_kept s s3) as K03 by (etransitivity; [exact K1|]; by etransitivity).
  destruct Hret as [[Hr HU3]| ->].
  - apply failed_spec in Hr as Hf. rewrite Hf. apply wps_bind. eapply wps_server_drop; [done|done| |done| |].
    + exists o2. by rewrite (un_fds _ _ HU3).
    + intros lp El. pose proof El as El'. rewrite (un_loop _ _ HU3) in El'. destruct (un_kern _ _ HU3 lp El') as [-> _].
      by apply U1.
    + intros s4 w4 m4 I4 K4 R4 Hc4. apply wps_ret. by split_and!; [|etransitivity|].
  - cbn [failed Z.ltb Z.compare]. apply wps_ret. split_and!; [done|done|lia].
Qed.

Lemma quiet_mkdirs done rest : quiet (mkdir_walk done rest).
Proof.
  revert done. induction rest as [|c rest IH]; intros done; cbn [mkdir_walk]; [apply quiet_ret|].
  case_bool; [|apply IH]. apply quiet_bind.
  - apply quiet_bind; [apply sock_mkdir|]. intros [?|?]; apply quiet_ret.
  - intros [?|]; [apply quiet_ret|apply IH].
Qed.

Lemma quiet_socket_dir path : quiet (create_unix_socket_dir path).
Proof.
  unfold create_unix_socket_dir. destruct (negb _); [apply quiet_ret|]. cbv zeta.
  destruct (match strrchr _ 47 with Some _ => _ | None => _ end) as [|c rest]; [apply quiet_ret|].
  apply quiet_bind; [apply quiet_mkdirs|]. intros [?|]; [apply quiet_ret|].
  apply quiet_bind; [apply sock_mkdir|]. intros [?|?]; apply quiet_ret.
Qed.

(** The file of a unix server is removed, and its directory made. *)
Lemma wps_clear_file n p c (Q : unit -> ST -> world -> mem -> Prop) s w m :
  sock_inv None n s -> servers_of s !! p = Some c ->
  (forall s', sock_inv None n s' -> still s s' -> Q tt s' w m) ->
  wps (if has_file (ks_addr c) then
         path ← on_mem (m_lift (st_path (sa_st (ks_addr c))));
         _ ← kern (sys_unlink path);
         _ ← kern (create_unix_socket_dir path); mret tt
       else mret tt) Q s w m.
Proof.
  intros HI Hc HQ. destruct (xo_server _ _ (si_contents _ _ _ HI) p c Hc) as (_ & _ & _ & _ & Ha & _).
  destruct (has_file _); [|by apply wps_ret, HQ]. destruct (path_ok _ Ha) as [path Hp].
  apply wps_bind, wps_mem. eapply wp_lift; [done|].
  apply wps_bind. eapply wps_still; [apply sock_unlink|done|]. intros r1 s1 _ I1 S1 _.
  apply wps_bind. eapply wps_still; [apply quiet_socket_dir|done|]. intros r2 s2 _ I2 S2 _.
  apply wps_ret, HQ; [done|by etransitivity].
Qed.

Lemma wps_server_bind n p c s w m :
  sock_inv None n s -> servers_of s !! p = Some c -> resting p s -> unarmed p s ->
  wps (obus_socket_server_bind p) (fun ret s' _ _ => bind_post n p c ret s s') s w m.
Proof.
  intros HI Hc HR Harm. pose proof (view_server _ _ _ _ _ HI Hc) as Hv. unfold obus_socket_server_bind.
  apply wps_bind. eapply wps_mono; [by eapply wps_base_open|]. intros ret s1 w1 m1 (I1 & [[Hr S1]|(-> & fd & Hfd & HU & M1 & _)]).
  { apply failed_spec in Hr as Hf. rewrite Hf. apply wps_ret. split_and!; [done|by apply still_array|]. intros _.
    exists c. split_and!; [by eapply still_server|done|]. right. split; [done|by apply still_fds]. }
  cbn [failed Z.ltb Z.compare]. pose proof (moved_server _ _ _ _ _ _ _ HI Hc M1) as Hc1. set (c1 := with_server_fd c fd) in *.
  pose proof (moved_fd_array _ _ _ _ M1) as K1. pose proof (moved_fd_resting _ _ _ _ _ M1 HR) as R1.
  pose proof (moved_fd_unarmed _ _ _ _ _ M1 Hv Harm) as Harm1.
  apply wps_bind. eapply wps_get_server; [done|]. apply wps_bind. eapply wps_clear_file; [done|done|].
  intros s2 I2 S2. apply wps_bind. eapply wps_still; [apply sock_bind|done|]. intros r s3 Er I3 S3 _.
  assert (still s1 s3) as S13 by by etransitivity. clear S2 S3 I2. pose proof (still_server _ _ _ _ S13 Hc1) as Hc3.
  pose proof (still_resting _ _ _ S13 R1) as R3. pose proof (still_unwatched _ _ _ S13 HU) as U3.
  assert (array_kept s s3) as K3 by (etransitivity; [exact K1|by apply still_array]).
  destruct r as [u|e].
  - eapply wps_mono; [apply (wps_server_listen n p c1); [done|done|done|by eapply still_unarmed|done|done]|].
    intros ret s4 w4 m4 (I4 & K4 & Hret). split_and!; [done|by etransitivity|]. intros Hr.
    eexists. split_and!; [exact (Hret Hr)|done|by left].
  - apply wps_bind. eapply wps_server_drop; [done|done|done|done|done|]. intros s4 w4 m4 I4 K4 R4 Hc4.
    assert (array_kept s s4) as K04 by by etransitivity.
    destruct (is_inet _ && _).
    + destruct (server_timer_of _ _ _ _ I4 Hc4) as (t & tm & Ht & Htm & _ & Hd).
      apply wps_bind. eapply wps_server_timer; [done|done|]. apply wps_bind. eapply wps_mono.
      { eapply wps_own_timer_set; [exact I4|by eapply view_server|exact Ht|done|done|done|].
        eapply nothing_unwatched, timer_inv_loop, I4. }
      intros r s5 w5 m5 [I5 K5 _ _ _ _ _]. apply wps_ret. split_and!; [done|by etransitivity|lia].
    + apply wps_ret. split_and!; [done|done|]. intros _. eexists. split_and!; [exact Hc4|done|by left].
Qed.
End Server.
