(* ===== verification/SocketPeer.v ===== *)
(** * Socket servers: creation, accepted peers, destruction *)
From S2P Require Import Prelude Mem Cstring World Handler Utils Loop LoopFacts LoopRun Timer TimerFacts TimerRun Addr AddrFacts Socket SocketLaws SocketInv SocketFacts SocketOps SocketLife SocketAddr SocketClient SocketServer.

Section Server.
Context {K X : Type} {SK : SocketKernel K} {LE : LawfulEpoll K} {LT : LawfulTimer K} {LA : LawfulArm K}
  {LS : LawfulSocket K} {AL : Allocator} {IT : InetText} {LI : LawfulInet IT}.
#[local] Notation ST := (lstate K (tstate (sstate X))).
Implicit Types (s : ST) (w : world) (m : mem) (p q t : positive) (o : obus_fd) (v : sock_view) (E : option positive) (x : sstate X).

(** ** Creation of a server *)

Lemma contents_new_server x p c :
  contents_ok None x -> so_clients x !! p = None -> so_servers x !! p = None -> so_peers x !! p = None ->
  ks_cb c <> 0 -> address_ok (ks_addr c) -> is_Some (sa_name (ks_addr c)) -> ks_peers c = [] ->
  contents_ok (Some p) (SState (so_clients x) (<[p := c]> (so_servers x)) (so_peers x) (so_user x)).
Proof.
  intros C H1 H2 H3 Hcb Ha Hn Hp. pose proof (xo_peer _ _ C) as C3'.
  apply (contents_exempt p) in C as [C1 C2 C3]; [|done]. constructor; cbn.
  - intros q d Hd. destruct (C1 q d Hd) as (? & ?). rewrite lookup_insert_ne by congruence. done.
  - intros q d. rewrite lookup_insert. case_decide; [subst; intros [= <-]|by apply C2]. rewrite Hp.
    split_and!; try done; [by left|apply NoDup_nil_2|]. intros r. split; [by intros ?%not_elem_of_nil|].
    intros [_ (d & Hd & He)]. destruct (C3' r d Hd) as (_ & _ & [? ?]). congruence.
  - intros q d Hd. destruct (C3 q d Hd) as (? & ? & ?). rewrite lookup_insert_ne by congruence.
    split_and!; [done|done|by apply insert_some].
Qed.

Lemma contents_timed_server x p c t :
  contents_ok (Some p) x -> so_servers x !! p = Some c ->
  contents_ok None (SState (so_clients x) (<[p := ks_with_timer c (Some t)]> (so_servers x)) (so_peers x) (so_user x)).
Proof.
  intros C Hc. destruct (xo_server _ _ C p c Hc) as (H1 & H2 & H3 & _ & H5 & H6 & H7 & H8). destruct C as [C1 C2 C3].
  assert (forall (l : list positive) pp, (forall r, r ∈ l <-> Some p <> Some r /\ exists d, so_peers x !! r = Some d /\ kp_srv d = pp) ->
    forall r, r ∈ l <-> @None positive <> Some r /\ exists d, so_peers x !! r = Some d /\ kp_srv d = pp) as Hlist.
  { intros l pp Hl r. rewrite Hl. split; intros [_ (d & Hd & Hs)]; (split; [|by exists d]); [done|]. intros [= <-]. congruence. }
  constructor; cbn.
  - intros q d Hd. assert (q <> p) by congruence. rewrite lookup_insert_ne by done.
    destruct (C1 q d Hd) as (? & ? & ? & [?|?] & ?); [congruence|]. split_and!; try done. by right.
  - intros q d. rewrite lookup_insert. case_decide; [subst; intros [= <-]; cbn; split_and!; try done; [right; by eexists|by apply Hlist]|].
    intros Hd. destruct (C2 q d Hd) as (? & ? & ? & [?|?] & ? & ? & ? & H9); [congruence|]. split_and!; try done; [by right|by apply Hlist].
  - intros q d Hd. destruct (C3 q d Hd) as (? & ? & ?). rewrite lookup_insert_ne by congruence.
    split_and!; [done|done|by apply insert_some].
Qed.

Lemma reviewed_server x p c :
  so_clients x !! p = None ->
  reviewed p (Some (server_view c)) x (SState (so_clients x) (<[p := c]> (so_servers x)) (so_peers x) (so_user x)).
Proof.
  intros Hc q. unfold view. cbn. rewrite lookup_insert. destruct (decide (q = p)) as [->|Hq]; [by rewrite Hc, decide_True|].
  by rewrite decide_False by congruence.
Qed.

(** The new server enters the state. *)
Lemma server_newborn n s lp c :
  sock_inv None n s -> ls_loop s = Some lp -> ks_cb c <> 0 -> address_ok (ks_addr c) -> is_Some (sa_name (ks_addr c)) ->
  ks_peers c = [] -> sb_fd (ks_sock c) = -1 -> ks_timer c = None -> let p := socket_address s in
  let s0 := set_fds (set_loop s (Some (set_ref lp (lp_ref lp + 1)))) (<[p := obus_fd_init (-1) 0 0 0]> (ls_fds s)) in
  let s' := set_servers s0 (<[p := c]> (servers_of s0)) in
  sock_inv (Some p) n s' /\ newborn p (server_view c) s' /\ array_kept s s' /\ servers_of s' !! p = Some c.
Proof.
  intros HI El Hcb Ha Hname Hpe Hfd Hct p s0 s'. destruct (socket_address_fresh s p eq_refl) as (Hf & Ht & F1 & F2 & F3).
  set (x := SState (so_clients (socks_of s)) (<[p := c]> (so_servers (socks_of s))) (so_peers (socks_of s)) (so_user (socks_of s))).
  change s' with (set_socks s0 x). pose proof (reviewed_server (socks_of s) p c F1) as Hx. change (SState _ _ _ _) with x in Hx.
  assert (servers_of (set_socks s0 x) !! p = Some c) as Hc by apply lookup_insert_eq.
  assert (sock_inv (Some p) n (set_socks s0 x)) as I1.
  { apply (sock_inv_new n s p (server_view c) x lp); [done|done|done|done|done|by intros []| |].
    - unfold n_socks, x. cbn. rewrite map_size_insert_None by done. lia.
    - apply (contents_new_server (socks_of s) p c); [apply HI|done..]. }
  split_and!; [done| | |done].
  - constructor; [|done|done|exact (unseen_untimed n s p HI (fresh_view s p eq_refl))| |].
    + by eapply view_server.
    + exists (obus_fd_init (-1) 0 0 0). split; [apply lookup_insert_eq|done].
    + intros d Hd. rewrite Hc in Hd. by injection Hd as <-.
  - intros i (lp1 & e & El1 & He). rewrite El in El1. injection El1 as <-. by eexists _, e.
Qed.

Lemma server_no_peer E n s p c : sock_inv E n s -> servers_of s !! p = Some c -> so_peers (socks_of s) !! p = None.
Proof. intros HI Hc. by destruct (xo_server _ _ (si_contents _ _ _ HI) p c Hc) as (_ & ? & _). Qed.

(** A server without peers is torn down. *)
Lemma wps_server_tear {A} (a : A) n p c t s w m :
  1 <= n -> sock_inv None n s -> servers_of s !! p = Some c -> ks_timer c = Some t -> alone (sb_fd (ks_sock c)) p s ->
  ks_peers c = [] ->
  wps (_ ← obus_timer_destroy t; _ ← obus_socket_base_destroy p; free_socket p;; mret a)
      (fun r s' _ _ => r = a /\ sock_inv None n s' /\ array_kept s s') s w m.
Proof.
  intros Hn HI Hc Ht HA Hp. destruct (server_timer_of _ _ _ _ HI Hc) as (t' & tm & Ht' & Htm & _ & Hd).
  rewrite Ht in Ht'. injection Ht' as <-.
  eapply (wps_tear_down a n p (server_view c) t tm); [done|done|by eapply view_server|done|done|done| |done|].
  - by eapply server_no_peer.
  - intros c1 Hc1. rewrite Hc in Hc1. by injection Hc1 as <-.
Qed.

(** The creation, when the name of the address can be copied: a server that listens,
    or that tries again on its timer, or none and nothing left behind. *)
Lemma wps_server_new {AM : AmpleMemory AL} n addr cb data log s w m :
  1 <= n -> Z.of_nat (length addr) < PTRDIFF_MAX -> sock_inv None n s ->
  wps (obus_socket_server_new addr cb data log) (fun _ s' _ _ => sock_inv None n s' /\ array_kept s s') s w m.
Proof.
  intros Hn Hlen HI. unfold obus_socket_server_new. destruct (Z.eqb_spec cb 0) as [|Hcb]; [by apply wps_ret|].
  apply wps_bind, wps_mem, wp_alloc; [|intros k m1 _ _; by apply wps_ret]. intros k m1 _ _.
  apply wps_bind, wps_mem. eapply wp_mono; [apply wp_parse|]. intros [ret a] m2 Hp. cbn [fst snd] in Hp.
  destruct (failed ret) eqn:Er; [by apply wps_ret|].
  destruct Hp as [Hp%failed_spec|(-> & Ha & Hname)]; [congruence|]. specialize (Hname AM Hlen).
  apply wps_bind, wps_gets. set (p := socket_address s).
  apply wps_bind. eapply (wps_base_init n); [done|]. fold p. intros lp El. apply wps_bind, wps_modify.
  set (c := SockServer _ None a [] cb data _).
  destruct (server_newborn n s lp c HI El Hcb Ha Hname eq_refl eq_refl eq_refl) as (I1 & N1 & K1 & Hc1). fold p in I1, N1, K1, Hc1.
  set (s1 := set_servers _ _) in *.
  apply (wps_newborn_timer _ n p (server_view c)); [done|done|done|by left| |].
  { intros s2 w2 m3 I2 K2. split; [done|by etransitivity]. }
  intros t s2 w2 m3 I2 K2 Ex2 R2 Ht2 Hone Hna. assert (servers_of s2 !! p = Some c) as Hc2.
  { change (so_servers (socks_of s2) !! p = Some c). by rewrite Ex2. }
  apply wps_bind. eapply wps_get_server; [done|]. apply wps_bind, wps_modify. set (s3 := set_servers s2 _).
  destruct (xo_server _ _ (si_contents _ _ _ I2) p c Hc2) as (Hnc & _).
  assert (sock_inv None n s3) as I3.
  { eapply (sock_inv_attach n s2 p (server_view c) t); [done|by eapply view_server|done|done|done| |exact Ht2|done|done|done| |].
    - apply (reviewed_server (socks_of s2) p (ks_with_timer c (Some t)) Hnc).
    - unfold n_socks. cbn. by rewrite map_size_insert_Some by by eexists.
    - by apply contents_timed_server; [apply I2|]. }
  assert (servers_of s3 !! p = Some (ks_with_timer c (Some t))) as Hc3 by apply lookup_insert_eq.
  assert (array_kept s s3) as K3 by (etransitivity; [exact K1|exact K2]).
  apply wps_bind. eapply wps_mono; [eapply (wps_server_bind n p _ s3); [done|exact Hc3|exact R2|]|].
  { intros v t' o Hv Hvt Ho. rewrite (view_server _ _ _ _ _ I3 Hc3) in Hv. injection Hv as <-.
    injection Hvt as <-. by apply Hna. }
  intros ret s4 w4 m4 (I4 & K4 & Hret). assert (array_kept s s4) as K04 by by etransitivity.
  destruct (failed ret) eqn:Hf; [|by apply wps_ret]. apply failed_spec in Hf.
  destruct (Hret Hf) as (c4 & Hc4 & Hp4 & Hfd4). destruct (server_timer_of _ _ _ _ I4 Hc4) as (t4 & tm4 & Ht4 & _).
  apply wps_bind. eapply wps_server_timer; [done|done|].
  eapply wps_mono; [eapply (wps_server_tear _ n p c4 t4 s4); [done|done|done|done| |by rewrite Hp4]|].
  - assert (sb_fd (ks_sock c4) = -1) as -> by by destruct Hfd4 as [?|[? _]].
    eapply nothing_alone, timer_inv_loop, I4.
  - intros r s5 w5 m5 (_ & I5 & K5). split; [done|by etransitivity].
Qed.

(** ** Destruction of a server *)

Lemma wps_unlink_file n p c E (Q : unit -> ST -> world -> mem -> Prop) s w m :
  sock_inv E n s -> servers_of s !! p = Some c ->
  (forall s', sock_inv E n s' -> still s s' -> Q tt s' w m) ->
  wps (if has_file (ks_addr c) then
         path ← on_mem (m_lift (st_path (sa_st (ks_addr c))));
         _ ← kern (sys_unlink path); mret tt
       else mret tt) Q s w m.
Proof.
  intros HI Hc HQ. destruct (xo_server _ _ (si_contents _ _ _ HI) p c Hc) as (_ & _ & _ & _ & Ha & _).
  destruct (has_file _); [|by apply wps_ret, HQ]. destruct (path_ok _ Ha) as [path Hp].
  apply wps_bind, wps_mem. eapply wp_lift; [done|].
  apply wps_bind. eapply wps_still; [apply sock_unlink|done|]. intros r1 s1 _ I1 S1 _. by apply wps_ret, HQ.
Qed.

Lemma closed_server E n p s s' c : sock_inv E n s -> servers_of s !! p = Some c -> closed_at p s s' ->
  servers_of s' !! p = Some (with_server_fd c (-1)).
Proof.
  intros HI Hc [C _ _ _ _]. destruct (xo_server _ _ (si_contents _ _ _ HI) p c Hc) as (H & _).
  change (so_servers (socks_of s') !! p = Some (with_server_fd c (-1))). rewrite C. by apply (refd_server (socks_of s)).
Qed.

(** Refused while there are peers. *)
Lemma wps_server_destroy n p c s w m :
  1 <= n -> sock_inv None n s -> servers_of s !! p = Some c -> alone (sb_fd (ks_sock c)) p s ->
  wps (obus_socket_server_destroy p) (fun ret s' _ _ => sock_inv None n s' /\ array_kept s s' /\
     (ks_peers c = [] -> ret = 0) /\ (ks_peers c <> [] -> ret = - EPERM /\ s' = s)) s w m.
Proof.
  intros Hn HI Hc HA. unfold obus_socket_server_destroy. apply wps_bind. eapply wps_get_server; [done|].
  case_bool_decide as Hp; cbn [negb].
  2:{ by apply wps_ret. }
  destruct (server_timer_of _ _ _ _ HI Hc) as (t & tm & Ht & Htm & _ & Hd).
  pose proof (view_server _ _ _ _ _ HI Hc) as Hv.
  apply wps_bind. eapply wps_server_timer; [done|done|]. apply wps_bind.
  eapply wps_mono; [eapply (wps_own_timer_destroy n s p _ t tm); [done|done|exact Hv|done|done|done|by eapply server_no_peer]|].
  intros r1 s1 w1 m1 (I1 & K1 & Ex1 & Ef1 & HU1).
  assert (servers_of s1 !! p = Some c) as Hc1 by (change (so_servers (socks_of s1) !! p = Some c); by rewrite Ex1).
  apply wps_bind. eapply wps_mono; [eapply (wps_base_destroy (Some p) n p (server_view c)); [done|done|by eapply view_server|]|].
  { eapply alone_shrunk; [exact HA|]. intros q o. rewrite Ef1. by intros [_ ?]%lookup_delete_Some. }
  intros r2 s2 w2 m2 (_ & I2 & C2). pose proof (closed_server _ _ _ _ _ _ I1 Hc1 C2) as Hc2.
  apply wps_bind. eapply wps_get_server; [done|]. apply wps_bind.
  apply (wps_unlink_file (n - 1) p (with_server_fd c (-1)) (Some p)); [done|done|]. intros s3 I3 S3.
  pose proof (still_server _ _ _ _ S3 Hc2) as Hc3.
  apply wps_bind. eapply (wps_free_socket n p); [done|by eapply view_server| | | |].
  - eapply still_resting; [done|by eapply closed_resting].
  - destruct S3 as (k3 & -> & _). exact (closed_untimed _ _ _ C2 HU1).
  - intros d Hd'. rewrite Hc3 in Hd'. by injection Hd' as <-.
  - intros s4 I4 K4 _. apply wps_ret. split_and!; [done| |done|done]. etransitivity; [exact K1|].
    etransitivity; [apply C2|]. etransitivity; [exact (still_array _ _ S3)|done].
Qed.

(** ** Peers *)

Definition peer_view (c : obus_socket_peer) : sock_view := SockView (sb_fd (kp_sock c)) 0 None 0.

Lemma view_peer E n s p c :
  sock_inv E n s -> peers_of s !! p = Some c -> view (socks_of s) p = Some (peer_view c).
Proof.
  intros HI Hc. destruct (xo_peer _ _ (si_contents _ _ _ HI) p c Hc) as (H1 & H2 & _).
  unfold view. rewrite H1, H2. change (so_peers (socks_of s) !! p = Some c) in Hc. by rewrite Hc.
Qed.

Lemma wps_get_sock_peer p c (Q : obus_socket_peer -> ST -> world -> mem -> Prop) s w m :
  peers_of s !! p = Some c -> Q c s w m -> wps (get_sock_peer p) Q s w m.
Proof. intros Hc HQ. unfold get_sock_peer. apply wps_bind, wps_gets, wps_mem. by eapply wp_lift. Qed.

(** A peer that is in the list of its server, or out of it. *)
Lemma contents_listed x p d c l E E' :
  contents_ok E x -> so_peers x !! p = Some d -> so_servers x !! kp_srv d = Some c ->
  (E = None /\ E' = Some p /\ l = filter (fun q => q <> p) (ks_peers c) \/
   E = Some p /\ E' = None /\ l = ks_peers c ++ [p]) ->
  contents_ok E' (SState (so_clients x) (<[kp_srv d := ks_with_peers c l]> (so_servers x)) (so_peers x) (so_user x)).
Proof.
  intros C Hd Hc HE. pose proof C as [C1 C2 C3]. destruct (C3 p d Hd) as (Hpc & Hps & _).
  assert (forall (P : Prop) q, q <> p -> E = Some q \/ P -> E' = Some q \/ P) as HEq.
  { intros P q Hq [Hs|]; [|by right]. destruct HE as [(-> & _)|(-> & _)]; [done|congruence]. }
  constructor; cbn.
  - intros q e He. destruct (C1 q e He) as (H1 & H2 & H3 & H4 & H5). split_and!; try done.
    + by eapply insert_none.
    + apply HEq; [congruence|done].
  - intros q e. rewrite lookup_insert. case_decide as Hq.
    + subst q. intros [= <-]. destruct (C2 _ c Hc) as (H1 & H2 & H3 & H4 & H5 & H6 & H7 & H8). cbn.
      split_and!; try done; [apply HEq; [congruence|done]| |].
      * destruct HE as [(_ & _ & ->)|(HE & _ & ->)]; [by apply NoDup_filter|].
        apply NoDup_app. split_and!; [done| |apply NoDup_singleton]. intros r Hr ->%list_elem_of_singleton.
        apply H8 in Hr as [Hr _]. by rewrite HE in Hr.
      * intros r. destruct HE as [(HE & -> & ->)|(HE & -> & ->)]; rewrite HE in H8.
        -- rewrite list_elem_of_filter, H8. split.
           ++ intros [Hr [_ H]]. split; [congruence|done].
           ++ intros [Hr H]. split; [congruence|done].
        -- rewrite elem_of_app, list_elem_of_singleton, H8. split.
           ++ intros [[_ H]| ->]; (split; [done|]); [done|by exists d].
           ++ intros [_ H]. destruct (decide (r = p)) as [->|Hr]; [by right|left]. split; [congruence|done].
    + intros He. destruct (C2 q e He) as (H1 & H2 & H3 & H4 & H5 & H6 & H7 & H8). split_and!; try done; [apply HEq; [congruence|done]|].
      intros r. rewrite H8. split; intros [Hr (d' & Hd' & Hs')]; (split; [|by exists d']).
      * destruct HE as [(-> & -> & _)|(_ & -> & _)]; [|done]. intros [= <-]. congruence.
      * destruct HE as [(-> & _)|(-> & _)]; [done|]. intros [= <-]. congruence.
  - intros q e He. destruct (C3 q e He) as (H1 & H2 & H3). split_and!; [done| |by apply insert_some].
    rewrite lookup_insert_ne by congruence. done.
Qed.

(** The list of a server is not seen outside. *)
Lemma view_peers x sp c l q : so_clients x !! sp = None -> so_servers x !! sp = Some c ->
  view (SState (so_clients x) (<[sp := ks_with_peers c l]> (so_servers x)) (so_peers x) (so_user x)) q = view x q.
Proof.
  intros H1 H2. unfold view. cbn. rewrite lookup_insert. case_decide; [subst; by rewrite H1, H2|done].
Qed.

Lemma sock_inv_listed E E' n s p d c l :
  sock_inv E n s -> peers_of s !! p = Some d -> servers_of s !! kp_srv d = Some c ->
  (E = None /\ E' = Some p /\ l = filter (fun q => q <> p) (ks_peers c) \/
   E = Some p /\ E' = None /\ l = ks_peers c ++ [p] /\ untimed p s) ->
  sock_inv E' n (set_servers s (<[kp_srv d := ks_with_peers c l]> (servers_of s))).
Proof.
  intros HI Hd Hc HE. pose proof HI as [HT HS HC HL].
  destruct (xo_server _ _ HC _ c Hc) as (Hnc & _).
  set (x := SState (so_clients (socks_of s)) (<[kp_srv d := ks_with_peers c l]> (so_servers (socks_of s))) (so_peers (socks_of s)) (so_user (socks_of s))).
  assert (forall q, view x q = view (socks_of s) q) as Hx by (intros q; by apply view_peers).
  change (set_servers s _) with (set_socks s x). split; [| | |by apply alone_views].
  - change (socks_of (set_socks s x)) with x.
    assert (n_socks x = n_socks (socks_of s)) as -> by (unfold n_socks, x; cbn; by rewrite map_size_insert_Some by by eexists).
    by apply timer_inv_socks.
  - apply (socks_view _ _ _ (socks_of s)); [exact Hx|]. destruct HE as [(-> & -> & _)|(-> & -> & _ & HU)]; cbn.
    + by apply socks_exempt.
    + by eapply (socks_whole p); [exact HS|by eapply view_peer|done|exact HU|].
  - eapply contents_listed; [done|done|done|]. destruct HE as [?|(? & ? & ? & _)]; [by left|by right].
Qed.

Lemma wps_peer_disconnect n p d s w m :
  1 <= n -> sock_inv None n s -> peers_of s !! p = Some d -> alone (sb_fd (kp_sock d)) p s ->
  wps (obus_socket_peer_disconnect p) (fun ret s' _ _ => ret = 0 /\ sock_inv None n s' /\ array_kept s s') s w m.
Proof.
  intros Hn HI Hd HA. unfold obus_socket_peer_disconnect. apply wps_bind. eapply wps_get_sock_peer; [done|].
  destruct (xo_peer _ _ (si_contents _ _ _ HI) p d Hd) as (Hpc & Hps & [c Hc]).
  apply wps_bind. eapply wps_get_server; [exact Hc|].
  destruct (xo_server _ _ (si_contents _ _ _ HI) _ c Hc) as (_ & _ & _ & _ & _ & _ & _ & Hl).
  rewrite bool_decide_true by (apply Hl; split; [done|by exists d]). apply wps_bind, wps_modify.
  set (s1 := set_servers s _).
  assert (sock_inv (Some p) n s1) as I1 by (eapply sock_inv_listed; [done|done|exact Hc|by left]).
  assert (peers_of s1 !! p = Some d) as Hd1 by exact Hd.
  apply wps_bind. eapply wps_mono; [eapply (wps_base_destroy (Some p) n p (peer_view d)); [done|done|by eapply view_peer|exact HA]|].
  intros r2 s2 w2 m2 (_ & I2 & C2).
  assert (servers_of s2 = servers_of s1) as Es2.
  { change (so_servers (socks_of s2) = so_servers (socks_of s1)). rewrite (ca_socks _ _ _ C2). unfold refd.
    destruct (xo_peer _ _ (si_contents _ _ _ I1) p d Hd1) as (H1 & H2 & _). rewrite H1, H2. by destruct (so_peers _ !! p). }
  apply wps_bind. eapply wps_get_server; [rewrite Es2; apply lookup_insert_eq|].
  apply wps_bind. eapply (wps_free_socket n p); [done| |by eapply closed_resting| | |].
  - eapply closed_view; [done|by eapply view_peer].
  - eapply closed_untimed; [done|]. intros t tm Ht Hc'. change (timers_of s !! t = Some tm) in Ht.
    intros He. destruct (so_timer_cb _ _ _ _ _ _ (si_socks _ _ _ HI) t tm Ht Hc') as (q & Hq & [?|(v & Hv & Hvt & _)]); [done|].
    rewrite He in Hq. injection Hq as <-. rewrite (view_peer _ _ _ _ _ HI Hd) in Hv. by injection Hv as <-.
  - intros c' Hc'. rewrite Es2 in Hc'. destruct (xo_peer _ _ (si_contents _ _ _ I1) p d Hd1) as (_ & H2 & _).
    change (so_servers (socks_of s1) !! p = Some c') in Hc'. congruence.
  - intros s3 I3 K3 _. apply wps_ret. split_and!; [done|done|]. intros i Hi. by apply K3, (ca_array _ _ _ C2).
Qed.

(** ** Connections *)

Lemma quiet_peer_pid fd : quiet (obus_socket_peer_get_pid fd).
Proof. apply quiet_bind; [apply sock_cred|]. intros [?|?]; apply quiet_ret. Qed.

Lemma quiet_accept_setup fd : quiet (accept_setup fd).
Proof.
  apply quiet_bind; [apply quiet_cloexec|]. intros r. cbv beta. destruct (failed r); [apply quiet_ret|apply quiet_flags].
Qed.

(** The address of the other side, whatever the kernel knows of it. *)
Lemma wps_name_peer n c srv a fd len (Q : obus_socket_addr * Z -> ST -> world -> mem -> Prop) s w m :
  sock_inv None n s -> servers_of s !! srv = Some c -> address_ok a -> 0 < len ->
  (forall r s' m', sock_inv None n s' -> still s s' -> (forall z, spare z s -> spare z s') -> Q r s' w m') ->
  wps (name_peer (ks_addr c) a fd len) Q s w m.
Proof.
  intros HI Hc Ha Hlen HQ. unfold name_peer. destruct (addr_family a =? AF_UNIX).
  - destruct (xo_server _ _ (si_contents _ _ _ HI) srv c Hc) as (_ & _ & _ & _ & _ & [name Hn] & _).
    apply wps_bind. eapply wps_still; [apply quiet_peer_pid|done|]. intros pid s1 _ I1 S1 F1.
    apply wps_bind, wps_mem. eapply wp_lift; [done|]. rewrite (proj2 (Z.leb_gt _ _)) by done.
    apply wps_bind, wps_mem, wp_alloc; intros k m' _ _; apply wps_ret; by apply HQ.
  - apply wps_bind, wps_mem, wp_text; [done|]. intros name m'. apply wps_ret. by apply HQ.
Qed.

(** The new peer enters the state, and the list of its server. *)
Lemma peer_entered n s lp d c :
  sock_inv None n s -> ls_loop s = Some lp -> servers_of s !! kp_srv d = Some c -> spare (sb_fd (kp_sock d)) s ->
  let p := socket_address s in
  let s0 := set_fds (set_loop s (Some (set_ref lp (lp_ref lp + 1)))) (<[p := obus_fd_init (-1) 0 0 0]> (ls_fds s)) in
  let s1 := set_sock_peers s0 (<[p := d]> (peers_of s0)) in
  let s' := set_servers s1 (<[kp_srv d := ks_with_peers c (ks_peers c ++ [p])]> (servers_of s1)) in
  sock_inv None n s' /\ array_kept s s'.
Proof.
  intros HI El Hc HF p s0 s1 s'. destruct (socket_address_fresh s p eq_refl) as (Hf & Ht & F1 & F2 & F3).
  set (x := SState (so_clients (socks_of s)) (so_servers (socks_of s)) (<[p := d]> (so_peers (socks_of s))) (so_user (socks_of s))).
  assert (sock_inv (Some p) n s1) as I1.
  { change s1 with (set_socks s0 x). apply (sock_inv_new n s p (peer_view d) x lp); [done|done|done| |done|by intros _| |].
    - intros q. unfold view, x. cbn. rewrite lookup_insert. destruct (decide (q = p)) as [->|Hq].
      + rewrite decide_True by done. unfold clients_of, servers_of in *. unfold socks_of. by rewrite F1, F2.
      + by rewrite decide_False by congruence.
    - unfold n_socks, x. cbn. rewrite map_size_insert_None by done. lia.
    - pose proof (si_contents _ _ _ HI) as HC. destruct HC as [C1 C2 C3]. constructor; cbn.
      + intros q e He. destruct (C1 q e He) as (H1 & H2 & H3 & [?|H4] & H5); [done|].
        rewrite lookup_insert_ne by (intros <-; change (clients_of s !! p = Some e) in He; congruence).
        split_and!; try done. by right.
      + intros q e He. destruct (C2 q e He) as (H1 & H2 & H3 & [?|H4] & H5 & H6 & H7 & H8); [done|].
        rewrite lookup_insert_ne by (intros <-; change (servers_of s !! p = Some e) in He; congruence).
        split_and!; try done; [by right|]. intros r. rewrite H8. split.
        * intros [_ (d' & Hd' & Hs')]. assert (r <> p) by (intros ->; change (peers_of s !! p = Some d') in Hd'; congruence).
          split; [congruence|]. exists d'. by rewrite lookup_insert_ne by congruence.
        * intros [Hr (d' & Hd' & Hs')]. split; [done|]. rewrite lookup_insert_ne in Hd' by congruence. by exists d'.
      + intros q e. rewrite lookup_insert. case_decide; [subst; intros [= <-]|by apply C3]. by split_and!. }
  split.
  - eapply (sock_inv_listed (Some p) None n s1 p d c); [done|apply lookup_insert_eq|exact Hc|]. right. split_and!; [done..|].
    exact (unseen_untimed n s p HI (fresh_view s p eq_refl)).
  - intros i (lp1 & e & El1 & He). rewrite El in El1. injection El1 as <-. by eexists _, e.
Qed.

Lemma wps_make_peer n srv c fd a len s w m :
  sock_inv None n s -> servers_of s !! srv = Some c -> spare fd s -> address_ok a -> 0 < len ->
  wps (make_peer srv fd a len) (fun r s' _ _ => sock_inv None n s' /\ array_kept s s' /\
     forall q, r = Some q -> exists c', servers_of s' !! srv = Some c' /\ q ∈ ks_peers c') s w m.
Proof.
  intros HI Hc HF Ha Hlen. unfold make_peer. apply wps_bind. eapply wps_get_server; [done|]. cbv zeta.
  assert (forall s' w' m', sock_inv None n s' -> still s s' -> spare fd s' ->
    wps (_ ← kern (sys_close fd); mret None) (fun r s'' _ _ => sock_inv None n s'' /\ array_kept s s'' /\
     forall q, r = Some q -> exists c', servers_of s'' !! srv = Some c' /\ q ∈ ks_peers c') s' w' m') as Hclose.
  { intros s' w' m' I' S' F'. apply wps_bind. eapply wps_close_spare; [done|done|]. intros r s2 I2 S2. apply wps_ret.
    split_and!; [done| |done]. apply still_array. by etransitivity. }
  apply wps_bind. eapply wps_still; [apply quiet_accept_setup|done|]. intros ret s1 _ I1 S1 F1. specialize (F1 _ HF).
  destruct (failed ret); [by apply Hclose|].
  apply wps_bind. eapply (wps_name_peer n c srv); [done|by eapply still_server|done|done|].
  intros [pa pid] s2 m2 I2 S2 F2. specialize (F2 _ F1). cbv beta iota.
  apply wps_bind. apply (wps_mono _ (fun _ s3 _ _ => sock_inv None n s3 /\ still s2 s3 /\ spare fd s3)).
  { destruct (is_inet _); [|by apply wps_ret]. apply wps_bind. eapply wps_still; [apply quiet_keepalive|done|].
    intros r s3 _ I3 S3 F3. apply wps_ret. split_and!; [done|done|by apply F3]. }
  intros [] s3 w3 m3 (I3 & S3 & F3). apply wps_bind. eapply wps_still; [apply sock_getsockname|done|].
  intros r s4 _ I4 S4 F4. specialize (F4 _ F3).
  assert (still s s4) as S04 by (etransitivity; [exact S1|]; etransitivity; [exact S2|]; by etransitivity).
  destruct r as [bytes|e]; [|by apply Hclose].
  apply wps_bind, wps_mem, wp_text; [apply fill_ok; [apply init_ok|apply length_small]|]. intros name m5.
  apply wps_bind, wps_mem, wp_alloc; [|by intros k m6 _ _; apply Hclose]. intros k m6 _ _.
  apply wps_bind, wps_gets. set (p := socket_address s4).
  apply wps_bind. eapply (wps_base_init n); [done|]. fold p. intros lp El. apply wps_bind, wps_modify.
  pose proof (still_server _ _ _ _ S04 Hc) as Hc4. set (d := SockPeer (with_sock_fd _ fd) _ pa pid srv).
  destruct (peer_entered n s4 lp d c I4 El Hc4 F4) as [I5 K5]. fold p in I5, K5.
  apply wps_bind. eapply wps_get_server; [exact Hc4|]. apply wps_bind, wps_modify, wps_ret.
  split_and!; [exact I5|intros i Hi; exact (K5 i (still_array _ _ S04 i Hi))|]. intros q [= <-].
  eexists. split; [apply lookup_insert_eq|]. cbn. apply elem_of_app. right. by left.
Qed.

Context {SC : SocketCode K X} {LSC : LawfulSockets SC}.

Lemma wps_server_events n srv c o events s w m :
  1 <= n -> sock_inv None n s -> servers_of s !! srv = Some c -> ls_fds s !! srv = Some o ->
  wps (obus_socket_server_events srv events) (fun _ s' _ _ => sock_inv None n s' /\ array_kept s s') s w m.
Proof.
  intros Hn HI Hc Ho. unfold obus_socket_server_events. apply wps_bind. eapply wps_get_server; [done|].
  destruct (obus_fd_event_error events).
  { apply wps_bind. eapply wps_mono; [by apply wps_remove|]. intros r s1 w1 m1 (I1 & K1 & _). by apply wps_ret. }
  destruct (negb _); [by apply wps_ret|]. cbv zeta. apply wps_bind.
  eapply wps_opening; [apply sock_accept|done|]. intros r k1 Er M1 Hfd.
  pose proof (moved_inv _ _ _ _ HI M1) as I1. pose proof (moved_still _ _ M1) as S1. pose proof (still_array _ _ S1) as K1.
  destruct r as [[fd bytes]|e]; [|by apply wps_ret]. destruct Hfd as [F1 _].
  apply sock_accept_family in Er as Hb. pose proof (still_server _ _ _ _ S1 Hc) as Hc1.
  apply wps_bind. eapply wps_mono.
  { eapply (wps_make_peer n srv c fd); [done|done|done|apply fill_ok; [apply init_ok|apply length_small]|].
    destruct bytes; [done|cbn; lia]. }
  intros [q|] s2 w2 m2 (I2 & K2 & Hq).
  2:{ apply wps_ret. split; [done|]. by etransitivity. }
  destruct (Hq q eq_refl) as (c2 & Hc2 & Hin). apply wps_bind. eapply wps_get_server; [done|].
  destruct (xo_server _ _ (si_contents _ _ _ I2) srv c2 Hc2) as (_ & _ & Hcb & _).
  destruct (Z.eqb_spec (ks_cb c2) 0); [done|].
  eapply wps_mono; [by apply (lawful_accept n s2 w2 m2 srv c2 q)|]. intros [] s3 w3 m3 [I3 K3].
  split; [done|]. etransitivity; [exact K1|]. by etransitivity.
Qed.

(** The timer fires: it was armed, so the server is in no loop. *)
Lemma wps_bind_timer n p c s w m :
  sock_inv None n s -> servers_of s !! p = Some c -> resting p s -> unarmed p s ->
  wps (obus_socket_bind_timer_cb p) (fun _ s' _ _ => sock_inv None n s' /\ array_kept s s') s w m.
Proof.
  intros HI Hc HR Harm. unfold obus_socket_bind_timer_cb.
  destruct (server_timer_of _ _ _ _ HI Hc) as (t & tm & Ht & Htm & _ & Hd).
  apply wps_bind. eapply wps_server_timer; [done|done|]. apply wps_bind.
  eapply wps_mono; [eapply (wps_sock_timer_set n s t tm 0); [done|done|by left]|].
  intros r s1 w1 m1 [I1 K1 Ef Ex Ha _ _]. apply wps_bind.
  eapply wps_mono; [eapply (wps_server_bind n p c); [done| | |]|].
  - change (so_servers (socks_of s1) !! p = Some c). by rewrite Ex.
  - destruct HR as (o & Ho & Hl). exists o. by rewrite Ef.
  - intros v t' o Hv Hvt Ho Hin. rewrite Ex in Hv. rewrite Ef in Ho. by apply (Harm v t' o Hv Hvt Ho), Ha.
  - intros r2 s2 w2 m2 (I2 & K2 & _). apply wps_ret. split; [done|by etransitivity].
Qed.
End Server.
