(* ===== verification/SocketRun.v ===== *)
(** * Sockets: events, sequences of operations, scripted applications

    The events of sockets and of their timers keep the invariant whatever the
    callbacks do; so do all the operations of an application that closes a socket
    when nothing of its own watches the descriptor, and that watches the
    descriptor of a socket only when the library has done with it. *)
From S2P Require Import Prelude Mem Cstring World Bus Handler Utils Loop LoopFacts LoopRun Timer TimerFacts TimerRun Addr AddrFacts Socket SocketLaws SocketInv SocketFacts SocketOps SocketLife SocketAddr SocketClient SocketServer SocketPeer.

(** The rest of the application: its own timers and its own objects. *)
Class LawfulApp {K X : Type} {SK : SocketKernel K} {LE : LawfulEpoll K} {LT : LawfulTimer K} {LA : LawfulArm K}
    (ot : TimerCode K (sstate X)) (ol : LoopCode K (tstate (sstate X))) : Prop := {
  lawful_app_timer : forall n s w m p tm nb, 1 <= n -> sock_inv None n s -> timers_of s !! p = Some tm ->
    tm_cb tm <> BIND_TIMER -> tm_cb tm <> CONNECT_TIMER ->
    wps (timer_callback (TimerCode := ot) (tm_cb tm) p nb (tm_data tm))
        (fun _ s' _ _ => sock_inv None n s' /\ array_kept s s') s w m;
  lawful_app_object : forall n s w m p o events, 1 <= n -> sock_inv None n s -> ls_fds s !! p = Some o ->
    fd_loop o = true -> fd_cb o <> TIMER_EVENTS -> fd_cb o <> SERVER_EVENTS -> fd_cb o <> CLIENT_EVENTS ->
    wps (fd_callback (LoopCode := ol) (fd_cb o) p events (fd_data o))
        (fun _ s' _ _ => sock_inv None n s' /\ array_kept s s') s w m
}.

Section Events.
Context {K X : Type} {SK : SocketKernel K} {LE : LawfulEpoll K} {LT : LawfulTimer K} {LA : LawfulArm K}
  {LS : LawfulSocket K} {AL : Allocator} {IT : InetText} {LI : LawfulInet IT}.
#[local] Notation ST := (lstate K (tstate (sstate X))).
Implicit Types (s : ST) (w : world) (m : mem) (p q t : positive) (o : obus_fd) (v : sock_view).

(** A read that gives a count: the timer was armed, and is not any more. *)
Lemma timer_fires fuel fd k r k' :
  timer_read_eintr fuel fd k = (Some r, k') ->
  armed k' ⊆ armed k /\ forall u, r = SysOk u -> fd ∈ armed k /\ fd ∉ armed k'.
Proof.
  revert k. induction fuel as [|fuel IH]; intros k; [done|]. cbn [timer_read_eintr]. unfold mbind, KM_bind.
  pose proof (arm_read fd k) as Ha. destruct (sys_timerfd_read fd k) as [[u|e] k1] eqn:E; cbn [snd] in Ha.
  - intros [= <- <-]. split; [done|]. intros _ _. by eapply arm_fire.
  - destruct (e =? EINTR).
    + intros [H1 H2]%IH. split; [by etransitivity|]. intros u Hu. destruct (H2 u Hu). split; [by apply Ha|done].
    + intros [= <- <-]. by split.
Qed.

Lemma timer_inv_fd n s t tm : timer_inv n s -> timers_of s !! t = Some tm -> exists o, ls_fds s !! t = Some o.
Proof. intros [(lp & El & W) Hok] Ht. destruct (tk_fd _ _ (Hok lp El) t tm Ht) as (_ & o & Ho & _). by exists o. Qed.

Lemma timer_inv_cb n s t tm : timer_inv n s -> timers_of s !! t = Some tm -> tm_cb tm <> 0.
Proof. intros [(lp & El & W) Hok] Ht. by destruct (tk_fd _ _ (Hok lp El) t tm Ht) as (? & _). Qed.

Lemma view_kind_client s p v : view (socks_of s) p = Some v -> v_events v = CLIENT_EVENTS \/ v_tcb v = CONNECT_TIMER ->
  exists c, clients_of s !! p = Some c.
Proof.
  unfold view, clients_of, socks_of. destruct (so_clients _ !! p) as [c|]; [by exists c|].
  destruct (so_servers _ !! p); [intros [= <-] [?|?]; done|]. destruct (so_peers _ !! p); [intros [= <-] [?|?]; done|done].
Qed.

Lemma view_kind_server s p v : view (socks_of s) p = Some v -> v_events v = SERVER_EVENTS \/ v_tcb v = BIND_TIMER ->
  exists c, servers_of s !! p = Some c.
Proof.
  unfold view, servers_of, socks_of. destruct (so_clients _ !! p) as [c|]; [intros [= <-] [?|?]; done|].
  destruct (so_servers _ !! p) as [c|]; [by exists c|]. destruct (so_peers _ !! p); [intros [= <-] [?|?]; done|done].
Qed.

Context {SC : SocketCode K X} {LSC : LawfulSockets SC} {ot : TimerCode K (sstate X)} {ol : LoopCode K (tstate (sstate X))}
  {LAP : LawfulApp ot ol}.
#[local] Instance sock_timers : TimerCode K (sstate X) := socket_timers SC ot.

(** The timer at [t] has fired. *)
Lemma wps_sock_timer_fired n t tm nb s0 k s w m :
  1 <= n -> sock_inv None n s0 -> timers_of s0 !! t = Some tm -> s = set_kern s0 k -> sock_inv None n s ->
  (forall o, ls_fds s0 !! t = Some o -> fd_fd o ∈ armed (ls_kern s0) /\ fd_fd o ∉ armed k) ->
  wps (timer_callback (tm_cb tm) t nb (tm_data tm)) (fun _ s' _ _ => sock_inv None n s' /\ array_kept s s') s w m.
Proof.
  intros Hn I0 Ht -> HI Hfire. unfold timer_callback, sock_timers, socket_timers.
  assert (forall p v, tm_data tm = Z.pos p -> view (socks_of s0) p = Some v -> v_timer v = Some t ->
    resting p (set_kern s0 k) /\ unarmed p (set_kern s0 k)) as Hrest.
  { intros p v Hd Hv Hvt. destruct (view_object _ _ _ _ _ I0 Hv) as (_ & o & Ho & Hobj). split.
    - exists o. split; [done|]. destruct (fd_loop o) eqn:Hl; [|done]. exfalso.
      destruct (timer_inv_fd _ _ _ _ (si_timers _ _ _ I0) Ht) as (ot' & Hot').
      destruct (proj2 Hobj Hl) as (_ & _ & _ & Hna). apply (Hna t ot' Hvt); [by eexists|done|by apply Hfire].
    - intros v' t' o' Hv' Hvt' Ho'. change (view (socks_of s0) p = Some v') in Hv'. rewrite Hv in Hv'. injection Hv' as <-.
      rewrite Hvt in Hvt'. injection Hvt' as <-. by apply Hfire. }
  pose proof (si_socks _ _ _ I0) as HS. destruct (Z.eqb_spec (tm_cb tm) BIND_TIMER) as [Hb|Hb]; [|destruct (Z.eqb_spec (tm_cb tm) CONNECT_TIMER) as [Hc|Hc]].
  - destruct (so_timer_cb _ _ _ _ _ _ HS t tm Ht (or_introl Hb)) as (p & Hd & [?|(v & Hv & Hvt & Htc)]); [done|].
    rewrite Hd. destruct (view_kind_server s0 p v Hv) as [c Hc]; [right; congruence|].
    destruct (Hrest p v Hd Hv Hvt). by eapply wps_bind_timer.
  - destruct (so_timer_cb _ _ _ _ _ _ HS t tm Ht (or_intror Hc)) as (p & Hd & [?|(v & Hv & Hvt & Htc)]); [done|].
    rewrite Hd. destruct (view_kind_client s0 p v Hv) as [c Hcl]; [right; congruence|].
    destruct (Hrest p v Hd Hv Hvt). by eapply wps_connect_timer.
  - by apply (lawful_app_timer n).
Qed.

Lemma wps_sock_timer_events n t tm events s w m :
  1 <= n -> sock_inv None n s -> timers_of s !! t = Some tm ->
  wps (obus_timer_events t events (Z.pos t)) (fun _ s' _ _ => sock_inv None n s' /\ array_kept s s') s w m.
Proof.
  intros Hn HI Ht. unfold obus_timer_events. cbv zeta. cbn [Z.to_pos].
  apply wps_bind. eapply (wps_mono _ (fun _ s' _ _ => sock_inv None n s' /\ array_kept s s' /\ timers_of s' = timers_of s)).
  { destruct (obus_fd_event_error events); [|by apply wps_ret].
    apply wps_bind. eapply wps_get_timer; [done|]. destruct (timer_inv_fd _ _ _ _ (si_timers _ _ _ HI) Ht) as (o & Ho).
    apply wps_bind. eapply wps_mono; [by eapply wps_remove|]. intros r s1 w1 m1 (H1 & H2 & H3 & _). apply wps_ret.
    split_and!; [done..|]. by apply timers_same. }
  intros [] s1 w1 m1 (I1 & K1 & Et). rewrite <- Et in Ht.
  destruct (negb _); [by apply wps_ret|].
  destruct (timer_inv_fd _ _ _ _ (si_timers _ _ _ I1) Ht) as (o & Ho). destruct (sock_loop _ _ _ I1) as [lp El].
  unfold obus_timer_read. apply wps_bind, wps_bind. eapply wps_get_fd; [done|]. apply wps_bind, wps_kern.
  assert (forall e, exists r k2, timer_read_eintr (S (k_interrupts (ls_kern s1))) (fd_fd o) (ls_kern s1) = (Some r, k2) /\
    kept e (ls_kern s1) k2 /\ forall er, r = SysErr er -> 0 < er) as Hspec by (intros e; apply timer_read_spec; lia).
  destruct (Hspec 0) as (r & k2 & Er & [_ Hop] & Hpos). rewrite Er. cbn [fst snd].
  destruct (timer_fires _ _ _ _ _ Er) as [Ha Hfire].
  assert (sock_inv None n (set_kern s1 k2)) as I2.
  { apply moved_inv; [done|]. constructor; [|by rewrite Hop|done]. intros lp' _.
    destruct (Hspec (lp_epfd lp')) as (r' & k' & Er' & [Hi _] & _). rewrite Er in Er'. by injection Er' as <- <-. }
  assert (array_kept s (set_kern s1 k2)) as K2 by exact K1.
  destruct r as [u|er]; apply wps_ret.
  2:{ specialize (Hpos er eq_refl). rewrite (proj2 (failed_spec (- er))) by lia. by apply wps_ret. }
  change (failed 0) with false. cbv beta iota.
  apply wps_bind. eapply wps_get_timer; [done|].
  destruct (Z.eqb_spec (tm_cb tm) 0) as [Hz|]; [by apply (timer_inv_cb _ _ _ _ (si_timers _ _ _ I1) Ht) in Hz|].
  eapply wps_mono; [eapply (wps_sock_timer_fired n t tm u s1 k2); [done|done|done|done|done|]|].
  - intros o' Ho'. rewrite Ho in Ho'. injection Ho' as <-. by apply (Hfire u).
  - intros [] s3 w3 m3 [H1 H2]. split; [done|by etransitivity].
Qed.

#[export] Instance socket_loop_lawful : LawfulLoop (timer_loop (socket_timers SC ot) (socket_loop SC ol)) (sock_inv (X := X) None).
Proof.
  split.
  - intros n s HI. destruct (timer_inv_loop _ _ (si_timers _ _ _ HI)) as (lp & El & W). exists lp. split; [done|].
    destruct W. constructor; try done. unfold n_socks in *. lia.
  - intros n n' s k lp lp' HI El Hl Ee [K1 K2] (fuel & nn & tt' & ->) Hr. set (k' := snd _) in *.
    assert (armed k' ⊆ armed (ls_kern s)) as Ha by apply shrinks_wait_eintr.
    destruct HI as [HT HS HC HL]. split; [| |exact HC|].
    + eapply timer_inv_step; [exact HT|done| |done|by split|]; [|change (socks_of (set_loop _ _)) with (socks_of s); lia].
      destruct Hl as (lp1 & [= <-] & W). exists lp'. split; [done|]. destruct HT as [(lp0 & El0 & W0) _].
      rewrite El in El0. injection El0 as <-. pose proof (lw_ref _ _ _ _ _ W0) as H0. destruct W. constructor; try done.
      unfold n_timers in *. change (socks_of (set_loop _ _)) with (socks_of s). lia.
    + change (socks_ok None (ls_fds s) (timers_of s) (socks_of s) (opened k') (armed k')). rewrite K2. by eapply socks_mono.
    + exact (alone_kern s k' HL Ha).
  - intros n s w m p o events Hn HI Ho Hl. unfold fd_callback at 1, timer_loop.
    pose proof (si_socks _ _ _ HI) as HS. destruct (si_timers _ _ _ HI) as [(lp & El & W) Hok].
    destruct (Z.eqb_spec (fd_cb o) TIMER_EVENTS) as [Hcb|Hcb].
    { destruct (tk_timer _ _ (Hok lp El) p o Ho Hcb) as [t Ht].
      destruct (tk_fd _ _ (Hok lp El) p t Ht) as (_ & o' & Ho' & HF). rewrite Ho in Ho'. injection Ho' as <-.
      rewrite (tf_data _ _ _ _ HF). by eapply wps_sock_timer_events. }
    assert (forall v, view (socks_of s) p = Some v -> fd_cb o <> 0 -> fd_data o = Z.pos p) as Hdata.
    { intros v Hv Hne. destruct (view_object _ _ _ _ _ HI Hv) as (_ & o' & Ho' & [[?|[_ ?]] _]); congruence. }
    unfold socket_loop. destruct (Z.eqb_spec (fd_cb o) SERVER_EVENTS) as [Hs|Hs]; [|destruct (Z.eqb_spec (fd_cb o) CLIENT_EVENTS) as [Hc|Hc]].
    + destruct (so_events _ _ _ _ _ _ HS p o Ho (or_introl Hs)) as (v & Hv & He). rewrite (Hdata v Hv) by by rewrite Hs.
      destruct (view_kind_server s p v Hv) as [c Hcs]; [left; congruence|]. by eapply wps_server_events.
    + destruct (so_events _ _ _ _ _ _ HS p o Ho (or_intror Hc)) as (v & Hv & He). rewrite (Hdata v Hv) by by rewrite Hc.
      destruct (view_kind_client s p v Hv) as [c Hcc]; [left; congruence|]. by eapply wps_client_events.
    + by apply (lawful_app_object n).
Qed.
End Events.
