(* ===== verification/SocketSafe.v ===== *)
(** * Sockets: no operation goes wrong

    The operations of an application on its sockets, its timers and its objects,
    nested in its callbacks or not, and what holds between two of them.
    [sock_op_allowed] says which operations a state allows: sockets that exist,
    whose descriptor nothing else watches; the name of a server fits an object and
    its copy is not refused; and the objects and the timers of sockets are left to
    them. *)
From S2P Require Import Prelude Mem Cstring World Bus Handler Utils Loop LoopFacts LoopRun Timer TimerFacts TimerRun Addr AddrFacts Socket SocketLaws SocketInv SocketFacts SocketOps SocketLife SocketAddr SocketClient SocketServer SocketPeer SocketRun.

(** Servers are made only where the copy of a name is never refused: the name of a
    server is used without a test. *)
Class Serving (AL : Allocator) := {
  serving : bool;
  serving_ample : serving = true -> AmpleMemory AL
}.

Inductive sock_op :=
| NewClient (addr : list Z) (cb data log : Z)
| NewServer (addr : list Z) (cb data log : Z)
| Reconnect (p : positive)
| DestroyClient (p : positive)
| DestroyServer (p : positive)
| Disconnect (p : positive)
| AppOp (op : timer_op).

Section Ops.
Context {K X : Type} {SK : SocketKernel K} {LE : LawfulEpoll K} {LA : LawfulArm K}
  {AL : Allocator} {SV : Serving AL} {IT : InetText}.
#[local] Notation ST := (lstate K (tstate (sstate X))).
Implicit Types (s : ST).

Definition is_socket s (p : positive) : bool := bool_decide (is_Some (view (socks_of s) p)).

(** The socket listens, connects, or waits for its timer. *)
Definition is_busy s (p : positive) (v : sock_view) : bool :=
  match ls_fds s !! p with Some o => fd_loop o | None => false end ||
  match v_timer v with
  | None => false
  | Some t => bool_decide (is_Some (timers_of s !! t)) &&
      match ls_fds s !! t with Some o => bool_decide (fd_fd o ∈ armed (ls_kern s)) | None => false end
  end.

(** The descriptor of a busy socket. *)
Definition busy_fd s (fd : Z) : bool :=
  existsb (fun p => match view (socks_of s) p with Some v => (v_fd v =? fd) && is_busy s p v | None => false end)
    (map fst (map_to_list (ls_fds s))).

(** No object but [p] watches the descriptor. *)
Definition is_alone s (fd : Z) (p : positive) : bool :=
  forallb (fun x => bool_decide (x.1 = p) || negb (fd_loop x.2) || negb (watched_fd x.2 =? fd)) (map_to_list (ls_fds s)).

Definition own_timer s (p : positive) : bool :=
  match timers_of s !! p with
  | Some tm => negb (tm_cb tm =? BIND_TIMER) && negb (tm_cb tm =? CONNECT_TIMER)
  | None => true
  end.
Definition own_callback (cb : Z) : bool := negb (cb =? SERVER_EVENTS) && negb (cb =? CLIENT_EVENTS).

(** The application leaves alone the objects and the timers of its sockets, and does
    not watch the descriptor of a busy one. *)
Definition app_op_ok s (op : timer_op) : bool :=
  match op with
  | TimerNew cb _ => negb (cb =? BIND_TIMER) && negb (cb =? CONNECT_TIMER)
  | TimerSet p _ | TimerClear p | TimerDestroy p => own_timer s p
  | OwnOp op =>
    own_op_ok s op &&
    match op with
    | LoopInit p _ _ cb _ => negb (is_socket s p) && own_callback cb
    | LoopReset p | LoopFree p | LoopUpdate p | LoopRemove p => negb (is_socket s p)
    | LoopAdd p =>
      negb (is_socket s p) && match ls_fds s !! p with Some o => negb (busy_fd s (fd_fd o)) | None => true end
    | LoopProcess | LoopWait | LoopHold => true
    end
  end.

(** A server has a name only where memory for it is not refused; a socket is closed
    while it is there and nothing else watches its descriptor. *)
Definition sock_op_allowed s (op : sock_op) : bool :=
  match op with
  | NewClient _ _ _ _ => true
  | NewServer addr _ _ _ => serving && (Z.of_nat (length addr) <? PTRDIFF_MAX)
  | Reconnect p | DestroyClient p =>
    match clients_of s !! p with Some c => is_alone s (sb_fd (kc_sock c)) p | None => false end
  | DestroyServer p => match servers_of s !! p with Some c => is_alone s (sb_fd (ks_sock c)) p | None => false end
  | Disconnect p => match peers_of s !! p with Some d => is_alone s (sb_fd (kp_sock d)) p | None => false end
  | AppOp op => app_op_ok s op
  end.

Definition run_sock_op {LC : LoopCode K (tstate (sstate X))} (op : sock_op) : SM K X unit :=
  match op with
  | NewClient addr cb data log => _ ← obus_socket_client_new addr cb data log; mret tt
  | NewServer addr cb data log => _ ← obus_socket_server_new addr cb data log; mret tt
  | Reconnect p => _ ← obus_socket_client_reconnect p; mret tt
  | DestroyClient p => _ ← obus_socket_client_destroy p; mret tt
  | DestroyServer p => _ ← obus_socket_server_destroy p; mret tt
  | Disconnect p => _ ← obus_socket_peer_disconnect p; mret tt
  | AppOp op => run_timer_op op
  end.

(** An application that makes the operations the state allows. *)
Definition allowed_sock_op {LC : LoopCode K (tstate (sstate X))} (op : sock_op) : SM K X unit :=
  s ← sv_gets id; if sock_op_allowed s op : bool then run_sock_op op else mret tt.

Fixpoint run_sock_ops {LC : LoopCode K (tstate (sstate X))} (l : list sock_op) : SM K X unit :=
  match l with
  | [] => mret tt
  | op :: l' => allowed_sock_op op;; run_sock_ops l'
  end.

(** Each callback runs a script; [n] callbacks inside each other. *)
Record sock_code := SockCode {
  sc_user : SocketCode K X;
  sc_timers : TimerCode K (sstate X);
  sc_objects : LoopCode K (tstate (sstate X))
}.

Definition code_loop (c : sock_code) : LoopCode K (tstate (sstate X)) :=
  timer_loop (socket_timers (sc_user c) (sc_timers c)) (socket_loop (sc_user c) (sc_objects c)).

Fixpoint scripted_sockets (script : Z -> positive -> list sock_op) (n : nat) : sock_code :=
  match n with
  | O => SockCode {| connected_callback _ _ _ := mret tt; accept_callback _ _ _ _ := mret tt |}
           (fun _ _ _ _ => mret tt) (fun _ _ _ _ => mret tt)
  | S n' =>
    let run cb p := run_sock_ops (LC := code_loop (scripted_sockets script n')) (script cb p) in
    SockCode {| connected_callback cb p _ := run cb p; accept_callback cb _ peer _ := run cb peer |}
      (fun cb p _ _ => run cb p) (fun cb p _ _ => run cb p)
  end.
End Ops.
Arguments sock_code : clear implicits.

Section Safe.
Context {K X : Type} {SK : SocketKernel K} {LE : LawfulEpoll K} {LT : LawfulTimer K} {LA : LawfulArm K}
  {LS : LawfulSocket K} {AL : Allocator} {SV : Serving AL} {IT : InetText} {LI : LawfulInet IT}.
#[local] Notation ST := (lstate K (tstate (sstate X))).
Implicit Types (s : ST) (w : world) (m : mem) (p q t : positive) (o : obus_fd) (v : sock_view).

Lemma is_socket_false s p : is_socket s p = false -> view (socks_of s) p = None.
Proof. intros H%bool_decide_eq_false. by apply eq_None_not_Some. Qed.

Lemma is_busy_spec s p v : busy s p v -> is_busy s p v = true.
Proof.
  unfold is_busy. intros [(o & -> & ->)|(t & o & -> & Ht & -> & Hin)]; [done|].
  rewrite !bool_decide_true by done. by rewrite orb_true_r.
Qed.

Lemma is_alone_spec s fd p : is_alone s fd p = true -> alone fd p s.
Proof.
  unfold is_alone. rewrite forallb_forall. intros H q o Hq Ho Hl He.
  specialize (H (q, o)). rewrite <- list_elem_of_In, elem_of_map_to_list in H. specialize (H Ho). cbn in H.
  rewrite bool_decide_false, Hl, He, Z.eqb_refl in H by done. done.
Qed.

Lemma busy_fd_false n s fd p v :
  sock_inv None n s -> busy_fd s fd = false -> view (socks_of s) p = Some v -> busy s p v -> v_fd v <> fd.
Proof.
  intros HI H Hv Hb%is_busy_spec He. destruct (view_object _ _ _ _ _ HI Hv) as (_ & o & Ho & _).
  assert (busy_fd s fd = true) as Ht; [|congruence]. apply existsb_exists. exists p. split.
  - apply in_map_iff. exists (p, o). split; [done|]. by apply list_elem_of_In, elem_of_map_to_list.
  - rewrite Hv, He, Hb, Z.eqb_refl. done.
Qed.

Lemma view_tcb s p v t : view (socks_of s) p = Some v -> v_timer v = Some t -> v_tcb v = BIND_TIMER \/ v_tcb v = CONNECT_TIMER.
Proof.
  unfold view. destruct (so_clients _ !! p); [intros [= <-]; by right|].
  destruct (so_servers _ !! p); [intros [= <-]; by left|]. destruct (so_peers _ !! p); [by intros [= <-]|done].
Qed.

Lemma own_timer_free n s t tm p v :
  sock_inv None n s -> own_timer s t = true -> timers_of s !! t = Some tm -> view (socks_of s) p = Some v -> v_timer v <> Some t.
Proof.
  intros HI Ho Ht Hv Hvt. destruct (so_timer _ _ _ _ _ _ (si_socks _ _ _ HI) p v t Hv) as (tm' & H1 & H2 & _); [done|done|].
  rewrite Ht in H1. injection H1 as <-. unfold own_timer in Ho. rewrite Ht in Ho.
  apply andb_true_iff in Ho as [H3%negb_true_iff%Z.eqb_neq H4%negb_true_iff%Z.eqb_neq].
  destruct (view_tcb _ _ _ _ Hv Hvt); congruence.
Qed.

(** An object of the application that is in no loop may change freely. *)
Lemma idle_sock_inv n s p fds :
  sock_inv None n s -> view (socks_of s) p = None -> timers_of s !! p = None ->
  (forall o, ls_fds s !! p = Some o -> fd_loop o = false) ->
  (forall q, q <> p -> fds !! q = ls_fds s !! q) ->
  (forall o, fds !! p = Some o -> fd_loop o = false /\ fd_dupfd o = -1 /\ fd_cb o <> TIMER_EVENTS /\
     fd_cb o <> SERVER_EVENTS /\ fd_cb o <> CLIENT_EVENTS) ->
  sock_inv None n (set_fds s fds) /\ array_kept s (set_fds s fds).
Proof.
  intros HI Hv Hp Hl Hq Hnew. pose proof HI as [HT HS HC HL].
  destruct (idle_timer_inv _ s p fds HT Hp Hl Hq) as [HT' K'].
  { intros o Ho. by destruct (Hnew o Ho) as (? & ? & ? & _). }
  split; [|done]. split; [done| |done|].
  - cbn. apply (socks_frame None (ls_fds s) _ _ _ (opened (ls_kern s)) _ (armed (ls_kern s)) _ HS).
    + intros q v o Hqv Ho Hobj. assert (q <> p) by congruence. exists o. rewrite Hq by done. split; [done|].
      eapply object_ok_arm; [done|done|]. intros t ot _ [tm Ht] Hot. change (timers_of s !! t = Some tm) in Ht.
      rewrite Hq in Hot by congruence. split; [by eexists|by exists ot].
    + intros t o [tm Ht]. change (timers_of s !! t = Some tm) in Ht. rewrite Hq by congruence. intros Ho. by exists o.
    + intros q o Ho Hcb. destruct (decide (q = p)) as [->|Hn]; [destruct (Hnew o Ho) as (_ & _ & _ & ? & ?); by destruct Hcb|].
      rewrite Hq in Ho by done. by apply (so_events _ _ _ _ _ _ HS q o).
    + intros r v q o Hrv Hne Ho. destruct (decide (q = p)) as [->|Hn]; [destruct (Hnew o Ho) as (_ & -> & _); congruence|].
      rewrite Hq in Ho by done. by apply (so_not_dup _ _ _ _ _ _ HS r v q o).
    + intros q v Hqv Hne. by apply (so_open _ _ _ _ _ _ HS q v).
  - apply (alone_frame s); [done|..]; cbn.
    + intros q v Hqv Hb. change (view (socks_of s) q = Some v) in Hqv. right. exists v. split_and!; [done..|].
      destruct Hb as [(o & Ho & Hlo)|(t & o & H1 & [tm H2] & H3 & H4)]; cbn in *.
      * left. exists o. by rewrite Hq in Ho by congruence.
      * right. change (timers_of s !! t = Some tm) in H2. exists t, o. rewrite Hq in H3 by congruence.
        split_and!; [done|by eexists|done|done].
    + intros q o Ho Hlo. destruct (decide (q = p)) as [->|Hn]; [destruct (Hnew o Ho); congruence|].
      exists o. by rewrite Hq in Ho by done.
Qed.

(** The registration of an object of the application. *)
Lemma wps_app_add n s p o w m :
  sock_inv None n s -> ls_fds s !! p = Some o -> view (socks_of s) p = None -> timers_of s !! p = None ->
  timer_owns s (fd_fd o) = false -> busy_fd s (fd_fd o) = false ->
  wps (obus_loop_add p) (fun _ s' _ _ => sock_inv None n s' /\ array_kept s s') s w m.
Proof.
  intros HI Ho Hv Hp Hown Hbusy. pose proof HI as [HT HS HC HL].
  eapply wps_mono; [apply (wps_keeps (fun _ => True) armed_le); [apply loop_add_armed|done|]; eapply wps_loop_add; [apply HT|exact Ho]|].
  intros ret s' w' m' [(_ & _ & HA) [_ Ha]]. unfold armed_le in Ha.
  destruct (add_post_inv _ p o s ret s' Ho HA (proj1 HT)) as [_ K']. split; [|done]. unfold add_post in HA.
  destruct (_ || (fd_cb o =? 0)) eqn:Eg; [by destruct HA as [_ ->]|]. destruct (fd_loop o) eqn:Hl; [by destruct HA as [_ ->]|].
  apply orb_false_iff in Eg as [_ Hc0%Z.eqb_neq].
  destruct HA as [[_ HU]|[_ [d RG]]]; [by eapply sock_inv_untouched|].
  pose proof RG as [F Eu (lp & El & Hpl & El' & HW)].
  assert (timers_of s' = timers_of s) as Et by by apply timers_same.
  assert (socks_of s' = socks_of s) as Ex by (unfold socks_of; by rewrite Eu).
  assert (forall q v, view (socks_of s) q = Some v -> v_fd v <> -1 -> d <> v_fd v) as Hd.
  { intros q v Hq Hne. pose proof (so_open _ _ _ _ _ _ HS q v Hq Hne). destruct (wt_dup _ _ _ _ _ _ HW) as [[-> _]|(_ & Hn & _)]; congruence. }
  split; rewrite ?Ex; [| |done|].
  - eapply add_timer_inv; [done|done|done| |intros [? ?]; congruence|exact RG|done].
    intros q o' Hq Ho' He. by destruct (timer_owns_false _ _ _ _ Hown Hq Ho').
  - rewrite F, Et. eapply (socks_object None _ _ _ (opened (ls_kern s)) _ (armed (ls_kern s)) _ p o); [exact HS|exact Ho|..|done].
    + intros v Hpv. congruence.
    + intros [? ?]. congruence.
    + intros Hc. by apply (so_events _ _ _ _ _ _ HS p o).
    + intros q v Hq Hne. by apply (Hd q v).
    + intros q v Hq Hne. apply (watches_sub _ _ _ _ _ _ HW). by apply (so_open _ _ _ _ _ _ HS q v).
  - eapply alone_object; [exact HL|exact Ho|exact F|done|done|done|intros [? ?]; congruence|]. intros _. split; [|congruence].
    intros q v _ Hq Hb. pose proof (wt_range _ _ _ _ _ _ HW) as Hr.
    change (watched_fd (with_dupfd o d) <> v_fd v). unfold watched_fd in *. cbn in *.
    destruct (Z.eqb_spec d (-1)) as [->|Hd1]; [by apply not_eq_sym, (busy_fd_false n s _ q v)|].
    destruct (decide (v_fd v = -1)) as [->|Hne]; [lia|by apply (Hd q v)].
Qed.

Context {SC : SocketCode K X} {LSC : LawfulSockets SC} {ot : TimerCode K (sstate X)} {ol : LoopCode K (tstate (sstate X))}
  {LAP : LawfulApp ot ol}.
#[local] Instance LC : LoopCode K (tstate (sstate X)) := timer_loop (socket_timers SC ot) (socket_loop SC ol).

(** The operations of the application on its objects. *)
Lemma wps_app_object_op n op s w m :
  1 <= n -> sock_inv None n s -> app_op_ok s (OwnOp op) = true ->
  wps (run_loop_op op) (fun _ s' _ _ => sock_inv None n s' /\ array_kept s s') s w m.
Proof.
  intros Hn HI [Hown Hop]%andb_true_iff. pose proof HI as [HT HS HC HL].
  destruct op as [p fd ev cb d|p|p|p|p|p| | |]; cbn [run_loop_op own_op_ok] in *.
  - apply andb_true_iff in Hown as [Ht%negb_true_iff%is_timer_false Hcb%negb_true_iff%Z.eqb_neq].
    apply andb_true_iff in Hop as [Hv%negb_true_iff%is_socket_false [H1%negb_true_iff%Z.eqb_neq H2%negb_true_iff%Z.eqb_neq]%andb_true_iff].
    unfold when_idle. apply wps_bind, wps_gets. unfold obus_fd_is_used.
    destruct (ls_fds s !! p) as [o|] eqn:Ho; [destruct (fd_loop o) eqn:Hl; [by apply wps_ret|]|];
      apply wps_modify, (idle_sock_inv n s p); try done; try (intros q Hq; by rewrite lookup_insert_ne);
      try (intros o'; rewrite lookup_insert_eq; by intros [= <-]); intros o'; congruence.
  - apply negb_true_iff, is_timer_false in Hown. apply negb_true_iff, is_socket_false in Hop.
    unfold on_live. apply wps_bind, wps_gets. destruct (ls_fds s !! p) as [o|] eqn:Ho; [|by apply wps_ret].
    apply wps_bind. eapply wps_get_fd; [done|]. unfold obus_fd_reset. destruct (fd_loop o) eqn:Hl; apply wps_modify.
    + cbn. by rewrite put_fd_same.
    + apply (idle_sock_inv n s p); [done|done|done|congruence|intros q Hq; by rewrite lookup_insert_ne|].
      intros o'. rewrite lookup_insert_eq. by intros [= <-].
  - apply negb_true_iff, is_timer_false in Hown. apply negb_true_iff, is_socket_false in Hop.
    unfold when_idle. apply wps_bind, wps_gets. unfold obus_fd_is_used.
    destruct (ls_fds s !! p) as [o|] eqn:Ho; [destruct (fd_loop o) eqn:Hl; [by apply wps_ret|]|];
      apply wps_modify, (idle_sock_inv n s p); try done; try (intros q Hq; by rewrite lookup_delete_ne);
      try (intros o'; by rewrite lookup_delete_eq); intros o'; congruence.
  - apply andb_true_iff in Hown as [Ht%negb_true_iff%is_timer_false Hfd].
    apply andb_true_iff in Hop as [Hv%negb_true_iff%is_socket_false Hb].
    unfold on_live. apply wps_bind, wps_gets. destruct (ls_fds s !! p) as [o|] eqn:Ho; [|by apply wps_ret].
    apply negb_true_iff in Hfd, Hb.
    apply wps_bind. eapply wps_mono; [by eapply wps_app_add|]. intros ret s' w' m' H. by apply wps_ret.
  - unfold on_live. apply wps_bind, wps_gets. destruct (ls_fds s !! p) as [o|] eqn:Ho; [|by apply wps_ret].
    apply wps_bind. eapply wps_mono; [apply (wps_keeps (fun _ => True) armed_le); [apply loop_update_armed|done|]; eapply wps_loop_update; [apply HT|exact Ho]|].
    intros ret s' w' m' [(_ & _ & H & _) [_ Ha]]. apply wps_ret. split; [by eapply sock_inv_untouched|by apply untouched_array].
  - unfold on_live. apply wps_bind, wps_gets. destruct (ls_fds s !! p) as [o|] eqn:Ho; [|by apply wps_ret].
    apply wps_bind. eapply wps_mono; [by eapply wps_remove|]. intros ret s' w' m' (H1 & H2 & _). by apply wps_ret.
  - apply wps_bind. eapply wps_mono; [by apply (wps_do_process n)|]. intros ret s' w' m' (_ & I' & K'). by apply wps_ret.
  - apply wps_bind. eapply wps_mono; [by apply (wps_do_process n)|]. intros ret s' w' m' (_ & I' & K'). by apply wps_ret.
  - eapply wps_loop_ref; [apply HT|]. intros lp El s' [lp' [El' W']] K'. split; [|done].
    split; [|exact HS|exact HC|exact HL]. apply (timer_inv_restored _ s s' lp (lp_ref lp + 1)); try done. lia.
Qed.

Lemma wps_app_op n op s w m :
  1 <= n -> sock_inv None n s -> app_op_ok s op = true ->
  wps (run_timer_op op) (fun _ s' _ _ => sock_inv None n s' /\ array_kept s s') s w m.
Proof.
  intros Hn HI Hop. destruct op as [cb d|p t|p|p|op]; cbn [run_timer_op].
  5:{ apply wps_bind, wps_gets. cbn [id]. destruct (own_op_ok s op); [|by apply wps_ret]. by apply wps_app_object_op. }
  - apply andb_true_iff in Hop as [H1%negb_true_iff%Z.eqb_neq H2%negb_true_iff%Z.eqb_neq].
    apply wps_bind. eapply wps_mono; [apply (wps_sock_timer_new None n); [done|done|by intros [?|?]|done]|].
    intros r s' w' m' (I' & K' & _). by apply wps_ret.
  - unfold when_timer, is_timer. apply wps_bind, wps_gets. cbn [id]. case_bool_decide as Hp; [|by apply wps_ret].
    destruct Hp as [t0 Ht]. apply wps_bind. eapply wps_mono; [eapply wps_sock_timer_set; [done|done|right]|].
    { intros q v o Hv Hvt. by destruct (own_timer_free n s p t0 q v HI Hop Ht Hv). }
    intros r s' w' m' [I' K' _ _ _ _ _]. by apply wps_ret.
  - unfold when_timer, is_timer. apply wps_bind, wps_gets. cbn [id]. case_bool_decide as Hp; [|by apply wps_ret].
    destruct Hp as [t0 Ht]. apply wps_bind. eapply wps_mono; [eapply wps_sock_timer_set; [done|done|by left]|].
    intros r s' w' m' [I' K' _ _ _ _ _]. by apply wps_ret.
  - unfold when_timer, is_timer. apply wps_bind, wps_gets. cbn [id]. case_bool_decide as Hp; [|by apply wps_ret].
    destruct Hp as [t0 Ht]. apply wps_bind. eapply wps_mono; [eapply (wps_sock_timer_destroy None None n p t0); [done|done|done|by left| |apply HI]|].
    { intros q v Hv Hvt. by destruct (own_timer_free n s p t0 q v HI Hop Ht Hv). }
    intros r s' w' m' (_ & I' & K' & _). by apply wps_ret.
Qed.

Lemma wps_sock_op n op s w m :
  1 <= n -> sock_inv None n s -> sock_op_allowed s op = true ->
  wps (run_sock_op op) (fun _ s' _ _ => sock_inv None n s' /\ array_kept s s') s w m.
Proof.
  intros Hn HI. destruct op as [addr cb d log|addr cb d log|p|p|p|p|op]; cbn [run_sock_op sock_op_allowed].
  - intros _. apply wps_bind. eapply wps_mono; [by apply (wps_client_new n)|]. intros r s' w' m' H. by apply wps_ret.
  - intros [Es Hlen%Z.ltb_lt]%andb_true_iff. pose proof (serving_ample Es) as AM.
    apply wps_bind. eapply wps_mono; [by apply (wps_server_new n)|]. intros r s' w' m' H'. by apply wps_ret.
  - destruct (clients_of s !! p) as [c|] eqn:Hc; [|done]. intros Ha%is_alone_spec.
    apply wps_bind. eapply wps_mono; [by eapply wps_reconnect|]. intros r s' w' m' H. by apply wps_ret.
  - destruct (clients_of s !! p) as [c|] eqn:Hc; [|done]. intros Ha%is_alone_spec.
    apply wps_bind. eapply wps_mono; [by eapply wps_client_destroy|]. intros r s' w' m' (_ & H). by apply wps_ret.
  - destruct (servers_of s !! p) as [c|] eqn:Hc; [|done]. intros Ha%is_alone_spec.
    apply wps_bind. eapply wps_mono; [by eapply wps_server_destroy|]. intros r s' w' m' (H1 & H2 & _). by apply wps_ret.
  - destruct (peers_of s !! p) as [c|] eqn:Hc; [|done]. intros Ha%is_alone_spec.
    apply wps_bind. eapply wps_mono; [by eapply wps_peer_disconnect|]. intros r s' w' m' (_ & H). by apply wps_ret.
  - intros Ho. by apply wps_app_op.
Qed.

Lemma wps_allowed_sock_op n op s w m :
  1 <= n -> sock_inv None n s ->
  wps (allowed_sock_op op) (fun _ s' _ _ => sock_inv None n s' /\ array_kept s s') s w m.
Proof.
  intros Hn HI. apply wps_bind, wps_gets. destruct (sock_op_allowed (id s) op) eqn:Ha; [by apply wps_sock_op|by apply wps_ret].
Qed.

Lemma wps_sock_ops n ops s w m :
  1 <= n -> sock_inv None n s ->
  wps (run_sock_ops ops) (fun _ s' _ _ => sock_inv None n s' /\ array_kept s s') s w m.
Proof.
  intros Hn. revert s w m. induction ops as [|op ops IH]; intros s w m I; cbn [run_sock_ops]; [by apply wps_ret|].
  apply wps_bind. eapply wps_mono; [by apply (wps_allowed_sock_op n)|]. intros [] s1 w1 m1 [I1 K1].
  eapply wps_mono; [by apply IH|]. intros [] s2 w2 m2 [I2 K2]. split; [done|by etransitivity].
Qed.

(** ** Reachable states *)

Inductive sockets_reachable : ST -> Prop :=
| sockets_new k m lp k' m' u :
    obus_loop_new k m = Some ((Some lp, k'), m') ->
    sockets_reachable (LState k' (Some lp) ∅ (TState ∅ (SState ∅ ∅ ∅ u)))
| sockets_op op s w m s' w' m' :
    sockets_reachable s -> sock_op_allowed s op = true -> run_sock_op op s w m = Some ((tt, s'), w', m') -> sockets_reachable s'.

Lemma sockets_reachable_inv s : sockets_reachable s -> sock_inv None 1 s.
Proof.
  induction 1 as [k m lp k' m' u H|op s w m s' w' m' _ IH Ha E].
  - assert (forall q, view (SState ∅ ∅ ∅ u) q = None) as Hv by done. split.
    + split; [by eapply loop_new_inv|]. intros lp0 _. constructor; unfold timers_of; cbn.
      * intros p t H'. by rewrite lookup_empty in H'.
      * intros p q o o' [t H']. by rewrite lookup_empty in H'.
      * intros p o H'. by rewrite lookup_empty in H'.
    + constructor; try done; intros *; by rewrite lookup_empty.
    + constructor; intros p c H'; cbn in H'; by rewrite lookup_empty in H'.
    + by intros p v H'.
  - destruct (wps_sock_op 1 op s w m ltac:(lia) IH Ha) as ([[a s1] w1] & m1 & E1 & [I1 _]).
    rewrite E in E1. by injection E1 as <- <- <- <-.
Qed.

(** A client whose attempt on [fd] has failed, [k] being the kernel by then: the
    descriptor is closed, the client is in no loop and has no descriptor, and the
    kernel has been asked, last of all, to set its timer to the interval between two
    attempts: the timer has it, unless the kernel has refused. *)
Definition attempted_again p (c : obus_socket_client) fd k s s' : Prop :=
  clients_of s' !! p = Some (kc_with_sock c (with_sock_fd (kc_sock c) (-1))) /\
  (exists o', ls_fds s' !! p = Some o' /\ fd_loop o' = false) /\
  fd ∉ opened (ls_kern s') /\
  exists t tm o, kc_timer c = Some t /\ timers_of s !! t = Some tm /\ ls_fds s !! t = Some o /\
    let '(r, k') := sys_timerfd_settime (fd_fd o) (timer_value OBUS_SOCKET_CONN_INTVL) (snd (sys_close fd k)) in
    ls_kern s' = k' /\
    timers_of s' = match r with
                   | SysErr _ => timers_of s
                   | SysOk _ => <[t := Timer OBUS_SOCKET_CONN_INTVL CONNECT_TIMER (Z.pos p)]> (timers_of s)
                   end.

(** From the state where the next attempt is decided on. *)
Lemma wps_attempted p c s s1 w m :
  sock_inv None 1 s -> sock_inv None 1 s1 -> clients_of s1 !! p = Some c -> resting p s1 ->
  sb_fd (kc_sock c) <> -1 -> unwatched (sb_fd (kc_sock c)) s1 ->
  timers_of s1 = timers_of s -> (forall t, t <> p -> ls_fds s1 !! t = ls_fds s !! t) ->
  wps (retry_later p) (fun _ s' _ _ => attempted_again p c (sb_fd (kc_sock c)) (ls_kern s1) s s') s1 w m.
Proof.
  intros I I1 Hc HR Hn HU Et Ef.
  eapply wps_mono; [by apply (wps_retry_later 1 p c)|].
  intros [] s2 w2 m2 [_ _ Hc2 R2 Hop2 (t & tm & Ht & Htm & o & Ho & HA)].
  destruct (client_timer_of _ _ _ _ I1 Hc) as (t' & tm' & Ht' & Htm' & H1 & H2).
  rewrite Ht in Ht'. injection Ht' as <-. rewrite Htm in Htm'. injection Htm' as <-.
  split_and!; [exact Hc2|exact R2|rewrite Hop2; set_solver|].
  assert (t <> p) as Htp.
  { intros ->. destruct (view_object _ _ _ _ _ I1 (view_client _ _ _ Hc)) as (Hpt & _). congruence. }
  cbn in Ho, HA. rewrite Ef in Ho by done. rewrite Et in Htm. exists t, tm, o. split_and!; [done..|].
  destruct (sys_timerfd_settime _ _ _) as [r k']. destruct HA as [-> ->]. split; [done|].
  unfold timers_of in *. cbn in *. by rewrite H1, H2, Et.
Qed.

(** An attempt whose connect() fails. *)
Lemma wps_connect_refused p c fd s s1 w m w1 m1 e k :
  sock_inv None 1 s1 -> clients_of s !! p = Some c -> resting p s -> moved_fd p fd s s1 -> fd <> -1 -> unwatched fd s1 ->
  obus_socket_base_open p s w m = Some ((0, s1), w1, m1) ->
  sys_connect fd (addr_bytes (kc_peer_addr c)) (ls_kern s1) = (SysErr e, k) -> e <> EINPROGRESS ->
  sock_inv None 1 s ->
  wps (obus_socket_client_do_connect p)
      (fun _ s' _ _ => attempted_again p (with_client_fd c fd) fd k s s') s w m.
Proof.
  intros I1 Hc HR M1 Hfd HU E Ek He I. pose proof (moved_client _ _ _ _ _ Hc M1) as Hc1.
  destruct (moved_fd_resting _ p _ _ _ M1 HR) as (o & Ho & Hl).
  assert (timers_of s1 = timers_of s /\ ls_fds s1 = ls_fds s) as [Et Ef] by (by destruct M1 as (s0 & (k0 & -> & _) & ->)).
  unfold obus_socket_client_do_connect. apply wps_bind, (wps_at _ _ _ _ _ _ _ _ _ E). cbn [failed Z.ltb Z.compare].
  apply wps_bind. eapply wps_get_client; [done|]. cbv zeta.
  apply wps_bind, (wps_put_events 1 p _ o fd OBUS_FD_OUT _ s1 w1 m1 I1 (view_client _ _ _ Hc1) Ho Hl).
  cbv zeta. intros I2 _. set (s2 := set_fds s1 _) in *.
  apply wps_bind, wps_quiet; [apply sock_connect|]. cbn [sb_fd kc_sock kc_with_sock with_client_fd with_sock_fd kc_peer_addr].
  change (ls_kern s2) with (ls_kern s1). rewrite Ek. intros r k2 [= <- <-] HM _.
  rewrite (proj2 (Z.eqb_neq e EINPROGRESS) He).
  change k with (ls_kern (set_kern s2 k)) at 1.
  apply (wps_attempted p (with_client_fd c fd) s (set_kern s2 k)); try done.
  - by apply moved_inv.
  - eexists. split; [apply lookup_insert_eq|done].
  - eapply still_unwatched; [by apply moved_still|exact HU].
  - intros t Ht. cbn. by rewrite lookup_insert_ne, Ef.
Qed.

(** C34: a connection that has failed is attempted again.  When the client is woken up
    and the event is an error or a hangup, or the error of its socket (SO_ERROR) is
    not 0 or cannot be read; and when an attempt opens a socket, and connect()
    fails with another code than EINPROGRESS: the descriptor is closed, the client
    leaves the loop, and the kernel is asked to set its timer to the interval
    between two attempts, which is the value of the timer unless it refuses. *)
Theorem failed_connection_retries s p c w m :
  sockets_reachable s -> clients_of s !! p = Some c ->
  (forall o events r s1 w1 m1 k, ls_fds s !! p = Some o -> fd_loop o = true ->
     obus_loop_remove p s w m = Some ((r, s1), w1, m1) ->
     (if obus_fd_event_error events then k = ls_kern s1
      else exists err, sys_socket_error (sb_fd (kc_sock c)) (ls_kern s1) = (err, k) /\ err <> inl 0) ->
     sb_fd (kc_sock c) ∈ opened (ls_kern s) /\
     wps (obus_socket_client_events p events)
         (fun _ s' _ _ => attempted_again p c (sb_fd (kc_sock c)) k s s') s w m) /\
  (forall s1 w1 m1 c1 e k, resting p s ->
     obus_socket_base_open p s w m = Some ((0, s1), w1, m1) -> clients_of s1 !! p = Some c1 ->
     sys_connect (sb_fd (kc_sock c1)) (addr_bytes (kc_peer_addr c)) (ls_kern s1) = (SysErr e, k) -> e <> EINPROGRESS ->
     wps (obus_socket_client_do_connect p)
         (fun _ s' _ _ => attempted_again p c1 (sb_fd (kc_sock c1)) k s s') s w m).
Proof.
  intros I%sockets_reachable_inv Hc. pose proof (view_client _ _ _ Hc) as Hv. split.
  - intros o events r s1 w1 m1 k Ho Hl E Hk. destruct (view_object _ _ _ _ _ I Hv) as (_ & o' & Ho' & Hobj).
    rewrite Ho in Ho'. injection Ho' as <-. destruct (proj2 Hobj Hl) as (Hd & Hfd & Hn1 & _). cbn in Hfd, Hn1.
    split; [by apply (so_open _ _ _ _ _ _ (si_socks _ _ _ I) p _ Hv)|].
    pose proof (wps_remove None 1 s p o w m I Ho) as HW.
    apply (wps_at _ _ _ _ _ _ _ _ _ E) in HW as (I1 & _ & Eu & _ & Ef & _ & HU). specialize (HU Hl).
    unfold watched_fd in HU. rewrite Hd, Hfd in HU. change (unwatched (sb_fd (kc_sock c)) s1) in HU.
    assert (clients_of s1 !! p = Some c) as Hc1 by (unfold clients_of; by rewrite Eu).
    assert (resting p s1) as R1 by (eexists; by rewrite Ef, lookup_insert_eq).
    assert (timers_of s1 = timers_of s) as Et by by apply timers_same.
    assert (forall t, t <> p -> ls_fds s1 !! t = ls_fds s !! t) as Ef1 by (intros t Ht; by rewrite Ef, lookup_insert_ne).
    unfold obus_socket_client_events. apply wps_bind. eapply wps_get_client; [done|]. apply wps_bind.
    apply (wps_at _ _ _ _ _ _ _ _ _ E), wps_bind. destruct (obus_fd_event_error events).
    + subst k. apply wps_ret. change (-1 =? 0) with false. cbv iota. by apply wps_attempted.
    + destruct Hk as (err & Ek & He). apply wps_bind, wps_quiet; [apply sock_error|].
      rewrite Ek. intros r2 k2 [= <- <-] HM _. apply wps_ret. rewrite (proj2 (Z.eqb_neq _ 0)) by by destruct err; [congruence|].
      change k with (ls_kern (set_kern s1 k)). apply (wps_attempted p c s (set_kern s1 k)); try done.
      * by apply moved_inv.
      * eapply still_unwatched; [by apply moved_still|done].
  - intros s1 w1 m1 c1 e k HR E Hc1 Ek He.
    pose proof (wps_base_open None 1 p _ s w m I Hv HR) as HW.
    apply (wps_at _ _ _ _ _ _ _ _ _ E) in HW as (I1 & [[? _]|(_ & fd & Hfd & HU & M1 & _)]); [lia|].
    rewrite (moved_client _ _ _ _ _ Hc M1) in Hc1. injection Hc1 as <-.
    by eapply wps_connect_refused.
Qed.

(** Opening a client that has a descriptor already, as the expiration of the
    timer does after [obus_socket_client_reconnect], leaks it: the descriptor stays
    open, and no socket has it any more. *)
Theorem opening_again_leaks s p c w m :
  sockets_reachable s -> clients_of s !! p = Some c -> resting p s -> sb_fd (kc_sock c) <> -1 ->
  wps (obus_socket_base_open p) (fun ret s' _ _ => ret = 0 ->
    sb_fd (kc_sock c) ∈ opened (ls_kern s') /\
    forall q v, view (socks_of s') q = Some v -> v_fd v <> sb_fd (kc_sock c)) s w m.
Proof.
  intros I%sockets_reachable_inv Hc HR Hn. pose proof (view_client _ _ _ Hc) as Hv.
  eapply wps_mono; [by eapply wps_base_open|]. intros ret s' w' m' (I' & [[? _]|(_ & fd & Hfd & HU & M & Hop)]); [lia|]. intros _.
  destruct (Hop Hn) as [Hin Hne]. split; [done|].
  destruct M as (s1 & S1 & ->). intros q v Hq. change (view (refd p fd (socks_of s)) q = Some v) in Hq.
  rewrite (refd_view p fd _ _ Hv q) in Hq. destruct (decide (q = p)) as [->|Hqp].
  - injection Hq as <-. by apply not_eq_sym.
  - intros He. apply Hqp. apply (so_distinct _ _ _ _ _ _ (si_socks _ _ _ I) q p v _ Hq Hv); [done|congruence].
Qed.
End Safe.

Section Scripted.
Context {K X : Type} {SK : SocketKernel K} {LE : LawfulEpoll K} {LT : LawfulTimer K} {LA : LawfulArm K}
  {LS : LawfulSocket K} {AL : Allocator} {SV : Serving AL} {IT : InetText} {LI : LawfulInet IT}.

Lemma scripted_lawful script n :
  LawfulSockets (sc_user (scripted_sockets (K := K) (X := X) script n)) /\
  LawfulApp (sc_timers (scripted_sockets (K := K) (X := X) script n)) (sc_objects (scripted_sockets script n)).
Proof.
  induction n as [|n [IH1 IH2]]; cbn.
  - split; split; intros; by apply wps_ret.
  - split; split; intros; by apply (wps_sock_ops (LSC := IH1) (LAP := IH2)).
Qed.

#[export] Instance scripted_sockets_lawful script n : LawfulSockets (sc_user (scripted_sockets (K := K) (X := X) script n)).
Proof. apply scripted_lawful. Qed.
#[export] Instance scripted_app_lawful script n :
  LawfulApp (sc_timers (scripted_sockets (K := K) (X := X) script n)) (sc_objects (scripted_sockets script n)).
Proof. apply scripted_lawful. Qed.
End Scripted.
