(* ===== verification/SocketWitness.v ===== *)
(** * Sockets: a small kernel

    The kernel of LoopRun with timers that may be armed, and sockets whose answers
    are read from a script: the laws that the theorems on sockets rely on hold of
    it, and their witnesses run on it. *)
From Stdlib Require Import Ascii String.
From stdpp Require Import infinite.
From S2P Require Import Prelude Mem Cstring World Bus Handler Utils Loop LoopFacts LoopRun Timer TimerFacts TimerRun Addr AddrFacts Socket SocketLaws SocketInv SocketFacts SocketOps SocketLife SocketAddr SocketClient SocketServer SocketPeer SocketRun SocketSafe.

Module ToySock.
#[local] Existing Instances Toy.toy_fd Toy.toy_epoll Toy.toy_lawful.

(** What [connect] answers next: 0 or an error. *)
Record kernel := Kernel {
  sk_base : Toy.kernel;
  sk_armed : gset Z;
  sk_connects : list positive
}.

Definition with_base (k : kernel) b : kernel := Kernel b (sk_armed k) (sk_connects k).
Definition lift {A} (c : KM Toy.kernel A) : KM kernel A := fun k =>
  (fst (c (sk_base k)), with_base k (snd (c (sk_base k)))).

Lemma lift_inv {A} (c : KM Toy.kernel A) k a k' :
  lift c k = (a, k') -> c (sk_base k) = (a, sk_base k').
Proof. unfold lift. destruct (c (sk_base k)) as [b kb]. by intros [= <- <-]. Qed.

Lemma sock_read_interrupts fd n k k' :
  lift (sys_read fd n) k = (inr EINTR, k') -> (k_interrupts (sk_base k') < k_interrupts (sk_base k))%nat.
Proof. intros H%lift_inv. by eapply read_interrupts. Qed.

Lemma sock_wait_interrupts epfd n t k k' :
  lift (sys_epoll_wait epfd n t) k = (inr EINTR, k') -> (k_interrupts (sk_base k') < k_interrupts (sk_base k))%nat.
Proof. intros H%lift_inv. exact (wait_interrupts (EpollKernel := Toy.toy_epoll) _ _ _ _ _ H). Qed.

#[export] Instance fd_kernel : FdKernel kernel := {|
  sys_fcntl fd c a := lift (sys_fcntl fd c a);
  sys_dup fd := lift (sys_dup fd);
  sys_close fd := lift (sys_close fd);
  sys_open f := lift (sys_open f);
  sys_read fd n := lift (sys_read fd n);
  k_interrupts k := k_interrupts (sk_base k);
  read_interrupts := sock_read_interrupts
|}.

#[export] Instance epoll_kernel : EpollKernel kernel := {|
  ek_fd := fd_kernel;
  sys_epoll_create := lift sys_epoll_create;
  sys_epoll_ctl epfd op fd evt := lift (sys_epoll_ctl epfd op fd evt);
  sys_epoll_wait epfd n t := lift (sys_epoll_wait epfd n t);
  wait_interrupts := sock_wait_interrupts
|}.

Definition toy_settime (fd : Z) (v : itimerspec) (k : kernel) : sysret * kernel :=
  (SysOk 0, Kernel (sk_base k)
     (if bool_decide (tv_sec (it_value v) = 0 /\ tv_nsec (it_value v) = 0) then sk_armed k ∖ {[fd]} else {[fd]} ∪ sk_armed k)
     (sk_connects k)).

Definition toy_read (fd : Z) (k : kernel) : sysret * kernel :=
  if bool_decide (fd ∈ sk_armed k) then (SysOk 1, Kernel (sk_base k) (sk_armed k ∖ {[fd]}) (sk_connects k))
  else (SysErr EAGAIN, k).

Lemma sock_timer_interrupts fd k k' :
  toy_read fd k = (SysErr EINTR, k') -> (k_interrupts k' < k_interrupts k)%nat.
Proof. unfold toy_read. by case_bool_decide. Qed.

(** A new descriptor, of a timer or of a socket. *)
Definition fresh_fd : KM kernel sysret := fun k =>
  (SysOk (Toy.unused_fd (sk_base k)), Kernel (snd (Toy.toy_dup 0 (sk_base k))) (sk_armed k ∖ {[Toy.unused_fd (sk_base k)]}) (sk_connects k)).

#[export] Instance timer_kernel : TimerKernel kernel := {|
  tk_epoll := epoll_kernel;
  sys_timerfd_create := fresh_fd;
  sys_timerfd_settime := toy_settime;
  sys_timerfd_read := toy_read;
  timer_interrupts := sock_timer_interrupts
|}.

Definition toy_connect (fd : Z) (addr : list Z) (k : kernel) : sysret * kernel :=
  match sk_connects k with
  | [] => (SysOk 0, k)
  | e :: l => (SysErr (Z.pos e), Kernel (sk_base k) (sk_armed k) l)
  end.

Definition toy_accept (fd : Z) (k : kernel) : (Z * list Z + Z) * kernel :=
  match fresh_fd k with
  | (SysOk v, k') => (inl (v, [1; 0]), k')
  | (SysErr e, k') => (inr e, k')
  end.

#[export] Instance socket_kernel : SocketKernel kernel := {|
  sk_timer := timer_kernel;
  sk_dir := fun _ _ k => (SysOk 0, k);
  sys_socket _ := fresh_fd;
  sys_setsockopt _ _ _ _ k := (SysOk 0, k);
  sys_shutdown _ k := (SysOk 0, k);
  sys_unlink _ k := (SysOk 0, k);
  sys_bind _ _ k := (SysOk 0, k);
  sys_listen _ _ k := (SysOk 0, k);
  sys_connect := toy_connect;
  sys_accept := toy_accept;
  sys_getsockname _ k := (inl [1; 0], k);
  sys_socket_error _ k := (inl 0, k);
  sys_peer_cred _ k := (inl 1, k)
|}.

(** ** Its laws *)

#[export] Instance epoll_lawful : LawfulEpoll kernel.
Proof.
  pose (L := Toy.toy_lawful).
  refine {| interest k e := interest (LawfulEpoll := L) (sk_base k) e; opened k := opened (LawfulEpoll := L) (sk_base k) |}.
  - intros fd c a k e. exact (fcntl_frame (LawfulEpoll := L) fd c a (sk_base k) e).
  - intros fd c a k. exact (fcntl_opened (LawfulEpoll := L) fd c a (sk_base k)).
  - intros fd c a k e k' H%lift_inv. exact (fcntl_errno (LawfulEpoll := L) _ _ _ _ _ _ H).
  - intros fd k e. exact (dup_frame (LawfulEpoll := L) fd (sk_base k) e).
  - intros fd k e k' H%lift_inv. exact (dup_error (LawfulEpoll := L) _ _ _ _ H).
  - intros fd k v k' H%lift_inv. exact (dup_fresh (LawfulEpoll := L) _ _ _ _ H).
  - intros fd k e. exact (close_frame (LawfulEpoll := L) fd (sk_base k) e).
  - intros fd k. exact (close_opened (LawfulEpoll := L) fd (sk_base k)).
  - intros fd k e k' H%lift_inv. exact (close_errno (LawfulEpoll := L) _ _ _ _ H).
  - intros k v k' H%lift_inv. exact (create_empty (LawfulEpoll := L) _ _ _ H).
  - intros epfd op fd evt k. exact (ctl_opened (LawfulEpoll := L) epfd op fd evt (sk_base k)).
  - intros epfd fd evt k v k' H%lift_inv. exact (ctl_add (LawfulEpoll := L) _ _ _ _ _ _ H).
  - intros epfd fd evt k k' H%lift_inv. exact (ctl_exist (LawfulEpoll := L) _ _ _ _ _ H).
  - intros epfd fd k v k' H%lift_inv. exact (ctl_del (LawfulEpoll := L) _ _ _ _ _ H).
  - intros epfd fd k e k' H%lift_inv. exact (ctl_del_member (LawfulEpoll := L) _ _ _ _ _ H).
  - intros epfd fd k v k' H%lift_inv. exact (ctl_null (LawfulEpoll := L) _ _ _ _ _ H).
  - intros epfd op fd evt k e k' H%lift_inv. exact (ctl_error (LawfulEpoll := L) _ _ _ _ _ _ _ H).
  - intros epfd n t k e. exact (wait_frame (LawfulEpoll := L) epfd n t (sk_base k) e).
  - intros epfd n t k. exact (wait_opened (LawfulEpoll := L) epfd n t (sk_base k)).
  - intros epfd n t k e k' H%lift_inv. exact (wait_errno (LawfulEpoll := L) _ _ _ _ _ _ H).
  - intros epfd n t k evs k' H%lift_inv. exact (wait_reports (LawfulEpoll := L) _ _ _ _ _ _ H).
Defined.

Lemma fresh_opens k e : opens e (Toy.unused_fd (sk_base k)) k (snd (fresh_fd k)).
Proof.
  destruct (Toy.unused_fd_new (sk_base k)) as [H1 H2]. by split_and!.
Qed.

#[export] Instance timer_lawful : LawfulTimer kernel.
Proof.
  split.
  - intros k e. reflexivity.
  - intros k e k' H. discriminate H.
  - intros k v k' [= <- <-]. destruct (fresh_opens k 0) as (H1 & H2 & _ & H4). by split_and!.
  - intros fd v k e. split; reflexivity.
  - intros fd v k e k' H. discriminate H.
  - intros fd k e. cbn. unfold toy_read. by case_bool_decide.
  - intros fd k e k'. cbn. unfold toy_read. by case_bool_decide; [|intros [= <- _]].
Qed.

#[export] Instance arm_lawful : LawfulArm kernel.
Proof.
  refine {| armed := sk_armed |}; try (intros *; intros k; cbn; done).
  - intros k. cbn. set_solver.
  - intros k v k' [= <- <-]. cbn. set_solver.
  - intros fd v k. cbn. case_bool_decide; set_solver.
  - intros fd k. cbn. set_solver.
  - intros fd k. cbn. unfold toy_read. case_bool_decide; cbn; set_solver.
  - intros fd k v k'. cbn. unfold toy_read. case_bool_decide; [|done]. intros [= _ <-]. cbn. split; [done|set_solver].
Defined.

Lemma inert_quiet {A} (a : A) : quiet (fun k : kernel => (a, k)).
Proof. by split; [intros k e|intros k]. Qed.

#[export] Instance socket_lawful : LawfulSocket kernel.
Proof.
  split; try (intros *; apply inert_quiet).
  - intros t k e. split; [cbn; set_solver|apply fresh_opens].
  - intros fd k e. split; [cbn; set_solver|apply fresh_opens].
  - by intros fd k v bs k' [= <- <- _].
  - intros fd a. split; [intros k e|intros k]; cbn; unfold toy_connect; by destruct (sk_connects k).
  - intros t k e k' H. discriminate H.
  - intros fd l o v k e k' H. discriminate H.
  - intros fd a k e k' H. discriminate H.
  - intros fd n k e k' H. discriminate H.
Qed.
End ToySock.

Section Witnesses.
#[local] Existing Instance ample_alloc.
#[local] Existing Instances ToySock.fd_kernel ToySock.epoll_kernel ToySock.timer_kernel ToySock.socket_kernel.
#[local] Existing Instances ToySock.epoll_lawful ToySock.timer_lawful ToySock.arm_lawful ToySock.socket_lawful.

(** No text is an internet address here. *)
#[local] Instance no_inet : InetText := {| inet_pton _ _ := None; inet_ntop _ _ := None |}.
#[local] Instance no_inet_lawful : LawfulInet no_inet.
Proof. by intros family text bytes H. Qed.
#[local] Instance wit_serving : Serving ample_alloc := {| serving := true; serving_ample := fun _ => ample_alloc_ample |}.

#[local] Notation wst := (lstate ToySock.kernel (tstate (sstate unit))).

(** A client that has connected makes a server, which destroys the client when it
    accepts its first connection. *)
Definition wit_sock_script (cb : Z) (p : positive) : list sock_op :=
  if decide (cb = 7) then [NewServer (chars "unix:/tmp/s") 8 0 0] else [DestroyClient 1].
Definition wit_socks : sock_code ToySock.kernel unit := scripted_sockets wit_sock_script 2.
#[local] Instance wit_sock_code : LoopCode ToySock.kernel (tstate (sstate unit)) := code_loop wit_socks.
#[local] Instance wit_sock_lawful : LawfulSockets (sc_user wit_socks) := scripted_sockets_lawful wit_sock_script 2.
#[local] Instance wit_app_lawful : LawfulApp (sc_timers wit_socks) (sc_objects wit_socks) := scripted_app_lawful wit_sock_script 2.
Notation wit_reachable := (sockets_reachable (SC := sc_user wit_socks) (ot := sc_timers wit_socks) (ol := sc_objects wit_socks)).

Definition wit_sock_new (ready : list (list (Z * Z) + positive)) (connects : list positive) : option wst :=
  match obus_loop_new (K := ToySock.kernel) (ToySock.Kernel (Toy.Kernel ∅ ∅ ready) ∅ connects) mem0 with
  | Some ((Some lp, k), _) => Some (LState k (Some lp) ∅ (TState ∅ (SState ∅ ∅ ∅ tt)))
  | _ => None
  end.
Definition wit_sock_step (r : option wst) (op : sock_op) : option wst :=
  s ← r; match allowed_sock_op op s wit_world mem0 with Some ((_, s'), _, _) => Some s' | None => None end.

Lemma wit_sock_reachable ready connects ops s :
  fold_left wit_sock_step ops (wit_sock_new ready connects) = Some s -> wit_reachable s.
Proof.
  assert (forall r, (forall s, r = Some s -> wit_reachable s) -> forall s, fold_left wit_sock_step ops r = Some s -> wit_reachable s) as H.
  { induction ops as [|op l IH]; intros r Hr; [exact Hr|]. cbn [fold_left]. apply IH. intros s1. destruct r as [s0|]; [|done]. cbn.
    destruct (allowed_sock_op op s0 wit_world mem0) as [[[[[] s2] w2] m2]|] eqn:E; [|done]. intros [= <-].
    unfold allowed_sock_op in E. erewrite run_bind in E by reflexivity. cbn [id] in E.
    destruct (sock_op_allowed s0 op) eqn:Ha; [eapply sockets_op; [by apply Hr|exact Ha|exact E]|].
    injection E as <- <- <-. by apply Hr. }
  apply H. intros s1. unfold wit_sock_new. destruct (obus_loop_new _ mem0) as [[[[lp|] k] m]|] eqn:E; [|done..].
  intros [= <-]. by eapply sockets_new.
Qed.

Definition wit_process : sock_op := AppOp (OwnOp LoopProcess).
Definition wit_client : sock_op := NewClient (chars "inet:x:80") 7 0 0.

(** The timer of the client fires, the connection is in progress; it is made; the
    server accepts. *)
Definition wit_served : option wst :=
  fold_left wit_sock_step [wit_client; wit_process; wit_process; wit_process]
    (wit_sock_new [inl [(101, 1)]; inl [(102, 4)]; inl [(104, 1)]] [115%positive]).


(** The client is connecting. *)
Definition wit_connecting : option wst :=
  fold_left wit_sock_step [wit_client; wit_process] (wit_sock_new [inl [(101, 1)]] [115%positive]).

(** Its first attempt will be refused (ECONNREFUSED). *)
Definition wit_refused : option wst := fold_left wit_sock_step [wit_client] (wit_sock_new [] [111%positive]).

(** The removal, and the opening, that the two ways to fail start with. *)
Definition wit_gone : option (Z * wst) :=
  s ← wit_connecting; match obus_loop_remove 1 s wit_world mem0 with Some (r, _, _) => Some r | None => None end.
Definition wit_opened : option (Z * wst) :=
  s ← wit_refused; match obus_socket_base_open 1 s wit_world mem0 with Some (r, _, _) => Some r | None => None end.

Lemma failed_connection_retries_witness :
  (exists s, wit_connecting = Some s /\
    wps (obus_socket_client_events (SC := sc_user wit_socks) 1 OBUS_FD_ERR)
      (fun _ s' _ _ => 102 ∉ opened (ls_kern s')) s wit_world mem0) /\
  exists s, wit_refused = Some s /\
    wps (obus_socket_client_do_connect (SC := sc_user wit_socks) 1)
      (fun _ s' _ _ => exists t, timers_of s' !! t = Some (Timer OBUS_SOCKET_CONN_INTVL CONNECT_TIMER 1)) s wit_world mem0.
Proof.
  split.
  - destruct wit_connecting as [s|] eqn:E; [|vm_compute in E; discriminate E].
    pose proof (wit_sock_reachable _ _ _ s E) as Hr.
    assert (option_map (fun c => sb_fd (kc_sock c)) (clients_of s !! 1%positive) = Some 102 /\
      option_map fd_loop (ls_fds s !! 1%positive) = Some true) as [H1 H2].
    { vm_compute in E. injection E as <-. split; vm_compute; reflexivity. }
    assert (option_map fst wit_gone = Some 0) as Hg by (vm_compute; reflexivity).
    unfold wit_gone in Hg. rewrite E in Hg. cbn [mbind option_bind] in Hg.
    destruct (obus_loop_remove 1 s wit_world mem0) as [[[[r s1] w1] m1]|] eqn:ER; [|discriminate Hg].
    destruct (clients_of s !! 1%positive) as [c|] eqn:Ec; [|discriminate H1]. injection H1 as H1.
    destruct (ls_fds s !! 1%positive) as [o|] eqn:Eo; [|discriminate H2]. injection H2 as H2.
    exists s. split; [reflexivity|].
    destruct (failed_connection_retries s 1 c wit_world mem0 Hr Ec) as [HA _].
    destruct (HA o OBUS_FD_ERR r s1 w1 m1 (ls_kern s1) Eo H2 ER eq_refl) as [_ HW].
    eapply wps_mono; [exact HW|]. intros [] s' w' m' (_ & _ & H & _). rewrite H1 in H. exact H.
  - destruct wit_refused as [s|] eqn:E; [|vm_compute in E; discriminate E].
    pose proof (wit_sock_reachable _ _ _ s E) as Hr.
    assert (is_Some (clients_of s !! 1%positive) /\ option_map fd_loop (ls_fds s !! 1%positive) = Some false) as [[c Ec] H2].
    { vm_compute in E. injection E as <-. split; [|vm_compute; reflexivity]. vm_compute. eexists. reflexivity. }
    assert (option_map (fun r => (fst r, option_map (fun c => sb_fd (kc_sock c)) (clients_of (snd r) !! 1%positive),
      ToySock.sk_connects (ls_kern (snd r)))) wit_opened = Some (0, Some 102, [111%positive])) as Hg by (vm_compute; reflexivity).
    unfold wit_opened in Hg. rewrite E in Hg. cbn [mbind option_bind] in Hg.
    destruct (obus_socket_base_open 1 s wit_world mem0) as [[[[r s1] w1] m1]|] eqn:ER; [|discriminate Hg].
    cbn in Hg. injection Hg as -> H1 Hcon.
    destruct (clients_of s1 !! 1%positive) as [c1|] eqn:Ec1; [|discriminate H1].
    destruct (ls_fds s !! 1%positive) as [o|] eqn:Eo; [|discriminate H2]. injection H2 as H2.
    exists s. split; [reflexivity|].
    destruct (failed_connection_retries s 1 c wit_world mem0 Hr Ec) as [_ HA].
    eapply wps_mono; [eapply (HA s1 w1 m1 c1 111); [exists o; split; [exact Eo|exact H2]|exact ER|exact Ec1| |discriminate]|].
    + cbn. unfold ToySock.toy_connect. rewrite Hcon. reflexivity.
    + intros [] s' w' m' (_ & _ & _ & t & tm & ot & _ & _ & _ & H). cbn in H. destruct H as [_ ->].
      exists t. rewrite lookup_insert_eq. reflexivity.
Defined.

(** It is reconnected: its new descriptor takes the number of the old one, and its
    timer waits. *)
Definition wit_reconnected : option wst :=
  fold_left wit_sock_step [wit_client; wit_process; Reconnect 1] (wit_sock_new [inl [(101, 1)]] [115%positive]).

Lemma opening_again_leaks_witness :
  exists s c, wit_reconnected = Some s /\ clients_of s !! 1%positive = Some c /\ sb_fd (kc_sock c) = 102 /\
    wps (obus_socket_base_open 1) (fun ret s' _ _ => ret = 0 -> 102 ∈ opened (ls_kern s') /\
      forall q v, view (socks_of s') q = Some v -> v_fd v <> 102) s wit_world mem0.
Proof.
  destruct wit_reconnected as [s|] eqn:E; [|vm_compute in E; discriminate E].
  pose proof (wit_sock_reachable _ _ _ s E) as Hr.
  assert (option_map (fun c => sb_fd (kc_sock c)) (clients_of s !! 1%positive) = Some 102 /\
    option_map fd_loop (ls_fds s !! 1%positive) = Some false) as [H1 H2].
  { vm_compute in E. injection E as <-. split; vm_compute; reflexivity. }
  destruct (clients_of s !! 1%positive) as [c|] eqn:Ec; [|discriminate H1]. injection H1 as H1.
  destruct (ls_fds s !! 1%positive) as [o|] eqn:Eo; [|discriminate H2]. injection H2 as H2.
  exists s, c. split; [reflexivity|]. split; [exact Ec|]. split; [exact H1|].
  assert (resting 1 s) as HR by (exists o; split; [exact Eo|exact H2]).
  assert (sb_fd (kc_sock c) <> -1) as Hn by (rewrite H1; discriminate).
  eapply wps_mono; [exact (opening_again_leaks s 1 c wit_world mem0 Hr Ec HR Hn)|].
  intros ret s' w' m' H. rewrite H1 in H. exact H.
Defined.
End Witnesses.
